(* ===== verification/_CoqProject ===== *)
-Q . S2P
Prelude.v
RustStd.v
Frame.v
Caps.v
Kernel.v
Sched.v
TaskOps.v
Input.v
Syscall.v
ElfSafety.v
MemLaws.v
KernelInv.v
KernelMem.v
KernelSpawn.v
KernelExit.v
KernelIpc.v
KernelSafety.v
SimpleMem.v
FrameOwn.v
Paging.v
PagingInv.v
PagingLaws.v
PagingSpaces.v
PagingMem.v
Boot.v
CapSafety.v
Reachable.v
PagedKernel.v
IpcSpec.v
KernelTheorems.v
HashStream.v
Sha256.v
Sha512.v
Hmac.v
ChaCha20.v
Layout.v
LayoutTheorems.v
CryptoTheorems.v
Ed25519.v
Limbs.v
Ed25519Field.v
Primes.v
Edwards.v
Ed25519Curve.v
Ed25519Scalar.v
Ed25519Sign.v
Ed25519Theorems.v
Prog.v
Userlib.v
UserlibTheorems.v
Strings.v
StorageText.v
StorageConfig.v
Storaged.v
StorageEnv.v
StorageLoad.v
StorageAudit.v
StorageInv.v
StorageApps.v
StorageInstall.v
StorageUpdate.v
StorageMount.v
StorageServe.v
StorageSim.v
StorageTheorems.v
StorageWitness.v
Updated.v
UpdatedTheorems.v
Initfs.v
Traced.v
InitfsTheorems.v
Supd.v
SupdTheorems.v
Requests.v
Delivery.v
Console.v
ConsoleTheorems.v
Shell.v
Agt.v
Ata.v
