(* ===== verification/Prelude.v ===== *)
(** * Redoubt OS: a verification development

    Redoubt is a capability microkernel in Rust (src/kernel) with user-space
    servers (src/servers) over a user library (src/userlib), a shared no_std
    crypto and disk-layout library (src/crypto) and host tools (src/tools).
    This library models the kernel from boot to the last system call, its page
    tables, frame allocator and disk driver, the cryptographic library with
    Ed25519, the sector codecs of the volume, the user library, every server
    and the provisioning tool, and proves what they promise, one by one and
    where they meet.

    ** How the parts interact

    A trap stub saves the user registers in a [TrapFrame] on the task's kernel
    stack and calls the scheduler's trap handler (sched.rs), which serves the
    timer itself and hands system calls to [dispatch] (syscall.rs).  The
    handlers read and write the task table (task.rs), the ready queue, the
    endpoints and the parked keyboard readers (input.rs); they create and
    destroy tasks through the ELF loader and the reaper (task.rs), which use
    the frame allocator (frame.rs) and the page tables (paging.rs), and they
    reach the disk through the ATA driver under block capabilities (caps.rs).
    [kernel_main] (main.rs) hands the first capabilities to the first two
    tasks.  User programs reach the kernel through the stubs of
    userlib/src/lib.rs and talk to each other in five-word messages.  The
    storage service (servers/storaged) owns the volume: it mounts it, serves
    queries and configuration, installs applications and runs the update agent
    as a child with two derived block windows (servers/updated).  It and the
    host tool (tools/agt) read and write the volume through the codecs of
    layout.rs, which rest on SHA-256, HMAC and ChaCha20; payloads and packages
    carry Ed25519 signatures.  initfs is the first task: it verifies the
    programs built into it, starts storage, supervisor and shell, and hands
    programs out in pieces of one message.  The supervisor (supd) keeps the
    services of the volume's roster running; the console server edits keyboard
    input into lines and the shell turns lines into requests to the others.

    ** Files

    - [Prelude] (this file): notations, hint databases, tactics, lemmas on
      machine words, bytes, slices and lists; [RustStd]: the core-library
      functions the sources call (byte order, slices, chunks, UTF-8, decimals).
    - [Frame]: frame.rs, every branch and every assertion; [FrameOwn]: who
      owns which frames, over sequences of allocations.
    - [Caps]: caps.rs and the table operations of task.rs; the attenuation order.
    - [Kernel]: the types and statics of task.rs, trap.rs, syscall.rs,
      sched.rs and input.rs as one record [Kernel], and the two interfaces
      [MemOps] (address spaces, frames, kernel stacks: frame.rs and paging.rs)
      and [DiskOps] (ata.rs).
    - [Sched] (sched.rs), [TaskOps] (task.rs), [Input] (input.rs), [Syscall]
      (syscall.rs), [Boot] (main.rs): one definition per function of the
      source, under its name.
    - [MemLaws]: the contract of the memory manager as a type class of Hoare
      triples over ownership; [SimpleMem]: an instance of it that runs.
    - [Paging]: paging.rs over byte memory and the frame allocator; the entry
      format of the x86_64 crate is the class [PageEntry] with its laws.
      [PagingInv], [PagingLaws], [PagingSpaces]: the tables form disjoint
      trees and every operation keeps them so; [PagingMem]: paging and frame
      allocator together as an instance of [MemLaws]; [PagedKernel]: the
      kernel running on them.
    - [KernelInv]: the kernel invariant; [KernelMem], [KernelSpawn],
      [KernelExit], [KernelIpc], [KernelSafety]: every handler keeps it;
      [ElfSafety]: the validation of an ELF image; [CapSafety]: authority;
      [IpcSpec]: what IPC and termination deliver.
    - [Reachable], [KernelTheorems]: the machine as a transition system, the
      end-to-end theorems and the functional ones, with runs of a small
      machine as witnesses.
    - [HashStream], [Sha256], [Sha512], [Hmac], [ChaCha20], [CryptoTheorems]:
      src/crypto less ed25519.rs.
    - [Ed25519]: ed25519.rs; [Limbs], [Ed25519Field]: the radix-2^51 field
      arithmetic; [Primes]: primality of the field size and of the group
      order; [Edwards]: the group law of the curve; [Ed25519Curve],
      [Ed25519Scalar], [Ed25519Sign], [Ed25519Theorems]: point operations,
      scalars, signing and verification.
    - [Layout], [LayoutTheorems]: layout.rs.
    - [Prog]: state-and-panic programs and their weakest preconditions;
      [Userlib], [UserlibTheorems]: userlib/src/lib.rs over the trap
      instruction, which is the class [Abi].
    - [StorageText], [Storaged]: servers/storaged/src/main.rs, one definition
      per function.  [StorageConfig]: the key=value text; [StorageEnv]: the
      contract of the system calls the service makes as the class [Volume];
      [StorageLoad], [StorageAudit], [StorageInv], [StorageApps],
      [StorageInstall], [StorageUpdate], [StorageMount], [StorageServe]: one
      group of operations each; [StorageSim]: a machine with a disk, faults, a
      clock and a scripted agent that satisfies the contract;
      [StorageTheorems], [StorageWitness].
    - [Strings]: string slices and hexadecimal keys, shared by the programs;
      [Updated], [UpdatedTheorems]: servers/updated, over the contract
      [Windows] of its two block windows; [Initfs], [InitfsTheorems]:
      servers/initfs, observed through [Traced], which records the system
      calls of a program over an arbitrary kernel; [Supd], [SupdTheorems]:
      servers/supd, over the contract [Children] of the kernel's child
      reports; [Console], [ConsoleTheorems]: servers/console, over the
      contract [Terminal]; [Shell]: servers/shell, and servers/hello and
      servers/heart.
    - [Requests]: the request texts and a client calling a server;
      [Delivery]: the supervisor with initfs, and initfs with the storage
      service, as two pairs of programs.
    - [Agt]: tools/agt over host files with transfer faults, and its commands
      followed into the programs of the device.
    - [Ata]: kernel/src/ata.rs over input and output ports, against the
      contract [AtaDevice] of a drive.

    ** Conventions

    A w-bit integer is a [Z] with its wrap-around written out ([wrap], [add64]);
    the shipped profile is release, so plain [+] wraps and [debug_assert] is
    absent.  A kernel panic, an index out of range, a dereference of a frame
    that does not exist is [None]; the [Result] and [Option] values of the
    source are ordinary values inside it.  Handlers pass the state
    explicitly: [Kernel -> option (Control * Kernel)], where [Control] is what
    the trap stub does next (resume a frame or idle).  Trap frames live in a map keyed
    by the address the kernel computes, so a write through a stale pointer is
    visible in the model.  A user program is [prog S A], a function of its
    state and of the world behind the trap instruction to a result or a panic.

    ** What the theorems show

    - Safety of the whole kernel: from boot, over any sequence of system
      calls with arbitrary arguments, ticks, faults and keys but one, no panic
      and no wild pointer, the invariant holds and every parked keyboard reader
      has a buffer in user space and an address space of its own
      ([kernel_step_safe], [boot_safe]).  The exception ([allowed]) is a key
      while the first parked reader has been killed and torn down: the kernel
      leaves it parked and stores the key through its old page table, which
      [dead_reader_hit] follows into the memory of another task.  Every resource of a dead task is returned ([teardown_complete]); the
      same on the page tables and the frame allocator themselves
      ([paged_kernel_safe], [user_memory_isolated], [frames_returned]).
    - Authority: capabilities only attenuate and are rooted at boot
      ([capabilities_rooted], [authority_confined]); the disk changes only
      inside the boot window ([disk_confined]).
    - Functional behaviour: rendezvous, queueing, reply, exit, wait, timed
      wake-up, frame allocation; a loaded image has its pages apart, in user
      space and its entry inside an executable segment ([elf_plan_safe]).
    - Cryptography: streaming equals the one-shot reference, HMAC is
      RFC 2104 with the key prepared as the RFC says ([rfc_key]); encryption is an involution, resumable at any block; signatures verify
      and verification decides the group equation; field arithmetic neither
      overflows nor loses a bit; published vectors evaluate.
    - Disk driver: on a drive that follows the standard the driver is a disk
      ([drive_refines_disk]); it returns whatever the ports answer
      ([driver_total]).
    - Volume: parsers invert writers, sealed images open, the signed form of
      an application is injective, the audit chain is tamper evident.
    - Storage service: what it runs is authentic, and while it has memory every
      round returns, whatever transfers fail and whatever the agent writes in
      its window ([service_rounds_return]); updates and installations are all
      or nothing, on the sectors of the volume themselves; the log is
      append-only; a setting reads back, also after a restart.
    - Update agent: its exit code tells the state of the slot
      ([agent_verdict]).  initfs: it starts nothing the pinned key did not
      sign ([initfs_launches_verified]).  Supervisor: its table is
      well formed and agrees with the children that live and those reported
      ([supervisor_table_typed], [supervisor_owns_children], [restart_policy]).
      Console: the lines of the keys reach their readers in order, up to a
      message and less the reads of nine keys, which userlib takes for an
      error code ([console_lines_fifo], [console_nine_keys]).
      Shell: its system calls are those of its vocabulary ([shell_confined]).
    - Servers together: a program fetched message by message is the program
      that was built in or installed ([fetch_delivers],
      [installed_app_delivered], the latter on a disk without faults while the
      service's cache is truthful).
    - From the workshop to the device: keys, volumes, updates and applications
      the tool writes are what the device reads, mounts, copies and installs
      ([keygen_roundtrip], [mkvol_mounts], [update_delivered], [app_installs]).
    - User library: both message codecs deliver what was packed; heap blocks
      are disjoint.
    - Defects stated as theorems: [busy_endpoint_strands],
      [kill_overwrites_exit_code], [stale_cache_serves_staging],
      [stop_in_backoff], and the back-off that never grows in
      [restart_policy].

    ** Assumptions

    [PageEntry]: a page-table entry stores a frame address and the present,
    writable, user and no-execute bits independently of each other.  Usable
    memory regions are separate ([regions_separate]), as firmware reports
    them: see the finding on merged ranges.  [Volume]: a read that succeeds
    returns the sectors of the disk, a write that succeeds replaces them, one
    that fails leaves them unknown; other tasks write only inside the window
    the service lends; clocks do not go backwards nor wrap.  [StorageSim] is an instance.  [Windows], [Children],
    [Terminal] and [AtaDevice] state in the same way what the update agent,
    the supervisor, the console server and the disk driver rely on, with
    [AgentSim], [ChildSim], [TermSim] and [DriveSim] as instances.  The heap of
    a task (userlib lib.rs, one mebibyte, never reclaimed) does not run out: a
    theorem about any number of passes of a server speaks of the passes whose
    allocations succeed.  What a
    build puts into a program (keys, the manifest and its signature, program
    images) is a parameter.

    ** Fuel

    The loops of the hashers take as fuel the length of the data (each
    iteration consumes a block) and the block size (each padding step fills a
    byte); decimal printing takes 20 digits, the most a u64 has; the search of the ready
    queue its length; [chunks] the length of the list; the carry loop of
    [Ed25519.to_bytes] two passes.  The transfer loops of the storage service
    take one pass per 4096 bytes, and the wait for the agent 4300: each
    collects one of at most 4095 children or sleeps ten of 1200 ticks.  The
    supervisor collects at most 4095 children in a pass ([REAP_FUEL]); the
    console drains no more keys than are unread; a program is fetched in one
    pass per chunk, and every chunk holds a byte; the disk driver polls the
    status as often as the source does.  The theorems show results, so fuel is
    never assumed to suffice.  The endless loops of the servers are their
    first [n] passes, for every [n].

    ** Not modelled

    The descriptor tables, the interrupt stubs and the handlers that print and
    halt (gdt.rs, interrupts.rs, the assembly of trap.rs); the framebuffer and
    serial consoles (fbcon.rs, font.rs, serial.rs, console.rs), whose text is
    the [CONSOLE] field; the set-up of the third-party heap (heap.rs) and the
    rest of the bring-up in main.rs before the first endpoint; the build script
    of initfs; the fault test, a single undefined instruction; the inspect
    command, the usage text and all printing of the host tool. *)

From Stdlib Require Export ZArith Lia.
From stdpp Require Export prelude list gmap.

Open Scope Z_scope.

(** Sequencing of computations that can panic: [None] ends the sequence. *)
Declare Scope redoubt_scope.
Delimit Scope redoubt_scope with redoubt.
Notation "'let?' x := e 'in' k" := (match e with Some x => k | None => None end)
  (at level 200, x pattern, e at level 200, k at level 200, right associativity) : redoubt_scope.
Open Scope redoubt_scope.

(** [Result<A, E>] *)
Inductive result (A E : Type) := Ok (a : A) | Err (e : E).
Arguments Ok {A E} a.
Arguments Err {A E} e.

(** ** Hint databases and tactics of the development *)

Create HintDb redoubt discriminated.
Create HintDb widths discriminated.
Create Rewrite HintDb redoubt.
Create Rewrite HintDb widths.

(** Split every boolean connective and comparison of the context. *)
Ltac bool_facts :=
  repeat match goal with
  | H : _ && _ = true |- _ => apply andb_true_iff in H; destruct H
  | H : _ || _ = false |- _ => apply orb_false_iff in H; destruct H
  | H : negb _ = true |- _ => apply negb_true_iff in H
  | H : negb _ = false |- _ => apply negb_false_iff in H
  | H : (_ =? _) = true |- _ => apply Z.eqb_eq in H
  | H : (_ =? _) = false |- _ => apply Z.eqb_neq in H
  | H : (_ <=? _) = true |- _ => apply Z.leb_le in H
  | H : (_ <=? _) = false |- _ => apply Z.leb_gt in H
  | H : (_ <? _) = true |- _ => apply Z.ltb_lt in H
  | H : (_ <? _) = false |- _ => apply Z.ltb_ge in H
  end.

(** Case analysis on the scrutinee of the first [match]/[if] of a hypothesis
    or of the goal, remembering the equation. *)
Ltac split_match_in H :=
  match type of H with
  | context [match ?x with _ => _ end] => destruct x eqn:?
  end.
Ltac split_match :=
  match goal with
  | |- context [match ?x with _ => _ end] => destruct x eqn:?
  end.

(** ** Machine integers

    A [w]-bit unsigned integer is a [Z] in [[0, 2^w)]; the operators that the
    code leaves to the release profile wrap around, the [checked_] and
    [saturating_] ones are written out. *)

Definition wrap (w z : Z) : Z := z mod 2 ^ w.
Abbreviation u8 := (wrap 8) (only parsing).
Abbreviation u16 := (wrap 16) (only parsing).
Abbreviation u32 := (wrap 32) (only parsing).
Abbreviation u64 := (wrap 64) (only parsing).

Definition fits (w z : Z) : Prop := 0 <= z < 2 ^ w.

Definition u64_max : Z := 2 ^ 64 - 1.
Definition u32_max : Z := 2 ^ 32 - 1.

(** [a.wrapping_add(b)] and the plain [+] of the release profile. *)
Definition add64 (a b : Z) : Z := wrap 64 (a + b).
Definition add32 (a b : Z) : Z := wrap 32 (a + b).

Definition checked_add64 (a b : Z) : option Z :=
  if a + b <? 2 ^ 64 then Some (a + b) else None.
Definition checked_mul64 (a b : Z) : option Z :=
  if a * b <? 2 ^ 64 then Some (a * b) else None.
Definition saturating_add64 (a b : Z) : Z := Z.min (a + b) u64_max.

(** [x.rotate_right(n)], [x.rotate_left(n)] and [!x] at width [w]. *)
Definition rotate_right (w n x : Z) : Z := Z.lor (Z.shiftr x n) (wrap w (Z.shiftl x (w - n))).
Definition rotate_left (w n x : Z) : Z := Z.lor (wrap w (Z.shiftl x n)) (Z.shiftr x (w - n)).
Definition bit_not (w x : Z) : Z := Z.lxor x (2 ^ w - 1).

Lemma wrap_fits w z : 0 <= w -> fits w (wrap w z).
Proof. intros. apply Z.mod_pos_bound. lia. Qed.

Lemma wrap_small w z : fits w z -> wrap w z = z.
Proof. intros. apply Z.mod_small. exact H. Qed.

Lemma wrap_wrap w z : 0 <= w -> wrap w (wrap w z) = wrap w z.
Proof. intros. by apply wrap_small, wrap_fits. Qed.

Lemma add64_small a b : 0 <= a -> 0 <= b -> a + b < 2 ^ 64 -> add64 a b = a + b.
Proof. intros. apply wrap_small. red; lia. Qed.

Lemma checked_add64_Some a b c :
  checked_add64 a b = Some c <-> c = a + b /\ a + b < 2 ^ 64.
Proof.
  unfold checked_add64. destruct (Z.ltb_spec (a + b) (2 ^ 64)).
  - split; [intros [= <-]; lia | intros [-> _]; done].
  - split; [done | lia].
Qed.

#[export] Hint Resolve wrap_fits : widths.
#[export] Hint Rewrite wrap_small using (red; lia) : widths.

(** Bit masks: intersection with a mask can only clear bits. *)
Definition subset_bits (a b : Z) : Prop := Z.land a b = a.

Lemma land_subset_l a b : subset_bits (Z.land a b) a.
Proof. unfold subset_bits. by rewrite (Z.land_comm a b), <- Z.land_assoc, Z.land_diag. Qed.

Lemma land_subset_r a b : subset_bits (Z.land a b) b.
Proof. unfold subset_bits. by rewrite <- Z.land_assoc, Z.land_diag. Qed.

Lemma subset_bits_refl a : subset_bits a a.
Proof. apply Z.land_diag. Qed.

Lemma subset_bits_trans a b c : subset_bits a b -> subset_bits b c -> subset_bits a c.
Proof.
  unfold subset_bits. intros Hab Hbc.
  by rewrite <- Hab, <- Z.land_assoc, Hbc.
Qed.

#[global] Instance subset_bits_preorder : PreOrder subset_bits.
Proof. split; [exact subset_bits_refl | exact subset_bits_trans]. Qed.

(** A right required of an attenuated mask was in the wider one. *)
Lemma subset_bits_need a b need :
  subset_bits a b -> Z.land a need = need -> Z.land b need = need.
Proof.
  unfold subset_bits. intros Hab Hn.
  rewrite <- Hn at 1. rewrite Z.land_assoc, (Z.land_comm b a), Hab. exact Hn.
Qed.

#[export] Hint Resolve land_subset_l land_subset_r subset_bits_refl : redoubt.

(** ** Bytes and little-endian words

    A byte is a [Z] in [[0, 256)]. *)

Definition is_byte (b : Z) : Prop := 0 <= b < 256.
Abbreviation bytes_ok := (Forall is_byte).

(** [x.to_le_bytes()] at [n] bytes, and [from_le_bytes]. *)
Fixpoint to_le_bytes (n : nat) (z : Z) : list Z :=
  match n with
  | O => []
  | S n => z mod 256 :: to_le_bytes n (z / 256)
  end.

Fixpoint from_le_bytes (bs : list Z) : Z :=
  match bs with
  | [] => 0
  | b :: bs => b + 256 * from_le_bytes bs
  end.

Definition to_be_bytes (n : nat) (z : Z) : list Z := rev (to_le_bytes n z).
Definition from_be_bytes (bs : list Z) : Z := from_le_bytes (rev bs).

Lemma length_to_le_bytes n z : length (to_le_bytes n z) = n.
Proof. revert z; induction n; simpl; auto. Qed.

Lemma length_to_be_bytes n z : length (to_be_bytes n z) = n.
Proof. unfold to_be_bytes. by rewrite length_rev, length_to_le_bytes. Qed.

Lemma to_le_bytes_ok n z : bytes_ok (to_le_bytes n z).
Proof.
  revert z; induction n as [|n IH]; intros z; simpl; constructor; auto.
  apply Z.mod_pos_bound; lia.
Qed.

Lemma from_le_to_le n z :
  from_le_bytes (to_le_bytes n z) = z mod 256 ^ Z.of_nat n.
Proof.
  revert z; induction n as [|n IH]; intros z.
  - simpl. by rewrite Z.mod_1_r.
  - cbn [to_le_bytes from_le_bytes].
    rewrite IH, Nat2Z.inj_succ, Z.pow_succ_r by lia.
    rewrite Z.rem_mul_r by lia. lia.
Qed.

Lemma from_le_to_le_small n z :
  0 <= z < 256 ^ Z.of_nat n -> from_le_bytes (to_le_bytes n z) = z.
Proof. intros. rewrite from_le_to_le. by apply Z.mod_small. Qed.

Lemma from_le_bound bs : bytes_ok bs -> 0 <= from_le_bytes bs < 256 ^ Z.of_nat (length bs).
Proof.
  induction 1 as [|b bs Hb _ IH]; cbn [from_le_bytes length].
  - lia.
  - rewrite Nat2Z.inj_succ, Z.pow_succ_r by lia. red in Hb. lia.
Qed.

Lemma to_le_from_le bs : bytes_ok bs -> to_le_bytes (length bs) (from_le_bytes bs) = bs.
Proof.
  induction 1 as [|b bs Hb _ IH]; cbn [to_le_bytes from_le_bytes length]; [done|].
  red in Hb. f_equal.
  - rewrite (Z.mul_comm 256), Z.mod_add by lia. by apply Z.mod_small.
  - rewrite (Z.mul_comm 256), Z.div_add by lia. rewrite Z.div_small by lia. exact IH.
Qed.

Lemma from_le_app bs cs :
  from_le_bytes (bs ++ cs) = from_le_bytes bs + 256 ^ Z.of_nat (length bs) * from_le_bytes cs.
Proof.
  induction bs as [|b bs IH]; cbn [app from_le_bytes length].
  - lia.
  - rewrite IH, Nat2Z.inj_succ, Z.pow_succ_r by lia. lia.
Qed.

#[export] Hint Resolve to_le_bytes_ok : redoubt.
#[export] Hint Rewrite length_to_le_bytes length_to_be_bytes : redoubt.

(** ** Slices: [&l[off..off + len]] and [l[off..off + n].copy_from_slice(src)] *)

Definition slice {A} (off len : nat) (l : list A) : list A := take len (drop off l).

Definition splice {A} (off : nat) (src l : list A) : list A :=
  take off l ++ src ++ drop (off + length src)%nat l.

Section slices.
  Context {A : Type}.
  Implicit Types l src : list A.

Lemma length_slice off len l :
    (off + len <= length l)%nat -> length (slice off len l) = len.
  Proof. intros. unfold slice. rewrite length_take, length_drop. lia. Qed.

Lemma length_splice off src l :
    (off + length src <= length l)%nat -> length (splice off src l) = length l.
  Proof. intros. unfold splice. rewrite !length_app, length_take, length_drop. lia. Qed.

Lemma lookup_slice off len l i :
    (i < len)%nat -> slice off len l !! i = l !! (off + i)%nat.
  Proof. intros. unfold slice. by rewrite lookup_take_lt, lookup_drop. Qed.

Lemma lookup_splice_in off src l i :
    (off <= length l)%nat -> (off <= i < off + length src)%nat ->
    splice off src l !! i = src !! (i - off)%nat.
  Proof.
    intros. unfold splice.
    rewrite lookup_app_r by (rewrite length_take; lia).
    rewrite length_take, Nat.min_l by lia. rewrite lookup_app_l by lia. done.
  Qed.

Lemma lookup_splice_out off src l i :
    (off + length src <= length l)%nat -> (i < off \/ off + length src <= i)%nat ->
    splice off src l !! i = l !! i.
  Proof.
    intros Hl [Hi|Hi]; unfold splice.
    - rewrite lookup_app_l by (rewrite length_take; lia). by apply lookup_take_lt.
    - rewrite lookup_app_r by (rewrite length_take; lia).
      rewrite length_take, Nat.min_l by lia. rewrite lookup_app_r by lia.
      rewrite lookup_drop. f_equal. lia.
  Qed.

  (** Reading back exactly what was copied in. *)
Lemma slice_splice_same off src l :
    (off + length src <= length l)%nat -> slice off (length src) (splice off src l) = src.
  Proof.
    intros. apply list_eq. intros i. destruct (decide (i < length src)%nat) as [Hi|Hi].
    - rewrite lookup_slice, lookup_splice_in by lia. f_equal. lia.
    - rewrite !lookup_ge_None_2; [done|lia|].
      rewrite length_slice; [lia|]. rewrite length_splice; lia.
  Qed.

  (** Reading a range a copy does not touch. *)
Lemma slice_splice_disjoint off src l o n :
    (off + length src <= length l)%nat ->
    (o + n <= off \/ off + length src <= o)%nat ->
    slice o n (splice off src l) = slice o n l.
  Proof.
    intros Hl Hd. apply list_eq. intros i. destruct (decide (i < n)%nat) as [Hi|Hi].
    - rewrite !lookup_slice by lia. apply lookup_splice_out; [done|lia].
    - unfold slice. rewrite !lookup_ge_None_2; [done|..]; rewrite length_take; lia.
  Qed.

  (** A narrower window of a copied range. *)
Lemma slice_slice o1 n1 o2 n2 l :
    (o2 + n2 <= n1)%nat -> slice o2 n2 (slice o1 n1 l) = slice (o1 + o2) n2 l.
  Proof.
    intros. apply list_eq. intros i. destruct (decide (i < n2)%nat).
    - rewrite !lookup_slice by lia. f_equal. lia.
    - unfold slice. rewrite !lookup_ge_None_2; [done|..]; rewrite length_take; lia.
  Qed.
End slices.

#[export] Hint Rewrite @length_slice @length_splice using lia : redoubt.

(** ** [iter_mut().find(p)] followed by an update: rewrite the first match *)

Fixpoint update_first {A} (p : A -> bool) (f : A -> A) (l : list A) : list A :=
  match l with
  | [] => []
  | x :: l => if p x then f x :: l else x :: update_first p f l
  end.

Section update_first.
  Context {A : Type} (p : A -> bool).

Lemma find_In l x : find p l = Some x -> x ∈ l /\ p x = true.
  Proof. intros H. apply find_some in H. by rewrite list_elem_of_In. Qed.

Lemma find_None_Forall l : find p l = None <-> Forall (fun x => p x = false) l.
  Proof.
    induction l as [|x l IH]; simpl; [split; auto|].
    destruct (p x) eqn:E; split; intros H; try discriminate.
    - inversion H; congruence.
    - constructor; [done|]. by apply IH.
    - apply IH. by inversion H.
  Qed.

Lemma length_update_first f l : length (update_first p f l) = length l.
  Proof. induction l; simpl; [done|]. destruct (p _); simpl; congruence. Qed.

Lemma update_first_fmap {B} (g : A -> B) f l :
    (forall x, p x = true -> g (f x) = g x) -> g <$> update_first p f l = g <$> l.
  Proof.
    intros Hg. induction l as [|x l IH]; simpl; [done|].
    destruct (p x) eqn:E; csimpl; rewrite ?Hg; congruence.
  Qed.

Lemma update_first_none f l : find p l = None -> update_first p f l = l.
  Proof.
    induction l as [|x l IH]; simpl; [done|]. destruct (p x); [done|].
    intros. f_equal. auto.
  Qed.

Lemma elem_of_update_first f l y :
    y ∈ update_first p f l -> y ∈ l \/ exists x, x ∈ l /\ p x = true /\ y = f x.
  Proof.
    induction l as [|x l IH]; simpl; [set_solver|].
    destruct (p x) eqn:E; rewrite !elem_of_cons; intros [->|Hy].
    - right. exists x. rewrite elem_of_cons. auto.
    - auto.
    - auto.
    - destruct (IH Hy) as [?|(z & ? & ? & ->)]; [auto|].
      right. exists z. rewrite elem_of_cons. auto.
  Qed.

Lemma Forall_update_first (P : A -> Prop) f l :
    Forall P l -> (forall x, x ∈ l -> p x = true -> P x -> P (f x)) -> Forall P (update_first p f l).
  Proof.
    rewrite !Forall_forall. intros HP Hf y Hy.
    destruct (elem_of_update_first _ _ _ Hy) as [?|(x & ? & ? & ->)]; auto.
  Qed.
End update_first.
