(* ===== verification/RustStd.v ===== *)
(** * The fragment of the Rust core library the sources use

    UTF-8 validation, ASCII classes, decimal parsing of [usize]/[u64],
    [chunks], [position]/[rposition], [split], [trim] helpers.  Strings are
    byte lists. *)

From stdpp Require Export strings.
From S2P Require Import Prelude.

Open Scope Z_scope.

(** The bytes of a string literal. *)
Fixpoint str (s : string) : list Z :=
  match s with
  | EmptyString => []
  | String c s => Z.of_N (Ascii.N_of_ascii c) :: str s
  end.

Definition in_range (lo hi b : Z) : bool := (lo <=? b) && (b <=? hi).

(** [core::str::from_utf8(bytes).is_ok()]: the well-formed byte sequences of
    the Unicode standard (table 3-7). *)
Fixpoint utf8_valid (s : list Z) : bool :=
  match s with
  | [] => true
  | a :: s1 =>
    if in_range 0 0x7f a then utf8_valid s1 else
    match s1 with
    | [] => false
    | b :: s2 =>
      if in_range 0xc2 0xdf a then in_range 0x80 0xbf b && utf8_valid s2 else
      match s2 with
      | [] => false
      | c :: s3 =>
        if in_range 0xe0 0xef a then
          in_range (if a =? 0xe0 then 0xa0 else 0x80) (if a =? 0xed then 0x9f else 0xbf) b
          && in_range 0x80 0xbf c && utf8_valid s3
        else
        match s3 with
        | [] => false
        | d :: s4 =>
          in_range 0xf0 0xf4 a
          && in_range (if a =? 0xf0 then 0x90 else 0x80) (if a =? 0xf4 then 0x8f else 0xbf) b
          && in_range 0x80 0xbf c && in_range 0x80 0xbf d && utf8_valid s4
        end
      end
    end
  end.

Definition from_utf8 (s : list Z) : option (list Z) :=
  if utf8_valid s then Some s else None.

Definition is_ascii_graphic (b : Z) : bool := in_range 0x21 0x7e b.
Definition is_ascii_digit (b : Z) : bool := in_range 48 57 b.
Definition is_ascii_lowercase (b : Z) : bool := in_range 97 122 b.
Definition is_ascii_uppercase (b : Z) : bool := in_range 65 90 b.
Definition is_ascii_alphanumeric (b : Z) : bool :=
  is_ascii_digit b || is_ascii_lowercase b || is_ascii_uppercase b.

(** [s.parse::<usize>()] (and [u64]): an optional [+], then at least one
    digit; a digit that is not one or a value that does not fit is an error. *)
Fixpoint parse_digits (acc : Z) (s : list Z) : option Z :=
  match s with
  | [] => Some acc
  | d :: s =>
    if is_ascii_digit d then
      let acc := 10 * acc + (d - 48) in
      if acc <? 2 ^ 64 then parse_digits acc s else None
    else None
  end.

Definition parse_u64 (s : list Z) : option Z :=
  match s with
  | [] => None
  | d :: s' =>
    if d =? 43 then match s' with [] => None | _ => parse_digits 0 s' end
    else parse_digits 0 s
  end.

(** [s.chunks(n)] for [n > 0]. *)
Fixpoint chunks_fuel {A} (fuel n : nat) (l : list A) : list (list A) :=
  match fuel, l with
  | _, [] => []
  | O, _ => []
  | S fuel, _ => take n l :: chunks_fuel fuel n (drop n l)
  end.
Definition chunks {A} (n : nat) (l : list A) : list (list A) := chunks_fuel (length l) n l.

(** [l.iter().position(p)] and [rposition]. *)
Fixpoint position {A} (p : A -> bool) (l : list A) : option nat :=
  match l with
  | [] => None
  | x :: l => if p x then Some 0%nat else S <$> position p l
  end.
Definition rposition {A} (p : A -> bool) (l : list A) : option nat :=
  (fun i => length l - 1 - i)%nat <$> position p (rev l).

(** [s.split(|b| b == sep)]: always at least one piece. *)
Fixpoint split_on (sep : Z) (s : list Z) : list (list Z) :=
  match s with
  | [] => [[]]
  | b :: s =>
    match split_on sep s with
    | [] => [[b]]
    | p :: ps => if b =? sep then [] :: p :: ps else (b :: p) :: ps
    end
  end.

(** Byte-string equality as a boolean. *)
Definition bytes_eqb (a b : list Z) : bool := bool_decide (a = b).

Lemma bytes_eqb_eq a b : bytes_eqb a b = true <-> a = b.
Proof. apply bool_decide_eq_true. Qed.

(** ** Lemmas *)

Lemma str_ok s : bytes_ok (str s).
Proof.
  induction s as [|c s IH]; simpl; constructor; [|done].
  pose proof (Ascii.N_ascii_bounded c). red. lia.
Qed.

Lemma chunks_fuel_nil {A} fuel n : chunks_fuel fuel n (@nil A) = [].
Proof. by destruct fuel. Qed.

Lemma chunks_fuel_enough {A} n f1 f2 (l : list A) :
  (0 < n)%nat -> (length l <= f1)%nat -> (length l <= f2)%nat ->
  chunks_fuel f1 n l = chunks_fuel f2 n l.
Proof.
  intros Hn. revert f2 l. induction f1 as [|f1 IH]; intros f2 l H1 H2.
  - destruct l; [|simpl in H1; lia]. by rewrite !chunks_fuel_nil.
  - destruct l as [|x l]; [by rewrite !chunks_fuel_nil|].
    destruct f2 as [|f2]; [simpl in H2; lia|]. simpl.
    f_equal. apply IH; rewrite length_drop; simpl in *; lia.
Qed.

Lemma chunks_cons {A} n (l : list A) :
  (0 < n)%nat -> l <> [] -> chunks n l = take n l :: chunks n (drop n l).
Proof.
  intros Hn Hl. unfold chunks. destruct l as [|x l]; [done|].
  cbn [length chunks_fuel]. f_equal.
  apply chunks_fuel_enough; [lia| |]; rewrite length_drop; simpl; lia.
Qed.

(** Induction on the chunks of a list. *)
Lemma chunks_ind {A} (n : nat) (P : list A -> Prop) :
  (0 < n)%nat -> P [] -> (forall l, l <> [] -> P (drop n l) -> P l) -> forall l, P l.
Proof.
  intros Hn H0 Hstep l. remember (length l) as m eqn:Hm. revert l Hm.
  induction m as [m IH] using lt_wf_ind. intros l ->. destruct l as [|x l]; [done|].
  apply Hstep; [done|]. eapply IH; [|done]. rewrite length_drop. simpl. lia.
Qed.

Lemma concat_chunks {A} n (l : list A) : (0 < n)%nat -> concat (chunks n l) = l.
Proof.
  intros Hn. revert l. apply (chunks_ind n); [done|done|]. intros l Hl IH.
  rewrite chunks_cons by done. simpl. rewrite IH. apply take_drop.
Qed.

Lemma chunks_small {A} n (l : list A) :
  (0 < n)%nat -> l <> [] -> (length l <= n)%nat -> chunks n l = [l].
Proof.
  intros. rewrite chunks_cons, take_ge, drop_ge by done. done.
Qed.

(** Splitting off whole chunks commutes with append. *)
Lemma chunks_app {A} n (l1 l2 : list A) k :
  (0 < n)%nat -> length l1 = (k * n)%nat -> chunks n (l1 ++ l2) = chunks n l1 ++ chunks n l2.
Proof.
  intros Hn. revert l1. induction k as [|k IH]; intros l1 Hl1.
  - apply nil_length_inv in Hl1 as ->. done.
  - destruct l1 as [|x l1]; [simpl in Hl1; lia|].
    rewrite chunks_cons by done. rewrite (chunks_cons n (x :: l1)) by done.
    rewrite take_app_le, drop_app_le by lia. simpl app. f_equal.
    apply IH. rewrite length_drop. lia.
Qed.

Lemma position_Some {A} (p : A -> bool) l i :
  position p l = Some i ->
  exists x, l !! i = Some x /\ p x = true /\ forall j y, (j < i)%nat -> l !! j = Some y -> p y = false.
Proof.
  revert i. induction l as [|x l IH]; intros i; simpl; [done|].
  destruct (p x) eqn:E.
  - intros [= <-]. exists x. split; [done|]. split; [done|]. intros; lia.
  - destruct (position p l) as [k|]; [|done]. intros [= <-].
    destruct (IH k eq_refl) as (y & Hy & Hp & Hj). exists y. split; [done|]. split; [done|].
    intros [|j] z Hlt; simpl; [congruence|]. apply Hj. lia.
Qed.
