(* ===== verification/Frame.v ===== *)
(** * The physical frame allocator (kernel/src/frame.rs)

    First fit over a sorted, coalesced free list, then bump allocation out of
    the virgin regions the bootloader reported.  A failed assertion of
    [free_frames] is a kernel panic, the value [None].

    The specification is the set [held] of frame addresses that are owned by
    somebody: an allocation returns addresses that nobody holds, a free gives
    exactly its range back. *)

From S2P Require Import Prelude RustStd.

Definition MAX_REGIONS : nat := 32.
Definition PAGE_SIZE : Z := 4096.
Definition MIN_ADDR : Z := 0x100000.

Record FrameAllocator := mkFrameAllocator {
  regions : list (Z * Z);
  n_regions : nat;
  cur : nat;
  next_free : Z;
  free : list (Z * Z);
  allocated_frames : Z;
}.

(** One entry of the bootloader's memory map. *)
Record MemoryRegion := { r_start : Z; r_end : Z; r_usable : bool }.

(** [x & !(PAGE_SIZE - 1)] and [(x + PAGE_SIZE - 1) & !(PAGE_SIZE - 1)]. *)
Definition page_floor (x : Z) : Z := Z.land x (2 ^ 64 - PAGE_SIZE).
Definition page_ceil (x : Z) : Z := page_floor (wrap 64 (x + PAGE_SIZE - 1)).

(** The loop of [frame_init]: usable regions clipped to page boundaries above
    [MIN_ADDR], at most [MAX_REGIONS] of them. *)
Fixpoint collect_regions (rs : list MemoryRegion) (acc : list (Z * Z)) : list (Z * Z) :=
  match rs with
  | [] => acc
  | r :: rs =>
    if negb (r_usable r) || (MAX_REGIONS <=? length acc)%nat then collect_regions rs acc
    else
      let start := page_ceil (Z.max (r_start r) MIN_ADDR) in
      let end_ := page_floor (r_end r) in
      if start <? end_ then collect_regions rs (acc ++ [(start, end_)])
      else collect_regions rs acc
  end.

Definition frame_init (rs : list MemoryRegion) : FrameAllocator :=
  let got := collect_regions rs [] in
  let regions_arr := got ++ replicate (MAX_REGIONS - length got) (0, 0) in
  {| regions := regions_arr;
     n_regions := length got;
     cur := 0;
     next_free := match head regions_arr with Some (s, _) => s | None => 0 end;
     free := [];
     allocated_frames := 0 |}.

(** First fit over the free list: the allocated base and the list that is
    left. *)
Fixpoint alloc_free_list (bytes : Z) (fl : list (Z * Z)) : option (Z * list (Z * Z)) :=
  match fl with
  | [] => None
  | (base, end_) :: fl =>
    if bytes <=? end_ - base then
      if end_ - base =? bytes then Some (base, fl)
      else Some (base, (base + bytes, end_) :: fl)
    else
      match alloc_free_list bytes fl with
      | Some (ret, fl) => Some (ret, (base, end_) :: fl)
      | None => None
      end
  end.

(** The bump loop.  The fuel is the number of regions not yet tried; every
    iteration that does not return consumes one. *)
Fixpoint alloc_bump (fuel : nat) (count : Z) (fa : FrameAllocator) : option Z * FrameAllocator :=
  match fuel with
  | O => (None, fa)
  | S fuel =>
    let '(_, end_) := nth (cur fa) (regions fa) (0, 0) in
    let aligned := page_ceil (next_free fa) in
    let top := wrap 64 (aligned + wrap 64 (count * PAGE_SIZE)) in
    if top <=? end_ then
      (Some aligned,
       {| regions := regions fa; n_regions := n_regions fa; cur := cur fa;
          next_free := top; free := free fa;
          allocated_frames := wrap 64 (allocated_frames fa + count) |})
    else
      alloc_bump fuel count
        {| regions := regions fa; n_regions := n_regions fa; cur := S (cur fa);
           next_free :=
             if (S (cur fa) <? n_regions fa)%nat
             then fst (nth (S (cur fa)) (regions fa) (0, 0)) else next_free fa;
           free := free fa; allocated_frames := allocated_frames fa |}
  end.

Definition alloc_frames (count : Z) (fa : FrameAllocator) : option Z * FrameAllocator :=
  let count := Z.max count 1 in
  let bytes := wrap 64 (count * PAGE_SIZE) in
  match alloc_free_list bytes (free fa) with
  | Some (ret, fl) =>
    (Some ret,
     {| regions := regions fa; n_regions := n_regions fa; cur := cur fa;
        next_free := next_free fa; free := fl;
        allocated_frames := wrap 64 (allocated_frames fa + count) |})
  | None => alloc_bump (n_regions fa - cur fa) count fa
  end.

(** [fa.free[i]], read as a pair (out of range never happens below). *)
Definition at_ (fl : list (Z * Z)) (i : nat) : Z * Z := nth i fl (0, 0).

(** The insertion index of [free_frames]: the first range starting above
    [start], or the end of the list. *)
Definition insert_position (start : Z) (fl : list (Z * Z)) : nat :=
  default (length fl) (position (fun r => start <? fst r) fl).

(** The sorted insertion with coalescing, assertions included. *)
Definition insert_free (start end_ : Z) (fl : list (Z * Z)) : option (list (Z * Z)) :=
  let pos := insert_position start fl in
  if ((0 <? pos)%nat && negb (snd (at_ fl (pos - 1)) <=? start)) then None
  else if ((pos <? length fl)%nat && negb (end_ <=? fst (at_ fl pos))) then None
  else if ((0 <? pos)%nat && (snd (at_ fl (pos - 1)) =? start)) then
    (* merge left, then right too *)
    let fl1 := <[(pos - 1)%nat := (fst (at_ fl (pos - 1)), end_)]> fl in
    if ((pos <? length fl1)%nat && (fst (at_ fl1 pos) =? end_)) then
      let e := snd (at_ fl1 pos) in
      let fl2 := delete pos fl1 in
      Some (<[(pos - 1)%nat := (fst (at_ fl2 (pos - 1)), e)]> fl2)
    else Some fl1
  else if ((pos <? length fl)%nat && (fst (at_ fl pos) =? end_)) then
    Some (<[pos := (start, snd (at_ fl pos))]> fl)
  else Some (take pos fl ++ (start, end_) :: drop pos fl).

Definition in_region (start end_ : Z) (r : Z * Z) : bool :=
  (fst r <=? start) && (end_ <=? snd r).

Definition free_frames (start count : Z) (fa : FrameAllocator) : option FrameAllocator :=
  if count =? 0 then Some fa
  else if negb (start mod PAGE_SIZE =? 0) then None
  else
    match checked_mul64 count PAGE_SIZE with
    | None => None
    | Some bytes =>
      match checked_add64 start bytes with
      | None => None
      | Some end_ =>
        if negb (existsb (in_region start end_) (take (n_regions fa) (regions fa))) then None
        else if allocated_frames fa <? count then None
        else
          match insert_free start end_ (free fa) with
          | None => None
          | Some fl =>
            Some {| regions := regions fa; n_regions := n_regions fa; cur := cur fa;
                    next_free := next_free fa; free := fl;
                    allocated_frames := allocated_frames fa - count |}
          end
      end
    end.

(** [(currently held, total)] frame counts. *)
Definition frame_stats (fa : FrameAllocator) : Z * Z :=
  (allocated_frames fa,
   foldr (fun r acc => (snd r - fst r) / PAGE_SIZE + acc) 0 (take (n_regions fa) (regions fa))).

(** ** Invariant *)

Definition aligned (x : Z) : Prop := x mod PAGE_SIZE = 0.

(** Sorted, aligned, non-empty, pairwise non-adjacent ranges above [lo]. *)
Fixpoint ranges_ok (lo : Z) (fl : list (Z * Z)) : Prop :=
  match fl with
  | [] => True
  | (b, e) :: fl => lo < b /\ b < e /\ aligned b /\ aligned e /\ ranges_ok e fl
  end.

Definition in_ranges (fl : list (Z * Z)) (p : Z) : Prop :=
  exists b e, (b, e) ∈ fl /\ b <= p < e.

Definition last_end (lo : Z) (fl : list (Z * Z)) : Z := from_option snd lo (last fl).

Lemma last_end_cons lo b e fl : last_end lo ((b, e) :: fl) = last_end e fl.
Proof. unfold last_end. rewrite last_cons. by destruct (last fl). Qed.

Lemma last_end_ge lo fl : ranges_ok lo fl -> lo <= last_end lo fl.
Proof.
  revert lo. induction fl as [|[b e] fl IH]; intros lo H; [by unfold last_end|].
  rewrite last_end_cons. simpl in H. specialize (IH e ltac:(tauto)). lia.
Qed.

Lemma ranges_ok_app lo l1 l2 :
  ranges_ok lo (l1 ++ l2) <-> ranges_ok lo l1 /\ ranges_ok (last_end lo l1) l2.
Proof.
  revert lo. induction l1 as [|[b e] l1 IH]; intros lo; simpl.
  - tauto.
  - rewrite IH, last_end_cons. tauto.
Qed.

Lemma ranges_ok_weaken lo lo' fl : lo' <= lo -> ranges_ok lo fl -> ranges_ok lo' fl.
Proof. destruct fl as [|[b e] fl]; simpl; [done|]. intros ? (? & ?). split; [lia|done]. Qed.

Lemma in_ranges_nil p : in_ranges [] p <-> False.
Proof. split; [|done]. intros (b & e & H & _). by apply not_elem_of_nil in H. Qed.

Lemma in_ranges_cons b e fl p : in_ranges ((b, e) :: fl) p <-> b <= p < e \/ in_ranges fl p.
Proof.
  unfold in_ranges. split.
  - intros (b' & e' & [[= -> ->]|?]%elem_of_cons & ?); [by left|right; eauto].
  - intros [?|(b' & e' & ? & ?)]; [exists b, e|exists b', e']; rewrite elem_of_cons; auto.
Qed.

Lemma in_ranges_app l1 l2 p : in_ranges (l1 ++ l2) p <-> in_ranges l1 p \/ in_ranges l2 p.
Proof.
  induction l1 as [|[b e] l1 IH]; simpl; rewrite ?in_ranges_nil, ?in_ranges_cons; [tauto|].
  rewrite IH. tauto.
Qed.

Lemma ranges_ok_bound lo fl p : ranges_ok lo fl -> in_ranges fl p -> lo < p.
Proof.
  revert lo. induction fl as [|[b e] fl IH]; intros lo; [by rewrite in_ranges_nil|].
  rewrite in_ranges_cons. simpl. intros (? & ? & _ & _ & Hfl) [?|Hp]; [lia|].
  specialize (IH _ Hfl Hp). lia.
Qed.

(** *** Insertion into the sorted list *)

Definition head_above (start : Z) (l : list (Z * Z)) : Prop :=
  match l with [] => True | r :: _ => start < fst r end.

Lemma insert_position_app start l1 l2 :
  Forall (fun r => fst r <= start) l1 -> head_above start l2 ->
  insert_position start (l1 ++ l2) = length l1.
Proof.
  intros H1 H2. unfold insert_position. rewrite length_app.
  induction H1 as [|r l1 Hr H1 IH]; simpl.
  - destruct l2 as [|r l2]; simpl in *; [done|].
    by replace (start <? fst r) with true by (symmetry; apply Z.ltb_lt; lia).
  - replace (start <? fst r) with false by (symmetry; apply Z.ltb_ge; lia).
    destruct (position _ (l1 ++ l2)); simpl in *; lia.
Qed.

(** Every sorted list splits at the insertion point. *)
Lemma split_at start lo fl :
  ranges_ok lo fl ->
  exists l1 l2, fl = l1 ++ l2 /\ Forall (fun r => fst r <= start) l1 /\ head_above start l2.
Proof.
  revert lo. induction fl as [|[b e] fl IH]; intros lo; simpl.
  - intros _. by exists [], [].
  - intros (_ & _ & _ & _ & Hfl). destruct (decide (start < b)) as [Hlt|Hge].
    + exists [], ((b, e) :: fl). repeat split; auto.
    + destruct (IH _ Hfl) as (l1 & l2 & -> & H1 & H2).
      exists ((b, e) :: l1), l2. repeat split; auto. constructor; simpl; [lia|done].
Qed.

Lemma at_app_r l1 r l2 : at_ (l1 ++ r :: l2) (length l1) = r.
Proof. unfold at_. rewrite app_nth2, Nat.sub_diag by lia. done. Qed.

Lemma at_app_r_S l1 r r' l2 : at_ (l1 ++ r :: r' :: l2) (S (length l1)) = r'.
Proof. unfold at_. rewrite app_nth2 by lia. by replace (S _ - _)%nat with 1%nat by lia. Qed.

Lemma insert_mid (l1 : list (Z * Z)) x y l2 : <[length l1 := x]> (l1 ++ y :: l2) = l1 ++ x :: l2.
Proof. rewrite <- (Nat.add_0_r (length l1)). by rewrite insert_app_r. Qed.

Lemma insert_mid_S (l1 : list (Z * Z)) x y z l2 :
  <[S (length l1) := x]> (l1 ++ y :: z :: l2) = l1 ++ y :: x :: l2.
Proof. rewrite <- Nat.add_1_r. by rewrite insert_app_r. Qed.

Lemma delete_mid_S (l1 : list (Z * Z)) x y l2 : delete (S (length l1)) (l1 ++ x :: y :: l2) = l1 ++ x :: l2.
Proof.
  replace (S (length l1)) with (length (l1 ++ [x])) by (rewrite length_app; simpl; lia).
  replace (l1 ++ x :: y :: l2) with ((l1 ++ [x]) ++ y :: l2) by by rewrite <- app_assoc.
  rewrite delete_middle. by rewrite <- app_assoc.
Qed.

Lemma insert_free_first start end_ l2 :
  head_above start l2 ->
  insert_free start end_ l2 =
    match l2 with
    | [] => Some [(start, end_)]
    | (b, e) :: rest =>
      if end_ <=? b then
        if b =? end_ then Some ((start, e) :: rest) else Some ((start, end_) :: l2)
      else None
    end.
Proof.
  intros H. unfold insert_free.
  pose proof (insert_position_app start [] l2 ltac:(auto) H) as Hp.
  simpl app in Hp. rewrite Hp. simpl.
  destruct l2 as [|[b e] rest]; [done|]. simpl.
  destruct (end_ <=? b); simpl; [|done]. by destruct (b =? end_).
Qed.

Lemma insert_free_after start end_ l1 b e l2 :
  Forall (fun r => fst r <= start) (l1 ++ [(b, e)]) -> head_above start l2 ->
  insert_free start end_ (l1 ++ (b, e) :: l2) =
    if negb (e <=? start) then None else
    match l2 with
    | [] => Some (l1 ++ if e =? start then [(b, end_)] else [(b, e); (start, end_)])
    | (b', e') :: l2' =>
      if negb (end_ <=? b') then None else
      Some (l1 ++
            if e =? start then if b' =? end_ then (b, e') :: l2' else (b, end_) :: l2
            else if b' =? end_ then (b, e) :: (start, e') :: l2' else (b, e) :: (start, end_) :: l2)
    end.
Proof.
  intros H1 H2. unfold insert_free.
  replace (l1 ++ (b, e) :: l2) with ((l1 ++ [(b, e)]) ++ l2) by by rewrite <- app_assoc.
  rewrite insert_position_app by done.
  assert (Hpos : length (l1 ++ [(b, e)]) = S (length l1)) by (rewrite length_app; simpl; lia).
  rewrite Hpos. replace (S (length l1) - 1)%nat with (length l1) by lia.
  replace ((l1 ++ [(b, e)]) ++ l2) with (l1 ++ (b, e) :: l2) by by rewrite <- app_assoc.
  rewrite at_app_r. cbn [fst snd].
  destruct (e <=? start); [|done]. cbn [negb andb].
  change (0 <? S (length l1))%nat with true. cbn [andb negb].
  assert (Hlen : (S (length l1) <? length (l1 ++ (b, e) :: l2))%nat
                 = match l2 with [] => false | _ => true end).
  { rewrite length_app. destruct l2; simpl; [apply Nat.ltb_ge|apply Nat.ltb_lt]; lia. }
  destruct l2 as [|[b' e'] l2]; rewrite Hlen; cbn [andb negb].
  - rewrite length_insert, Hlen. cbn [andb].
    rewrite insert_mid, take_ge, drop_ge by lia.
    destruct (e =? start); [done|]. by rewrite <- app_assoc.
  - rewrite at_app_r_S. cbn [fst snd].
    destruct (end_ <=? b'); [|done]. cbn [negb].
    rewrite length_insert, Hlen, insert_mid, at_app_r_S. cbn [andb fst snd].
    rewrite delete_mid_S, insert_mid, at_app_r, insert_mid_S. cbn [fst snd].
    rewrite <- Hpos.
    replace (l1 ++ (b, e) :: (b', e') :: l2) with ((l1 ++ [(b, e)]) ++ (b', e') :: l2)
      by by rewrite <- app_assoc.
    rewrite take_app_length, drop_app_length, <- app_assoc.
    by destruct (e =? start), (b' =? end_).
Qed.

(** *** The insertion specification *)

Lemma insert_free_disjoint lo start end_ fl :
  ranges_ok lo fl -> lo < start < end_ -> aligned start -> aligned end_ ->
  (forall p, start <= p < end_ -> ~ in_ranges fl p) ->
  exists fl', insert_free start end_ fl = Some fl' /\ ranges_ok lo fl' /\
    forall p, in_ranges fl' p <-> in_ranges fl p \/ start <= p < end_.
Proof.
  intros Hfl Hse Ha Hb Hdis.
  destruct (split_at start lo fl Hfl) as (l1 & l2 & -> & H1 & H2).
  apply ranges_ok_app in Hfl as [Hl1 Hl2].
  assert (Hh2 : match l2 with [] => True | (b', _) :: _ => end_ <= b' end).
  { destruct l2 as [|[b' e'] l2]; [done|]. simpl in H2, Hl2.
    destruct (decide (end_ <= b')); [done|]. exfalso.
    apply (Hdis b'); [lia|]. rewrite in_ranges_app, in_ranges_cons. lia. }
  destruct l1 as [|[b e] l1 _] using rev_ind.
  - simpl app in *. rewrite insert_free_first by done. cbn in Hl2.
    destruct l2 as [|[b' e'] l2].
    + eexists; split; [done|]. split; [simpl; intuition lia|].
      intros p. rewrite in_ranges_cons, in_ranges_nil. tauto.
    + simpl in Hl2. rewrite (proj2 (Z.leb_le end_ b')) by done.
      destruct (Z.eqb_spec b' end_) as [->|Hne]; (eexists; split; [done|]).
      * split; [simpl; intuition lia|]. intros p. rewrite !in_ranges_cons. intuition lia.
      * split; [simpl; intuition lia|]. intros p. rewrite !in_ranges_cons. tauto.
  - rewrite <- app_assoc in *. simpl app in *.
    apply ranges_ok_app in Hl1 as [Hl1 Hlast]. cbn [ranges_ok] in Hlast.
    unfold last_end in Hl2 at 1. rewrite last_snoc in Hl2. cbn [from_option snd] in Hl2.
    pose proof (proj1 (Forall_app _ _ _) H1) as [_ Hbe]. inversion Hbe as [|? ? Hb0 _]; simpl in Hb0.
    assert (He : e <= start).
    { destruct (decide (e <= start)); [done|]. exfalso. apply (Hdis start); [lia|].
      rewrite in_ranges_app, in_ranges_cons. lia. }
    rewrite insert_free_after by done.
    rewrite (proj2 (Z.leb_le e start)) by done. cbn [negb].
    destruct l2 as [|[b' e'] l2].
    + eexists; split; [done|]. rewrite ranges_ok_app.
      destruct (Z.eqb_spec e start) as [->|Hne]; simpl.
      * split; [intuition lia|]. intros p.
        rewrite !in_ranges_app, !in_ranges_cons, !in_ranges_nil. intuition lia.
      * split; [intuition lia|]. intros p.
        rewrite !in_ranges_app, !in_ranges_cons, !in_ranges_nil. tauto.
    + rewrite (proj2 (Z.leb_le end_ b')) by done. cbn [negb ranges_ok] in *.
      eexists; split; [done|]. rewrite ranges_ok_app.
      destruct (Z.eqb_spec e start) as [->|Hne], (Z.eqb_spec b' end_) as [->|Hne']; simpl;
        (split; [intuition lia|]); intros p; rewrite !in_ranges_app, !in_ranges_cons; intuition lia.
Qed.

(** An overlapping range trips an assertion: a double free is never recorded. *)
Lemma insert_free_overlap lo start end_ fl p :
  ranges_ok lo fl -> lo < start < end_ -> start <= p < end_ -> in_ranges fl p ->
  insert_free start end_ fl = None.
Proof.
  intros Hfl Hse Hp Hin.
  destruct (split_at start lo fl Hfl) as (l1 & l2 & -> & H1 & H2).
  apply ranges_ok_app in Hfl as [Hl1 Hl2].
  assert (Hin2 : in_ranges l2 p -> exists b' e' l2', l2 = (b', e') :: l2' /\ ~ end_ <= b').
  { intros Hp2. destruct l2 as [|[b' e'] l2]; [by apply in_ranges_nil in Hp2|].
    exists b', e', l2. split; [done|]. intros Hle. simpl in Hl2.
    apply in_ranges_cons in Hp2 as [?|Hp2]; [lia|].
    pose proof (ranges_ok_bound e' l2 p ltac:(tauto) Hp2). lia. }
  destruct l1 as [|[b e] l1 _] using rev_ind.
  - simpl app in *. rewrite insert_free_first by done.
    destruct (Hin2 Hin) as (b' & e' & l2' & -> & ?). cbv beta iota.
    by rewrite (proj2 (Z.leb_gt end_ b')) by lia.
  - rewrite <- app_assoc in *. simpl app in *. rewrite insert_free_after by done.
    destruct (Z.leb_spec e start) as [He|He]; cbn [negb]; [|done].
    apply in_ranges_app in Hin as [Hin|Hin].
    + exfalso. apply ranges_ok_app in Hl1 as [Hl1 Hlast]. cbn [ranges_ok] in Hlast.
      clear - Hl1 Hin Hlast He Hp. revert lo Hl1 Hlast.
      induction l1 as [|[x y] l1 IH]; intros lo Hl1 Hlast; [by apply in_ranges_nil in Hin|].
      rewrite last_end_cons in Hlast. simpl in Hl1. apply in_ranges_cons in Hin as [?|Hin].
      * pose proof (last_end_ge y l1 ltac:(tauto)). lia.
      * apply (IH Hin y); tauto.
    + apply in_ranges_cons in Hin as [?|Hin]; [lia|].
      destruct (Hin2 Hin) as (b' & e' & l2' & -> & ?).
      by rewrite (proj2 (Z.leb_gt end_ b')) by lia.
Qed.

(** ** The allocator's invariant and its specification state *)

Lemma page_floor_div x : fits 64 x -> page_floor x = x / PAGE_SIZE * PAGE_SIZE.
Proof.
  intros Hx. unfold page_floor, PAGE_SIZE.
  change (2 ^ 64 - 4096) with (Z.shiftl (Z.ones 52) 12). change 4096 with (2 ^ 12).
  rewrite <- Z.shiftr_div_pow2, <- Z.shiftl_mul_pow2 by lia.
  apply Z.bits_inj'. intros n Hn. rewrite Z.land_spec, !Z.shiftl_spec by done.
  destruct (decide (n < 12)).
  - rewrite !(Z.testbit_neg_r _ (n - 12)) by lia. apply andb_false_r.
  - rewrite Z.shiftr_spec by lia. replace (n - 12 + 12) with n by lia.
    destruct (decide (n < 64)).
    + rewrite Z.ones_spec_low by lia. apply andb_true_r.
    + destruct (decide (x = 0)) as [->|]; [by rewrite Z.bits_0|].
      rewrite (Z.bits_above_log2 x n); [done|apply Hx|].
      apply Z.lt_le_trans with 64; [|lia]. apply Z.log2_lt_pow2; red in Hx; lia.
Qed.

Lemma page_floor_bounds x :
  fits 64 x -> aligned (page_floor x) /\ page_floor x <= x < page_floor x + PAGE_SIZE.
Proof.
  intros Hx. rewrite page_floor_div by done. unfold aligned. split; [by apply Z.mod_mul|].
  pose proof (Z.div_mod x PAGE_SIZE). pose proof (Z.mod_pos_bound x PAGE_SIZE).
  unfold PAGE_SIZE in *. lia.
Qed.

Lemma page_ceil_aligned x : 0 <= x <= 2 ^ 52 -> aligned x -> page_ceil x = x.
Proof.
  intros Hx Ha. unfold page_ceil, PAGE_SIZE.
  rewrite wrap_small by (red; lia). rewrite page_floor_div by (red; lia).
  unfold aligned, PAGE_SIZE in *. Z.to_euclidean_division_equations. lia.
Qed.

Definition the_regions (fa : FrameAllocator) : list (Z * Z) := take (n_regions fa) (regions fa).

Definition usable (fa : FrameAllocator) (p : Z) : Prop :=
  exists i s e, the_regions fa !! i = Some (s, e) /\ s <= p < e.

(** Never handed out so far. *)
Definition virgin (fa : FrameAllocator) (p : Z) : Prop :=
  exists i s e, the_regions fa !! i = Some (s, e) /\
    ((i = cur fa /\ next_free fa <= p < e) \/ ((cur fa < i)%nat /\ s <= p < e)).

(** Owned by some client of the allocator. *)
Definition held (fa : FrameAllocator) (p : Z) : Prop :=
  usable fa p /\ ~ virgin fa p /\ ~ in_ranges (free fa) p.

Definition region_ok (r : Z * Z) : Prop :=
  aligned (fst r) /\ aligned (snd r) /\ MIN_ADDR <= fst r < snd r /\ snd r <= 2 ^ 52.

Definition regions_disjoint (rs : list (Z * Z)) : Prop :=
  forall i j s e s' e' p, rs !! i = Some (s, e) -> rs !! j = Some (s', e') ->
    s <= p < e -> s' <= p < e' -> i = j.

Record frame_inv (fa : FrameAllocator) : Prop := {
  fi_n : (n_regions fa <= length (regions fa))%nat;
  fi_cur : (cur fa <= n_regions fa)%nat;
  fi_regions : Forall region_ok (the_regions fa);
  fi_disjoint : regions_disjoint (the_regions fa);
  fi_next : forall s e, the_regions fa !! cur fa = Some (s, e) ->
      aligned (next_free fa) /\ s <= next_free fa <= e;
  fi_free : ranges_ok 0 (free fa);
  fi_free_used : forall p, in_ranges (free fa) p -> usable fa p /\ ~ virgin fa p;
}.

Lemma alloc_free_list_spec lo bytes fl ret fl' :
  ranges_ok lo fl -> 0 < bytes -> aligned bytes ->
  alloc_free_list bytes fl = Some (ret, fl') ->
  ranges_ok lo fl' /\ aligned ret /\
  (forall p, in_ranges fl p <-> in_ranges fl' p \/ ret <= p < ret + bytes) /\
  (forall p, ret <= p < ret + bytes -> ~ in_ranges fl' p).
Proof.
  intros Hfl Hb Ha. revert lo ret fl' Hfl.
  induction fl as [|[b e] fl IH]; intros lo ret fl' Hfl; simpl; [done|].
  simpl in Hfl. destruct Hfl as (Hlo & Hbe & Hab & Hae & Hfl).
  destruct (Z.leb_spec bytes (e - b)) as [Hfit|Hfit].
  - assert (forall p, in_ranges fl p -> e < p) as Habove by (intros; by eapply ranges_ok_bound).
    destruct (Z.eqb_spec (e - b) bytes) as [Heq|Hne]; intros [= <- <-].
    + split; [eapply ranges_ok_weaken; [|done]; lia|]. split; [done|].
      split; intros p; rewrite ?in_ranges_cons.
      * replace (b + bytes) with e by lia. tauto.
      * intros Hp Hin. specialize (Habove p Hin). lia.
    + split.
      { simpl. repeat split; [lia|lia|..|done|done].
        unfold aligned, PAGE_SIZE in *. rewrite Z.add_mod, Hab, Ha by lia. done. }
      split; [done|]. split; intros p; rewrite ?in_ranges_cons.
      * intuition lia.
      * intros Hp [?|Hin]; [lia|]. specialize (Habove p Hin). lia.
  - destruct (alloc_free_list bytes fl) as [[r l]|] eqn:E; [|done]. intros [= <- <-].
    destruct (IH e r l Hfl eq_refl) as (H1 & H2 & H3 & H4).
    split; [simpl; auto|]. split; [done|]. split; intros p; rewrite !in_ranges_cons.
    + rewrite H3. tauto.
    + intros Hp [?|Hin]; [|by apply (H4 p)].
      assert (in_ranges fl p) as Hin by (apply H3; tauto).
      pose proof (ranges_ok_bound _ _ _ Hfl Hin). lia.
Qed.

(** What an allocation promises about its result and the new state. *)
Definition alloc_spec (count : Z) (fa : FrameAllocator) (res : option Z * FrameAllocator) : Prop :=
  frame_inv (snd res) /\
  (forall p, held fa p -> held (snd res) p) /\
  match fst res with
  | Some base =>
    aligned base /\
    forall p, base <= p < base + Z.max count 1 * PAGE_SIZE -> ~ held fa p /\ held (snd res) p
  | None => True
  end.

Lemma aligned_pages a n : aligned a -> aligned (a + n * PAGE_SIZE).
Proof. unfold aligned, PAGE_SIZE. intros. by rewrite Z.mod_add. Qed.

Section bump.
  Variables (count : Z) (fa : FrameAllocator).
  Hypothesis Hcount : 1 <= count <= 2 ^ 40.
  Hypothesis Hinv : frame_inv fa.

Definition bumped (top : Z) : FrameAllocator :=
    {| regions := regions fa; n_regions := n_regions fa; cur := cur fa;
       next_free := top; free := free fa;
       allocated_frames := wrap 64 (allocated_frames fa + count) |}.

Definition skipped : FrameAllocator :=
    {| regions := regions fa; n_regions := n_regions fa; cur := S (cur fa);
       next_free :=
         if (S (cur fa) <? n_regions fa)%nat
         then fst (nth (S (cur fa)) (regions fa) (0, 0)) else next_free fa;
       free := free fa; allocated_frames := allocated_frames fa |}.

Lemma region_at_cur :
    (cur fa < n_regions fa)%nat ->
    the_regions fa !! cur fa = Some (nth (cur fa) (regions fa) (0, 0)).
  Proof.
    intros Hc. pose proof (fi_n fa Hinv). unfold the_regions.
    rewrite lookup_take_lt by done.
    destruct (nth_lookup_or_length (regions fa) (cur fa) (0, 0)) as [->|]; [done|lia].
  Qed.

Lemma bumped_spec s e :
    the_regions fa !! cur fa = Some (s, e) -> next_free fa + count * PAGE_SIZE <= e ->
    alloc_spec count fa (Some (next_free fa), bumped (next_free fa + count * PAGE_SIZE)).
  Proof.
    intros Hr Hfit. destruct (fi_next fa Hinv s e Hr) as [Hal Hse].
    assert (Hv : forall p, virgin (bumped (next_free fa + count * PAGE_SIZE)) p <->
                   virgin fa p /\ ~ (next_free fa <= p < next_free fa + count * PAGE_SIZE)).
    { intros p. unfold virgin. cbn [cur next_free bumped].
      change (the_regions (bumped _)) with (the_regions fa). split.
      - intros (i & s' & e' & Hi & [[-> ?]|[? ?]]).
        + rewrite Hr in Hi. injection Hi as <- <-. split; [|lia]. exists (cur fa), s, e.
          unfold PAGE_SIZE in *. split; [done|left; lia].
        + split; [by exists i, s', e'; auto|]. intros Hp.
          assert (i = cur fa); [|lia].
          eapply (fi_disjoint fa Hinv); [exact Hi|exact Hr|eassumption|lia].
      - intros [(i & s' & e' & Hi & [[-> ?]|[? ?]]) Hout].
        + exists (cur fa), s', e'. split; [done|left]. lia.
        + exists i, s', e'. auto. }
    assert (Hru : forall p, next_free fa <= p < next_free fa + count * PAGE_SIZE ->
              usable fa p /\ virgin fa p).
    { intros p Hp. split; [exists (cur fa), s, e|exists (cur fa), s, e]; (split; [done|]); lia. }
    split; [|split]; simpl fst; simpl snd.
    - destruct Hinv. split; try assumption.
      + intros s' e' Hr'. cbn [cur next_free bumped] in *.
        change (the_regions (bumped _)) with (the_regions fa) in Hr'. rewrite Hr in Hr'.
        injection Hr' as <- <-. split; [by apply aligned_pages|]. unfold PAGE_SIZE in *. lia.
      + intros p Hp. destruct (fi_free_used0 p Hp) as [? ?]. split; [done|]. rewrite Hv. tauto.
    - intros p (Hu & Hnv & Hnf). split; [done|]. rewrite Hv. tauto.
    - split; [done|]. rewrite Z.max_l by lia. intros p Hp. destruct (Hru p Hp) as [Hu Hvp]. split.
      + intros (_ & ? & _). done.
      + split; [done|]. rewrite Hv. split; [tauto|].
        intros Hf. by destruct (fi_free_used fa Hinv p Hf).
  Qed.

Lemma skipped_inv :
    (cur fa < n_regions fa)%nat ->
    frame_inv skipped /\ forall p, held fa p -> held skipped p.
  Proof.
    intros Hc. pose proof (region_at_cur Hc) as Hr.
    destruct (nth (cur fa) (regions fa) (0, 0)) as [s e] eqn:Hnth.
    assert (Hnext : forall s' e', the_regions fa !! S (cur fa) = Some (s', e') ->
              next_free skipped = s' /\ region_ok (s', e')).
    { intros s' e' Hs. pose proof Hs as Hs0. pose proof (lookup_lt_Some _ _ _ Hs) as Hlt.
      unfold the_regions in Hs, Hlt. rewrite length_take in Hlt. rewrite lookup_take_lt in Hs by lia.
      cbn [next_free skipped].
      rewrite (proj2 (Nat.ltb_lt (S (cur fa)) (n_regions fa))) by lia.
      destruct (nth_lookup_or_length (regions fa) (S (cur fa)) (0, 0)) as [Hn|]; [|lia].
      rewrite Hs in Hn. injection Hn as Hn. rewrite <- Hn. split; [done|].
      eapply Forall_lookup_1; [apply (fi_regions fa Hinv)|exact Hs0]. }
    assert (Hv : forall p, virgin skipped p -> virgin fa p).
    { intros p (i & s' & e' & Hi & Hor). change (the_regions skipped) with (the_regions fa) in Hi.
      cbn [cur skipped] in Hor. exists i, s', e'. split; [done|]. right.
      destruct Hor as [[-> Hp]|[? ?]]; [|split; [lia|done]].
      destruct (Hnext s' e' Hi) as [Heq _]. rewrite Heq in Hp. split; [lia|done]. }
    split.
    - destruct Hinv. split; try assumption.
      + intros s' e' Hs. destruct (Hnext s' e' Hs) as [-> (? & ? & ?)]. simpl in *. split; [done|lia].
      + intros p Hp. destruct (fi_free_used0 p Hp). split; [done|]. intros ?. auto.
    - intros p (Hu & Hnv & Hnf). split; [done|]. split; [|done]. auto.
  Qed.
End bump.

Lemma alloc_bump_spec fuel count fa :
  1 <= count <= 2 ^ 40 -> frame_inv fa -> fuel = (n_regions fa - cur fa)%nat ->
  alloc_spec count fa (alloc_bump fuel count fa).
Proof.
  intros Hc. revert fa. induction fuel as [|fuel IH]; intros fa Hinv Hf.
  - simpl. split; [done|]. split; [done|]. done.
  - assert (Hlt : (cur fa < n_regions fa)%nat) by lia.
    pose proof (region_at_cur fa Hinv Hlt) as Hr. cbn [alloc_bump].
    destruct (nth (cur fa) (regions fa) (0, 0)) as [s e] eqn:Hnth.
    destruct (fi_next fa Hinv s e Hr) as [Hal Hse].
    pose proof (Forall_lookup_1 _ _ _ _ (fi_regions fa Hinv) Hr) as (_ & _ & Hm & He).
    simpl in Hm, He. unfold MIN_ADDR in Hm.
    rewrite page_ceil_aligned by (done || lia).
    assert (Hw : wrap 64 (next_free fa + wrap 64 (count * PAGE_SIZE)) = next_free fa + count * PAGE_SIZE).
    { unfold PAGE_SIZE. rewrite (wrap_small 64 (count * 4096)) by (red; lia).
      apply wrap_small. red. lia. }
    rewrite Hw. destruct (Z.leb_spec (next_free fa + count * PAGE_SIZE) e) as [Hfit|Hno].
    + exact (bumped_spec count fa Hc Hinv s e Hr Hfit).
    + destruct (skipped_inv fa Hinv Hlt) as [Hi Hh].
      destruct (IH (skipped fa) Hi) as (H1 & H2 & H3); [cbn; lia|].
      split; [exact H1|]. split; [intros p Hp; apply H2, Hh, Hp|].
      fold (skipped fa). destruct (alloc_bump fuel count (skipped fa)) as [[base|] fa']; [|done].
      simpl in *. destruct H3 as [Hb Hp]. split; [done|]. intros p Hin.
      destruct (Hp p Hin) as [Hnh Hh']. split; [|done]. intros ?. by apply Hnh, Hh.
Qed.

(** *** Allocation and free, against the [held] specification *)

Lemma alloc_frames_spec count fa :
  count <= 2 ^ 40 -> frame_inv fa -> alloc_spec count fa (alloc_frames count fa).
Proof.
  intros Hc Hinv. unfold alloc_frames.
  remember (Z.max count 1) as c eqn:Hdef. assert (Hc1 : 1 <= c <= 2 ^ 40) by lia.
  rewrite (wrap_small 64 (c * PAGE_SIZE)) by (unfold PAGE_SIZE; red; lia).
  destruct (alloc_free_list (c * PAGE_SIZE) (free fa)) as [[ret fl]|] eqn:E.
  - destruct (alloc_free_list_spec 0 (c * PAGE_SIZE) _ _ _ (fi_free fa Hinv) ltac:(unfold PAGE_SIZE; lia)
                (aligned_pages 0 c eq_refl) E) as (H1 & H2 & H3 & H4).
    split; [|split]; simpl.
    + destruct Hinv. split; try assumption. intros p Hp. apply fi_free_used0, H3. by left.
    + intros p (Hu & Hnv & Hnf). split; [done|]. split; [done|]. simpl. rewrite H3 in Hnf. tauto.
    + split; [done|]. rewrite <- Hdef. intros p Hp.
      assert (in_ranges (free fa) p) as Hin by (apply H3; tauto). split.
      * intros (_ & _ & Hn). done.
      * destruct (fi_free_used fa Hinv p Hin). split; [done|]. split; [done|]. by apply H4.
  - destruct (alloc_bump_spec (n_regions fa - cur fa) c fa Hc1 Hinv eq_refl) as (H1 & H2 & H3).
    split; [done|]. split; [done|]. 
    destruct (fst (alloc_bump _ _ fa)); [|done]. by replace (Z.max count 1) with (Z.max c 1) by lia.
Qed.

Lemma free_frames_result start count fa fl :
  0 < count -> fits 64 start -> aligned start -> start + count * PAGE_SIZE < 2 ^ 64 ->
  (exists r, r ∈ the_regions fa /\ fst r <= start /\ start + count * PAGE_SIZE <= snd r) ->
  count <= allocated_frames fa ->
  insert_free start (start + count * PAGE_SIZE) (free fa) = Some fl ->
  free_frames start count fa =
    Some {| regions := regions fa; n_regions := n_regions fa; cur := cur fa;
            next_free := next_free fa; free := fl;
            allocated_frames := allocated_frames fa - count |}.
Proof.
  intros Hc Hs Ha Hb (r & Hr & Hr1 & Hr2) Hal Hi. red in Hs. unfold free_frames, PAGE_SIZE in *.
  rewrite (proj2 (Z.eqb_neq count 0)) by lia.
  unfold aligned, PAGE_SIZE in Ha. rewrite Ha. cbn [Z.eqb negb].
  unfold checked_mul64. rewrite (proj2 (Z.ltb_lt (count * 4096) (2 ^ 64))) by lia.
  unfold checked_add64. rewrite (proj2 (Z.ltb_lt (start + count * 4096) (2 ^ 64))) by lia.
  assert (existsb (in_region start (start + count * 4096)) (take (n_regions fa) (regions fa)) = true) as ->.
  { apply existsb_exists. exists r. split; [by apply list_elem_of_In|].
    unfold in_region. apply andb_true_iff. rewrite !Z.leb_le. lia. }
  cbn [negb]. rewrite (proj2 (Z.ltb_ge (allocated_frames fa) count)) by lia. by rewrite Hi.
Qed.

(** The bootloader's map: addresses fit and usable entries do not overlap. *)
Definition regions_apart (r1 r2 : MemoryRegion) : Prop :=
  r_usable r1 = true -> r_usable r2 = true -> r_end r1 <= r_start r2 \/ r_end r2 <= r_start r1.

Definition memory_map_ok (rs : list MemoryRegion) : Prop :=
  Forall (fun r => 0 <= r_start r <= 2 ^ 52 /\ 0 <= r_end r <= 2 ^ 52) rs /\
  ForallOrdPairs regions_apart rs.

Lemma clipped_region r :
  0 <= r_start r <= 2 ^ 52 -> 0 <= r_end r <= 2 ^ 52 ->
  let start := page_ceil (Z.max (r_start r) MIN_ADDR) in
  let end_ := page_floor (r_end r) in
  start < end_ -> region_ok (start, end_) /\ r_start r <= start /\ end_ <= r_end r.
Proof.
  intros Hs He. unfold page_ceil, PAGE_SIZE.
  rewrite (wrap_small 64) by (unfold MIN_ADDR; red; lia).
  destruct (page_floor_bounds (Z.max (r_start r) MIN_ADDR + 4096 - 1)) as [Ha1 Hb1];
    [unfold MIN_ADDR; red; lia|].
  destruct (page_floor_bounds (r_end r)) as [Ha2 Hb2]; [red; lia|].
  cbv zeta. intros Hlt. unfold region_ok, PAGE_SIZE in *. simpl fst; simpl snd.
  repeat split; (done || lia).
Qed.

(** Appending a range that overlaps no earlier one keeps them disjoint. *)
Lemma regions_disjoint_snoc acc s e :
  regions_disjoint acc ->
  (forall s' e' p, (s', e') ∈ acc -> s <= p < e -> s' <= p < e' -> False) ->
  regions_disjoint (acc ++ [(s, e)]).
Proof.
  intros Hd Hn i j s1 e1 s2 e2 p Hi Hj H1 H2.
  apply lookup_app_Some in Hi as [Hi|[Hi' Hi]], Hj as [Hj|[Hj' Hj]];
    try (apply list_lookup_singleton_Some in Hi as [Hi [= <- <-]]);
    try (apply list_lookup_singleton_Some in Hj as [Hj [= <- <-]]).
  - by eapply Hd.
  - exfalso. eapply Hn; [by eapply list_elem_of_lookup_2| |]; eassumption.
  - exfalso. eapply Hn; [by eapply list_elem_of_lookup_2| |]; eassumption.
  - lia.
Qed.

Lemma collect_regions_ok rs acc :
  memory_map_ok rs -> Forall region_ok acc -> regions_disjoint acc ->
  (forall s e r p, (s, e) ∈ acc -> r ∈ rs -> r_usable r = true ->
     s <= p < e -> r_start r <= p < r_end r -> False) ->
  Forall region_ok (collect_regions rs acc) /\ regions_disjoint (collect_regions rs acc).
Proof.
  revert acc. induction rs as [|r rs IH]; intros acc [Hf Hp] Hok Hd Hx; cbn [collect_regions]; [done|].
  inversion Hf as [|? ? [Hs He] Hf']; subst. inversion Hp as [|? ? Hp1 Hp2]; subst.
  assert (Hskip : Forall region_ok (collect_regions rs acc) /\ regions_disjoint (collect_regions rs acc)).
  { apply IH; [done|done|done|]. intros s e r' p ? ?. apply Hx; [done|]. by apply elem_of_cons; right. }
  destruct (negb (r_usable r) || (MAX_REGIONS <=? length acc)%nat) eqn:Hg; [done|].
  apply orb_false_iff in Hg as [Hu _]. apply negb_false_iff in Hu.
  destruct (Z.ltb_spec (page_ceil (Z.max (r_start r) MIN_ADDR)) (page_floor (r_end r))) as [Hlt|]; [|done].
  destruct (clipped_region r Hs He Hlt) as (Hro & Hb1 & Hb2).
  apply IH; [done| | |].
  - apply Forall_app_2; [done|]. by constructor.
  - apply regions_disjoint_snoc; [done|]. intros s' e' p Hin Hq Hq'.
    eapply (Hx s' e' r p); [done|by apply elem_of_cons; left|done|done|lia].
  - intros s e r' p [Hin|Hin]%elem_of_app Hr' Hu' Hq Hq'.
    + eapply (Hx s e r' p); [done|by apply elem_of_cons; right|done|done|done].
    + apply list_elem_of_singleton in Hin. injection Hin as -> ->.
      rewrite List.Forall_forall in Hp1.
      destruct (Hp1 r' (proj1 (list_elem_of_In _ _) Hr') Hu Hu'); lia.
Qed.

Lemma init_the_regions rs : the_regions (frame_init rs) = collect_regions rs [].
Proof. unfold the_regions, frame_init. simpl. apply take_app_length. Qed.

Lemma init_inv rs : memory_map_ok rs -> frame_inv (frame_init rs).
Proof.
  intros Hm.
  destruct (collect_regions_ok rs [] Hm) as [Hok Hd]; [constructor| | |].
  - intros i j s e s' e' p H. by rewrite lookup_nil in H.
  - intros s e r p H. by apply not_elem_of_nil in H.
  - assert (Hfirst : forall s e, collect_regions rs [] !! 0%nat = Some (s, e) -> next_free (frame_init rs) = s).
    { intros s e H. unfold frame_init. simpl. by destruct (collect_regions rs []) as [|[? ?] ?]; simplify_eq/=. }
    split.
    + unfold frame_init. simpl. rewrite length_app. lia.
    + unfold frame_init. simpl. lia.
    + by rewrite init_the_regions.
    + by rewrite init_the_regions.
    + rewrite init_the_regions. intros s e H. rewrite (Hfirst s e H).
      destruct (Forall_lookup_1 _ _ _ _ Hok H) as (? & ? & ? & ?). simpl in *. split; [done|lia].
    + done.
    + intros p H. by apply in_ranges_nil in H.
Qed.

(** *** Reuse of freed ranges *)

Lemma range_end_outside lo fl b e : ranges_ok lo fl -> (b, e) ∈ fl -> ~ in_ranges fl e.
Proof.
  revert lo. induction fl as [|[x y] fl IH]; intros lo Hok Hin; [by apply not_elem_of_nil in Hin|].
  simpl in Hok. destruct Hok as (? & ? & _ & _ & Hok). rewrite in_ranges_cons.
  apply elem_of_cons in Hin as [[= -> ->]|Hin].
  - intros [?|Hr]; [lia|]. pose proof (ranges_ok_bound _ _ _ Hok Hr). lia.
  - intros [?|Hr]; [|by eapply IH]. clear IH.
    assert (y < e); [|lia]. clear - Hok Hin. revert y Hok.
    induction fl as [|[u v] fl IH]; intros y Hok; [by apply not_elem_of_nil in Hin|].
    simpl in Hok. apply elem_of_cons in Hin as [[= -> ->]|Hin]; [lia|].
    specialize (IH Hin v ltac:(tauto)). lia.
Qed.

(** A covered interval lies inside one range: ranges are never adjacent. *)
Lemma covering_range lo fl s e :
  ranges_ok lo fl -> s < e -> (forall p, s <= p < e -> in_ranges fl p) ->
  exists b e', (b, e') ∈ fl /\ b <= s /\ e <= e'.
Proof.
  intros Hok Hse Hcov. destruct (Hcov s ltac:(lia)) as (b & e' & Hin & Hb).
  exists b, e'. split; [done|]. split; [lia|].
  destruct (decide (e <= e')) as [|Hlt]; [done|]. exfalso.
  apply (range_end_outside lo fl b e' Hok Hin), Hcov. lia.
Qed.

Lemma alloc_free_list_succeeds bytes fl b e :
  (b, e) ∈ fl -> bytes <= e - b -> is_Some (alloc_free_list bytes fl).
Proof.
  induction fl as [|[x y] fl IH]; intros Hin Hfit; [by apply not_elem_of_nil in Hin|]. simpl.
  destruct (Z.leb_spec bytes (y - x)); [by destruct (y - x =? bytes)|].
  apply elem_of_cons in Hin as [[= -> ->]|Hin]; [lia|].
  destruct (IH Hin Hfit) as [[r l] ->]. done.
Qed.

Lemma free_frames_Some start count fa fa' :
  free_frames start count fa = Some fa' -> count <> 0 ->
  start mod PAGE_SIZE = 0 /\ start + count * PAGE_SIZE < 2 ^ 64 /\ count <= allocated_frames fa /\
  insert_free start (start + count * PAGE_SIZE) (free fa) = Some (free fa') /\
  regions fa' = regions fa /\ n_regions fa' = n_regions fa /\ cur fa' = cur fa /\
  next_free fa' = next_free fa /\ allocated_frames fa' = allocated_frames fa - count.
Proof.
  intros H Hc. unfold free_frames, checked_mul64, checked_add64 in H.
  repeat case_match; simplify_eq; bool_facts; try lia; simpl; repeat split; auto; lia.
Qed.

Lemma free_frames_spec (start count : Z) (fa : FrameAllocator) :
  frame_inv fa -> 0 < count -> aligned start -> count <= allocated_frames fa ->
  (exists r, r ∈ the_regions fa /\ fst r <= start /\ start + count * PAGE_SIZE <= snd r) ->
  (forall p, start <= p < start + count * PAGE_SIZE -> held fa p) ->
  exists fa', free_frames start count fa = Some fa' /\ frame_inv fa' /\
    forall p, held fa' p <-> held fa p /\ ~ (start <= p < start + count * PAGE_SIZE).
Proof.
  intros Hi Hc Ha Hal Hreg Hheld. pose proof Hreg as ([s e] & Hr & Hs1 & Hs2).
  pose proof (proj1 (Forall_forall _ _) (fi_regions fa Hi) _ Hr) as (_ & _ & Hm & He).
  simpl in Hs1, Hs2, Hm, He. unfold MIN_ADDR in Hm.
  set (end_ := start + count * PAGE_SIZE) in *.
  assert (Hend : start < end_) by (unfold end_, PAGE_SIZE; lia).
  destruct (insert_free_disjoint 0 start end_ (free fa)) as (fl & Hins & Hok & Hin);
    [by apply fi_free|lia|done|by apply aligned_pages| |].
  { intros p Hp Hf. by destruct (Hheld p Hp) as (_ & _ & ?). }
  eexists. split; [apply free_frames_result; try done; [red; lia|lia]|].
  assert (Hh : forall p, in_ranges fl p <-> in_ranges (free fa) p \/ start <= p < end_) by done.
  split.
  - destruct Hi. split; try assumption. simpl. intros p Hp. apply Hh in Hp as [Hp|Hp].
    + by apply fi_free_used0.
    + destruct (Hheld p Hp) as (? & ? & ?). done.
  - intros p. unfold held. simpl. rewrite Hh. split.
    + intros (? & ? & ?). tauto.
    + intros ((? & ? & ?) & ?). split; [done|]. split; [done|]. tauto.
Qed.

(** ** Properties of the allocator *)

(** C20. [alloc_frames] never hands out a frame somebody already holds: every
    address of the returned page-aligned range was not held before and is held
    afterwards, no held frame stops being held, and the allocator invariant is
    preserved. *)
Theorem alloc_frames_fresh (count base : Z) (fa fa' : FrameAllocator) :
  count <= 2 ^ 40 -> frame_inv fa -> alloc_frames count fa = (Some base, fa') ->
  frame_inv fa' /\ aligned base /\
  (forall p, held fa p -> held fa' p) /\
  (forall p, base <= p < base + Z.max count 1 * PAGE_SIZE -> ~ held fa p /\ held fa' p).
Proof.
  intros Hc Hi Ha. destruct (alloc_frames_spec count fa Hc Hi) as (H1 & H2 & H3).
  rewrite Ha in *. simpl in *. tauto.
Qed.

(** Freeing a range whose frames are all held succeeds (none of the
    kernel's assertions trips), preserves the invariant and releases exactly
    the frames of that range. *)
Theorem free_frames_exact (start count : Z) (fa : FrameAllocator) :
  frame_inv fa -> 0 < count -> aligned start -> count <= allocated_frames fa ->
  (exists r, r ∈ the_regions fa /\ fst r <= start /\ start + count * PAGE_SIZE <= snd r) ->
  (forall p, start <= p < start + count * PAGE_SIZE -> held fa p) ->
  exists fa', free_frames start count fa = Some fa' /\ frame_inv fa' /\
    forall p, held fa' p <-> held fa p /\ ~ (start <= p < start + count * PAGE_SIZE).
Proof. apply free_frames_spec. Qed.

Definition demo_map : list MemoryRegion :=
  [ {| r_start := 0; r_end := 0x9f000; r_usable := true |};
    {| r_start := 0x9f000; r_end := 0x100000; r_usable := false |};
    {| r_start := 0x100000; r_end := 0x140000; r_usable := true |};
    {| r_start := 0x200000; r_end := 0x204000; r_usable := true |} ].

Lemma demo_map_ok : memory_map_ok demo_map.
Proof.
  split; [repeat constructor; simpl; lia|].
  repeat constructor; unfold regions_apart; simpl; try lia; discriminate.
Qed.

Lemma alloc_frames_fresh_witness :
  exists fa', alloc_frames 3 (frame_init demo_map) = (Some 0x100000, fa') /\ frame_inv fa'.
Proof.
  eexists. split; [vm_compute; reflexivity|].
  eapply (alloc_frames_fresh 3 0x100000 (frame_init demo_map));
    [lia | exact (init_inv demo_map demo_map_ok) | vm_compute; reflexivity].
Defined.

Definition demo_fa : FrameAllocator := snd (alloc_frames 3 (frame_init demo_map)).

Lemma demo_fa_ok :
  frame_inv demo_fa /\ forall p, 0x100000 <= p < 0x100000 + 3 * PAGE_SIZE -> held demo_fa p.
Proof.
  destruct (alloc_frames_spec 3 (frame_init demo_map)) as (H1 & _ & H3);
    [lia|exact (init_inv demo_map demo_map_ok)|].
  assert (E : alloc_frames 3 (frame_init demo_map) = (Some 0x100000, demo_fa))
    by (vm_compute; reflexivity).
  rewrite E in H1, H3. cbn [fst snd] in H1, H3. split; [exact H1|].
  intros p Hp. destruct H3 as [_ H3]. by apply H3.
Qed.

Lemma free_frames_exact_witness :
  exists fa', free_frames 0x100000 3 demo_fa = Some fa' /\ free fa' = [(0x100000, 0x103000)].
Proof.
  destruct (free_frames_exact 0x100000 3 demo_fa) as (fa' & Hf & _);
    [apply demo_fa_ok | lia | reflexivity | vm_compute; discriminate | | apply demo_fa_ok |].
  - exists (0x100000, 0x140000). split; [|vm_compute; intuition discriminate].
    apply elem_of_cons. left. reflexivity.
  - exists fa'. split; [exact Hf|]. vm_compute in Hf. injection Hf as <-. reflexivity.
Defined.

(** A double free is fatal, never silent: freeing a range any frame of
    which is already on the free list trips an assertion (the kernel panics)
    instead of recording a range that would be handed out twice. *)
Theorem free_frames_double_free (start count p : Z) (fa : FrameAllocator) :
  frame_inv fa -> 0 < start -> 0 < count ->
  start <= p < start + count * PAGE_SIZE -> in_ranges (free fa) p ->
  free_frames start count fa = None.
Proof.
  intros Hi Hs Hc Hp Hin. destruct (free_frames start count fa) as [fa'|] eqn:E; [|done].
  destruct (free_frames_Some _ _ _ _ E ltac:(lia)) as (_ & _ & _ & Hins & _).
  rewrite (insert_free_overlap 0 start (start + count * PAGE_SIZE) (free fa) p) in Hins;
    [done|by apply fi_free|unfold PAGE_SIZE; lia|done|done].
Qed.

Definition demo_freed : FrameAllocator := default demo_fa (free_frames 0x100000 3 demo_fa).

Lemma demo_freed_inv : frame_inv demo_freed.
Proof.
  destruct demo_fa_ok as [Hi Hh].
  destruct (insert_free_disjoint 0 0x100000 0x103000 (free demo_fa)) as (fl & Hins & Hok & Hin);
    [by apply fi_free|lia|done|done| |].
  { intros p Hp Hf. by destruct (Hh p) as (_ & _ & ?). }
  assert (free demo_freed = fl) as Hfl by (vm_compute in Hins; injection Hins as <-; vm_compute; reflexivity).
  destruct Hi. split; try assumption; [vm_compute; intuition congruence|].
  rewrite Hfl. intros p [Hp|Hp]%Hin; [by apply fi_free_used0|].
  destruct (Hh p Hp) as (? & ? & ?). done.
Qed.

Lemma free_frames_double_free_witness : free_frames 0x101000 1 demo_freed = None.
Proof.
  apply (free_frames_double_free 0x101000 1 0x101000);
    [exact demo_freed_inv | lia | lia | unfold PAGE_SIZE; lia |].
  exists 0x100000, 0x103000. split; [|lia]. apply elem_of_cons. left. vm_compute. reflexivity.
Defined.

(** Freed memory is reusable: once a range has been returned, an
    allocation of the same size always succeeds, so spawn/exit cycles reach a
    fixed point instead of exhausting memory. *)
Theorem alloc_after_free_succeeds (start count : Z) (fa fa' : FrameAllocator) :
  frame_inv fa -> 0 < start -> 0 < count <= 2 ^ 40 ->
  free_frames start count fa = Some fa' ->
  exists base fa'', alloc_frames count fa' = (Some base, fa'').
Proof.
  intros Hi Hs Hc Hf.
  destruct (free_frames_Some _ _ _ _ Hf ltac:(lia)) as (Ha & _ & _ & Hins & _).
  destruct (insert_free_disjoint 0 start (start + count * PAGE_SIZE) (free fa)) as (fl & Hins' & Hok & Hin);
    [by apply fi_free|unfold PAGE_SIZE; lia|done|by apply aligned_pages| |].
  { intros p Hp Hr. rewrite (insert_free_overlap 0 _ _ _ p) in Hins;
      [done|by apply fi_free|unfold PAGE_SIZE; lia|done|done]. }
  rewrite Hins in Hins'. injection Hins' as <-.
  destruct (covering_range 0 (free fa') start (start + count * PAGE_SIZE)) as (b & e & Hbe & Hb1 & Hb2);
    [done|unfold PAGE_SIZE; lia|intros p Hp; apply Hin; by right|].
  destruct (alloc_free_list_succeeds (count * PAGE_SIZE) (free fa') b e Hbe ltac:(lia)) as [[r l] Hr].
  unfold alloc_frames. rewrite Z.max_l by lia.
  rewrite (wrap_small 64) by (unfold PAGE_SIZE; red; lia). rewrite Hr. eauto.
Qed.

Lemma alloc_after_free_succeeds_witness :
  exists base fa'', alloc_frames 3 demo_freed = (Some base, fa'').
Proof.
  apply (alloc_after_free_succeeds 0x100000 3 demo_fa);
    [apply demo_fa_ok | lia | lia | vm_compute; reflexivity].
Defined.
