(* ===== verification/Caps.v ===== *)
(** * Capability objects (kernel/src/caps.rs)

    The capability type, its rights masks, the attenuation order that the
    delegation syscalls must respect, and the per-table operations
    ([free_cap_slot], installation of a spawn-time capability list). *)

From S2P Require Import Prelude.

Definition CAP_TABLE_SIZE : nat := 32.
Definition R_READ : Z := 1.
Definition R_WRITE : Z := 2.
Definition R_GRANT : Z := 4.

Inductive Cap :=
| Endpoint (endpoint rights : Z)
| Memory (base_paddr pages rights : Z)
| Block (disk lba_start lbas rights : Z).

#[global] Instance Cap_eq_dec : EqDecision Cap.
Proof. solve_decision. Defined.

Definition cap_rights (c : Cap) : Z :=
  match c with
  | Endpoint _ r | Memory _ _ r | Block _ _ _ r => r
  end.

(** The same kernel object with another rights mask: what both delegation
    paths build for endpoint and memory capabilities. *)
Definition with_rights (c : Cap) (r : Z) : Cap :=
  match c with
  | Endpoint e _ => Endpoint e r
  | Memory b p _ => Memory b p r
  | Block d s n _ => Block d s n r
  end.

(** [Task::free_cap_slot]: position of the first empty slot. *)
Fixpoint free_cap_slot (caps : list (option Cap)) : option nat :=
  match caps with
  | [] => None
  | None :: _ => Some 0%nat
  | Some _ :: caps => S <$> free_cap_slot caps
  end.

(** The table a spawned task starts with: the given capabilities in order from
    slot 0, the rest empty. *)
Definition install_caps (caps : list Cap) : list (option Cap) :=
  take CAP_TABLE_SIZE ((Some <$> caps) ++ replicate CAP_TABLE_SIZE None).

(** ** Attenuation

    [attenuates c d]: [c] names the same kernel object as [d] (for a disk, a
    sub-range of it) with a subset of its rights. *)
Inductive attenuates : Cap -> Cap -> Prop :=
| att_endpoint e r r' :
    subset_bits r r' -> attenuates (Endpoint e r) (Endpoint e r')
| att_memory b p r r' :
    subset_bits r r' -> attenuates (Memory b p r) (Memory b p r')
| att_block d s n r s' n' r' :
    subset_bits r r' -> s' <= s -> s + n <= s' + n' ->
    attenuates (Block d s n r) (Block d s' n' r').

#[export] Hint Constructors attenuates : redoubt.

Lemma attenuates_refl c : attenuates c c.
Proof. destruct c; constructor; (reflexivity || lia). Qed.

Lemma attenuates_trans c d e : attenuates c d -> attenuates d e -> attenuates c e.
Proof.
  intros H1 H2. inversion H1; subst; inversion H2; subst; constructor;
    (etrans; eassumption) || lia.
Qed.

#[global] Instance attenuates_preorder : PreOrder attenuates.
Proof. split; [exact attenuates_refl | exact attenuates_trans]. Qed.

Lemma attenuates_rights c d : attenuates c d -> subset_bits (cap_rights c) (cap_rights d).
Proof. by inversion 1. Qed.

Lemma with_rights_attenuates c mask :
  attenuates (with_rights c (Z.land (cap_rights c) mask)) c.
Proof. destruct c; simpl; constructor; (apply land_subset_l || lia). Qed.

#[export] Hint Resolve attenuates_refl attenuates_rights with_rights_attenuates : redoubt.

(** ** Table lemmas *)

Lemma free_cap_slot_Some caps i :
  free_cap_slot caps = Some i ->
  caps !! i = Some None /\ forall j, (j < i)%nat -> exists c, caps !! j = Some (Some c).
Proof.
  revert i. induction caps as [|[c|] caps IH]; intros i; simpl; try discriminate.
  - destruct (free_cap_slot caps) as [k|]; [|discriminate]. intros [= <-].
    destruct (IH k eq_refl) as [Hk Hj]. split; [done|].
    intros [|j] Hlt; [by exists c|]. apply Hj. lia.
  - intros [= <-]. split; [done|]. lia.
Qed.

Lemma free_cap_slot_None caps :
  free_cap_slot caps = None <-> Forall is_Some caps.
Proof.
  induction caps as [|[c|] caps IH]; simpl.
  - done.
  - rewrite fmap_None, IH, Forall_cons. naive_solver.
  - split; [done|]. intros H. inversion H as [|? ? [? ?]]; done.
Qed.

Lemma length_install_caps caps : length (install_caps caps) = CAP_TABLE_SIZE.
Proof.
  unfold install_caps. rewrite length_take, length_app, length_replicate. lia.
Qed.

#[local] Opaque CAP_TABLE_SIZE.

(** Slot [i] of a fresh table is exactly the [i]-th granted capability. *)
Lemma lookup_install_caps caps i c :
  install_caps caps !! i = Some (Some c) <-> caps !! i = Some c /\ (i < CAP_TABLE_SIZE)%nat.
Proof.
  unfold install_caps. split.
  - intros H. pose proof (lookup_lt_Some _ _ _ H) as Hl.
    rewrite length_take in Hl. rewrite lookup_take_lt in H by lia.
    split; [|lia]. rewrite lookup_app, list_lookup_fmap in H.
    destruct (caps !! i) as [d|] eqn:E; simpl in H; [congruence|].
    apply lookup_replicate in H as [? _]. discriminate.
  - intros [H Hi]. rewrite lookup_take_lt by done.
    rewrite lookup_app_l by (rewrite length_fmap; eapply lookup_lt_Some; done).
    by rewrite list_lookup_fmap, H.
Qed.

Lemma elem_of_install_caps caps c : Some c ∈ install_caps caps -> c ∈ caps.
Proof.
  rewrite list_elem_of_lookup. intros [i [Hi _]%lookup_install_caps].
  rewrite list_elem_of_lookup. by exists i.
Qed.
