(* ===== verification/Kernel.v ===== *)
(** * Kernel state (task.rs, trap.rs, syscall.rs, sched.rs, input.rs statics)

    The data types of the kernel, the record of its global state, the
    interfaces to the memory manager and to the disk driver, and the accessors
    every handler is written with.

    Trap frames live in kernel-stack memory and are reached through raw
    addresses ([saved_rsp], the [frame_ptr] of a trap), so the model keeps a
    store [FRAMES] from addresses to frames.  Reading or writing an address
    with no frame, [unwrap]/[expect] on a missing value and an out-of-range
    index are the value [None]: a kernel panic or worse. *)

From S2P Require Import Prelude RustStd Caps.

(** ** trap.rs *)

Record TrapFrame := mkTrapFrame {
  r15 : Z; r14 : Z; r13 : Z; r12 : Z; r11 : Z; r10 : Z; r9 : Z; r8 : Z;
  rdi : Z; rsi : Z; rbp : Z; rbx : Z; rdx : Z; rcx : Z; rax : Z;
  rip : Z; cs : Z; rflags : Z; rsp : Z; ss : Z;
}.

Definition TRAP_FRAME_BYTES : Z := 20 * 8.

Definition new_user (entry user_stack_top cs ss : Z) : TrapFrame :=
  {| r15 := 0; r14 := 0; r13 := 0; r12 := 0; r11 := 0; r10 := 0; r9 := 0; r8 := 0;
     rdi := 0; rsi := 0; rbp := 0; rbx := 0; rdx := 0; rcx := 0; rax := 0;
     rip := entry; cs := cs; rflags := 0x202; rsp := user_stack_top; ss := ss |}.

(** Register writes through a frame pointer: the status register alone, with
    one or two results, and the IPC register blocks. *)
Definition set_rax (v : Z) (f : TrapFrame) : TrapFrame :=
  {| r15 := r15 f; r14 := r14 f; r13 := r13 f; r12 := r12 f; r11 := r11 f; r10 := r10 f;
     r9 := r9 f; r8 := r8 f; rdi := rdi f; rsi := rsi f; rbp := rbp f; rbx := rbx f;
     rdx := rdx f; rcx := rcx f; rax := v; rip := rip f; cs := cs f; rflags := rflags f;
     rsp := rsp f; ss := ss f |}.

Definition set_rax_rdi (v d : Z) (f : TrapFrame) : TrapFrame :=
  {| r15 := r15 f; r14 := r14 f; r13 := r13 f; r12 := r12 f; r11 := r11 f; r10 := r10 f;
     r9 := r9 f; r8 := r8 f; rdi := d; rsi := rsi f; rbp := rbp f; rbx := rbx f;
     rdx := rdx f; rcx := rcx f; rax := v; rip := rip f; cs := cs f; rflags := rflags f;
     rsp := rsp f; ss := ss f |}.

Definition set_rax_rdi_rsi (v d s : Z) (f : TrapFrame) : TrapFrame :=
  {| r15 := r15 f; r14 := r14 f; r13 := r13 f; r12 := r12 f; r11 := r11 f; r10 := r10 f;
     r9 := r9 f; r8 := r8 f; rdi := d; rsi := s; rbp := rbp f; rbx := rbx f;
     rdx := rdx f; rcx := rcx f; rax := v; rip := rip f; cs := cs f; rflags := rflags f;
     rsp := rsp f; ss := ss f |}.

(** A delivered request: status, caller, five message words. *)
Definition set_request (v caller m0 m1 m2 m3 m4 : Z) (f : TrapFrame) : TrapFrame :=
  {| r15 := r15 f; r14 := r14 f; r13 := r13 f; r12 := r12 f; r11 := r11 f; r10 := m2;
     r9 := m4; r8 := m3; rdi := caller; rsi := m0; rbp := rbp f; rbx := rbx f;
     rdx := m1; rcx := rcx f; rax := v; rip := rip f; cs := cs f; rflags := rflags f;
     rsp := rsp f; ss := ss f |}.

(** A delivered reply: status and five words ([r9] is untouched). *)
Definition set_reply (v m0 m1 m2 m3 m4 : Z) (f : TrapFrame) : TrapFrame :=
  {| r15 := r15 f; r14 := r14 f; r13 := r13 f; r12 := r12 f; r11 := r11 f; r10 := m3;
     r9 := r9 f; r8 := m4; rdi := m0; rsi := m1; rbp := rbp f; rbx := rbx f;
     rdx := m2; rcx := rcx f; rax := v; rip := rip f; cs := cs f; rflags := rflags f;
     rsp := rsp f; ss := ss f |}.

(** ** task.rs *)

Definition KSTACK_PAGES : Z := 8.
Definition KSTACK_GUARD_PAGES : Z := 1.
Definition USER_STACK_TOP : Z := 0x7f000000.
Definition USER_STACK_BYTES : Z := 64 * 1024.
Definition KSTACK_REGION_BASE : Z := 0xFFFFC00000000000.
Definition KSTACK_SLOT_BYTES : Z := (KSTACK_PAGES + KSTACK_GUARD_PAGES) * 4096.

Definition user_range_valid (start len : Z) : bool :=
  match checked_add64 start len with
  | None => false
  | Some end_ => (start <? USER_STACK_TOP) && (end_ <=? USER_STACK_TOP)
  end.

Inductive TaskState :=
| Ready
| Running
| BlockedSend (endpoint : Z)
| BlockedCall (endpoint : Z)
| BlockedRecv (endpoint deadline : Z)
| BlockedWait
| BlockedInput
| BlockedSleep (until : Z)
| Zombie (code : Z).

#[global] Instance TaskState_eq_dec : EqDecision TaskState.
Proof. solve_decision. Defined.

Definition is_zombie (s : TaskState) : bool :=
  match s with Zombie _ => true | _ => false end.

Record Task := mkTask {
  t_id : Z;
  t_name : list Z;
  t_state : TaskState;
  t_cr3 : Z;
  t_kstack_top : Z;
  t_saved_rsp : Z;
  t_caps : list (option Cap);
  t_parent : option Z;
  t_kstack_base_va : Z;
  t_kstack_frames_base : Z;
  t_pages : Z;
}.

Definition with_state (s : TaskState) (t : Task) : Task :=
  {| t_id := t_id t; t_name := t_name t; t_state := s; t_cr3 := t_cr3 t;
     t_kstack_top := t_kstack_top t; t_saved_rsp := t_saved_rsp t; t_caps := t_caps t;
     t_parent := t_parent t; t_kstack_base_va := t_kstack_base_va t;
     t_kstack_frames_base := t_kstack_frames_base t; t_pages := t_pages t |}.
Definition with_saved_rsp (a : Z) (t : Task) : Task :=
  {| t_id := t_id t; t_name := t_name t; t_state := t_state t; t_cr3 := t_cr3 t;
     t_kstack_top := t_kstack_top t; t_saved_rsp := a; t_caps := t_caps t;
     t_parent := t_parent t; t_kstack_base_va := t_kstack_base_va t;
     t_kstack_frames_base := t_kstack_frames_base t; t_pages := t_pages t |}.
Definition with_caps (c : list (option Cap)) (t : Task) : Task :=
  {| t_id := t_id t; t_name := t_name t; t_state := t_state t; t_cr3 := t_cr3 t;
     t_kstack_top := t_kstack_top t; t_saved_rsp := t_saved_rsp t; t_caps := c;
     t_parent := t_parent t; t_kstack_base_va := t_kstack_base_va t;
     t_kstack_frames_base := t_kstack_frames_base t; t_pages := t_pages t |}.
Definition with_parent (p : option Z) (t : Task) : Task :=
  {| t_id := t_id t; t_name := t_name t; t_state := t_state t; t_cr3 := t_cr3 t;
     t_kstack_top := t_kstack_top t; t_saved_rsp := t_saved_rsp t; t_caps := t_caps t;
     t_parent := p; t_kstack_base_va := t_kstack_base_va t;
     t_kstack_frames_base := t_kstack_frames_base t; t_pages := t_pages t |}.
Definition with_name (n : list Z) (t : Task) : Task :=
  {| t_id := t_id t; t_name := n; t_state := t_state t; t_cr3 := t_cr3 t;
     t_kstack_top := t_kstack_top t; t_saved_rsp := t_saved_rsp t; t_caps := t_caps t;
     t_parent := t_parent t; t_kstack_base_va := t_kstack_base_va t;
     t_kstack_frames_base := t_kstack_frames_base t; t_pages := t_pages t |}.

(** [Task::set_name]: at most 16 bytes are looked at, only printable ASCII is
    kept, and the name is never empty. *)
Definition set_name (name : list Z) (t : Task) : Task :=
  let kept := List.filter (fun b => is_ascii_graphic b || (b =? 32)) (take 16 name) in
  with_name (match kept with [] => [63] | _ => kept end) t.

Record PendingReap := {
  p_cr3 : Z;
  p_kstack_base_va : Z;
  p_kstack_frames_base : Z;
}.

(** ** syscall.rs: endpoints; input.rs: parked readers *)

Record EndpointState := mkEndpoint {
  pending_callers : list (Z * list Z);
  active_caller : option Z;
  active_server : option Z;
}.

Record Waiter := { w_tid : Z; w_buf : Z; w_len : Z; w_cr3 : Z }.

(** ** Interfaces to the memory manager and the disks *)

(** The page-table flags the kernel sets. *)
Record PageFlags := { pf_writable : bool; pf_user : bool; pf_no_execute : bool }.

(** frame.rs, paging.rs and the physical memory behind them, as one state
    [S].  An operation that can trip an assertion returns an option. *)
Class MemOps (S : Type) := {
  mem_alloc : Z -> S -> option Z * S;                     (* frame::alloc_frames *)
  mem_free : Z -> Z -> S -> option S;                     (* frame::free_frames *)
  mem_stats : S -> Z * Z;                                 (* frame::stats *)
  translate : S -> Z -> Z -> option Z;                    (* paging::translate *)
  phys_read : S -> Z -> Z;                                (* phys_to_virt(pa).read() *)
  phys_write : Z -> Z -> S -> S;                          (* phys_to_virt(pa).write(b) *)
  phys_zero : Z -> Z -> S -> S;                           (* ptr::write_bytes(_, 0, n) *)
  map_page_in : Z -> Z -> Z -> PageFlags -> S -> bool * S;
  unmap_page_in : Z -> Z -> S -> S;
  new_address_space : Z -> S -> option (option Z * S);    (* first argument: active CR3 *)
  destroy_address_space : Z -> S -> option S;
  register_kstack : Z -> Z -> Z -> S -> bool * S;
  unregister_kstack : Z -> Z -> S -> S;
  kernel_space : S -> option Z;                           (* ADDRESS_SPACES.first() *)
}.

(** ata.rs: [None] and [false] are any [AtaError]; a write that fails may have
    replaced some of the sectors. *)
Class DiskOps (D : Type) := {
  read_sectors : Z -> Z -> Z -> D -> option (list Z);
  write_sectors : Z -> Z -> Z -> list Z -> D -> bool * D;
}.

(** ** The global state

    One field per static of the kernel, the active CR3 and TSS.RSP0 registers,
    the trap-frame store, the console output, physical memory and disks. *)

Record Kernel (S D : Type) := mkKernel {
  TASKS : list Task;
  NEXT_TID : Z;
  NEXT_KSTACK_SLOT : Z;
  REAP_QUEUE : list PendingReap;
  CURRENT : option Z;
  READY : list Z;
  SINCE_SWITCH : Z;
  ENDPOINTS : list EndpointState;
  TICKS : Z;
  QUEUE : list Z;
  SHIFT : bool;
  EXTENDED : bool;
  WAITERS : list Waiter;
  USER_CODE : Z;
  USER_DATA : Z;
  CR3 : Z;
  TSS_RSP0 : Z;
  FRAMES : gmap Z TrapFrame;
  CONSOLE : list Z;
  MEM : S;
  DISK : D;
}.

Arguments mkKernel {S D}.
Arguments TASKS {S D} _.
Arguments NEXT_TID {S D} _.
Arguments NEXT_KSTACK_SLOT {S D} _.
Arguments REAP_QUEUE {S D} _.
Arguments CURRENT {S D} _.
Arguments READY {S D} _.
Arguments SINCE_SWITCH {S D} _.
Arguments ENDPOINTS {S D} _.
Arguments TICKS {S D} _.
Arguments QUEUE {S D} _.
Arguments SHIFT {S D} _.
Arguments EXTENDED {S D} _.
Arguments WAITERS {S D} _.
Arguments USER_CODE {S D} _.
Arguments USER_DATA {S D} _.
Arguments CR3 {S D} _.
Arguments TSS_RSP0 {S D} _.
Arguments FRAMES {S D} _.
Arguments CONSOLE {S D} _.
Arguments MEM {S D} _.
Arguments DISK {S D} _.

Section state.
  Context {S D : Type}.
  Implicit Types k : Kernel S D.

Definition set_TASKS (v : list Task) k : Kernel S D :=
    {| TASKS := v; NEXT_TID := NEXT_TID k; NEXT_KSTACK_SLOT := NEXT_KSTACK_SLOT k; REAP_QUEUE :=
       REAP_QUEUE k; CURRENT := CURRENT k; READY := READY k; SINCE_SWITCH := SINCE_SWITCH k;
       ENDPOINTS := ENDPOINTS k; TICKS := TICKS k; QUEUE := QUEUE k; SHIFT := SHIFT k; EXTENDED :=
       EXTENDED k; WAITERS := WAITERS k; USER_CODE := USER_CODE k; USER_DATA := USER_DATA k; CR3
       := CR3 k; TSS_RSP0 := TSS_RSP0 k; FRAMES := FRAMES k; CONSOLE := CONSOLE k; MEM := MEM k;
       DISK := DISK k |}.
Definition set_NEXT_TID (v : Z) k : Kernel S D :=
    {| TASKS := TASKS k; NEXT_TID := v; NEXT_KSTACK_SLOT := NEXT_KSTACK_SLOT k; REAP_QUEUE :=
       REAP_QUEUE k; CURRENT := CURRENT k; READY := READY k; SINCE_SWITCH := SINCE_SWITCH k;
       ENDPOINTS := ENDPOINTS k; TICKS := TICKS k; QUEUE := QUEUE k; SHIFT := SHIFT k; EXTENDED :=
       EXTENDED k; WAITERS := WAITERS k; USER_CODE := USER_CODE k; USER_DATA := USER_DATA k; CR3
       := CR3 k; TSS_RSP0 := TSS_RSP0 k; FRAMES := FRAMES k; CONSOLE := CONSOLE k; MEM := MEM k;
       DISK := DISK k |}.
Definition set_NEXT_KSTACK_SLOT (v : Z) k : Kernel S D :=
    {| TASKS := TASKS k; NEXT_TID := NEXT_TID k; NEXT_KSTACK_SLOT := v; REAP_QUEUE := REAP_QUEUE
       k; CURRENT := CURRENT k; READY := READY k; SINCE_SWITCH := SINCE_SWITCH k; ENDPOINTS :=
       ENDPOINTS k; TICKS := TICKS k; QUEUE := QUEUE k; SHIFT := SHIFT k; EXTENDED := EXTENDED k;
       WAITERS := WAITERS k; USER_CODE := USER_CODE k; USER_DATA := USER_DATA k; CR3 := CR3 k;
       TSS_RSP0 := TSS_RSP0 k; FRAMES := FRAMES k; CONSOLE := CONSOLE k; MEM := MEM k; DISK :=
       DISK k |}.
Definition set_REAP_QUEUE (v : list PendingReap) k : Kernel S D :=
    {| TASKS := TASKS k; NEXT_TID := NEXT_TID k; NEXT_KSTACK_SLOT := NEXT_KSTACK_SLOT k;
       REAP_QUEUE := v; CURRENT := CURRENT k; READY := READY k; SINCE_SWITCH := SINCE_SWITCH k;
       ENDPOINTS := ENDPOINTS k; TICKS := TICKS k; QUEUE := QUEUE k; SHIFT := SHIFT k; EXTENDED :=
       EXTENDED k; WAITERS := WAITERS k; USER_CODE := USER_CODE k; USER_DATA := USER_DATA k; CR3
       := CR3 k; TSS_RSP0 := TSS_RSP0 k; FRAMES := FRAMES k; CONSOLE := CONSOLE k; MEM := MEM k;
       DISK := DISK k |}.
Definition set_CURRENT (v : option Z) k : Kernel S D :=
    {| TASKS := TASKS k; NEXT_TID := NEXT_TID k; NEXT_KSTACK_SLOT := NEXT_KSTACK_SLOT k;
       REAP_QUEUE := REAP_QUEUE k; CURRENT := v; READY := READY k; SINCE_SWITCH := SINCE_SWITCH k;
       ENDPOINTS := ENDPOINTS k; TICKS := TICKS k; QUEUE := QUEUE k; SHIFT := SHIFT k; EXTENDED :=
       EXTENDED k; WAITERS := WAITERS k; USER_CODE := USER_CODE k; USER_DATA := USER_DATA k; CR3
       := CR3 k; TSS_RSP0 := TSS_RSP0 k; FRAMES := FRAMES k; CONSOLE := CONSOLE k; MEM := MEM k;
       DISK := DISK k |}.
Definition set_READY (v : list Z) k : Kernel S D :=
    {| TASKS := TASKS k; NEXT_TID := NEXT_TID k; NEXT_KSTACK_SLOT := NEXT_KSTACK_SLOT k;
       REAP_QUEUE := REAP_QUEUE k; CURRENT := CURRENT k; READY := v; SINCE_SWITCH := SINCE_SWITCH
       k; ENDPOINTS := ENDPOINTS k; TICKS := TICKS k; QUEUE := QUEUE k; SHIFT := SHIFT k; EXTENDED
       := EXTENDED k; WAITERS := WAITERS k; USER_CODE := USER_CODE k; USER_DATA := USER_DATA k;
       CR3 := CR3 k; TSS_RSP0 := TSS_RSP0 k; FRAMES := FRAMES k; CONSOLE := CONSOLE k; MEM := MEM
       k; DISK := DISK k |}.
Definition set_SINCE_SWITCH (v : Z) k : Kernel S D :=
    {| TASKS := TASKS k; NEXT_TID := NEXT_TID k; NEXT_KSTACK_SLOT := NEXT_KSTACK_SLOT k;
       REAP_QUEUE := REAP_QUEUE k; CURRENT := CURRENT k; READY := READY k; SINCE_SWITCH := v;
       ENDPOINTS := ENDPOINTS k; TICKS := TICKS k; QUEUE := QUEUE k; SHIFT := SHIFT k; EXTENDED :=
       EXTENDED k; WAITERS := WAITERS k; USER_CODE := USER_CODE k; USER_DATA := USER_DATA k; CR3
       := CR3 k; TSS_RSP0 := TSS_RSP0 k; FRAMES := FRAMES k; CONSOLE := CONSOLE k; MEM := MEM k;
       DISK := DISK k |}.
Definition set_ENDPOINTS (v : list EndpointState) k : Kernel S D :=
    {| TASKS := TASKS k; NEXT_TID := NEXT_TID k; NEXT_KSTACK_SLOT := NEXT_KSTACK_SLOT k;
       REAP_QUEUE := REAP_QUEUE k; CURRENT := CURRENT k; READY := READY k; SINCE_SWITCH :=
       SINCE_SWITCH k; ENDPOINTS := v; TICKS := TICKS k; QUEUE := QUEUE k; SHIFT := SHIFT k;
       EXTENDED := EXTENDED k; WAITERS := WAITERS k; USER_CODE := USER_CODE k; USER_DATA :=
       USER_DATA k; CR3 := CR3 k; TSS_RSP0 := TSS_RSP0 k; FRAMES := FRAMES k; CONSOLE := CONSOLE
       k; MEM := MEM k; DISK := DISK k |}.
Definition set_TICKS (v : Z) k : Kernel S D :=
    {| TASKS := TASKS k; NEXT_TID := NEXT_TID k; NEXT_KSTACK_SLOT := NEXT_KSTACK_SLOT k;
       REAP_QUEUE := REAP_QUEUE k; CURRENT := CURRENT k; READY := READY k; SINCE_SWITCH :=
       SINCE_SWITCH k; ENDPOINTS := ENDPOINTS k; TICKS := v; QUEUE := QUEUE k; SHIFT := SHIFT k;
       EXTENDED := EXTENDED k; WAITERS := WAITERS k; USER_CODE := USER_CODE k; USER_DATA :=
       USER_DATA k; CR3 := CR3 k; TSS_RSP0 := TSS_RSP0 k; FRAMES := FRAMES k; CONSOLE := CONSOLE
       k; MEM := MEM k; DISK := DISK k |}.
Definition set_QUEUE (v : list Z) k : Kernel S D :=
    {| TASKS := TASKS k; NEXT_TID := NEXT_TID k; NEXT_KSTACK_SLOT := NEXT_KSTACK_SLOT k;
       REAP_QUEUE := REAP_QUEUE k; CURRENT := CURRENT k; READY := READY k; SINCE_SWITCH :=
       SINCE_SWITCH k; ENDPOINTS := ENDPOINTS k; TICKS := TICKS k; QUEUE := v; SHIFT := SHIFT k;
       EXTENDED := EXTENDED k; WAITERS := WAITERS k; USER_CODE := USER_CODE k; USER_DATA :=
       USER_DATA k; CR3 := CR3 k; TSS_RSP0 := TSS_RSP0 k; FRAMES := FRAMES k; CONSOLE := CONSOLE
       k; MEM := MEM k; DISK := DISK k |}.
Definition set_SHIFT (v : bool) k : Kernel S D :=
    {| TASKS := TASKS k; NEXT_TID := NEXT_TID k; NEXT_KSTACK_SLOT := NEXT_KSTACK_SLOT k;
       REAP_QUEUE := REAP_QUEUE k; CURRENT := CURRENT k; READY := READY k; SINCE_SWITCH :=
       SINCE_SWITCH k; ENDPOINTS := ENDPOINTS k; TICKS := TICKS k; QUEUE := QUEUE k; SHIFT := v;
       EXTENDED := EXTENDED k; WAITERS := WAITERS k; USER_CODE := USER_CODE k; USER_DATA :=
       USER_DATA k; CR3 := CR3 k; TSS_RSP0 := TSS_RSP0 k; FRAMES := FRAMES k; CONSOLE := CONSOLE
       k; MEM := MEM k; DISK := DISK k |}.
Definition set_EXTENDED (v : bool) k : Kernel S D :=
    {| TASKS := TASKS k; NEXT_TID := NEXT_TID k; NEXT_KSTACK_SLOT := NEXT_KSTACK_SLOT k;
       REAP_QUEUE := REAP_QUEUE k; CURRENT := CURRENT k; READY := READY k; SINCE_SWITCH :=
       SINCE_SWITCH k; ENDPOINTS := ENDPOINTS k; TICKS := TICKS k; QUEUE := QUEUE k; SHIFT :=
       SHIFT k; EXTENDED := v; WAITERS := WAITERS k; USER_CODE := USER_CODE k; USER_DATA :=
       USER_DATA k; CR3 := CR3 k; TSS_RSP0 := TSS_RSP0 k; FRAMES := FRAMES k; CONSOLE := CONSOLE
       k; MEM := MEM k; DISK := DISK k |}.
Definition set_WAITERS (v : list Waiter) k : Kernel S D :=
    {| TASKS := TASKS k; NEXT_TID := NEXT_TID k; NEXT_KSTACK_SLOT := NEXT_KSTACK_SLOT k;
       REAP_QUEUE := REAP_QUEUE k; CURRENT := CURRENT k; READY := READY k; SINCE_SWITCH :=
       SINCE_SWITCH k; ENDPOINTS := ENDPOINTS k; TICKS := TICKS k; QUEUE := QUEUE k; SHIFT :=
       SHIFT k; EXTENDED := EXTENDED k; WAITERS := v; USER_CODE := USER_CODE k; USER_DATA :=
       USER_DATA k; CR3 := CR3 k; TSS_RSP0 := TSS_RSP0 k; FRAMES := FRAMES k; CONSOLE := CONSOLE
       k; MEM := MEM k; DISK := DISK k |}.
Definition set_CR3 (v : Z) k : Kernel S D :=
    {| TASKS := TASKS k; NEXT_TID := NEXT_TID k; NEXT_KSTACK_SLOT := NEXT_KSTACK_SLOT k;
       REAP_QUEUE := REAP_QUEUE k; CURRENT := CURRENT k; READY := READY k; SINCE_SWITCH :=
       SINCE_SWITCH k; ENDPOINTS := ENDPOINTS k; TICKS := TICKS k; QUEUE := QUEUE k; SHIFT :=
       SHIFT k; EXTENDED := EXTENDED k; WAITERS := WAITERS k; USER_CODE := USER_CODE k; USER_DATA
       := USER_DATA k; CR3 := v; TSS_RSP0 := TSS_RSP0 k; FRAMES := FRAMES k; CONSOLE := CONSOLE k;
       MEM := MEM k; DISK := DISK k |}.
Definition set_TSS_RSP0 (v : Z) k : Kernel S D :=
    {| TASKS := TASKS k; NEXT_TID := NEXT_TID k; NEXT_KSTACK_SLOT := NEXT_KSTACK_SLOT k;
       REAP_QUEUE := REAP_QUEUE k; CURRENT := CURRENT k; READY := READY k; SINCE_SWITCH :=
       SINCE_SWITCH k; ENDPOINTS := ENDPOINTS k; TICKS := TICKS k; QUEUE := QUEUE k; SHIFT :=
       SHIFT k; EXTENDED := EXTENDED k; WAITERS := WAITERS k; USER_CODE := USER_CODE k; USER_DATA
       := USER_DATA k; CR3 := CR3 k; TSS_RSP0 := v; FRAMES := FRAMES k; CONSOLE := CONSOLE k; MEM
       := MEM k; DISK := DISK k |}.
Definition set_FRAMES (v : gmap Z TrapFrame) k : Kernel S D :=
    {| TASKS := TASKS k; NEXT_TID := NEXT_TID k; NEXT_KSTACK_SLOT := NEXT_KSTACK_SLOT k;
       REAP_QUEUE := REAP_QUEUE k; CURRENT := CURRENT k; READY := READY k; SINCE_SWITCH :=
       SINCE_SWITCH k; ENDPOINTS := ENDPOINTS k; TICKS := TICKS k; QUEUE := QUEUE k; SHIFT :=
       SHIFT k; EXTENDED := EXTENDED k; WAITERS := WAITERS k; USER_CODE := USER_CODE k; USER_DATA
       := USER_DATA k; CR3 := CR3 k; TSS_RSP0 := TSS_RSP0 k; FRAMES := v; CONSOLE := CONSOLE k;
       MEM := MEM k; DISK := DISK k |}.
Definition set_CONSOLE (v : list Z) k : Kernel S D :=
    {| TASKS := TASKS k; NEXT_TID := NEXT_TID k; NEXT_KSTACK_SLOT := NEXT_KSTACK_SLOT k;
       REAP_QUEUE := REAP_QUEUE k; CURRENT := CURRENT k; READY := READY k; SINCE_SWITCH :=
       SINCE_SWITCH k; ENDPOINTS := ENDPOINTS k; TICKS := TICKS k; QUEUE := QUEUE k; SHIFT :=
       SHIFT k; EXTENDED := EXTENDED k; WAITERS := WAITERS k; USER_CODE := USER_CODE k; USER_DATA
       := USER_DATA k; CR3 := CR3 k; TSS_RSP0 := TSS_RSP0 k; FRAMES := FRAMES k; CONSOLE := v; MEM
       := MEM k; DISK := DISK k |}.
Definition set_MEM (v : S) k : Kernel S D :=
    {| TASKS := TASKS k; NEXT_TID := NEXT_TID k; NEXT_KSTACK_SLOT := NEXT_KSTACK_SLOT k;
       REAP_QUEUE := REAP_QUEUE k; CURRENT := CURRENT k; READY := READY k; SINCE_SWITCH :=
       SINCE_SWITCH k; ENDPOINTS := ENDPOINTS k; TICKS := TICKS k; QUEUE := QUEUE k; SHIFT :=
       SHIFT k; EXTENDED := EXTENDED k; WAITERS := WAITERS k; USER_CODE := USER_CODE k; USER_DATA
       := USER_DATA k; CR3 := CR3 k; TSS_RSP0 := TSS_RSP0 k; FRAMES := FRAMES k; CONSOLE :=
       CONSOLE k; MEM := v; DISK := DISK k |}.
Definition set_DISK (v : D) k : Kernel S D :=
    {| TASKS := TASKS k; NEXT_TID := NEXT_TID k; NEXT_KSTACK_SLOT := NEXT_KSTACK_SLOT k;
       REAP_QUEUE := REAP_QUEUE k; CURRENT := CURRENT k; READY := READY k; SINCE_SWITCH :=
       SINCE_SWITCH k; ENDPOINTS := ENDPOINTS k; TICKS := TICKS k; QUEUE := QUEUE k; SHIFT :=
       SHIFT k; EXTENDED := EXTENDED k; WAITERS := WAITERS k; USER_CODE := USER_CODE k; USER_DATA
       := USER_DATA k; CR3 := CR3 k; TSS_RSP0 := TSS_RSP0 k; FRAMES := FRAMES k; CONSOLE :=
       CONSOLE k; MEM := MEM k; DISK := v |}.
End state.

(** ** Accessors *)

(** Where a trap handler continues: the frame to [iretq] through, the idle
    loop, a machine reset, or a halted kernel. *)
Inductive Control := Resume (frame_ptr : Z) | Idle | Reboot | Halt.

Section accessors.
  Context {S D : Type}.
  Implicit Types k : Kernel S D.

Definition has_id (tid : Z) (t : Task) : bool := t_id t =? tid.

  (** [ts.iter().find(|t| t.id == tid)] *)
Definition find_task (tid : Z) k : option Task := find (has_id tid) (TASKS k).

  (** [ts.iter_mut().find(|t| t.id == tid)] and an update; nothing when the
      task is missing. *)
Definition upd_task (tid : Z) (f : Task -> Task) k : Kernel S D :=
    set_TASKS (update_first (has_id tid) f (TASKS k)) k.

  (** The same with [unwrap]/[expect]: a missing task is a panic. *)
Definition upd_task_or_panic (tid : Z) (f : Task -> Task) k : option (Kernel S D) :=
    match find_task tid k with
    | Some _ => Some (upd_task tid f k)
    | None => None
    end.

  (** A write through a frame pointer. *)
Definition write_frame (addr : Z) (f : TrapFrame -> TrapFrame) k : option (Kernel S D) :=
    match FRAMES k !! addr with
    | Some fr => Some (set_FRAMES (<[addr := f fr]> (FRAMES k)) k)
    | None => None
    end.

  (** [let f = &mut *frame_ptr; f.rax = v; return frame_ptr] and variants. *)
Definition return_with (frame_ptr : Z) (f : TrapFrame -> TrapFrame) k : option (Control * Kernel S D) :=
    match write_frame frame_ptr f k with
    | Some k => Some (Resume frame_ptr, k)
    | None => None
    end.
End accessors.

(** Task updates that keep the identity of a task. *)
Definition keeps_id (f : Task -> Task) : Prop := forall t, t_id (f t) = t_id t.

Lemma with_state_id s : keeps_id (with_state s).
Proof. done. Qed.
Lemma with_saved_rsp_id a : keeps_id (with_saved_rsp a).
Proof. done. Qed.
Lemma with_caps_id c : keeps_id (with_caps c).
Proof. done. Qed.
Lemma with_parent_id p : keeps_id (with_parent p).
Proof. done. Qed.
Lemma set_name_id n : keeps_id (set_name n).
Proof. done. Qed.
#[export] Hint Resolve with_state_id with_saved_rsp_id with_caps_id with_parent_id set_name_id : redoubt.

Lemma find_update_first f tid x l :
  keeps_id f ->
  find (has_id x) (update_first (has_id tid) f l) =
    if x =? tid then f <$> find (has_id tid) l else find (has_id x) l.
Proof.
  intros Hf. induction l as [|t l IH]; simpl; [by destruct (x =? tid)|].
  destruct (has_id tid t) eqn:Et; simpl; unfold has_id in *; rewrite ?Hf.
  - apply Z.eqb_eq in Et. rewrite Et. destruct (Z.eqb_spec x tid) as [->|Hne].
    + by rewrite Z.eqb_refl.
    + by rewrite (proj2 (Z.eqb_neq tid x)) by congruence.
  - destruct (Z.eqb_spec (t_id t) x) as [Hx|Hx]; [|exact IH].
    destruct (Z.eqb_spec x tid) as [->|]; [|done].
    apply Z.eqb_neq in Et. congruence.
Qed.

Section lookup.
  Context {S D : Type}.
  Implicit Types k : Kernel S D.

Lemma find_upd_task f tid x k :
    keeps_id f ->
    find_task x (upd_task tid f k) =
      if x =? tid then f <$> find_task tid k else find_task x k.
  Proof. intros. unfold find_task, upd_task. simpl. by apply find_update_first. Qed.

Lemma find_task_id tid k t : find_task tid k = Some t -> t_id t = tid /\ t ∈ TASKS k.
  Proof. intros H. apply find_In in H as [? H]. unfold has_id in H. apply Z.eqb_eq in H. auto. Qed.

  (** With unique ids, membership and lookup agree. *)
Lemma find_task_elem k t :
    NoDup (t_id <$> TASKS k) -> t ∈ TASKS k -> find_task (t_id t) k = Some t.
  Proof.
    unfold find_task. induction (TASKS k) as [|x l IH]; simpl; intros Hnd Hin.
    - by apply not_elem_of_nil in Hin.
    - apply NoDup_cons in Hnd as [Hx Hnd]. unfold has_id at 1.
      apply elem_of_cons in Hin as [->|Hin]; [by rewrite Z.eqb_refl|].
      destruct (Z.eqb_spec (t_id x) (t_id t)) as [Heq|]; [|by apply IH].
      exfalso. apply Hx. rewrite Heq. apply list_elem_of_fmap. eauto.
  Qed.

Lemma ids_upd_task f tid k : keeps_id f -> t_id <$> TASKS (upd_task tid f k) = t_id <$> TASKS k.
  Proof. intros Hf. unfold upd_task. simpl. apply update_first_fmap. auto. Qed.
End lookup.
