(* ===== verification/Sched.v ===== *)
(** * The scheduler (kernel/src/sched.rs)

    The ready queue, the choice of the next task, the hand-over of the CPU
    ([resume], [park_idle]), the timer work ([wake_expired], [maybe_preempt]).
    [Control] is what the trap stub does next with the returned pointer. *)

From S2P Require Import Prelude RustStd Caps Kernel.

Definition QUANTUM_TICKS : Z := 20.

(** Status codes shared by the scheduler and the system calls. *)
Definition E_OK : Z := 0.
Definition E_TIMEDOUT : Z := 10.

(** task.rs: kernel-stack slots.  Slot 0 is the idle stack; the [Once] behind
    [idle_stack_top] is filled during boot. *)
Definition kstack_slot_base (slot : Z) : Z :=
  KSTACK_REGION_BASE + slot * KSTACK_SLOT_BYTES + KSTACK_GUARD_PAGES * 4096.
Definition kstack_slot_top (slot : Z) : Z := kstack_slot_base slot + KSTACK_PAGES * 4096.
Definition idle_stack_top : Z := kstack_slot_top 0.

Section sched.
  Context {S D : Type} `{MemOps S}.

Definition make_ready (tid : Z) (front : bool) (k : Kernel S D) : Kernel S D :=
    set_READY (if front then tid :: READY k else READY k ++ [tid]) k.

Definition is_ready (ts : list Task) (tid : Z) : bool :=
    existsb (fun t => (t_id t =? tid) && bool_decide (t_state t = Ready)) ts.

  (** The [while let] of [pick_next]: [q] is what is left of the queue. *)
Fixpoint pick_loop (ts : list Task) (exclude : option Z) (q skipped : list Z) : option (Z * list Z) :=
    match q with
    | [] => None
    | tid :: q =>
        if negb (bool_decide (Some tid = exclude)) && is_ready ts tid
        then Some (tid, q ++ skipped)
        else pick_loop ts exclude q (skipped ++ [tid])
    end.

Definition pick_next (exclude : option Z) (k : Kernel S D) : option Z * Kernel S D :=
    match pick_loop (TASKS k) exclude (READY k) [] with
    | Some (tid, q) => (Some tid, set_READY q k)
    | None => (None, set_READY [] k)
    end.

Definition resume (tid : Z) (k : Kernel S D) : option (Control * Kernel S D) :=
    match find_task tid k with
    | None => None
    | Some t =>
        let k := upd_task tid (with_state Running) k in
        let k := set_CURRENT (Some tid) k in
        let k := set_CR3 (t_cr3 t) k in
        let k := set_TSS_RSP0 (t_kstack_top t) k in
        Some (Resume (t_saved_rsp t), k)
    end.

  (** paging.rs [activate_kernel_space]. *)
Definition activate_kernel_space (k : Kernel S D) : Kernel S D :=
    match kernel_space (MEM k) with
    | Some c => set_CR3 c k
    | None => k
    end.

Definition park_idle (k : Kernel S D) : Control * Kernel S D :=
    (Idle, set_TSS_RSP0 idle_stack_top (activate_kernel_space k)).

  (** [sched::set_current(None)] and the [match sched::pick_next(None)] that
      ends every blocking path. *)
Definition switch_away (k : Kernel S D) : option (Control * Kernel S D) :=
    let k := set_CURRENT None k in
    match pick_next None k with
    | (Some next, k) => resume next k
    | (None, k) => Some (park_idle k)
    end.

  (** The task parks itself: frame pointer and state recorded, CPU handed over. *)
Definition park (tid frame_ptr : Z) (s : TaskState) (k : Kernel S D) : option (Control * Kernel S D) :=
    let? k := upd_task_or_panic tid (fun t => with_state s (with_saved_rsp frame_ptr t)) k in
    switch_away k.

  (** ** Timer *)

Definition expired (now : Z) (s : TaskState) : bool :=
    match s with
    | BlockedRecv _ deadline => negb (deadline =? 0) && (deadline <=? now)
    | BlockedSleep until => until <=? now
    | _ => false
    end.

Definition wake_status (s : TaskState) : Z :=
    match s with BlockedRecv _ _ => E_TIMEDOUT | _ => E_OK end.

  (** The loop of [wake_expired] over the table, frames written through each
      woken task's [saved_rsp]; the third component is [woke]. *)
Fixpoint wake_tasks (now : Z) (ts : list Task) (fr : gmap Z TrapFrame)
    : option (list Task * gmap Z TrapFrame * list Z) :=
    match ts with
    | [] => Some ([], fr, [])
    | t :: ts =>
        if expired now (t_state t) then
          match fr !! t_saved_rsp t with
          | None => None
          | Some f =>
              let? (ts', fr', woke) := wake_tasks now ts (<[t_saved_rsp t := set_rax (wake_status (t_state t)) f]> fr) in
              Some (with_state Ready t :: ts', fr', t_id t :: woke)
          end
        else
          let? (ts', fr', woke) := wake_tasks now ts fr in
          Some (t :: ts', fr', woke)
    end.

Definition wake_expired (k : Kernel S D) : option (Kernel S D) :=
    let? (ts, fr, woke) := wake_tasks (TICKS k) (TASKS k) (FRAMES k) in
    Some (foldl (fun k tid => make_ready tid true k) (set_FRAMES fr (set_TASKS ts k)) woke).

Definition bump_tick (k : Kernel S D) : Kernel S D := set_TICKS (add64 (TICKS k) 1) k.

Definition maybe_preempt (frame_ptr : Z) (k : Kernel S D) : option (Control * Kernel S D) :=
    let k := set_SINCE_SWITCH (add64 (SINCE_SWITCH k) 1) k in
    if SINCE_SWITCH k <? QUANTUM_TICKS then Some (Resume frame_ptr, k) else
    let k := set_SINCE_SWITCH 0 k in
    let cur := CURRENT k in
    let '(next, k) := pick_next cur k in
    match cur, next with
    | None, Some next_id => resume next_id k
    | None, None => Some (Resume frame_ptr, k)
    | Some _, None => Some (Resume frame_ptr, k)
    | Some cur, Some next_id =>
        let? k := upd_task_or_panic cur (fun t => with_state Ready (with_saved_rsp frame_ptr t)) k in
        resume next_id (make_ready cur false k)
    end.

  (** Entry from boot. *)
Definition kickoff (k : Kernel S D) : option (Control * Kernel S D) :=
    match pick_next None k with
    | (Some tid, k) => resume tid k
    | (None, k) => Some (park_idle k)
    end.
End sched.
