(* ===== verification/TaskOps.v ===== *)
(** * Tasks: ELF loading, spawn, reaping (kernel/src/task.rs)

    [load_elf] is split into the validation of the load plan ([elf_plan]) and
    the mapping loop, as the source comments split it.  A [None] of the outer
    option is a kernel panic (an out-of-range slice, an assertion of the frame
    allocator); the inner option is the [Result<_, ()>] of the code. *)

From S2P Require Import Prelude RustStd Frame Caps Kernel Sched.

(** ** Reading the image: [&elf[off..off + n]] panics out of range *)

Definition rd_n (n : nat) (elf : list Z) (off : Z) : option Z :=
  if add64 off (Z.of_nat n) <=? Z.of_nat (length elf)
  then if off <=? add64 off (Z.of_nat n)
       then Some (from_le_bytes (slice (Z.to_nat off) n elf)) else None
  else None.
Definition rd (elf : list Z) (off : Z) : option Z := rd_n 8 elf off.
Definition rd16 (elf : list Z) (off : Z) : option Z := rd_n 2 elf off.
Definition rd32 (elf : list Z) (off : Z) : option Z := rd_n 4 elf off.

Definition PT_LOAD : Z := 1.
Definition USER_LOAD_LIMIT : Z := USER_STACK_TOP - USER_STACK_BYTES.
Definition ELF_MAGIC : list Z := [0x7f; 69; 76; 70].

Record LoadSegment := {
  ls_flags : Z;
  ls_offset : Z;
  ls_vaddr : Z;
  ls_filesz : Z;
  ls_page_start : Z;
  ls_page_end : Z;
}.

Definition is_power_of_two (x : Z) : bool := (0 <? x) && (Z.land x (x - 1) =? 0).

Definition segments_overlap (page_start page_end : Z) (other : LoadSegment) : bool :=
  (page_start <? ls_page_end other) && (ls_page_start other <? page_end).

(** One turn of the validation loop: [None] panic, [Some None] is
    [return Err(())], [Some (Some st)] the segments and the
    [entry_is_executable] flag afterwards. *)
Definition plan_segment (elf : list Z) (entry ph : Z) (st : list LoadSegment * bool)
    : option (option (list LoadSegment * bool)) :=
  let '(segments, entry_is_executable) := st in
  let? p_type := rd32 elf ph in
  if negb (p_type =? PT_LOAD) then Some (Some st) else
  let? p_flags := rd32 elf (ph + 4) in
  let? p_offset := rd elf (ph + 8) in
  let? p_vaddr := rd elf (ph + 16) in
  let? p_filesz := rd elf (ph + 32) in
  let? p_memsz := rd elf (ph + 40) in
  let? p_align := rd elf (ph + 48) in
  if p_memsz =? 0 then Some (Some st) else
  match checked_add64 p_offset p_filesz with
  | None => Some None
  | Some file_end =>
  if Z.of_nat (length elf) <? file_end then Some None else
  if p_memsz <? p_filesz then Some None else
  if (1 <? p_align) &&
     (negb (is_power_of_two p_align) || negb (p_vaddr mod p_align =? p_offset mod p_align))
  then Some None else
  match checked_add64 p_vaddr p_memsz with
  | None => Some None
  | Some segment_end =>
  let page_start := page_floor p_vaddr in
  match checked_add64 segment_end (PAGE_SIZE - 1) with
  | None => Some None
  | Some e =>
  let page_end := page_floor e in
  if (page_start <? PAGE_SIZE) || (USER_LOAD_LIMIT <? page_end) then Some None else
  if Z.land p_flags 3 =? 3 then Some None else
  let entry_is_executable :=
    entry_is_executable ||
    (negb (Z.land p_flags 1 =? 0) && (p_vaddr <=? entry) && (entry <? segment_end)) in
  if existsb (segments_overlap page_start page_end) segments then Some None else
  Some (Some (segments ++
    [{| ls_flags := p_flags; ls_offset := p_offset; ls_vaddr := p_vaddr; ls_filesz := p_filesz;
        ls_page_start := page_start; ls_page_end := page_end |}], entry_is_executable))
  end end end.

Fixpoint plan_segments (elf : list Z) (entry ph phentsize : Z) (n : nat)
    (st : list LoadSegment * bool) : option (option (list LoadSegment * bool)) :=
  match n with
  | O => Some (Some st)
  | S n =>
      match plan_segment elf entry ph st with
      | Some (Some st) => plan_segments elf entry (ph + phentsize) phentsize n st
      | r => r
      end
  end.

(** Header checks and the whole validation loop: the entry point, the plan
    and whether the entry is inside an executable segment. *)
Definition elf_plan (elf : list Z) : option (option (Z * list LoadSegment * bool)) :=
  if Z.of_nat (length elf) <? 0x40 then Some None else
  if negb (bytes_eqb (take 4 elf) ELF_MAGIC && bool_decide (elf !! 4%nat = Some 2) &&
           bool_decide (elf !! 5%nat = Some 1) && bool_decide (elf !! 6%nat = Some 1))
  then Some None else
  let? machine := rd16 elf 0x12 in
  if negb (machine =? 0x3e) then Some None else
  let? type := rd16 elf 0x10 in
  if negb (type =? 2) then Some None else
  let? entry := rd elf 0x18 in
  let? phoff := rd elf 0x20 in
  let? phentsize := rd16 elf 0x36 in
  let? phnum := rd16 elf 0x38 in
  if (32 <? phnum) || (phentsize <? 56) then Some None else
  match checked_mul64 phnum phentsize with
  | None => Some None
  | Some size =>
  match checked_add64 phoff size with
  | None => Some None
  | Some phend =>
  if Z.of_nat (length elf) <? phend then Some None else
  match plan_segments elf entry phoff phentsize (Z.to_nat phnum) ([], false) with
  | None => None
  | Some None => Some None
  | Some (Some (segments, exec)) => Some (Some (entry, segments, exec))
  end end end.

(** [(lo..hi).step_by(4096)] *)
Definition pages_between (lo hi : Z) : list Z :=
  (fun i => lo + i * PAGE_SIZE) <$> seqZ 0 ((hi - lo + PAGE_SIZE - 1) / PAGE_SIZE).

Definition rw_flags : PageFlags := {| pf_writable := true; pf_user := true; pf_no_execute := true |}.
Definition final_flags (flags : Z) : PageFlags :=
  {| pf_writable := negb (Z.land flags 2 =? 0); pf_user := true;
     pf_no_execute := Z.land flags 1 =? 0 |}.

Section elf.
  Context {S : Type} `{MemOps S}.

  (** Fresh zeroed frames for every page of a segment; the boolean is false
      for [return Err(())]. *)
Fixpoint map_segment (cr3 : Z) (pages : list Z) (m : S) : option (bool * S) :=
    match pages with
    | [] => Some (true, m)
    | page :: pages =>
        match mem_alloc 1 m with
        | (None, m) => Some (false, m)
        | (Some fr, m) =>
            let m := phys_zero fr 4096 m in
            match map_page_in cr3 page fr rw_flags m with
            | (true, m) => map_segment cr3 pages m
            | (false, m) => let? m := mem_free fr 1 m in Some (false, m)
            end
        end
    end.

Fixpoint copy_bytes (cr3 va : Z) (bs : list Z) (m : S) : bool * S :=
    match bs with
    | [] => (true, m)
    | b :: bs =>
        match translate m cr3 va with
        | None => (false, m)
        | Some pa => copy_bytes cr3 (va + 1) bs (phys_write pa b m)
        end
    end.

Fixpoint protect_segment (cr3 : Z) (fl : PageFlags) (pages : list Z) (m : S) : bool * S :=
    match pages with
    | [] => (true, m)
    | page :: pages =>
        match translate m cr3 page with
        | None => (false, m)
        | Some pa =>
            match map_page_in cr3 page pa fl m with
            | (true, m) => protect_segment cr3 fl pages m
            | (false, m) => (false, m)
            end
        end
    end.

Definition load_segment (cr3 : Z) (elf : list Z) (s : LoadSegment) (m : S) : option (bool * S) :=
    let pages := pages_between (ls_page_start s) (ls_page_end s) in
    let? (ok, m) := map_segment cr3 pages m in
    if negb ok then Some (false, m) else
    if Z.of_nat (length elf) <? ls_offset s + ls_filesz s then None else
    let '(ok, m) := copy_bytes cr3 (ls_vaddr s)
                      (slice (Z.to_nat (ls_offset s)) (Z.to_nat (ls_filesz s)) elf) m in
    if negb ok then Some (false, m) else
    Some (protect_segment cr3 (final_flags (ls_flags s)) pages m).

Fixpoint load_segments (cr3 : Z) (elf : list Z) (ss : list LoadSegment) (m : S) : option (bool * S) :=
    match ss with
    | [] => Some (true, m)
    | s :: ss =>
        let? (ok, m) := load_segment cr3 elf s m in
        if ok then load_segments cr3 elf ss m else Some (false, m)
    end.

Definition plan_pages (ss : list LoadSegment) : Z :=
    foldr (fun s n => Z.of_nat (length (pages_between (ls_page_start s) (ls_page_end s))) + n) 0 ss.

  (** The entry point and the number of mapped pages, or [Err(())]. *)
Definition load_elf (cr3 : Z) (elf : list Z) (m : S) : option (option (Z * Z) * S) :=
    let? plan := elf_plan elf in
    match plan with
    | None => Some (None, m)
    | Some (entry, segments, entry_is_executable) =>
        let? (ok, m) := load_segments cr3 elf segments m in
        if negb ok then Some (None, m) else
        if negb entry_is_executable then Some (None, m) else
        Some (Some (entry, plan_pages segments), m)
    end.

  (** ** The user stack *)

  (** Maps the stack page by page; [Some i] is the index that failed. *)
Fixpoint map_stack (cr3 va pa : Z) (n : nat) (i : Z) (m : S) : option Z * S :=
    match n with
    | O => (None, m)
    | Datatypes.S n =>
        match map_page_in cr3 (va + i * 4096) (pa + i * 4096) rw_flags m with
        | (true, m) => map_stack cr3 va pa n (i + 1) m
        | (false, m) => (Some i, m)
        end
    end.

Fixpoint unmap_stack (cr3 va : Z) (n : nat) (i : Z) (m : S) : S :=
    match n with
    | O => m
    | Datatypes.S n => unmap_stack cr3 va n (i + 1) (unmap_page_in cr3 (va + i * 4096) m)
    end.
End elf.

Definition STACK_PAGES : Z := USER_STACK_BYTES / 4096.

Section tasks.
  Context {S D : Type} `{MemOps S}.

  (** ** Kernel stacks *)

Definition kstack_slot (slot : Z) (m : S) : option (option (Z * Z) * S) :=
    if 4096 <=? slot then Some (None, m) else
    let stack_base := kstack_slot_base slot in
    match mem_alloc KSTACK_PAGES m with
    | (None, m) => Some (None, m)
    | (Some frames, m) =>
        match register_kstack stack_base frames KSTACK_PAGES m with
        | (true, m) => Some (Some (stack_base + KSTACK_PAGES * 4096, frames), m)
        | (false, m) => let? m := mem_free frames KSTACK_PAGES m in Some (None, m)
        end
    end.

Definition alloc_kstack (k : Kernel S D) : option (option (Z * Z) * Kernel S D) :=
    let slot := NEXT_KSTACK_SLOT k in
    let k := set_NEXT_KSTACK_SLOT (add64 slot 1) k in
    if 4096 <=? slot then Some (None, k) else
    let? (r, m) := kstack_slot slot (MEM k) in
    Some (r, set_MEM m k).

  (** ** Spawn *)

  (** Address space, image and user stack: cr3, entry and page count, or
      [Err(())] with everything torn down again. *)
Definition spawn_space (elf : list Z) (active_cr3 : Z) (m : S) : option (option (Z * Z * Z) * S) :=
    let? (r, m) := new_address_space active_cr3 m in
    match r with
    | None => Some (None, m)
    | Some cr3 =>
    let? (r, m) := load_elf cr3 elf m in
    match r with
    | None => let? m := destroy_address_space cr3 m in Some (None, m)
    | Some (entry, elf_pages) =>
    match mem_alloc STACK_PAGES m with
    | (None, m) => let? m := destroy_address_space cr3 m in Some (None, m)
    | (Some stack_frames, m) =>
    let m := phys_zero stack_frames USER_STACK_BYTES m in
    let stack_base := USER_STACK_TOP - USER_STACK_BYTES in
    match map_stack cr3 stack_base stack_frames (Z.to_nat STACK_PAGES) 0 m with
    | (Some i, m) =>
        let m := unmap_stack cr3 stack_base (Z.to_nat i) 0 m in
        let? m := mem_free stack_frames STACK_PAGES m in
        let? m := destroy_address_space cr3 m in
        Some (None, m)
    | (None, m) => Some (Some (cr3, entry, elf_pages + STACK_PAGES), m)
    end end end end.

Definition spawn_user (elf name : list Z) (caps : list Cap) (parent : option Z) (k : Kernel S D)
    : option (option Z * Kernel S D) :=
    let? (r, m) := spawn_space elf (CR3 k) (MEM k) in
    let k := set_MEM m k in
    match r with
    | None => Some (None, k)
    | Some (cr3, entry, pages) =>
    let? (r, k) := alloc_kstack k in
    match r with
    | None => let? m := destroy_address_space cr3 (MEM k) in Some (None, set_MEM m k)
    | Some (kstack_top, kstack_frames_base) =>
    let user_cs := Z.lor (USER_CODE k) 3 in
    let user_ss := Z.lor (USER_DATA k) 3 in
    let frame := new_user entry USER_STACK_TOP user_cs user_ss in
    let frame_addr := kstack_top - TRAP_FRAME_BYTES in
    let k := set_FRAMES (<[frame_addr := frame]> (FRAMES k)) k in
    let id := NEXT_TID k in
    let k := set_NEXT_TID (add64 id 1) k in
    let task :=
      {| t_id := id; t_name := name; t_state := Ready; t_cr3 := cr3; t_kstack_top := kstack_top;
         t_saved_rsp := frame_addr; t_caps := install_caps caps; t_parent := parent;
         t_kstack_base_va := kstack_top - KSTACK_PAGES * 4096;
         t_kstack_frames_base := kstack_frames_base; t_pages := pages |} in
    let k := set_TASKS (TASKS k ++ [task]) k in
    Some (Some id, make_ready id false k)
    end end.

  (** ** The reaper *)

Definition snapshot (t : Task) : PendingReap :=
    {| p_cr3 := t_cr3 t; p_kstack_base_va := t_kstack_base_va t;
       p_kstack_frames_base := t_kstack_frames_base t |}.

  (** Unmapping the kernel stack makes the trap frame at its top
      unreachable. *)
Definition reclaim (p : PendingReap) (k : Kernel S D) : option (Kernel S D) :=
    let? m := destroy_address_space (p_cr3 p) (MEM k) in
    let m := unregister_kstack (p_kstack_base_va p) KSTACK_PAGES m in
    let? m := mem_free (p_kstack_frames_base p) KSTACK_PAGES m in
    let gone := p_kstack_base_va p + KSTACK_PAGES * 4096 - TRAP_FRAME_BYTES in
    Some (set_MEM m (set_FRAMES (delete gone (FRAMES k)) k)).

Definition remove_task (tid : Z) (ts : list Task) : list Task :=
    List.filter (fun t => negb (t_id t =? tid)) ts.

Definition schedule_reap (tid : Z) (k : Kernel S D) : Kernel S D :=
    match find_task tid k with
    | None => k
    | Some t =>
        let k := set_TASKS (remove_task tid (TASKS k)) k in
        set_REAP_QUEUE (REAP_QUEUE k ++ [snapshot t]) k
    end.

Fixpoint reclaim_all (ps : list PendingReap) (k : Kernel S D) : option (Kernel S D) :=
    match ps with
    | [] => Some k
    | p :: ps => let? k := reclaim p k in reclaim_all ps k
    end.

Definition drain_reaper (k : Kernel S D) : option (Kernel S D) :=
    reclaim_all (REAP_QUEUE k) (set_REAP_QUEUE [] k).

  (** [ts.remove(pos)] for the first task with that id. *)
Fixpoint remove_first (tid : Z) (ts : list Task) : list Task :=
    match ts with
    | [] => []
    | t :: ts => if t_id t =? tid then ts else t :: remove_first tid ts
    end.

Definition reap_zombie (tid : Z) (k : Kernel S D) : option (option Z * Kernel S D) :=
    match find_task tid k with
    | None => Some (None, k)
    | Some t =>
        match t_state t with
        | Zombie code =>
            let? k := reclaim (snapshot t) (set_TASKS (remove_first tid (TASKS k)) k) in
            Some (Some code, k)
        | _ => Some (None, k)
        end
    end.
End tasks.
