(* ===== verification/Input.v ===== *)
(** * Keyboard input (kernel/src/input.rs)

    Scancode decoding, the bounded byte queue, parked readers and the three
    ways bytes reach a reader: delivery from interrupt context, a blocking
    read and a non-blocking one. *)

From S2P Require Import Prelude RustStd Caps Kernel Sched.

Definition QUEUE_CAP : nat := 256.

Definition decode_base (sc : Z) : option Z :=
  match sc with
  | 0x02 => Some 49 | 0x03 => Some 50 | 0x04 => Some 51 | 0x05 => Some 52 | 0x06 => Some 53
  | 0x07 => Some 54 | 0x08 => Some 55 | 0x09 => Some 56 | 0x0a => Some 57 | 0x0b => Some 48
  | 0x0c => Some 45 | 0x0d => Some 61 | 0x0e => Some 8 | 0x0f => Some 9
  | 0x10 => Some 113 | 0x11 => Some 119 | 0x12 => Some 101 | 0x13 => Some 114 | 0x14 => Some 116
  | 0x15 => Some 121 | 0x16 => Some 117 | 0x17 => Some 105 | 0x18 => Some 111 | 0x19 => Some 112
  | 0x1a => Some 91 | 0x1b => Some 93 | 0x1c => Some 10
  | 0x1e => Some 97 | 0x1f => Some 115 | 0x20 => Some 100 | 0x21 => Some 102 | 0x22 => Some 103
  | 0x23 => Some 104 | 0x24 => Some 106 | 0x25 => Some 107 | 0x26 => Some 108 | 0x27 => Some 59
  | 0x28 => Some 39 | 0x29 => Some 96 | 0x2b => Some 92
  | 0x2c => Some 122 | 0x2d => Some 120 | 0x2e => Some 99 | 0x2f => Some 118 | 0x30 => Some 98
  | 0x31 => Some 110 | 0x32 => Some 109 | 0x33 => Some 44 | 0x34 => Some 46 | 0x35 => Some 47
  | 0x39 => Some 32
  | _ => None
  end.

Definition unshift (c : Z) : Z :=
  match c with
  | 49 => 33 | 50 => 64 | 51 => 35 | 52 => 36 | 53 => 37 | 54 => 94 | 55 => 38 | 56 => 42
  | 57 => 40 | 48 => 41 | 45 => 95 | 61 => 43 | 91 => 123 | 93 => 125 | 59 => 58 | 39 => 34
  | 96 => 126 | 92 => 124 | 44 => 60 | 46 => 62 | 47 => 63
  | c => if is_ascii_lowercase c then c - 97 + 65 else c
  end.

Definition decode (sh : bool) (sc : Z) : option Z :=
  (fun c => if sh then unshift c else c) <$> decode_base sc.

(** The copy loop all three paths share: bytes leave the queue one at a time
    while the buffer has room and its next page is mapped. *)
Fixpoint fill {S} `{MemOps S} (cr3 buf written len : Z) (q : list Z) (m : S) : Z * list Z * S :=
  match q with
  | [] => (written, [], m)
  | b :: q' =>
      if written <? len then
        match translate m cr3 (buf + written) with
        | None => (written, q, m)
        | Some pa => fill cr3 buf (written + 1) len q' (phys_write pa b m)
        end
      else (written, q, m)
  end.

(** [ReadOutcome] *)
Inductive ReadOutcome := Served (n : Z) | Parked | BadArgs.

Section input.
  Context {S D : Type} `{MemOps S}.

Definition deliver_to (w : Waiter) (k : Kernel S D) : option (Kernel S D) :=
    let '(written, q, m) := fill (w_cr3 w) (w_buf w) 0 (w_len w) (QUEUE k) (MEM k) in
    let k := set_MEM m (set_QUEUE q k) in
    let? k :=
      match find_task (w_tid w) k with
      | Some t =>
          match t_state t with
          | BlockedInput =>
              let? k := write_frame (t_saved_rsp t) (set_rax written) k in
              Some (upd_task (w_tid w) (with_state Ready) k)
          | _ => Some k
          end
      | None => Some k
      end in
    Some (make_ready (w_tid w) true k).

Definition push_key (byte : Z) (q : list Z) : list Z :=
    (if (QUEUE_CAP <=? length q)%nat then tail q else q) ++ [byte].

Definition enqueue (byte : Z) (k : Kernel S D) : option (Kernel S D) :=
    let k := set_QUEUE (push_key byte (QUEUE k)) k in
    match WAITERS k with
    | [] => Some k
    | w :: ws => deliver_to w (set_WAITERS ws k)
    end.

Definition on_scancode (sc : Z) (k : Kernel S D) : option (Kernel S D) :=
    if sc =? 0xe0 then Some (set_EXTENDED true k) else
    if EXTENDED k then Some (set_EXTENDED false k) else
    if (sc =? 0x2a) || (sc =? 0x36) then Some (set_SHIFT true k) else
    if (sc =? 0xaa) || (sc =? 0xb6) then Some (set_SHIFT false k) else
    if negb (Z.land sc 0x80 =? 0) then Some k else
    match decode (SHIFT k) sc with
    | None => Some k
    | Some byte => enqueue byte k
    end.

Definition request_read (tid cr3 buf len : Z) (k : Kernel S D) : ReadOutcome * Kernel S D :=
    if (len =? 0) || negb (user_range_valid buf len) then (BadArgs, k) else
    match translate (MEM k) cr3 buf with
    | None => (BadArgs, k)
    | Some _ =>
        match QUEUE k with
        | [] => (Parked, set_WAITERS (WAITERS k ++
                   [{| w_tid := tid; w_buf := buf; w_len := len; w_cr3 := cr3 |}]) k)
        | _ =>
            let '(written, q, m) := fill cr3 buf 0 len (QUEUE k) (MEM k) in
            (Served written, set_MEM m (set_QUEUE q k))
        end
    end.

Definition try_read (cr3 buf len : Z) (k : Kernel S D) : option Z * Kernel S D :=
    if (len =? 0) || negb (user_range_valid buf len) then (Some 0, k) else
    let '(written, q, m) := fill cr3 buf 0 len (QUEUE k) (MEM k) in
    (Some written, set_MEM m (set_QUEUE q k)).
End input.
