(* ===== verification/Syscall.v ===== *)
(** * System calls (kernel/src/syscall.rs)

    Every handler of the dispatcher, composed as the source composes them.  A
    handler takes the current task, the pointer of its trap frame and its
    arguments, and returns the continuation of the trap stub with the new
    state; [None] is a kernel panic or a dereference of a missing frame. *)

From S2P Require Import Prelude RustStd Caps Kernel Sched TaskOps Input.

(** ** Numbers *)

Module num.
Definition YIELD : Z := 1.
Definition EXIT : Z := 2.
Definition DEBUG_WRITE : Z := 3.
Definition IPC_CALL : Z := 4.
Definition IPC_RECV : Z := 5.
Definition IPC_REPLY : Z := 6.
Definition CAP_DERIVE : Z := 7.
Definition TASK_SPAWN : Z := 8.
Definition WAIT : Z := 9.
Definition INPUT_READ : Z := 10.
Definition TICKS : Z := 11.
Definition SET_NAME : Z := 12.
Definition STATS : Z := 13.
Definition REBOOT : Z := 14.
Definition SLEEP : Z := 15.
Definition KILL : Z := 16.
Definition BLOCK_READ : Z := 17.
Definition BLOCK_WRITE : Z := 18.
End num.

Definition WAIT_NOHANG : Z := 1.
Definition INPUT_NOHANG : Z := 1.
Definition E_CAP_MISSING : Z := 1.
Definition E_CAP_DENIED : Z := 2.
Definition E_NO_REPLY_WAITING : Z := 4.
Definition E_BAD_ARG : Z := 5.
Definition E_NO_CHILDREN : Z := 6.
Definition E_PEER_DIED : Z := 7.
Definition E_ENDPOINT_BUSY : Z := 8.
Definition E_WOULD_BLOCK : Z := 9.

Definition MAX_SPAWN_ELF : Z := 2 * 1024 * 1024.
Definition MAX_BLOCK_SECTORS : Z := 8.
Definition MAX_READ : Z := 512.
Definition MAX_NAME : Z := 16.

(** [size_of::<SysStats>()]: four 8-byte words after two 4-byte ones, then a
    4-byte word padded to the alignment of [u64]. *)
Definition SYS_STATS_BYTES : Z := 48.

(** The four padding bytes of [SysStats] are never initialised: whatever the
    kernel stack held. *)
Class Uninit := { stats_padding : Z }.

(** ** User memory *)

Section usercopy.
  Context {S : Type} `{MemOps S}.

Fixpoint read_user (cr3 va : Z) (n : nat) (m : S) : option (list Z) :=
    match n with
    | O => Some []
    | Datatypes.S n =>
        let? pa := translate m cr3 va in
        let? bs := read_user cr3 (va + 1) n m in
        Some (phys_read m pa :: bs)
    end.

Definition copy_from_user (cr3 src len : Z) (m : S) : option (list Z) :=
    if negb (user_range_valid src len) then None else read_user cr3 src (Z.to_nat len) m.

  (** Bytes are written as they are translated, so a failure in the middle
      leaves the earlier ones in place ([copy_bytes] is the same loop). *)
Definition copy_to_user (cr3 dst : Z) (src : list Z) (m : S) : bool * S :=
    if negb (user_range_valid dst (Z.of_nat (length src))) then (false, m)
    else copy_bytes cr3 dst src m.
End usercopy.

(** Decimal digits, least significant first; 20 of them hold any [u64]. *)
Fixpoint digits_rev (fuel : nat) (v : Z) : list Z :=
  match fuel with
  | O => []
  | S fuel => if 0 <? v then 48 + v mod 10 :: digits_rev fuel (v / 10) else []
  end.
Definition itoa_small (v : Z) : list Z :=
  if v =? 0 then str "0" else rev (digits_rev 20 v).

Definition ends_with_newline (s : list Z) : bool := bool_decide (last s = Some 10).

Section syscall.
  Context {S D : Type} `{MemOps S} `{DiskOps D} `{Uninit}.

Definition create_endpoint (k : Kernel S D) : Z * Kernel S D :=
    (Z.of_nat (length (ENDPOINTS k)),
     set_ENDPOINTS (ENDPOINTS k ++
       [{| pending_callers := []; active_caller := None; active_server := None |}]) k).

Definition kprint_raw (s : list Z) (k : Kernel S D) : Kernel S D := set_CONSOLE (CONSOLE k ++ s) k.

Definition sys_debug_write (frame_ptr tid buf len raw : Z) (k : Kernel S D)
    : option (Control * Kernel S D) :=
    let len := Z.min len 512 in
    match copy_from_user (CR3 k) buf len (MEM k) with
    | Some bytes =>
        let k := if raw =? 0
                 then kprint_raw (str "] ") (kprint_raw (itoa_small tid) (kprint_raw (str "[tid ") k))
                 else k in
        let text := default (str "<binary>" ++ [10]) (from_utf8 bytes) in
        let k := kprint_raw text k in
        let k := if negb (ends_with_newline text) && (raw =? 0) then kprint_raw [10] k else k in
        return_with frame_ptr (set_rax E_OK) k
    | None => return_with frame_ptr (set_rax E_CAP_MISSING) k
    end.

Definition yield_task (tid frame_ptr : Z) (k : Kernel S D) : option (Control * Kernel S D) :=
    match pick_next (Some tid) k with
    | (None, k) => Some (Resume frame_ptr, k)
    | (Some next, k) =>
        let? k := upd_task_or_panic tid (fun t => with_state Ready (with_saved_rsp frame_ptr t)) k in
        resume next (make_ready tid false k)
    end.

  (** ** Termination *)

Inductive Fate := Deliver (pid : Z) | Linger | Orphan.

Definition children (tid : Z) (ts : list Task) : list Z :=
    t_id <$> List.filter (fun t => bool_decide (t_parent t = Some tid)) ts.

  (** The loop over [kids]; the second component is [orphaned_zombies]. *)
Fixpoint orphan_kids (kids : list Z) (k : Kernel S D) : Kernel S D * list Z :=
    match kids with
    | [] => (k, [])
    | kid :: kids =>
        match find_task kid k with
        | None => orphan_kids kids k
        | Some t =>
            let '(k, zs) := orphan_kids kids (upd_task kid (with_parent None) k) in
            (k, if is_zombie (t_state t) then kid :: zs else zs)
        end
    end.

Definition fate_of (parent : option Z) (k : Kernel S D) : Fate :=
    match parent with
    | None => Orphan
    | Some pid =>
        match find_task pid k with
        | None => Orphan
        | Some p => match t_state p with BlockedWait => Deliver pid | _ => Linger end
        end
    end.

Definition abort_endpoint (tid : Z) (ep : EndpointState) : EndpointState * list Z :=
    let pending := List.filter (fun p => negb (fst p =? tid)) (pending_callers ep) in
    let '(caller, server) :=
      if bool_decide (active_caller ep = Some tid) then (None, None)
      else (active_caller ep, active_server ep) in
    if bool_decide (server = Some tid)
    then ({| pending_callers := pending; active_caller := None; active_server := None |},
          match caller with Some c => [c] | None => [] end)
    else ({| pending_callers := pending; active_caller := caller; active_server := server |}, []).

  (** One iteration of the loop over [stranded]. *)
Definition fail_stranded (caller : Z) (k : Kernel S D) : option (Kernel S D) :=
    match find_task caller k with
    | None => Some k
    | Some t =>
        match t_state t with
        | BlockedCall _ =>
            let? k := write_frame (t_saved_rsp t) (set_rax E_PEER_DIED) k in
            Some (make_ready caller true (upd_task caller (with_state Ready) k))
        | _ => Some k
        end
    end.

Fixpoint fail_all (callers : list Z) (k : Kernel S D) : option (Kernel S D) :=
    match callers with
    | [] => Some k
    | c :: cs => let? k := fail_stranded c k in fail_all cs k
    end.

Definition abort_ipc_for_exiting_task (tid : Z) (k : Kernel S D) : option (Kernel S D) :=
    let eps := abort_endpoint tid <$> ENDPOINTS k in
    fail_all (concat (snd <$> eps)) (set_ENDPOINTS (fst <$> eps) k).

Definition terminate_lifecycle (tid code : Z) (k : Kernel S D) : option (Kernel S D) :=
    let '(fate, zombies, k) :=
      match find_task tid k with
      | None => (Orphan, [], k)
      | Some me =>
          let k := upd_task tid (with_state (Zombie code)) k in
          let '(k, zombies) := orphan_kids (children tid (TASKS k)) k in
          (fate_of (t_parent me) k, zombies, k)
      end in
    let k := foldl (fun k z => schedule_reap z k) k zombies in
    let? k := abort_ipc_for_exiting_task tid k in
    match fate with
    | Deliver pid =>
        match find_task pid k with
        | None => None
        | Some p =>
            let? k := write_frame (t_saved_rsp p) (set_rax_rdi_rsi E_OK tid code) k in
            let k := make_ready pid true (upd_task pid (with_state Ready) k) in
            Some (schedule_reap tid k)
        end
    | Linger => Some k
    | Orphan => Some (schedule_reap tid k)
    end.

Definition exit_task (tid code : Z) (k : Kernel S D) : option (Control * Kernel S D) :=
    let? k := terminate_lifecycle tid code k in
    switch_away k.

Definition sys_kill (frame_ptr tid victim : Z) (k : Kernel S D) : option (Control * Kernel S D) :=
    if victim =? tid then return_with frame_ptr (set_rax E_BAD_ARG) k else
    if negb (existsb (fun t => (t_id t =? victim) && bool_decide (t_parent t = Some tid)) (TASKS k))
    then return_with frame_ptr (set_rax E_CAP_DENIED) k else
    let? k := terminate_lifecycle victim 0x200 k in
    return_with frame_ptr (set_rax E_OK) k.

  (** ** Input, wait, sleep *)

Definition sys_input_read (tid frame_ptr a0 a1 a2 : Z) (k : Kernel S D)
    : option (Control * Kernel S D) :=
    let buf := a0 in
    let len := Z.min a1 MAX_READ in
    match find_task tid k with
    | None => return_with frame_ptr (set_rax E_BAD_ARG) k
    | Some t =>
        let cr3 := t_cr3 t in
        if negb (Z.land a2 INPUT_NOHANG =? 0) then
          match try_read cr3 buf len k with
          | (Some n, k) => return_with frame_ptr (set_rax n) k
          | (None, k) => return_with frame_ptr (set_rax E_WOULD_BLOCK) k
          end
        else
          match request_read tid cr3 buf len k with
          | (Served n, k) => return_with frame_ptr (set_rax n) k
          | (Parked, k) => park tid frame_ptr BlockedInput k
          | (BadArgs, k) => return_with frame_ptr (set_rax E_BAD_ARG) k
          end
    end.

Definition zombie_child (tid : Z) (ts : list Task) : option Z :=
    t_id <$> find (fun t => is_zombie (t_state t))
               (List.filter (fun t => bool_decide (t_parent t = Some tid)) ts).

Definition has_living_child (tid : Z) (ts : list Task) : bool :=
    existsb (fun t => bool_decide (t_parent t = Some tid) && negb (is_zombie (t_state t))) ts.

Definition sys_wait (tid frame_ptr flags : Z) (k : Kernel S D) : option (Control * Kernel S D) :=
    match zombie_child tid (TASKS k) with
    | Some zid =>
        let? (code, k) := reap_zombie zid k in
        return_with frame_ptr (set_rax_rdi_rsi E_OK zid (default 0 code)) k
    | None =>
        if negb (has_living_child tid (TASKS k))
        then return_with frame_ptr (set_rax E_NO_CHILDREN) k
        else if negb (Z.land flags WAIT_NOHANG =? 0)
        then return_with frame_ptr (set_rax E_WOULD_BLOCK) k
        else park tid frame_ptr BlockedWait k
    end.

Definition sys_sleep (tid frame_ptr delta : Z) (k : Kernel S D) : option (Control * Kernel S D) :=
    if (delta =? 0) || (u32_max <? delta) then return_with frame_ptr (set_rax E_BAD_ARG) k
    else park tid frame_ptr (BlockedSleep (saturating_add64 (TICKS k) delta)) k.
  (** ** IPC *)

  (** Both passes over the table read the same slot, so they are one match. *)
Definition get_endpoint_cap (tid slot need : Z) (k : Kernel S D) : result Z Z :=
    match find_task tid k with
    | None => Err E_CAP_DENIED
    | Some t =>
        match t_caps t !! Z.to_nat slot with
        | None | Some None => Err E_CAP_MISSING
        | Some (Some (Endpoint e rights)) =>
            if Z.land rights need =? need then Ok e else Err E_CAP_DENIED
        | Some (Some _) => Err E_CAP_DENIED
        end
    end.

Definition receives_on (ep : Z) (t : Task) : bool :=
    match t_state t with BlockedRecv e _ => e =? ep | _ => false end.

Definition set_endpoint (i : Z) (e : EndpointState) (k : Kernel S D) : Kernel S D :=
    set_ENDPOINTS (<[Z.to_nat i := e]> (ENDPOINTS k)) k.

Definition ipc_call (tid frame_ptr a0 a1 a2 a3 a4 a5 : Z) (k : Kernel S D)
    : option (Control * Kernel S D) :=
    match get_endpoint_cap tid a0 R_WRITE k with
    | Err e => return_with frame_ptr (set_rax e) k
    | Ok ep_idx =>
        let msg := [a1; a2; a3; a4; a5; 0] in
        let? k := upd_task_or_panic tid (with_saved_rsp frame_ptr) k in
        match ENDPOINTS k !! Z.to_nat ep_idx with
        | None => None
        | Some ep =>
            match find (receives_on ep_idx) (TASKS k) with
            | Some w =>
                let? k := write_frame (t_saved_rsp w) (set_request E_OK tid a1 a2 a3 a4 a5) k in
                let k := set_TASKS (update_first (receives_on ep_idx) (with_state Ready) (TASKS k)) k in
                let k := make_ready (t_id w) true k in
                let k := set_endpoint ep_idx
                           {| pending_callers := pending_callers ep;
                              active_caller := Some tid; active_server := Some (t_id w) |} k in
                let? k := upd_task_or_panic tid (with_state (BlockedCall ep_idx)) k in
                switch_away k
            | None =>
                let k := set_endpoint ep_idx
                           {| pending_callers := pending_callers ep ++ [(tid, msg)];
                              active_caller := active_caller ep;
                              active_server := active_server ep |} k in
                let? k := upd_task_or_panic tid (with_state (BlockedSend ep_idx)) k in
                switch_away k
            end
        end
    end.

Definition ipc_recv (tid frame_ptr ep_slot deadline : Z) (k : Kernel S D)
    : option (Control * Kernel S D) :=
    match get_endpoint_cap tid ep_slot R_READ k with
    | Err e => return_with frame_ptr (set_rax e) k
    | Ok ep_idx =>
        match ENDPOINTS k !! Z.to_nat ep_idx with
        | None => None
        | Some ep =>
            if bool_decide (is_Some (active_caller ep))
            then return_with frame_ptr (set_rax E_ENDPOINT_BUSY) k else
            match pending_callers ep with
            | (caller_tid, msg) :: rest =>
                let k := set_endpoint ep_idx
                           {| pending_callers := rest; active_caller := Some caller_tid;
                              active_server := Some tid |} k in
                let k := upd_task caller_tid (with_state (BlockedCall ep_idx)) k in
                return_with frame_ptr
                  (set_request E_OK caller_tid (nth 0 msg 0) (nth 1 msg 0) (nth 2 msg 0)
                     (nth 3 msg 0) (nth 4 msg 0)) k
            | [] =>
                if negb (deadline =? 0) && (deadline <=? TICKS k)
                then return_with frame_ptr (set_rax E_TIMEDOUT) k
                else park tid frame_ptr (BlockedRecv ep_idx deadline) k
            end
        end
    end.

Definition ipc_reply (tid frame_ptr a0 a1 a2 a3 a4 a5 : Z) (k : Kernel S D)
    : option (Control * Kernel S D) :=
    match get_endpoint_cap tid a0 R_WRITE k with
    | Err e => return_with frame_ptr (set_rax e) k
    | Ok ep_idx =>
        match ENDPOINTS k !! Z.to_nat ep_idx with
        | None => None
        | Some ep =>
            let '(caller, k) :=
              if bool_decide (active_server ep = Some tid)
              then (active_caller ep,
                    set_endpoint ep_idx {| pending_callers := pending_callers ep;
                                           active_caller := None; active_server := None |} k)
              else (None, k) in
            match caller with
            | Some cid =>
                match find_task cid k with
                | None => None
                | Some ct =>
                    let? k := write_frame (t_saved_rsp ct) (set_reply E_OK a1 a2 a3 a4 a5) k in
                    let k := make_ready cid true (upd_task cid (with_state Ready) k) in
                    return_with frame_ptr (set_rax E_OK) k
                end
            | None => return_with frame_ptr (set_rax E_NO_REPLY_WAITING) k
            end
        end
    end.

  (** ** Capabilities *)

  (** The source slot, its grant right and the intersected mask: the checks
      both delegation paths begin with. *)
Definition grantable (t : Task) (src_slot mask : Z) : result (Cap * Z) Z :=
    match t_caps t !! Z.to_nat src_slot with
    | None | Some None => Err E_CAP_MISSING
    | Some (Some src) =>
        if Z.land (cap_rights src) R_GRANT =? 0 then Err E_CAP_DENIED else
        let new_rights := Z.land (cap_rights src) mask in
        if new_rights =? 0 then Err E_CAP_DENIED else Ok (src, new_rights)
    end.

Definition derive_for_child (tid src_slot mask : Z) (k : Kernel S D) : result Cap Z :=
    match find_task tid k with
    | None => Err E_CAP_MISSING
    | Some t =>
        match grantable t src_slot mask with
        | Err e => Err e
        | Ok (src, new_rights) => Ok (with_rights src new_rights)
        end
    end.

  (** The object [sys_cap_derive] builds: block ranges are intersected. *)
Definition derived_cap (src : Cap) (new_rights r_lo r_len : Z) : result Cap Z :=
    match src with
    | Block disk lba_start lbas _ =>
        match checked_add64 r_lo r_len with
        | None => Err E_BAD_ARG
        | Some req_hi =>
            let hold_hi := saturating_add64 lba_start lbas in
            let lo := Z.max r_lo lba_start in
            let hi := Z.min req_hi hold_hi in
            if hi <=? lo then Err E_CAP_DENIED else Ok (Block disk lo (hi - lo) new_rights)
        end
    | _ =>
        if negb (r_lo =? 0) || negb (r_len =? 0) then Err E_BAD_ARG
        else Ok (with_rights src new_rights)
    end.

Definition cap_derive (t : Task) (src_slot mask r_lo r_len : Z) : result (nat * Cap) Z :=
    match grantable t src_slot mask with
    | Err e => Err e
    | Ok (src, new_rights) =>
        match derived_cap src new_rights r_lo r_len with
        | Err e => Err e
        | Ok derived =>
            match free_cap_slot (t_caps t) with
            | Some slot => Ok (slot, derived)
            | None => Err E_CAP_MISSING
            end
        end
    end.

Definition sys_cap_derive (frame_ptr tid a0 a1 a2 a3 : Z) (k : Kernel S D)
    : option (Control * Kernel S D) :=
    match find_task tid k with
    | None => return_with frame_ptr (set_rax_rdi E_CAP_MISSING 0) k
    | Some t =>
        match cap_derive t a0 a1 a2 a3 with
        | Ok (slot, derived) =>
            let k := upd_task tid (with_caps (<[slot := Some derived]> (t_caps t))) k in
            return_with frame_ptr (set_rax_rdi E_OK (Z.of_nat slot)) k
        | Err e => return_with frame_ptr (set_rax_rdi e 0) k
        end
    end.

  (** The loop over [spec.chunks_exact(16)]. *)
Fixpoint derive_all (tid : Z) (pairs : list (list Z)) (k : Kernel S D) : result (list Cap) Z :=
    match pairs with
    | [] => Ok []
    | pr :: pairs =>
        match derive_for_child tid (from_le_bytes (slice 0 8 pr)) (from_le_bytes (slice 8 8 pr)) k with
        | Err e => Err e
        | Ok c => match derive_all tid pairs k with Err e => Err e | Ok cs => Ok (c :: cs) end
        end
    end.

Definition sys_task_spawn (frame_ptr tid a0 a1 a2 a3 : Z) (k : Kernel S D)
    : option (Control * Kernel S D) :=
    let elf_len := a1 in
    let spec_words := a3 in
    if (elf_len =? 0) || (MAX_SPAWN_ELF <? elf_len) || negb (spec_words mod 2 =? 0)
    then return_with frame_ptr (set_rax E_BAD_ARG) k else
    if Z.of_nat CAP_TABLE_SIZE <? spec_words / 2
    then return_with frame_ptr (set_rax E_BAD_ARG) k else
    match copy_from_user (CR3 k) a0 elf_len (MEM k) with
    | None => return_with frame_ptr (set_rax E_BAD_ARG) k
    | Some elf =>
        match (if 0 <? spec_words then copy_from_user (CR3 k) a2 (spec_words * 8) (MEM k)
               else Some []) with
        | None => return_with frame_ptr (set_rax E_BAD_ARG) k
        | Some spec =>
            match derive_all tid (chunks 16 spec) k with
            | Err e => return_with frame_ptr (set_rax e) k
            | Ok child_caps =>
                let? (r, k) := spawn_user elf (str "user") child_caps (Some tid) k in
                match r with
                | Some child_tid => return_with frame_ptr (set_rax_rdi E_OK child_tid) k
                | None => return_with frame_ptr (set_rax E_BAD_ARG) k
                end
            end
        end
    end.

  (** ** Observability *)

Definition sys_set_name (frame_ptr tid buf len : Z) (k : Kernel S D) : option (Control * Kernel S D) :=
    let len := Z.min len MAX_NAME in
    match copy_from_user (CR3 k) buf len (MEM k) with
    | None => return_with frame_ptr (set_rax E_BAD_ARG) k
    | Some bytes =>
        let name := default [] (from_utf8 bytes) in
        return_with frame_ptr (set_rax E_OK) (upd_task tid (set_name name) k)
    end.

Definition stats_record (tid : Z) (k : Kernel S D) : list Z :=
    let '(used, total) := mem_stats (MEM k) in
    let my_pages := match find_task tid k with Some t => t_pages t | None => 0 end in
    to_le_bytes 4 0x41454753 ++ to_le_bytes 4 100 ++ to_le_bytes 8 (TICKS k) ++
    to_le_bytes 8 used ++ to_le_bytes 8 total ++ to_le_bytes 8 my_pages ++
    to_le_bytes 4 (wrap 32 (Z.of_nat (length (TASKS k)))) ++ to_le_bytes 4 stats_padding.

Definition sys_stats (frame_ptr tid buf len : Z) (k : Kernel S D) : option (Control * Kernel S D) :=
    if len <? SYS_STATS_BYTES then return_with frame_ptr (set_rax E_BAD_ARG) k else
    let '(ok, m) := copy_to_user (CR3 k) buf (stats_record tid k) (MEM k) in
    return_with frame_ptr (set_rax (if ok then E_OK else E_BAD_ARG)) (set_MEM m k).

  (** ** Block I/O *)

Definition check_block_cap (tid slot disk lba count need : Z) (k : Kernel S D) : result unit Z :=
    match find_task tid k with
    | None => Err E_CAP_MISSING
    | Some t =>
        match t_caps t !! Z.to_nat slot with
        | None | Some None => Err E_CAP_MISSING
        | Some (Some (Block d _ lbas rights)) =>
            match checked_add64 lba count with
            | None => Err E_BAD_ARG
            | Some end_ =>
                if negb ((d =? disk) && (end_ <=? lbas)) then Err E_CAP_DENIED
                else if negb (Z.land rights need =? need) then Err E_CAP_DENIED
                else Ok tt
            end
        | Some (Some _) => Err E_CAP_DENIED
        end
    end.

Definition locate_block (tid slot : Z) (k : Kernel S D) : result (Z * Z) Z :=
    match find_task tid k with
    | None => Err E_CAP_MISSING
    | Some t =>
        match t_caps t !! Z.to_nat slot with
        | Some (Some (Block disk lba_start _ _)) => Ok (disk, lba_start)
        | None => Err E_CAP_MISSING
        | Some _ => Err E_CAP_DENIED
        end
    end.

Definition block_io (frame_ptr tid a0 a1 a2 a3 : Z) (write : bool) (k : Kernel S D)
    : option (Control * Kernel S D) :=
    let fail e k := return_with frame_ptr (set_rax e) k in
    let slot := a0 in
    let rel_lba := a1 in
    let count := wrap 16 a2 in
    let buf := a3 in
    if (count =? 0) || (MAX_BLOCK_SECTORS <? count) then fail E_BAD_ARG k else
    let bytes := count * 512 in
    match locate_block tid slot k with
    | Err e => fail e k
    | Ok (disk, cap_base) =>
        let need := if write then R_WRITE else R_READ in
        match check_block_cap tid slot disk rel_lba count need k with
        | Err e => fail e k
        | Ok _ =>
            match checked_add64 cap_base rel_lba with
            | None => fail E_BAD_ARG k
            | Some lba =>
                if write then
                  if negb (user_range_valid buf bytes) then fail E_BAD_ARG k else
                  match copy_from_user (CR3 k) buf bytes (MEM k) with
                  | None => fail E_BAD_ARG k
                  | Some data =>
                      let '(ok, d) := write_sectors disk lba count data (DISK k) in
                      fail (if ok then E_OK else E_BAD_ARG) (set_DISK d k)
                  end
                else
                  match read_sectors disk lba count (DISK k) with
                  | Some data =>
                      let '(ok, m) := copy_to_user (CR3 k) buf data (MEM k) in
                      fail (if ok then E_OK else E_BAD_ARG) (set_MEM m k)
                  | None => fail E_BAD_ARG k
                  end
            end
        end
    end.

  (** ** Dispatch *)

Definition dispatch (frame_ptr : Z) (k : Kernel S D) : option (Control * Kernel S D) :=
    match FRAMES k !! frame_ptr with
    | None => None
    | Some frame =>
    match CURRENT k with
    | None => Some (Resume frame_ptr, k)
    | Some tid =>
    let n := rax frame in
    let '(a0, a1, a2, a3, a4, a5) := (rdi frame, rsi frame, rdx frame, r10 frame, r8 frame, r9 frame) in
    if n =? num.YIELD then yield_task tid frame_ptr k else
    if n =? num.EXIT then exit_task tid a0 k else
    if n =? num.DEBUG_WRITE then sys_debug_write frame_ptr tid a0 a1 a2 k else
    if n =? num.IPC_CALL then ipc_call tid frame_ptr a0 a1 a2 a3 a4 a5 k else
    if n =? num.IPC_RECV then ipc_recv tid frame_ptr a0 a1 k else
    if n =? num.IPC_REPLY then ipc_reply tid frame_ptr a0 a1 a2 a3 a4 a5 k else
    if n =? num.CAP_DERIVE then sys_cap_derive frame_ptr tid a0 a1 a2 a3 k else
    if n =? num.TASK_SPAWN then sys_task_spawn frame_ptr tid a0 a1 a2 a3 k else
    if n =? num.WAIT then sys_wait tid frame_ptr a0 k else
    if n =? num.INPUT_READ then sys_input_read tid frame_ptr a0 a1 a2 k else
    if n =? num.TICKS then return_with frame_ptr (set_rax (Kernel.TICKS k)) k else
    if n =? num.SET_NAME then sys_set_name frame_ptr tid a0 a1 k else
    if n =? num.STATS then sys_stats frame_ptr tid a0 a1 k else
    if n =? num.REBOOT then Some (Reboot, k) else
    if n =? num.SLEEP then sys_sleep tid frame_ptr a0 k else
    if n =? num.KILL then sys_kill frame_ptr tid a0 k else
    if n =? num.BLOCK_READ then block_io frame_ptr tid a0 a1 a2 a3 false k else
    if n =? num.BLOCK_WRITE then block_io frame_ptr tid a0 a1 a2 a3 true k else
    return_with frame_ptr (set_rax u64_max) k
    end end.

Definition handle_user_fault (frame_ptr vector : Z) (k : Kernel S D) : option (Control * Kernel S D) :=
    match FRAMES k !! frame_ptr with
    | None => None
    | Some frame =>
        if negb (Z.land (cs frame) 3 =? 3) then Some (Halt, k) else
        match CURRENT k with
        | None => Some (Halt, k)
        | Some tid => exit_task tid (add64 0x100 vector) k
        end
    end.

  (** sched.rs: the trap entry. *)
Definition VECTOR_TIMER : Z := 32.
Definition VECTOR_SYSCALL : Z := 0x80.

Definition do_handle_trap (frame_ptr vector : Z) (k : Kernel S D) : option (Control * Kernel S D) :=
    let? k := drain_reaper k in
    if vector =? VECTOR_TIMER then
      let? k := wake_expired (bump_tick k) in
      maybe_preempt frame_ptr k
    else if vector =? VECTOR_SYSCALL then dispatch frame_ptr k
    else Some (Resume frame_ptr, k).
End syscall.
