(* ===== verification/ElfSafety.v ===== *)
(** * The ELF loader is total and its plan is safe (kernel/src/task.rs, load_elf)

    The documentation of [load_elf] promises that a hostile image can never
    panic the kernel and that every field is validated before anything is
    mapped.  [elf_plan_safe] states both for arbitrary bytes. *)

From S2P Require Import Prelude RustStd Frame Caps Kernel Sched TaskOps.

(** A byte vector the kernel can hold: bytes, and a length within [isize]. *)
Definition image_ok (elf : list Z) : Prop := bytes_ok elf /\ Z.of_nat (length elf) < 2 ^ 63.

(** What validation guarantees of one segment: its pages lie in user space
    below the stack and off page zero, the file range is inside the image and
    inside the pages, and it is never writable and executable at once. *)
Record seg_ok (elf : list Z) (s : LoadSegment) : Prop := {
  so_aligned : aligned (ls_page_start s) /\ aligned (ls_page_end s);
  so_low : PAGE_SIZE <= ls_page_start s <= ls_vaddr s;
  so_high : ls_page_end s <= USER_LOAD_LIMIT;
  so_mem : ls_vaddr s + ls_filesz s <= ls_page_end s;
  so_nonempty : ls_page_start s < ls_page_end s;
  so_file : 0 <= ls_offset s /\ 0 <= ls_filesz s /\
            ls_offset s + ls_filesz s <= Z.of_nat (length elf);
  so_wx : pf_writable (final_flags (ls_flags s)) = true ->
          pf_no_execute (final_flags (ls_flags s)) = true;
}.

Definition segs_apart (a b : LoadSegment) : Prop :=
  ls_page_end a <= ls_page_start b \/ ls_page_end b <= ls_page_start a.

Definition segs_disjoint (ss : list LoadSegment) : Prop :=
  forall i j a b, i <> j -> ss !! i = Some a -> ss !! j = Some b -> segs_apart a b.

(** The program header at [ph] describes a loadable, executable segment
    whose memory, [p_vaddr] up to [p_vaddr + p_memsz], holds the entry point. *)
Definition entry_header (elf : list Z) (entry ph flags vaddr : Z) : Prop :=
  rd32 elf ph = Some PT_LOAD /\ rd32 elf (ph + 4) = Some flags /\ rd elf (ph + 16) = Some vaddr /\
  Z.land flags 1 <> 0 /\ exists memsz, rd elf (ph + 40) = Some memsz /\ vaddr <= entry < vaddr + memsz.

(** The entry point lies in an executable segment of the plan: one loaded
    from a program header, among [headers], that holds it. *)
Definition entry_covered (elf : list Z) (headers : Z -> Prop) (entry : Z) (ss : list LoadSegment) : Prop :=
  exists ph s, headers ph /\ s ∈ ss /\ entry_header elf entry ph (ls_flags s) (ls_vaddr s) /\
    pf_no_execute (final_flags (ls_flags s)) = false.

(** The plan of the program headers [headers]: the flag is up exactly when
    one of them holds the entry point. *)
Record plan_ok (elf : list Z) (headers : Z -> Prop) (entry : Z) (ss : list LoadSegment) (exec : bool) : Prop := {
  po_segs : Forall (seg_ok elf) ss;
  po_disjoint : segs_disjoint ss;
  po_entry : exec = true -> entry_covered elf headers entry ss;
  po_reject : exec = false -> forall ph flags vaddr, headers ph -> ~ entry_header elf entry ph flags vaddr;
}.

(** The offsets of the program headers, as the ELF header lists them. *)
Definition program_header (elf : list Z) (ph : Z) : Prop :=
  exists phoff phentsize phnum i, rd elf 0x20 = Some phoff /\ rd16 elf 0x36 = Some phentsize /\
    rd16 elf 0x38 = Some phnum /\ 0 <= i < phnum /\ ph = phoff + i * phentsize.

Lemma plan_ok_headers elf (P Q : Z -> Prop) entry ss exec :
  (forall ph, P ph <-> Q ph) -> plan_ok elf P entry ss exec -> plan_ok elf Q entry ss exec.
Proof.
  intros HPQ [H1 H2 H3 H4]. split; [done|done| |].
  - intros E. destruct (H3 E) as (ph & s & Hp & ?). exists ph, s. split; [by apply HPQ|done].
  - intros E ph fl va Hp%HPQ. by apply H4.
Qed.

(** ** Reading fields *)

Lemma slice_bytes_ok off n l : bytes_ok l -> bytes_ok (slice off n l).
Proof. intros. unfold slice. by apply Forall_take, Forall_drop. Qed.

Lemma rd_n_total n elf off :
  image_ok elf -> 0 <= off -> off + Z.of_nat n <= Z.of_nat (length elf) ->
  exists v, rd_n n elf off = Some v /\ 0 <= v < 256 ^ Z.of_nat n.
Proof.
  intros [Hb Hl] Ho Hn. unfold rd_n. rewrite add64_small by lia.
  rewrite (proj2 (Z.leb_le _ _)) by lia. rewrite (proj2 (Z.leb_le _ _)) by lia.
  eexists. split; [done|].
  pose proof (from_le_bound _ (slice_bytes_ok (Z.to_nat off) n _ Hb)) as H.
  rewrite length_slice in H by lia. exact H.
Qed.

(** Rewrites the next field read of the goal and remembers its bounds. *)
Ltac read_field Him :=
  match goal with
  | |- context [match ?r with Some _ => _ | None => None end] =>
      let v := fresh "v" in let E := fresh "E" in let B := fresh "B" in
      first [ unfold rd; unfold rd16; unfold rd32 | idtac ];
      match goal with
      | |- context [rd_n ?n ?elf ?off] =>
          destruct (rd_n_total n elf off Him ltac:(lia) ltac:(lia)) as (v & E & B);
          rewrite E; simpl in B
      end
  end.

Lemma segs_disjoint_snoc ss s :
  segs_disjoint ss -> Forall (fun o => segs_apart s o) ss -> segs_disjoint (ss ++ [s]).
Proof.
  intros Hd Hf i j a b Hij Ha Hb.
  assert (Hcase : forall i c, (ss ++ [s]) !! i = Some c ->
            ss !! i = Some c \/ (i = length ss /\ c = s)).
  { intros n c Hn. apply lookup_app_Some in Hn as [?|[? Hn]]; [auto|].
    apply list_lookup_singleton_Some in Hn as [? <-]. right. split; [lia|done]. }
  rewrite Forall_forall in Hf.
  destruct (Hcase _ _ Ha) as [Ha'|[-> ->]], (Hcase _ _ Hb) as [Hb'|[-> ->]].
  - eauto.
  - apply list_elem_of_lookup_2, Hf in Ha'. unfold segs_apart in *. lia.
  - apply list_elem_of_lookup_2, Hf in Hb'. unfold segs_apart in *. lia.
  - congruence.
Qed.

Lemma existsb_false {A} (f : A -> bool) l : existsb f l = false -> Forall (fun x => f x = false) l.
Proof.
  induction l as [|x l IH]; simpl; [constructor|].
  intros [? ?]%orb_false_iff. constructor; auto.
Qed.

Lemma not_wx flags :
  (Z.land flags 3 =? 3) = false ->
  pf_writable (final_flags flags) = true -> pf_no_execute (final_flags flags) = true.
Proof.
  simpl. intros H3 Hw. bool_facts.
  destruct (Z.eqb_spec (Z.land flags 1) 0) as [|H1]; [done|exfalso]. apply H3, Z.bits_inj'.
  intros n Hn. rewrite Z.land_spec.
  assert (Hone : forall b, 0 <= b -> Z.land flags (2 ^ b) <> 0 -> Z.testbit flags b = true).
  { intros b Hb Hnz. destruct (Z.testbit flags b) eqn:E; [done|]. exfalso. apply Hnz.
    apply Z.bits_inj'. intros c Hc. rewrite Z.land_spec, Z.bits_0, Z.pow2_bits_eqb by done.
    destruct (Z.eqb_spec b c) as [<-|]; [by rewrite E|apply andb_false_r]. }
  destruct (decide (n = 0)) as [->|]; [rewrite (Hone 0); [done|lia|exact H1]|].
  destruct (decide (n = 1)) as [->|]; [rewrite (Hone 1); [done|lia|]|].
  - intros E. change (2 ^ 1) with 2 in E. rewrite E in *. done.
  - change 3 with (Z.ones 2). rewrite Z.ones_spec_high by lia. apply andb_false_r.
Qed.

(** ** The validation loop *)

(** A segment that passed every check of the loop body is safe. *)
Lemma checked_segment_ok elf flags off va filesz memsz :
  0 <= off -> 0 <= filesz <= memsz -> memsz <> 0 -> 0 <= va ->
  off + filesz <= Z.of_nat (length elf) ->
  va + memsz + (PAGE_SIZE - 1) < 2 ^ 64 ->
  PAGE_SIZE <= page_floor va ->
  page_floor (va + memsz + (PAGE_SIZE - 1)) <= USER_LOAD_LIMIT ->
  (Z.land flags 3 =? 3) = false ->
  seg_ok elf {| ls_flags := flags; ls_offset := off; ls_vaddr := va; ls_filesz := filesz;
                ls_page_start := page_floor va;
                ls_page_end := page_floor (va + memsz + (PAGE_SIZE - 1)) |}.
Proof.
  intros. unfold PAGE_SIZE in *.
  destruct (page_floor_bounds va) as [Ha1 Hb1]; [red; lia|].
  destruct (page_floor_bounds (va + memsz + (4096 - 1))) as [Ha2 Hb2]; [red; lia|].
  unfold PAGE_SIZE in *. split; cbn [ls_flags ls_offset ls_vaddr ls_filesz ls_page_start ls_page_end];
    unfold PAGE_SIZE; first [by apply not_wx | done | lia].
Qed.

(** A header that is passed over holds no entry. *)
Lemma plan_ok_skip elf (P : Z -> Prop) entry ss exec ph :
  (forall flags vaddr, ~ entry_header elf entry ph flags vaddr) ->
  plan_ok elf P entry ss exec -> plan_ok elf (fun x => P x \/ x = ph) entry ss exec.
Proof.
  intros Hph [H1 H2 H3 H4]. split; [done|done| |].
  - intros E. destruct (H3 E) as (x & s & Hp & ?). exists x, s. split; [by left|done].
  - intros E x fl va [Hp| ->]; [by apply H4|by apply Hph].
Qed.

(** A header that was checked adds its segment. *)
Lemma plan_ok_add elf (P : Z -> Prop) entry ss exec ph s memsz :
  plan_ok elf P entry ss exec -> seg_ok elf s -> Forall (fun o => segs_apart s o) ss ->
  rd32 elf ph = Some PT_LOAD -> rd32 elf (ph + 4) = Some (ls_flags s) -> rd elf (ph + 16) = Some (ls_vaddr s) ->
  rd elf (ph + 40) = Some memsz ->
  plan_ok elf (fun x => P x \/ x = ph) entry (ss ++ [s])
    (exec || negb (Z.land (ls_flags s) 1 =? 0) && (ls_vaddr s <=? entry) && (entry <? ls_vaddr s + memsz)).
Proof.
  intros [H1 H2 H3 H4] Hs Hap E1 E2 E3 E4. split.
  - apply Forall_app. auto.
  - by apply segs_disjoint_snoc.
  - intros [He|He]%orb_true_iff.
    + destruct (H3 He) as (x & u & Hp & Hin & ?). exists x, u. rewrite elem_of_app. auto.
    + bool_facts. exists ph, s. split; [by right|]. split; [apply elem_of_app; right; by apply list_elem_of_singleton|].
      split; [|by apply Z.eqb_neq]. split; [done|]. split; [done|]. split; [done|]. split; [done|]. exists memsz. split; [done|lia].
  - intros [He Hn]%orb_false_iff x fl va [Hp| ->]; [by apply H4|].
    intros (_ & F2 & F3 & Hx & mz & F4 & Hr). rewrite E2 in F2. rewrite E3 in F3. rewrite E4 in F4. simplify_eq.
    rewrite (proj2 (Z.eqb_neq _ _) Hx), (proj2 (Z.leb_le _ _)), (proj2 (Z.ltb_lt _ _)) in Hn by lia. done.
Qed.

Lemma plan_segment_safe elf P entry ph segs exec :
  image_ok elf -> 0 <= ph -> ph + 56 <= Z.of_nat (length elf) ->
  plan_ok elf P entry segs exec ->
  exists r, plan_segment elf entry ph (segs, exec) = Some r /\
    forall segs' exec', r = Some (segs', exec') -> plan_ok elf (fun x => P x \/ x = ph) entry segs' exec'.
Proof.
  intros Him Hph Hlen Hok. unfold plan_segment. unfold rd, rd32.
  read_field Him. split_match.
  { eexists; split; [done|]. intros ? ? [= <- <-]. apply plan_ok_skip; [|done]. intros fl va (F & _). bool_facts.
    unfold rd32 in F. congruence. }
  do 6 read_field Him.
  destruct (Z.eqb_spec v4 0) as [->|Hmem].
  { eexists; split; [done|]. intros ? ? [= <- <-]. apply plan_ok_skip; [|done].
    intros fl va (_ & _ & _ & _ & mz & F & ?). unfold rd in F. rewrite E4 in F. injection F as <-. lia. }
  repeat match goal with
  | |- exists r, Some None = Some r /\ _ => eexists; split; [done|]; discriminate
  | |- exists r, (if ?c then _ else _) = Some r /\ _ => destruct c eqn:?
  | |- exists r, (match ?c with None => _ | Some _ => _ end) = Some r /\ _ => destruct c eqn:?
  end.
  eexists; split; [done|]. intros segs' exec' [= <- <-].
  match goal with H : existsb _ segs = false |- _ => pose proof (existsb_false _ _ H) as Hap; clear H end.
  bool_facts.
  repeat match goal with
  | H : checked_add64 _ _ = Some _ |- _ => apply checked_add64_Some in H as [-> ?]
  end.
  match goal with
  | |- plan_ok _ _ _ (segs ++ [?s]) _ => assert (Hs : seg_ok elf s); [|apply (plan_ok_add elf P entry segs exec ph s v4 Hok Hs)]
  end; try (unfold rd, rd32; cbn [ls_flags ls_vaddr]; congruence).
  { apply checked_segment_ok; first [done | lia]. }
  eapply Forall_impl; [exact Hap|]. intros o Ho.
  unfold segments_overlap in Ho. apply andb_false_iff in Ho. unfold segs_apart. cbn [ls_page_start ls_page_end]. destruct Ho; bool_facts; lia.
Qed.

Lemma plan_segments_safe elf entry phentsize n : forall P ph segs exec,
  image_ok elf -> 0 <= ph -> 56 <= phentsize ->
  ph + Z.of_nat n * phentsize <= Z.of_nat (length elf) ->
  plan_ok elf P entry segs exec ->
  exists r, plan_segments elf entry ph phentsize n (segs, exec) = Some r /\
    forall segs' exec', r = Some (segs', exec') ->
      plan_ok elf (fun x => P x \/ exists i, 0 <= i < Z.of_nat n /\ x = ph + i * phentsize) entry segs' exec'.
Proof.
  induction n as [|n IH]; intros P ph segs exec Him Hph Hent Hlen Hok.
  - eexists. split; [done|]. intros ? ? [= <- <-]. eapply plan_ok_headers; [|exact Hok]. intros x.
    split; [by left|]. intros [?|(i & ? & _)]; [done|lia].
  - cbn [plan_segments].
    destruct (plan_segment_safe elf P entry ph segs exec) as (r & -> & Hr); try done; [nia|].
    destruct r as [[segs' exec']|]; [|by eexists].
    destruct (IH (fun x => P x \/ x = ph) (ph + phentsize) segs' exec') as (r' & -> & Hr'); auto; [lia..|].
    eexists. split; [done|]. intros s2 e2 E. eapply plan_ok_headers; [|by apply Hr']. intros x. split.
    + intros [[?| ->]|(i & ? & ->)]; [by left|right; exists 0; lia|right; exists (i + 1); lia].
    + intros [?|(i & ? & ->)]; [by left; left|]. destruct (decide (i = 0)) as [->|]; [left; right; lia|right; exists (i - 1); lia].
Qed.

Lemma plan_ok_nil elf entry : plan_ok elf (fun _ => False) entry [] false.
Proof. split; [constructor|intros ? ? ? ? _ H; by rewrite lookup_nil in H|discriminate|by intros _ ? ? ? []]. Qed.

Lemma elf_plan_spec elf :
  image_ok elf ->
  exists r, elf_plan elf = Some r /\
    forall entry segs exec, r = Some (entry, segs, exec) -> plan_ok elf (program_header elf) entry segs exec.
Proof.
  intros Him. unfold elf_plan.
  destruct (Z.ltb_spec (Z.of_nat (length elf)) 0x40); [by eexists|].
  split_match; [by eexists|]. unfold rd16, rd.
  read_field Him. split_match; [by eexists|].
  read_field Him. split_match; [by eexists|].
  do 4 read_field Him. split_match; [by eexists|]. bool_facts.
  split_match; [|by eexists]. split_match; [|by eexists]. split_match; [by eexists|].
  bool_facts.
  match goal with H : checked_mul64 _ _ = Some _ |- _ =>
    unfold checked_mul64 in H; split_match_in H; simplify_eq end.
  match goal with H : checked_add64 _ _ = Some _ |- _ => apply checked_add64_Some in H as [-> ?] end.
  match goal with
  | |- context [plan_segments elf ?e ?ph ?sz ?n ?st] =>
      destruct (plan_segments_safe elf e sz n (fun _ => False) ph [] false Him) as (r & -> & Hr);
        [lia | lia | rewrite Z2Nat.id by lia; lia | apply plan_ok_nil | ]
  end.
  destruct r as [[segs exec]|]; [|by eexists].
  eexists. split; [done|]. intros ? ? ? [= <- <- <-]. eapply plan_ok_headers; [|by apply Hr].
  intros x. rewrite Z2Nat.id by lia. split.
  - intros [[]|(i & ? & ->)]. do 4 eexists. by do 4 (split; [eassumption|]).
  - intros (po & pe & pn & i & F1 & F2 & F3 & ? & ->). right. unfold rd, rd16 in F1, F2, F3. simplify_eq. by exists i.
Qed.

(** The loader starts a program only at an entry point the plan covers. *)
Lemma load_elf_entry {S} `{MemOps S} cr3 elf (m : S) entry pages m' :
  load_elf cr3 elf m = Some (Some (entry, pages), m') -> exists segs, elf_plan elf = Some (Some (entry, segs, true)).
Proof.
  unfold load_elf. intros E. destruct (elf_plan elf) as [[[[e segs] exec]|]|]; [|done..].
  destruct (load_segments _ _ _ _) as [[[] m1]|]; [|done..]. destruct exec; [|done]. cbn [negb] in E. injection E as -> _ _. by exists segs.
Qed.
