(* ===== verification/MemLaws.v ===== *)
(** * What the memory manager promises to the kernel (frame.rs, paging.rs)

    [MemLaws] is the contract between frame.rs/paging.rs and their clients.
    Its ghost state says who owns what: [sp] the live user address spaces,
    [ks] the registered kernel stacks (base address to first frame), [loose]
    the frames a caller has allocated and not yet handed over.  Every law is a
    Hoare triple over that ownership; the frame allocator asserts on a frame it
    is given twice, so an operation can only be called by an owner.  The second
    half of the file proves the loader and the spawn path against it. *)

From S2P Require Import Prelude RustStd Frame Caps Kernel Sched TaskOps ElfSafety.

Definition frames_of (base n : Z) : gset Z :=
  list_to_set ((fun i => base + i * PAGE_SIZE) <$> seqZ 0 n).

Definition user_page (va : Z) : Prop := aligned va /\ 0 <= va < USER_STACK_TOP.

(** The user half of address space [c] translates alike in two memories. *)
Definition same_user {S} `{MemOps S} (c : Z) (m m' : S) : Prop :=
  forall va, user_page va -> translate m' c va = translate m c va.

Definition same_users {S} `{MemOps S} (sp : gset Z) (m m' : S) : Prop :=
  forall c, c ∈ sp -> same_user c m m'.

(** Where the kernel maps task stacks; slot 0 is the idle stack. *)
Definition kstack_va (va : Z) : Prop := exists slot, 1 <= slot < 4096 /\ va = kstack_slot_base slot.

Class MemLaws (S : Type) `{MemOps S} := {
  mem_ok : Z -> gset Z -> gmap Z Z -> gset Z -> S -> Prop;

  law_kernel kc sp ks l m :
    mem_ok kc sp ks l m -> kernel_space m = Some kc /\ kc ∉ sp;

  law_read kc sp ks l pa m : mem_ok kc sp ks l m -> is_byte (phys_read m pa);

  law_alloc kc sp ks l n m :
    mem_ok kc sp ks l m -> 0 < n <= 2 ^ 40 ->
    match mem_alloc n m with
    | (Some b, m') =>
        frames_of b n ## l /\ mem_ok kc sp ks (l ∪ frames_of b n) m' /\ same_users sp m m'
    | (None, m') => mem_ok kc sp ks l m' /\ same_users sp m m'
    end;

  law_free kc sp ks l b n m :
    mem_ok kc sp ks l m -> 0 < n -> frames_of b n ⊆ l ->
    exists m', mem_free b n m = Some m' /\
      mem_ok kc sp ks (l ∖ frames_of b n) m' /\ same_users sp m m';

  law_zero kc sp ks l b n m :
    mem_ok kc sp ks l m -> frames_of b n ⊆ l ->
    mem_ok kc sp ks l (phys_zero b (n * PAGE_SIZE) m) /\
    same_users sp m (phys_zero b (n * PAGE_SIZE) m);

  law_write kc sp ks l c va pa b m :
    mem_ok kc sp ks l m -> c ∈ sp -> 0 <= va < USER_STACK_TOP -> translate m c va = Some pa ->
    mem_ok kc sp ks l (phys_write pa b m) /\ same_users sp m (phys_write pa b m);

  law_map kc sp ks l c va pa fl m :
    mem_ok kc sp ks l m -> c ∈ sp -> user_page va -> pa ∈ l -> translate m c va = None ->
    match map_page_in c va pa fl m with
    | (true, m') =>
        mem_ok kc sp ks (l ∖ {[pa]}) m' /\ translate m' c va = Some pa /\
        forall va', user_page va' -> va' <> va -> translate m' c va' = translate m c va'
    | (false, m') => mem_ok kc sp ks l m' /\ same_user c m m'
    end;

  law_remap kc sp ks l c va pa fl m :
    mem_ok kc sp ks l m -> c ∈ sp -> user_page va -> translate m c va = Some pa ->
    mem_ok kc sp ks l (snd (map_page_in c va pa fl m)) /\
    same_user c m (snd (map_page_in c va pa fl m));

  law_unmap kc sp ks l c va pa m :
    mem_ok kc sp ks l m -> c ∈ sp -> user_page va -> translate m c va = Some pa ->
    let m' := unmap_page_in c va m in
    mem_ok kc sp ks (l ∪ {[pa]}) m' /\ translate m' c va = None /\
    forall va', user_page va' -> va' <> va -> translate m' c va' = translate m c va';

  law_new kc sp ks l active m :
    mem_ok kc sp ks l m -> active ∈ sp \/ active = kc ->
    exists r m', new_address_space active m = Some (r, m') /\
      match r with
      | Some c => c ∉ sp /\ mem_ok kc ({[c]} ∪ sp) ks l m' /\
                  forall va, user_page va -> translate m' c va = None
      | None => mem_ok kc sp ks l m'
      end;

  law_destroy kc sp ks l c m :
    mem_ok kc sp ks l m -> c ∈ sp ->
    exists m', destroy_address_space c m = Some m' /\ mem_ok kc (sp ∖ {[c]}) ks l m';

  law_register kc sp ks l va b m :
    mem_ok kc sp ks l m -> frames_of b KSTACK_PAGES ⊆ l -> kstack_va va -> ks !! va = None ->
    match register_kstack va b KSTACK_PAGES m with
    | (true, m') => mem_ok kc sp (<[va := b]> ks) (l ∖ frames_of b KSTACK_PAGES) m'
    | (false, m') => mem_ok kc sp ks l m'
    end;

  law_unregister kc sp ks l va b m :
    mem_ok kc sp ks l m -> ks !! va = Some b ->
    mem_ok kc sp (delete va ks) (l ∪ frames_of b KSTACK_PAGES)
      (unregister_kstack va KSTACK_PAGES m);
}.

Lemma elem_of_frames_of b n x :
  x ∈ frames_of b n <-> exists i, 0 <= i < n /\ x = b + i * PAGE_SIZE.
Proof.
  unfold frames_of. rewrite elem_of_list_to_set, list_elem_of_fmap.
  setoid_rewrite elem_of_seqZ. split; intros (i & H); exists i; [naive_solver lia|].
  destruct H as [? ->]. split; [done|lia].
Qed.

Lemma frames_of_one b : frames_of b 1 = {[b]}.
Proof.
  apply set_eq. intros x. rewrite elem_of_frames_of, elem_of_singleton. split.
  - intros (i & ? & ->). replace i with 0 by lia. lia.
  - intros ->. exists 0. lia.
Qed.

Lemma pages_between_spec lo hi va :
  aligned lo -> aligned hi ->
  va ∈ pages_between lo hi <-> aligned va /\ lo <= va < hi.
Proof.
  unfold pages_between, aligned, PAGE_SIZE. intros Hlo Hhi.
  rewrite list_elem_of_fmap. setoid_rewrite elem_of_seqZ. split.
  - intros (i & -> & Hi). split; [by rewrite Z.mod_add|].
    assert (i <= (hi - lo - 1) / 4096).
    { replace (hi - lo + 4096 - 1) with (hi - lo - 1 + 1 * 4096) in Hi by lia.
      rewrite Z.div_add in Hi by lia. lia. }
    pose proof (Z.mul_div_le (hi - lo - 1) 4096). lia.
  - intros [Ha Hr]. exists ((va - lo) / 4096).
    assert (Hd : (va - lo) mod 4096 = 0).
    { rewrite Zminus_mod, Ha, Hlo. done. }
    pose proof (Z.div_mod (va - lo) 4096). split; [lia|]. split; [apply Z.div_pos; lia|].
    simpl. apply Z.lt_le_trans with ((hi - lo) / 4096 + 0).
    + rewrite Z.add_0_r. apply Z.div_lt_upper_bound; [lia|].
      assert (Hd' : (hi - lo) mod 4096 = 0) by (rewrite Zminus_mod, Hhi, Hlo; done).
      pose proof (Z.div_mod (hi - lo) 4096). lia.
    + rewrite Z.add_0_r. apply Z.div_le_mono; lia.
Qed.

Lemma NoDup_pages_between lo hi : NoDup (pages_between lo hi).
Proof.
  unfold pages_between. apply NoDup_fmap_2; [intros i j H; unfold PAGE_SIZE in H; lia|].
  apply NoDup_seqZ.
Qed.

#[global] Instance same_user_preorder {S} `{MemOps S} c : PreOrder (same_user (S:=S) c).
Proof.
  split; [by intros m va|]. intros m1 m2 m3 H1 H2 va Hva. by rewrite H2, H1.
Qed.

(** ** The loader against the contract *)

Section loader.
  Context {S : Type} `{ML : MemLaws S}.
  Context (kc : Z) (sp : gset Z) (ks : gmap Z Z) (c : Z) (Hc : c ∈ sp).

  (** Apart from the pages of [P], the user half of [c] is unchanged. *)
Definition same_but (P : Z -> Prop) (m m' : S) : Prop :=
    forall va, user_page va -> ~ P va -> translate m' c va = translate m c va.

Lemma same_user_but P m m' : same_user c m m' -> same_but P m m'.
  Proof. intros Hs va Hva _. by apply Hs. Qed.

Lemma same_but_trans P Q m1 m2 m3 :
    same_but P m1 m2 -> same_but Q m2 m3 -> same_but (fun va => P va \/ Q va) m1 m3.
  Proof. intros H1 H2 va Hva Hn. rewrite H2, H1 by tauto. done. Qed.

Lemma map_segment_ok pages : forall l m,
    mem_ok kc sp ks l m -> NoDup pages -> Forall user_page pages ->
    (forall va, va ∈ pages -> translate m c va = None) ->
    exists ok m', map_segment c pages m = Some (ok, m') /\ mem_ok kc sp ks l m' /\
      same_but (.∈ pages) m m'.
  Proof.
    induction pages as [|va pages IH]; intros l m Hm Hnd Hup Hnone; simpl.
    { exists true, m. split; [done|]. split; [done|]. by intros va. }
    apply NoDup_cons in Hnd as [Hva Hnd]. apply Forall_cons in Hup as [Huva Hup].
    pose proof (law_alloc kc sp ks l 1 m Hm ltac:(lia)) as Ha.
    destruct (mem_alloc 1 m) as [[fr|] m1].
    2:{ destruct Ha as [Ha Hs]. exists false, m1. split; [done|]. split; [done|].
        by apply same_user_but, Hs. }
    rewrite frames_of_one in Ha. destruct Ha as (Hdis & Hm1 & Hs1).
    destruct (law_zero kc sp ks _ fr 1 m1 Hm1) as [Hm2 Hs2].
    { rewrite frames_of_one. set_solver. }
    replace (phys_zero fr 4096 m1) with (phys_zero fr (1 * PAGE_SIZE) m1) by done.
    remember (phys_zero fr (1 * PAGE_SIZE) m1) as m2 eqn:E2. clear E2.
    assert (Hs12 : same_user c m m2) by (etrans; [by apply Hs1|by apply Hs2]).
    pose proof (law_map kc sp ks _ c va fr rw_flags m2 Hm2 Hc Huva ltac:(set_solver)) as Hmap.
    rewrite (Hs12 va Huva), (Hnone va) in Hmap by apply list_elem_of_here.
    specialize (Hmap eq_refl).
    destruct (map_page_in c va fr rw_flags m2) as [[] m3].
    - destruct Hmap as (Hm3 & Hva3 & Hs3).
      replace ((l ∪ {[fr]}) ∖ {[fr]}) with l in Hm3 by set_solver.
      destruct (IH l m3 Hm3 Hnd Hup) as (ok & m4 & -> & Hm4 & Hs4).
      { intros va' Hin. assert (va' <> va) by congruence.
        assert (user_page va') by (rewrite Forall_forall in Hup; auto).
        rewrite Hs3, Hs12 by done. apply Hnone. by apply list_elem_of_further. }
      exists ok, m4. split; [done|]. split; [done|].
      intros va' Hu Hn. apply not_elem_of_cons in Hn as [Hne Hn].
      rewrite Hs4, Hs3, Hs12 by done. done.
    - destruct Hmap as (Hm3 & Hs3).
      destruct (law_free kc sp ks _ fr 1 m3 Hm3 ltac:(lia)) as (m4 & -> & Hm4 & Hs4).
      { rewrite frames_of_one. set_solver. }
      rewrite frames_of_one in Hm4. replace ((l ∪ {[fr]}) ∖ {[fr]}) with l in Hm4 by set_solver.
      exists false, m4. split; [done|]. split; [done|]. apply same_user_but.
      etrans; [exact Hs12|]. etrans; [exact Hs3|]. by apply Hs4.
  Qed.

Lemma copy_bytes_ok bs : forall va l m,
    mem_ok kc sp ks l m -> 0 <= va -> va + Z.of_nat (length bs) <= USER_STACK_TOP ->
    mem_ok kc sp ks l (snd (copy_bytes c va bs m)) /\ same_user c m (snd (copy_bytes c va bs m)).
  Proof.
    induction bs as [|b bs IH]; intros va l m Hm Hva Hlen; simpl in *; [by split|].
    destruct (translate m c va) as [pa|] eqn:E; [|by split].
    destruct (law_write kc sp ks l c va pa b m Hm Hc) as [Hm1 Hs1]; [lia|done|].
    destruct (IH (va + 1) l _ Hm1) as [Hm2 Hs2]; [lia|lia|].
    split; [done|]. etrans; [by apply Hs1|exact Hs2].
  Qed.

Lemma protect_segment_ok fl pages : forall l m,
    mem_ok kc sp ks l m -> Forall user_page pages ->
    mem_ok kc sp ks l (snd (protect_segment c fl pages m)) /\
    same_user c m (snd (protect_segment c fl pages m)).
  Proof.
    induction pages as [|va pages IH]; intros l m Hm Hup; simpl; [by split|].
    apply Forall_cons in Hup as [Huva Hup].
    destruct (translate m c va) as [pa|] eqn:E; [|by split].
    pose proof (law_remap kc sp ks l c va pa fl m Hm Hc Huva E) as [Hm1 Hs1].
    destruct (map_page_in c va pa fl m) as [[] m1]; simpl in *; [|by split].
    destruct (IH l m1 Hm1 Hup) as [Hm2 Hs2]. split; [done|]. by etrans.
  Qed.

Definition seg_pages (s : LoadSegment) : list Z := pages_between (ls_page_start s) (ls_page_end s).

Lemma seg_pages_spec elf s va :
    seg_ok elf s -> va ∈ seg_pages s <-> aligned va /\ ls_page_start s <= va < ls_page_end s.
  Proof. intros Hs. destruct (so_aligned _ _ Hs). by apply pages_between_spec. Qed.

Lemma seg_pages_user elf s : seg_ok elf s -> Forall user_page (seg_pages s).
  Proof.
    intros Hs. apply Forall_forall. intros va Hva. apply (seg_pages_spec elf) in Hva as [Ha Hr]; [|done].
    destruct Hs as [_ Hlow Hhigh _ _ _ _]. unfold user_page, USER_LOAD_LIMIT, USER_STACK_BYTES, PAGE_SIZE in *.
    split; [done|lia].
  Qed.

Lemma load_segment_ok elf s l m :
    image_ok elf -> seg_ok elf s -> mem_ok kc sp ks l m ->
    (forall va, va ∈ seg_pages s -> translate m c va = None) ->
    exists ok m', load_segment c elf s m = Some (ok, m') /\ mem_ok kc sp ks l m' /\
      same_but (.∈ seg_pages s) m m'.
  Proof.
    intros [_ Hlen] Hs Hm Hnone. unfold load_segment. fold (seg_pages s).
    pose proof (seg_pages_user _ _ Hs) as Hup.
    destruct (map_segment_ok (seg_pages s) l m) as (ok & m1 & -> & Hm1 & Hs1);
      [done | apply NoDup_pages_between | done | done | ].
    destruct ok; simpl; [|by exists false, m1].
    destruct (so_file _ _ Hs) as (Hoff & Hfsz & Hfile).
    rewrite (proj2 (Z.ltb_ge _ _)) by lia.
    set (bs := slice (Z.to_nat (ls_offset s)) (Z.to_nat (ls_filesz s)) elf).
    assert (Hbs : Z.of_nat (length bs) = ls_filesz s).
    { unfold bs. rewrite length_slice by lia. lia. }
    destruct (copy_bytes_ok bs (ls_vaddr s) l m1 Hm1) as [Hm2 Hs2].
    { destruct Hs as [_ Hlow _ _ _ _ _]. unfold PAGE_SIZE in Hlow. lia. }
    { destruct Hs as [_ _ Hhi Hmem _ _ _]. rewrite Hbs.
      unfold USER_LOAD_LIMIT, USER_STACK_BYTES in Hhi. lia. }
    destruct (copy_bytes c (ls_vaddr s) bs m1) as [ok m2]. simpl in *.
    assert (Hs12 : same_but (.∈ seg_pages s) m m2).
    { intros va Hva Hn. rewrite Hs2, Hs1 by done. done. }
    destruct ok; simpl; [|by exists false, m2].
    destruct (protect_segment_ok (final_flags (ls_flags s)) (seg_pages s) l m2 Hm2 Hup) as [Hm3 Hs3].
    destruct (protect_segment c (final_flags (ls_flags s)) (seg_pages s) m2) as [ok m3].
    exists ok, m3. split; [done|]. split; [done|].
    intros va Hva Hn. rewrite Hs3, Hs12 by done. done.
  Qed.

  (** Pages of a plan are the pages of its segments. *)
Definition in_plan (ss : list LoadSegment) (va : Z) : Prop := exists s, s ∈ ss /\ va ∈ seg_pages s.

Lemma load_segments_ok elf ss : forall l m,
    image_ok elf -> Forall (seg_ok elf) ss -> segs_disjoint ss -> mem_ok kc sp ks l m ->
    (forall va, in_plan ss va -> translate m c va = None) ->
    exists ok m', load_segments c elf ss m = Some (ok, m') /\ mem_ok kc sp ks l m' /\
      same_but (in_plan ss) m m'.
  Proof.
    induction ss as [|s ss IH]; intros l m Him Hok Hdis Hm Hnone; cbn [load_segments].
    { exists true, m. split; [done|]. split; [done|]. by intros va. }
    apply Forall_cons in Hok as [Hs Hok].
    destruct (load_segment_ok elf s l m Him Hs Hm) as (ok & m1 & -> & Hm1 & Hs1).
    { intros va Hva. apply Hnone. exists s. split; [apply list_elem_of_here|done]. }
    assert (Hweak : same_but (in_plan (s :: ss)) m m1).
    { intros va Hva Hn. apply Hs1; [done|]. intros Hin. apply Hn. exists s.
      split; [apply list_elem_of_here|done]. }
    destruct ok; [|by exists false, m1].
    destruct (IH l m1 Him Hok) as (ok & m2 & -> & Hm2 & Hs2); [|done| |].
    - intros i j a b Hij Ha Hb. apply (Hdis (Datatypes.S i) (Datatypes.S j)); [lia|done|done].
    - intros va (s' & Hin & Hva'). assert (Hs' : seg_ok elf s') by (rewrite Forall_forall in Hok; auto).
      rewrite Hs1.
      + apply Hnone. exists s'. split; [by apply list_elem_of_further|done].
      + pose proof (seg_pages_user _ _ Hs') as Hu. rewrite Forall_forall in Hu. auto.
      + intros Hva. apply (seg_pages_spec elf) in Hva as [_ Hr]; [|done].
        apply (seg_pages_spec elf) in Hva' as [_ Hr']; [|done].
        apply list_elem_of_lookup in Hin as [j Hj].
        destruct (Hdis 0%nat (Datatypes.S j) s s'); [lia|done|done|lia|lia].
    - exists ok, m2. split; [done|]. split; [done|]. intros va Hva Hn. rewrite Hs2, Hweak; [done|done|done|done|].
      intros (s' & Hin & Hp). apply Hn. exists s'. split; [by apply list_elem_of_further|done].
  Qed.

Lemma load_elf_ok elf l m :
    image_ok elf -> mem_ok kc sp ks l m -> (forall va, user_page va -> translate m c va = None) ->
    exists r m', load_elf c elf m = Some (r, m') /\ mem_ok kc sp ks l m' /\
      forall va, user_page va -> USER_LOAD_LIMIT <= va -> translate m' c va = None.
  Proof.
    intros Him Hm Hnone. unfold load_elf.
    destruct (elf_plan_spec elf Him) as (r & -> & Hr).
    destruct r as [[[entry ss] exec]|]; [|exists None, m; auto].
    destruct (Hr _ _ _ eq_refl) as [Hok Hdis _].
    assert (Hplan : forall va, in_plan ss va -> user_page va /\ va < USER_LOAD_LIMIT).
    { intros va (s & Hin & Hva). rewrite Forall_forall in Hok. specialize (Hok _ Hin).
      split. { pose proof (seg_pages_user _ _ Hok) as Hu. rewrite Forall_forall in Hu. auto. }
      apply (seg_pages_spec elf) in Hva as [_ Hr']; [|done]. pose proof (so_high _ _ Hok). lia. }
    destruct (load_segments_ok elf ss l m Him Hok Hdis Hm) as (ok & m1 & -> & Hm1 & Hs1).
    { intros va Hva. apply Hnone. by apply Hplan. }
    assert (Hhigh : forall va, user_page va -> USER_LOAD_LIMIT <= va -> translate m1 c va = None).
    { intros va Hva Hge. rewrite Hs1; [by apply Hnone|done|]. intros [_ ?]%Hplan. lia. }
    repeat split_match; eauto.
  Qed.

  (** ** The user stack *)

Lemma stack_page_user i : 0 <= i < STACK_PAGES -> user_page (USER_LOAD_LIMIT + i * 4096).
  Proof.
    unfold STACK_PAGES, user_page, aligned, USER_LOAD_LIMIT, USER_STACK_TOP, USER_STACK_BYTES, PAGE_SIZE.
    intros. change (64 * 1024 / 4096) with 16 in *. split; [|lia].
    change (0x7f000000 - 64 * 1024) with (520176 * 4096).
    rewrite <- Z.mul_add_distr_r. apply Z_mod_mult.
  Qed.

  (** Frames [i..n) of a contiguous allocation. *)
Definition frames_from (b i n : Z) : gset Z := frames_of (b + i * PAGE_SIZE) (n - i).

Lemma frames_from_cons b i n :
    i < n -> frames_from b i n = {[b + i * PAGE_SIZE]} ∪ frames_from b (i + 1) n.
  Proof.
    intros. apply set_eq. intros x. unfold frames_from.
    rewrite elem_of_union, elem_of_singleton, !elem_of_frames_of. unfold PAGE_SIZE. split.
    - intros (j & Hj & ->). destruct (decide (j = 0)) as [->|]; [left; lia|].
      right. exists (j - 1). lia.
    - intros [->|(j & Hj & ->)]; [exists 0; lia|]. exists (j + 1). lia.
  Qed.

Lemma frames_from_head b i n x : x ∈ frames_from b (i + 1) n -> x <> b + i * PAGE_SIZE.
  Proof. unfold frames_from. rewrite elem_of_frames_of. unfold PAGE_SIZE. intros (j & Hj & ->). lia. Qed.

  (** Mapping pages [i..n) of the stack consumes their frames; on a failure at
      [j] the frames from [j] on are still loose and [i..j) are mapped. *)
Lemma map_stack_ok base n : forall i l m,
    0 <= i -> i + Z.of_nat n = STACK_PAGES -> frames_from base i STACK_PAGES ## l ->
    mem_ok kc sp ks (l ∪ frames_from base i STACK_PAGES) m ->
    (forall j, i <= j < STACK_PAGES -> translate m c (USER_LOAD_LIMIT + j * 4096) = None) ->
    match map_stack c USER_LOAD_LIMIT base n i m with
    | (None, m') => mem_ok kc sp ks l m'
    | (Some j, m') =>
        i <= j < STACK_PAGES /\ mem_ok kc sp ks (l ∪ frames_from base j STACK_PAGES) m' /\
        (forall p, i <= p < j ->
           translate m' c (USER_LOAD_LIMIT + p * 4096) = Some (base + p * PAGE_SIZE)) /\
        (forall va, user_page va -> (forall p, i <= p < STACK_PAGES -> va <> USER_LOAD_LIMIT + p * 4096) ->
           translate m' c va = translate m c va)
    end.
  Proof.
    induction n as [|n IH]; intros i l m Hi Hn Hdis Hm Hnone; cbn [map_stack].
    { replace (l ∪ frames_from base i STACK_PAGES) with l in Hm; [done|].
      apply set_eq. intros x. rewrite elem_of_union. unfold frames_from. rewrite elem_of_frames_of.
      split; [auto|]. intros [?|(j & ? & _)]; [done|lia]. }
    rewrite frames_from_cons in Hm, Hdis by lia.
    change (base + i * 4096) with (base + i * PAGE_SIZE).
    pose proof (law_map kc sp ks _ c (USER_LOAD_LIMIT + i * 4096) (base + i * PAGE_SIZE) rw_flags m
      Hm Hc (stack_page_user i ltac:(lia)) ltac:(set_solver) (Hnone i ltac:(lia))) as Hmap.
    destruct (map_page_in _ _ _ _ m) as [[] m1].
    - destruct Hmap as (Hm1 & Hva & Hs1).
      assert (Heq : (l ∪ ({[base + i * PAGE_SIZE]} ∪ frames_from base (i + 1) STACK_PAGES))
                 ∖ {[base + i * PAGE_SIZE]} = l ∪ frames_from base (i + 1) STACK_PAGES).
      { apply set_eq. intros x. pose proof (frames_from_head base i STACK_PAGES x). set_solver. }
      rewrite Heq in Hm1. clear Heq.
      specialize (IH (i + 1) l m1 ltac:(lia) ltac:(lia) ltac:(set_solver) Hm1).
      assert (Hnone1 : forall j, i + 1 <= j < STACK_PAGES -> translate m1 c (USER_LOAD_LIMIT + j * 4096) = None).
      { intros j Hj. rewrite Hs1; [apply Hnone; lia|apply stack_page_user; lia|lia]. }
      specialize (IH Hnone1).
      destruct (map_stack _ _ _ n (i + 1) m1) as [[j|] m2]; [|done].
      destruct IH as (Hj & Hm2 & Hmapped & Hother). repeat split; try done; try lia.
      + intros p Hp. destruct (decide (p = i)) as [->|]; [|apply Hmapped; lia].
        rewrite Hother; [done|apply stack_page_user; lia|intros p ?; lia].
      + intros va Hva' Hne. rewrite Hother; [|done|intros p ?; apply Hne; lia].
        apply Hs1; [done|]. apply Hne. lia.
    - destruct Hmap as (Hm1 & Hs1). rewrite <- frames_from_cons in Hm1 by lia.
      repeat split; try done; try lia. intros va Hva _. by apply Hs1.
  Qed.

Lemma unmap_stack_ok base n : forall i l m,
    0 <= i -> i + Z.of_nat n <= STACK_PAGES -> mem_ok kc sp ks l m ->
    (forall p, i <= p < i + Z.of_nat n ->
       translate m c (USER_LOAD_LIMIT + p * 4096) = Some (base + p * PAGE_SIZE)) ->
    mem_ok kc sp ks (l ∪ frames_from base i (i + Z.of_nat n)) (unmap_stack c USER_LOAD_LIMIT n i m).
  Proof.
    induction n as [|n IH]; intros i l m Hi Hn Hm Hmapped; cbn [unmap_stack].
    { replace (l ∪ frames_from base i (i + Z.of_nat 0)) with l; [done|].
      apply set_eq. intros x. rewrite elem_of_union. unfold frames_from. rewrite elem_of_frames_of.
      split; [auto|]. intros [?|(j & ? & _)]; [done|lia]. }
    destruct (law_unmap kc sp ks l c (USER_LOAD_LIMIT + i * 4096) (base + i * PAGE_SIZE) m Hm Hc
      (stack_page_user i ltac:(lia)) (Hmapped i ltac:(lia))) as (Hm1 & _ & Hs1).
    rewrite frames_from_cons by lia. rewrite union_assoc_L.
    replace (i + Z.of_nat (Datatypes.S n)) with (i + 1 + Z.of_nat n) by lia.
    apply IH; [lia|lia|done|].
    intros p Hp. rewrite Hs1; [apply Hmapped; lia|apply stack_page_user; lia|lia].
  Qed.

Lemma frames_from_split b i n :
    0 <= i <= n -> frames_from b i n ∪ frames_from b 0 i = frames_of b n.
  Proof.
    intros. apply set_eq. intros x. unfold frames_from. rewrite elem_of_union, !elem_of_frames_of.
    unfold PAGE_SIZE. split.
    - intros [(j & ? & ->)|(j & ? & ->)]; [exists (i + j)|exists j]; lia.
    - intros (j & ? & ->). destruct (decide (j < i)); [right; exists j; lia|].
      left. exists (j - i). lia.
  Qed.

Lemma frames_from_all b n : frames_from b 0 n = frames_of b n.
  Proof. unfold frames_from. f_equal; lia. Qed.
End loader.

(** ** Address space, image and stack of a new task *)

Section spawn_space.
  Context {S : Type} `{ML : MemLaws S}.

Lemma map_user_stack_ok kc sp ks c base m :
    c ∈ sp -> mem_ok kc sp ks (frames_of base STACK_PAGES) m ->
    (forall va, user_page va -> USER_LOAD_LIMIT <= va -> translate m c va = None) ->
    match map_stack c USER_LOAD_LIMIT base (Z.to_nat STACK_PAGES) 0 m with
    | (None, m') => mem_ok kc sp ks ∅ m'
    | (Some i, m') =>
        exists m2, mem_free base STACK_PAGES (unmap_stack c USER_LOAD_LIMIT (Z.to_nat i) 0 m') = Some m2 /\
          mem_ok kc sp ks ∅ m2
    end.
  Proof.
    intros Hc Hm Hnone.
    pose proof (map_stack_ok kc sp ks c Hc base (Z.to_nat STACK_PAGES) 0 ∅ m ltac:(lia) eq_refl
      ltac:(set_solver)) as Hst.
    rewrite frames_from_all, union_empty_l_L in Hst. specialize (Hst Hm).
    assert (Hn : forall j, 0 <= j < STACK_PAGES -> translate m c (USER_LOAD_LIMIT + j * 4096) = None).
    { intros j Hj. apply Hnone; [by apply stack_page_user|lia]. }
    specialize (Hst Hn). destruct (map_stack _ _ _ _ _ _) as [[i|] m1]; [|exact Hst].
    destruct Hst as (Hi & Hm1 & Hmapped & _). rewrite union_empty_l_L in Hm1.
    pose proof (unmap_stack_ok kc sp ks c Hc base (Z.to_nat i) 0 _ _ ltac:(lia) ltac:(lia) Hm1) as Hu.
    rewrite Z2Nat.id, Z.add_0_l in Hu by lia. specialize (Hu Hmapped).
    rewrite frames_from_split in Hu by lia.
    destruct (law_free kc sp ks _ base STACK_PAGES _ Hu eq_refl ltac:(done)) as (m2 & -> & Hm2 & _).
    exists m2. split; [done|]. by rewrite difference_diag_L in Hm2.
  Qed.

Lemma spawn_space_ok kc sp ks elf active m :
    mem_ok kc sp ks ∅ m -> active ∈ sp \/ active = kc -> image_ok elf ->
    exists r m', spawn_space elf active m = Some (r, m') /\
      match r with
      | Some (c, _, _) => c ∉ sp /\ mem_ok kc ({[c]} ∪ sp) ks ∅ m'
      | None => mem_ok kc sp ks ∅ m'
      end.
  Proof.
    intros Hm Hact Him. unfold spawn_space.
    destruct (law_new kc sp ks ∅ active m Hm Hact) as (r & m1 & -> & Hr).
    destruct r as [c|]; [|by exists None, m1]. destruct Hr as (Hfresh & Hm1 & Hnone).
    assert (Hc : c ∈ ({[c]} ∪ sp : gset Z)) by set_solver.
    assert (Hback : ({[c]} ∪ sp) ∖ {[c]} = sp) by set_solver.
    destruct (load_elf_ok kc _ ks c Hc elf ∅ m1 Him Hm1 Hnone) as (r & m2 & -> & Hm2 & Hhigh).
    destruct r as [[entry pages]|].
    2:{ destruct (law_destroy kc _ ks ∅ c m2 Hm2 Hc) as (m3 & -> & Hm3).
        exists None, m3. by rewrite Hback in Hm3. }
    pose proof (law_alloc kc _ ks ∅ STACK_PAGES m2 Hm2 ltac:(by split)) as Ha.
    destruct (mem_alloc STACK_PAGES m2) as [[base|] m3].
    2:{ destruct Ha as [Hm3 _]. destruct (law_destroy kc _ ks ∅ c m3 Hm3 Hc) as (m4 & -> & Hm4).
        exists None, m4. by rewrite Hback in Hm4. }
    destruct Ha as (_ & Hm3 & Hs3). rewrite union_empty_l_L in Hm3.
    destruct (law_zero kc _ ks _ base STACK_PAGES m3 Hm3 ltac:(done)) as [Hm4 Hs4].
    change (STACK_PAGES * PAGE_SIZE) with USER_STACK_BYTES in *.
    change (USER_STACK_TOP - USER_STACK_BYTES) with USER_LOAD_LIMIT.
    pose proof (map_user_stack_ok kc _ ks c base _ Hc Hm4) as Hst.
    assert (Hh4 : forall va, user_page va -> USER_LOAD_LIMIT <= va ->
              translate (phys_zero base USER_STACK_BYTES m3) c va = None).
    { intros va Hva Hge. rewrite (Hs4 c Hc va Hva), (Hs3 c Hc va Hva). by apply Hhigh. }
    specialize (Hst Hh4).
    destruct (map_stack _ _ _ _ _ _) as [[i|] m5].
    - destruct Hst as (m6 & -> & Hm6).
      destruct (law_destroy kc _ ks ∅ c m6 Hm6 Hc) as (m7 & -> & Hm7).
      exists None, m7. by rewrite Hback in Hm7.
    - by exists (Some (c, entry, pages + STACK_PAGES)), m5.
  Qed.

Lemma kstack_slot_ok kc sp ks slot m :
    mem_ok kc sp ks ∅ m -> 1 <= slot -> ks !! kstack_slot_base slot = None ->
    exists r m', kstack_slot slot m = Some (r, m') /\
      match r with
      | Some (top, b) => slot < 4096 /\ top = kstack_slot_top slot /\
                         mem_ok kc sp (<[kstack_slot_base slot := b]> ks) ∅ m'
      | None => mem_ok kc sp ks ∅ m'
      end.
  Proof.
    intros Hm Hslot Hks. unfold kstack_slot. destruct (Z.leb_spec 4096 slot); [by exists None, m|].
    assert (Hva : kstack_va (kstack_slot_base slot)) by (exists slot; lia).
    pose proof (law_alloc kc sp ks ∅ KSTACK_PAGES m Hm ltac:(by split)) as Ha.
    destruct (mem_alloc KSTACK_PAGES m) as [[b|] m1]; [|exists None, m1; tauto].
    destruct Ha as (_ & Hm1 & _). rewrite union_empty_l_L in Hm1.
    pose proof (law_register kc sp ks _ (kstack_slot_base slot) b m1 Hm1 ltac:(done) Hva Hks) as Hr.
    destruct (register_kstack _ _ _ m1) as [[] m2].
    - rewrite difference_diag_L in Hr. by exists (Some (kstack_slot_top slot, b)), m2.
    - destruct (law_free kc sp ks _ b KSTACK_PAGES m2 Hr eq_refl ltac:(done)) as (m3 & -> & Hm3 & _).
      rewrite difference_diag_L in Hm3. by exists None, m3.
  Qed.
End spawn_space.
