(* ===== verification/KernelInv.v ===== *)
(** * The kernel invariant

    What holds of the kernel's state whenever no trap is being handled, in
    four parts: the task table ([ktasks]), the endpoints ([kipc]), the memory
    each task owns ([kmem]), the CPU registers ([kcpu]).  The lemmas are the
    primitive changes the handlers are made of; [good] is what a handler must
    deliver. *)

From S2P Require Import Prelude RustStd Frame Caps Kernel Sched TaskOps Input ElfSafety MemLaws.

(** ** The four parts *)

Section inv.
  Context {S D : Type} `{ML : MemLaws S}.
  Implicit Types k : Kernel S D.

Definition state_of k (x : Z) : option TaskState := t_state <$> find_task x k.

Definition alive (o : option TaskState) : Prop := exists s, o = Some s /\ is_zombie s = false.

Record task_ok k (t : Task) : Prop := {
  to_rsp : t_saved_rsp t = t_kstack_top t - TRAP_FRAME_BYTES;
  to_top : t_kstack_top t = t_kstack_base_va t + KSTACK_PAGES * 4096;
  to_frame : is_Some (FRAMES k !! t_saved_rsp t);
  to_caps_len : length (t_caps t) = CAP_TABLE_SIZE;
  to_caps : forall e r, Some (Endpoint e r) ∈ t_caps t -> 0 <= e < Z.of_nat (length (ENDPOINTS k));
}.

  (** [run] is the task on the CPU.  Every ready task is queued, parents are
      alive, a zombie has a parent that can still wait for it, and a waiting
      parent has children, all of them alive.  [dying] is a task whose exit is
      being handled: it may still be an unparented or awaited zombie. *)
Record ktasks (dying run : option Z) k : Prop := {
  kt_nodup : NoDup (t_id <$> TASKS k);
  kt_ids : forall t, t ∈ TASKS k -> 1 <= t_id t < NEXT_TID k;
  kt_next : 1 <= NEXT_TID k <= NEXT_KSTACK_SLOT k;
  kt_task : forall t, t ∈ TASKS k -> task_ok k t;
  kt_run : forall x, state_of k x = Some Running <-> run = Some x;
  kt_ready : forall x, state_of k x = Some Ready -> x ∈ READY k;
  kt_parent : forall t p, t ∈ TASKS k -> t_parent t = Some p -> alive (state_of k p) /\ p < t_id t;
  kt_zombie : forall t, t ∈ TASKS k -> is_zombie (t_state t) = true ->
    dying = Some (t_id t) \/ t_parent t <> None;
  kt_wait : forall x, state_of k x = Some BlockedWait ->
    (forall t, t ∈ TASKS k -> t_parent t = Some x -> is_zombie (t_state t) = true ->
       dying = Some (t_id t)) /\
    exists t, t ∈ TASKS k /\ t_parent t = Some x;
}.

  (** Queued callers are exactly the tasks blocked sending; a call being
      served has a living server and a caller blocked on the reply. *)
Record kipc k : Prop := {
  ki_pending : forall i ep c msg, ENDPOINTS k !! i = Some ep -> (c, msg) ∈ pending_callers ep ->
    state_of k c = Some (BlockedSend (Z.of_nat i));
  ki_nodup : forall i ep, ENDPOINTS k !! i = Some ep -> NoDup (fst <$> pending_callers ep);
  ki_send : forall c e, state_of k c = Some (BlockedSend e) ->
    exists ep msg, 0 <= e /\ ENDPOINTS k !! Z.to_nat e = Some ep /\ (c, msg) ∈ pending_callers ep;
  ki_caller : forall i ep c, ENDPOINTS k !! i = Some ep -> active_caller ep = Some c ->
    state_of k c = Some (BlockedCall (Z.of_nat i));
  ki_server : forall i ep s, ENDPOINTS k !! i = Some ep -> active_server ep = Some s ->
    alive (state_of k s);
  ki_both : forall i ep, ENDPOINTS k !! i = Some ep ->
    is_Some (active_caller ep) <-> is_Some (active_server ep);
}.

  (** Live tasks and corpses awaiting teardown own disjoint address spaces and
      kernel stacks, and nothing else is held. *)
Definition resources k : list PendingReap := (snapshot <$> TASKS k) ++ REAP_QUEUE k.

Definition res_spaces (rs : list PendingReap) : gset Z := list_to_set (p_cr3 <$> rs).
Definition res_stacks (rs : list PendingReap) : gmap Z Z :=
    list_to_map ((fun p => (p_kstack_base_va p, p_kstack_frames_base p)) <$> rs).

Record owned (kc slots : Z) (rs : list PendingReap) (m : S) : Prop := {
  ow_cr3 : NoDup (p_cr3 <$> rs);
  ow_base : NoDup (p_kstack_base_va <$> rs);
  ow_slots : forall p, p ∈ rs ->
    exists s, 1 <= s < slots /\ p_kstack_base_va p = kstack_slot_base s;
  ow_ok : mem_ok kc (res_spaces rs) (res_stacks rs) ∅ m;
}.

Definition kmem (kc : Z) k : Prop := owned kc (NEXT_KSTACK_SLOT k) (resources k) (MEM k).

Definition kcpu (kc : Z) k : Prop :=
    match CURRENT k with
    | Some tid =>
        exists t, find_task tid k = Some t /\ CR3 k = t_cr3 t /\ TSS_RSP0 k = t_kstack_top t
    | None => CR3 k = kc /\ TSS_RSP0 k = idle_stack_top
    end.

Record kinv (kc : Z) k : Prop := {
  inv_tasks : ktasks None (CURRENT k) k;
  inv_ipc : kipc k;
  inv_mem : kmem kc k;
  inv_cpu : kcpu kc k;
}.

  (** The frame the trap stub returns through belongs to the task on the CPU,
      or to the idle loop. *)
Definition ctrl_ok (c : Control) k : Prop :=
    match CURRENT k with
    | Some tid => exists t, find_task tid k = Some t /\ c = Resume (t_saved_rsp t)
    | None => c = Idle \/ c = Resume (idle_stack_top - TRAP_FRAME_BYTES)
    end.

  (** A handler returns, and leaves the invariant and a valid continuation. *)
Definition good (kc : Z) (r : option (Control * Kernel S D)) : Prop :=
    exists c k', r = Some (c, k') /\ (c = Reboot \/ kinv kc k' /\ ctrl_ok c k').

  (** ** Lookup facts *)

Lemma state_of_find k x s : state_of k x = Some s <-> exists t, find_task x k = Some t /\ t_state t = s.
  Proof. unfold state_of. rewrite fmap_Some. naive_solver. Qed.

Lemma state_of_elem k t : NoDup (t_id <$> TASKS k) -> t ∈ TASKS k -> state_of k (t_id t) = Some (t_state t).
  Proof. intros. unfold state_of. by rewrite find_task_elem. Qed.

Lemma state_of_upd_state k tid s x :
    state_of (upd_task tid (with_state s) k) x =
      if x =? tid then (fun _ => s) <$> find_task tid k else state_of k x.
  Proof.
    unfold state_of. rewrite find_upd_task by auto with redoubt.
    destruct (x =? tid); [|done]. by destruct (find_task tid k).
  Qed.

Lemma elem_of_upd_task k tid f t' :
    t' ∈ TASKS (upd_task tid f k) -> t' ∈ TASKS k \/ exists t, find_task tid k = Some t /\ t' = f t.
  Proof.
    unfold upd_task, find_task. simpl. induction (TASKS k) as [|x l IH]; simpl; [set_solver|].
    destruct (has_id tid x) eqn:E; rewrite !elem_of_cons; intros [->|Hin]; auto.
    - right. eauto.
    - destruct (IH Hin) as [?|?]; auto.
  Qed.

  (** The task table after an update, seen through [∈]. *)
Lemma elem_of_upd_state k tid s t' :
    NoDup (t_id <$> TASKS k) ->
    t' ∈ TASKS (upd_task tid (with_state s) k) <->
    exists t, t ∈ TASKS k /\ t' = if t_id t =? tid then with_state s t else t.
  Proof.
    unfold upd_task. simpl. induction (TASKS k) as [|x l IH]; simpl; [set_solver|].
    intros [Hx Hnd]%NoDup_cons. unfold has_id at 1.
    destruct (Z.eqb_spec (t_id x) tid) as [Hid|Hid].
    - rewrite elem_of_cons. split.
      + intros [->|Hin]; [exists x; rewrite Hid, Z.eqb_refl; split; [apply list_elem_of_here|done]|].
        exists t'. split; [by apply list_elem_of_further|].
        destruct (Z.eqb_spec (t_id t') tid) as [Hid'|]; [|done].
        exfalso. apply Hx. rewrite Hid, <- Hid'. apply list_elem_of_fmap. eauto.
      + intros (t & Hin & ->). apply elem_of_cons in Hin as [->|Hin].
        * left. by rewrite Hid, Z.eqb_refl.
        * right. destruct (Z.eqb_spec (t_id t) tid) as [Hid'|]; [|done].
          exfalso. apply Hx. rewrite Hid, <- Hid'. apply list_elem_of_fmap. eauto.
    - rewrite elem_of_cons, IH by done. split.
      + intros [->|(t & Hin & ->)].
        * exists x. rewrite (proj2 (Z.eqb_neq _ _)) by done. split; [apply list_elem_of_here|done].
        * exists t. split; [by apply list_elem_of_further|done].
      + intros (t & Hin & ->). apply elem_of_cons in Hin as [->|Hin].
        * left. by rewrite (proj2 (Z.eqb_neq _ _)).
        * right. eauto.
  Qed.

  (** ** Changes that do not touch the table *)

  (** Only the queue grows and frames change; [k'] keeps everything the table
      invariant depends on. *)
Record table_env k k' : Prop := {
  te_tid : NEXT_TID k' = NEXT_TID k;
  te_slot : NEXT_KSTACK_SLOT k' = NEXT_KSTACK_SLOT k;
  te_eps : length (ENDPOINTS k') = length (ENDPOINTS k);
  te_frames : forall a, is_Some (FRAMES k !! a) -> is_Some (FRAMES k' !! a);
}.

Lemma state_of_ext k k' : TASKS k' = TASKS k -> forall x, state_of k' x = state_of k x.
  Proof. intros E x. unfold state_of, find_task. by rewrite E. Qed.

Lemma task_ok_env k k' t : table_env k k' -> task_ok k t -> task_ok k' t.
  Proof. intros [_ _ He Hf] [? ? ? ? ?]. split; auto. by rewrite He. Qed.

Lemma ktasks_ext dy run k k' :
    TASKS k' = TASKS k -> table_env k k' -> (forall x, x ∈ READY k -> x ∈ READY k') ->
    ktasks dy run k -> ktasks dy run k'.
  Proof.
    intros E Henv Hr [Hnd Hids Hn Ht Hrun Hready Hp Hz Hw].
    pose proof (state_of_ext k k' E) as Hst. pose proof Henv as [Etid Eslot _ _].
    split; rewrite ?E, ?Etid, ?Eslot; try done.
    - intros t Hin. eapply task_ok_env; eauto.
    - intros x. rewrite Hst. apply Hrun.
    - intros x. rewrite Hst. auto.
    - intros t p. rewrite Hst. apply Hp.
    - intros x. rewrite Hst. apply Hw.
  Qed.

Lemma kipc_ext k k' : TASKS k' = TASKS k -> ENDPOINTS k' = ENDPOINTS k -> kipc k -> kipc k'.
  Proof.
    intros E Ee [? ? ? ? ? ?]. pose proof (state_of_ext k k' E) as Hst.
    split; rewrite ?Ee; intros; rewrite ?Hst in *; eauto.
  Qed.

Lemma kmem_ext kc k k' :
    resources k' = resources k -> NEXT_KSTACK_SLOT k' = NEXT_KSTACK_SLOT k -> MEM k' = MEM k ->
    kmem kc k -> kmem kc k'.
  Proof. unfold kmem. by intros -> -> ->. Qed.

  (** Writing a frame through a live task's [saved_rsp]. *)
Definition frames_grow k k' : Prop :=
    exists fr, k' = set_FRAMES fr k /\ forall a, is_Some (FRAMES k !! a) -> is_Some (fr !! a).

Lemma write_frame_ok dy run k t f :
    ktasks dy run k -> t ∈ TASKS k ->
    exists k', write_frame (t_saved_rsp t) f k = Some k' /\ frames_grow k k'.
  Proof.
    intros Hk Hin. destruct (to_frame _ _ (kt_task _ _ _ Hk _ Hin)) as [fr Hfr].
    unfold write_frame. rewrite Hfr. eexists. split; [done|]. eexists. split; [done|].
    intros a Ha. destruct (decide (a = t_saved_rsp t)) as [->|].
    - rewrite lookup_insert_eq. eauto.
    - by rewrite lookup_insert_ne.
  Qed.

Lemma ktasks_frames dy run k k' : frames_grow k k' -> ktasks dy run k -> ktasks dy run k'.
  Proof. intros (fr & -> & Hfr). by apply ktasks_ext; [done|split|]. Qed.

Lemma kipc_frames k k' : frames_grow k k' -> kipc k -> kipc k'.
  Proof. intros (fr & -> & _). by apply kipc_ext. Qed.

Lemma kmem_frames kc k k' : frames_grow k k' -> kmem kc k -> kmem kc k'.
  Proof. intros (fr & -> & _). by apply kmem_ext. Qed.

Lemma kinv_frames kc k k' : frames_grow k k' -> kinv kc k -> kinv kc k'.
  Proof.
    intros Hg [Ht Hi Hm Hc]. split; [|by eapply kipc_frames|by eapply kmem_frames|].
    - destruct Hg as (fr & -> & Hfr). revert Ht. by apply ktasks_ext; [done|split|].
    - destruct Hg as (fr & -> & _). exact Hc.
  Qed.

  (** ** One task changes state *)

Lemma ktasks_set_state dy run run' k k' tid t s :
    ktasks dy run k -> find_task tid k = Some t ->
    TASKS k' = update_first (has_id tid) (with_state s) (TASKS k) -> table_env k k' ->
    (forall x, x <> tid -> state_of k x = Some Ready -> x ∈ READY k -> x ∈ READY k') ->
    is_zombie s = false -> is_zombie (t_state t) = false ->
    (forall x, (if x =? tid then s = Running else state_of k x = Some Running) <-> run' = Some x) ->
    (s = Ready -> tid ∈ READY k') ->
    (s = BlockedWait ->
      (forall c, c ∈ TASKS k -> t_parent c = Some tid -> is_zombie (t_state c) = false) /\
      exists c, c ∈ TASKS k /\ t_parent c = Some tid) ->
    ktasks dy run' k'.
  Proof.
    intros Hk Hfind E Henv Hrd Hzs Hzt Hrun' Hsr Hsw.
    set (k1 := upd_task tid (with_state s) k).
    assert (E1 : TASKS k1 = TASKS k') by (rewrite E; done).
    pose proof Hk as [Hnd Hids Hn Ht Hrun Hready Hp Hz Hw].
    assert (Hst : forall x, state_of k' x = if x =? tid then Some s else state_of k x).
    { intros x. rewrite (state_of_ext k1 k' (eq_sym E1)). unfold k1.
      rewrite state_of_upd_state, Hfind. done. }
    assert (Hel : forall t', t' ∈ TASKS k' <-> exists t0, t0 ∈ TASKS k /\
              t' = if t_id t0 =? tid then with_state s t0 else t0).
    { intros t'. rewrite <- E1. by apply elem_of_upd_state. }
    assert (Hsame : forall c, c ∈ TASKS k -> t_id c = tid -> c = t).
    { intros c Hc Hid. apply find_task_elem in Hc; [|done]. congruence. }
    assert (Hzz : forall c, c ∈ TASKS k ->
              is_zombie (t_state (if t_id c =? tid then with_state s c else c)) = is_zombie (t_state c)).
    { intros c Hc. destruct (Z.eqb_spec (t_id c) tid); [|done]. simpl. rewrite (Hsame c), Hzs; done. }
    split.
    - rewrite <- E1. unfold k1. rewrite ids_upd_task by auto with redoubt. done.
    - intros t' (t0 & Hin & ->)%Hel. rewrite (te_tid _ _ Henv). destruct (t_id t0 =? tid); simpl; auto.
    - rewrite (te_tid _ _ Henv), (te_slot _ _ Henv). done.
    - intros t' (t0 & Hin & ->)%Hel. apply Ht in Hin. apply (task_ok_env _ _ _ Henv) in Hin.
      destruct (t_id t0 =? tid); [|done]. by destruct Hin; split.
    - intros x. rewrite Hst, <- Hrun'. destruct (x =? tid); [naive_solver|done].
    - intros x. rewrite Hst. destruct (Z.eqb_spec x tid) as [->|Hne]; [naive_solver|auto].
    - intros t' p (t0 & Hin & ->)%Hel Hpar.
      assert (Hpar0 : t_parent t0 = Some p) by (destruct (t_id t0 =? tid); done).
      destruct (Hp _ _ Hin Hpar0) as [Hal Hlt].
      split; [|by destruct (t_id t0 =? tid)].
      rewrite Hst. destruct (Z.eqb_spec p tid); [by eexists|done].
    - intros t' (t0 & Hin & ->)%Hel. rewrite Hzz by done. intros Hzo.
      specialize (Hz _ Hin Hzo). by destruct (t_id t0 =? tid).
    - intros x. rewrite Hst. intros Hx.
      assert (Hx' : (forall c, c ∈ TASKS k -> t_parent c = Some x -> is_zombie (t_state c) = true ->
                       dy = Some (t_id c)) /\
                    exists c, c ∈ TASKS k /\ t_parent c = Some x).
      { destruct (Z.eqb_spec x tid) as [Hxt|Hxt]; [|auto]. rewrite Hxt.
        destruct Hsw as [Hsw ?]; [congruence|]. split; [|done].
        intros c Hc Hcp Hcz. rewrite Hsw in Hcz; done. }
      destruct Hx' as [Hkids (c & Hc & Hcp)]. split.
      + intros t' (t0 & Hin & ->)%Hel Hpar. rewrite Hzz by done. intros Hzo.
        rewrite (Hkids t0 Hin); [by destruct (t_id t0 =? tid)| |done].
        by destruct (t_id t0 =? tid).
      + eexists. split; [apply Hel; by exists c|]. by destruct (t_id c =? tid).
  Qed.

Lemma run_unchanged dy run k c t s :
    ktasks dy run k -> find_task c k = Some t -> t_state t <> Running -> s <> Running ->
    forall x, (if x =? c then s = Running else state_of k x = Some Running) <-> run = Some x.
  Proof.
    intros Ht Hf Hr Hs x. rewrite <- (kt_run _ _ _ Ht x). destruct (Z.eqb_spec x c) as [->|]; [|done].
    unfold state_of. rewrite Hf. simpl. naive_solver.
  Qed.

  (** The endpoint invariant only looks at who is blocked on IPC and who is
      alive. *)
Definition ipc_blocked (o : option TaskState) : bool :=
    match o with Some (BlockedSend _) | Some (BlockedCall _) => true | _ => false end.

Definition ipc_rel (o o' : option TaskState) : Prop :=
    o' = o \/ (ipc_blocked o = false /\ ipc_blocked o' = false /\ (alive o -> alive o')).

Lemma kipc_rel k k' :
    ENDPOINTS k' = ENDPOINTS k -> (forall x, ipc_rel (state_of k x) (state_of k' x)) ->
    kipc k -> kipc k'.
  Proof.
    intros Ee Hrel [Hpend Hnd Hsend Hcall Hserv Hboth].
    assert (Hkeep : forall x s, ipc_blocked (Some s) = true ->
              state_of k x = Some s <-> state_of k' x = Some s).
    { intros x s Hs. destruct (Hrel x) as [->|(H1 & H2 & _)]; [done|].
      split; intros E; rewrite E in *; congruence. }
    split; rewrite Ee; try done.
    - intros i ep c msg Hi Hin. apply Hkeep; [done|]. eauto.
    - intros c e Hs. apply Hkeep in Hs; [|done]. eauto.
    - intros i ep c Hi Hc. apply Hkeep; [done|]. eauto.
    - intros i ep x Hi Hs. destruct (Hrel x) as [->|(_ & _ & Hal)]; eauto.
  Qed.

Lemma kipc_set_state k tid t s :
    kipc k -> find_task tid k = Some t ->
    ipc_blocked (Some (t_state t)) = false -> ipc_blocked (Some s) = false ->
    is_zombie s = false ->
    kipc (upd_task tid (with_state s) k).
  Proof.
    intros Hk Hf Ht Hs Hz. revert Hk. apply kipc_rel; [done|]. intros x.
    rewrite state_of_upd_state, Hf. destruct (Z.eqb_spec x tid) as [->|]; [|by left].
    right. unfold state_of. rewrite Hf. simpl. split; [done|]. split; [done|]. by eexists.
  Qed.

Lemma resources_upd_state tid s k : resources (upd_task tid (with_state s) k) = resources k.
  Proof. unfold resources, upd_task. simpl. f_equal. by apply update_first_fmap. Qed.

Lemma kmem_set_state kc tid s k : kmem kc k -> kmem kc (upd_task tid (with_state s) k).
  Proof. by apply kmem_ext; [apply resources_upd_state|..]. Qed.

  (** Saving the frame pointer of a trap changes nothing: it is where the
      invariant says the frame of the task lies. *)
Lemma upd_task_park tid t fp s k :
    find_task tid k = Some t -> fp = t_saved_rsp t ->
    upd_task tid (fun t => with_state s (with_saved_rsp fp t)) k = upd_task tid (with_state s) k.
  Proof.
    unfold find_task, upd_task. intros Hf ->. f_equal. induction (TASKS k) as [|x l IH]; [done|].
    simpl in *. destruct (has_id tid x); [by simplify_eq|f_equal; auto].
  Qed.

Lemma upd_task_save tid t fp k :
    find_task tid k = Some t -> fp = t_saved_rsp t -> upd_task tid (with_saved_rsp fp) k = k.
  Proof.
    unfold find_task, upd_task. intros Hf ->.
    assert (E : update_first (has_id tid) (with_saved_rsp (t_saved_rsp t)) (TASKS k) = TASKS k).
    { induction (TASKS k) as [|x l IH]; [done|].
      simpl in *. destruct (has_id tid x); [|f_equal; auto]. simplify_eq. f_equal. by destruct t. }
    rewrite E. by destruct k.
  Qed.

  (** ** Handing over the CPU *)

Lemma is_ready_state k x :
    NoDup (t_id <$> TASKS k) -> is_ready (TASKS k) x = true <-> state_of k x = Some Ready.
  Proof.
    intros Hnd. unfold is_ready. rewrite existsb_exists, state_of_find. split.
    - intros (t & Hin%list_elem_of_In & [Hid Hs%bool_decide_eq_true]%andb_true_iff).
      apply Z.eqb_eq in Hid. subst x. exists t. split; [by apply find_task_elem|done].
    - intros (t & Hf & Hs). apply find_task_id in Hf as [Hid Hin]. exists t.
      rewrite <- list_elem_of_In. split; [done|]. rewrite Hid, Z.eqb_refl. by apply bool_decide_eq_true.
  Qed.

Lemma pick_loop_spec ts ex q : forall sk,
    match pick_loop ts ex q sk with
    | Some (tid, q') =>
        Some tid <> ex /\ is_ready ts tid = true /\ forall x, x ∈ q ++ sk -> x = tid \/ x ∈ q'
    | None => forall x, x ∈ q -> Some x = ex \/ is_ready ts x = false
    end.
  Proof.
    induction q as [|tid q IH]; intros sk; simpl; [set_solver|].
    destruct (negb _ && _) eqn:E.
    - apply andb_true_iff in E as [Hne Hr]. apply negb_true_iff, bool_decide_eq_false in Hne.
      split; [done|]. split; [done|]. set_solver.
    - specialize (IH (sk ++ [tid])). destruct (pick_loop ts ex q (sk ++ [tid])) as [[n q']|].
      + destruct IH as (? & ? & Hq). split; [done|]. split; [done|]. intros x Hx. apply Hq. set_solver.
      + intros x Hx. apply elem_of_cons in Hx as [->|Hx]; [|auto].
        apply andb_false_iff in E as [E|E]; [|auto]. left.
        by apply negb_false_iff, bool_decide_eq_true in E.
  Qed.

Lemma resume_ok kc k tid q :
    ktasks None None k -> kipc k -> kmem kc k -> state_of k tid = Some Ready ->
    (forall x, x ∈ READY k -> x = tid \/ x ∈ q) -> good kc (resume tid (set_READY q k)).
  Proof.
    intros Ht Hi Hm (t & Hf & Hs)%state_of_find Hq. unfold resume.
    change (find_task tid (set_READY q k)) with (find_task tid k). rewrite Hf.
    eexists _, _. split; [done|]. right.
    set (k1 := upd_task tid (with_state Running) k).
    assert (Hf1 : find_task tid k1 = Some (with_state Running t)).
    { unfold k1. rewrite find_upd_task, Z.eqb_refl, Hf by auto with redoubt. done. }
    split; [split|].
    - eapply (ktasks_set_state None None _ k _ tid t Running); try done.
      + intros x Hne _ Hx. destruct (Hq _ Hx); [done|done].
      + by rewrite Hs.
      + intros x. pose proof (kt_run _ _ _ Ht x). simpl. destruct (Z.eqb_spec x tid); naive_solver.
    - apply (kipc_ext k1); [done|done|]. eapply (kipc_set_state k tid t Running); try done; by rewrite Hs.
    - apply (kmem_ext kc k1); [done..|]. by apply kmem_set_state.
    - exists (with_state Running t). split; [exact Hf1|done].
    - exists (with_state Running t). split; [exact Hf1|done].
  Qed.

Lemma switch_away_ok kc k : ktasks None None k -> kipc k -> kmem kc k -> good kc (switch_away k).
  Proof.
    intros Ht Hi Hm. unfold switch_away, pick_next. simpl.
    pose proof (pick_loop_spec (TASKS k) None (READY k) []) as Hp.
    destruct (pick_loop _ _ _ _) as [[tid q]|].
    - destruct Hp as (_ & Hr & Hq). rewrite app_nil_r in Hq.
      apply (resume_ok kc (set_CURRENT None k) tid q); try done.
      + by apply (ktasks_ext None None k); [done|split|..].
      + by apply (kipc_ext k).
      + apply is_ready_state; [apply Ht|done].
    - unfold park_idle, activate_kernel_space. simpl.
      destruct (law_kernel _ _ _ _ _ (ow_ok _ _ _ _ Hm)) as [-> _].
      eexists _, _. split; [done|]. right. split; [split|].
      + simpl. destruct Ht as [Hnd Hids Hn Htk Hrun Hready Hpar Hz Hw]. split; try done.
        { intros t Hin. apply (task_ok_env k); [by split|auto]. }
        intros x Hx. exfalso. pose proof (Hready x Hx) as Hin. destruct (Hp x Hin) as [?|Hr]; [done|].
        apply not_true_iff_false in Hr. apply Hr. by apply is_ready_state.
      + by apply (kipc_ext k).
      + by apply (kmem_ext kc k).
      + done.
      + by left.
  Qed.

  (** ** The task on the CPU *)

Section current.
  Context (kc : Z) (k : Kernel S D) (tid : Z) (t : Task).
  Context (Hinv : kinv kc k) (Hcur : CURRENT k = Some tid) (Hfind : find_task tid k = Some t).

Lemma cur_elem : t ∈ TASKS k.
  Proof. by apply find_task_id in Hfind as [_ ?]. Qed.

Lemma cur_running : t_state t = Running.
  Proof.
    pose proof (kt_run _ _ _ (inv_tasks _ _ Hinv) tid) as Hr. rewrite Hcur in Hr.
    destruct Hr as [_ Hr]. specialize (Hr eq_refl). unfold state_of in Hr. rewrite Hfind in Hr.
    by injection Hr.
  Qed.

Lemma cur_fp : TSS_RSP0 k - TRAP_FRAME_BYTES = t_saved_rsp t.
  Proof.
    pose proof (inv_cpu _ _ Hinv) as Hc. unfold kcpu in Hc. rewrite Hcur in Hc.
    destruct Hc as (t' & Hf & _ & ->). assert (t' = t) as -> by congruence.
    by rewrite (to_rsp _ _ (kt_task _ _ _ (inv_tasks _ _ Hinv) _ cur_elem)).
  Qed.

Lemma run_off_cpu s :
    s <> Running -> forall x, (if x =? tid then s = Running else state_of k x = Some Running) <-> None = Some x.
  Proof.
    intros Hs x. split; [|done]. destruct (Z.eqb_spec x tid) as [->|Hne]; [done|].
    rewrite (kt_run _ _ _ (inv_tasks _ _ Hinv)), Hcur. congruence.
  Qed.

Lemma return_with_ok f : good kc (return_with (t_saved_rsp t) f k).
  Proof.
    unfold return_with.
    destruct (write_frame_ok _ _ _ t f (inv_tasks _ _ Hinv) cur_elem) as (k' & -> & Hg).
    eexists _, _. split; [done|]. right. split; [by eapply kinv_frames|].
    destruct Hg as (fr & -> & _). unfold ctrl_ok. simpl. rewrite Hcur. by exists t.
  Qed.

Lemma stay_ok : good kc (Some (Resume (t_saved_rsp t), k)).
  Proof.
    eexists _, _. split; [done|]. right. split; [done|]. unfold ctrl_ok. rewrite Hcur. by exists t.
  Qed.

  (** Parking in a state that involves no endpoint queue. *)
Lemma park_ok s :
    s <> Ready -> s <> Running -> is_zombie s = false -> ipc_blocked (Some s) = false ->
    (s = BlockedWait ->
      (forall c, c ∈ TASKS k -> t_parent c = Some tid -> is_zombie (t_state c) = false) /\
      exists c, c ∈ TASKS k /\ t_parent c = Some tid) ->
    good kc (park tid (t_saved_rsp t) s k).
  Proof.
    intros H1 H2 H3 H4 H5. unfold park, upd_task_or_panic. rewrite Hfind.
    erewrite upd_task_park by done. pose proof cur_running as Hrun. apply switch_away_ok.
    - eapply (ktasks_set_state _ _ _ k _ tid t s); try done; [apply Hinv| |by apply run_off_cpu].
      by rewrite Hrun.
    - eapply (kipc_set_state k tid t s); try done; [apply Hinv|]. by rewrite Hrun.
    - apply kmem_set_state, Hinv.
  Qed.

  (** The current task goes back to the end of the queue and another, already
      picked, takes over. *)
Lemma hand_over_ok next q :
    state_of k next = Some Ready -> (forall x, x ∈ READY k -> x = next \/ x ∈ q) ->
    good kc (let? kx := upd_task_or_panic tid
                          (fun t0 => with_state Ready (with_saved_rsp (t_saved_rsp t) t0)) (set_READY q k) in
             resume next (make_ready tid false kx)).
  Proof.
    intros Hnext Hq. unfold upd_task_or_panic.
    change (find_task tid (set_READY q k)) with (find_task tid k). rewrite Hfind.
    rewrite (upd_task_park tid t) by done.
    pose proof cur_running as Hrun.
    assert (Hne : next <> tid).
    { intros ->. unfold state_of in Hnext. rewrite Hfind in Hnext. simpl in Hnext. congruence. }
    set (k1 := make_ready tid false (upd_task tid (with_state Ready) k)).
    apply (resume_ok kc k1 next (q ++ [tid])).
    - eapply (ktasks_set_state _ _ _ k _ tid t Ready); try done; [apply Hinv| | |by apply run_off_cpu|].
      + intros x _ _ Hx. simpl. set_solver.
      + by rewrite Hrun.
      + intros _. simpl. set_solver.
    - apply (kipc_ext (upd_task tid (with_state Ready) k)); [done|done|].
      eapply (kipc_set_state k tid t Ready); try done; [apply Hinv|].
      by rewrite Hrun.
    - eapply (kmem_ext kc (upd_task tid (with_state Ready) k)); [done..|]. apply kmem_set_state, Hinv.
    - unfold k1. change (state_of (upd_task tid (with_state Ready) k) next = Some Ready).
      rewrite state_of_upd_state. by rewrite (proj2 (Z.eqb_neq _ _)).
    - intros x. simpl. rewrite !elem_of_app. intros [Hx|Hx]; [|auto]. destruct (Hq x Hx); auto.
  Qed.
End current.
End inv.
