(* ===== verification/KernelMem.v ===== *)
(** * Ownership of task resources: spawn and reaping keep it exact

    The memory part of the kernel invariant under the operations that move
    resources: teardown of a corpse ([reclaim], [drain_reaper],
    [reap_zombie]), removal from the table ([schedule_reap]) and creation
    ([spawn_user]). *)

From S2P Require Import Prelude RustStd Frame Caps Kernel Sched TaskOps Input ElfSafety MemLaws KernelInv.

Section mem.
  Context {S D : Type} `{ML : MemLaws S}.

Lemma res_spaces_cons p rs : res_spaces (p :: rs) = {[p_cr3 p]} ∪ res_spaces rs.
  Proof. done. Qed.

Lemma res_stacks_cons p rs :
    res_stacks (p :: rs) = <[p_kstack_base_va p := p_kstack_frames_base p]> (res_stacks rs).
  Proof. done. Qed.

Lemma not_in_spaces p rs : p_cr3 p ∉ (p_cr3 <$> rs) -> p_cr3 p ∉ res_spaces rs.
  Proof. unfold res_spaces. by rewrite elem_of_list_to_set. Qed.

Lemma res_stacks_None b rs : b ∉ (p_kstack_base_va <$> rs) -> res_stacks rs !! b = None.
  Proof.
    intros Hb. apply not_elem_of_list_to_map_1. by rewrite <- list_fmap_compose.
  Qed.

#[global] Instance owned_perm kc slots :
    Proper ((≡ₚ) ==> eq ==> iff) (@owned S _ ML kc slots).
  Proof.
    assert (Hone : forall rs rs' m, rs ≡ₚ rs' -> @owned S _ ML kc slots rs m -> @owned S _ ML kc slots rs' m).
    { intros rs rs' m Hp [Hc Hb Hs Hok]. split.
      - by rewrite <- Hp.
      - by rewrite <- Hp.
      - intros p Hin. apply Hs. by rewrite Hp.
      - replace (res_spaces rs') with (res_spaces rs).
        2:{ unfold res_spaces. apply list_to_set_perm_L. by rewrite Hp. }
        replace (res_stacks rs') with (res_stacks rs); [done|].
        unfold res_stacks. apply list_to_map_proper; [|by rewrite Hp].
        rewrite <- list_fmap_compose. exact Hb. }
    intros rs rs' Hp m m' ->. split; apply Hone; [done|by symmetry].
  Qed.

  (** ** Teardown *)

Definition frame_key (p : PendingReap) : Z :=
    p_kstack_base_va p + KSTACK_PAGES * 4096 - TRAP_FRAME_BYTES.

Lemma reclaim_ok kc slots p rs (k : Kernel S D) :
    owned kc slots (p :: rs) (MEM k) ->
    exists m, reclaim p k = Some (set_MEM m (set_FRAMES (delete (frame_key p) (FRAMES k)) k)) /\
      owned kc slots rs m.
  Proof.
    intros [Hc Hb Hs Hok]. apply NoDup_cons in Hc as [Hcp Hc]. apply NoDup_cons in Hb as [Hbp Hb].
    rewrite res_spaces_cons, res_stacks_cons in Hok.
    unfold reclaim. destruct (law_destroy _ _ _ _ (p_cr3 p) _ Hok) as (m1 & -> & Hm1); [set_solver|].
    apply not_in_spaces in Hcp.
    replace (({[p_cr3 p]} ∪ res_spaces rs) ∖ {[p_cr3 p]}) with (res_spaces rs) in Hm1 by set_solver.
    pose proof (law_unregister _ _ _ _ (p_kstack_base_va p) (p_kstack_frames_base p) _ Hm1
      (lookup_insert_eq _ _ _)) as Hm2.
    rewrite delete_insert_eq, (delete_id _ _ (res_stacks_None _ _ Hbp)), union_empty_l_L in Hm2.
    destruct (law_free _ _ _ _ (p_kstack_frames_base p) KSTACK_PAGES _ Hm2 eq_refl ltac:(done))
      as (m3 & -> & Hm3 & _).
    rewrite difference_diag_L in Hm3. eexists. split; [done|].
    split; try done. intros q Hq. apply Hs. by apply list_elem_of_further.
  Qed.

  (** Tearing down corpses leaves every frame of the survivors in place. *)
Lemma reclaim_all_ok kc slots ps : forall rs (k : Kernel S D),
    owned kc slots (ps ++ rs) (MEM k) ->
    exists m fr, reclaim_all ps k = Some (set_MEM m (set_FRAMES fr k)) /\ owned kc slots rs m /\
      forall a, (forall p, p ∈ ps -> a <> frame_key p) -> fr !! a = FRAMES k !! a.
  Proof.
    induction ps as [|p ps IH]; intros rs k Hown; cbn [reclaim_all].
    { exists (MEM k), (FRAMES k). split; [by destruct k|]. auto. }
    destruct (reclaim_ok kc slots p (ps ++ rs) k Hown) as (m1 & -> & Hown1).
    destruct (IH rs (set_MEM m1 (set_FRAMES (delete (frame_key p) (FRAMES k)) k)) Hown1)
      as (m2 & fr & -> & Hown2 & Hfr).
    exists m2, fr. split; [done|]. split; [done|]. intros a Hne. rewrite Hfr; simpl.
    - rewrite lookup_delete_ne; [done|]. apply not_eq_sym, Hne, list_elem_of_here.
    - intros q Hq. apply Hne. by apply list_elem_of_further.
  Qed.

Lemma frame_key_task (k : Kernel S D) t : task_ok k t -> t_saved_rsp t = frame_key (snapshot t).
  Proof. intros Hok. unfold frame_key. simpl. rewrite (to_rsp _ _ Hok), (to_top _ _ Hok). done. Qed.

  (** Resources of distinct owners have distinct frame keys. *)
Lemma frame_key_inj p q : frame_key p = frame_key q -> p_kstack_base_va p = p_kstack_base_va q.
  Proof. unfold frame_key. lia. Qed.

  (** A live task and a corpse never share a kernel stack. *)
Lemma live_frame_kept kc (k : Kernel S D) dy run t p :
    ktasks dy run k -> kmem kc k -> t ∈ TASKS k -> p ∈ REAP_QUEUE k -> t_saved_rsp t <> frame_key p.
  Proof.
    intros Ht [_ Hb _ _] Hin Hp Heq. rewrite (frame_key_task k) in Heq by (by apply Ht).
    apply frame_key_inj in Heq. unfold resources in Hb. rewrite fmap_app in Hb.
    apply NoDup_app in Hb as (_ & Hdis & _).
    apply (Hdis (p_kstack_base_va p)).
    - rewrite <- Heq. rewrite <- list_fmap_compose. apply list_elem_of_fmap. by exists t.
    - apply list_elem_of_fmap. by exists p.
  Qed.

Lemma drain_reaper_ok kc (k : Kernel S D) :
    kinv kc k ->
    exists m fr, let k' := set_MEM m (set_FRAMES fr (set_REAP_QUEUE [] k)) in
      drain_reaper k = Some k' /\ kinv kc k' /\
      forall t, t ∈ TASKS k -> fr !! t_saved_rsp t = FRAMES k !! t_saved_rsp t.
  Proof.
    intros [Ht Hi Hm Hc]. unfold drain_reaper.
    destruct (reclaim_all_ok kc (NEXT_KSTACK_SLOT k) (REAP_QUEUE k) (snapshot <$> TASKS k)
      (set_REAP_QUEUE [] k)) as (m & fr & -> & Hown & Hfr).
    { unfold kmem, resources in Hm. by rewrite Permutation_app_comm. }
    exists m, fr. split; [done|].
    assert (Hkept : forall t, t ∈ TASKS k -> fr !! t_saved_rsp t = FRAMES k !! t_saved_rsp t).
    { intros t Hin. apply Hfr. intros p Hp. by eapply live_frame_kept. }
    split; [|done]. split.
    - destruct Ht as [Hnd Hids Hn Htk Hrun Hready Hpar Hz Hw]. split; try done.
      intros t Hin. destruct (Htk _ Hin) as [? ? ? ? ?]. split; try done. simpl. by rewrite Hkept.
    - by apply (kipc_ext k).
    - unfold kmem, resources. simpl. by rewrite app_nil_r.
    - exact Hc.
  Qed.

  (** ** Removing tasks from the table *)

Lemma find_remove_task tid x (k : Kernel S D) :
    find (has_id x) (remove_task tid (TASKS k)) = if x =? tid then None else find_task x k.
  Proof.
    unfold find_task, remove_task. induction (TASKS k) as [|t l IH]; simpl; [by destruct (x =? tid)|].
    unfold has_id in *. destruct (Z.eqb_spec (t_id t) tid) as [Ht|Ht]; simpl.
    - rewrite IH. destruct (Z.eqb_spec x tid) as [->|Hx]; [done|].
      destruct (Z.eqb_spec (t_id t) x); [congruence|done].
    - rewrite IH. destruct (Z.eqb_spec (t_id t) x) as [Hx|Hx]; [|done].
      by rewrite (proj2 (Z.eqb_neq x tid)) by congruence.
  Qed.

Lemma elem_of_remove_task tid t (ts : list Task) : t ∈ remove_task tid ts <-> t ∈ ts /\ t_id t <> tid.
  Proof.
    unfold remove_task. rewrite !list_elem_of_In, filter_In. rewrite negb_true_iff, Z.eqb_neq. done.
  Qed.

Lemma remove_first_task tid (ts : list Task) : NoDup (t_id <$> ts) -> remove_first tid ts = remove_task tid ts.
  Proof.
    unfold remove_task. induction ts as [|t l IH]; simpl; [done|]. intros [Ht Hnd]%NoDup_cons.
    destruct (Z.eqb_spec (t_id t) tid) as [Heq|]; simpl; [|by rewrite IH].
    symmetry. clear IH. induction l as [|u l IHl]; [done|]. simpl in *.
    rewrite not_elem_of_cons in Ht. rewrite (proj2 (Z.eqb_neq _ _)) by naive_solver.
    simpl. f_equal. apply IHl; [naive_solver|]. by apply NoDup_cons in Hnd as [_ ?].
  Qed.

Lemma remove_task_perm tid t (k : Kernel S D) :
    NoDup (t_id <$> TASKS k) -> find_task tid k = Some t -> TASKS k ≡ₚ t :: remove_task tid (TASKS k).
  Proof.
    unfold find_task. induction (TASKS k) as [|u l IH]; [done|]. simpl.
    intros [Hu Hnd]%NoDup_cons Hf. unfold has_id in Hf at 1.
    destruct (Z.eqb_spec (t_id u) tid) as [Hid|Hid]; simpl.
    - injection Hf as ->. f_equiv. rewrite <- (remove_first_task tid l Hnd).
      clear IH. induction l as [|v l IHl]; [done|]. simpl in *.
      rewrite not_elem_of_cons in Hu. rewrite (proj2 (Z.eqb_neq _ _)) by naive_solver. f_equiv.
      apply IHl; [naive_solver|]. by apply NoDup_cons in Hnd as [_ ?].
    - rewrite Permutation_swap. f_equiv. by apply IH.
  Qed.

Lemma resources_remove tid t (k : Kernel S D) :
    NoDup (t_id <$> TASKS k) -> find_task tid k = Some t ->
    resources k ≡ₚ snapshot t :: (snapshot <$> remove_task tid (TASKS k)) ++ REAP_QUEUE k.
  Proof.
    intros Hnd Hf. unfold resources. rewrite (remove_task_perm tid t k Hnd Hf) at 1. done.
  Qed.

Lemma schedule_reap_mem kc tid (k : Kernel S D) :
    NoDup (t_id <$> TASKS k) -> kmem kc k -> kmem kc (schedule_reap tid k).
  Proof.
    intros Hnd Hm. unfold schedule_reap. destruct (find_task tid k) as [t|] eqn:Hf; [|done].
    unfold kmem, resources in *. simpl. rewrite app_assoc, <- Permutation_cons_append.
    by rewrite <- (resources_remove tid t k Hnd Hf).
  Qed.

Lemma NoDup_remove_task tid (ts : list Task) :
    NoDup (t_id <$> ts) -> NoDup (t_id <$> remove_task tid ts).
  Proof.
    unfold remove_task. induction ts as [|t l IH]; simpl; [done|]. intros [Ht Hnd]%NoDup_cons.
    destruct (negb _); [|auto]. csimpl. apply NoDup_cons. split; [|auto].
    intros (u & Hu & Hin)%list_elem_of_fmap. apply Ht. rewrite Hu. apply list_elem_of_fmap. exists u.
    split; [done|]. apply list_elem_of_In, filter_In in Hin as [Hin _]. by apply list_elem_of_In.
  Qed.
End mem.
