(* ===== verification/KernelSpawn.v ===== *)
(** * Process creation preserves the kernel invariant (task.rs spawn_user) *)

From S2P Require Import Prelude RustStd Frame Caps Kernel Sched TaskOps Input ElfSafety MemLaws KernelInv KernelMem.

Section spawn.
  Context {S D : Type} `{ML : MemLaws S}.
  Implicit Types k : Kernel S D.

Lemma find_snoc x t (ts : list Task) :
    find (has_id x) (ts ++ [t]) =
      match find (has_id x) ts with
      | Some u => Some u
      | None => if t_id t =? x then Some t else None
      end.
  Proof. induction ts as [|u ts IH]; simpl; [done|]. by destruct (has_id x u). Qed.

  (** A fresh id is not in the table. *)
Lemma fresh_id dy run k : ktasks dy run k -> find_task (NEXT_TID k) k = None.
  Proof.
    intros Hk. destruct (find_task (NEXT_TID k) k) as [u|] eqn:E; [|done].
    apply find_task_id in E as [Hid Hin]. pose proof (kt_ids _ _ _ Hk _ Hin). lia.
  Qed.

Lemma state_of_push dy run k k' t x :
    ktasks dy run k -> TASKS k' = TASKS k ++ [t] -> t_id t = NEXT_TID k ->
    state_of k' x = if x =? NEXT_TID k then Some (t_state t) else state_of k x.
  Proof.
    intros Hk E Hid. unfold state_of, find_task. rewrite E, find_snoc, Hid.
    destruct (Z.eqb_spec x (NEXT_TID k)) as [->|Hne].
    - pose proof (fresh_id _ _ _ Hk) as Hf. unfold find_task in Hf. rewrite Hf, Z.eqb_refl. done.
    - rewrite (proj2 (Z.eqb_neq _ x)) by congruence. by destruct (find (has_id x) (TASKS k)).
  Qed.

Lemma ktasks_push dy run k k' t :
    ktasks dy run k -> TASKS k' = TASKS k ++ [t] -> t_id t = NEXT_TID k ->
    NEXT_TID k' = NEXT_TID k + 1 -> NEXT_TID k' <= NEXT_KSTACK_SLOT k' ->
    length (ENDPOINTS k') = length (ENDPOINTS k) ->
    (forall a, is_Some (FRAMES k !! a) -> is_Some (FRAMES k' !! a)) ->
    (forall x, x ∈ READY k -> x ∈ READY k') -> t_id t ∈ READY k' ->
    task_ok k' t -> t_state t = Ready ->
    (forall p, t_parent t = Some p -> alive (state_of k p) /\ p < t_id t) ->
    ktasks dy run k'.
  Proof.
    intros Hk E Hid Htid Hslot Heps Hfr Hrd Hready' Hok Hst Hpar.
    assert (Hs : forall x, state_of k' x = if x =? NEXT_TID k then Some Ready else state_of k x).
    { intros x. rewrite (state_of_push dy run k k' t x Hk E Hid). by rewrite Hst. }
    destruct Hk as [Hnd Hids [Hn1 Hn2] Ht Hrun Hready Hp Hz Hw].
    assert (Hel : forall u, u ∈ TASKS k' <-> u ∈ TASKS k \/ u = t).
    { intros u. rewrite E, elem_of_app, list_elem_of_singleton. done. }
    assert (Hnone : state_of k (NEXT_TID k) = None).
    { unfold state_of. destruct (find_task (NEXT_TID k) k) as [u|] eqn:Eu; [|done].
      apply find_task_id in Eu as [? Hu]. specialize (Hids _ Hu). lia. }
    split.
    - rewrite E, fmap_app. apply NoDup_app. split; [done|]. split; [|apply NoDup_singleton].
      intros x (u & -> & Hu)%list_elem_of_fmap. csimpl. rewrite list_elem_of_singleton.
      specialize (Hids _ Hu). lia.
    - intros u [Hu|Hu]%Hel; rewrite Htid; [specialize (Hids _ Hu); lia|]. rewrite Hu. lia.
    - lia.
    - intros u [Hu|Hu]%Hel; [|by rewrite Hu]. destruct (Ht _ Hu) as [? ? ? ? ?].
      split; auto. by rewrite Heps.
    - intros x. rewrite Hs, <- Hrun. destruct (Z.eqb_spec x (NEXT_TID k)) as [->|]; [|done].
      rewrite Hnone. naive_solver.
    - intros x. rewrite Hs. destruct (Z.eqb_spec x (NEXT_TID k)) as [->|]; [|auto]. by rewrite <- Hid.
    - assert (Hal : forall p, alive (state_of k p) -> alive (state_of k' p)).
      { intros p. rewrite Hs. destruct (p =? NEXT_TID k); [by eexists|done]. }
      intros u p [Hu|Hu]%Hel Hup.
      + destruct (Hp _ _ Hu Hup). auto.
      + rewrite Hu in *. destruct (Hpar _ Hup). auto.
    - intros u [Hu|Hu]%Hel; [auto|]. rewrite Hu, Hst. done.
    - intros x. rewrite Hs. destruct (Z.eqb_spec x (NEXT_TID k)) as [->|]; [done|].
      intros Hx. destruct (Hw _ Hx) as [H1 (c & Hc & Hcp)]. split.
      + intros u [Hu|Hu]%Hel; [auto|]. by rewrite Hu, Hst.
      + exists c. split; [|done]. apply Hel. auto.
  Qed.

Lemma owned_weaken kc n n' rs (m : S) : n <= n' -> owned kc n rs m -> owned kc n' rs m.
  Proof.
    intros Hn [? ? Hs ?]. split; try done. intros p Hp. destruct (Hs _ Hp) as (s & ? & ?).
    exists s. split; [lia|done].
  Qed.

Lemma kstack_slot_base_inj a b : kstack_slot_base a = kstack_slot_base b -> a = b.
  Proof. unfold kstack_slot_base, KSTACK_SLOT_BYTES, KSTACK_PAGES, KSTACK_GUARD_PAGES. lia. Qed.

Lemma slot_unused kc k : kmem kc k -> kstack_slot_base (NEXT_KSTACK_SLOT k) ∉ (p_kstack_base_va <$> resources k).
  Proof.
    intros Hm (p & Heq & Hp)%list_elem_of_fmap. destruct (ow_slots _ _ _ _ Hm _ Hp) as (s & Hs & Hb).
    rewrite Hb in Heq. apply kstack_slot_base_inj in Heq. lia.
  Qed.

  (** What a spawn leaves alone. *)
Record spawn_frame k k' : Prop := {
  sf_current : CURRENT k' = CURRENT k;
  sf_cr3 : CR3 k' = CR3 k;
  sf_rsp0 : TSS_RSP0 k' = TSS_RSP0 k;
  sf_eps : ENDPOINTS k' = ENDPOINTS k;
  sf_waiters : WAITERS k' = WAITERS k;
  sf_slot : NEXT_KSTACK_SLOT k' <= NEXT_KSTACK_SLOT k + 1;
  sf_tasks : forall x t, find_task x k = Some t -> find_task x k' = Some t;
}.

Lemma owned_snoc kc n rs p (m : S) :
    owned kc n rs m -> p_cr3 p ∉ (p_cr3 <$> rs) -> p_kstack_base_va p ∉ (p_kstack_base_va <$> rs) ->
    (exists s, 1 <= s < n /\ p_kstack_base_va p = kstack_slot_base s) ->
    forall m', mem_ok kc ({[p_cr3 p]} ∪ res_spaces rs)
                 (<[p_kstack_base_va p := p_kstack_frames_base p]> (res_stacks rs)) ∅ m' ->
    owned kc n (p :: rs) m'.
  Proof.
    intros [Hc Hb Hs _] Hc' Hb' Hs' m' Hm'. split; try done.
    - csimpl. by apply NoDup_cons.
    - csimpl. by apply NoDup_cons.
    - intros q [->|Hq]%elem_of_cons; auto.
  Qed.

  (** Resources of the table extended by one task. *)
Lemma resources_push k t :
    (snapshot <$> TASKS k ++ [t]) ++ REAP_QUEUE k ≡ₚ snapshot t :: resources k.
  Proof.
    unfold resources. rewrite fmap_app. csimpl. rewrite <- app_assoc. simpl.
    symmetry. apply Permutation_middle.
  Qed.


Lemma space_taken_back (c : Z) (sp : gset Z) : c ∉ sp -> ({[c]} ∪ sp) ∖ {[c]} = sp.
  Proof. set_solver. Qed.

  (** The half-built task is torn down again: only the slot counter moved. *)
Lemma spawn_undo_ok kc run k k1 c :
    kipc k -> kmem kc k -> ktasks None run k1 -> TASKS k1 = TASKS k -> ENDPOINTS k1 = ENDPOINTS k ->
    REAP_QUEUE k1 = REAP_QUEUE k -> NEXT_KSTACK_SLOT k1 = NEXT_KSTACK_SLOT k + 1 ->
    CURRENT k1 = CURRENT k -> CR3 k1 = CR3 k -> TSS_RSP0 k1 = TSS_RSP0 k -> WAITERS k1 = WAITERS k ->
    c ∉ res_spaces (resources k) ->
    mem_ok kc ({[c]} ∪ res_spaces (resources k)) (res_stacks (resources k)) ∅ (MEM k1) ->
    exists m, destroy_address_space c (MEM k1) = Some m /\
      ktasks None run (set_MEM m k1) /\ kipc (set_MEM m k1) /\ kmem kc (set_MEM m k1) /\
      spawn_frame k (set_MEM m k1).
  Proof.
    intros Hi Hm Hk1 E1 E2 E3 E4 E5 E6 E7 E8 Hc Hmok.
    destruct (law_destroy kc _ _ _ c _ Hmok) as (m2 & -> & Hm2); [by apply elem_of_union_l, elem_of_singleton|].
    rewrite space_taken_back in Hm2 by done.
    exists m2. split; [done|].
    split; [by apply (ktasks_ext None run k1); [done|split|..]|]. split; [by apply (kipc_ext k)|].
    split.
    - unfold kmem, resources. simpl. rewrite E1, E3, E4.
      apply (owned_weaken _ (NEXT_KSTACK_SLOT k)); [lia|]. destruct Hm. by split.
    - split; try done; simpl; [lia|]. intros x t. unfold find_task. simpl. by rewrite E1.
  Qed.

  (** The completed task joins the table: [k1] is the state with its stack
      registered, its frame written and the counters advanced. *)
Lemma spawn_push_ok kc run k k1 t fb :
    ktasks None run k -> kipc k -> kmem kc k ->
    t_id t = NEXT_TID k -> t_state t = Ready -> t_cr3 t ∉ res_spaces (resources k) ->
    t_kstack_base_va t = kstack_slot_base (NEXT_KSTACK_SLOT k) -> t_kstack_frames_base t = fb ->
    (forall p, t_parent t = Some p -> alive (state_of k p)) -> task_ok k1 t ->
    TASKS k1 = TASKS k ++ [t] -> ENDPOINTS k1 = ENDPOINTS k -> REAP_QUEUE k1 = REAP_QUEUE k ->
    NEXT_KSTACK_SLOT k1 = NEXT_KSTACK_SLOT k + 1 -> NEXT_TID k1 = NEXT_TID k + 1 ->
    READY k1 = READY k ++ [t_id t] ->
    (forall a, is_Some (FRAMES k !! a) -> is_Some (FRAMES k1 !! a)) ->
    mem_ok kc ({[t_cr3 t]} ∪ res_spaces (resources k))
      (<[kstack_slot_base (NEXT_KSTACK_SLOT k) := fb]> (res_stacks (resources k))) ∅ (MEM k1) ->
    ktasks None run k1 /\ kipc k1 /\ kmem kc k1.
  Proof.
    intros Ht Hi Hm Hid Hst Hc Hb Hfb Hpar Hok E1 E2 E3 E4 E5 E6 Hfr Hmok.
    pose proof (kt_next _ _ _ Ht). split; [|split].
    - eapply (ktasks_push None run k _ t); try done.
      + lia.
      + by rewrite E2.
      + rewrite E6. set_solver.
      + rewrite E6. set_solver.
      + intros p Hp. split; [auto|]. destruct (Hpar _ Hp) as (s & (u & Hu & _)%state_of_find & _).
        apply find_task_id in Hu as [<- Hin]. rewrite Hid. by apply (kt_ids _ _ _ Ht).
    - apply (kipc_rel k); [done| |done]. intros x.
      rewrite (state_of_push None run k k1 t x Ht) by done.
      destruct (Z.eqb_spec x (NEXT_TID k)) as [->|]; [|by left].
      right. rewrite Hst. split; [|split; [done|by eexists]]. unfold state_of. by rewrite (fresh_id _ _ _ Ht).
    - unfold kmem, resources. rewrite E1, E3, (resources_push k t), E4.
      apply (owned_snoc kc _ _ _ (MEM k)); simpl; rewrite ?Hb, ?Hfb; [|..|done].
      + apply (owned_weaken _ (NEXT_KSTACK_SLOT k)); [lia|done].
      + intros Hin. apply Hc. unfold res_spaces. by rewrite elem_of_list_to_set.
      + by eapply slot_unused.
      + exists (NEXT_KSTACK_SLOT k). lia.
  Qed.

Lemma spawn_user_ok kc run k elf name caps parent :
    ktasks None run k -> kipc k -> kmem kc k -> NEXT_KSTACK_SLOT k + 1 < 2 ^ 64 ->
    CR3 k ∈ res_spaces (resources k) \/ CR3 k = kc -> image_ok elf ->
    (forall e r, Endpoint e r ∈ caps -> 0 <= e < Z.of_nat (length (ENDPOINTS k))) ->
    (forall p, parent = Some p -> alive (state_of k p)) ->
    exists r k', spawn_user elf name caps parent k = Some (r, k') /\
      ktasks None run k' /\ kipc k' /\ kmem kc k' /\ spawn_frame k k'.
  Proof.
    intros Ht Hi Hm Hslot Hcr3 Him Hcaps Hpar. unfold spawn_user.
    destruct (spawn_space_ok kc _ _ elf (CR3 k) (MEM k) (ow_ok _ _ _ _ Hm) Hcr3 Him)
      as (r & m1 & -> & Hr).
    destruct r as [[[c entry] pages]|].
    2:{ exists None, (set_MEM m1 k). split; [done|].
        split; [by apply (ktasks_ext None run k); [done|split|..]|]. split; [by apply (kipc_ext k)|].
        split; [|by split; try done; simpl; lia]. destruct Hm. by split. }
    destruct Hr as [Hcfresh Hm1]. unfold alloc_kstack. simpl.
    pose proof (kt_next _ _ _ Ht) as Hn. rewrite add64_small by lia.
    assert (Hgrow : forall m, ktasks None run (set_MEM m (set_NEXT_KSTACK_SLOT (NEXT_KSTACK_SLOT k + 1) (set_MEM m1 k)))).
    { intros m. destruct Ht as [? ? ? Htk ? ? ? ? ?]. split; try done.
      - simpl. lia.
      - intros u Hu. apply Htk in Hu. by destruct Hu; split. }
    assert (Hslot1 : 1 <= NEXT_KSTACK_SLOT k) by (destruct Ht; lia).
    destruct (Z.leb_spec 4096 (NEXT_KSTACK_SLOT k)).
    { destruct (spawn_undo_ok kc run k (set_NEXT_KSTACK_SLOT (NEXT_KSTACK_SLOT k + 1) (set_MEM m1 k)) c)
        as (m2 & -> & ?); try done; [apply (Hgrow m1)|]. by eexists _, _. }
    destruct (kstack_slot_ok kc _ _ (NEXT_KSTACK_SLOT k) m1 Hm1 Hslot1) as (r & m2 & -> & Hr).
    { apply res_stacks_None. by eapply slot_unused. }
    destruct r as [[top fb]|].
    2:{ destruct (spawn_undo_ok kc run k
          (set_MEM m2 (set_NEXT_KSTACK_SLOT (NEXT_KSTACK_SLOT k + 1) (set_MEM m1 k))) c)
          as (m3 & -> & ?); try done. by eexists _, _. }
    destruct Hr as (_ & -> & Hm2). eexists _, _. split; [done|].
    cbn [MEM set_MEM set_NEXT_KSTACK_SLOT NEXT_TID set_FRAMES FRAMES TASKS set_NEXT_TID].
    rewrite add64_small by lia.
    set (t := {| t_id := NEXT_TID k; t_name := name; t_state := Ready; t_cr3 := c; t_parent := parent;
                 t_kstack_top := _; t_saved_rsp := _; t_caps := _; t_kstack_base_va := _;
                 t_kstack_frames_base := _; t_pages := _ |}).
    match goal with |- ktasks _ _ ?k1 /\ _ =>
      destruct (spawn_push_ok kc run k k1 t fb) as (? & ? & ?); try done end.
    - simpl. unfold kstack_slot_top. lia.
    - split; simpl; [done|lia|rewrite lookup_insert_eq; eauto|apply length_install_caps|].
      intros e r Hin. apply elem_of_install_caps in Hin. eauto.
    - intros a Ha. simpl. destruct (decide (a = kstack_slot_top (NEXT_KSTACK_SLOT k) - TRAP_FRAME_BYTES)) as [->|].
      + rewrite lookup_insert_eq. eauto.
      + by rewrite lookup_insert_ne.
    - split; [done|]. split; [done|]. split; [done|].
      split; try done. intros x u Hu. unfold find_task in *. simpl. by rewrite find_snoc, Hu.
  Qed.
End spawn.
