(* ===== verification/KernelExit.v ===== *)
(** * Task termination preserves the kernel invariant (syscall.rs)

    [terminate_lifecycle] in three phases: the task becomes a zombie and its
    children are orphaned, its IPC is unwound, its exit code is delivered or
    kept.  In between the invariant holds with the task marked as dying. *)

From S2P Require Import Prelude RustStd Frame Caps Kernel Sched TaskOps Input Syscall ElfSafety MemLaws KernelInv KernelMem.

Section exit.
  Context {S D : Type} `{ML : MemLaws S}.
  Implicit Types k : Kernel S D.

  (** What the exit of a task never touches. *)
Record ctx_same k k' : Prop := {
  cs_current : CURRENT k' = CURRENT k;
  cs_cr3 : CR3 k' = CR3 k;
  cs_rsp0 : TSS_RSP0 k' = TSS_RSP0 k;
  cs_mem : MEM k' = MEM k;
  cs_tid : NEXT_TID k' = NEXT_TID k;
  cs_slot : NEXT_KSTACK_SLOT k' = NEXT_KSTACK_SLOT k;
  cs_waiters : WAITERS k' = WAITERS k;
}.

#[local] Instance ctx_same_preorder : PreOrder ctx_same.
  Proof. split; [by split|]. intros k1 k2 k3 [] []. split; congruence. Qed.

  (** ** Orphaning *)

Lemma update_first_map tid f (ts : list Task) :
    NoDup (t_id <$> ts) ->
    update_first (has_id tid) f ts = (fun t => if t_id t =? tid then f t else t) <$> ts.
  Proof.
    induction ts as [|t ts IH]; csimpl; [done|]. intros [Ht Hnd]%NoDup_cons. unfold has_id.
    destruct (Z.eqb_spec (t_id t) tid) as [Hid|Hid]; [|by f_equal; apply IH].
    f_equal. clear IH. induction ts as [|u ts IH]; [done|]. csimpl in *.
    rewrite not_elem_of_cons in Ht. rewrite (proj2 (Z.eqb_neq (t_id u) tid)) by naive_solver.
    f_equal. apply IH; [naive_solver|]. by apply NoDup_cons in Hnd as [_ ?].
  Qed.

Definition drop_parent (kids : list Z) (t : Task) : Task :=
    if bool_decide (t_id t ∈ kids) then with_parent None t else t.

Lemma drop_parent_id kids t : t_id (drop_parent kids t) = t_id t.
  Proof. unfold drop_parent. by case_bool_decide. Qed.

Lemma drop_parent_state kids t : t_state (drop_parent kids t) = t_state t.
  Proof. unfold drop_parent. by case_bool_decide. Qed.

Definition zombie_id k (x : Z) : bool :=
    match find_task x k with Some t => is_zombie (t_state t) | None => false end.

Lemma find_map (f : Task -> Task) x ts :
    (forall t, t_id (f t) = t_id t) -> find (has_id x) (f <$> ts) = f <$> find (has_id x) ts.
  Proof.
    intros Hf. induction ts as [|t ts IH]; [done|]. csimpl. unfold has_id. rewrite Hf.
    by destruct (t_id t =? x).
  Qed.

Lemma orphan_kids_spec kids : forall k,
    NoDup (t_id <$> TASKS k) ->
    orphan_kids kids k =
      (set_TASKS (drop_parent kids <$> TASKS k) k, List.filter (zombie_id k) kids).
  Proof.
    induction kids as [|kid kids IH]; intros k Hnd; cbn [orphan_kids List.filter].
    { f_equal. replace (drop_parent [] <$> TASKS k) with (TASKS k); [by destruct k|].
      rewrite <- (list_fmap_id (TASKS k)) at 1. apply list_fmap_ext. intros i t _.
      unfold drop_parent. by rewrite bool_decide_false by set_solver. }
    unfold zombie_id at 1. destruct (find_task kid k) as [t|] eqn:Hf.
    - rewrite IH by (by rewrite ids_upd_task by auto with redoubt).
      assert (Hz : forall x, zombie_id (upd_task kid (with_parent None) k) x = zombie_id k x).
      { intros x. unfold zombie_id. rewrite find_upd_task by auto with redoubt.
        destruct (Z.eqb_spec x kid) as [->|]; [by rewrite Hf|done]. }
      rewrite (filter_ext _ _ Hz). f_equal.
      unfold upd_task. simpl. unfold set_TASKS. simpl. f_equal.
      rewrite update_first_map by done. rewrite <- list_fmap_compose. apply list_fmap_ext.
      intros i u _. unfold drop_parent. simpl.
      destruct (Z.eqb_spec (t_id u) kid) as [Hu|Hu]; simpl.
      + rewrite (bool_decide_true (t_id u ∈ kid :: kids)) by (rewrite Hu; apply list_elem_of_here).
        by case_bool_decide.
      + rewrite (bool_decide_ext (t_id u ∈ kids) (t_id u ∈ kid :: kids)); [done|]. set_solver.
    - rewrite IH by done. f_equal. unfold set_TASKS. f_equal. apply list_fmap_ext.
      intros i u Hu. unfold drop_parent. rewrite (bool_decide_ext (t_id u ∈ kids) (t_id u ∈ kid :: kids)); [done|].
      rewrite elem_of_cons. split; [auto|]. intros [Hid|?]; [|done].
      exfalso. apply list_elem_of_lookup_2 in Hu. apply find_task_elem in Hu; [congruence|done].
  Qed.

Lemma reap_all_spec zs : forall k kc,
    NoDup (t_id <$> TASKS k) -> kmem kc k ->
    let k' := foldl (fun k z => schedule_reap z k) k zs in
    TASKS k' = List.filter (fun t => bool_decide (t_id t ∉ zs)) (TASKS k) /\ kmem kc k' /\
    ctx_same k k' /\ READY k' = READY k /\ FRAMES k' = FRAMES k /\ ENDPOINTS k' = ENDPOINTS k.
  Proof.
    induction zs as [|z zs IH]; intros k kc Hnd Hm; cbn [foldl].
    { split; [|done]. symmetry. induction (TASKS k) as [|t ts IHt]; [done|]. cbn [List.filter].
      rewrite bool_decide_true by set_solver. f_equal. apply IHt. by apply NoDup_cons in Hnd as [_ ?]. }
    set (k1 := schedule_reap z k).
    assert (H1 : TASKS k1 = remove_task z (TASKS k) /\ ctx_same k k1 /\ READY k1 = READY k /\
                 FRAMES k1 = FRAMES k /\ ENDPOINTS k1 = ENDPOINTS k).
    { unfold k1, schedule_reap. destruct (find_task z k) as [t|] eqn:Hf; [done|].
      split; [|done]. unfold find_task in Hf. apply find_None_Forall in Hf. unfold remove_task.
      clear -Hf. induction Hf as [|u l Hu _ IHl]; [done|]. simpl. unfold has_id in Hu. rewrite Hu.
      simpl. by f_equal. }
    destruct H1 as (HT & Hctx & HR & HF & HE).
    destruct (IH k1 kc) as (HT' & Hm' & Hctx' & HR' & HF' & HE').
    { rewrite HT. by apply NoDup_remove_task. }
    { by apply schedule_reap_mem. }
    split; [|split; [done|]; split; [by etrans|]; split; [congruence|]; split; congruence].
    rewrite HT', HT. clear. unfold remove_task. induction (TASKS k) as [|t ts IHt]; [done|]. cbn [List.filter].
    destruct (Z.eqb_spec (t_id t) z) as [->|Hne]; cbn [List.filter negb].
    - rewrite (bool_decide_false (z ∉ z :: zs)) by set_solver. done.
    - rewrite (bool_decide_ext (t_id t ∉ zs) (t_id t ∉ z :: zs)) by set_solver.
      case_bool_decide; [by f_equal|done].
  Qed.

  (** ** Phase one: zombie, orphans *)

Definition exit_table (tid code : Z) k : Kernel S D :=
    let k1 := upd_task tid (with_state (Zombie code)) k in
    let r := orphan_kids (children tid (TASKS k1)) k1 in
    foldl (fun k z => schedule_reap z k) (fst r) (snd r).

  (** What becomes of an entry of the table. *)
Definition survivor (tid code : Z) (t : Task) : option Task :=
    if t_id t =? tid then Some (with_state (Zombie code) t)
    else if bool_decide (t_parent t = Some tid) then
      if is_zombie (t_state t) then None else Some (with_parent None t)
    else Some t.

Lemma survivor_id tid code t t' : survivor tid code t = Some t' -> t_id t' = t_id t.
  Proof. unfold survivor. intros. repeat case_match; simplify_eq; done. Qed.

Lemma elem_of_children tid ts u :
    NoDup (t_id <$> ts) -> u ∈ ts -> t_id u ∈ children tid ts <-> t_parent u = Some tid.
  Proof.
    intros Hnd Hu. unfold children. rewrite list_elem_of_fmap. split.
    - intros (c & Hid & Hc). apply list_elem_of_In, filter_In in Hc as [Hc Hp].
      apply list_elem_of_In in Hc. apply bool_decide_eq_true in Hp.
      assert (u = c) as ->; [|done]. apply list_elem_of_lookup in Hu as [i Hi].
      apply list_elem_of_lookup in Hc as [j Hj].
      assert (i = j) as -> by (eapply (NoDup_lookup _ i j (t_id u) Hnd); rewrite list_lookup_fmap, ?Hi, ?Hj; simpl; congruence).
      congruence.
    - intros Hp. exists u. split; [done|]. apply list_elem_of_In, filter_In.
      rewrite <- list_elem_of_In. split; [done|]. by apply bool_decide_eq_true.
  Qed.

Lemma NoDup_filter_ids (f : Task -> bool) ts : NoDup (t_id <$> ts) -> NoDup (t_id <$> List.filter f ts).
  Proof.
    induction ts as [|t l IH]; [done|]. csimpl. intros [Hx Hnd]%NoDup_cons.
    destruct (f t); [|auto]. csimpl. apply NoDup_cons. split; [|auto].
    intros (u & Hu & Hin)%list_elem_of_fmap. apply Hx. rewrite Hu. apply list_elem_of_fmap. exists u.
    apply list_elem_of_In, filter_In in Hin as [Hin _]. by rewrite list_elem_of_In.
  Qed.

Section phase1.
  Context (kc : Z) (run : option Z) (k : Kernel S D) (tid code : Z) (me : Task).
  Context (Ht : ktasks None run k) (Hm : kmem kc k) (Hme : find_task tid k = Some me).

Let k1 := upd_task tid (with_state (Zombie code)) k.
Let kids := children tid (TASKS k1).
Let zs := List.filter (zombie_id k1) kids.

Lemma k1_nodup : NoDup (t_id <$> TASKS k1).
  Proof. unfold k1. rewrite ids_upd_task by auto with redoubt. apply Ht. Qed.

Lemma elem_of_orphaned_zombies u :
    u ∈ TASKS k1 -> t_id u ∈ zs <-> t_parent u = Some tid /\ is_zombie (t_state u) = true.
  Proof.
    intros Hu. unfold zs. rewrite list_elem_of_In, filter_In, <- list_elem_of_In.
    unfold kids. rewrite elem_of_children by (done || apply k1_nodup). unfold zombie_id.
    by rewrite (find_task_elem k1 u k1_nodup Hu).
  Qed.

  (** The orphan loop and the reaping of dead orphans act entry by entry. *)
Lemma survivor_spec t :
    t ∈ TASKS k -> let u := if t_id t =? tid then with_state (Zombie code) t else t in
    u ∈ TASKS k1 ->
    survivor tid code t = if bool_decide (t_id u ∉ zs) then Some (drop_parent kids u) else None.
  Proof.
    intros Hin u Hu. unfold drop_parent.
    rewrite (bool_decide_ext _ _ (elem_of_children tid _ u k1_nodup Hu)).
    unfold survivor, u in *. destruct (Z.eqb_spec (t_id t) tid) as [Hid|Hid].
    - assert (Hpar : t_parent t <> Some tid).
      { intros Hp. destruct (kt_parent _ _ _ Ht _ _ Hin Hp). lia. }
      rewrite bool_decide_true by (rewrite elem_of_orphaned_zombies by done; naive_solver).
      by rewrite bool_decide_false.
    - case_bool_decide as Hp.
      + destruct (is_zombie (t_state t)) eqn:Ez; [rewrite bool_decide_false|rewrite bool_decide_true]; try done;
          rewrite elem_of_orphaned_zombies by done; [naive_solver|]. rewrite Ez. naive_solver.
      + rewrite bool_decide_true by (rewrite elem_of_orphaned_zombies by done; naive_solver). done.
  Qed.

Lemma exit_table_spec :
    (forall t', t' ∈ TASKS (exit_table tid code k) <->
       exists t, t ∈ TASKS k /\ survivor tid code t = Some t') /\
    NoDup (t_id <$> TASKS (exit_table tid code k)) /\
    kmem kc (exit_table tid code k) /\ ctx_same k (exit_table tid code k) /\
    READY (exit_table tid code k) = READY k /\ FRAMES (exit_table tid code k) = FRAMES k /\
    ENDPOINTS (exit_table tid code k) = ENDPOINTS k.
  Proof.
    unfold exit_table. fold k1. fold kids. rewrite (orphan_kids_spec kids k1 k1_nodup). cbn [fst snd].
    fold zs. set (k2 := set_TASKS (drop_parent kids <$> TASKS k1) k1).
    assert (Hids2 : NoDup (t_id <$> TASKS k2)).
    { unfold k2. simpl. rewrite <- list_fmap_compose.
      rewrite (list_fmap_ext _ t_id) by (intros; apply drop_parent_id). apply k1_nodup. }
    destruct (reap_all_spec zs k2 kc) as (HT & Hm3 & Hctx & HR & HF & HE); [done| |].
    { apply (kmem_ext kc k); [|done|done|exact Hm]. unfold resources. simpl. f_equal.
      rewrite <- list_fmap_compose. rewrite update_first_map, <- list_fmap_compose by apply Ht.
      apply list_fmap_ext. intros i t _. simpl. unfold drop_parent.
      case_bool_decide; by destruct (t_id t =? tid). }
    split; [|split; [|split; [exact Hm3|split; [by destruct Hctx; split|done]]]].
    2:{ rewrite HT. by apply NoDup_filter_ids. }
    intros t'. rewrite HT. rewrite list_elem_of_In, filter_In, <- list_elem_of_In, bool_decide_eq_true.
    unfold k2. simpl. rewrite list_elem_of_fmap. split.
    - intros [(u & -> & Hu) Hn]. rewrite drop_parent_id in Hn.
      pose proof Hu as Hu'. apply elem_of_upd_state in Hu' as (t & Hin & Heq); [|apply Ht].
      exists t. split; [done|]. rewrite (survivor_spec t Hin); rewrite <- Heq; [|done].
      by rewrite bool_decide_true.
    - intros (t & Hin & Hs).
      assert (Hu : (if t_id t =? tid then with_state (Zombie code) t else t) ∈ TASKS k1).
      { apply elem_of_upd_state; [apply Ht|]. eauto. }
      rewrite (survivor_spec t Hin Hu) in Hs. case_bool_decide as Hn; simplify_eq.
      rewrite drop_parent_id. split; [eauto|done].
  Qed.

Lemma exit_table_find x :
    find_task x (exit_table tid code k) = t ← find_task x k; survivor tid code t.
  Proof.
    destruct exit_table_spec as (Hel & Hnd & _). set (k3 := exit_table tid code k) in *.
    assert (Hback : forall t', find_task x k3 = Some t' ->
              exists u, find_task x k = Some u /\ survivor tid code u = Some t').
    { intros t' Hf'. apply find_task_id in Hf' as [Hid' Hin']. apply Hel in Hin' as (u & Hu & Hsu).
      exists u. split; [|done]. apply survivor_id in Hsu. rewrite <- Hid', Hsu. apply find_task_elem; [apply Ht|done]. }
    destruct (find_task x k) as [t|] eqn:Hf; simpl.
    - apply find_task_id in Hf as [Hid Hin]. destruct (survivor tid code t) as [t'|] eqn:Hs.
      + assert (Hin' : t' ∈ TASKS k3) by (apply Hel; eauto). apply survivor_id in Hs.
        rewrite <- Hid, <- Hs. by apply find_task_elem.
      + destruct (find_task x k3) as [t'|]; [|done]. destruct (Hback t' eq_refl) as (u & Hu & Hsu). congruence.
    - destruct (find_task x k3) as [t'|]; [|done]. destruct (Hback t' eq_refl) as (u & Hu & Hsu). congruence.
  Qed.

  (** States after the first phase: the exiting task is a zombie, dead orphans
      are gone, everyone else is as before. *)
Lemma exit_table_state x :
    state_of (exit_table tid code k) x =
      if x =? tid then Some (Zombie code)
      else t ← find_task x k; t_state <$> survivor tid code t.
  Proof.
    unfold state_of. rewrite exit_table_find. destruct (Z.eqb_spec x tid) as [->|Hne].
    - rewrite Hme. simpl. unfold survivor. apply find_task_id in Hme as [-> _]. by rewrite Z.eqb_refl.
    - destruct (find_task x k); done.
  Qed.

Lemma exit_table_self : state_of (exit_table tid code k) tid = Some (Zombie code).
  Proof. by rewrite exit_table_state, Z.eqb_refl. Qed.

Lemma exit_table_other x :
    x <> tid ->
    state_of (exit_table tid code k) x = state_of k x \/
    (alive (state_of k x) -> False) /\ state_of (exit_table tid code k) x = None.
  Proof.
    intros Hne. rewrite exit_table_state, (proj2 (Z.eqb_neq _ _)) by done. unfold state_of.
    destruct (find_task x k) as [t|] eqn:Hf; simpl; [|by left].
    unfold survivor. apply find_task_id in Hf as [Hid _]. rewrite Hid, (proj2 (Z.eqb_neq _ _)) by done.
    destruct (bool_decide _); [|by left]. destruct (is_zombie (t_state t)) eqn:Ez; [|by left].
    right. split; [|done]. intros (s & Hs & Hz). simplify_eq. congruence.
  Qed.

Lemma exit_table_alive x s :
    x <> tid -> is_zombie s = false ->
    state_of (exit_table tid code k) x = Some s <-> state_of k x = Some s.
  Proof.
    intros Hne Hs. destruct (exit_table_other x Hne) as [->|[Hd ->]]; [done|].
    split; [done|]. intros E. exfalso. apply Hd. by exists s.
  Qed.

Definition off_cpu : option Z := if bool_decide (run = Some tid) then None else run.

Lemma exit_table_tasks : ktasks (Some tid) off_cpu (exit_table tid code k).
  Proof.
    destruct exit_table_spec as (Hel & Hnd & _ & Hctx & HR & HF & HE).
    pose proof exit_table_alive as Hsame. pose proof exit_table_self as Hself.
    set (k3 := exit_table tid code k) in *. pose proof Ht as [_ Hids Hn Htk Hrun Hready Hp Hz Hw].
    assert (Hkeep : forall t t', survivor tid code t = Some t' ->
      (t_id t = tid /\ t' = with_state (Zombie code) t) \/
      (t_id t <> tid /\ t_parent t = Some tid /\ is_zombie (t_state t) = false /\ t' = with_parent None t) \/
      (t_id t <> tid /\ t_parent t <> Some tid /\ t' = t)).
    { intros t t' Hs. unfold survivor in Hs. repeat case_match; bool_facts; simplify_eq;
        repeat match goal with H : bool_decide _ = _ |- _ => first [apply bool_decide_eq_true in H | apply bool_decide_eq_false in H] end; auto 6. }
    split; [done|..].
    - intros t' (t & Hin & Hs)%Hel. rewrite (survivor_id _ _ _ _ Hs), (cs_tid _ _ Hctx). auto.
    - rewrite (cs_tid _ _ Hctx), (cs_slot _ _ Hctx). done.
    - intros t' (t & Hin & Hs)%Hel. destruct (Htk _ Hin) as [H1 H2 H3 H4 H5].
      destruct (Hkeep _ _ Hs) as [[_ ->]|[(_ & _ & _ & ->)|(_ & _ & ->)]]; split; simpl; rewrite ?HF, ?HE; done.
    - intros x. unfold off_cpu. destruct (decide (x = tid)) as [->|Hne].
      + rewrite Hself. case_bool_decide; naive_solver.
      + rewrite Hsame, Hrun by done. case_bool_decide; naive_solver.
    - intros x Hx. rewrite HR. destruct (decide (x = tid)) as [->|Hne]; [congruence|].
      rewrite Hsame in Hx by done. auto.
    - intros t' p (t & Hin & Hs)%Hel Hpar.
      assert (Hpar0 : t_parent t = Some p /\ p <> tid).
      { destruct (Hkeep _ _ Hs) as [[Hid ->]|[(_ & _ & _ & ->)|(_ & Hne & ->)]]; simpl in Hpar; [|done|].
        - split; [done|]. intros ->. destruct (Hp _ _ Hin Hpar). lia.
        - split; [done|congruence]. }
      destruct Hpar0 as [Hpar0 Hne]. destruct (Hp _ _ Hin Hpar0) as [(s & Hst & Hsz) Hlt].
      rewrite (survivor_id _ _ _ _ Hs). split; [|done]. exists s. split; [|done]. by apply Hsame.
    - intros t' (t & Hin & Hs)%Hel Hzt.
      destruct (Hkeep _ _ Hs) as [[Hid ->]|[(_ & _ & Hnz & ->)|(Hid & Hne & ->)]].
      + left. simpl. by rewrite Hid.
      + simpl in Hzt. congruence.
      + right. destruct (Hz _ Hin Hzt) as [?|?]; done.
    - intros x Hx. assert (Hne : x <> tid) by (intros ->; congruence). rewrite Hsame in Hx by done.
      destruct (Hw _ Hx) as [Hk (c & Hc & Hcp)]. split.
      + intros t' (t & Hin & Hs)%Hel Hpar Hzt.
        destruct (Hkeep _ _ Hs) as [[Hid ->]|[(_ & _ & Hnz & ->)|(Hid & _ & ->)]]; [by simpl; rewrite Hid|done|].
        by specialize (Hk _ Hin Hpar Hzt).
      + assert (Hs : exists c', survivor tid code c = Some c' /\ t_parent c' = Some x).
        { unfold survivor. destruct (t_id c =? tid); [by eexists|].
          rewrite bool_decide_false by congruence. by eexists. }
        destruct Hs as (c' & Hs & Hc'). exists c'. split; [|done]. apply Hel. eauto.
  Qed.
End phase1.

  (** A task up to its state, per id. *)
Definition rest_of k (x : Z) : option Task := with_state Ready <$> find_task x k.

Lemma rest_of_upd_state tid s k x : rest_of (upd_task tid (with_state s) k) x = rest_of k x.
  Proof.
    unfold rest_of. rewrite find_upd_task by auto with redoubt.
    destruct (Z.eqb_spec x tid) as [->|]; [|done]. by destruct (find_task tid k).
  Qed.

  (** ** Phase two: unwinding IPC *)

Definition failed (cs : list Z) (x : Z) (o : option TaskState) : option TaskState :=
    match o with
    | Some (BlockedCall e) => if bool_decide (x ∈ cs) then Some Ready else o
    | _ => o
    end.

Lemma failed_not_in cs x o : x ∉ cs -> failed cs x o = o.
  Proof. intros Hx. unfold failed. destruct o as [[]|]; try done. by rewrite bool_decide_false. Qed.

Record unwound (cs : list Z) k k' : Prop := {
  uw_ctx : ctx_same k k';
  uw_eps : ENDPOINTS k' = ENDPOINTS k;
  uw_res : resources k' = resources k;
  uw_rest : forall x, rest_of k' x = rest_of k x;
  uw_state : forall x, state_of k' x = failed cs x (state_of k x);
}.

Lemma fail_stranded_ok dy run c k :
    ktasks dy run k -> exists k', fail_stranded c k = Some k' /\ ktasks dy run k' /\ unwound [c] k k'.
  Proof.
    intros Ht. unfold fail_stranded.
    assert (Hsame : (forall e, state_of k c <> Some (BlockedCall e)) ->
              exists k', Some k = Some k' /\ ktasks dy run k' /\ unwound [c] k k').
    { intros Hc. exists k. split; [done|]. split; [done|]. split; try done. intros x. unfold failed.
      destruct (state_of k x) as [[]|] eqn:Es; try done.
      rewrite bool_decide_false; [done|]. rewrite list_elem_of_singleton. intros ->. naive_solver. }
    destruct (find_task c k) as [t|] eqn:Hf; [|apply Hsame; unfold state_of; by rewrite Hf].
    assert (Hst : state_of k c = Some (t_state t)) by (unfold state_of; by rewrite Hf).
    rewrite Hst in Hsame. destruct (t_state t) as [| | |e| | | | |] eqn:Es; try (by apply Hsame).
    pose proof Hf as Hf'. apply find_task_id in Hf' as [Hid Hin].
    destruct (write_frame_ok _ _ _ t (set_rax E_PEER_DIED) Ht Hin) as (k1 & -> & fr & -> & Hfr).
    eexists. split; [done|]. split.
    - eapply (ktasks_set_state dy run run k _ c t Ready); try done.
      + intros x _ _ Hx. simpl. set_solver.
      + by rewrite Es.
      + intros x. pose proof (kt_run _ _ _ Ht x) as Hr. destruct (Z.eqb_spec x c) as [->|]; [|done].
        rewrite <- Hr, Hst. naive_solver.
      + simpl. set_solver.
    - split; [by split|done|exact (resources_upd_state c Ready k)|intros x; apply (rest_of_upd_state c Ready k)|].
      intros x. change (state_of (upd_task c (with_state Ready) k) x = failed [c] x (state_of k x)).
      rewrite state_of_upd_state. destruct (Z.eqb_spec x c) as [->|Hne].
      + rewrite Hf, Hst. simpl. by rewrite bool_decide_true by set_solver.
      + rewrite failed_not_in; [done|]. by rewrite list_elem_of_singleton.
  Qed.

Lemma failed_compose cs c x o : failed cs x (failed [c] x o) = failed (c :: cs) x o.
  Proof.
    unfold failed. destruct o as [[]|]; try done. destruct (decide (x = c)) as [->|Hne].
    - rewrite !(bool_decide_true (c ∈ _)) by set_solver. done.
    - rewrite (bool_decide_false (x ∈ [c])) by set_solver.
      rewrite (bool_decide_ext (x ∈ c :: cs) (x ∈ cs)); [done|]. set_solver.
  Qed.

Lemma fail_all_ok dy run cs : forall k,
    ktasks dy run k -> exists k', fail_all cs k = Some k' /\ ktasks dy run k' /\ unwound cs k k'.
  Proof.
    induction cs as [|c cs IH]; intros k Ht; cbn [fail_all].
    { exists k. split; [done|]. split; [done|]. split; try done. intros x. by rewrite failed_not_in by set_solver. }
    destruct (fail_stranded_ok dy run c k Ht) as (k1 & -> & Ht1 & [C1 E1 R1 S1 T1]).
    destruct (IH k1 Ht1) as (k2 & -> & Ht2 & [C2 E2 R2 S2 T2]).
    exists k2. split; [done|]. split; [done|]. split; [by etrans|congruence|congruence| |].
    - intros x. by rewrite S2.
    - intros x. by rewrite T2, T1, failed_compose.
  Qed.

  (** The callers [abort_ipc_for_exiting_task] strands. *)
Definition stranded (tid : Z) (eps : list EndpointState) : list Z := concat (snd <$> (abort_endpoint tid <$> eps)).

Lemma elem_of_stranded tid eps c :
    c ∈ stranded tid eps <->
    c <> tid /\ exists i ep, eps !! i = Some ep /\ active_caller ep = Some c /\ active_server ep = Some tid.
  Proof.
    unfold stranded. rewrite list_elem_of_In, in_concat. setoid_rewrite <- list_elem_of_In.
    setoid_rewrite list_elem_of_fmap. split.
    - intros (l & (r & -> & (ep & -> & Hin)%list_elem_of_fmap) & Hc).
      apply list_elem_of_lookup in Hin as [i Hi]. unfold abort_endpoint in Hc.
      repeat case_bool_decide; simpl in Hc; try (by apply not_elem_of_nil in Hc); try done.
      destruct (active_caller ep) as [c'|] eqn:Ec; [|by apply not_elem_of_nil in Hc].
      apply list_elem_of_singleton in Hc as ->. split; [congruence|]. eauto 6.
    - intros (Hne & i & ep & Hi & Hc & Hs). exists [c]. split; [|by apply list_elem_of_singleton].
      exists (abort_endpoint tid ep). split.
      + unfold abort_endpoint. rewrite Hc, Hs. rewrite bool_decide_false by congruence.
        by rewrite bool_decide_true.
      + apply list_elem_of_fmap. exists ep. split; [done|]. by eapply list_elem_of_lookup_2.
  Qed.

  (** An endpoint after the unwinding. *)
Lemma abort_endpoint_spec tid ep :
    let ep' := fst (abort_endpoint tid ep) in
    (forall c msg, (c, msg) ∈ pending_callers ep' <-> (c, msg) ∈ pending_callers ep /\ c <> tid) /\
    (NoDup (fst <$> pending_callers ep) -> NoDup (fst <$> pending_callers ep')) /\
    (active_caller ep' = active_caller ep /\ active_server ep' = active_server ep /\
       active_caller ep <> Some tid /\ active_server ep <> Some tid \/
     active_caller ep' = None /\ active_server ep' = None).
  Proof.
    intros ep'.
    assert (Hp : pending_callers ep' = List.filter (fun p => negb (fst p =? tid)) (pending_callers ep)).
    { unfold ep', abort_endpoint. by repeat case_bool_decide. }
    split; [|split].
    - intros c msg. rewrite Hp, !list_elem_of_In, filter_In. simpl. rewrite negb_true_iff, Z.eqb_neq. done.
    - rewrite Hp. clear. induction (pending_callers ep) as [|[c m] l IH]; [done|]. csimpl.
      intros [Hc Hnd]%NoDup_cons. destruct (negb _); [|auto]. csimpl. apply NoDup_cons. split; [|auto].
      intros (q & -> & Hq)%list_elem_of_fmap. apply Hc. apply list_elem_of_fmap. exists q.
      apply list_elem_of_In, filter_In in Hq as [Hq _]. by rewrite list_elem_of_In.
    - unfold ep', abort_endpoint. repeat case_bool_decide; simpl; auto.
  Qed.

Lemma abort_kipc tid k k' :
    kipc k -> ENDPOINTS k' = fst <$> (abort_endpoint tid <$> ENDPOINTS k) ->
    (forall x s, x <> tid -> is_zombie s = false ->
       state_of k' x = Some s <->
       exists s0, state_of k x = Some s0 /\ is_zombie s0 = false /\
                  failed (stranded tid (ENDPOINTS k)) x (Some s0) = Some s) ->
    (exists code, state_of k' tid = Some (Zombie code)) ->
    kipc k'.
  Proof.
    intros [Hpend Hnd Hsend Hcall Hserv Hboth] HE Hst [code Hz].
    assert (Hep : forall i ep', ENDPOINTS k' !! i = Some ep' ->
              exists ep, ENDPOINTS k !! i = Some ep /\ ep' = fst (abort_endpoint tid ep)).
    { intros i ep'. rewrite HE, !list_lookup_fmap. destruct (ENDPOINTS k !! i) as [ep|]; [|done].
      intros [= <-]. eauto. }
    split.
    - intros i ep' c msg Hi Hin. destruct (Hep _ _ Hi) as (ep & Hi0 & ->).
      apply (abort_endpoint_spec tid ep) in Hin as [Hin Hne].
      apply Hst; [done|done|]. exists (BlockedSend (Z.of_nat i)). split; [by apply (Hpend i ep c msg)|done].
    - intros i ep' Hi. destruct (Hep _ _ Hi) as (ep & Hi0 & ->). apply (abort_endpoint_spec tid ep). by apply (Hnd i).
    - intros c e Hs. assert (Hne : c <> tid) by (intros ->; congruence).
      apply Hst in Hs as (s0 & Hs0 & _ & Hf); [|done|done].
      assert (s0 = BlockedSend e) as ->.
      { unfold failed in Hf. repeat case_match; simplify_eq; done. }
      destruct (Hsend _ _ Hs0) as (ep & msg & He & Hi & Hin).
      exists (fst (abort_endpoint tid ep)), msg. split; [done|]. split.
      + rewrite HE, !list_lookup_fmap, Hi. done.
      + by apply (abort_endpoint_spec tid ep).
    - intros i ep' c Hi Hc. destruct (Hep _ _ Hi) as (ep & Hi0 & ->).
      destruct (abort_endpoint_spec tid ep) as (_ & _ & [(Ec & Es & Hct & Hstt)|[Ec _]]); [|congruence].
      rewrite Ec in Hc. assert (c <> tid) by congruence.
      apply Hst; [done|done|]. exists (BlockedCall (Z.of_nat i)). split; [by apply (Hcall i ep)|]. split; [done|]. simpl.
      rewrite bool_decide_false; [done|]. intros (_ & j & ep2 & Hj & Hc2 & Hs2)%elem_of_stranded.
      pose proof (Hcall _ _ _ Hi0 Hc). pose proof (Hcall _ _ _ Hj Hc2).
      assert (i = j) as -> by (simplify_eq; lia). congruence.
    - intros i ep' x Hi Hx. destruct (Hep _ _ Hi) as (ep & Hi0 & ->).
      destruct (abort_endpoint_spec tid ep) as (_ & _ & [(Ec & Es & Hct & Hstt)|[_ Es]]); [|congruence].
      rewrite Es in Hx. destruct (Hserv _ _ _ Hi0 Hx) as (s0 & Hs0 & Hz0).
      assert (Hf : exists s, failed (stranded tid (ENDPOINTS k)) x (Some s0) = Some s /\ is_zombie s = false).
      { unfold failed. destruct s0; try done; try (by eexists). case_bool_decide; by eexists. }
      destruct Hf as (s & Hs & Hsz). exists s. split; [|done]. apply Hst; [congruence|done|]. eauto.
    - intros i ep' Hi. destruct (Hep _ _ Hi) as (ep & Hi0 & ->).
      destruct (abort_endpoint_spec tid ep) as (_ & _ & [(-> & -> & _)|[-> ->]]); [by apply (Hboth i)|].
      split; by intros [].
  Qed.

  (** ** Phase three: the exit code *)

Lemma fate_spec run k tid code me :
    ktasks None run k -> find_task tid k = Some me ->
    let k1 := upd_task tid (with_state (Zombie code)) k in
    fate_of (t_parent me) (fst (orphan_kids (children tid (TASKS k1)) k1)) =
      match t_parent me with
      | None => Orphan
      | Some p => if bool_decide (state_of k p = Some BlockedWait) then Deliver p else Linger
      end.
  Proof.
    intros Ht Hme k1. unfold fate_of. destruct (t_parent me) as [p|] eqn:Hp; [|done].
    pose proof Hme as Hme'. apply find_task_id in Hme' as [Hid Hin].
    destruct (kt_parent _ _ _ Ht _ _ Hin Hp) as [(s & (u & Hu & Hs)%state_of_find & _) Hlt].
    rewrite orphan_kids_spec by (unfold k1; rewrite ids_upd_task by auto with redoubt; apply Ht).
    cbn [fst]. unfold find_task at 1. simpl. rewrite find_map by apply drop_parent_id.
    change (find (has_id p) (update_first (has_id tid) (with_state (Zombie code)) (TASKS k))) with (find_task p k1).
    unfold k1. rewrite find_upd_task, (proj2 (Z.eqb_neq _ _)), Hu by (auto with redoubt; lia).
    simpl. rewrite drop_parent_state. unfold state_of. rewrite Hu. simpl.
    case_bool_decide as Hb; [by simplify_eq; rewrite Hb|].
    destruct (t_state u); try done.
  Qed.

Lemma ktasks_linger run k tid t p :
    ktasks (Some tid) run k -> find_task tid k = Some t -> t_parent t = Some p ->
    state_of k p <> Some BlockedWait -> ktasks None run k.
  Proof.
    intros Ht Hf Hp Hw. destruct Ht as [Hnd ? ? ? ? ? ? Hz Hwait].
    assert (Hone : forall u, u ∈ TASKS k -> t_id u = tid -> u = t).
    { intros u Hu <-. apply find_task_elem in Hu; [congruence|done]. }
    split; try done.
    - intros u Hu Hzu. right. destruct (Hz _ Hu Hzu) as [[= Hid]|?]; [|done].
      rewrite (Hone u); congruence.
    - intros x Hx. destruct (Hwait _ Hx) as [Hk ?]. split; [|done]. intros u Hu Hup Hzu.
      exfalso. specialize (Hk _ Hu Hup Hzu) as [= Hid]. apply Hw.
      rewrite (Hone u) in Hup by done. congruence.
  Qed.

Lemma state_of_bury k tid t x :
    find_task tid k = Some t ->
    state_of (schedule_reap tid k) x = if x =? tid then None else state_of k x.
  Proof.
    intros Hf. unfold schedule_reap. rewrite Hf. unfold state_of, find_task at 1. simpl.
    rewrite find_remove_task. by destruct (x =? tid).
  Qed.

  (** Removing a zombie nobody waits for. *)
Lemma ktasks_bury dy run k k' tid t :
    ktasks dy run k -> find_task tid k = Some t -> is_zombie (t_state t) = true ->
    (dy = None \/ dy = Some tid) ->
    (forall p, t_parent t = Some p -> state_of k p <> Some BlockedWait) ->
    TASKS k' = remove_task tid (TASKS k) -> table_env k k' -> READY k' = READY k ->
    ktasks None run k'.
  Proof.
    intros Ht Hf Hzt Hdy Hnw E Henv HR.
    assert (Hst : forall x, state_of k' x = if x =? tid then None else state_of k x).
    { intros x. unfold state_of, find_task at 1. rewrite E, find_remove_task. by destruct (x =? tid). }
    pose proof Ht as [Hnd Hids Hn Htk Hrun Hready Hp Hz Hw].
    assert (Hel : forall u, u ∈ TASKS k' <-> u ∈ TASKS k /\ t_id u <> tid) by (intros; rewrite E; apply elem_of_remove_task).
    assert (Hself : state_of k tid = Some (t_state t)) by (unfold state_of; by rewrite Hf).
    split.
    - rewrite E. by apply NoDup_remove_task.
    - intros u [Hu _]%Hel. rewrite (te_tid _ _ Henv). auto.
    - rewrite (te_tid _ _ Henv), (te_slot _ _ Henv). done.
    - intros u [Hu _]%Hel. apply (task_ok_env _ _ _ Henv). auto.
    - intros x. rewrite Hst, <- Hrun. destruct (Z.eqb_spec x tid) as [->|]; [|done].
      rewrite Hself. split; [done|]. intros [= E']. by rewrite E' in Hzt.
    - intros x. rewrite Hst, HR. destruct (x =? tid); [done|auto].
    - intros u p [Hu Hne]%Hel Hup. destruct (Hp _ _ Hu Hup) as [(s & Hs & Hsz) Hlt]. split; [|done].
      exists s. split; [|done]. rewrite Hst, (proj2 (Z.eqb_neq _ _)); [done|]. intros ->. congruence.
    - intros u [Hu Hne]%Hel Hzu. right. destruct (Hz _ Hu Hzu) as [Hd|?]; [|done].
      destruct Hdy; congruence.
    - intros x. rewrite Hst. destruct (Z.eqb_spec x tid); [done|]. intros Hx.
      destruct (Hw _ Hx) as [Hk (c & Hc & Hcp)]. split.
      + intros u [Hu Hne]%Hel Hup Hzu. specialize (Hk _ Hu Hup Hzu). destruct Hdy; congruence.
      + exists c. split; [|done]. apply Hel. split; [done|]. intros Hid. apply (Hnw x); [|done].
        apply find_task_elem in Hc; [|done]. congruence.
  Qed.

Lemma kipc_bury k k' tid t :
    kipc k -> find_task tid k = Some t -> is_zombie (t_state t) = true ->
    TASKS k' = remove_task tid (TASKS k) -> ENDPOINTS k' = ENDPOINTS k -> kipc k'.
  Proof.
    intros Hk Hf Hz E EE. apply (kipc_rel k); [done| |done]. intros x.
    unfold state_of, find_task at 2. rewrite E, find_remove_task.
    destruct (Z.eqb_spec x tid) as [->|]; [|by left]. right. rewrite Hf. simpl.
    destruct (t_state t); try done. split; [done|]. split; [done|]. intros (s & [= <-] & ?). done.
  Qed.

  (** Address space and kernel stack of a task, per id. *)
Definition hw_of k (x : Z) : option (Z * Z) := (fun t => (t_cr3 t, t_kstack_top t)) <$> find_task x k.

Lemma hw_of_rest k k' x : rest_of k' x = rest_of k x -> hw_of k' x = hw_of k x.
  Proof.
    unfold rest_of, hw_of. destruct (find_task x k) as [t|], (find_task x k') as [t'|]; try done.
    simpl. intros [= _ _ Hc Ht _ _ _ _ _ _]. by rewrite Hc, Ht.
  Qed.

Lemma task_split t : t = with_state (t_state t) t.
  Proof. by destruct t. Qed.

  (** The state of every other living task after the unwinding. *)
Definition others_failed (tid : Z) k k' : Prop :=
    forall x s, x <> tid -> is_zombie s = false ->
      state_of k' x = Some s <->
      exists s0, state_of k x = Some s0 /\ is_zombie s0 = false /\
                 failed (stranded tid (ENDPOINTS k)) x (Some s0) = Some s.

Lemma exit_unwound_ok kc run k tid code me :
    ktasks None run k -> kipc k -> kmem kc k -> find_task tid k = Some me ->
    exists k4, abort_ipc_for_exiting_task tid (exit_table tid code k) = Some k4 /\
      ktasks (Some tid) (off_cpu run tid) k4 /\ kipc k4 /\ kmem kc k4 /\ ctx_same k k4 /\
      find_task tid k4 = Some (with_state (Zombie code) me) /\ others_failed tid k k4 /\
      (forall x, x <> tid -> alive (state_of k x) -> hw_of k4 x = hw_of k x).
  Proof.
    intros Ht Hi Hm Hme. unfold abort_ipc_for_exiting_task.
    pose proof (exit_table_tasks kc run k tid code me Ht Hm Hme) as Ht3.
    destruct (exit_table_spec kc run k tid code Ht Hm) as (_ & _ & Hm3 & Hctx3 & _ & _ & HE3).
    pose proof (exit_table_find kc run k tid code Ht Hm) as Hfind3.
    pose proof (exit_table_alive kc run k tid code me Ht Hm Hme) as Hal3.
    set (k3 := exit_table tid code k) in *. rewrite HE3. fold (stranded tid (ENDPOINTS k)).
    destruct (fail_all_ok (Some tid) (off_cpu run tid) (stranded tid (ENDPOINTS k))
      (set_ENDPOINTS (fst <$> (abort_endpoint tid <$> ENDPOINTS k)) k3)) as (k4 & -> & Ht4 & [C4 E4 R4 S4 T4]).
    { apply (ktasks_ext _ _ k3); try done. split; try done. simpl. by rewrite !length_fmap, HE3. }
    assert (Hself : find_task tid k4 = Some (with_state (Zombie code) me)).
    { specialize (S4 tid). specialize (T4 tid). unfold rest_of, state_of in *.
      change (find_task tid (set_ENDPOINTS _ k3)) with (find_task tid k3) in *.
      rewrite Hfind3, Hme in *. simpl in *. unfold survivor in *.
      apply find_task_id in Hme as [Hid _]. rewrite Hid, Z.eqb_refl in *. simpl in *.
      destruct (find_task tid k4) as [t4|]; [|done]. simpl in *. injection T4 as T4.
      rewrite (task_split t4), T4. injection S4 as S4. destruct t4, me; simpl in *. by simplify_eq. }
    assert (Hoth : others_failed tid k k4).
    { intros x s Hne Hs. rewrite T4. change (state_of (set_ENDPOINTS _ k3) x) with (state_of k3 x). split.
      - intros Hf. destruct (state_of k3 x) as [s0|] eqn:E0; [|done].
        assert (Hz0 : is_zombie s0 = false) by (destruct s0; try done; by injection Hf as <-).
        exists s0. split; [|done]. by apply Hal3.
      - intros (s0 & H0 & Hz0 & Hf). apply Hal3 in H0; [|done|done]. by rewrite H0. }
    exists k4. split; [done|]. split; [done|]. split; [|split; [|split; [|split; [done|split; [done|]]]]].
    - apply (abort_kipc tid k); [done|by rewrite E4|exact Hoth|]. exists code. unfold state_of. by rewrite Hself.
    - apply (kmem_ext kc k3); [exact R4|by rewrite (cs_slot _ _ C4)|by rewrite (cs_mem _ _ C4)|done].
    - etrans; [exact Hctx3|]. by destruct C4; split.
    - intros x Hne (s & (t & Hf & <-)%state_of_find & Hz). rewrite (hw_of_rest _ _ _ (S4 x)).
      unfold hw_of. change (find_task x (set_ENDPOINTS _ k3)) with (find_task x k3). rewrite Hfind3, Hf. simpl.
      unfold survivor. apply find_task_id in Hf as [-> _]. rewrite (proj2 (Z.eqb_neq _ _)) by done.
      rewrite Hz. by case_bool_decide.
  Qed.

Lemma terminate_unfold run k tid code me :
    ktasks None run k -> find_task tid k = Some me ->
    terminate_lifecycle tid code k =
      match abort_ipc_for_exiting_task tid (exit_table tid code k) with
      | None => None
      | Some k4 =>
          match t_parent me with
          | None => Some (schedule_reap tid k4)
          | Some p =>
              if bool_decide (state_of k p = Some BlockedWait) then
                match find_task p k4 with
                | None => None
                | Some pt =>
                    match write_frame (t_saved_rsp pt) (set_rax_rdi_rsi E_OK tid code) k4 with
                    | None => None
                    | Some k5 => Some (schedule_reap tid (make_ready p true (upd_task p (with_state Ready) k5)))
                    end
                end
              else Some k4
          end
      end.
  Proof.
    intros Ht Hme. pose proof (fate_spec run k tid code me Ht Hme) as Hfate.
    unfold terminate_lifecycle, exit_table. rewrite Hme. cbv zeta in *.
    destruct (orphan_kids (children tid (TASKS (upd_task tid (with_state (Zombie code)) k)))
      (upd_task tid (with_state (Zombie code)) k)) as [k2 zs]. cbn [fst snd] in *. rewrite Hfate.
    destruct (abort_ipc_for_exiting_task _ _) as [k4|]; [|done].
    destruct (t_parent me) as [p|]; [|done]. by case_bool_decide.
  Qed.

  (** What a completed termination guarantees. *)
Record terminated (kc : Z) (run : option Z) (tid : Z) k k' : Prop := {
  tm_tasks : ktasks None (off_cpu run tid) k';
  tm_ipc : kipc k';
  tm_mem : kmem kc k';
  tm_ctx : ctx_same k k';
  tm_hw : forall x, x <> tid -> alive (state_of k x) -> hw_of k' x = hw_of k x;
}.

Lemma bury_ok kc run k tid t dy :
    ktasks dy run k -> kipc k -> kmem kc k -> find_task tid k = Some t -> is_zombie (t_state t) = true ->
    (dy = None \/ dy = Some tid) -> (forall p, t_parent t = Some p -> state_of k p <> Some BlockedWait) ->
    let k' := schedule_reap tid k in
    ktasks None run k' /\ kipc k' /\ kmem kc k' /\ ctx_same k k' /\
    forall x, x <> tid -> find_task x k' = find_task x k.
  Proof.
    intros Ht Hi Hm Hf Hz Hdy Hnw.
    assert (Hm' : kmem kc (schedule_reap tid k)) by (apply schedule_reap_mem; [apply Ht|done]).
    revert Hm'. unfold schedule_reap. rewrite Hf. intros Hm'. cbn zeta.
    split; [eapply (ktasks_bury dy run k _ tid t); try done; by split|].
    split; [by eapply (kipc_bury k _ tid t)|]. split; [done|]. split; [by split|].
    intros x Hne. unfold find_task at 1. simpl. rewrite find_remove_task. by rewrite (proj2 (Z.eqb_neq _ _)).
  Qed.

Lemma terminate_ok kc run k tid code me :
    ktasks None run k -> kipc k -> kmem kc k -> find_task tid k = Some me ->
    exists k', terminate_lifecycle tid code k = Some k' /\ terminated kc run tid k k'.
  Proof.
    intros Ht Hi Hm Hme. rewrite (terminate_unfold run k tid code me Ht Hme).
    destruct (exit_unwound_ok kc run k tid code me Ht Hi Hm Hme)
      as (k4 & -> & Ht4 & Hi4 & Hm4 & Hctx & Hself & Hoth & Hhw).
    pose proof Hme as Hme'. apply find_task_id in Hme' as [Hid Hin].
    destruct (t_parent me) as [p|] eqn:Hp.
    2:{ destruct (bury_ok kc _ k4 tid _ (Some tid) Ht4 Hi4 Hm4 Hself) as (H1 & H2 & H3 & H4 & H5); [done|auto| |].
        { simpl. congruence. }
        eexists. split; [done|]. split; try done; [by etrans|].
        intros x Hne Hal. unfold hw_of at 1. rewrite H5 by done. by apply Hhw. }
    destruct (kt_parent _ _ _ Ht _ _ Hin Hp) as [(s & Hps & Hpz) Hlt].
    assert (Hpne : p <> tid) by lia.
    case_bool_decide as Hw.
    - assert (Hp4 : state_of k4 p = Some BlockedWait).
      { apply Hoth; [done|done|]. exists BlockedWait. done. }
      pose proof Hp4 as (pt & Hpt & Hpts)%state_of_find. rewrite Hpt.
      pose proof Hpt as Hpt'. apply find_task_id in Hpt' as [Hpid Hpin].
      destruct (write_frame_ok _ _ _ pt (set_rax_rdi_rsi E_OK tid code) Ht4 Hpin) as (k5 & -> & fr & -> & Hfr).
      set (k5 := make_ready p true (upd_task p (with_state Ready) (set_FRAMES fr k4))).
      assert (Ht5 : ktasks (Some tid) (off_cpu run tid) k5).
      { eapply (ktasks_set_state _ _ _ k4 _ p pt Ready); try done.
        - intros x _ _ Hx. simpl. set_solver.
        - by rewrite Hpts.
        - intros x. rewrite <- (kt_run _ _ _ Ht4 x). destruct (Z.eqb_spec x p) as [->|]; [|done].
          rewrite Hp4. naive_solver.
        - simpl. set_solver. }
      assert (Hi5 : kipc k5).
      { apply (kipc_ext (upd_task p (with_state Ready) k4)); [done|done|].
        eapply kipc_set_state; try done. by rewrite Hpts. }
      assert (Hm5 : kmem kc k5) by (apply (kmem_ext kc (upd_task p (with_state Ready) k4)); [done..|by apply kmem_set_state]).
      assert (Hself5 : find_task tid k5 = Some (with_state (Zombie code) me)).
      { change (find_task tid (upd_task p (with_state Ready) k4) = Some (with_state (Zombie code) me)).
        rewrite find_upd_task, (proj2 (Z.eqb_neq _ _)) by (auto with redoubt; lia). done. }
      destruct (bury_ok kc _ k5 tid _ (Some tid) Ht5 Hi5 Hm5 Hself5) as (H1 & H2 & H3 & H4 & H5); [done|auto| |].
      { simpl. intros q Hq. assert (q = p) as -> by congruence.
        change (state_of (upd_task p (with_state Ready) k4) p <> Some BlockedWait).
        rewrite state_of_upd_state, Z.eqb_refl, Hpt. done. }
      eexists. split; [done|]. split; try done.
      + etrans; [exact Hctx|]. etrans; [|exact H4]. by split.
      + intros x Hne Hal. unfold hw_of at 1. rewrite H5 by done.
        change (hw_of (upd_task p (with_state Ready) k4) x = hw_of k x).
        rewrite (hw_of_rest _ _ _ (rest_of_upd_state p Ready k4 x)). by apply Hhw.
    - eexists. split; [done|]. split; try done.
      eapply (ktasks_linger _ _ tid _ p); [done|done|done|]. intros Hpw. apply Hoth in Hpw; [|done|done].
      destruct Hpw as (s0 & Hs0 & _ & Hf). apply Hw. rewrite Hs0. destruct s0; try done. simpl in Hf.
      by case_bool_decide.
  Qed.
End exit.
