(* ===== verification/KernelIpc.v ===== *)
(** * IPC preserves the kernel invariant (syscall.rs: ipc_call, ipc_recv, ipc_reply) *)

From S2P Require Import Prelude RustStd Frame Caps Kernel Sched TaskOps Input Syscall ElfSafety MemLaws KernelInv KernelMem.

Section ipc.
  Context {S D : Type} `{ML : MemLaws S}.
  Implicit Types k : Kernel S D.

  (** One endpoint changes together with the states of tasks that were, and
      are, involved with no other endpoint. *)
Record ep_ok (k : Kernel S D) (i : nat) (ep : EndpointState) : Prop := {
  eo_pending : forall c msg, (c, msg) ∈ pending_callers ep -> state_of k c = Some (BlockedSend (Z.of_nat i));
  eo_nodup : NoDup (fst <$> pending_callers ep);
  eo_send : forall c, state_of k c = Some (BlockedSend (Z.of_nat i)) -> exists msg, (c, msg) ∈ pending_callers ep;
  eo_caller : forall c, active_caller ep = Some c -> state_of k c = Some (BlockedCall (Z.of_nat i));
  eo_server : forall s, active_server ep = Some s -> alive (state_of k s);
  eo_both : is_Some (active_caller ep) <-> is_Some (active_server ep);
}.

Definition only_on (i : nat) (o : option TaskState) : Prop :=
    match o with
    | Some (BlockedSend e) | Some (BlockedCall e) => e = Z.of_nat i
    | _ => True
    end.

Lemma kipc_ep_ok k i ep : kipc k -> ENDPOINTS k !! i = Some ep -> ep_ok k i ep.
  Proof.
    intros [Hp Hn Hs Hc Hv Hb] Hi. split; eauto.
    intros c Hc'. destruct (Hs _ _ Hc') as (ep' & msg & _ & Hi' & Hin). rewrite Nat2Z.id in Hi'.
    exists msg. congruence.
  Qed.

Lemma kipc_update k k' i ep ep' (changed : Z -> Prop) :
    kipc k -> ENDPOINTS k !! i = Some ep -> ENDPOINTS k' = <[i := ep']> (ENDPOINTS k) ->
    (forall x, changed x \/ state_of k' x = state_of k x) ->
    (forall x, changed x -> only_on i (state_of k x) /\ only_on i (state_of k' x) /\ alive (state_of k' x)) ->
    ep_ok k' i ep' -> kipc k'.
  Proof.
    intros Hk Hi HE Hst Hch Hok.
    assert (Hlt : (i < length (ENDPOINTS k))%nat) by (by eapply lookup_lt_Some).
    assert (Hep : forall j e, ENDPOINTS k' !! j = Some e -> (j = i /\ e = ep') \/ (j <> i /\ ENDPOINTS k !! j = Some e)).
    { intros j e. rewrite HE. destruct (decide (j = i)) as [->|].
      - rewrite list_lookup_insert_eq by done. intros [= ->]. auto.
      - rewrite list_lookup_insert_ne by done. auto. }
    assert (Hold : forall x, (exists j, j <> i /\ (state_of k x = Some (BlockedSend (Z.of_nat j)) \/
                       state_of k x = Some (BlockedCall (Z.of_nat j)))) -> state_of k' x = state_of k x).
    { intros x (j & Hne & Hx). destruct (Hst x) as [Hc|]; [|done]. destruct (Hch _ Hc) as [Ho _].
      destruct Hx as [Hx|Hx]; rewrite Hx in Ho; simpl in Ho; lia. }
    destruct Hk as [Hp Hn Hs Hc Hv Hb]. split.
    - intros j e c msg Hj Hin. destruct (Hep _ _ Hj) as [[-> ->]|[Hne Hj']]; [by eapply eo_pending|].
      rewrite Hold; eauto.
    - intros j e Hj. destruct (Hep _ _ Hj) as [[-> ->]|[Hne Hj']]; [by eapply eo_nodup|eauto].
    - intros c e He. destruct (decide (e = Z.of_nat i)) as [->|Hne].
      + destruct (eo_send _ _ _ Hok _ He) as (msg & Hin). exists ep', msg. split; [lia|].
        rewrite Nat2Z.id, HE, list_lookup_insert_eq by done. done.
      + assert (He' : state_of k c = Some (BlockedSend e)).
        { destruct (Hst c) as [Hcc|Heq]; [|congruence]. destruct (Hch _ Hcc) as (_ & Ho & _).
          rewrite He in Ho. done. }
        destruct (Hs _ _ He') as (ep0 & msg & Hpos & Hj & Hin). exists ep0, msg. split; [done|].
        rewrite HE, list_lookup_insert_ne by lia. done.
    - intros j e c Hj Hcc. destruct (Hep _ _ Hj) as [[-> ->]|[Hne Hj']]; [by eapply eo_caller|].
      rewrite Hold; eauto.
    - intros j e x Hj Hx. destruct (Hst x) as [Hcx|Heq]; [by apply Hch|].
      destruct (Hep _ _ Hj) as [[-> ->]|[Hne Hj']]; [by eapply eo_server|]. rewrite Heq. eauto.
    - intros j e Hj. destruct (Hep _ _ Hj) as [[-> ->]|[Hne Hj']]; [by eapply eo_both|eauto].
  Qed.

  (** The right of an endpoint capability: the index is in range. *)
Lemma endpoint_cap_in_range dy run k tid slot need e :
    ktasks dy run k -> get_endpoint_cap tid slot need k = Ok e ->
    0 <= e /\ exists ep, ENDPOINTS k !! Z.to_nat e = Some ep.
  Proof.
    intros Ht. unfold get_endpoint_cap. destruct (find_task tid k) as [t|] eqn:Hf; [|done].
    apply find_task_id in Hf as [_ Hin]. destruct (t_caps t !! Z.to_nat slot) as [[[e' r| |]|]|] eqn:Hs; try done.
    case_match; [|done]. intros [= ->].
    apply list_elem_of_lookup_2 in Hs. pose proof (to_caps _ _ (kt_task _ _ _ Ht _ Hin) _ _ Hs).
    split; [lia|]. apply lookup_lt_is_Some_2. lia.
  Qed.

  (** The receiver found by its state, updated by its id. *)
Lemma update_receiver e w f (ts : list Task) :
    NoDup (t_id <$> ts) -> find (receives_on e) ts = Some w ->
    update_first (receives_on e) f ts = update_first (has_id (t_id w)) f ts.
  Proof.
    induction ts as [|t ts IH]; [done|]. csimpl. intros [Ht Hnd]%NoDup_cons Hf.
    destruct (receives_on e t) eqn:Er.
    - injection Hf as ->. unfold has_id. by rewrite Z.eqb_refl.
    - unfold has_id. destruct (Z.eqb_spec (t_id t) (t_id w)) as [Heq|]; [|f_equal; by apply IH].
      exfalso. apply Ht. rewrite Heq. apply list_elem_of_fmap. exists w. split; [done|].
      by apply find_In in Hf as [? _].
  Qed.

Section calls.
  Context (kc : Z) (k : Kernel S D) (tid : Z) (t : Task).
  Context (Hinv : kinv kc k) (Hcur : CURRENT k = Some tid) (Hfind : find_task tid k = Some t).

Lemma cur_state : state_of k tid = Some Running.
  Proof. unfold state_of. rewrite Hfind. simpl. by rewrite (cur_running kc k tid t). Qed.

  (** The caller queues behind the endpoint. *)
Lemma enqueue_ok i ep msg :
    ENDPOINTS k !! i = Some ep ->
    let ep' := {| pending_callers := pending_callers ep ++ [(tid, msg)];
                  active_caller := active_caller ep; active_server := active_server ep |} in
    let k' := upd_task tid (with_state (BlockedSend (Z.of_nat i))) (set_ENDPOINTS (<[i := ep']> (ENDPOINTS k)) k) in
    ktasks None None k' /\ kipc k' /\ kmem kc k'.
  Proof.
    intros Hi ep' k'. pose proof (cur_running kc k tid t Hinv Hcur Hfind) as Hrun.
    pose proof cur_state as Hcs. split; [|split].
    - eapply (ktasks_set_state _ _ _ k _ tid t (BlockedSend (Z.of_nat i))); try done; [apply Hinv| | |by eapply run_off_cpu].
      + split; try done. simpl. by rewrite length_insert.
      + by rewrite Hrun.
    - assert (Hst : forall x, state_of k' x = if x =? tid then Some (BlockedSend (Z.of_nat i)) else state_of k x).
      { intros x. change (state_of (upd_task tid (with_state (BlockedSend (Z.of_nat i))) k) x =
          if x =? tid then Some (BlockedSend (Z.of_nat i)) else state_of k x).
        by rewrite state_of_upd_state, Hfind. }
      pose proof (kipc_ep_ok k i ep (inv_ipc _ _ Hinv) Hi) as Hok.
      assert (Hoth : forall x s, state_of k x = Some s -> s <> Running -> state_of k' x = Some s).
      { intros x s Hx Hs. rewrite Hst. destruct (Z.eqb_spec x tid) as [->|]; [congruence|done]. }
      apply (kipc_update k k' i ep ep' (fun x => x = tid)); try done; [apply Hinv|..].
      + intros x. rewrite Hst. destruct (Z.eqb_spec x tid); auto.
      + intros x ->. rewrite Hst, Z.eqb_refl, Hcs. repeat split. by eexists.
      + split; simpl.
        * intros c m [Hin|[= -> _]%list_elem_of_singleton]%elem_of_app.
          -- eapply Hoth; [by eapply eo_pending|done].
          -- by rewrite Hst, Z.eqb_refl.
        * rewrite fmap_app. apply NoDup_app. split; [by eapply eo_nodup|]. split; [|apply NoDup_singleton].
          intros x ([c m] & -> & Hin)%list_elem_of_fmap. csimpl. rewrite list_elem_of_singleton. intros ->.
          pose proof (eo_pending _ _ _ Hok _ _ Hin). congruence.
        * intros c. rewrite Hst. destruct (Z.eqb_spec c tid) as [->|].
          -- intros _. exists msg. set_solver.
          -- intros Hc. destruct (eo_send _ _ _ Hok _ Hc) as (m & ?). exists m. set_solver.
        * intros c Hc. eapply Hoth; [by eapply eo_caller|done].
        * intros x Hx. rewrite Hst. destruct (x =? tid); [by eexists|by eapply eo_server].
        * apply Hok.
    - apply (kmem_ext kc (upd_task tid (with_state (BlockedSend (Z.of_nat i))) k)); [done..|].
      apply kmem_set_state, Hinv.
  Qed.

  (** The caller's message is handed to a waiting receiver. *)
Lemma rendezvous_ok i ep w fr :
    ENDPOINTS k !! i = Some ep -> find_task (t_id w) k = Some w -> ipc_blocked (Some (t_state w)) = false ->
    is_zombie (t_state w) = false -> t_state w <> Running ->
    (forall a, is_Some (FRAMES k !! a) -> is_Some (fr !! a)) ->
    let ep' := {| pending_callers := pending_callers ep; active_caller := Some tid; active_server := Some (t_id w) |} in
    let k' := upd_task tid (with_state (BlockedCall (Z.of_nat i)))
                (set_ENDPOINTS (<[i := ep']> (ENDPOINTS k))
                  (make_ready (t_id w) true (upd_task (t_id w) (with_state Ready) (set_FRAMES fr k)))) in
    ktasks None None k' /\ kipc k' /\ kmem kc k'.
  Proof.
    intros Hi Hw Hwb Hwz Hwr Hfr ep' k'. pose proof (cur_running kc k tid t Hinv Hcur Hfind) as Hrun.
    pose proof cur_state as Hcs. assert (Hne : t_id w <> tid) by (intros E; rewrite E, Hfind in Hw; congruence).
    set (k1 := make_ready (t_id w) true (upd_task (t_id w) (with_state Ready) (set_FRAMES fr k))).
    assert (Hf1 : find_task tid k1 = Some t).
    { change (find_task tid (upd_task (t_id w) (with_state Ready) k) = Some t).
      rewrite find_upd_task, (proj2 (Z.eqb_neq _ _)) by (auto with redoubt). done. }
    assert (Ht1 : ktasks None (Some tid) k1).
    { eapply (ktasks_set_state _ _ _ k _ (t_id w) w Ready); try done; [apply Hinv|..].
      - intros x _ _ Hx. simpl. set_solver.
      - rewrite <- Hcur. by eapply run_unchanged; [apply Hinv|..].
      - simpl. set_solver. }
    split; [|split].
    - eapply (ktasks_set_state _ _ _ k1 _ tid t (BlockedCall (Z.of_nat i))); try done; [| |..].
      + split; try done. simpl. by rewrite length_insert.
      + by rewrite Hrun.
      + intros x. split; [|done]. destruct (Z.eqb_spec x tid) as [->|Hx]; [done|].
        rewrite (kt_run _ _ _ Ht1). congruence.
    - assert (Hst : forall x, state_of k' x = if x =? tid then Some (BlockedCall (Z.of_nat i))
                     else if x =? t_id w then Some Ready else state_of k x).
      { intros x. change (state_of (upd_task tid (with_state (BlockedCall (Z.of_nat i))) k1) x =
          if x =? tid then Some (BlockedCall (Z.of_nat i)) else if x =? t_id w then Some Ready else state_of k x).
        rewrite state_of_upd_state, Hf1. destruct (x =? tid); [done|].
        change (state_of (upd_task (t_id w) (with_state Ready) k) x = if x =? t_id w then Some Ready else state_of k x).
        by rewrite state_of_upd_state, Hw. }
      pose proof (kipc_ep_ok k i ep (inv_ipc _ _ Hinv) Hi) as Hok.
      assert (Hws : state_of k (t_id w) = Some (t_state w)) by (unfold state_of; by rewrite Hw).
      apply (kipc_update k k' i ep ep' (fun x => x = tid \/ x = t_id w)); try done; [apply Hinv|..].
      + intros x. rewrite Hst. destruct (Z.eqb_spec x tid), (Z.eqb_spec x (t_id w)); auto.
      + intros x [->| ->]; rewrite Hst, ?Z.eqb_refl.
        * rewrite Hcs. repeat split. by eexists.
        * rewrite (proj2 (Z.eqb_neq _ _)), Hws by done. split; [|by split; [|eexists]].
          unfold only_on. destruct (t_state w); done.
      + assert (Hsend : forall c, state_of k' c = Some (BlockedSend (Z.of_nat i)) <->
                  state_of k c = Some (BlockedSend (Z.of_nat i))).
        { intros c. rewrite Hst. destruct (Z.eqb_spec c tid) as [->|]; [rewrite Hcs; naive_solver|].
          destruct (Z.eqb_spec c (t_id w)) as [->|]; [|done]. rewrite Hws. destruct (t_state w); naive_solver. }
        split; simpl.
        * intros c m Hin. apply Hsend. by eapply eo_pending.
        * by eapply eo_nodup.
        * intros c Hc. apply (eo_send _ _ _ Hok). by apply Hsend.
        * intros c [= <-]. by rewrite Hst, Z.eqb_refl.
        * intros x [= <-]. rewrite Hst, (proj2 (Z.eqb_neq _ _)), Z.eqb_refl by done. by eexists.
        * split; intros _; by eexists.
    - apply (kmem_ext kc (upd_task tid (with_state (BlockedCall (Z.of_nat i))) (upd_task (t_id w) (with_state Ready) k))); [done..|].
      apply kmem_set_state, kmem_set_state, Hinv.
  Qed.

Lemma ipc_call_ok a0 a1 a2 a3 a4 a5 : good kc (ipc_call tid (t_saved_rsp t) a0 a1 a2 a3 a4 a5 k).
  Proof.
    unfold ipc_call. destruct (get_endpoint_cap tid a0 R_WRITE k) as [e|err] eqn:Hcap; [|by eapply return_with_ok].
    destruct (endpoint_cap_in_range _ _ _ _ _ _ _ (inv_tasks _ _ Hinv) Hcap) as (He & ep & Hep).
    unfold upd_task_or_panic at 1. rewrite Hfind, (upd_task_save tid t) by done. rewrite Hep.
    assert (Hez : Z.of_nat (Z.to_nat e) = e) by lia.
    destruct (find (receives_on e) (TASKS k)) as [w|] eqn:Hw.
    - pose proof Hw as Hw'. apply find_In in Hw' as [Hwin Hwr].
      assert (Hwf : find_task (t_id w) k = Some w) by (apply find_task_elem; [apply Hinv|done]).
      assert (Hws : exists d, t_state w = BlockedRecv e d).
      { unfold receives_on in Hwr. destruct (t_state w); try done. apply Z.eqb_eq in Hwr as ->. eauto. }
      destruct Hws as [d Hws].
      destruct (write_frame_ok _ _ _ w (set_request E_OK tid a1 a2 a3 a4 a5) (inv_tasks _ _ Hinv) Hwin)
        as (k1 & -> & fr & -> & Hfr).
      cbn [TASKS set_FRAMES]. rewrite (update_receiver e w) by (done || apply Hinv).
      destruct (rendezvous_ok (Z.to_nat e) ep w fr Hep Hwf) as (H1 & H2 & H3); try done; try (by rewrite Hws).
      rewrite Hez in *.
      match goal with |- context [upd_task_or_panic tid ?f ?kk] =>
        assert (Hf2 : find_task tid kk = Some t) end.
      { assert (Hne : tid <> t_id w).
        { intros E. pose proof (cur_running kc k _ t Hinv Hcur Hfind). rewrite <- E in Hwf. congruence. }
        change (find_task tid (upd_task (t_id w) (with_state Ready) k) = Some t).
        rewrite find_upd_task, (proj2 (Z.eqb_neq _ _)) by (auto with redoubt). done. }
      unfold upd_task_or_panic. rewrite Hf2. by apply switch_away_ok.
    - destruct (enqueue_ok (Z.to_nat e) ep [a1; a2; a3; a4; a5; 0] Hep) as (H1 & H2 & H3).
      rewrite Hez in *. unfold upd_task_or_panic, set_endpoint.
      change (find_task tid (set_ENDPOINTS _ k)) with (find_task tid k). rewrite Hfind.
      by apply switch_away_ok.
  Qed.
  (** A task other than the current one, blocked on endpoint [i], changes
      state together with the endpoint; the current task stays on the CPU. *)
Lemma endpoint_step_ok i ep ep' c tc s k' :
    ENDPOINTS k !! i = Some ep -> find_task c k = Some tc ->
    only_on i (Some (t_state tc)) -> only_on i (Some s) ->
    ipc_blocked (Some (t_state tc)) = true -> is_zombie s = false -> s <> Running -> s <> BlockedWait ->
    TASKS k' = update_first (has_id c) (with_state s) (TASKS k) ->
    ENDPOINTS k' = <[i := ep']> (ENDPOINTS k) -> table_env k k' ->
    (forall x, x ∈ READY k -> x ∈ READY k') -> (s = Ready -> c ∈ READY k') ->
    REAP_QUEUE k' = REAP_QUEUE k -> MEM k' = MEM k ->
    CURRENT k' = CURRENT k -> CR3 k' = CR3 k -> TSS_RSP0 k' = TSS_RSP0 k ->
    ep_ok k' i ep' -> kinv kc k' /\ find_task tid k' = Some t.
  Proof.
    intros Hi Hc Ho1 Ho2 Hb Hz Hr Hw ET EE Henv HR HsR EQ EM E1 E2 E3 Hok.
    assert (Hst : forall x, state_of k' x = state_of (upd_task c (with_state s) k) x).
    { apply state_of_ext. by rewrite ET. }
    assert (Hne : c <> tid).
    { intros ->. pose proof (cur_running kc k tid t Hinv Hcur Hfind) as Hrun.
      assert (tc = t) as -> by congruence. by rewrite Hrun in Hb. }
    assert (Hf' : find_task tid k' = Some t).
    { unfold find_task. rewrite ET. rewrite find_update_first by auto with redoubt.
      rewrite (proj2 (Z.eqb_neq _ _)) by done. done. }
    split; [|done]. split.
    - rewrite E1. eapply (ktasks_set_state _ _ _ k _ c tc s); try done; [apply Hinv|auto|..].
      + by destruct (t_state tc).
      + eapply run_unchanged; [apply Hinv|done| |done]. by intros E; rewrite E in Hb.
    - apply (kipc_update k k' i ep ep' (fun x => x = c)); try done; [apply Hinv|..].
      + intros x. rewrite Hst, state_of_upd_state. destruct (Z.eqb_spec x c); auto.
      + intros x ->. rewrite Hst, state_of_upd_state, Z.eqb_refl, Hc. unfold state_of. rewrite Hc. simpl.
        split; [done|]. split; [done|]. by eexists.
    - apply (kmem_ext kc (upd_task c (with_state s) k)); [|by rewrite (te_slot _ _ Henv)|done|apply kmem_set_state, Hinv].
      unfold resources. by rewrite ET, EQ.
    - pose proof (inv_cpu _ _ Hinv) as Hcpu. unfold kcpu in *. rewrite E1, Hcur, E2, E3 in *.
      destruct Hcpu as (t' & Ht' & ?). exists t'. split; [congruence|done].
  Qed.

Lemma ipc_recv_ok slot deadline : good kc (ipc_recv tid (t_saved_rsp t) slot deadline k).
  Proof.
    unfold ipc_recv. destruct (get_endpoint_cap tid slot R_READ k) as [e|err] eqn:Hcap; [|by eapply return_with_ok].
    destruct (endpoint_cap_in_range _ _ _ _ _ _ _ (inv_tasks _ _ Hinv) Hcap) as (He & ep & Hep).
    rewrite Hep. case_bool_decide as Hact; [by eapply return_with_ok|].
    pose proof (kipc_ep_ok k _ ep (inv_ipc _ _ Hinv) Hep) as Hok.
    destruct (pending_callers ep) as [|[c msg] rest] eqn:Hpend.
    { case_match; [by eapply return_with_ok|]. by eapply park_ok. }
    assert (Hez : Z.of_nat (Z.to_nat e) = e) by lia.
    assert (Hcs : state_of k c = Some (BlockedSend e)).
    { rewrite <- Hez. apply (eo_pending _ _ _ Hok c msg). rewrite Hpend. apply list_elem_of_here. }
    pose proof Hcs as (tc & Hc & Htc)%state_of_find.
    pose proof (eo_nodup _ _ _ Hok) as Hnd. rewrite Hpend in Hnd. csimpl in Hnd.
    apply NoDup_cons in Hnd as [Hcr Hnd].
    set (ep' := {| pending_callers := rest; active_caller := Some c; active_server := Some tid |}).
    set (k' := upd_task c (with_state (BlockedCall e)) (set_endpoint e ep' k)).
    assert (Hst : forall x, state_of k' x = if x =? c then Some (BlockedCall e) else state_of k x).
    { intros x. change (state_of (upd_task c (with_state (BlockedCall e)) k) x =
        if x =? c then Some (BlockedCall e) else state_of k x). by rewrite state_of_upd_state, Hc. }
    destruct (endpoint_step_ok (Z.to_nat e) ep ep' c tc (BlockedCall e) k') as [Hk' Hf']; try done;
      try (by rewrite Htc); try (rewrite ?Htc; simpl; lia).
    - split; try done. simpl. by rewrite length_insert.
    - rewrite <- Hez in Hcs, Hst. split; simpl.
      + intros x m Hin. rewrite Hst. destruct (Z.eqb_spec x c) as [->|].
        * exfalso. apply Hcr. apply list_elem_of_fmap. by exists (c, m).
        * apply (eo_pending _ _ _ Hok x m). rewrite Hpend. by apply list_elem_of_further.
      + done.
      + intros x. rewrite Hst. destruct (Z.eqb_spec x c) as [->|]; [done|]. intros Hx.
        destruct (eo_send _ _ _ Hok _ Hx) as (m & Hin). rewrite Hpend in Hin.
        apply elem_of_cons in Hin as [[= -> ->]|Hin]; [done|]. eauto.
      + intros x [= <-]. by rewrite Hst, Z.eqb_refl.
      + intros x [= <-]. rewrite Hst, cur_state. destruct (tid =? c); by eexists.
      + split; intros _; by eexists.
    - by eapply return_with_ok.
  Qed.

Lemma ipc_reply_ok a0 a1 a2 a3 a4 a5 : good kc (ipc_reply tid (t_saved_rsp t) a0 a1 a2 a3 a4 a5 k).
  Proof.
    unfold ipc_reply. destruct (get_endpoint_cap tid a0 R_WRITE k) as [e|err] eqn:Hcap; [|by eapply return_with_ok].
    destruct (endpoint_cap_in_range _ _ _ _ _ _ _ (inv_tasks _ _ Hinv) Hcap) as (He & ep & Hep).
    rewrite Hep. pose proof (kipc_ep_ok k _ ep (inv_ipc _ _ Hinv) Hep) as Hok.
    case_bool_decide as Hact; [|by eapply return_with_ok].
    destruct (proj2 (eo_both _ _ _ Hok)) as [c Hca]; [rewrite Hact; by eexists|]. rewrite Hca.
    assert (Hez : Z.of_nat (Z.to_nat e) = e) by lia.
    pose proof (eo_caller _ _ _ Hok _ Hca) as Hcs. pose proof Hcs as (tc & Hc & Htc)%state_of_find.
    change (find_task c (set_endpoint e _ k)) with (find_task c k). rewrite Hc.
    set (ep' := {| pending_callers := pending_callers ep; active_caller := None; active_server := None |}).
    pose proof Hc as Hc'. apply find_task_id in Hc' as [Hcid Hcin].
    destruct (write_frame_ok _ _ _ tc (set_reply E_OK a1 a2 a3 a4 a5) (inv_tasks _ _ Hinv) Hcin) as (k1 & Hwf & fr & -> & Hfr).
    assert (Hwf' : write_frame (t_saved_rsp tc) (set_reply E_OK a1 a2 a3 a4 a5) (set_endpoint e ep' k) =
              Some (set_FRAMES fr (set_endpoint e ep' k))).
    { unfold write_frame in *. simpl. destruct (FRAMES k !! t_saved_rsp tc); [|done]. injection Hwf as ->. done. }
    rewrite Hwf'. set (k' := make_ready c true (upd_task c (with_state Ready) (set_FRAMES fr (set_endpoint e ep' k)))).
    assert (Hst : forall x, state_of k' x = if x =? c then Some Ready else state_of k x).
    { intros x. change (state_of (upd_task c (with_state Ready) k) x = if x =? c then Some Ready else state_of k x).
      by rewrite state_of_upd_state, Hc. }
    destruct (endpoint_step_ok (Z.to_nat e) ep ep' c tc Ready k') as [Hk' Hf']; try done;
      try (by rewrite Htc).
    - split; try done. simpl. by rewrite length_insert.
    - intros x Hx. simpl. set_solver.
    - intros _. simpl. set_solver.
    - split; simpl; [..|done|done|].
      + intros x m Hin. rewrite Hst. pose proof (eo_pending _ _ _ Hok _ _ Hin).
        destruct (Z.eqb_spec x c) as [->|]; [congruence|done].
      + by eapply eo_nodup.
      + intros x. rewrite Hst. destruct (Z.eqb_spec x c) as [->|]; [done|]. by apply (eo_send _ _ _ Hok).
      + split; by intros [].
    - by eapply return_with_ok.
  Qed.
End calls.
End ipc.
