(* ===== verification/KernelSafety.v ===== *)
(** * No trap can break or stop the kernel

    Every system call, every fault, the timer and the keyboard: from a state
    that satisfies the kernel invariant the handler returns (no [unwrap] on a
    missing task, no write through a dead frame pointer, no double free, no
    index out of range), the invariant holds again and the stub resumes the
    frame of the task on the CPU. *)

From S2P Require Import Prelude RustStd Frame Caps Kernel Sched TaskOps Input Syscall ElfSafety MemLaws KernelInv KernelMem KernelSpawn KernelExit KernelIpc.

Section safety.
  Context {S D : Type} `{ML : MemLaws S} `{DiskOps D} `{Uninit}.
  Implicit Types k : Kernel S D.

  (** ** User memory *)

Definition mem_inv (kc : Z) k (m : S) : Prop :=
    mem_ok kc (res_spaces (resources k)) (res_stacks (resources k)) ∅ m.

Lemma kinv_mem kc k m : kinv kc k -> mem_inv kc k m -> kinv kc (set_MEM m k).
  Proof.
    intros [Ht Hi [? ? ? _] Hc] Hm. split; [by apply (ktasks_ext None (CURRENT k) k); [|split|..]|by apply (kipc_ext k)| |done].
    by split.
  Qed.

Lemma task_space dy run k t : ktasks dy run k -> t ∈ TASKS k -> t_cr3 t ∈ res_spaces (resources k).
  Proof.
    intros _ Hin. unfold res_spaces, resources. rewrite elem_of_list_to_set, fmap_app, elem_of_app. left.
    rewrite <- list_fmap_compose. apply list_elem_of_fmap. by exists t.
  Qed.

Lemma read_user_spec kc k cr3 n : forall va m bs,
    mem_inv kc k m -> read_user cr3 va n m = Some bs -> length bs = n /\ bytes_ok bs.
  Proof.
    induction n as [|n IH]; intros va m bs Hm; simpl; [by intros [= <-]|].
    destruct (translate m cr3 va); [|done]. destruct (read_user cr3 (va + 1) n m) as [bs'|] eqn:E; [|done].
    intros [= <-]. destruct (IH _ _ _ Hm E) as [<- Hb]. split; [done|]. constructor; [|done].
    by eapply law_read.
  Qed.

Lemma user_range_spec a n :
    fits 64 a -> user_range_valid a n = true -> 0 <= a /\ a + n <= USER_STACK_TOP.
  Proof.
    unfold user_range_valid. intros Ha. destruct (checked_add64 a n) as [e|] eqn:E; [|done].
    apply checked_add64_Some in E as [-> _]. intros. bool_facts. red in Ha. lia.
  Qed.

Lemma copy_to_user_ok kc k c dst src :
    kinv kc k -> c ∈ res_spaces (resources k) -> fits 64 dst ->
    mem_inv kc k (snd (copy_to_user c dst src (MEM k))).
  Proof.
    intros Hk Hc Hd. unfold copy_to_user. pose proof (ow_ok _ _ _ _ (inv_mem _ _ Hk)) as Hm.
    destruct (user_range_valid dst (Z.of_nat (length src))) eqn:E; simpl; [|done].
    apply user_range_spec in E as [? ?]; [|done]. by apply copy_bytes_ok.
  Qed.

Lemma fill_ok kc k c buf len q : forall w m,
    c ∈ res_spaces (resources k) -> 0 <= buf -> buf + len <= USER_STACK_TOP -> 0 <= w ->
    mem_inv kc k m -> mem_inv kc k (snd (fill c buf w len q m)).
  Proof.
    induction q as [|b q IH]; intros w m Hc Hb Hl Hw Hm; simpl; [done|].
    destruct (Z.ltb_spec w len); [|done]. destruct (translate m c (buf + w)) as [pa|] eqn:E; [|done].
    apply IH; try done; [lia|]. eapply law_write; try done. lia.
  Qed.

  (** ** Handlers that stay with the caller *)

Section current.
  Context (kc : Z) (k : Kernel S D) (tid : Z) (t : Task).
  Context (Hinv : kinv kc k) (Hcur : CURRENT k = Some tid) (Hfind : find_task tid k = Some t).

Lemma cr3_current : CR3 k = t_cr3 t /\ t_cr3 t ∈ res_spaces (resources k).
  Proof.
    pose proof (inv_cpu _ _ Hinv) as Hc. unfold kcpu in Hc. rewrite Hcur in Hc.
    destruct Hc as (t' & Hf & -> & _). assert (t' = t) as -> by congruence. split; [done|].
    eapply task_space; [apply Hinv|]. by apply find_task_id in Hfind as [_ ?].
  Qed.

  (** The same after changing memory, console, queue or disk. *)
Lemma return_mem_ok f m :
    mem_inv kc k m -> good kc (return_with (t_saved_rsp t) f (set_MEM m k)).
  Proof. intros Hm. eapply return_with_ok; [by apply kinv_mem|done|done]. Qed.

Lemma kinv_console s : kinv kc (set_CONSOLE s k).
  Proof.
    destruct Hinv as [Ht Hi Hm Hc]. split; [by apply (ktasks_ext None (CURRENT k) k); [|split|..]|by apply (kipc_ext k)|done|done].
  Qed.

Lemma debug_write_ok buf len raw : good kc (sys_debug_write (t_saved_rsp t) tid buf len raw k).
  Proof.
    unfold sys_debug_write. destruct (copy_from_user _ _ _ _); [|by eapply return_with_ok].
    unfold kprint_raw. repeat case_match; (eapply return_with_ok; [apply kinv_console|done|done]).
  Qed.

Lemma yield_ok : good kc (yield_task tid (t_saved_rsp t) k).
  Proof.
    unfold yield_task, pick_next.
    pose proof (pick_loop_spec (TASKS k) (Some tid) (READY k) []) as Hp.
    destruct (pick_loop _ _ _ _) as [[n q]|].
    - destruct Hp as (_ & Hr & Hq). rewrite app_nil_r in Hq.
      eapply hand_over_ok; try done. apply is_ready_state; [apply Hinv|done].
    - eexists _, _. split; [done|]. right. destruct Hinv as [Ht Hi Hm Hc]. split; [split; try done|].
      + destruct Ht as [Hnd Hids Hn Htk Hrun Hready Hpar Hz Hw]. split; try done.
        { intros u Hin. apply (task_ok_env k); [by split|auto]. }
        intros x Hx. exfalso. destruct (Hp x (Hready x Hx)) as [[= ->]|Hr].
        * assert (Hrn : state_of k tid = Some Running) by (by apply Hrun). unfold state_of in *. simpl in *.
          change (find_task tid (set_READY [] k)) with (find_task tid k) in Hx. congruence.
        * apply not_true_iff_false in Hr. apply Hr. by apply is_ready_state.
      + by apply (kipc_ext k).
      + unfold ctrl_ok. simpl. rewrite Hcur. by exists t.
  Qed.

Lemma sleep_ok delta : good kc (sys_sleep tid (t_saved_rsp t) delta k).
  Proof. unfold sys_sleep. case_match; [by eapply return_with_ok|]. by eapply park_ok. Qed.

  (** ** Waiting *)

Lemma zombie_child_spec z :
    zombie_child tid (TASKS k) = Some z ->
    exists u, find_task z k = Some u /\ t_parent u = Some tid /\ exists code, t_state u = Zombie code.
  Proof.
    unfold zombie_child. intros (u & Hf & ->)%fmap_Some. apply find_In in Hf as [Hin Hz].
    apply list_elem_of_In, filter_In in Hin as [Hin%list_elem_of_In Hp%bool_decide_eq_true].
    exists u. split; [apply find_task_elem; [apply Hinv|done]|]. split; [done|].
    destruct (t_state u); try done. by eexists.
  Qed.

Lemma reap_zombie_ok z :
    zombie_child tid (TASKS k) = Some z ->
    exists code k', reap_zombie z k = Some (Some code, k') /\ kinv kc k' /\ CURRENT k' = Some tid /\
      find_task tid k' = Some t /\ state_of k z = Some (Zombie code).
  Proof.
    intros (u & Hu & Hup & code & Hus)%zombie_child_spec. unfold reap_zombie. rewrite Hu, Hus.
    pose proof (inv_tasks _ _ Hinv) as Ht. pose proof (kt_nodup _ _ _ Ht) as Hnd.
    rewrite remove_first_task by done.
    destruct (reclaim_ok kc (NEXT_KSTACK_SLOT k) (snapshot u)
      ((snapshot <$> remove_task z (TASKS k)) ++ REAP_QUEUE k) (set_TASKS (remove_task z (TASKS k)) k))
      as (m & -> & Hown).
    { simpl. rewrite <- (resources_remove z u k Hnd Hu). apply Hinv. }
    assert (Hne : z <> tid).
    { intros ->. pose proof (cur_running kc k tid t Hinv Hcur Hfind). congruence. }
    assert (Hf' : find (has_id tid) (remove_task z (TASKS k)) = Some t).
    { rewrite find_remove_task, (proj2 (Z.eqb_neq _ _)) by done. done. }
    exists code. eexists. split; [done|].
    split; [|split; [done|split; [exact Hf'|unfold state_of; by rewrite Hu; simpl; rewrite Hus]]]. split.
    - assert (Hkeys : forall v, v ∈ remove_task z (TASKS k) -> t_saved_rsp v <> frame_key (snapshot u)).
      { intros v [Hv Hvz]%elem_of_remove_task Heq.
        rewrite (frame_key_task k v) in Heq by (by apply Ht). apply frame_key_inj in Heq.
        pose proof (ow_base _ _ _ _ (inv_mem _ _ Hinv)) as Hb.
        rewrite (resources_remove z u k Hnd Hu) in Hb. csimpl in Hb. apply NoDup_cons in Hb as [Hb _].
        apply Hb. simpl in Heq. rewrite <- Heq, fmap_app, elem_of_app. left. rewrite <- list_fmap_compose.
        apply list_elem_of_fmap. exists v. split; [done|]. by apply elem_of_remove_task. }
      assert (Htb : ktasks None (CURRENT k) (set_TASKS (remove_task z (TASKS k)) k)).
      { apply (ktasks_bury None _ k _ z u); try done; [by rewrite Hus|by left|].
        intros p Hp. rewrite Hup in Hp. injection Hp as <-. rewrite (cur_state kc k tid t) by done. done. }
      destruct Htb as [? ? ? Htk ? ? ? ? ?]. split; try done.
      intros v Hv. destruct (Htk v Hv) as [? ? Hfr ? ?]. split; try done. simpl in *.
      by rewrite lookup_delete_ne by (apply not_eq_sym, Hkeys, Hv).
    - eapply (kipc_bury k _ z u); try done; [apply Hinv|by rewrite Hus].
    - exact Hown.
    - pose proof (inv_cpu _ _ Hinv) as Hc. unfold kcpu in *. simpl. rewrite Hcur in *.
      destruct Hc as (t' & Ht' & Hc'). assert (t' = t) as -> by congruence. by exists t.
  Qed.

Lemma wait_ok flags : good kc (sys_wait tid (t_saved_rsp t) flags k).
  Proof.
    unfold sys_wait. destruct (zombie_child tid (TASKS k)) as [z|] eqn:Ez.
    - destruct (reap_zombie_ok z Ez) as (code & k' & -> & Hk' & Hc' & Hf' & _). by eapply return_with_ok.
    - destruct (has_living_child tid (TASKS k)) eqn:El; simpl; [|by eapply return_with_ok].
      case_match; [by eapply return_with_ok|]. eapply park_ok; try done. intros _. split.
      + intros c Hc Hcp. unfold zombie_child in Ez. apply fmap_None, find_None_Forall in Ez.
        rewrite Forall_forall in Ez. apply Ez. apply list_elem_of_In, filter_In.
        rewrite <- list_elem_of_In. split; [done|]. by apply bool_decide_eq_true.
      + unfold has_living_child in El. apply existsb_exists in El as (c & Hc%list_elem_of_In & Hp).
        apply andb_true_iff in Hp as [Hp%bool_decide_eq_true _]. eauto.
  Qed.

  (** ** Termination *)

Lemma exit_ok code : good kc (exit_task tid code k).
  Proof.
    unfold exit_task.
    destruct (terminate_ok kc (CURRENT k) k tid code t) as (k' & -> & [Ht Hi Hm _ _]); try apply Hinv; [done|].
    unfold off_cpu in Ht. rewrite bool_decide_true in Ht by done. by apply switch_away_ok.
  Qed.

Lemma kill_ok victim : good kc (sys_kill (t_saved_rsp t) tid victim k).
  Proof.
    unfold sys_kill. destruct (Z.eqb_spec victim tid) as [|Hne]; [by eapply return_with_ok|].
    destruct (existsb _ _) eqn:Ex; simpl; [|by eapply return_with_ok].
    apply existsb_exists in Ex as (v & Hv%list_elem_of_In & [Hid _]%andb_true_iff). apply Z.eqb_eq in Hid.
    assert (Hfv : find_task victim k = Some v) by (rewrite <- Hid; apply find_task_elem; [apply Hinv|done]).
    destruct (terminate_ok kc (CURRENT k) k victim 0x200 v) as (k' & -> & [Ht Hi Hm Hctx Hhw]); try apply Hinv; [done|].
    unfold off_cpu in Ht. rewrite bool_decide_false in Ht by congruence.
    assert (Hal : alive (state_of k tid)) by (rewrite (cur_state kc k tid t) by done; by eexists).
    specialize (Hhw tid ltac:(done) Hal). unfold hw_of in Hhw. rewrite Hfind in Hhw. simpl in Hhw.
    destruct (find_task tid k') as [t'|] eqn:Hf'; [|done]. simpl in Hhw. injection Hhw as Hcr Htop.
    assert (Hc' : CURRENT k' = Some tid) by (by rewrite (cs_current _ _ Hctx)).
    assert (Hk' : kinv kc k').
    { split; [by rewrite Hc', <- Hcur|done|done|]. unfold kcpu. rewrite Hc'. exists t'. split; [done|].
      rewrite (cs_cr3 _ _ Hctx), (cs_rsp0 _ _ Hctx). pose proof (inv_cpu _ _ Hinv) as Hc.
      unfold kcpu in Hc. rewrite Hcur in Hc. destruct Hc as (t0 & Ht0 & ? & ?). split; congruence. }
    replace (t_saved_rsp t) with (t_saved_rsp t'); [by eapply return_with_ok|].
    apply find_task_id in Hf' as [_ Hin']. pose proof Hfind as Hfind'. apply find_task_id in Hfind' as [_ Hin].
    rewrite (to_rsp _ _ (kt_task _ _ _ Ht _ Hin')), (to_rsp _ _ (kt_task _ _ _ (inv_tasks _ _ Hinv) _ Hin)). congruence.
  Qed.

  (** ** Keyboard reads *)

Lemma kinv_queue q m : mem_inv kc k m -> kinv kc (set_MEM m (set_QUEUE q k)).
  Proof.
    intros Hm. destruct (kinv_mem kc k m Hinv Hm) as [Ht Hi Hmm Hc].
    split; [|by apply (kipc_ext (set_MEM m k))|done|done].
    by apply (ktasks_ext None (CURRENT k) (set_MEM m k)); [|split|..].
  Qed.

Lemma fill_current buf len w q m n :
    fits 64 buf -> user_range_valid buf len = true ->
    fill (t_cr3 t) buf 0 len (QUEUE k) (MEM k) = (n, q, m) -> w = m -> kinv kc (set_MEM w (set_QUEUE q k)).
  Proof.
    intros Hb Hr Hf ->. apply user_range_spec in Hr as [? ?]; [|done]. apply kinv_queue.
    replace m with (snd (fill (t_cr3 t) buf 0 len (QUEUE k) (MEM k))) by (by rewrite Hf).
    apply fill_ok; try done; [apply cr3_current|apply (ow_ok _ _ _ _ (inv_mem _ _ Hinv))].
  Qed.

Lemma input_read_ok a0 a1 a2 : fits 64 a0 -> good kc (sys_input_read tid (t_saved_rsp t) a0 a1 a2 k).
  Proof.
    intros Ha0. unfold sys_input_read. rewrite Hfind. set (len := Z.min a1 MAX_READ). case_match.
    - unfold try_read. destruct (_ || _) eqn:Eb; [by eapply return_with_ok|]. bool_facts.
      destruct (fill _ _ _ _ _ _) as [[n q] m] eqn:Ef.
      eapply return_with_ok; [|done|done]. by eapply fill_current.
    - unfold request_read. destruct (_ || _) eqn:Eb; [by eapply return_with_ok|]. bool_facts.
      destruct (translate _ _ _); [|by eapply return_with_ok].
      destruct (QUEUE k) as [|b q0] eqn:Eq.
      + eapply (park_ok kc (set_WAITERS _ k)); try done. destruct Hinv as [Ht Hi Hm Hc].
        split; [|by apply (kipc_ext k)|done|done]. by apply (ktasks_ext None (CURRENT k) k); [|split|..].
      + destruct (fill _ _ _ _ _ _) as [[n q] m] eqn:Ef. rewrite <- Eq in Ef.
        eapply return_with_ok; [|done|done]. by eapply fill_current.
  Qed.

  (** ** Capabilities and names: the task changes, but nothing the scheduler
      or the endpoints look at *)

Record inert (f : Task -> Task) : Prop := {
  in_id : keeps_id f;
  in_state : forall u, t_state (f u) = t_state u;
  in_parent : forall u, t_parent (f u) = t_parent u;
  in_rsp : forall u, t_saved_rsp (f u) = t_saved_rsp u;
  in_top : forall u, t_kstack_top (f u) = t_kstack_top u;
  in_cr3 : forall u, t_cr3 (f u) = t_cr3 u;
  in_snap : forall u, snapshot (f u) = snapshot u;
}.

Lemma kinv_inert f :
    inert f -> length (t_caps (f t)) = CAP_TABLE_SIZE ->
    (forall e r, Some (Endpoint e r) ∈ t_caps (f t) -> 0 <= e < Z.of_nat (length (ENDPOINTS k))) ->
    kinv kc (upd_task tid f k).
  Proof.
    intros [Hid Hs Hp Hr Htop Hc Hsn] Hlen Hcaps. pose proof Hinv as [Ht Hi Hm Hcpu].
    pose proof (kt_nodup _ _ _ Ht) as Hnd.
    assert (Hst : forall x, state_of (upd_task tid f k) x = state_of k x).
    { intros x. unfold state_of. rewrite find_upd_task by done. destruct (Z.eqb_spec x tid) as [->|]; [|done].
      destruct (find_task tid k); [simpl; by rewrite Hs|done]. }
    assert (Hel : forall u', u' ∈ TASKS (upd_task tid f k) <->
              exists u, u ∈ TASKS k /\ u' = if t_id u =? tid then f u else u).
    { intros u'. unfold upd_task. simpl. rewrite update_first_map by done. rewrite list_elem_of_fmap. naive_solver. }
    assert (Hmap : forall {B} (g : Task -> B), (forall u, g (f u) = g u) -> forall u : Task, g (if t_id u =? tid then f u else u) = g u).
    { intros B g Hg u. by destruct (t_id u =? tid). }
    destruct Ht as [_ Hids Hn Htk Hrun Hready Hpar Hz Hw]. split.
    - split; try done.
      + by rewrite ids_upd_task.
      + intros u' (u & Hu & ->)%Hel. rewrite (Hmap _ t_id Hid). by apply Hids.
      + intros u' (u & Hu & ->)%Hel. destruct (Htk _ Hu) as [? ? ? ? ?].
        assert (Hbase : t_kstack_base_va (f u) = t_kstack_base_va u) by (specialize (Hsn u); by injection Hsn).
        destruct (Z.eqb_spec (t_id u) tid) as [Hut|]; [|by split].
        assert (u = t) as -> by (apply (find_task_elem k) in Hu; [congruence|done]).
        split; rewrite ?Hr, ?Htop, ?Hbase; done.
      + intros x. rewrite Hst. apply Hrun.
      + intros x. rewrite Hst. apply Hready.
      + intros u' p (u & Hu & ->)%Hel. rewrite (Hmap _ t_parent Hp), (Hmap _ t_id Hid), Hst. by apply Hpar.
      + intros u' (u & Hu & ->)%Hel. rewrite (Hmap _ t_parent Hp), (Hmap _ t_id Hid), (Hmap _ t_state Hs). by apply Hz.
      + intros x. rewrite Hst. intros Hx. destruct (Hw _ Hx) as [Hk (c & Hcin & Hcp)]. split.
        * intros u' (u & Hu & ->)%Hel. rewrite (Hmap _ t_parent Hp), (Hmap _ t_id Hid), (Hmap _ t_state Hs). by apply Hk.
        * eexists. split; [apply Hel; by exists c|]. by rewrite (Hmap _ t_parent Hp).
    - apply (kipc_rel k); [done| |done]. intros x. left. apply Hst.
    - apply (kmem_ext kc k); [|done|done|done]. unfold resources, upd_task. simpl. f_equal. by apply update_first_fmap.
    - unfold kcpu in *. simpl. rewrite Hcur in *. destruct Hcpu as (t' & Ht' & Hcr & Htp).
      exists (f t'). rewrite find_upd_task, Z.eqb_refl, Ht' by done. split; [done|]. by rewrite Hc, Htop.
  Qed.

Lemma inert_return_ok f g :
    inert f -> length (t_caps (f t)) = CAP_TABLE_SIZE ->
    (forall e r, Some (Endpoint e r) ∈ t_caps (f t) -> 0 <= e < Z.of_nat (length (ENDPOINTS k))) ->
    good kc (return_with (t_saved_rsp t) g (upd_task tid f k)).
  Proof.
    intros Hf Hl Hc. rewrite <- (in_rsp f Hf t). eapply return_with_ok; [by apply kinv_inert|done|].
    rewrite find_upd_task by apply Hf. by rewrite Z.eqb_refl, Hfind.
  Qed.

Lemma cur_task_ok : task_ok k t.
  Proof. apply (kt_task _ _ _ (inv_tasks _ _ Hinv)). by apply find_task_id in Hfind as [_ ?]. Qed.

Lemma cap_derive_ok a0 a1 a2 a3 : good kc (sys_cap_derive (t_saved_rsp t) tid a0 a1 a2 a3 k).
  Proof.
    unfold sys_cap_derive. rewrite Hfind. destruct (cap_derive t a0 a1 a2 a3) as [[slot d]|e] eqn:Ed; [|by eapply return_with_ok].
    pose proof cur_task_ok as Htk. apply inert_return_ok; [by split|simpl; rewrite length_insert; apply Htk|].
    simpl. intros e r Hin. unfold cap_derive in Ed. destruct (grantable t a0 a1) as [[src nr]|] eqn:Eg; [|done].
    destruct (derived_cap src nr a2 a3) as [d'|] eqn:Edd; [|done]. destruct (free_cap_slot _) as [sl|] eqn:Es; [|done].
    injection Ed as <- <-.
    assert (Hsrc : Some src ∈ t_caps t).
    { unfold grantable in Eg. destruct (t_caps t !! Z.to_nat a0) as [[c|]|] eqn:El; try done.
      repeat case_match; simplify_eq. by eapply list_elem_of_lookup_2. }
    apply list_elem_of_lookup in Hin as [j Hj]. destruct (decide (j = sl)) as [->|Hne].
    - rewrite list_lookup_insert_eq in Hj by (apply free_cap_slot_Some in Es as [Es _]; by eapply lookup_lt_Some).
      injection Hj as ->. destruct src as [e' r'| |]; simpl in Edd; repeat case_match; simplify_eq.
      by eapply (to_caps _ _ Htk).
    - rewrite list_lookup_insert_ne in Hj by done. apply (to_caps _ _ Htk e r). by eapply list_elem_of_lookup_2.
  Qed.

Lemma set_name_ok buf len : good kc (sys_set_name (t_saved_rsp t) tid buf len k).
  Proof.
    unfold sys_set_name. destruct (copy_from_user _ _ _ _); [|by eapply return_with_ok].
    apply inert_return_ok; [by split|apply cur_task_ok|]. apply (to_caps _ _ cur_task_ok).
  Qed.

  (** ** Spawn *)

Lemma derive_for_child_range slot mask e r :
    derive_for_child tid slot mask k = Ok (Endpoint e r) -> 0 <= e < Z.of_nat (length (ENDPOINTS k)).
  Proof.
    unfold derive_for_child. rewrite Hfind. destruct (grantable t slot mask) as [[src nr]|] eqn:Eg; [|done].
    unfold grantable in Eg. destruct (t_caps t !! Z.to_nat slot) as [[c|]|] eqn:El; try done.
    repeat case_match; simplify_eq. intros [= Hw]. destruct src; try done. simpl in Hw. injection Hw as -> _.
    eapply (to_caps _ _ cur_task_ok). by eapply list_elem_of_lookup_2.
  Qed.

Lemma derive_all_range pairs : forall cs e r,
    derive_all tid pairs k = Ok cs -> Endpoint e r ∈ cs -> 0 <= e < Z.of_nat (length (ENDPOINTS k)).
  Proof.
    induction pairs as [|p pairs IH]; intros cs e r; cbn [derive_all].
    - intros [= <-] Hin. by apply not_elem_of_nil in Hin.
    - destruct (derive_for_child _ _ _ _) as [c|] eqn:Ed; [|done]. destruct (derive_all tid pairs k) as [cs'|]; [|done].
      intros [= <-] [<-|Hin]%elem_of_cons; [by eapply derive_for_child_range|by eapply IH].
  Qed.

Lemma task_spawn_ok a0 a1 a2 a3 :
    NEXT_KSTACK_SLOT k + 1 < 2 ^ 64 -> good kc (sys_task_spawn (t_saved_rsp t) tid a0 a1 a2 a3 k).
  Proof.
    intros Hslot. unfold sys_task_spawn. destruct (_ || _) eqn:Eb; [by eapply return_with_ok|]. bool_facts.
    case_match; [by eapply return_with_ok|].
    destruct (copy_from_user (CR3 k) a0 a1 (MEM k)) as [elf|] eqn:Ec; [|by eapply return_with_ok].
    destruct (if 0 <? a3 then _ else _) as [spec|]; [|by eapply return_with_ok].
    destruct (derive_all tid (chunks 16 spec) k) as [cs|e] eqn:Ed; [|by eapply return_with_ok].
    pose proof (ow_ok _ _ _ _ (inv_mem _ _ Hinv)) as Hm. pose proof cr3_current as [Hcr Hsp].
    destruct (spawn_user_ok kc (CURRENT k) k elf (str "user") cs (Some tid))
      as (r & k' & -> & Ht' & Hi' & Hm' & [Fc Fcr Fr _ _ _ Ff]); try apply Hinv; [done|..].
    - left. by rewrite Hcr.
    - unfold copy_from_user in Ec. case_match; [done|]. apply (read_user_spec kc k) in Ec as [Hl Hb]; [|done].
      split; [done|]. rewrite Hl. unfold MAX_SPAWN_ELF in *. lia.
    - intros e r. by apply (derive_all_range (chunks 16 spec)).
    - intros p [= <-]. rewrite (cur_state kc k tid t) by done. by eexists.
    - assert (Hk' : kinv kc k').
      { split; [by rewrite Fc|done|done|]. unfold kcpu. rewrite Fc, Fcr, Fr, Hcur. exists t.
        split; [by apply Ff|]. pose proof (inv_cpu _ _ Hinv) as Hc. unfold kcpu in Hc. rewrite Hcur in Hc.
        destruct Hc as (t0 & Ht0 & ? & ?). split; congruence. }
      destruct r; (eapply return_with_ok; [exact Hk'|by rewrite Fc|by apply Ff]).
  Qed.

  (** ** Copies out *)

Lemma stats_ok buf len : fits 64 buf -> good kc (sys_stats (t_saved_rsp t) tid buf len k).
  Proof.
    intros Hb. unfold sys_stats. case_match; [by eapply return_with_ok|].
    pose proof (copy_to_user_ok kc k (CR3 k) buf (stats_record tid k) Hinv) as Hc.
    destruct cr3_current as [Hcr Hsp]. rewrite Hcr in *. specialize (Hc Hsp Hb).
    destruct (copy_to_user _ _ _ _) as [ok m]. by apply return_mem_ok.
  Qed.

Lemma kinv_disk d : kinv kc (set_DISK d k).
  Proof.
    destruct Hinv as [Ht Hi Hm Hc]. split; [by apply (ktasks_ext None (CURRENT k) k); [|split|..]|by apply (kipc_ext k)|done|done].
  Qed.

Lemma block_io_ok a0 a1 a2 a3 w : fits 64 a3 -> good kc (block_io (t_saved_rsp t) tid a0 a1 a2 a3 w k).
  Proof.
    intros Hb. unfold block_io. case_match; [by eapply return_with_ok|].
    destruct (locate_block tid a0 k) as [[disk base]|]; [|by eapply return_with_ok].
    destruct (check_block_cap _ _ _ _ _ _ _); [|by eapply return_with_ok].
    destruct (checked_add64 base a1) as [lba|]; [|by eapply return_with_ok]. destruct w.
    - case_match; [by eapply return_with_ok|]. destruct (copy_from_user _ _ _ _) as [data|]; [|by eapply return_with_ok].
      destruct (write_sectors _ _ _ _ _) as [ok d].
      eapply return_with_ok; [apply kinv_disk|done|done].
    - destruct (read_sectors _ _ _ _) as [data|]; [|by eapply return_with_ok].
      pose proof (copy_to_user_ok kc k (CR3 k) a3 data Hinv) as Hc.
      destruct cr3_current as [Hcr Hsp]. rewrite Hcr in *. specialize (Hc Hsp Hb).
      destruct (copy_to_user _ _ _ _) as [ok m]. by apply return_mem_ok.
  Qed.

  (** ** The dispatcher *)

Definition regs_ok (f : TrapFrame) : Prop :=
    Forall (fits 64) [rax f; rdi f; rsi f; rdx f; r10 f; r8 f; r9 f].

Lemma dispatch_ok f :
    FRAMES k !! t_saved_rsp t = Some f -> regs_ok f -> NEXT_KSTACK_SLOT k + 1 < 2 ^ 64 ->
    good kc (dispatch (t_saved_rsp t) k).
  Proof.
    intros Hf Hr Hslot. unfold dispatch. rewrite Hf, Hcur.
    unfold regs_ok in Hr. repeat (apply Forall_cons in Hr as [? Hr]).
    repeat match goal with |- good _ (if ?b then _ else _) => destruct b end;
      first [ by eapply yield_ok | by eapply exit_ok | by eapply debug_write_ok | by eapply ipc_call_ok
            | by eapply ipc_recv_ok | by eapply ipc_reply_ok | by eapply cap_derive_ok | by eapply task_spawn_ok
            | by eapply wait_ok | by eapply input_read_ok | by eapply set_name_ok | by eapply stats_ok
            | by eapply sleep_ok | by eapply kill_ok | by eapply block_io_ok | by eapply return_with_ok
            | by exists Reboot, k; auto ].
  Qed.

Lemma fault_ok f v :
    FRAMES k !! t_saved_rsp t = Some f -> Z.land (cs f) 3 = 3 ->
    good kc (handle_user_fault (t_saved_rsp t) v k).
  Proof.
    intros Hf Hcs. unfold handle_user_fault. rewrite Hf, Hcs, Hcur. simpl. by eapply exit_ok.
  Qed.
End current.

  (** ** The timer *)

Definition wake1 (now : Z) (t : Task) : Task := if expired now (t_state t) then with_state Ready t else t.

Lemma wake_tasks_spec now ts : forall fr,
    (forall t, t ∈ ts -> is_Some (fr !! t_saved_rsp t)) ->
    exists fr', wake_tasks now ts fr =
        Some (wake1 now <$> ts, fr', t_id <$> List.filter (fun t => expired now (t_state t)) ts) /\
      forall a, is_Some (fr !! a) -> is_Some (fr' !! a).
  Proof.
    induction ts as [|t ts IH]; intros fr Hfr; [by exists fr|]. cbn [wake_tasks List.filter]. csimpl.
    unfold wake1 at 1. destruct (expired now (t_state t)).
    - destruct (Hfr t) as [f Hf]; [apply list_elem_of_here|]. rewrite Hf.
      assert (Hgrow : forall a, is_Some (fr !! a) ->
                is_Some (<[t_saved_rsp t := set_rax (wake_status (t_state t)) f]> fr !! a)).
      { intros a Ha. destruct (decide (a = t_saved_rsp t)) as [->|].
        - rewrite lookup_insert_eq. by eexists.
        - by rewrite lookup_insert_ne. }
      destruct (IH (<[t_saved_rsp t := set_rax (wake_status (t_state t)) f]> fr)) as (fr' & -> & Hfr').
      { intros u Hu. apply Hgrow, Hfr. by apply list_elem_of_further. }
      exists fr'. split; [done|]. auto.
    - destruct (IH fr) as (fr' & -> & Hfr').
      { intros u Hu. apply Hfr. by apply list_elem_of_further. }
      by exists fr'.
  Qed.

Lemma foldl_make_ready woke : forall k,
    foldl (fun k tid => make_ready tid true k) k woke = set_READY (rev woke ++ READY k) k.
  Proof.
    induction woke as [|w ws IH]; intros k; simpl; [by destruct k|]. rewrite IH. unfold make_ready, set_READY. simpl.
    by rewrite <- app_assoc.
  Qed.

Definition wake_state (now : Z) (s : TaskState) : TaskState := if expired now s then Ready else s.

Lemma wake_state_keeps now s :
    is_zombie (wake_state now s) = is_zombie s /\ ipc_rel (Some s) (Some (wake_state now s)) /\
    (wake_state now s = Running <-> s = Running) /\ (wake_state now s = BlockedWait <-> s = BlockedWait) /\
    (wake_state now s = Ready -> s = Ready \/ expired now s = true).
  Proof.
    unfold wake_state. destruct (expired now s) eqn:E; [|repeat split; auto; by left].
    destruct s; try done; repeat split; try done; auto; right; (repeat split; try done; by eexists).
  Qed.

Lemma wake_expired_ok kc k :
    kinv kc k ->
    exists k', wake_expired k = Some k' /\ kinv kc k' /\ CURRENT k' = CURRENT k /\ TSS_RSP0 k' = TSS_RSP0 k /\
      SINCE_SWITCH k' = SINCE_SWITCH k /\
      (forall x t, CURRENT k = Some x -> find_task x k = Some t -> find_task x k' = Some t).
  Proof.
    intros Hk. pose proof Hk as [Ht Hi Hm Hc]. unfold wake_expired. set (now := TICKS k).
    destruct (wake_tasks_spec now (TASKS k) (FRAMES k)) as (fr & -> & Hfr).
    { intros t Hin. apply (kt_task _ _ _ Ht _ Hin). }
    rewrite foldl_make_ready. set (woke := t_id <$> _).
    set (k' := set_READY _ _). exists k'. split; [done|].
    assert (Hid : forall t, t_id (wake1 now t) = t_id t) by (intros t; unfold wake1; by destruct (expired _ _)).
    assert (Hw1 : forall t, t_state (wake1 now t) = wake_state now (t_state t)).
    { intros t. unfold wake1, wake_state. by destruct (expired _ _). }
    assert (Hpar1 : forall t, t_parent (wake1 now t) = t_parent t) by (intros t; unfold wake1; by destruct (expired _ _)).
    assert (Hf : forall x, find_task x k' = wake1 now <$> find_task x k) by (intros x; by apply find_map).
    assert (Hst : forall x, state_of k' x = wake_state now <$> state_of k x).
    { intros x. unfold state_of. rewrite Hf. destruct (find_task x k); [simpl; by rewrite Hw1|done]. }
    assert (Hel : forall t', t' ∈ TASKS k' <-> exists t, t ∈ TASKS k /\ t' = wake1 now t).
    { intros t'. unfold k'. simpl. rewrite list_elem_of_fmap. naive_solver. }
    assert (Hcurf : forall x t, CURRENT k = Some x -> find_task x k = Some t -> find_task x k' = Some t).
    { intros x t Hx Hxt. rewrite Hf, Hxt. simpl. f_equal. unfold wake1.
      by rewrite (cur_running kc k x t Hk Hx Hxt). }
    split; [|done]. pose proof Ht as [Hnd Hids Hn Htk Hrun Hready Hp Hz Hw]. split.
    - change (CURRENT k') with (CURRENT k). split.
      + unfold k'. simpl. rewrite <- list_fmap_compose. by rewrite (list_fmap_ext _ t_id) by (intros; apply Hid).
      + intros t' (t & Hin & ->)%Hel. rewrite Hid. by apply Hids.
      + done.
      + intros t' (t & Hin & ->)%Hel. destruct (Htk _ Hin) as [? ? ? ? ?].
        unfold wake1. destruct (expired _ _); split; try done; simpl; auto.
      + intros x. rewrite Hst. rewrite <- (Hrun x). destruct (state_of k x) as [s|]; [|naive_solver]. simpl.
        destruct (wake_state_keeps now s) as (_ & _ & Hr & _). naive_solver.
      + intros x. rewrite Hst. destruct (state_of k x) as [s|] eqn:Es; [|done]. simpl. intros [= Hs].
        unfold k'. simpl. apply elem_of_app. destruct (wake_state_keeps now s) as (_ & _ & _ & _ & Hr).
        destruct (Hr Hs) as [->|He]; [right; by apply Hready|left].
        apply state_of_find in Es as (t & Hxt & <-). apply find_task_id in Hxt as [<- Hin].
        unfold woke. rewrite elem_of_reverse || rewrite list_elem_of_In, <- in_rev, <- list_elem_of_In.
        apply list_elem_of_fmap. exists t. split; [done|]. apply list_elem_of_In, filter_In.
        by rewrite <- list_elem_of_In.
      + intros t' p (t & Hin & ->)%Hel. rewrite Hpar1, Hid. intros Hup.
        destruct (Hp _ _ Hin Hup) as [(s & Hs & Hsz) ?]. split; [|done]. rewrite Hst, Hs. simpl.
        eexists. split; [done|]. destruct (wake_state_keeps now s) as (-> & _). done.
      + intros t' (t & Hin & ->)%Hel. rewrite Hpar1, Hid, Hw1. destruct (wake_state_keeps now (t_state t)) as (-> & _).
        by apply Hz.
      + intros x. rewrite Hst. destruct (state_of k x) as [s|] eqn:Es; [|done]. simpl. intros [= Hs].
        destruct (wake_state_keeps now s) as (_ & _ & _ & Hb & _). apply Hb in Hs as ->.
        destruct (Hw _ Es) as [Hkids (c & Hcin & Hcp)]. split.
        * intros t' (t & Hin & ->)%Hel. rewrite Hpar1, Hid, Hw1.
          destruct (wake_state_keeps now (t_state t)) as (-> & _). by apply Hkids.
        * exists (wake1 now c). split; [apply Hel; by exists c|]. by rewrite Hpar1.
    - apply (kipc_rel k); [done| |done]. intros x. rewrite Hst. destruct (state_of k x) as [s|]; [|by left].
      simpl. apply wake_state_keeps.
    - apply (kmem_ext kc k); [|done|done|done]. unfold resources, k'. simpl. f_equal.
      rewrite <- list_fmap_compose. apply list_fmap_ext. intros i t _. simpl. unfold wake1. by destruct (expired _ _).
    - unfold kcpu in *. unfold k' at 1. simpl. destruct (CURRENT k) as [x|] eqn:Ex; [|done].
      destruct Hc as (t & Hxt & ?). exists t. split; [by apply Hcurf|done].
  Qed.

Lemma preempt_ok kc k :
    kinv kc k -> good kc (maybe_preempt (TSS_RSP0 k - TRAP_FRAME_BYTES) k).
  Proof.
    intros Hk. unfold maybe_preempt.
    assert (Hs : forall n, kinv kc (set_SINCE_SWITCH n k)).
    { intros n. destruct Hk as [Ht Hi Hm Hc]. split; [by apply (ktasks_ext None (CURRENT k) k); [|split|..]|by apply (kipc_ext k)|done|done]. }
    pose proof (inv_cpu _ _ Hk) as Hcpu. unfold kcpu in Hcpu.
    assert (Hstay : forall k1, kinv kc k1 -> CURRENT k1 = CURRENT k -> TASKS k1 = TASKS k -> TSS_RSP0 k1 = TSS_RSP0 k ->
              good kc (Some (Resume (TSS_RSP0 k - TRAP_FRAME_BYTES), k1))).
    { intros k1 Hk1 Ec ET Er. destruct (CURRENT k) as [x|] eqn:Ex.
      - destruct Hcpu as (t & Hf & _). assert (Hf1 : find_task x k1 = Some t) by (unfold find_task; by rewrite ET).
        rewrite <- Er, (cur_fp kc k1 x t) by done. by eapply stay_ok.
      - eexists _, _. split; [done|]. right. split; [done|]. unfold ctrl_ok. rewrite Ec.
        destruct Hcpu as [_ ->]. auto. }
    cbn [SINCE_SWITCH set_SINCE_SWITCH]. destruct (_ <? _); [by apply Hstay|].
    cbn [CURRENT set_SINCE_SWITCH]. unfold pick_next. cbn [TASKS READY set_SINCE_SWITCH].
    pose proof (pick_loop_spec (TASKS k) (CURRENT k) (READY k) []) as Hp.
    pose proof (inv_tasks _ _ Hk) as Ht. pose proof Ht as [Hnd _ _ _ Hrun Hready _ _ _].
    destruct (pick_loop _ _ _ _) as [[n q]|].
    - destruct Hp as (_ & Hr & Hq). rewrite app_nil_r in Hq. apply is_ready_state in Hr; [|done].
      destruct (CURRENT k) as [x|] eqn:Ex.
      + destruct Hcpu as (t & Hf & _). rewrite (cur_fp kc k x t) by done.
        eapply (hand_over_ok kc (set_SINCE_SWITCH 0 (set_SINCE_SWITCH _ k)) x t);
          [exact (Hs 0)|exact Ex|exact Hf|exact Hr|exact Hq].
      + apply (resume_ok kc (set_SINCE_SWITCH 0 (set_SINCE_SWITCH _ k)) n q); try done; [|apply (Hs 0)..].
        by apply (ktasks_ext None None k); [|split|..].
    - assert (Hempty : kinv kc (set_READY [] (set_SINCE_SWITCH 0 (set_SINCE_SWITCH (add64 (SINCE_SWITCH k) 1) k)))).
      { destruct (Hs 0) as [Ht0 Hi0 Hm0 Hc0]. split; [|by apply (kipc_ext (set_SINCE_SWITCH 0 k))|done|done].
        destruct Ht0 as [? ? ? Htk ? ? ? ? ?]. split; try done.
        { intros u Hu. apply (task_ok_env (set_SINCE_SWITCH 0 k)); [by split|auto]. }
        intros x Hx. exfalso. change (state_of k x = Some Ready) in Hx. destruct (Hp x (Hready x Hx)) as [He|Hr].
        - symmetry in He. apply Hrun in He. congruence.
        - apply not_true_iff_false in Hr. apply Hr. by apply is_ready_state. }
      destruct (CURRENT k) eqn:Ex; (apply Hstay; [done|exact Ex|done|done]).
  Qed.

  (** ** The keyboard *)

  (** The address space a parked reader named is still held: its task is in
      the table, alive or a zombie, or awaits teardown. *)
Definition reader_held k (w : Waiter) : Prop :=
    is_Some (find_task (w_tid w) k) \/ w_cr3 w ∈ p_cr3 <$> REAP_QUEUE k.

  (** What is known of every parked reader, dead or alive: its buffer lies in
      user space, its task id has been handed out, and as long as a task with
      this id is in the table the address space is that task's. *)
Record parked_ok k (w : Waiter) : Prop := {
  pk_buf : 0 <= w_buf w;
  pk_end : w_buf w + w_len w <= USER_STACK_TOP;
  pk_id : w_tid w < NEXT_TID k;
  pk_own : forall t, t ∈ TASKS k -> t_id t = w_tid w -> t_cr3 t = w_cr3 w;
}.

Definition readers_ok k : Prop := Forall (parked_ok k) (WAITERS k).

Lemma held_space kc k w : kinv kc k -> parked_ok k w -> reader_held k w -> w_cr3 w ∈ res_spaces (resources k).
  Proof.
    intros Hk [_ _ _ Hown] [[t Hf]|Hq].
    - apply find_task_id in Hf as [Hid Hin]. rewrite <- (Hown t Hin Hid). eapply task_space; [apply Hk|done].
    - unfold res_spaces. rewrite elem_of_list_to_set. unfold resources. rewrite fmap_app. apply elem_of_app. by right.
  Qed.

Lemma kinv_keys kc k q : kinv kc k -> kinv kc (set_QUEUE q k).
  Proof.
    intros [Ht Hi Hm Hc]. split; [by apply (ktasks_ext None (CURRENT k) k); [|split|..]|by apply (kipc_ext k)|done|done].
  Qed.

Lemma kinv_waiters kc k ws : kinv kc k -> kinv kc (set_WAITERS ws k).
  Proof.
    intros [Ht Hi Hm Hc]. split; [by apply (ktasks_ext None (CURRENT k) k); [|split|..]|by apply (kipc_ext k)|done|done].
  Qed.

  (** A task blocked on input is made ready with its count. *)
Lemma wake_reader_ok kc k t f :
    kinv kc k -> find_task (t_id t) k = Some t -> t_state t = BlockedInput ->
    exists k', write_frame (t_saved_rsp t) f k = Some k' /\
      kinv kc (make_ready (t_id t) true (upd_task (t_id t) (with_state Ready) k')) /\
      CURRENT k' = CURRENT k /\ TSS_RSP0 k' = TSS_RSP0 k.
  Proof.
    intros Hk1 Hf Hs. pose proof Hf as Hf'. apply find_task_id in Hf' as [_ Hin].
    destruct (write_frame_ok _ _ _ t f (inv_tasks _ _ Hk1) Hin) as (k2 & -> & fr & -> & Hfr).
    eexists. split; [done|]. split; [|done]. pose proof Hk1 as [Ht Hi Hmm Hc].
    set (k3 := upd_task (t_id t) (with_state Ready) (set_FRAMES fr k)). split.
    - eapply (ktasks_set_state _ _ _ k _ (t_id t) t Ready); try done.
      + intros x _ _ Hx. simpl in *. set_solver.
      + by rewrite Hs.
      + eapply run_unchanged; try done. by rewrite Hs.
      + simpl. set_solver.
    - apply (kipc_ext (upd_task (t_id t) (with_state Ready) k)); [done|done|].
      eapply kipc_set_state; try done. by rewrite Hs.
    - apply (kmem_ext kc (upd_task (t_id t) (with_state Ready) k)); [done..|]. by apply kmem_set_state.
    - unfold kcpu in *. simpl in *. destruct (CURRENT k) as [x|] eqn:Ex; [|done].
      destruct Hc as (tx & Hx & ?). exists tx. split; [|done].
      change (find_task x (upd_task (t_id t) (with_state Ready) k) = Some tx).
      rewrite find_upd_task by auto with redoubt. destruct (Z.eqb_spec x (t_id t)) as [->|]; [|done].
      pose proof (cur_running kc k _ t Hk1 Ex Hf). congruence.
  Qed.

Lemma kinv_make_ready kc k tid front : kinv kc k -> kinv kc (make_ready tid front k).
  Proof.
    intros [Ht Hi Hm Hc]. split; [|by apply (kipc_ext k)|done|done].
    apply (ktasks_ext None (CURRENT k) k); [done|by split| |done]. intros x Hx. unfold make_ready.
    destruct front; simpl; set_solver.
  Qed.

Lemma deliver_ok kc k w :
    kinv kc k -> parked_ok k w -> reader_held k w ->
    exists k', deliver_to w k = Some k' /\ kinv kc k' /\ CURRENT k' = CURRENT k /\ TSS_RSP0 k' = TSS_RSP0 k.
  Proof.
    intros Hk Hw Hh. pose proof (held_space kc k w Hk Hw Hh) as Hcr. unfold deliver_to.
    destruct (fill _ _ _ _ _ _) as [[n q] m] eqn:Ef.
    assert (Hm : mem_inv kc k m).
    { replace m with (snd (fill (w_cr3 w) (w_buf w) 0 (w_len w) (QUEUE k) (MEM k))) by (by rewrite Ef).
      apply fill_ok; try done; [apply Hw|apply Hw|apply (ow_ok _ _ _ _ (inv_mem _ _ Hk))]. }
    set (k1 := set_MEM m (set_QUEUE q k)).
    assert (Hk1 : kinv kc k1) by (by apply kinv_queue).
    assert (Hstay : exists k', Some (make_ready (w_tid w) true k1) = Some k' /\ kinv kc k' /\
              CURRENT k' = CURRENT k /\ TSS_RSP0 k' = TSS_RSP0 k) by (eexists; split; [done|]; split; [by apply kinv_make_ready|done]).
    destruct (find_task (w_tid w) k1) as [t|] eqn:Hf; [|exact Hstay].
    destruct (t_state t) eqn:Hs; try exact Hstay. pose proof Hf as Hf'. apply find_task_id in Hf' as [Hid _].
    rewrite <- Hid in *. destruct (wake_reader_ok kc k1 t (set_rax n) Hk1 Hf Hs) as (k2 & -> & Hk2 & Hc & Hr).
    eexists. split; [done|]. split; [exact Hk2|]. split; [exact Hc|exact Hr].
  Qed.

Lemma key_ok kc k sc :
    kinv kc k -> readers_ok k -> (forall w, head (WAITERS k) = Some w -> reader_held k w) ->
    exists k', on_scancode sc k = Some k' /\ kinv kc k' /\ CURRENT k' = CURRENT k /\ TSS_RSP0 k' = TSS_RSP0 k.
  Proof.
    intros Hk Hw Hh. unfold readers_ok in Hw. unfold on_scancode.
    assert (Hflag : forall f : Kernel S D -> Kernel S D, (f = set_EXTENDED true \/ f = set_EXTENDED false \/
              f = set_SHIFT true \/ f = set_SHIFT false \/ f = fun k => k) ->
              exists k', Some (f k) = Some k' /\ kinv kc k' /\ CURRENT k' = CURRENT k /\ TSS_RSP0 k' = TSS_RSP0 k).
    { intros f Hf. exists (f k). split; [done|]. destruct Hk as [Ht Hi Hm Hc].
      destruct Hf as [->|[->|[->|[->| ->]]]]; (split; [|done]); (split;
        [by apply (ktasks_ext None (CURRENT k) k); [|split|..]|by apply (kipc_ext k)|done|done]). }
    repeat match goal with |- context [if ?b then _ else _] => destruct b end;
      try (apply Hflag; tauto). { apply (Hflag (fun k => k)). tauto. }
    destruct (decode (SHIFT k) sc) as [b|]; [|apply (Hflag (fun k => k)); tauto].
    unfold enqueue. cbn [WAITERS set_QUEUE]. destruct (WAITERS k) as [|w ws].
    - eexists. split; [done|]. split; [by apply kinv_keys|done].
    - apply Forall_cons in Hw as [Hw _].
      destruct (deliver_ok kc (set_WAITERS ws (set_QUEUE (push_key b (QUEUE k)) k)) w) as (k' & -> & Hk' & Hc' & Hr');
        [by apply kinv_waiters, kinv_keys|by destruct Hw|by apply (Hh w)|]. exists k'. split; [done|]. split; [done|]. split; [by rewrite Hc'|by rewrite Hr'].
  Qed.
End safety.

(** ** The machine: traps and interrupts *)

(** What the hardware can do: a system call, a timer tick or an exception with
    an arbitrary register file, a key. *)
Inductive event :=
| ESyscall (f : TrapFrame)
| ETimer (f : TrapFrame)
| EFault (vector : Z) (f : TrapFrame)
| EKey (sc : Z).

Section machine.
  Context {S D : Type} `{MemOps S} `{DiskOps D} `{Uninit}.

  (** The CPU pushes the frame below TSS.RSP0 and the stub completes it. *)
Definition push_frame (f : TrapFrame) (k : Kernel S D) : Kernel S D :=
    set_FRAMES (<[TSS_RSP0 k - TRAP_FRAME_BYTES := f]> (FRAMES k)) k.

Definition machine_step (ev : event) (k : Kernel S D) : option (Control * Kernel S D) :=
    let fp := TSS_RSP0 k - TRAP_FRAME_BYTES in
    match ev with
    | ESyscall f => do_handle_trap fp VECTOR_SYSCALL (push_frame f k)
    | ETimer f => do_handle_trap fp VECTOR_TIMER (push_frame f k)
    | EFault v f => handle_user_fault fp v (push_frame f k)
    | EKey sc => let? k := on_scancode sc k in Some (Resume fp, k)
    end.
End machine.

(** When an event can happen: system calls and user faults need a task on the
    CPU, registers are 64-bit, a fault comes from ring 3; the spawn counter
    has not wrapped.

    A key is excluded in one situation, which the code does not handle: the
    first parked reader was terminated while parked and its address space has
    since been torn down (terminate_lifecycle of syscall.rs leaves it in
    WAITERS), so that deliver_to of input.rs writes through page tables that
    may belong to anyone. *)
Definition allowed {S D} (ev : event) (k : Kernel S D) : Prop :=
  match ev with
  | ESyscall f => is_Some (CURRENT k) /\ regs_ok f /\ NEXT_KSTACK_SLOT k + 1 < 2 ^ 64
  | ETimer f => True
  | EFault v f => is_Some (CURRENT k) /\ Z.land (cs f) 3 = 3
  | EKey _ => forall w, head (WAITERS k) = Some w -> reader_held k w
  end.

Section step.
  Context {S D : Type} `{ML : MemLaws S} `{DiskOps D} `{Uninit}.
  Implicit Types k : Kernel S D.

Lemma push_frame_ok kc f k : kinv kc k -> kinv kc (push_frame f k).
  Proof.
    intros Hk. apply (kinv_frames kc k); [|done]. eexists. split; [done|]. intros a Ha.
    destruct (decide (a = TSS_RSP0 k - TRAP_FRAME_BYTES)) as [->|].
    - rewrite lookup_insert_eq. by eexists.
    - by rewrite lookup_insert_ne.
  Qed.

Lemma current_task kc k tid : kinv kc k -> CURRENT k = Some tid -> exists t, find_task tid k = Some t.
  Proof.
    intros Hk Hc. pose proof (inv_cpu _ _ Hk) as Hcpu. unfold kcpu in Hcpu. rewrite Hc in Hcpu.
    destruct Hcpu as (t & Ht & _). eauto.
  Qed.

Lemma machine_step_ok kc k ev : kinv kc k -> readers_ok k -> allowed ev k -> good kc (machine_step ev k).
  Proof.
    intros Hk Hrd Hev. destruct ev as [f|f|v f|sc]; unfold machine_step; simpl in Hev.
    - destruct Hev as ([tid Hc] & Hr & Hs). pose proof (push_frame_ok kc f k Hk) as Hk0.
      unfold do_handle_trap. destruct (drain_reaper_ok kc _ Hk0) as (m & fr & -> & Hk1 & Hfr).
      simpl. destruct (current_task kc k tid Hk Hc) as (t & Ht).
      rewrite (cur_fp kc k tid t) by done.
      eapply (dispatch_ok kc _ tid t Hk1); try done. simpl.
      rewrite (Hfr t) by (by apply find_task_id in Ht as [_ ?]). unfold push_frame. simpl.
      by rewrite (cur_fp kc k tid t), lookup_insert_eq by done.
    - pose proof (push_frame_ok kc f k Hk) as Hk0.
      unfold do_handle_trap. destruct (drain_reaper_ok kc _ Hk0) as (m & fr & -> & Hk1 & Hfr).
      cbv zeta. change (VECTOR_TIMER =? VECTOR_TIMER) with true. cbv iota.
      assert (Hk2 : kinv kc (bump_tick (set_MEM m (set_FRAMES fr (set_REAP_QUEUE [] (push_frame f k)))))).
      { destruct Hk1 as [Ht Hi Hm Hc]. split; [by apply (ktasks_ext None (CURRENT k) (set_MEM m (set_FRAMES fr (set_REAP_QUEUE [] (push_frame f k))))); [|split|..]
          |by apply (kipc_ext (set_MEM m (set_FRAMES fr (set_REAP_QUEUE [] (push_frame f k)))))|done|done]. }
      destruct (wake_expired_ok kc _ Hk2) as (k3 & -> & Hk3 & _ & Hr3 & _).
      replace (TSS_RSP0 k - TRAP_FRAME_BYTES) with (TSS_RSP0 k3 - TRAP_FRAME_BYTES) by (by rewrite Hr3).
      by apply preempt_ok.
    - destruct Hev as ([tid Hc] & Hcs). pose proof (push_frame_ok kc f k Hk) as Hk0.
      destruct (current_task kc k tid Hk Hc) as (t & Ht). rewrite (cur_fp kc k tid t) by done.
      eapply (fault_ok kc _ tid t Hk0); try done. unfold push_frame. simpl.
      by rewrite (cur_fp kc k tid t), lookup_insert_eq by done.
    - destruct (key_ok kc k sc Hk Hrd Hev) as (k' & -> & Hk' & Hc' & Hr').
      eexists _, _. split; [done|]. right. split; [done|]. unfold ctrl_ok. rewrite <- Hr', Hc'.
      destruct (CURRENT k) as [tid|] eqn:Ec.
      + destruct (current_task kc k' tid Hk' Hc') as (t & Ht). exists t. split; [done|].
        by rewrite (cur_fp kc k' tid t).
      + right. f_equal. pose proof (inv_cpu _ _ Hk') as Hcpu. unfold kcpu in Hcpu. rewrite Hc' in Hcpu.
        by destruct Hcpu as [_ ->].
  Qed.
End step.
