(* ===== verification/SimpleMem.v ===== *)
(** * A memory manager that satisfies the contract

    [MemLaws] and [DiskOps] are interfaces.  This file gives a small concrete
    memory manager with unlimited frames and a RAM disk, on which the
    kernel's definitions run: the contract can be met, and the examples of the
    other files evaluate on it. *)

From S2P Require Import Prelude RustStd Frame Caps Kernel Sched TaskOps Input Syscall ElfSafety MemLaws.

Record SimpleMem := mkSimpleMem {
  sm_next : Z;                     (* first frame number never handed out *)
  sm_loose : gset Z;               (* allocated, neither mapped nor a stack *)
  sm_maps : gmap (Z * Z) Z;        (* (space, page) to frame *)
  sm_spaces : gset Z;
  sm_stacks : gmap Z Z;
  sm_bytes : gmap Z Z;
  sm_kernel : Z;
}.

Definition sm_translate (m : SimpleMem) (c va : Z) : option Z :=
  (fun pa => pa + va mod PAGE_SIZE) <$> sm_maps m !! (c, va - va mod PAGE_SIZE).

Definition sm_set_loose (l : gset Z) (m : SimpleMem) : SimpleMem :=
  mkSimpleMem (sm_next m) l (sm_maps m) (sm_spaces m) (sm_stacks m) (sm_bytes m) (sm_kernel m).

Definition sm_alloc (n : Z) (m : SimpleMem) : option Z * SimpleMem :=
  let b := sm_next m * PAGE_SIZE in
  (Some b, mkSimpleMem (sm_next m + n) (sm_loose m ∪ frames_of b n) (sm_maps m) (sm_spaces m)
             (sm_stacks m) (sm_bytes m) (sm_kernel m)).

Definition sm_free (b n : Z) (m : SimpleMem) : option SimpleMem :=
  if bool_decide (frames_of b n ⊆ sm_loose m)
  then Some (sm_set_loose (sm_loose m ∖ frames_of b n) m) else None.

Definition sm_write (pa b : Z) (m : SimpleMem) : SimpleMem :=
  mkSimpleMem (sm_next m) (sm_loose m) (sm_maps m) (sm_spaces m) (sm_stacks m)
    (<[pa := b]> (sm_bytes m)) (sm_kernel m).

Definition sm_zero (pa n : Z) (m : SimpleMem) : SimpleMem :=
  mkSimpleMem (sm_next m) (sm_loose m) (sm_maps m) (sm_spaces m) (sm_stacks m)
    (filter (fun p => ~ (pa <= fst p < pa + n)) (sm_bytes m)) (sm_kernel m).

Definition sm_map (c va pa : Z) (fl : PageFlags) (m : SimpleMem) : bool * SimpleMem :=
  let l := if bool_decide (sm_maps m !! (c, va) = Some pa) then sm_loose m else sm_loose m ∖ {[pa]} in
  (true, mkSimpleMem (sm_next m) l (<[(c, va) := pa]> (sm_maps m)) (sm_spaces m)
           (sm_stacks m) (sm_bytes m) (sm_kernel m)).

Definition sm_unmap (c va : Z) (m : SimpleMem) : SimpleMem :=
  match sm_maps m !! (c, va) with
  | None => m
  | Some pa => mkSimpleMem (sm_next m) (sm_loose m ∪ {[pa]}) (delete (c, va) (sm_maps m)) (sm_spaces m)
                 (sm_stacks m) (sm_bytes m) (sm_kernel m)
  end.

Definition sm_new (active : Z) (m : SimpleMem) : option (option Z * SimpleMem) :=
  let c := sm_next m * PAGE_SIZE in
  Some (Some c, mkSimpleMem (sm_next m + 1) (sm_loose m) (sm_maps m) ({[c]} ∪ sm_spaces m)
                  (sm_stacks m) (sm_bytes m) (sm_kernel m)).

Definition sm_destroy (c : Z) (m : SimpleMem) : option SimpleMem :=
  if bool_decide (c ∈ sm_spaces m)
  then Some (mkSimpleMem (sm_next m) (sm_loose m) (filter (fun p => fst (fst p) <> c) (sm_maps m))
               (sm_spaces m ∖ {[c]}) (sm_stacks m) (sm_bytes m) (sm_kernel m))
  else None.

Definition sm_register (va b n : Z) (m : SimpleMem) : bool * SimpleMem :=
  (true, mkSimpleMem (sm_next m) (sm_loose m ∖ frames_of b n) (sm_maps m) (sm_spaces m)
           (<[va := b]> (sm_stacks m)) (sm_bytes m) (sm_kernel m)).

Definition sm_unregister (va n : Z) (m : SimpleMem) : SimpleMem :=
  match sm_stacks m !! va with
  | None => m
  | Some b => mkSimpleMem (sm_next m) (sm_loose m ∪ frames_of b n) (sm_maps m) (sm_spaces m)
                (delete va (sm_stacks m)) (sm_bytes m) (sm_kernel m)
  end.

#[global] Instance simple_mem_ops : MemOps SimpleMem := {
  mem_alloc := sm_alloc;
  mem_free := sm_free;
  mem_stats := fun m => (sm_next m, sm_next m);
  translate := sm_translate;
  phys_read := fun m pa => default 0 (sm_bytes m !! pa) mod 256;
  phys_write := sm_write;
  phys_zero := sm_zero;
  map_page_in := sm_map;
  unmap_page_in := sm_unmap;
  new_address_space := sm_new;
  destroy_address_space := sm_destroy;
  register_kstack := sm_register;
  unregister_kstack := sm_unregister;
  kernel_space := fun m => Some (sm_kernel m);
}.

Record simple_ok (kc : Z) (sp : gset Z) (ks : gmap Z Z) (l : gset Z) (m : SimpleMem) : Prop := {
  so_kernel : sm_kernel m = kc;
  so_spaces : sm_spaces m = sp;
  so_fresh_kc : kc ∉ sp;
  so_stacks : sm_stacks m = ks;
  so_loose : sm_loose m = l;
  so_loose_old : forall x, x ∈ l -> x < sm_next m * PAGE_SIZE;
  so_spaces_old : forall x, x ∈ sp -> x < sm_next m * PAGE_SIZE;
  so_kc_old : kc < sm_next m * PAGE_SIZE;
  so_maps : forall c va pa, sm_maps m !! (c, va) = Some pa -> c ∈ sp;
  so_maps_old : forall c va pa, sm_maps m !! (c, va) = Some pa -> pa < sm_next m * PAGE_SIZE;
  so_stacks_old : forall va b x, ks !! va = Some b -> x ∈ frames_of b KSTACK_PAGES -> x < sm_next m * PAGE_SIZE;
}.

Lemma sm_translate_page m c va : user_page va -> sm_translate m c va = sm_maps m !! (c, va).
Proof.
  intros [Ha _]. unfold sm_translate. unfold aligned in Ha. rewrite Ha, Z.sub_0_r.
  destruct (sm_maps m !! (c, va)); simpl; [f_equal; lia|done].
Qed.

Lemma frames_of_bound b n x : x ∈ frames_of b n -> b <= x < b + n * PAGE_SIZE.
Proof. rewrite elem_of_frames_of. unfold PAGE_SIZE. intros (i & ? & ->). lia. Qed.

(** Laws that leave maps, spaces and stacks alone. *)
Lemma simple_ok_loose kc sp ks l l' m n bs :
  simple_ok kc sp ks l m -> sm_next m <= n -> (forall x, x ∈ l' -> x < n * PAGE_SIZE) ->
  simple_ok kc sp ks l' (mkSimpleMem n l' (sm_maps m) (sm_spaces m) (sm_stacks m) bs (sm_kernel m)).
Proof.
  unfold PAGE_SIZE. intros [Hk Hs Hf Hst Hl Hlo Hso Hko Hm Hmo Hsto] Hn Hl'. unfold PAGE_SIZE in *.
  split; simpl; unfold PAGE_SIZE; try done; try lia.
  - intros x Hx. specialize (Hso _ Hx). lia.
  - intros c va pa Hp. specialize (Hmo _ _ _ Hp). lia.
  - intros va b x Hb Hx. specialize (Hsto _ _ _ Hb Hx). lia.
Qed.

Lemma same_maps_same_users sp m m' : sm_maps m' = sm_maps m -> same_users sp m m'.
Proof.
  intros E c _ va Hva. simpl. rewrite !sm_translate_page by done. by rewrite E.
Qed.

Lemma simple_alloc kc sp ks l n m :
  simple_ok kc sp ks l m -> 0 < n ->
  match mem_alloc n m with
  | (Some b, m') =>
      frames_of b n ## l /\ simple_ok kc sp ks (l ∪ frames_of b n) m' /\ same_users sp m m'
  | (None, m') => simple_ok kc sp ks l m' /\ same_users sp m m'
  end.
Proof.
  intros Hok Hn. simpl. rewrite (so_loose _ _ _ _ _ Hok). split; [|split; [|by apply same_maps_same_users]].
  - intros x Hx Hl. apply frames_of_bound in Hx. apply (so_loose_old _ _ _ _ _ Hok) in Hl. lia.
  - apply (simple_ok_loose kc sp ks l); [done|lia|]. intros x [Hx|Hx]%elem_of_union.
    + apply (so_loose_old _ _ _ _ _ Hok) in Hx. unfold PAGE_SIZE in *. lia.
    + apply frames_of_bound in Hx. unfold PAGE_SIZE in *. lia.
Qed.

Lemma simple_free kc sp ks l b n m :
  simple_ok kc sp ks l m -> frames_of b n ⊆ l ->
  exists m', mem_free b n m = Some m' /\ simple_ok kc sp ks (l ∖ frames_of b n) m' /\ same_users sp m m'.
Proof.
  intros Hok Hsub. simpl. unfold sm_free. rewrite (so_loose _ _ _ _ _ Hok), bool_decide_true by done.
  eexists. split; [done|]. split; [|by apply same_maps_same_users].
  apply (simple_ok_loose kc sp ks l); [done|lia|]. intros x [Hx _]%elem_of_difference.
  by apply (so_loose_old _ _ _ _ _ Hok).
Qed.

Lemma simple_map kc sp ks l c va pa m l' :
  simple_ok kc sp ks l m -> c ∈ sp -> pa < sm_next m * PAGE_SIZE -> l' ⊆ l ->
  simple_ok kc sp ks l' (mkSimpleMem (sm_next m) l' (<[(c, va) := pa]> (sm_maps m)) (sm_spaces m)
                           (sm_stacks m) (sm_bytes m) (sm_kernel m)).
Proof.
  intros [Hk Hs Hf Hst Hl Hlo Hso Hko Hm Hmo Hsto] Hc Hpa Hl'. split; simpl; try done; auto.
  - intros c' va' pa'. destruct (decide ((c, va) = (c', va'))) as [[= <- <-]|Hne].
    + done.
    + rewrite lookup_insert_ne by done. apply Hm.
  - intros c' va' pa'. destruct (decide ((c, va) = (c', va'))) as [[= <- <-]|Hne].
    + rewrite lookup_insert_eq. by intros [= <-].
    + rewrite lookup_insert_ne by done. apply Hmo.
Qed.

Lemma simple_unmap kc sp ks l c va pa m :
  simple_ok kc sp ks l m -> c ∈ sp -> user_page va -> translate m c va = Some pa ->
  let m' := unmap_page_in c va m in
  simple_ok kc sp ks (l ∪ {[pa]}) m' /\ translate m' c va = None /\
  forall va', user_page va' -> va' <> va -> translate m' c va' = translate m c va'.
Proof.
  intros Hok Hc Hva. simpl. rewrite sm_translate_page by done. intros Hpa. unfold sm_unmap. rewrite Hpa.
  pose proof Hok as [Hk Hs Hf Hst Hl Hlo Hso Hko Hm Hmo Hsto]. split; [|split].
  - split; simpl; try done.
    + by rewrite Hl.
    + intros x [Hx|Hx]%elem_of_union; [auto|]. apply elem_of_singleton in Hx as ->. by eapply Hmo.
    + intros c' va' pa' [_ H']%lookup_delete_Some. by eapply Hm.
    + intros c' va' pa' [_ H']%lookup_delete_Some. by eapply Hmo.
  - rewrite sm_translate_page by done. simpl. by rewrite lookup_delete_eq.
  - intros va' Hva' Hne. rewrite !sm_translate_page by done. simpl. by rewrite lookup_delete_ne by congruence.
Qed.

Lemma simple_new kc sp ks l active m :
  simple_ok kc sp ks l m ->
  exists r m', new_address_space active m = Some (r, m') /\
    match r with
    | Some c => c ∉ sp /\ simple_ok kc ({[c]} ∪ sp) ks l m' /\
                forall va, user_page va -> translate m' c va = None
    | None => simple_ok kc sp ks l m'
    end.
Proof.
  intros [Hk Hs Hf Hst Hl Hlo Hso Hko Hm Hmo Hsto]. simpl. unfold sm_new. eexists _, _. split; [done|].
  assert (Hc : sm_next m * PAGE_SIZE ∉ sp) by (intros Hin; specialize (Hso _ Hin); lia).
  split; [done|]. unfold PAGE_SIZE in *. split.
  - split; simpl; unfold PAGE_SIZE; try done; try lia.
    + by rewrite Hs.
    + intros [Hin|Hin]%elem_of_union; [|done]. apply elem_of_singleton in Hin. lia.
    + intros x Hx. specialize (Hlo _ Hx). lia.
    + intros x [Hx|Hx]%elem_of_union; [apply elem_of_singleton in Hx; lia|]. specialize (Hso _ Hx). lia.
    + intros c va pa Hp. apply elem_of_union_r. by eapply Hm.
    + intros c va pa Hp. specialize (Hmo _ _ _ Hp). lia.
    + intros va b x Hb Hx. specialize (Hsto _ _ _ Hb Hx). lia.
  - intros va Hva. rewrite sm_translate_page by done. simpl.
    destruct (sm_maps m !! (sm_next m * 4096, va)) eqn:E; [|done]. apply Hm in E. done.
Qed.

Lemma simple_destroy kc sp ks l c m :
  simple_ok kc sp ks l m -> c ∈ sp ->
  exists m', destroy_address_space c m = Some m' /\ simple_ok kc (sp ∖ {[c]}) ks l m'.
Proof.
  intros [Hk Hs Hf Hst Hl Hlo Hso Hko Hm Hmo Hsto] Hc. simpl. unfold sm_destroy. rewrite Hs, bool_decide_true by done.
  eexists. split; [done|]. split; simpl; try done.
  - set_solver.
  - intros x [Hx _]%elem_of_difference. auto.
  - intros c' va pa [Hp Hne]%map_lookup_filter_Some. simpl in Hne. apply elem_of_difference.
    split; [by eapply Hm|]. by rewrite elem_of_singleton.
  - intros c' va pa [Hp _]%map_lookup_filter_Some. by eapply Hmo.
Qed.

Lemma simple_register kc sp ks l va b m :
  simple_ok kc sp ks l m -> frames_of b KSTACK_PAGES ⊆ l ->
  simple_ok kc sp (<[va := b]> ks) (l ∖ frames_of b KSTACK_PAGES) (snd (register_kstack va b KSTACK_PAGES m)).
Proof.
  intros [Hk Hs Hf Hst Hl Hlo Hso Hko Hm Hmo Hsto] Hsub. simpl. split; simpl; try done.
  - by rewrite Hst.
  - by rewrite Hl.
  - intros x [Hx _]%elem_of_difference. auto.
  - intros va' b' x. destruct (decide (va = va')) as [<-|Hne].
    + rewrite lookup_insert_eq. intros [= <-] Hx. auto.
    + rewrite lookup_insert_ne by done. apply Hsto.
Qed.

Lemma simple_unregister kc sp ks l va b m :
  simple_ok kc sp ks l m -> ks !! va = Some b ->
  simple_ok kc sp (delete va ks) (l ∪ frames_of b KSTACK_PAGES) (unregister_kstack va KSTACK_PAGES m).
Proof.
  intros [Hk Hs Hf Hst Hl Hlo Hso Hko Hm Hmo Hsto] Hb. simpl. unfold sm_unregister. rewrite Hst, Hb.
  split; simpl; try done.
  - by rewrite Hl.
  - intros x [Hx|Hx]%elem_of_union; [auto|]. by eapply Hsto.
  - intros va' b' x [_ H']%lookup_delete_Some. by eapply Hsto.
Qed.

#[global] Instance simple_mem_laws : MemLaws SimpleMem.
Proof.
  refine {| mem_ok := simple_ok |}.
  - intros kc sp ks l m []. simpl. split; [by f_equal|done].
  - intros. simpl. apply Z.mod_pos_bound. lia.
  - intros kc sp ks l n m Hok [Hn _]. by apply simple_alloc.
  - intros. by apply simple_free.
  - intros kc sp ks l b n m Hok _. split; [|by apply same_maps_same_users].
    pose proof (simple_ok_loose kc sp ks l l m (sm_next m) (sm_bytes (sm_zero b (n * PAGE_SIZE) m)) Hok) as H'.
    simpl. unfold sm_zero. rewrite (so_loose _ _ _ _ _ Hok). apply H'; [lia|apply Hok].
  - intros kc sp ks l c va pa b m Hok _ _ _. split; [|by apply same_maps_same_users].
    simpl. unfold sm_write. rewrite (so_loose _ _ _ _ _ Hok). apply (simple_ok_loose kc sp ks l); [done|lia|apply Hok].
  - intros kc sp ks l c va pa fl m Hok Hc Hva Hpa. simpl. rewrite sm_translate_page by done. intros Hn.
    rewrite (bool_decide_false (sm_maps m !! (c, va) = Some pa)) by congruence.
    rewrite (so_loose _ _ _ _ _ Hok). split; [|split].
    + apply (simple_map kc sp ks l); [done|done| |set_solver]. by apply (so_loose_old _ _ _ _ _ Hok).
    + rewrite sm_translate_page by done. simpl. by rewrite lookup_insert_eq.
    + intros va' Hva' Hne. rewrite !sm_translate_page by done. simpl. by rewrite lookup_insert_ne by congruence.
  - intros kc sp ks l c va pa fl m Hok Hc Hva. simpl. rewrite sm_translate_page by done. intros Hpa.
    rewrite bool_decide_true by done. rewrite (so_loose _ _ _ _ _ Hok). split.
    + apply (simple_map kc sp ks l); [done|done| |set_solver]. by eapply (so_maps_old _ _ _ _ _ Hok).
    + intros va' Hva'. simpl. rewrite !sm_translate_page by done. simpl. by rewrite insert_id.
  - intros. by apply simple_unmap.
  - intros. by apply simple_new.
  - intros. by apply simple_destroy.
  - intros kc sp ks l va b m Hok Hsub _ _. by apply simple_register.
  - intros. by apply simple_unregister.
Defined.

(** A RAM disk: sectors of 512 bytes, zero where never written. *)
Definition RamDisk : Type := gmap (Z * Z) (list Z).

#[global] Instance ram_disk_ops : DiskOps RamDisk := {
  read_sectors := fun d lba n dk =>
    Some (concat ((fun i => default (replicate 512 0) (dk !! (d, lba + i))) <$> seqZ 0 n));
  write_sectors := fun d lba n data dk =>
    (true, foldr (fun p dk => <[(d, lba + fst p) := snd p]> dk) dk
            (zip (seqZ 0 n) (chunks 512 data)));
}.

#[global] Instance zero_padding : Uninit := { stats_padding := 0 }.

(** The memory at boot: frame 1 is the kernel's PML4. *)
Definition boot_mem : SimpleMem := mkSimpleMem 2 ∅ ∅ ∅ ∅ ∅ 4096.

Lemma boot_mem_ok : mem_ok 4096 ∅ ∅ ∅ boot_mem.
Proof. split; try done; unfold PAGE_SIZE; simpl; try set_solver; lia. Qed.
