(* ===== verification/FrameOwn.v ===== *)
(** * Frames as owned resources (kernel/src/frame.rs)

    The allocator seen by its clients: a set of frames that have been handed
    out and not returned.  The allocator's own counter agrees with its size,
    so a frame that is lost or returned twice would show. *)

From S2P Require Import Prelude RustStd Frame Caps Kernel Sched TaskOps ElfSafety MemLaws.

(** No usable region ends where another begins.  The free list coalesces
    across such a border while [free_frames] insists on a single region. *)
Definition regions_separate (rs : list (Z * Z)) : Prop :=
  forall r r', r ∈ rs -> r' ∈ rs -> snd r <> fst r'.

Definition frame_held (fa : FrameAllocator) (x : Z) : Prop := forall p, x <= p < x + PAGE_SIZE -> held fa p.

(** [own] is what clients hold; [kc] is a frame outside usable memory. *)
Record accounted (kc : Z) (own : gset Z) (fa : FrameAllocator) : Prop := {
  ac_inv : frame_inv fa;
  ac_separate : regions_separate (the_regions fa);
  ac_kernel : ~ usable fa kc;
  ac_held x : x ∈ own -> aligned x /\ frame_held fa x;
  ac_count : allocated_frames fa = Z.of_nat (size own);
}.

Lemma alloc_bump_account fuel count : forall fa,
  let '(r, fa') := alloc_bump fuel count fa in
  the_regions fa' = the_regions fa /\
  allocated_frames fa' = match r with Some _ => wrap 64 (allocated_frames fa + count) | None => allocated_frames fa end.
Proof.
  induction fuel as [|fuel IH]; intros fa; [done|]. cbn [alloc_bump].
  destruct (nth (cur fa) (regions fa) (0, 0)) as [s e]. destruct (_ <=? e); [done|].
  match goal with |- context [alloc_bump fuel count ?x] => specialize (IH x) end.
  by destruct (alloc_bump fuel count _) as [r fa'].
Qed.

Lemma alloc_frames_account count fa :
  let '(r, fa') := alloc_frames count fa in
  the_regions fa' = the_regions fa /\
  allocated_frames fa' =
    match r with Some _ => wrap 64 (allocated_frames fa + Z.max count 1) | None => allocated_frames fa end.
Proof.
  unfold alloc_frames. destruct (alloc_free_list _ _) as [[ret fl]|]; [done|]. apply alloc_bump_account.
Qed.

(** A contiguous usable range lies in one region. *)
Lemma one_region fa b e :
  frame_inv fa -> regions_separate (the_regions fa) -> b < e ->
  (forall p, b <= p < e -> usable fa p) ->
  exists r, r ∈ the_regions fa /\ fst r <= b /\ e <= snd r.
Proof.
  intros Hi Hs Hlt Hu. destruct (Hu b ltac:(lia)) as (i & s & e' & Hr & Hb).
  exists (s, e'). split; [by eapply list_elem_of_lookup_2|]. simpl. split; [lia|].
  destruct (decide (e <= e')) as [|Hgt]; [done|]. exfalso.
  destruct (Hu e' ltac:(lia)) as (j & s' & e'' & Hr' & Hb').
  destruct (decide (s' = e')) as [->|Hne].
  - apply (Hs (s, e') (e', e'')); [by eapply list_elem_of_lookup_2..|done].
  - pose proof (fi_disjoint fa Hi i j s e' s' e'' (e' - 1) Hr Hr' ltac:(lia) ltac:(lia)) as ->.
    rewrite Hr in Hr'. injection Hr' as <- <-. lia.
Qed.

Lemma page_in_frames b n p :
  aligned b -> 0 < n -> b <= p < b + n * PAGE_SIZE ->
  exists x, x ∈ frames_of b n /\ x <= p < x + PAGE_SIZE.
Proof.
  unfold PAGE_SIZE. intros Hb Hn Hp. exists (b + (p - b) / 4096 * 4096).
  pose proof (Z.div_mod (p - b) 4096). pose proof (Z.mod_pos_bound (p - b) 4096).
  rewrite elem_of_frames_of. unfold PAGE_SIZE. split; [|lia]. exists ((p - b) / 4096). split; [|lia].
  split; [apply Z.div_pos; lia|]. apply Z.div_lt_upper_bound; lia.
Qed.

Lemma size_frames_of b n : 0 <= n -> Z.of_nat (size (frames_of b n)) = n.
Proof.
  intros Hn. unfold frames_of. rewrite size_list_to_set.
  - rewrite length_fmap, length_seqZ. lia.
  - apply NoDup_fmap_2; [|apply NoDup_seqZ]. intros i j. unfold PAGE_SIZE. lia.
Qed.

Lemma frames_of_aligned b n x : aligned b -> x ∈ frames_of b n -> aligned x.
Proof. intros Hb (i & _ & ->)%elem_of_frames_of. by apply aligned_pages. Qed.

Lemma held_range fa x : frame_inv fa -> frame_held fa x -> MIN_ADDR <= x < 2 ^ 52.
Proof.
  intros Hi Hx. destruct (Hx x ltac:(unfold PAGE_SIZE; lia)) as ((i & s & e & Hr & Hp) & _).
  pose proof (Forall_lookup_1 _ _ _ _ (fi_regions fa Hi) Hr) as (_ & _ & ? & ?). simpl in *. lia.
Qed.

(** Fewer than 2^40 frames exist. *)
Lemma own_bound kc own fa : accounted kc own fa -> Z.of_nat (size own) <= 2 ^ 40.
Proof.
  intros [Hi _ _ Hh _]. pose (N := 2 ^ 40).
  assert (Hsub : own ⊆ frames_of 0 N).
  { intros x Hx. destruct (Hh x Hx) as [Ha Hx']. apply held_range in Hx'; [|done].
    apply elem_of_frames_of. exists (x / 4096). unfold aligned, PAGE_SIZE, MIN_ADDR in *.
    pose proof (Z.div_mod x 4096). split; [|lia]. split; [apply Z.div_pos; lia|].
    apply Z.div_lt_upper_bound; [lia|]. unfold N. lia. }
  apply subseteq_size in Hsub. pose proof (size_frames_of 0 N ltac:(unfold N; lia)). unfold N in *. lia.
Qed.

Lemma held_kernel kc own fa x : accounted kc own fa -> frame_held fa x -> x <> kc.
Proof. intros Hac Hx ->. apply (ac_kernel _ _ _ Hac). by destruct (Hx kc ltac:(unfold PAGE_SIZE; lia)). Qed.

Lemma accounted_alloc kc own n fa :
  accounted kc own fa -> 0 < n <= 2 ^ 40 ->
  match alloc_frames n fa with
  | (Some b, fa') =>
      frames_of b n ## own /\ kc ∉ frames_of b n /\ aligned b /\
      accounted kc (own ∪ frames_of b n) fa'
  | (None, fa') => accounted kc own fa'
  end.
Proof.
  intros Hac Hn. pose proof (own_bound _ _ _ Hac) as Hsz. pose proof Hac as [Hi Hs Hk Hh Hc].
  destruct (alloc_frames_spec n fa ltac:(lia) Hi) as (Hi' & Hkeep & Hb).
  pose proof (alloc_frames_account n fa) as Hacc.
  destruct (alloc_frames n fa) as [[b|] fa']; destruct Hacc as [Hreg Hcnt]; cbn [fst snd] in *.
  - destruct Hb as [Hal Hb]. rewrite Z.max_l in * by lia.
    assert (Hnew : forall x, x ∈ frames_of b n -> frame_held fa' x /\ forall p, x <= p < x + PAGE_SIZE -> ~ held fa p).
    { intros x (i & Hx & ->)%elem_of_frames_of. split; intros p Hp; (destruct (Hb p) as [? ?]; [unfold PAGE_SIZE in *; lia|done]). }
    assert (Hdis : frames_of b n ## own).
    { intros x Hx Ho. destruct (Hnew x Hx) as [_ Hn']. destruct (Hh x Ho) as [_ Ho'].
      apply (Hn' x); [|apply Ho']; unfold PAGE_SIZE; lia. }
    assert (Hk' : ~ usable fa' kc) by (unfold usable; rewrite Hreg; exact Hk).
    assert (Hkn : kc ∉ frames_of b n).
    { intros Hin. destruct (Hnew kc Hin) as [Hx _]. apply Hk'. by destruct (Hx kc ltac:(unfold PAGE_SIZE; lia)). }
    split; [done|]. split; [done|]. split; [done|].
    split; try done.
    + by rewrite Hreg.
    + intros x [Hx|Hx]%elem_of_union.
      * destruct (Hh x Hx) as [? Hx']. split; [done|]. intros p Hp. by apply Hkeep, Hx'.
      * split; [by eapply frames_of_aligned|by apply Hnew].
    + rewrite Hcnt, size_union by set_solver. pose proof (size_frames_of b n ltac:(lia)).
      rewrite Nat2Z.inj_add. rewrite wrap_small; [lia|]. red. lia.
  - split; [done|by rewrite Hreg|unfold usable; by rewrite Hreg| |congruence].
    intros x Hx. destruct (Hh x Hx) as [? Hx']. split; [done|]. intros p Hp. by apply Hkeep, Hx'.
Qed.

Lemma accounted_free kc own b n fa :
  accounted kc own fa -> 0 < n -> frames_of b n ⊆ own ->
  exists fa', free_frames b n fa = Some fa' /\ accounted kc (own ∖ frames_of b n) fa'.
Proof.
  intros Hac Hn Hsub. pose proof Hac as [Hi Hs Hk Hh Hc].
  assert (Hb : aligned b). { apply Hh, Hsub, elem_of_frames_of. exists 0. lia. }
  assert (Hheld : forall p, b <= p < b + n * PAGE_SIZE -> held fa p).
  { intros p Hp. destruct (page_in_frames b n p Hb Hn Hp) as (x & Hx & Hxp).
    destruct (Hh x (Hsub x Hx)) as [_ Hx']. by apply Hx'. }
  assert (Hcn : n <= allocated_frames fa).
  { rewrite Hc. apply subseteq_size in Hsub. pose proof (size_frames_of b n). lia. }
  destruct (one_region fa b (b + n * PAGE_SIZE)) as (r & Hr & ? & ?);
    [done|done|unfold PAGE_SIZE; lia|intros p Hp; by destruct (Hheld p Hp)|].
  destruct (free_frames_spec b n fa) as (fa' & Hf & Hi' & Hheld'); try done; [by exists r|].
  destruct (free_frames_Some _ _ _ _ Hf ltac:(lia)) as (_ & _ & _ & _ & Er & En & _ & _ & Ea).
  assert (Hreg : the_regions fa' = the_regions fa) by (unfold the_regions; by rewrite Er, En).
  exists fa'. split; [done|]. split; try done.
  - by rewrite Hreg.
  - unfold usable. by rewrite Hreg.
  - intros x [Hx Hnx]%elem_of_difference. destruct (Hh x Hx) as [Ha Hx']. split; [done|].
    intros p Hp. apply Hheld'. split; [by apply Hx'|]. intros Hin.
    destruct (page_in_frames b n p Hb Hn Hin) as (y & Hy & Hyp).
    pose proof (frames_of_aligned b n y Hb Hy). apply Hnx.
    assert (x = y); [|by subst]. unfold aligned, PAGE_SIZE in *.
    pose proof (Z.div_mod x 4096). pose proof (Z.div_mod y 4096). lia.
  - rewrite Ea, Hc, size_difference by done. pose proof (size_frames_of b n ltac:(lia)).
    apply subseteq_size in Hsub. lia.
Qed.
