(* ===== verification/Paging.v ===== *)
(** * Page tables (kernel/src/paging.rs)

    The address spaces over byte-addressed physical memory and the frame
    allocator.  A page table is the 512 little-endian words of a frame; the
    physical memory map makes every frame reachable at a fixed offset, so
    tables are named by their physical address.

    [PageEntry] stands for the entry type of the x86_64 crate: how an entry is
    packed from an address and flags and taken apart again.  The ghost
    description of the tables and the proof of the memory-manager contract are
    in [PagingInv] and [PagingLaws]. *)

From S2P Require Import Prelude RustStd Frame Caps Kernel Sched TaskOps.

(** [PageTableEntry] of the x86_64 crate. *)
Class PageEntry := {
  pe_set : Z -> PageFlags -> Z;        (* set_addr, set_frame: address and flags, PRESENT set *)
  pe_addr : Z -> Z;                    (* addr *)
  pe_is_unused : Z -> bool;            (* is_unused; set_unused stores 0 *)
  pe_huge : Z -> bool;                 (* flags().contains(HUGE_PAGE) *)
}.

(** A frame address the entry format can hold. *)
Definition frame_addr (a : Z) : Prop := aligned a /\ 0 <= a < 2 ^ 52.

(** What the crate documents about them. *)
Class PageEntryLaws `{PageEntry} : Prop := {
  pe_word a fl : frame_addr a -> fits 64 (pe_set a fl);
  pe_addr_set a fl : frame_addr a -> pe_addr (pe_set a fl) = a;
  pe_used_set a fl : frame_addr a -> pe_is_unused (pe_set a fl) = false;
  pe_small_set a fl : frame_addr a -> pe_huge (pe_set a fl) = false;
  pe_unused_0 : pe_is_unused 0 = true;
}.

Module Paging.

(** The statics of paging.rs with the memory below them. *)
Record Paging := mkPaging {
  ALLOCATOR : FrameAllocator;
  BYTES : gmap Z Z;                    (* physical memory; absent is 0 *)
  ADDRESS_SPACES : list Z;
  KSTACKS : list (Z * Z * Z);
}.

Definition set_ALLOCATOR (fa : FrameAllocator) (m : Paging) : Paging :=
  mkPaging fa (BYTES m) (ADDRESS_SPACES m) (KSTACKS m).
Definition set_BYTES (b : gmap Z Z) (m : Paging) : Paging :=
  mkPaging (ALLOCATOR m) b (ADDRESS_SPACES m) (KSTACKS m).
Definition set_SPACES (s : list Z) (m : Paging) : Paging :=
  mkPaging (ALLOCATOR m) (BYTES m) s (KSTACKS m).
Definition set_KSTACKS (s : list (Z * Z * Z)) (m : Paging) : Paging :=
  mkPaging (ALLOCATOR m) (BYTES m) (ADDRESS_SPACES m) s.

(** ** Physical memory *)

Definition byte_of (bs : gmap Z Z) (pa : Z) : Z := default 0 (bs !! pa).
Definition store_byte (pa v : Z) (bs : gmap Z Z) : gmap Z Z := if v =? 0 then delete pa bs else <[pa := v]> bs.
Definition write_byte (pa b : Z) (bs : gmap Z Z) : gmap Z Z := store_byte pa (wrap 8 b) bs.
Definition zero_bytes (pa n : Z) (bs : gmap Z Z) : gmap Z Z :=
  filter (fun p => ~ (pa <= fst p < pa + n)) bs.

(** Entry [i] of the table in frame [t]. *)
Definition entry_of (bs : gmap Z Z) (t i : Z) : Z :=
  from_le_bytes ((fun j => byte_of bs (t + 8 * i + j)) <$> seqZ 0 8).
Definition put_entry (t i w : Z) (bs : gmap Z Z) : gmap Z Z :=
  foldr (fun p bs => store_byte (t + 8 * i + fst p) (snd p) bs) bs (zip (seqZ 0 8) (to_le_bytes 8 w)).

Definition read_entry (m : Paging) (t i : Z) : Z := entry_of (BYTES m) t i.
Definition write_entry (t i w : Z) (m : Paging) : Paging := set_BYTES (put_entry t i w (BYTES m)) m.
Definition zero_frame (f : Z) (m : Paging) : Paging := set_BYTES (zero_bytes f PAGE_SIZE (BYTES m)) m.

Definition alloc (n : Z) (m : Paging) : option Z * Paging :=
  let '(r, fa) := alloc_frames n (ALLOCATOR m) in (r, set_ALLOCATOR fa m).
Definition release (b n : Z) (m : Paging) : option Paging :=
  let? fa := free_frames b n (ALLOCATOR m) in Some (set_ALLOCATOR fa m).

(** ** Indices of a virtual address, nine bits per level *)

Definition p4_index (va : Z) : Z := Z.land (Z.shiftr va 39) 511.
Definition p3_index (va : Z) : Z := Z.land (Z.shiftr va 30) 511.
Definition p2_index (va : Z) : Z := Z.land (Z.shiftr va 21) 511.
Definition p1_index (va : Z) : Z := Z.land (Z.shiftr va 12) 511.
Definition page_offset (va : Z) : Z := Z.land va 4095.

Section ops.
  Context `{PageEntry}.

(** PRESENT, WRITABLE and USER_ACCESSIBLE, never NO_EXECUTE. *)
Definition table_flags : PageFlags := {| pf_writable := true; pf_user := true; pf_no_execute := false |}.
Definition kstack_flags : PageFlags := {| pf_writable := true; pf_user := false; pf_no_execute := true |}.

(** The table entry [i] of table [t] points to, created when absent. *)
Definition next_table_mut (t i : Z) (m : Paging) : option Z * Paging :=
  let e := read_entry m t i in
  if pe_is_unused e then
    match alloc 1 m with
    | (None, m) => (None, m)
    | (Some frame, m) =>
        let m := zero_frame frame m in
        let e := pe_set frame table_flags in
        (Some (pe_addr e), write_entry t i e m)
    end
  else (Some (pe_addr e), m).

Definition map_page_in (pml4 va pa : Z) (fl : PageFlags) (m : Paging) : bool * Paging :=
  let frame := page_floor pa in
  match next_table_mut pml4 (p4_index va) m with
  | (None, m) => (false, m)
  | (Some l3, m) =>
      match next_table_mut l3 (p3_index va) m with
      | (None, m) => (false, m)
      | (Some l2, m) =>
          match next_table_mut l2 (p2_index va) m with
          | (None, m) => (false, m)
          | (Some l1, m) => (true, write_entry l1 (p1_index va) (pe_set frame fl) m)
          end
      end
  end.

(** The table an entry points to, if the entry is in use. *)
Definition table_of (m : Paging) (t i : Z) : option Z :=
  let e := read_entry m t i in if pe_is_unused e then None else Some (pe_addr e).

Definition unmap_page_in (pml4 va : Z) (m : Paging) : Paging :=
  match table_of m pml4 (p4_index va) with
  | None => m
  | Some l3 =>
      match table_of m l3 (p3_index va) with
      | None => m
      | Some l2 =>
          match table_of m l2 (p2_index va) with
          | None => m
          | Some l1 => write_entry l1 (p1_index va) 0 m
          end
      end
  end.

Definition translate (m : Paging) (pml4 va : Z) : option Z :=
  let? l3 := table_of m pml4 (p4_index va) in
  let? l2 := table_of m l3 (p3_index va) in
  let? l1 := table_of m l2 (p2_index va) in
  let? frame := table_of m l1 (p1_index va) in
  Some (frame + page_offset va).

(** ** Address spaces and kernel stacks *)

Definition register_address_space (pml4 : Z) (m : Paging) : Paging :=
  if bool_decide (pml4 ∈ ADDRESS_SPACES m) then m else set_SPACES (ADDRESS_SPACES m ++ [pml4]) m.

(** The inner loop of [register_kstack]: one page into every space. *)
Fixpoint map_all (spaces : list Z) (va pa : Z) (m : Paging) : bool * Paging :=
  match spaces with
  | [] => (true, m)
  | pml4 :: spaces =>
      match map_page_in pml4 va pa kstack_flags m with
      | (false, m) => (false, m)
      | (true, m) => map_all spaces va pa m
      end
  end.

Definition unmap_all (spaces : list Z) (va : Z) (m : Paging) : Paging :=
  foldl (fun m pml4 => unmap_page_in pml4 va m) m spaces.

(** The outer loop: page [i] on; the failing page is undone with those before. *)
Fixpoint map_kstack (spaces : list Z) (stack_base frames_base : Z) (n : nat) (i : Z) (m : Paging) : bool * Paging :=
  match n with
  | O => (true, m)
  | S n =>
      match map_all spaces (stack_base + i * 4096) (frames_base + i * 4096) m with
      | (true, m) => map_kstack spaces stack_base frames_base n (i + 1) m
      | (false, m) =>
          (false, foldl (fun m j => unmap_all spaces (stack_base + j * 4096) m) m (seqZ 0 (i + 1)))
      end
  end.

Definition register_kstack (stack_base frames_base pages : Z) (m : Paging) : bool * Paging :=
  match map_kstack (ADDRESS_SPACES m) stack_base frames_base (Z.to_nat pages) 0 m with
  | (false, m) => (false, m)
  | (true, m) => (true, set_KSTACKS (KSTACKS m ++ [(stack_base, frames_base, pages)]) m)
  end.

Definition unregister_kstack (stack_base pages : Z) (m : Paging) : Paging :=
  let spaces := ADDRESS_SPACES m in
  let m := foldl (fun m i => unmap_all spaces (stack_base + i * 4096) m) m (seqZ 0 pages) in
  set_KSTACKS (List.filter (fun s => negb (fst (fst s) =? stack_base)) (KSTACKS m)) m.

(** ** Teardown *)

(** [walk]: free what entry [i] of table [t] reaches, then the entry's frame. *)
Definition walk_entry (walk : Z -> Paging -> option Paging) (level : Z) (t : Z) (m : Paging) (i : Z)
    : option Paging :=
  let e := read_entry m t i in
  if pe_is_unused e then Some m else
  let? m := if negb (pe_huge e) && (1 <? level) then walk (pe_addr e) m else Some m in
  let? m := release (pe_addr (read_entry m t i)) 1 m in
  Some (write_entry t i 0 m).

Fixpoint walk_entries (walk : Z -> Paging -> option Paging) (level t : Z) (is_ : list Z) (m : Paging) : option Paging :=
  match is_ with
  | [] => Some m
  | i :: is_ => let? m := walk_entry walk level t m i in walk_entries walk level t is_ m
  end.

Fixpoint walk (guard : nat) (level t : Z) (m : Paging) : option Paging :=
  match guard with
  | O => Some m
  | S guard => walk_entries (walk guard (level - 1)) level t (seqZ 0 512) m
  end.

Definition free_user_subtree (pml4 : Z) (m : Paging) : option Paging :=
  let e := read_entry m pml4 0 in
  let? m :=
    if pe_is_unused e then Some m else
    let? m := walk 8 3 (pe_addr e) m in
    let? m := release (pe_addr (read_entry m pml4 0)) 1 m in
    Some (write_entry pml4 0 0 m) in
  release pml4 1 m.

Definition destroy_address_space (pml4 : Z) (m : Paging) : option Paging :=
  let? m := free_user_subtree pml4 m in
  Some (set_SPACES (List.filter (fun p => negb (p =? pml4)) (ADDRESS_SPACES m)) m).

(** ** Creation *)

Fixpoint replay_pages (pml4 base frames_base : Z) (n : nat) (i : Z) (m : Paging) : bool * Paging :=
  match n with
  | O => (true, m)
  | S n =>
      match map_page_in pml4 (base + i * 4096) (frames_base + i * 4096) kstack_flags m with
      | (false, m) => (false, m)
      | (true, m) => replay_pages pml4 base frames_base n (i + 1) m
      end
  end.

Fixpoint replay_kstacks (pml4 : Z) (stacks : list (Z * Z * Z)) (m : Paging) : bool * Paging :=
  match stacks with
  | [] => (true, m)
  | (base, frames_base, pages) :: stacks =>
      match replay_pages pml4 base frames_base (Z.to_nat pages) 0 m with
      | (false, m) => (false, m)
      | (true, m) => replay_kstacks pml4 stacks m
      end
  end.

Definition copy_entries (dst src : Z) (m : Paging) : Paging :=
  foldl (fun m i => write_entry dst i (read_entry m src i) m) m (seqZ 1 511).

(** [active] is the frame CR3 points to. *)
Definition new_address_space (active : Z) (m : Paging) : option (option Z * Paging) :=
  match alloc 1 m with
  | (None, m) => Some (None, m)
  | (Some new_frame, m) =>
      let m := zero_frame new_frame m in
      let m := copy_entries new_frame active m in
      match replay_kstacks new_frame (KSTACKS m) m with
      | (false, m) => let? m := free_user_subtree new_frame m in Some (None, m)
      | (true, m) => Some (Some new_frame, register_address_space new_frame m)
      end
  end.

Definition kernel_space (m : Paging) : option Z := head (ADDRESS_SPACES m).
End ops.
End Paging.

(** frame.rs and paging.rs as the kernel's memory manager. *)
#[global] Instance paging_ops `{PageEntry} : MemOps Paging.Paging := {
  mem_alloc := Paging.alloc;
  mem_free := Paging.release;
  mem_stats := fun m => frame_stats (Paging.ALLOCATOR m);
  translate := Paging.translate;
  phys_read := fun m pa => Paging.byte_of (Paging.BYTES m) pa;
  phys_write := fun pa b m => Paging.set_BYTES (Paging.write_byte pa b (Paging.BYTES m)) m;
  phys_zero := fun pa n m => Paging.set_BYTES (Paging.zero_bytes pa n (Paging.BYTES m)) m;
  map_page_in := Paging.map_page_in;
  unmap_page_in := Paging.unmap_page_in;
  new_address_space := Paging.new_address_space;
  destroy_address_space := Paging.destroy_address_space;
  register_kstack := Paging.register_kstack;
  unregister_kstack := Paging.unregister_kstack;
  kernel_space := Paging.kernel_space;
}.

(** The entry format of the processor: bit 0 present, 1 writable, 2 user,
    7 huge, 63 no-execute, bits 12 to 51 the frame. *)
Definition x86_addr_mask : Z := 0x000ffffffffff000.

Definition x86_flags (fl : PageFlags) : Z :=
  1 + (if pf_writable fl then 2 else 0) + (if pf_user fl then 4 else 0) +
  (if pf_no_execute fl then 2 ^ 63 else 0).

Definition x86_entry : PageEntry := {|
  pe_set := fun a fl => Z.lor a (x86_flags fl);
  pe_addr := fun e => Z.land e x86_addr_mask;
  pe_is_unused := fun e => e =? 0;
  pe_huge := fun e => Z.testbit e 7;
|}.
