(* ===== verification/PagingInv.v ===== *)
(** * The ghost description of the page tables

    A radix tree in memory is described by one finite map from (owner, path)
    to frames: the path [] is the PML4 of the owner, [i4] the table its entry
    [i4] points to, and so on down to the leaves at depth four.  User
    subtrees (slot 0) belong to their space; the kernel-stack subtree (slot
    384) is shared by every space and belongs to the kernel.  Every frame
    occurs once, so a store into one table changes no other entry. *)

From S2P Require Import Prelude RustStd Frame Caps Kernel Sched TaskOps ElfSafety MemLaws FrameOwn Paging.
Import Paging.

(** ** Bytes and entries *)

Lemma byte_store pa v bs pa' : byte_of (store_byte pa v bs) pa' = if decide (pa = pa') then v else byte_of bs pa'.
Proof.
  unfold byte_of, store_byte. destruct (Z.eqb_spec v 0) as [->|Hv]; destruct (decide (pa = pa')) as [<-|Hne].
  - by rewrite lookup_delete_eq.
  - by rewrite lookup_delete_ne.
  - by rewrite lookup_insert_eq.
  - by rewrite lookup_insert_ne.
Qed.

Lemma bytes_store pa v bs :
  is_byte v -> (forall x b, bs !! x = Some b -> is_byte b) -> forall x b, store_byte pa v bs !! x = Some b -> is_byte b.
Proof.
  intros Hv Hb x b. unfold store_byte. destruct (v =? 0).
  - intros [_ ?]%lookup_delete_Some. by eapply Hb.
  - rewrite lookup_insert_Some. intros [[_ <-]|[_ ?]]; [done|by eapply Hb].
Qed.

Lemma byte_put_list a vs : forall s bs pa,
  byte_of (foldr (fun p bs => store_byte (a + fst p) (snd p) bs) bs (zip (seqZ s (Z.of_nat (length vs))) vs)) pa =
    if decide (a + s <= pa < a + s + Z.of_nat (length vs))
    then default 0 (vs !! Z.to_nat (pa - a - s)) else byte_of bs pa.
Proof.
  induction vs as [|v vs IH]; intros s bs pa.
  - simpl. destruct (decide _); [lia|done].
  - cbn [length]. rewrite seqZ_cons by lia. replace (Z.pred _) with (Z.of_nat (length vs)) by lia.
    cbn [zip zip_with foldr fst snd]. rewrite byte_store. destruct (decide (a + s = pa)) as [<-|Hne].
    + destruct (decide _); [|lia]. by replace (Z.to_nat _) with 0%nat by lia.
    + rewrite IH. destruct (decide (a + Z.succ s <= pa < _)), (decide (a + s <= pa < _)); try lia.
      replace (Z.to_nat (pa - a - s)) with (S (Z.to_nat (pa - a - Z.succ s))) by lia. done.
Qed.

Lemma byte_put_entry t i w bs pa :
  byte_of (put_entry t i w bs) pa =
    if decide (t + 8 * i <= pa < t + 8 * i + 8)
    then default 0 (to_le_bytes 8 w !! Z.to_nat (pa - (t + 8 * i))) else byte_of bs pa.
Proof.
  unfold put_entry. pose proof (byte_put_list (t + 8 * i) (to_le_bytes 8 w) 0 bs pa) as E.
  rewrite length_to_le_bytes in E. change (Z.of_nat 8) with 8 in E. rewrite E, Z.add_0_r, Z.sub_0_r. done.
Qed.

Lemma byte_put_entry_out t i w bs pa :
  ~ (t + 8 * i <= pa < t + 8 * i + 8) -> byte_of (put_entry t i w bs) pa = byte_of bs pa.
Proof. intros Hn. rewrite byte_put_entry. by destruct (decide _). Qed.

Lemma entry_of_ext bs bs' t i :
  (forall pa, t + 8 * i <= pa < t + 8 * i + 8 -> byte_of bs' pa = byte_of bs pa) ->
  entry_of bs' t i = entry_of bs t i.
Proof.
  intros He. unfold entry_of. f_equal. apply list_fmap_ext. intros k j Hj.
  apply He. apply lookup_seqZ in Hj. lia.
Qed.

Lemma fmap_nth_seqZ (l : list Z) :
  (fun j => default 0 (l !! Z.to_nat j)) <$> seqZ 0 (Z.of_nat (length l)) = l.
Proof.
  apply list_eq. intros k. rewrite list_lookup_fmap. destruct (decide (k < length l)%nat) as [Hk|Hk].
  - rewrite lookup_seqZ_lt by lia. simpl. rewrite Z.add_0_l, Nat2Z.id.
    destruct (lookup_lt_is_Some_2 l k Hk) as [x ->]. done.
  - rewrite lookup_seqZ_ge by lia. simpl. symmetry. apply lookup_ge_None_2. lia.
Qed.

Lemma entry_put_same t i w bs : fits 64 w -> entry_of (put_entry t i w bs) t i = w.
Proof.
  intros Hw. unfold entry_of. transitivity (from_le_bytes (to_le_bytes 8 w)).
  - f_equal. rewrite <- (fmap_nth_seqZ (to_le_bytes 8 w)) at 1. rewrite length_to_le_bytes.
    apply list_fmap_ext. intros k j Hj%lookup_seqZ. rewrite byte_put_entry.
    destruct (decide _); [|lia]. by replace (t + 8 * i + j - (t + 8 * i)) with j by lia.
  - apply from_le_to_le_small. exact Hw.
Qed.

Lemma frames_apart a b : aligned a -> aligned b -> a <> b -> a + 4096 <= b \/ b + 4096 <= a.
Proof.
  unfold aligned, PAGE_SIZE. intros Ha Hb Hne.
  pose proof (Z.div_mod a 4096). pose proof (Z.div_mod b 4096). nia.
Qed.

Lemma entry_put_ne t i w bs t' i' :
  aligned t -> aligned t' -> 0 <= i < 512 -> 0 <= i' < 512 -> (t, i) <> (t', i') ->
  entry_of (put_entry t i w bs) t' i' = entry_of bs t' i'.
Proof.
  intros Ht Ht' Hi Hi' Hne. apply entry_of_ext. intros pa Hpa. apply byte_put_entry_out.
  destruct (decide (t = t')) as [<-|Hd].
  - assert (i <> i') by congruence. lia.
  - destruct (frames_apart t t'); [done..| |]; lia.
Qed.

Lemma byte_zero_bytes f n bs pa :
  byte_of (zero_bytes f n bs) pa = if decide (f <= pa < f + n) then 0 else byte_of bs pa.
Proof.
  unfold byte_of, zero_bytes. rewrite map_lookup_filter. destruct (bs !! pa) as [b|] eqn:E; simpl.
  - case_guard as Hg; simpl; destruct (decide _); try done; by destruct Hg.
  - by destruct (decide _).
Qed.

Lemma entry_zero_in f bs i : 0 <= i < 512 -> entry_of (zero_bytes f PAGE_SIZE bs) f i = 0.
Proof.
  intros Hi. unfold entry_of. transitivity (from_le_bytes (replicate 8 0)); [|done]. f_equal.
  apply list_eq. intros k. rewrite list_lookup_fmap. destruct (decide (k < 8)%nat).
  - rewrite lookup_seqZ_lt by lia. rewrite lookup_replicate_2 by lia. simpl. f_equal.
    rewrite byte_zero_bytes. unfold PAGE_SIZE. by destruct (decide _); [|lia].
  - rewrite lookup_seqZ_ge by lia. simpl. symmetry. apply lookup_ge_None_2. simpl. lia.
Qed.

Lemma entry_zero_out f bs t i n :
  aligned f -> aligned t -> 0 <= i < 512 -> 0 <= n -> (forall j, 0 <= j < n -> t <> f + j * PAGE_SIZE) ->
  entry_of (zero_bytes f (n * PAGE_SIZE) bs) t i = entry_of bs t i.
Proof.
  intros Hf Ht Hi Hn Hne. apply entry_of_ext. intros pa Hpa. rewrite byte_zero_bytes.
  destruct (decide _) as [Hin|]; [|done]. exfalso.
  unfold aligned, PAGE_SIZE in *. apply (Hne ((t - f) / 4096)).
  - pose proof (Z.div_mod (t - f) 4096). assert ((t - f) mod 4096 = 0) by (by rewrite Zminus_mod, Hf, Ht).
    pose proof (Z.mod_pos_bound pa 4096). nia.
  - pose proof (Z.div_mod (t - f) 4096). assert ((t - f) mod 4096 = 0) by (by rewrite Zminus_mod, Hf, Ht). lia.
Qed.

(** ** Paths *)

Definition path (va : Z) : list Z := [p4_index va; p3_index va; p2_index va; p1_index va].

Lemma index_range k va : 0 <= Z.land (Z.shiftr va k) 511 < 512.
Proof. change 511 with (Z.ones 9). rewrite Z.land_ones by lia. apply Z.mod_pos_bound. lia. Qed.

Lemma index_div k va : 0 <= k -> Z.land (Z.shiftr va k) 511 = va / 2 ^ k mod 512.
Proof. intros Hk. change 511 with (Z.ones 9). by rewrite Z.land_ones, Z.shiftr_div_pow2 by lia. Qed.

Lemma page_offset_mod va : page_offset va = va mod PAGE_SIZE.
Proof. unfold page_offset. change 4095 with (Z.ones 12). by rewrite Z.land_ones by lia. Qed.

(** A path determines the page within 2^48 bytes. *)
Lemma path_page va : 
  va / PAGE_SIZE mod 2 ^ 36 = ((p4_index va * 512 + p3_index va) * 512 + p2_index va) * 512 + p1_index va.
Proof.
  unfold p4_index, p3_index, p2_index, p1_index, PAGE_SIZE. rewrite !index_div by lia.
  replace (va / 2 ^ 39) with (va / 4096 / 2 ^ 27) by (rewrite Z.div_div by lia; done).
  replace (va / 2 ^ 30) with (va / 4096 / 2 ^ 18) by (rewrite Z.div_div by lia; done).
  replace (va / 2 ^ 21) with (va / 4096 / 2 ^ 9) by (rewrite Z.div_div by lia; done).
  change (2 ^ 12) with 4096. generalize (va / 4096). intros x.
  change (2 ^ 36) with 68719476736. change (2 ^ 27) with 134217728. change (2 ^ 18) with 262144. change (2 ^ 9) with 512.
  Z.to_euclidean_division_equations. lia.
Qed.

Lemma path_inj va va' :
  aligned va -> aligned va' -> va / 2 ^ 48 = va' / 2 ^ 48 -> path va = path va' -> va = va'.
Proof.
  unfold path. intros Ha Ha' Hh [= E4 E3 E2 E1].
  pose proof (path_page va) as P. pose proof (path_page va') as P'. rewrite E4, E3, E2, E1, <- P' in P.
  unfold aligned, PAGE_SIZE in *.
  replace (va / 2 ^ 48) with (va / 4096 / 2 ^ 36) in Hh by (rewrite Z.div_div by lia; done).
  replace (va' / 2 ^ 48) with (va' / 4096 / 2 ^ 36) in Hh by (rewrite Z.div_div by lia; done).
  pose proof (Z.div_mod va 4096). pose proof (Z.div_mod va' 4096).
  pose proof (Z.div_mod (va / 4096) (2 ^ 36)). pose proof (Z.div_mod (va' / 4096) (2 ^ 36)). lia.
Qed.

Lemma path_same_page va : path (va - va mod PAGE_SIZE) = path va.
Proof.
  assert (E : (va - va mod PAGE_SIZE) / 4096 = va / 4096).
  { unfold PAGE_SIZE. pose proof (Z.div_mod va 4096). replace (va - va mod 4096) with (va / 4096 * 4096) by lia.
    by rewrite Z.div_mul. }
  unfold path, p4_index, p3_index, p2_index, p1_index. rewrite !index_div by lia.
  replace (2 ^ 39) with (4096 * 2 ^ 27) by done. replace (2 ^ 30) with (4096 * 2 ^ 18) by done.
  replace (2 ^ 21) with (4096 * 2 ^ 9) by done. replace (2 ^ 12) with 4096 by done.
  by rewrite <- !(Z.div_div _ 4096), E by lia.
Qed.

Lemma user_slot va : 0 <= va < USER_STACK_TOP -> p4_index va = 0.
Proof.
  unfold USER_STACK_TOP, p4_index. intros Hva. rewrite index_div by lia.
  by rewrite Z.div_small by lia.
Qed.

(** The slot of the kernel stacks. *)
Definition KSLOT : Z := 384.

(** Pages of any kernel stack, the idle one included. *)
Definition stack_page (va : Z) : Prop :=
  aligned va /\ KSTACK_REGION_BASE <= va < KSTACK_REGION_BASE + 4096 * KSTACK_SLOT_BYTES.

Lemma stack_slot va : stack_page va -> p4_index va = KSLOT.
Proof.
  unfold stack_page, KSTACK_REGION_BASE, KSTACK_SLOT_BYTES, KSTACK_PAGES, KSTACK_GUARD_PAGES, p4_index, KSLOT.
  intros [_ Hva]. rewrite index_div by lia.
  replace (va / 2 ^ 39) with 33554304; [done|].
  apply (Z.div_unique_pos va (2 ^ 39) _ (va - 33554304 * 2 ^ 39)); lia.
Qed.

(** ** The tree *)

Notation ptree := (gmap (Z * list Z) Z).

Definition img (pt : ptree) : gset Z := map_img pt.

Lemma elem_of_img pt f : f ∈ img pt <-> exists k, pt !! k = Some f.
Proof. apply elem_of_map_img. Qed.

(** The node a path of space [c] names: slot [KSLOT] is the kernel's. *)
Definition key (kc c : Z) (p : list Z) : Z * list Z :=
  (match p with i :: _ => if i =? KSLOT then kc else c | [] => c end, p).

Section tree.
  Context `{PE : PageEntry} `{!PageEntryLaws}.

Definition entry_is (bs : gmap Z Z) (t i : Z) (o : option Z) : Prop :=
  match o with
  | None => entry_of bs t i = 0
  | Some f => exists fl, entry_of bs t i = pe_set f fl
  end.

(** The slots of its PML4 a space uses. *)
Definition slot_ok (sp : gset Z) (c : Z) (p : list Z) (i : Z) : Prop :=
  p = [] -> i = KSLOT \/ i = 0 /\ c ∈ sp.

Record tree_ok (kc : Z) (sp : gset Z) (pt : ptree) (bs : gmap Z Z) : Prop := {
  to_kc : kc ∉ sp;
  to_root c f : pt !! (c, []) = Some f <-> f = c /\ (c ∈ sp \/ c = kc);
  to_inj k1 k2 f : pt !! k1 = Some f -> pt !! k2 = Some f -> k1 = k2;
  to_step c p i f : pt !! (c, p ++ [i]) = Some f ->
    0 <= i < 512 /\ (length p <= 3)%nat /\ is_Some (pt !! (c, p));
  to_slot c i p f : pt !! (c, i :: p) = Some f -> (i = 0 /\ c ∈ sp) \/ (i = KSLOT /\ c = kc);
  to_kslot : is_Some (pt !! (kc, [KSLOT]));
  to_frame k f : pt !! k = Some f -> frame_addr f;
  to_entry c p t i : pt !! (c, p) = Some t -> (length p <= 3)%nat -> 0 <= i < 512 ->
    slot_ok sp c p i -> entry_is bs t i (pt !! key kc c (p ++ [i]));
}.

Lemma key_child kc sp pt bs c p t i :
  tree_ok kc sp pt bs -> pt !! (c, p) = Some t -> (p = [] -> i <> KSLOT \/ c = kc) ->
  key kc c (p ++ [i]) = (c, p ++ [i]).
Proof.
  intros Hok Hp Hi. unfold key. destruct p as [|j p]; simpl.
  - destruct (Z.eqb_spec i KSLOT) as [->|]; [|done]. by destruct (Hi eq_refl) as [| ->].
  - destruct (to_slot _ _ _ _ Hok _ _ _ _ Hp) as [[-> _]|[-> ->]]; [done|]. by rewrite Z.eqb_refl.
Qed.

Lemma key_lookup_inv kc sp pt bs c p i f :
  tree_ok kc sp pt bs -> pt !! (c, p ++ [i]) = Some f -> key kc c (p ++ [i]) = (c, p ++ [i]).
Proof.
  intros Hok Hp. unfold key. destruct p as [|j p]; simpl in *;
    destruct (to_slot _ _ _ _ Hok _ _ _ _ Hp) as [[-> _]|[-> ->]]; by try rewrite Z.eqb_refl.
Qed.

(** Prefixes of a path in the tree are in the tree. *)
Lemma prefix_in_tree kc sp pt bs c p : tree_ok kc sp pt bs ->
  forall q, is_Some (pt !! (c, p ++ q)) -> is_Some (pt !! (c, p)).
Proof.
  intros Hok. induction q as [|i q IH] using rev_ind; [by rewrite app_nil_r|].
  rewrite app_assoc. intros [f Hf]. apply IH. by destruct (to_step _ _ _ _ Hok _ _ _ _ Hf) as (_ & _ & ?).
Qed.

Lemma path_depth kc sp pt bs c p f : tree_ok kc sp pt bs -> pt !! (c, p) = Some f -> (length p <= 4)%nat.
Proof.
  intros Hok. destruct p as [|i p _] using rev_ind; simpl; [lia|]. intros Hf.
  destruct (to_step _ _ _ _ Hok _ _ _ _ Hf) as (_ & ? & _). rewrite length_app. simpl. lia.
Qed.

(** Only tables matter to the tree. *)
Lemma tree_bytes kc sp pt bs bs' :
  tree_ok kc sp pt bs ->
  (forall k t i, pt !! k = Some t -> (length (snd k) <= 3)%nat -> 0 <= i < 512 ->
     entry_of bs' t i = entry_of bs t i) ->
  tree_ok kc sp pt bs'.
Proof.
  intros Hok He. pose proof Hok as []. split; try done. intros c p t i Hp Hl Hi Hs.
  unfold entry_is. rewrite (He (c, p) t i) by done. by apply (to_entry _ _ _ _ Hok).
Qed.

Lemma tree_reflag kc sp pt bs c p t i f fl :
  tree_ok kc sp pt bs -> pt !! (c, p) = Some t -> (length p <= 3)%nat -> 0 <= i < 512 ->
  slot_ok sp c p i -> pt !! key kc c (p ++ [i]) = Some f ->
  tree_ok kc sp pt (put_entry t i (pe_set f fl) bs).
Proof.
  intros Hok Hp Hl Hi Hs Hf. pose proof Hok as []. split; try done. intros c' p' t' i' Hp' Hl' Hi' Hs'.
  destruct (decide ((t, i) = (t', i'))) as [[= <- <-]|Hne].
  - pose proof (to_inj0 _ _ _ Hp Hp') as [= <- <-]. rewrite Hf. exists fl.
    apply entry_put_same, pe_word. by eapply to_frame0.
  - unfold entry_is. rewrite entry_put_ne; try done; [by apply to_entry0|..]; by eapply to_frame0.
Qed.

Lemma tree_attach kc sp pt bs c p t i f fl :
  tree_ok kc sp pt bs -> pt !! (c, p) = Some t -> (length p <= 3)%nat -> 0 <= i < 512 ->
  (p = [] -> i = 0 /\ c ∈ sp) -> pt !! (c, p ++ [i]) = None -> f ∉ img pt -> frame_addr f ->
  ((length p <= 2)%nat -> forall j, 0 <= j < 512 -> entry_of bs f j = 0) ->
  tree_ok kc sp (<[(c, p ++ [i]) := f]> pt) (put_entry t i (pe_set f fl) bs).
Proof.
  intros Hok Hp Hl Hi Hs Hn Hf Hfa Hz. pose proof Hok as [Hkc Hroot Hinj Hstep Hslot Hks Hfr Hent].
  assert (Hnew : forall k, pt !! k = Some f -> False) by (intros k Hk; apply Hf, elem_of_img; eauto).
  assert (Hnil : forall x : Z, p ++ [i] <> []) by (intros _; by destruct p).
  split; try done.
  - intros c' f'. rewrite lookup_insert_ne by (intros [= ? ?]; by destruct p). apply Hroot.
  - intros k1 k2 f'. rewrite !lookup_insert_Some. naive_solver.
  - intros c' p' i' f'. rewrite lookup_insert_Some. intros [[E _]|[Hne H']].
    + injection E as -> E. apply app_inj_tail in E as [-> ->]. split; [done|]. split; [done|].
      rewrite lookup_insert_ne; [by rewrite Hp|]. intros [= E]. apply (f_equal length) in E.
      rewrite length_app in E. simpl in E. lia.
    + apply Hstep in H' as (? & ? & H'). split; [done|]. split; [done|].
      apply lookup_insert_is_Some'. by right.
  - intros c' i' p' f'. rewrite lookup_insert_Some. intros [[E _]|[_ H']]; [|by eapply Hslot].
    injection E as -> E. destruct p as [|j p]; simpl in E; injection E as -> <-.
    + left. by apply Hs.
    + by eapply Hslot.
  - apply lookup_insert_is_Some'. by right.
  - intros k f'. rewrite lookup_insert_Some. intros [[_ <-]|[_ H']]; [done|by eapply Hfr].
  - intros c' p' t' i'. rewrite lookup_insert_Some. intros [[E <-]|[Hne Hp']] Hl' Hi' Hs'.
    + injection E as <- <-. rewrite length_app in Hl'. simpl in Hl'.
      assert (Hk : key kc c ((p ++ [i]) ++ [i']) = (c, (p ++ [i]) ++ [i'])).
      { destruct p as [|j p]; unfold key; simpl; [by destruct (Hs eq_refl) as [-> _]|].
        destruct (Hslot _ _ _ _ Hp) as [[-> _]|[-> ->]]; [done|by rewrite Z.eqb_refl]. }
      rewrite Hk, lookup_insert_ne.
      2:{ intros [= E]. apply (f_equal length) in E. rewrite !length_app in E. simpl in E. lia. }
      assert (pt !! (c, (p ++ [i]) ++ [i']) = None) as ->.
      { destruct (pt !! (c, (p ++ [i]) ++ [i'])) as [x|] eqn:Ex; [|done]. apply Hstep in Ex as (_ & _ & [y Hy]). congruence. }
      simpl. rewrite entry_put_ne; try done; [apply Hz; [lia|done]|by eapply Hfr|by destruct Hfa|].
      intros [= <- _]. by eapply Hnew.
    + destruct (decide ((t, i) = (t', i'))) as [[= <- <-]|Hd].
      * pose proof (Hinj _ _ _ Hp Hp') as [= <- <-].
        rewrite (key_child kc sp pt bs c p t i) by (try done; intros E; left; by destruct (Hs E) as [-> _]).
        rewrite lookup_insert_eq. exists fl. by apply entry_put_same, pe_word.
      * assert (Hold : key kc c' (p' ++ [i']) <> (c, p ++ [i])).
        { intros E. unfold key in E. injection E as Eo E. apply app_inj_tail in E as [-> ->].
          apply Hd. f_equal. assert (c' = c); [|naive_solver].
          destruct p as [|j p]; simpl in Eo; [destruct (Hs eq_refl) as [-> _]; done|].
          destruct (Hslot _ _ _ _ Hp) as [[-> _]|[-> ->]]; [done|].
          by destruct (Hslot _ _ _ _ Hp') as [[? _]|[_ ->]]. }
        rewrite lookup_insert_ne by done. unfold entry_is. rewrite entry_put_ne; try done;
          [by apply Hent|..]; by eapply Hfr.
Qed.

Lemma tree_detach kc sp pt bs c p t i f :
  tree_ok kc sp pt bs -> pt !! (c, p) = Some t -> pt !! (c, p ++ [i]) = Some f ->
  (p = [] -> i <> KSLOT) -> (forall j, pt !! (c, (p ++ [i]) ++ [j]) = None) ->
  tree_ok kc sp (delete (c, p ++ [i]) pt) (put_entry t i 0 bs).
Proof.
  intros Hok Hp Hf Hs Hleaf. pose proof Hok as [Hkc Hroot Hinj Hstep Hslot Hks Hfr Hent].
  destruct (Hstep _ _ _ _ Hf) as (Hi & Hl & _).
  split; try done.
  - intros c' f'. rewrite lookup_delete_ne by (intros [= ? ?]; by destruct p). apply Hroot.
  - intros k1 k2 f'. rewrite !lookup_delete_Some. naive_solver.
  - intros c' p' i' f'. rewrite lookup_delete_Some. intros [Hne H'].
    pose proof H' as (? & ? & [x Hx])%Hstep. split; [done|]. split; [done|]. exists x.
    rewrite lookup_delete_Some. split; [|done]. intros [= <- <-]. by rewrite Hleaf in H'.
  - intros c' i' p' f' [_ H']%lookup_delete_Some. by eapply Hslot.
  - destruct Hks as [x Hx]. exists x. apply lookup_delete_Some. split; [|done].
    intros [= <- E]. destruct p as [|j p]; [|by destruct p]. injection E as E. by apply Hs.
  - intros k f' [_ H']%lookup_delete_Some. by eapply Hfr.
  - intros c' p' t' i' [Hne Hp']%lookup_delete_Some Hl' Hi' Hs'.
    destruct (decide ((t, i) = (t', i'))) as [[= <- <-]|Hd].
    + pose proof (Hinj _ _ _ Hp Hp') as [= <- <-].
      rewrite (key_lookup_inv _ _ _ _ _ _ _ _ Hok Hf), lookup_delete_eq. simpl. by apply entry_put_same.
    + assert (Hold : (c, p ++ [i]) <> key kc c' (p' ++ [i'])).
      { intros E. unfold key in E. injection E as Eo E. apply app_inj_tail in E as [-> ->].
        apply Hd. f_equal. assert (c' = c); [|naive_solver].
        destruct p' as [|j p']; simpl in Eo.
        - destruct (Z.eqb_spec i' KSLOT); [|done]. by apply Hs in e.
        - destruct (Hslot _ _ _ _ Hp) as [[-> _]|[-> ->]]; [done|].
          by destruct (Hslot _ _ _ _ Hp') as [[? _]|[_ ->]]. }
      rewrite lookup_delete_ne by done. unfold entry_is.
      rewrite entry_put_ne; try done; [by apply Hent|..]; by eapply Hfr.
Qed.
End tree.

(** ** The tree with the memory and the allocator below it *)

Lemma img_insert (pt : ptree) k f : pt !! k = None -> img (<[k := f]> pt) = {[f]} ∪ img pt.
Proof. intros Hk. unfold img. by rewrite map_img_insert_notin_L. Qed.

Lemma img_delete (pt : ptree) k f :
  (forall k1 k2 f, pt !! k1 = Some f -> pt !! k2 = Some f -> k1 = k2) -> pt !! k = Some f ->
  img (delete k pt) = img pt ∖ {[f]}.
Proof.
  intros Hinj Hk. apply set_eq. intros x. rewrite elem_of_difference, elem_of_singleton, !elem_of_img. split.
  - intros (k' & [Hne Hk']%lookup_delete_Some). split; [eauto|]. intros ->. by apply Hne, (Hinj k k' f).
  - intros [(k' & Hk') Hne]. exists k'. apply lookup_delete_Some. split; [|done]. intros ->. congruence.
Qed.

Lemma bytes_put_entry t i w bs :
  (forall pa b, bs !! pa = Some b -> is_byte b) -> forall pa b, put_entry t i w bs !! pa = Some b -> is_byte b.
Proof.
  intros Hb. unfold put_entry. pose proof (to_le_bytes_ok 8 w) as Hw. revert Hw.
  generalize (seqZ 0 8). induction (to_le_bytes 8 w) as [|v vs IH]; intros [|j js] Hw; [exact Hb..|].
  apply Forall_cons in Hw as [Hv Hw]. cbn [zip zip_with foldr fst snd]. apply bytes_store; [done|]. by apply IH.
Qed.

Lemma take_back (l F : gset Z) : F ## l -> (l ∪ F) ∖ F = l.
Proof. set_solver. Qed.

(** Set goals over images of trees and ranges of frames, with both abstract. *)
Ltac solve_sets :=
  repeat match goal with
  | _ : context [img ?p] |- _ => let I := fresh "I" in set (I := img p) in *; clearbody I
  | |- context [img ?p] => let I := fresh "I" in set (I := img p) in *; clearbody I
  | _ : context [frames_of ?b ?n] |- _ => let F := fresh "F" in set (F := frames_of b n) in *; clearbody F
  | |- context [frames_of ?b ?n] => let F := fresh "F" in set (F := frames_of b n) in *; clearbody F
  end;
  repeat match goal with
  | H : tree_ok _ _ _ _ |- _ => clear H
  | H : accounted _ _ _ |- _ => clear H
  end; set_solver.

Section mem_tree.
  Context `{PE : PageEntry} `{!PageEntryLaws} (base : gset Z) (kc : Z).

Record mem_tree (sp : gset Z) (pt : ptree) (l : gset Z) (m : Paging) : Prop := {
  mt_tree : tree_ok kc sp pt (BYTES m);
  mt_bytes pa b : BYTES m !! pa = Some b -> is_byte b;
  mt_loose : l ## img pt;
  mt_base : base ## l ∪ img pt;
  mt_acct : accounted kc (base ∪ l ∪ (img pt ∖ {[kc]})) (ALLOCATOR m);
}.

(** The lists of paging.rs are not touched. *)
Definition same_lists (m m' : Paging) : Prop := ADDRESS_SPACES m' = ADDRESS_SPACES m /\ KSTACKS m' = KSTACKS m.

#[global] Instance same_lists_preorder : PreOrder same_lists.
Proof. split; [done|]. intros m1 m2 m3 [? ?] [? ?]. split; congruence. Qed.

Lemma loose_frame sp pt l m f : mem_tree sp pt l m -> f ∈ l -> frame_addr f /\ f <> kc.
Proof.
  intros Hm Hf. assert (Hin : f ∈ base ∪ l ∪ (img pt ∖ {[kc]})) by solve_sets.
  destruct (ac_held _ _ _ (mt_acct _ _ _ _ Hm) f Hin) as [Ha Hh].
  pose proof (held_range _ _ (ac_inv _ _ _ (mt_acct _ _ _ _ Hm)) Hh). unfold MIN_ADDR in *.
  split; [split; [done|lia]|]. by eapply held_kernel; [apply (mt_acct _ _ _ _ Hm)|].
Qed.

Lemma kc_in_img sp pt l m : mem_tree sp pt l m -> kc ∈ img pt.
Proof. intros Hm. apply elem_of_img. exists (kc, []). apply (to_root _ _ _ _ (mt_tree _ _ _ _ Hm)). auto. Qed.

Lemma mem_alloc_tree sp pt l m n :
  mem_tree sp pt l m -> 0 < n <= 2 ^ 40 ->
  match alloc n m with
  | (Some b, m') => mem_tree sp pt (l ∪ frames_of b n) m' /\ frames_of b n ## l ∪ img pt /\ BYTES m' = BYTES m /\ same_lists m m'
  | (None, m') => mem_tree sp pt l m' /\ BYTES m' = BYTES m /\ same_lists m m'
  end.
Proof.
  intros Hm Hn. pose proof Hm as [Ht Hb Hl Hbase Ha]. unfold alloc.
  pose proof (accounted_alloc _ _ n _ Ha Hn) as Hacc.
  destruct (alloc_frames n (ALLOCATOR m)) as [[b|] fa']; [|by split; [split|repeat split]].
  destruct Hacc as (Hd & Hk & _ & Hacc).
  assert (Hd' : frames_of b n ## l ∪ img pt).
  { intros x Hx Hx'. destruct (decide (x = kc)) as [->|]; [done|]. apply (Hd x); solve_sets. }
  split; [|by repeat split]. split; try done; try solve_sets.
  by replace (base ∪ (l ∪ frames_of b n) ∪ (img pt ∖ {[kc]}))
    with (base ∪ l ∪ (img pt ∖ {[kc]}) ∪ frames_of b n) by solve_sets.
Qed.

Lemma release_tree sp pt l m b n :
  mem_tree sp pt l m -> 0 < n -> frames_of b n ⊆ l ->
  exists fa', release b n m = Some (set_ALLOCATOR fa' m) /\
    mem_tree sp pt (l ∖ frames_of b n) (set_ALLOCATOR fa' m).
Proof.
  intros Hm Hn Hsub. pose proof Hm as [Ht Hb Hl Hbase Ha]. unfold release.
  destruct (accounted_free _ _ b n _ Ha Hn) as (fa' & -> & Ha'); [solve_sets|].
  exists fa'. split; [done|]. split; try done; try solve_sets.
  replace (base ∪ l ∖ frames_of b n ∪ (img pt ∖ {[kc]}))
    with ((base ∪ l ∪ (img pt ∖ {[kc]})) ∖ frames_of b n) by solve_sets. done.
Qed.

Lemma attach_tree sp pt l m c p t i f fl :
  mem_tree sp pt l m -> pt !! (c, p) = Some t -> (length p <= 3)%nat -> 0 <= i < 512 ->
  (p = [] -> i = 0 /\ c ∈ sp) -> pt !! (c, p ++ [i]) = None -> f ∈ l ->
  ((length p <= 2)%nat -> forall j, 0 <= j < 512 -> read_entry m f j = 0) ->
  mem_tree sp (<[(c, p ++ [i]) := f]> pt) (l ∖ {[f]}) (write_entry t i (pe_set f fl) m).
Proof.
  intros Hm Hp Hl Hi Hs Hn Hf Hz. pose proof Hm as [Ht Hb Hlo Hbase Ha].
  destruct (loose_frame _ _ _ _ _ Hm Hf) as [Hfa Hfk].
  pose proof (img_insert pt (c, p ++ [i]) f Hn) as Him.
  split; [apply tree_attach; try done; solve_sets|by apply bytes_put_entry|..]; rewrite ?Him; [solve_sets..|].
  replace (base ∪ l ∖ {[f]} ∪ (({[f]} ∪ img pt) ∖ {[kc]})) with (base ∪ l ∪ (img pt ∖ {[kc]})); [done|].
  apply set_eq. intros x. destruct (decide (x = f)) as [->|]; solve_sets.
Qed.

Lemma detach_tree sp pt l m c p t i f :
  mem_tree sp pt l m -> pt !! (c, p) = Some t -> pt !! (c, p ++ [i]) = Some f ->
  (p = [] -> i <> KSLOT) -> (forall j, pt !! (c, (p ++ [i]) ++ [j]) = None) ->
  mem_tree sp (delete (c, p ++ [i]) pt) (l ∪ {[f]}) (write_entry t i 0 m).
Proof.
  intros Hm Hp Hf Hs Hleaf. pose proof Hm as [Ht Hb Hlo Hbase Ha].
  pose proof (img_delete pt (c, p ++ [i]) f (to_inj _ _ _ _ Ht) Hf) as Him.
  assert (Hfi : f ∈ img pt) by (apply elem_of_img; eauto).
  assert (Hfk : f <> kc).
  { intros ->. pose proof (proj2 (to_root _ _ _ _ Ht kc kc) (conj eq_refl (or_intror eq_refl))) as Hk.
    pose proof (to_inj _ _ _ _ Ht _ _ _ Hk Hf) as [= _ E]. by destruct p. }
  split; [by eapply tree_detach|by apply bytes_put_entry|..]; rewrite ?Him; [solve_sets..|].
  replace (base ∪ (l ∪ {[f]}) ∪ ((img pt ∖ {[f]}) ∖ {[kc]})) with (base ∪ l ∪ (img pt ∖ {[kc]})); [done|].
  apply set_eq. intros x. destruct (decide (x = f)) as [->|]; solve_sets.
Qed.

Lemma reflag_tree sp pt l m c p t i f fl :
  mem_tree sp pt l m -> pt !! (c, p) = Some t -> (length p <= 3)%nat -> 0 <= i < 512 ->
  slot_ok sp c p i -> pt !! key kc c (p ++ [i]) = Some f ->
  mem_tree sp pt l (write_entry t i (pe_set f fl) m).
Proof.
  intros Hm Hp Hl Hi Hs Hf. pose proof Hm as [Ht Hb Hlo Hbase Ha].
  split; try done; [by eapply tree_reflag|by apply bytes_put_entry].
Qed.

(** Stores into a loose frame or a leaf leave the tree alone. *)
Lemma bytes_tree sp pt l m bs :
  mem_tree sp pt l m -> (forall pa b, bs !! pa = Some b -> is_byte b) ->
  (forall k t i, pt !! k = Some t -> (length (snd k) <= 3)%nat -> 0 <= i < 512 ->
     entry_of bs t i = entry_of (BYTES m) t i) ->
  mem_tree sp pt l (set_BYTES bs m).
Proof.
  intros [Ht Hb Hlo Hbase Ha] Hbs He. split; try done. by eapply tree_bytes.
Qed.

Lemma zero_tree sp pt l m b n :
  mem_tree sp pt l m -> aligned b -> 0 <= n -> frames_of b n ⊆ l ->
  mem_tree sp pt l (set_BYTES (zero_bytes b (n * PAGE_SIZE) (BYTES m)) m).
Proof.
  intros Hm Hb Hn Hsub. apply bytes_tree; [done|..].
  - intros pa v [Hv _]%map_lookup_filter_Some. by apply (mt_bytes _ _ _ _ Hm) in Hv.
  - intros k t i Hk _ Hi. apply entry_zero_out; try done; [by eapply (to_frame _ _ _ _ (mt_tree _ _ _ _ Hm))|].
    intros j Hj ->. apply (mt_loose _ _ _ _ Hm (b + j * PAGE_SIZE)).
    + apply Hsub, elem_of_frames_of. eauto.
    + apply elem_of_img. eauto.
Qed.
End mem_tree.
