(* ===== verification/PagingLaws.v ===== *)
(** * paging.rs implements the memory manager

    Translation reads the ghost tree; mapping, unmapping, the kernel-stack
    fan-out, creation and teardown of address spaces update it; together they
    give every law of [MemLaws].  The frames held at boot ([base]) stay held,
    and what tables and leaves take from the allocator is returned exactly. *)

From S2P Require Import Prelude RustStd Frame Caps Kernel Sched TaskOps ElfSafety MemLaws FrameOwn Paging PagingInv.
Import Paging.

(** Side conditions of one step down the tables. *)
Ltac descend := solve [done | apply index_range | simpl; lia | intros _; done | intros ?; done].

Section walk.
  Context `{PE : PageEntry} `{!PageEntryLaws} (base : gset Z) (kc : Z).
  Notation mem_tree := (mem_tree base kc).

(** ** Descending the tables *)

Lemma key_snoc c p i : key kc (fst (key kc c p)) (p ++ [i]) = key kc c (p ++ [i]).
Proof. destruct p as [|j p]; [done|]. unfold key. simpl. by destruct (j =? KSLOT). Qed.

Lemma key_app c i p q : key kc c ((i :: p) ++ q) = (fst (key kc c (i :: p)), (i :: p) ++ q).
Proof. done. Qed.

Lemma child_spec sp pt l m c p t i :
  mem_tree sp pt l m -> pt !! key kc c p = Some t -> (length p <= 3)%nat -> 0 <= i < 512 ->
  slot_ok sp c p i -> table_of m t i = pt !! key kc c (p ++ [i]).
Proof.
  intros Hm Hp Hl Hi Hs. pose proof (mt_tree _ _ _ _ _ _ Hm) as Ht.
  assert (He : entry_is (BYTES m) t i (pt !! key kc c (p ++ [i]))).
  { rewrite <- key_snoc. apply (to_entry _ _ _ _ Ht); try done. intros ->. by apply Hs. }
  unfold table_of, read_entry, entry_is in *. destruct (pt !! key kc c (p ++ [i])) as [f|] eqn:E.
  - destruct He as [fl ->]. assert (frame_addr f) by (by eapply (to_frame _ _ _ _ Ht)).
    by rewrite pe_used_set, pe_addr_set.
  - by rewrite He, pe_unused_0.
Qed.

Lemma none_below sp pt l m c i p q r :
  mem_tree sp pt l m -> pt !! key kc c (i :: p) = None -> r = (i :: p) ++ q -> pt !! key kc c r = None.
Proof.
  intros Hm Hn ->. destruct (pt !! key kc c ((i :: p) ++ q)) eqn:E; [|done].
  rewrite key_app in E. destruct (prefix_in_tree _ _ _ _ (fst (key kc c (i :: p))) (i :: p) (mt_tree _ _ _ _ _ _ Hm) q)
    as [x Hx]; [by eexists|]. unfold key in *. simpl in *. congruence.
Qed.

(** The addresses the kernel maps: user pages of a space, kernel stacks of any. *)
Definition reach (sp : gset Z) (c va : Z) : Prop :=
  (c ∈ sp \/ c = kc) /\ (p4_index va = KSLOT \/ p4_index va = 0 /\ c ∈ sp).

Lemma root_lookup sp pt l m c : mem_tree sp pt l m -> c ∈ sp \/ c = kc -> pt !! key kc c [] = Some c.
Proof. intros Hm Hc. by apply (to_root _ _ _ _ (mt_tree _ _ _ _ _ _ Hm)). Qed.

Lemma translate_spec sp pt l m c va :
  mem_tree sp pt l m -> reach sp c va ->
  Paging.translate m c va = (fun f => f + page_offset va) <$> pt !! key kc c (path va).
Proof.
  intros Hm [Hc Hs]. unfold Paging.translate.
  pose proof (root_lookup _ _ _ _ _ Hm Hc) as H4.
  rewrite (child_spec sp pt l m c [] c) by descend. simpl app.
  destruct (pt !! key kc c [p4_index va]) as [l3|] eqn:E3.
  2:{ by rewrite (none_below sp pt l m c _ [] [p3_index va; p2_index va; p1_index va] (path va) Hm E3). }
  rewrite (child_spec sp pt l m c [p4_index va] l3) by descend. simpl app.
  destruct (pt !! key kc c [p4_index va; p3_index va]) as [l2|] eqn:E2.
  2:{ by rewrite (none_below sp pt l m c _ [p3_index va] [p2_index va; p1_index va] (path va) Hm E2). }
  rewrite (child_spec sp pt l m c [p4_index va; p3_index va] l2) by descend. simpl app.
  destruct (pt !! key kc c [p4_index va; p3_index va; p2_index va]) as [l1|] eqn:E1.
  2:{ by rewrite (none_below sp pt l m c _ [p3_index va; p2_index va] [p1_index va] (path va) Hm E1). }
  rewrite (child_spec sp pt l m c [p4_index va; p3_index va; p2_index va] l1) by descend.
  by destruct (pt !! key kc c _).
Qed.

(** ** Growing the tables *)

(** New tables, the same leaves. *)
Definition grown (pt pt' : ptree) : Prop :=
  pt ⊆ pt' /\ forall k, length (snd k) = 4%nat -> pt' !! k = pt !! k.

#[global] Instance grown_preorder : PreOrder grown.
Proof.
  split; [by split|]. intros p1 p2 p3 [H1 H1'] [H2 H2']. split; [by etrans|].
  intros k Hk. by rewrite H2', H1'.
Qed.

Lemma next_table_ok sp pt l m c p t i :
  mem_tree sp pt l m -> pt !! key kc c p = Some t -> (length p <= 2)%nat -> 0 <= i < 512 -> slot_ok sp c p i ->
  match next_table_mut t i m with
  | (Some f, m') => exists pt', mem_tree sp pt' l m' /\ pt' !! key kc c (p ++ [i]) = Some f /\ grown pt pt' /\
                      same_lists m m' /\ (is_Some (pt !! key kc c (p ++ [i])) -> m' = m /\ pt' = pt)
  | (None, m') => mem_tree sp pt l m' /\ same_lists m m' /\ pt !! key kc c (p ++ [i]) = None
  end.
Proof.
  intros Hm Hp Hl Hi Hs. pose proof (child_spec sp pt l m c p t i Hm Hp ltac:(lia) Hi Hs) as Hch.
  unfold next_table_mut, table_of in *. destruct (pe_is_unused (read_entry m t i)); simpl in Hch.
  2:{ exists pt. split; [done|]. by split. }
  assert (Hp0 : p = [] -> i = 0 /\ c ∈ sp).
  { intros ->. destruct (Hs eq_refl) as [->|]; [|done]. exfalso.
    destruct (to_kslot _ _ _ _ (mt_tree _ _ _ _ _ _ Hm)) as [x Hx]. unfold key in Hch. simpl in Hch. congruence. }
  assert (Hk : key kc c (p ++ [i]) = (fst (key kc c p), p ++ [i])).
  { destruct p; [|done]. by destruct (Hp0 eq_refl) as [-> _]. }
  pose proof (mem_alloc_tree base kc sp pt l m 1 Hm ltac:(lia)) as Ha.
  destruct (alloc 1 m) as [[f|] m1]; [|naive_solver].
  rewrite frames_of_one in Ha. destruct Ha as (Hm1 & Hd & Hb1 & Hs1).
  destruct (loose_frame _ _ _ _ _ _ f Hm1) as [Hfa _]; [set_solver|].
  assert (Hm2 : mem_tree sp pt (l ∪ {[f]}) (zero_frame f m1)).
  { apply (zero_tree base kc sp pt _ m1 f 1 Hm1); [apply Hfa|lia|]. rewrite frames_of_one. set_solver. }
  rewrite pe_addr_set by done.
  pose proof (attach_tree base kc sp pt _ _ (fst (key kc c p)) p t i f table_flags Hm2) as Hat.
  rewrite Hk. exists (<[(fst (key kc c p), p ++ [i]) := f]> pt).
  rewrite take_back in Hat by (intros x Hx Hxl; apply (Hd x Hx); by apply elem_of_union_l). split; [|split; [|split; [|split]]].
  - apply Hat; try done; [lia| | |set_solver|].
    + intros ->. by apply Hp0.
    + by rewrite <- Hk.
    + intros _ j Hj. unfold read_entry, zero_frame. simpl. by apply entry_zero_in.
  - by rewrite lookup_insert_eq.
  - split; [by apply insert_subseteq; rewrite <- Hk|]. intros k Hk4. apply lookup_insert_ne.
    intros <-. simpl in Hk4. rewrite length_app in Hk4. simpl in Hk4. lia.
  - destruct Hs1. by split.
  - rewrite <- Hk, <- Hch. by intros [? ?].
Qed.

Lemma page_floor_frame a : frame_addr a -> page_floor a = a.
Proof.
  intros [Ha Hr]. rewrite page_floor_div by (red; lia). unfold aligned, PAGE_SIZE in *.
  pose proof (Z.div_mod a 4096). lia.
Qed.

Lemma tables_ok sp pt l m c va :
  mem_tree sp pt l m -> reach sp c va ->
  match next_table_mut c (p4_index va) m with
  | (None, m') => mem_tree sp pt l m' /\ same_lists m m' /\ pt !! key kc c (path va) = None
  | (Some l3, m1) =>
      match next_table_mut l3 (p3_index va) m1 with
      | (None, m') => exists pt', mem_tree sp pt' l m' /\ same_lists m m' /\ grown pt pt' /\ pt !! key kc c (path va) = None
      | (Some l2, m2) =>
          match next_table_mut l2 (p2_index va) m2 with
          | (None, m') => exists pt', mem_tree sp pt' l m' /\ same_lists m m' /\ grown pt pt' /\ pt !! key kc c (path va) = None
          | (Some l1, m') =>
              exists pt', mem_tree sp pt' l m' /\ same_lists m m' /\ grown pt pt' /\
                pt' !! key kc c [p4_index va; p3_index va; p2_index va] = Some l1 /\
                (is_Some (pt !! key kc c (path va)) -> pt' = pt)
          end
      end
  end.
Proof.
  intros Hm [Hc Hs].
  pose proof (next_table_ok sp pt l m c [] c (p4_index va) Hm (root_lookup _ _ _ _ _ Hm Hc) ltac:(simpl; lia)
    (index_range _ _) ltac:(by intros _)) as N4.
  destruct (next_table_mut c (p4_index va) m) as [[l3|] m1].
  2:{ destruct N4 as (? & ? & Hn). split; [done|]. split; [done|].
      by apply (none_below sp pt l m c (p4_index va) [] [p3_index va; p2_index va; p1_index va] (path va) Hm). }
  destruct N4 as (pt1 & Hm1 & L3 & G1 & S1 & I1). simpl app in *.
  pose proof (next_table_ok sp pt1 l m1 c [p4_index va] l3 (p3_index va) Hm1 L3 ltac:(simpl; lia)
    (index_range _ _) ltac:(done)) as N3.
  assert (Hnone : forall q r, path va = (p4_index va :: q) ++ r -> pt1 !! key kc c (p4_index va :: q) = None ->
            pt !! key kc c (path va) = None).
  { intros q r E Hn. apply (none_below sp pt l m c (p4_index va) q r); [done| |done].
    destruct (pt !! key kc c (p4_index va :: q)) eqn:E'; [|done].
    rewrite (lookup_weaken _ _ _ _ E' (proj1 G1)) in Hn. done. }
  destruct (next_table_mut l3 (p3_index va) m1) as [[l2|] m2].
  2:{ destruct N3 as (? & S2 & Hn). exists pt1. split; [done|]. split; [by etrans|]. split; [done|].
      exact (Hnone [p3_index va] [p2_index va; p1_index va] eq_refl Hn). }
  destruct N3 as (pt2 & Hm2 & L2 & G2 & S2 & I2). simpl app in *.
  pose proof (next_table_ok sp pt2 l m2 c [p4_index va; p3_index va] l2 (p2_index va) Hm2 L2 ltac:(simpl; lia)
    (index_range _ _) ltac:(done)) as N2.
  destruct (next_table_mut l2 (p2_index va) m2) as [[l1|] m3].
  - destruct N2 as (pt3 & Hm3 & L1 & G3 & S3 & I3). simpl app in *. exists pt3.
    split; [done|]. split; [by repeat (etrans; [done|])|]. split; [by repeat (etrans; [done|])|]. split; [done|].
    intros Hsome.
    assert (Hin : forall q r, path va = (p4_index va :: q) ++ r -> is_Some (pt !! key kc c (p4_index va :: q))).
    { intros q r E. destruct (pt !! key kc c (p4_index va :: q)) eqn:E'; [done|].
      rewrite (none_below sp pt l m c _ q r (path va) Hm E' E) in Hsome. by destruct Hsome. }
    destruct I1 as [_ ->]; [exact (Hin [] [p3_index va; p2_index va; p1_index va] eq_refl)|].
    destruct I2 as [_ ->]; [exact (Hin [p3_index va] [p2_index va; p1_index va] eq_refl)|].
    by destruct I3 as [_ ->]; [exact (Hin [p3_index va; p2_index va] [p1_index va] eq_refl)|].
  - destruct N2 as (? & S3 & Hn). exists pt2. split; [done|]. split; [by repeat (etrans; [done|])|].
    split; [by repeat (etrans; [done|])|]. simpl app in Hn.
    apply (Hnone [p3_index va; p2_index va] [p1_index va] eq_refl).
    destruct (pt1 !! key kc c [p4_index va; p3_index va; p2_index va]) eqn:E'; [|done].
    by rewrite (lookup_weaken _ _ _ _ E' (proj1 G2)) in Hn.
Qed.

Lemma map_page_ok sp pt l m c va pa fl :
  mem_tree sp pt l m -> reach sp c va -> pa ∈ l -> pt !! key kc c (path va) = None ->
  match Paging.map_page_in c va pa fl m with
  | (true, m') => exists pt', grown pt pt' /\ same_lists m m' /\
                    mem_tree sp (<[key kc c (path va) := pa]> pt') (l ∖ {[pa]}) m'
  | (false, m') => exists pt', grown pt pt' /\ same_lists m m' /\ mem_tree sp pt' l m'
  end.
Proof.
  intros Hm Hr Hpa Hn. pose proof (tables_ok sp pt l m c va Hm Hr) as Ht. unfold Paging.map_page_in.
  destruct (next_table_mut c _ m) as [[l3|] m1]; [|exists pt; naive_solver].
  destruct (next_table_mut l3 _ m1) as [[l2|] m2]; [|naive_solver].
  destruct (next_table_mut l2 _ m2) as [[l1|] m3]; [|naive_solver].
  destruct Ht as (pt' & Hm' & S' & G' & L1 & _). exists pt'. split; [done|]. split; [by destruct S'|].
  destruct (loose_frame _ _ _ _ _ _ pa Hm' Hpa) as [Hfa _]. rewrite page_floor_frame by done.
  apply (attach_tree base kc sp pt' l m3 (fst (key kc c (path va))) [p4_index va; p3_index va; p2_index va] l1 (p1_index va));
    try done; [apply index_range| |simpl; lia].
  rewrite <- Hn. by apply G'.
Qed.

Lemma remap_page_ok sp pt l m c va pa fl :
  mem_tree sp pt l m -> reach sp c va -> pt !! key kc c (path va) = Some pa ->
  exists m', Paging.map_page_in c va pa fl m = (true, m') /\ mem_tree sp pt l m' /\ same_lists m m'.
Proof.
  intros Hm Hr Hpa. pose proof (tables_ok sp pt l m c va Hm Hr) as Ht. unfold Paging.map_page_in.
  destruct (next_table_mut c _ m) as [[l3|] m1]; [|naive_solver congruence].
  destruct (next_table_mut l3 _ m1) as [[l2|] m2]; [|naive_solver congruence].
  destruct (next_table_mut l2 _ m2) as [[l1|] m3]; [|naive_solver congruence].
  destruct Ht as (pt' & Hm' & S' & G' & L1 & I'). rewrite I' in * by eauto.
  assert (Hfa : frame_addr pa) by (by eapply (to_frame _ _ _ _ (mt_tree _ _ _ _ _ _ Hm))).
  rewrite page_floor_frame by done. eexists. split; [done|]. split; [|by destruct S'].
  eapply (reflag_tree base kc sp pt l m3 (fst (key kc c (path va))) [p4_index va; p3_index va; p2_index va] l1 (p1_index va));
    try done; [apply index_range|].
  change (fst (key kc c (path va))) with (fst (key kc c [p4_index va; p3_index va; p2_index va])).
  rewrite key_snoc. exact Hpa.
Qed.

(** ** Clearing a leaf *)

Lemma unmap_page_ok sp pt l m c va :
  mem_tree sp pt l m -> reach sp c va ->
  let m' := Paging.unmap_page_in c va m in
  same_lists m m' /\
  match pt !! key kc c (path va) with
  | Some pa => mem_tree sp (delete (key kc c (path va)) pt) (l ∪ {[pa]}) m'
  | None => mem_tree sp pt l m'
  end.
Proof.
  intros Hm [Hc Hs]. pose proof (root_lookup _ _ _ _ _ Hm Hc) as H4. unfold Paging.unmap_page_in.
  rewrite (child_spec sp pt l m c [] c) by descend. simpl app.
  destruct (pt !! key kc c [p4_index va]) as [l3|] eqn:E3.
  2:{ by rewrite (none_below sp pt l m c _ [] [p3_index va; p2_index va; p1_index va] (path va) Hm E3). }
  rewrite (child_spec sp pt l m c [p4_index va] l3) by descend. simpl app.
  destruct (pt !! key kc c [p4_index va; p3_index va]) as [l2|] eqn:E2.
  2:{ by rewrite (none_below sp pt l m c _ [p3_index va] [p2_index va; p1_index va] (path va) Hm E2). }
  rewrite (child_spec sp pt l m c [p4_index va; p3_index va] l2) by descend. simpl app.
  destruct (pt !! key kc c [p4_index va; p3_index va; p2_index va]) as [l1|] eqn:E1.
  2:{ by rewrite (none_below sp pt l m c _ [p3_index va; p2_index va] [p1_index va] (path va) Hm E1). }
  split; [done|]. set (p := [p4_index va; p3_index va; p2_index va]) in *.
  pose proof (child_spec sp pt l m c p l1 (p1_index va) Hm E1 ltac:(simpl; lia) (index_range _ _) ltac:(done)) as Hch.
  change (path va) with (p ++ [p1_index va]).
  destruct (pt !! key kc c (p ++ [p1_index va])) as [pa|] eqn:E0.
  - apply (detach_tree base kc sp pt l m (fst (key kc c p)) p l1 (p1_index va)); try done.
    intros j. destruct (pt !! (fst (key kc c p), (p ++ [p1_index va]) ++ [j])) eqn:Ej; [|done].
    apply (path_depth _ _ _ _ _ _ _ (mt_tree _ _ _ _ _ _ Hm)) in Ej. simpl in Ej. lia.
  - unfold write_entry. apply bytes_tree; [done|..].
    + apply bytes_put_entry. intros pa b. by apply (mt_bytes _ _ _ _ _ _ Hm).
    + pose proof (mt_tree _ _ _ _ _ _ Hm) as Ht. intros k t i Hk Hl Hi.
      destruct (decide ((l1, p1_index va) = (t, i))) as [[= <- <-]|Hne].
      * rewrite entry_put_same by done. symmetry.
        pose proof (to_entry _ _ _ _ Ht (fst (key kc c p)) p l1 (p1_index va) E1 ltac:(simpl; lia) Hi ltac:(done)) as He.
        rewrite key_snoc, E0 in He. exact He.
      * apply entry_put_ne; try done; [..|apply index_range]; by eapply (to_frame _ _ _ _ Ht).
Qed.

(** ** Teardown *)

(** [pt'] is [pt] without the paths of [c] in [P]. *)
Definition cut (c : Z) (P : list Z -> Prop) (pt pt' : ptree) : Prop :=
  (forall q, P q -> pt' !! (c, q) = None) /\ (forall k, ~ (fst k = c /\ P (snd k)) -> pt' !! k = pt !! k).

(** An entry whose subtree is gone: its frame is freed, the entry cleared. *)
Lemma free_entry sp pt l m c p t i f :
  mem_tree sp pt l m -> pt !! (c, p) = Some t -> pt !! (c, p ++ [i]) = Some f ->
  (p = [] -> i <> KSLOT) -> (forall j, pt !! (c, (p ++ [i]) ++ [j]) = None) ->
  exists fa', release f 1 m = Some (set_ALLOCATOR fa' m) /\
    mem_tree sp (delete (c, p ++ [i]) pt) l (write_entry t i 0 (set_ALLOCATOR fa' m)).
Proof.
  intros Hm Hp Hf Hs Hleaf. assert (Hfi : f ∈ img pt) by (apply elem_of_img; eauto).
  pose proof (detach_tree base kc sp pt l m c p t i f Hm Hp Hf Hs Hleaf) as Hd.
  destruct (release_tree base kc _ _ _ _ f 1 Hd ltac:(lia)) as (fa' & Hr & Hm').
  { rewrite frames_of_one. apply union_subseteq_r. }
  exists fa'. split.
  - unfold release in *. simpl in Hr. destruct (free_frames f 1 (ALLOCATOR m)); [|done].
    by injection Hr as ->.
  - rewrite frames_of_one in Hm'. rewrite take_back in Hm'; [done|].
    intros x ->%elem_of_singleton Hl. by apply (mt_loose _ _ _ _ _ _ Hm f Hl).
Qed.

Section teardown.
  Context (sp : gset Z) (c : Z) (Hc : c ∈ sp).

Lemma user_entry pt l m p t i :
  mem_tree sp pt l m -> pt !! (c, p) = Some t -> (length p <= 3)%nat -> 0 <= i < 512 -> (p = [] -> i = 0) ->
  entry_is (BYTES m) t i (pt !! (c, p ++ [i])).
Proof.
  intros Hm Hp Hl Hi Hs. pose proof (mt_tree _ _ _ _ _ _ Hm) as Ht.
  assert (Hk : key kc c (p ++ [i]) = (c, p ++ [i])).
  { apply (key_child kc sp pt (BYTES m) c p t); [done|done|]. intros E. left. by rewrite (Hs E). }
  rewrite <- Hk. apply (to_entry _ _ _ _ Ht); try done. intros E. right. split; [by apply Hs|done].
Qed.

(** What is cut below one entry. *)
Definition under (p : list Z) (i : Z) (q : list Z) : Prop := exists q', q = p ++ i :: q'.

Lemma nothing_under pt l m p i : mem_tree sp pt l m -> pt !! (c, p ++ [i]) = None ->
  forall q, under p i q -> pt !! (c, q) = None.
Proof.
  intros Hm Hn q [q' ->]. destruct (pt !! (c, p ++ i :: q')) eqn:E; [|done].
  replace (p ++ i :: q') with ((p ++ [i]) ++ q') in E by by rewrite <- app_assoc.
  destruct (prefix_in_tree _ _ _ _ c (p ++ [i]) (mt_tree _ _ _ _ _ _ Hm) q') as [x Hx]; [eauto|congruence].
Qed.

Lemma not_under_self p i : ~ under p i p.
Proof. intros [q' E]. apply (f_equal length) in E. rewrite length_app in E. simpl in E. lia. Qed.

Lemma under_snoc p i j q : under (p ++ [i]) j q -> under p i q.
Proof. intros [q' ->]. exists (j :: q'). by rewrite <- app_assoc. Qed.

(** One entry, given what the recursive walk does to its table. *)
Lemma walk_entry_ok (wk : Z -> Paging -> option Paging) level pt l m p t i :
  mem_tree sp pt l m -> pt !! (c, p) = Some t -> Z.of_nat (length p) + level = 4 -> 1 <= level -> 0 <= i < 512 ->
  (p = [] -> i = 0) ->
  (forall f, 1 < level -> pt !! (c, p ++ [i]) = Some f ->
     exists m' pt', wk f m = Some m' /\ mem_tree sp pt' l m' /\ same_lists m m' /\
       cut c (fun q => exists j, under (p ++ [i]) j q) pt pt') ->
  exists m' pt', walk_entry wk level t m i = Some m' /\ mem_tree sp pt' l m' /\ same_lists m m' /\
    cut c (under p i) pt pt'.
Proof.
  intros Hm Hp Hl Hlev Hi Hs Hwk. pose proof (user_entry pt l m p t i Hm Hp ltac:(lia) Hi Hs) as He.
  unfold walk_entry. destruct (pt !! (c, p ++ [i])) as [f|] eqn:Ef.
  2:{ unfold read_entry. simpl in He. rewrite He, pe_unused_0. exists m, pt. split; [done|]. split; [done|].
      split; [done|]. split; [by apply (nothing_under pt l m)|done]. }
  destruct He as [fl He]. unfold read_entry at 1 2 3. rewrite He.
  assert (Hfa : frame_addr f) by (by eapply (to_frame _ _ _ _ (mt_tree _ _ _ _ _ _ Hm))).
  rewrite pe_used_set, pe_small_set, pe_addr_set by done. cbn [negb andb].
  assert (Hsub : exists m1 pt1, (if 1 <? level then wk f m else Some m) = Some m1 /\ mem_tree sp pt1 l m1 /\
            same_lists m m1 /\ cut c (fun q => exists j, under (p ++ [i]) j q) pt pt1).
  { destruct (Z.ltb_spec 1 level) as [Hgt|Hle]; [by apply Hwk|]. exists m, pt. split; [done|]. split; [done|].
    split; [done|]. split; [|done]. intros q (j & q' & ->).
    destruct (pt !! (c, (p ++ [i]) ++ j :: q')) eqn:E; [|done].
    apply (path_depth _ _ _ _ _ _ _ (mt_tree _ _ _ _ _ _ Hm)) in E. rewrite !length_app in E. simpl in E. lia. }
  destruct Hsub as (m1 & pt1 & -> & Hm1 & S1 & [Hcut Hkeep]).
  assert (Hp1 : pt1 !! (c, p) = Some t).
  { rewrite Hkeep; [done|]. intros [_ (j & q' & E)]. simpl in E. apply (f_equal length) in E.
    rewrite !length_app in E. simpl in E. lia. }
  assert (Hf1 : pt1 !! (c, p ++ [i]) = Some f).
  { rewrite Hkeep; [done|]. intros [_ [j Hu]]. by apply not_under_self in Hu. }
  pose proof (user_entry pt1 l m1 p t i Hm1 Hp1 ltac:(lia) Hi Hs) as He1. rewrite Hf1 in He1.
  destruct He1 as [fl1 He1]. unfold read_entry. rewrite He1, pe_addr_set by done.
  destruct (free_entry sp pt1 l m1 c p t i f Hm1 Hp1 Hf1) as (fa' & -> & Hm2).
  { intros E. by rewrite (Hs E). }
  { intros j. apply Hcut. exists j, []. done. }
  eexists _, _. split; [done|]. split; [exact Hm2|]. split; [by destruct S1|]. split.
  - intros q [q' ->]. destruct (decide (q' = [])) as [->|Hne]; [by rewrite lookup_delete_eq|].
    apply lookup_delete_None. right. apply Hcut. destruct q' as [|j q']; [done|]. exists j, q'.
    by rewrite <- app_assoc.
  - intros k Hk. rewrite lookup_delete_ne.
    + apply Hkeep. intros [Ek [j Hu]]. apply Hk. split; [done|]. by eapply under_snoc.
    + intros <-. apply Hk. split; [done|]. by exists [].
Qed.

Lemma walk_entries_ok (wk : Z -> Paging -> option Paging) level p t is_ :
  Z.of_nat (length p) + level = 4 -> 1 <= level -> p <> [] ->
  Forall (fun i => 0 <= i < 512) is_ ->
  (forall pt l m i f, mem_tree sp pt l m -> 1 < level -> pt !! (c, p ++ [i]) = Some f ->
     exists m' pt', wk f m = Some m' /\ mem_tree sp pt' l m' /\ same_lists m m' /\
       cut c (fun q => exists j, under (p ++ [i]) j q) pt pt') ->
  forall pt l m, mem_tree sp pt l m -> pt !! (c, p) = Some t ->
  exists m' pt', walk_entries wk level t is_ m = Some m' /\ mem_tree sp pt' l m' /\ same_lists m m' /\
    cut c (fun q => exists j, j ∈ is_ /\ under p j q) pt pt'.
Proof.
  intros Hl Hlev Hne Hr Hwk. induction Hr as [|i is_ Hi Hr IH]; intros pt l m Hm Hp.
  - exists m, pt. split; [done|]. split; [done|]. split; [done|]. split; [|done].
    intros q (j & Hj & _). by apply not_elem_of_nil in Hj.
  - destruct (walk_entry_ok wk level pt l m p t i) as (m1 & pt1 & E1 & Hm1 & S1 & [Hc1 Hk1]); try done.
    { intros f Hgt Hf. by eapply Hwk. }
    destruct (IH pt1 l m1 Hm1) as (m2 & pt2 & E2 & Hm2 & S2 & [Hc2 Hk2]).
    { rewrite Hk1; [done|]. intros [_ Hu]. by apply not_under_self in Hu. }
    exists m2, pt2. cbn [walk_entries]. rewrite E1, E2. split; [done|]. split; [done|].
    split; [by etrans|]. split.
    + intros q (j & [->|Hj]%elem_of_cons & Hu); [|eauto].
      destruct (pt2 !! (c, q)) eqn:E; [|done]. specialize (Hc1 q Hu).
      destruct (decide (i ∈ is_)) as [Hj|Hn].
      { rewrite Hc2 in E; [done|eauto]. }
      rewrite Hk2 in E; [congruence|]. intros [_ (j & Hj & Hu')]. simpl in Hu'.
      destruct Hu as [q1 ->], Hu' as [q2 E']. apply app_inv_head in E' as [= <- _]. done.
    + intros k Hk. rewrite Hk2, Hk1; [done|..]; intros [Ek Hu]; apply Hk; (split; [done|]).
      * exists i. split; [apply list_elem_of_here|done].
      * destruct Hu as (j & Hj & Hu). exists j. split; [by apply list_elem_of_further|done].
Qed.

Lemma walk_ok guard : forall level pt l m p t,
  mem_tree sp pt l m -> pt !! (c, p) = Some t -> Z.of_nat (length p) + level = 4 ->
  1 <= level <= 3 -> level <= Z.of_nat guard ->
  exists m' pt', walk guard level t m = Some m' /\ mem_tree sp pt' l m' /\ same_lists m m' /\
    cut c (fun q => exists j, under p j q) pt pt'.
Proof.
  induction guard as [|guard IH]; intros level pt l m p t Hm Hp Hl Hlev Hg; [lia|]. cbn [walk].
  destruct (walk_entries_ok (walk guard (level - 1)) level p t (seqZ 0 512) Hl ltac:(lia)) with (pt := pt) (l := l) (m := m)
    as (m' & pt' & E & Hm' & S' & [Hcut Hkeep]); try done.
  - intros ->. simpl in Hl. lia.
  - apply Forall_forall. intros i Hi%elem_of_seqZ. lia.
  - intros pt1 l1 m1 i f Hm1 Hgt Hf. apply (IH (level - 1) pt1 l1 m1 (p ++ [i]) f Hm1 Hf); [|lia|lia].
    rewrite length_app. simpl. lia.
  - exists m', pt'. split; [done|]. split; [done|]. split; [done|]. split.
    + intros q (j & Hu). destruct (pt !! (c, q)) eqn:Eq.
      * apply Hcut. exists j. split; [|done]. destruct Hu as [q' ->].
        replace (p ++ j :: q') with ((p ++ [j]) ++ q') in Eq by by rewrite <- app_assoc.
        destruct (prefix_in_tree _ _ _ _ c (p ++ [j]) (mt_tree _ _ _ _ _ _ Hm) q') as [x Hx]; [eauto|].
        destruct (to_step _ _ _ _ (mt_tree _ _ _ _ _ _ Hm) _ _ _ _ Hx) as (? & _). apply elem_of_seqZ. lia.
      * destruct (decide (0 <= j < 512)) as [Hj|Hj].
        { apply Hcut. exists j. split; [apply elem_of_seqZ; lia|done]. }
        rewrite Hkeep; [done|]. intros [_ (j' & Hj' & Hu')]. simpl in Hu'.
        destruct Hu as [q1 ->], Hu' as [q2 E']. apply app_inv_head in E' as [= <- _].
        apply elem_of_seqZ in Hj'. lia.
    + intros k Hk. apply Hkeep. intros [Ek (j & _ & Hu)]. apply Hk. eauto.
Qed.
End teardown.
End walk.
