(* ===== verification/PagingSpaces.v ===== *)
(** * Address spaces and kernel stacks: the contract of the memory manager

    Creation and teardown of address spaces and the fan-out of kernel stacks,
    and with them the instance of [MemLaws] that the theorems of the kernel
    are stated against. *)

From S2P Require Import Prelude RustStd Frame Caps Kernel Sched TaskOps ElfSafety MemLaws FrameOwn Paging PagingInv PagingLaws.
Import Paging.

Section spaces.
  Context `{PE : PageEntry} `{!PageEntryLaws} (base : gset Z) (kc : Z).
  Notation mem_tree := (mem_tree base kc).

(** ** Roots *)

Lemma tree_remove_root sp pt bs c :
  tree_ok kc sp pt bs -> c ∈ sp -> (forall q, q <> [] -> pt !! (c, q) = None) ->
  tree_ok kc (sp ∖ {[c]}) (delete (c, []) pt) bs.
Proof.
  intros Hok Hc Hnone. pose proof Hok as [Hkc Hroot Hinj Hstep Hslot Hks Hfr Hent].
  assert (Hck : c <> kc) by congruence.
  split.
  - set_solver.
  - intros c' f. rewrite lookup_delete_Some, Hroot. split.
    + intros [Hne [-> [?| ->]]]; (split; [done|]); [left|by right].
      apply elem_of_difference. split; [done|]. rewrite elem_of_singleton. congruence.
    + intros [-> [[? Hn]%elem_of_difference| ->]]; (split; [|auto]); intros [= ->]; [|done].
      by rewrite elem_of_singleton in Hn.
  - intros k1 k2 f. rewrite !lookup_delete_Some. naive_solver.
  - intros c' p i f [_ H']%lookup_delete_Some. pose proof H' as (? & ? & [x Hx])%Hstep.
    split; [done|]. split; [done|]. exists x. apply lookup_delete_Some. split; [|done].
    intros E. injection E as <- <-. simpl in H'. by rewrite (Hnone [i]) in H'.
  - intros c' i p f [_ H']%lookup_delete_Some. destruct (Hslot _ _ _ _ H') as [[-> ?]|?]; [left|by right].
    split; [done|]. apply elem_of_difference. split; [done|]. rewrite elem_of_singleton. intros ->.
    by rewrite Hnone in H'.
  - destruct Hks as [x Hx]. exists x. by rewrite lookup_delete_ne.
  - intros k f [_ H']%lookup_delete_Some. by eapply Hfr.
  - intros c' p t i [Hne Hp]%lookup_delete_Some Hl Hi Hs.
    rewrite lookup_delete_ne by (intros [= _ E]; by destruct p).
    apply Hent; try done. intros ->. destruct (Hs eq_refl) as [|[-> ?]]; [by left|right; set_solver].
Qed.

Lemma tree_add_root sp pt bs bs' c :
  tree_ok kc sp pt bs -> c ∉ img pt -> frame_addr c ->
  (forall k t i, pt !! k = Some t -> (length (snd k) <= 3)%nat -> 0 <= i < 512 -> entry_of bs' t i = entry_of bs t i) ->
  entry_of bs' c 0 = 0 -> entry_is bs' c KSLOT (pt !! (kc, [KSLOT])) ->
  tree_ok kc ({[c]} ∪ sp) (<[(c, []) := c]> pt) bs'.
Proof.
  intros Hok0 Hc Hfa Hsame H0 HK. pose proof (tree_bytes kc sp pt bs bs' Hok0 Hsame) as Hok.
  pose proof Hok as [Hkc Hroot Hinj Hstep Hslot Hks Hfr Hent].
  assert (Hnew : forall k, pt !! k = Some c -> False) by (intros k Hk; apply Hc, elem_of_img; eauto).
  assert (Hcsp : c ∉ sp) by (intros Hin; apply (Hnew (c, [])), Hroot; auto).
  assert (Hck : c <> kc) by (intros ->; apply (Hnew (kc, [])), Hroot; auto).
  split.
  - set_solver.
  - intros c' f. rewrite lookup_insert_Some, Hroot. split.
    + intros [[[= ->] <-]|[Hne [-> ?]]]; set_solver.
    + intros [-> [Hin| ->]]; [|right; split; [congruence|auto]]. destruct (decide (c' = c)) as [->|Hne]; [by left|].
      right. split; [congruence|]. set_solver.
  - intros k1 k2 f. rewrite !lookup_insert_Some. naive_solver.
  - intros c' p i f. rewrite lookup_insert_ne by (intros [= _ E]; by destruct p). intros (? & ? & ?)%Hstep.
    split; [done|]. split; [done|]. apply lookup_insert_is_Some'. by right.
  - intros c' i p f. rewrite lookup_insert_ne by done. intros [[-> ?]|?]%Hslot; [left; set_solver|by right].
  - by rewrite lookup_insert_ne.
  - intros k f. rewrite lookup_insert_Some. intros [[_ <-]|[_ H']]; [done|by eapply Hfr].
  - intros c' p t i Hp Hl Hi Hs. rewrite lookup_insert_ne by (intros [= _ E]; by destruct p).
    rewrite lookup_insert_Some in Hp. destruct Hp as [[[= <- <-] <-]|[Hne Hp]].
    + destruct (Hs eq_refl) as [->|[-> _]]; [done|].
      change (key kc c ([] ++ [0])) with (c, [0]). destruct (pt !! (c, [0])) eqn:E; [|done].
      by destruct (Hslot _ _ _ _ E) as [[_ ?]|[? _]].
    + apply Hent; try done. intros ->. destruct (Hs eq_refl) as [|[-> Hin]]; [by left|right].
      split; [done|]. apply elem_of_union in Hin as [->%elem_of_singleton|]; done.
Qed.

Lemma remove_root sp pt l m c :
  mem_tree sp pt l m -> c ∈ sp -> (forall q, q <> [] -> pt !! (c, q) = None) ->
  mem_tree (sp ∖ {[c]}) (delete (c, []) pt) (l ∪ {[c]}) m.
Proof.
  intros Hm Hc Hnone. pose proof Hm as [Ht Hb Hlo Hbase Ha].
  assert (Hroot : pt !! (c, []) = Some c) by (apply (to_root _ _ _ _ Ht); auto).
  pose proof (img_delete pt (c, []) c (to_inj _ _ _ _ Ht) Hroot) as Him.
  assert (Hci : c ∈ img pt) by (apply elem_of_img; eauto).
  assert (Hck : c <> kc) by (intros ->; by apply (to_kc _ _ _ _ Ht)).
  split; [by apply tree_remove_root|done|..]; rewrite ?Him; [solve_sets..|].
  replace (base ∪ (l ∪ {[c]}) ∪ ((img pt ∖ {[c]}) ∖ {[kc]})) with (base ∪ l ∪ (img pt ∖ {[kc]})); [done|].
  apply set_eq. intros x. destruct (decide (x = c)) as [->|]; solve_sets.
Qed.

(** ** Teardown of a space *)

Lemma free_user_subtree_ok sp pt l m c :
  mem_tree sp pt l m -> c ∈ sp ->
  exists m' pt', free_user_subtree c m = Some m' /\ mem_tree (sp ∖ {[c]}) pt' l m' /\ same_lists m m' /\
    forall k, fst k <> c -> pt' !! k = pt !! k.
Proof.
  intros Hm Hc. assert (Hroot : pt !! (c, []) = Some c) by (apply (to_root _ _ _ _ (mt_tree _ _ _ _ _ _ Hm)); auto).
  assert (Hsub : exists m1 pt1,
    (if pe_is_unused (read_entry m c 0) then Some m else
       let? m := walk 8 3 (pe_addr (read_entry m c 0)) m in
       let? m := release (pe_addr (read_entry m c 0)) 1 m in Some (write_entry c 0 0 m)) = Some m1 /\
    mem_tree sp pt1 l m1 /\ same_lists m m1 /\ cut c (under [] 0) pt pt1).
  { destruct (walk_entry_ok base kc sp c Hc (walk 8 3) 4 pt l m [] c 0) as (m1 & pt1 & E & R); try done; try lia.
    - intros f _ Hf. apply (walk_ok base kc sp c Hc 8 3 pt l m [0] f Hm Hf); simpl; lia.
    - exists m1, pt1. split; [|exact R]. unfold walk_entry in E.
      pose proof (user_entry base kc sp c Hc pt l m [] c 0 Hm Hroot ltac:(simpl; lia) ltac:(lia) ltac:(done)) as He.
      destruct (pt !! (c, [] ++ [0])) as [f|] eqn:Ef.
      + destruct He as [fl He]. unfold read_entry in *. rewrite He in *.
        assert (Hfa : frame_addr f) by (by eapply (to_frame _ _ _ _ (mt_tree _ _ _ _ _ _ Hm))).
        rewrite pe_used_set, pe_small_set in * by done. done.
      + simpl in He. unfold read_entry in *. rewrite He in *. by rewrite pe_unused_0 in *. }
  destruct Hsub as (m1 & pt1 & E1 & Hm1 & S1 & [Hcut Hkeep]). unfold free_user_subtree. rewrite E1.
  assert (Hnone : forall q, q <> [] -> pt1 !! (c, q) = None).
  { intros [|i q] Hq; [done|]. destruct (decide (i = 0)) as [->|Hi]; [apply Hcut; by exists q|].
    rewrite Hkeep; [|intros [_ [q' E]]; by injection E].
    destruct (pt !! (c, i :: q)) eqn:E; [|done].
    destruct (to_slot _ _ _ _ (mt_tree _ _ _ _ _ _ Hm) _ _ _ _ E) as [[? _]|[_ ->]]; [done|].
    by destruct (to_kc _ _ _ _ (mt_tree _ _ _ _ _ _ Hm)). }
  pose proof (remove_root sp pt1 l m1 c Hm1 Hc Hnone) as Hm2.
  destruct (release_tree base kc _ _ _ _ c 1 Hm2 ltac:(lia)) as (fa' & -> & Hm3).
  { rewrite frames_of_one. apply union_subseteq_r. }
  eexists _, _. split; [done|]. split; [|split; [by destruct S1|]].
  - rewrite frames_of_one in Hm3. rewrite take_back in Hm3; [exact Hm3|].
    intros x ->%elem_of_singleton Hl. apply (mt_loose _ _ _ _ _ _ Hm c Hl), elem_of_img. eauto.
  - intros k Hk. rewrite lookup_delete_ne by (intros <-; done). apply Hkeep. tauto.
Qed.

(** ** A fresh space *)

Lemma byte_map_lookup m : (forall pa b, BYTES m !! pa = Some b -> is_byte b) -> forall pa, is_byte (byte_of (BYTES m) pa).
Proof. intros Hb pa. unfold byte_of. destruct (BYTES m !! pa) eqn:E; simpl; [by eapply Hb|by red]. Qed.

Lemma entry_word m t i : (forall pa b, BYTES m !! pa = Some b -> is_byte b) -> fits 64 (read_entry m t i).
Proof.
  intros Hb. unfold read_entry, entry_of.
  pose proof (from_le_bound ((fun j => byte_of (BYTES m) (t + 8 * i + j)) <$> seqZ 0 8)) as Hf.
  rewrite length_fmap, length_seqZ in Hf. apply Hf. apply Forall_fmap, Forall_forall. intros j _.
  by apply byte_map_lookup.
Qed.

Lemma copy_entries_ok dst src is_ : forall m,
  aligned dst -> aligned src -> dst <> src -> Forall (fun i => 0 <= i < 512) is_ ->
  (forall pa b, BYTES m !! pa = Some b -> is_byte b) ->
  let m' := foldl (fun m i => write_entry dst i (read_entry m src i) m) m is_ in
  (forall pa b, BYTES m' !! pa = Some b -> is_byte b) /\ ALLOCATOR m' = ALLOCATOR m /\ same_lists m m' /\
  (forall t i, aligned t -> 0 <= i < 512 -> t <> dst -> read_entry m' t i = read_entry m t i) /\
  (forall i, 0 <= i < 512 -> read_entry m' dst i = if decide (i ∈ is_) then read_entry m src i else read_entry m dst i).
Proof.
  intros m Hd Hs Hne Hr. revert m. induction Hr as [|i is_ Hi Hr IH]; intros m Hb; cbn [foldl].
  { split; [done|]. split; [done|]. split; [done|]. split; [done|]. intros i Hi. destruct (decide _) as [Hin|]; [by apply not_elem_of_nil in Hin|done]. }
  destruct (IH (write_entry dst i (read_entry m src i) m)) as (B & A & L & O & Dst).
  { by apply bytes_put_entry. }
  split; [done|]. split; [done|]. split; [by destruct L|]. split.
  - intros t j Ht Hj Htd. rewrite O by done. unfold read_entry, write_entry. simpl. apply entry_put_ne; try done. congruence.
  - intros j Hj. rewrite Dst by done. unfold read_entry, write_entry in *. simpl.
    destruct (decide (j ∈ is_)) as [Hj'|Hj'], (decide (j ∈ i :: is_)) as [Hin|Hn].
    + rewrite entry_put_ne; try done. congruence.
    + exfalso. by apply Hn, list_elem_of_further.
    + apply elem_of_cons in Hin as [->|]; [|done]. rewrite entry_put_same; [done|by apply entry_word].
    + rewrite entry_put_ne; try done. intros [= ->]. by apply Hn, list_elem_of_here.
Qed.

Lemma copy_all_ok dst src m :
  aligned dst -> aligned src -> dst <> src -> (forall pa b, BYTES m !! pa = Some b -> is_byte b) ->
  let m' := copy_entries dst src m in
  (forall pa b, BYTES m' !! pa = Some b -> is_byte b) /\ ALLOCATOR m' = ALLOCATOR m /\ same_lists m m' /\
  (forall t i, aligned t -> 0 <= i < 512 -> t <> dst -> read_entry m' t i = read_entry m t i) /\
  (forall i, 0 <= i < 512 -> read_entry m' dst i = if decide (1 <= i) then read_entry m src i else read_entry m dst i).
Proof.
  intros Hd Hs Hne Hb. unfold copy_entries.
  destruct (copy_entries_ok dst src (seqZ 1 511) m Hd Hs Hne) as (B & A & L & O & Dst); [|done|].
  { apply Forall_forall. intros i Hi%elem_of_seqZ. lia. }
  split; [exact B|]. split; [exact A|]. split; [exact L|]. split; [exact O|].
  intros i Hi. rewrite Dst by done. pose proof (elem_of_seqZ 1 511 i) as Hin.
  destruct (decide (i ∈ seqZ 1 511)) as [Hi'|Hi'], (decide (1 <= i)) as [Hp|Hp]; try done; rewrite Hin in Hi'; lia.
Qed.

(** ** Kernel stacks in every space *)

Lemma stack_key c va : stack_page va -> key kc c (path va) = (kc, path va).
Proof. intros Hva. unfold key, path. rewrite (stack_slot va Hva). done. Qed.

Lemma stack_reach sp c va : c ∈ sp \/ c = kc -> stack_page va -> reach kc sp c va.
Proof. intros Hc Hva. split; [done|]. left. by apply stack_slot. Qed.

Section fan_out.
  Context (sp : gset Z) (spaces : list Z) (Hsp : Forall (fun c => c ∈ sp \/ c = kc) spaces).

Lemma remap_all_ok pt l va pa : forall m,
  mem_tree sp pt l m -> stack_page va -> pt !! (kc, path va) = Some pa ->
  exists m', map_all spaces va pa m = (true, m') /\ mem_tree sp pt l m' /\ same_lists m m'.
Proof.
  induction Hsp as [|c cs Hc Hcs IH]; intros m Hm Hva Hpa; [by exists m|]. cbn [map_all].
  destruct (remap_page_ok base kc sp pt l m c va pa kstack_flags Hm) as (m1 & -> & Hm1 & S1);
    [by apply stack_reach|by rewrite stack_key|].
  destruct (IH Hcs m1 Hm1 Hva Hpa) as (m2 & -> & Hm2 & S2). exists m2. split; [done|]. split; [done|by etrans].
Qed.

Lemma unmap_all_none pt l va : forall m,
  mem_tree sp pt l m -> stack_page va -> pt !! (kc, path va) = None ->
  mem_tree sp pt l (unmap_all spaces va m) /\ same_lists m (unmap_all spaces va m).
Proof.
  unfold unmap_all. induction Hsp as [|c cs Hc Hcs IH]; intros m Hm Hva Hn; [done|]. cbn [foldl].
  pose proof (unmap_page_ok base kc sp pt l m c va Hm (stack_reach sp c va Hc Hva)) as [S1 Hm1].
  rewrite stack_key, Hn in Hm1 by done. destruct (IH Hcs _ Hm1 Hva Hn) as [Hm2 S2].
  split; [done|by etrans].
Qed.
End fan_out.

Section kstack.
  Context (sp : gset Z) (spaces : list Z) (Hsp : Forall (fun c => c ∈ sp \/ c = kc) spaces) (Hne : spaces <> []).

Lemma map_all_ok pt l m va pa :
  mem_tree sp pt l m -> stack_page va -> pa ∈ l -> pt !! (kc, path va) = None ->
  match map_all spaces va pa m with
  | (true, m') => exists pt', grown pt pt' /\ same_lists m m' /\ mem_tree sp (<[(kc, path va) := pa]> pt') (l ∖ {[pa]}) m'
  | (false, m') => exists pt', grown pt pt' /\ same_lists m m' /\ mem_tree sp pt' l m'
  end.
Proof.
  intros Hm Hva Hpa Hn. destruct spaces as [|c cs]; [done|]. apply Forall_cons in Hsp as [Hc Hcs]. cbn [map_all].
  pose proof (map_page_ok base kc sp pt l m c va pa kstack_flags Hm (stack_reach sp c va Hc Hva) Hpa) as Hmap.
  rewrite stack_key in Hmap by done. specialize (Hmap Hn).
  destruct (Paging.map_page_in c va pa kstack_flags m) as [[] m1]; [|done].
  destruct Hmap as (pt' & G & S1 & Hm1).
  destruct (remap_all_ok sp cs Hcs _ _ va pa m1 Hm1 Hva) as (m2 & -> & Hm2 & S2); [by rewrite lookup_insert_eq|].
  exists pt'. split; [done|]. split; [by etrans|done].
Qed.

Lemma unmap_all_ok pt l m va :
  mem_tree sp pt l m -> stack_page va ->
  let m' := unmap_all spaces va m in
  same_lists m m' /\
  match pt !! (kc, path va) with
  | Some pa => mem_tree sp (delete (kc, path va) pt) (l ∪ {[pa]}) m'
  | None => mem_tree sp pt l m'
  end.
Proof.
  intros Hm Hva. destruct (pt !! (kc, path va)) as [pa|] eqn:E.
  2:{ by destruct (unmap_all_none sp spaces Hsp pt l va m Hm Hva E). }
  destruct spaces as [|c cs]; [done|]. apply Forall_cons in Hsp as [Hc Hcs].
  pose proof (unmap_page_ok base kc sp pt l m c va Hm (stack_reach sp c va Hc Hva)) as [S1 Hm1].
  rewrite stack_key, E in Hm1 by done. unfold unmap_all. cbn [foldl].
  destruct (unmap_all_none sp cs Hcs _ _ va _ Hm1 Hva (lookup_delete_eq _ _)) as [Hm2 S2].
  split; [by etrans|done].
Qed.

(** The pages of one stack, of which the first [i] are mapped. *)
Context (va b : Z) (Hpage : forall j, 0 <= j < KSTACK_PAGES -> stack_page (va + j * 4096)).

Lemma stack_path_eq j j' :
  0 <= j < KSTACK_PAGES -> 0 <= j' < KSTACK_PAGES -> path (va + j * 4096) = path (va + j' * 4096) -> j = j'.
Proof.
  intros Hj Hj' E. destruct (Hpage j Hj) as [Ha Hr], (Hpage j' Hj') as [Ha' Hr'].
  assert (va + j * 4096 = va + j' * 4096); [|lia]. apply path_inj; try done.
  unfold KSTACK_REGION_BASE, KSTACK_SLOT_BYTES, KSTACK_PAGES, KSTACK_GUARD_PAGES in *.
  rewrite <- (Z.div_unique (va + j * 4096) (2 ^ 48) 65535 (va + j * 4096 - 65535 * 2 ^ 48)) by lia.
  rewrite <- (Z.div_unique (va + j' * 4096) (2 ^ 48) 65535 (va + j' * 4096 - 65535 * 2 ^ 48)) by lia. done.
Qed.

(** The node of page [j]. *)
Definition spot (j : Z) : Z * list Z := (kc, path (va + j * 4096)).

Lemma spot_inj j j' : 0 <= j < KSTACK_PAGES -> 0 <= j' < KSTACK_PAGES -> spot j = spot j' -> j = j'.
Proof. intros Hj Hj' E. exact (stack_path_eq j j' Hj Hj' (f_equal snd E)). Qed.

(** [pt] has the leaves of [pt0] and the first [i] pages of the stack. *)
Definition partial (i : Z) (pt0 pt : ptree) : Prop :=
  (forall j, 0 <= j < i -> pt !! spot j = Some (b + j * 4096)) /\
  (forall k, length (snd k) = 4%nat -> (forall j, 0 <= j < i -> k <> spot j) -> pt !! k = pt0 !! k).

Lemma partial_grown i pt0 pt pt' : partial i pt0 pt -> grown pt pt' -> partial i pt0 pt'.
Proof.
  intros [Hin Hout] [_ Hl]. split.
  - intros j Hj. rewrite Hl by done. by apply Hin.
  - intros k Hk Hn. rewrite Hl by done. by apply Hout.
Qed.

Lemma partial_insert i pt0 pt : 0 <= i < KSTACK_PAGES -> partial i pt0 pt ->
  partial (i + 1) pt0 (<[spot i := b + i * 4096]> pt).
Proof.
  intros Hi [Hin Hout]. split.
  - intros j Hj. destruct (decide (j = i)) as [->|Hji]; [by rewrite lookup_insert_eq|].
    rewrite lookup_insert_ne; [apply Hin; lia|]. intros E. apply spot_inj in E; lia.
  - intros k Hk Hn. rewrite lookup_insert_ne by (apply not_eq_sym, Hn; lia). apply Hout; [done|].
    intros j Hj. apply Hn. lia.
Qed.

(** The undo loop and [unregister_kstack]: pages [js], of which those below [i] are mapped. *)
Lemma unmap_pages_ok i js : forall pt l m,
  mem_tree sp pt l m -> NoDup js -> Forall (fun j => 0 <= j < KSTACK_PAGES) js ->
  (forall j, j ∈ js -> pt !! spot j = if decide (j < i) then Some (b + j * 4096) else None) ->
  let m' := foldl (fun m j => unmap_all spaces (va + j * 4096) m) m js in
  exists pt', same_lists m m' /\
    mem_tree sp pt' (l ∪ list_to_set ((fun j => b + j * 4096) <$> filter (fun j => j < i) js)) m' /\
    (forall j, j ∈ js -> pt' !! spot j = None) /\
    (forall k, (forall j, j ∈ js -> k <> spot j) -> pt' !! k = pt !! k).
Proof.
  induction js as [|j js IH]; intros pt l m Hm Hnd Hr Hpt; cbn [foldl].
  { exists pt. split; [done|]. split; [by cbn; rewrite union_empty_r_L|]. split; [|done].
    intros j Hj. by apply not_elem_of_nil in Hj. }
  apply NoDup_cons in Hnd as [Hj Hnd]. apply Forall_cons in Hr as [Hjr Hr].
  destruct (unmap_all_ok pt l m (va + j * 4096) Hm (Hpage j Hjr)) as [S1 Hm1]. fold (spot j) in Hm1.
  assert (Hother : forall j', j' ∈ js -> spot j <> spot j').
  { intros j' Hj' E. rewrite Forall_forall in Hr. apply spot_inj in E; [by subst|done|by apply Hr]. }
  rewrite (Hpt j (list_elem_of_here _ _)) in Hm1. rewrite filter_cons.
  destruct (decide (j < i)) as [Hlt|Hge].
  - destruct (IH _ _ _ Hm1 Hnd Hr) as (pt' & S2 & Hm2 & Hin & Hout).
    { intros j' Hj'. rewrite lookup_delete_ne by auto. apply Hpt. by apply list_elem_of_further. }
    exists pt'. split; [by etrans|]. split; [|split].
    + cbn [fmap list_fmap list_to_set]. by rewrite union_assoc_L.
    + intros j' [->|Hj']%elem_of_cons; [|auto]. rewrite Hout by auto. apply lookup_delete_eq.
    + intros k Hk. rewrite Hout by (intros; apply Hk; by apply list_elem_of_further).
      apply lookup_delete_ne, not_eq_sym, Hk, list_elem_of_here.
  - destruct (IH _ _ _ Hm1 Hnd Hr) as (pt' & S2 & Hm2 & Hin & Hout).
    { intros j' Hj'. apply Hpt. by apply list_elem_of_further. }
    exists pt'. split; [by etrans|]. split; [done|]. split.
    + intros j' [->|Hj']%elem_of_cons; [|auto]. rewrite Hout by auto.
      rewrite (Hpt j (list_elem_of_here _ _)). by rewrite decide_False.
    + intros k Hk. apply Hout. intros j' Hj'. apply Hk. by apply list_elem_of_further.
Qed.

Lemma filter_below i n : i <= n ->
  list_to_set ((fun j => b + j * 4096) <$> filter (fun j => j < i) (seqZ 0 n)) = frames_of b i.
Proof.
  intros Hin. apply set_eq. intros x. rewrite elem_of_list_to_set, elem_of_frames_of, list_elem_of_fmap.
  setoid_rewrite list_elem_of_filter. setoid_rewrite elem_of_seqZ. unfold PAGE_SIZE. naive_solver lia.
Qed.

Lemma map_kstack_ok pt0 l : frames_of b KSTACK_PAGES ⊆ l -> forall n i pt m,
  i + Z.of_nat n = KSTACK_PAGES -> 0 <= i ->
  (forall j, 0 <= j < KSTACK_PAGES -> pt0 !! spot j = None) ->
  mem_tree sp pt (l ∖ frames_of b i) m -> partial i pt0 pt ->
  match map_kstack spaces va b n i m with
  | (true, m') => exists pt', same_lists m m' /\ mem_tree sp pt' (l ∖ frames_of b KSTACK_PAGES) m' /\ partial KSTACK_PAGES pt0 pt'
  | (false, m') => exists pt', same_lists m m' /\ mem_tree sp pt' l m' /\ partial 0 pt0 pt'
  end.
Proof.
  intros Hsub. induction n as [|n IH]; intros i pt m Hn Hi Hfree Hm Hp; cbn [map_kstack].
  { exists pt. replace KSTACK_PAGES with i by lia. done. }
  assert (Hsi : pt !! spot i = None).
  { destruct Hp as [_ Hout]. rewrite Hout; [apply Hfree; lia|done|].
    intros j Hj E. apply spot_inj in E; lia. }
  pose proof (map_all_ok pt _ m (va + i * 4096) (b + i * 4096) Hm (Hpage i ltac:(lia))) as Ha.
  assert (Hbi : b + i * 4096 ∈ l ∖ frames_of b i).
  { apply elem_of_difference. split; [apply Hsub|]; rewrite elem_of_frames_of; unfold PAGE_SIZE.
    - exists i. lia.
    - intros (j & ? & ?). lia. }
  specialize (Ha Hbi Hsi). destruct (map_all spaces _ _ m) as [[] m1]; destruct Ha as (pt1 & G1 & S1 & Hm1).
  - assert (Hl1 : (l ∖ frames_of b i) ∖ {[b + i * 4096]} = l ∖ frames_of b (i + 1)).
    { rewrite difference_difference_l_L. f_equal. apply set_eq. intros x.
      rewrite elem_of_union, elem_of_singleton, !elem_of_frames_of. unfold PAGE_SIZE. split.
      - intros [(j & ? & ->)| ->]; [exists j|exists i]; lia.
      - intros (j & ? & ->). destruct (decide (j = i)) as [->|]; [by right|left; exists j; lia]. }
    rewrite Hl1 in Hm1.
    pose proof (IH (i + 1) _ m1 ltac:(lia) ltac:(lia) Hfree Hm1 (partial_insert i pt0 pt1 ltac:(lia) (partial_grown _ _ _ _ Hp G1))) as R.
    destruct (map_kstack spaces va b n (i + 1) m1) as [[] m2]; destruct R as (pt2 & S2 & R); exists pt2;
      (split; [by etrans|done]).
  - pose proof (partial_grown _ _ _ _ Hp G1) as [Hin Hout].
    destruct (unmap_pages_ok i (seqZ 0 (i + 1)) pt1 _ m1 Hm1 (NoDup_seqZ _ _)) as (pt2 & S2 & Hm2 & Hn2 & Ho2).
    + apply Forall_forall. intros j Hj%elem_of_seqZ. lia.
    + intros j Hj%elem_of_seqZ. destruct (decide (j < i)); [apply Hin; lia|].
      replace j with i by lia. rewrite (proj2 G1) by done. done.
    + exists pt2. split; [by etrans|]. rewrite filter_below in Hm2 by lia.
      replace ((l ∖ frames_of b i) ∪ frames_of b i) with l in Hm2.
      2:{ symmetry. rewrite union_comm_L. symmetry. apply union_difference_L. etrans; [|exact Hsub].
          intros x. rewrite !elem_of_frames_of. intros (j & ? & ->). exists j. lia. }
      split; [done|]. split; [intros j Hj; lia|]. intros k Hk _.
      destruct (decide (Exists (fun j => k = spot j) (seqZ 0 (i + 1)))) as [He|Hne'].
      * apply Exists_exists in He as (j & Hj & ->). rewrite Hn2 by done. symmetry. apply Hfree.
        apply elem_of_seqZ in Hj. lia.
      * rewrite Ho2. { apply Hout; [done|]. intros j Hj ->. apply Hne', Exists_exists. exists j.
          split; [apply elem_of_seqZ; lia|done]. }
        intros j Hj ->. apply Hne', Exists_exists. eauto.
Qed.
End kstack.
End spaces.
