(* ===== verification/PagingMem.v ===== *)
(** * The memory manager of the kernel: paging.rs over frame.rs

    [paging_laws] discharges the contract [MemLaws] that the kernel's
    theorems rest on, for the page tables of paging.rs over the allocator of
    frame.rs; [boot_memory_ok] shows that the first steps of [kernel_main]
    (main.rs) establish it. *)

From S2P Require Import Prelude RustStd Frame Caps Kernel Sched TaskOps ElfSafety MemLaws FrameOwn Paging PagingInv PagingLaws PagingSpaces.
Import Paging.

Section paging_mem.
  Context `{PE : PageEntry} `{!PageEntryLaws} (base : gset Z) (b0 : Z).

(** The registered stacks with the idle stack, whose frames start at [b0]. *)
Definition all_stacks (ks : gmap Z Z) : gmap Z Z := <[kstack_slot_base 0 := b0]> ks.

(** The leaves of the kernel subtree are the pages of the stacks. *)
Definition leaves_are (kc : Z) (st : gmap Z Z) (pt : ptree) : Prop :=
  forall p f, length p = 4%nat ->
    (pt !! (kc, p) = Some f <->
     exists va b j, st !! va = Some b /\ 0 <= j < KSTACK_PAGES /\ p = path (va + j * 4096) /\ f = b + j * 4096).

Record paging_ok (kc : Z) (sp : gset Z) (ks : gmap Z Z) (l : gset Z) (m : Paging) : Prop := {
  po_tree : exists pt, mem_tree base kc sp pt l m /\ leaves_are kc (all_stacks ks) pt;
  po_spaces : exists r, ADDRESS_SPACES m = kc :: r /\ forall c, c ∈ r <-> c ∈ sp;
  po_stacks va b n : (va, b, n) ∈ KSTACKS m <-> n = KSTACK_PAGES /\ all_stacks ks !! va = Some b;
  po_slots va b : ks !! va = Some b -> kstack_va va;
}.

Lemma paging_ok_intro kc sp ks l l' m m' pt :
  paging_ok kc sp ks l m -> mem_tree base kc sp pt l' m' -> leaves_are kc (all_stacks ks) pt -> same_lists m m' ->
  paging_ok kc sp ks l' m'.
Proof.
  intros [_ Hs Hk Hv] Hm Hl [E1 E2]. split; [by exists pt|by rewrite E1|by rewrite E2|done].
Qed.

Lemma leaves_ext kc st pt pt' :
  leaves_are kc st pt -> (forall p, length p = 4%nat -> pt' !! (kc, p) = pt !! (kc, p)) -> leaves_are kc st pt'.
Proof. intros Hl He p f Hp. rewrite He by done. by apply Hl. Qed.

Lemma spaces_in kc sp ks l m : paging_ok kc sp ks l m ->
  Forall (fun c => c ∈ sp \/ c = kc) (ADDRESS_SPACES m) /\ ADDRESS_SPACES m <> [].
Proof.
  intros [_ (r & -> & Hr) _ _]. split; [|done]. constructor; [by right|].
  apply Forall_forall. intros c Hc. left. by apply Hr.
Qed.

(** *** User translations *)

Lemma user_reach kc sp c va : c ∈ sp -> 0 <= va < USER_STACK_TOP -> reach kc sp c va.
Proof. intros Hc Hva. split; [by left|]. right. split; [by apply user_slot|done]. Qed.

Lemma user_key kc c va : 0 <= va < USER_STACK_TOP -> key kc c (path va) = (c, path va).
Proof. intros Hva. unfold key, path. by rewrite (user_slot va Hva). Qed.

Lemma user_translate kc sp pt l m c va :
  mem_tree base kc sp pt l m -> c ∈ sp -> 0 <= va < USER_STACK_TOP ->
  Paging.translate m c va = (fun f => f + va mod PAGE_SIZE) <$> pt !! (c, path va).
Proof.
  intros Hm Hc Hva. rewrite (translate_spec base kc sp pt l) by (try done; by apply user_reach).
  by rewrite user_key, page_offset_mod.
Qed.

Lemma page_translate kc sp pt l m c va :
  mem_tree base kc sp pt l m -> c ∈ sp -> user_page va -> Paging.translate m c va = pt !! (c, path va).
Proof.
  intros Hm Hc [Ha Hva]. rewrite (user_translate kc sp pt l) by done. unfold aligned in Ha. rewrite Ha.
  destruct (pt !! _); simpl; [f_equal; lia|done].
Qed.

Lemma user_path_inj va va' : user_page va -> user_page va' -> path va = path va' -> va = va'.
Proof.
  unfold user_page, USER_STACK_TOP. intros [Ha Hr] [Ha' Hr'] E. apply path_inj; try done.
  rewrite !Z.div_small by lia. done.
Qed.

Lemma same_users_tree kc sp pt pt' l l' m m' :
  mem_tree base kc sp pt l m -> mem_tree base kc sp pt' l' m' ->
  (forall c p, c ∈ sp -> length p = 4%nat -> pt' !! (c, p) = pt !! (c, p)) -> same_users sp m m'.
Proof.
  intros Hm Hm' He c Hc va Hva. change (Paging.translate m' c va = Paging.translate m c va).
  rewrite (page_translate kc sp pt' l' m'), (page_translate kc sp pt l m) by done. by apply He.
Qed.

Lemma sp_not_kernel kc sp pt l m c : mem_tree base kc sp pt l m -> c ∈ sp -> c <> kc.
Proof. intros Hm Hc ->. by apply (to_kc _ _ _ _ (mt_tree _ _ _ _ _ _ Hm)). Qed.

(** ** The laws *)

Lemma paging_alloc kc sp ks l n m :
  paging_ok kc sp ks l m -> 0 < n <= 2 ^ 40 ->
  match mem_alloc n m with
  | (Some b, m') => frames_of b n ## l /\ paging_ok kc sp ks (l ∪ frames_of b n) m' /\ same_users sp m m'
  | (None, m') => paging_ok kc sp ks l m' /\ same_users sp m m'
  end.
Proof.
  intros Hok Hn. destruct (po_tree _ _ _ _ _ Hok) as (pt & Hm & Hl).
  change (mem_alloc n m) with (alloc n m). pose proof (mem_alloc_tree base kc sp pt l m n Hm Hn) as Ha.
  destruct (alloc n m) as [[b|] m'].
  - destruct Ha as (Hm' & Hd & _ & S1). split; [|split].
    + intros x Hx Hxl. apply (Hd x Hx). by apply elem_of_union_l.
    + by eapply paging_ok_intro.
    + by eapply same_users_tree.
  - destruct Ha as (Hm' & _ & S1). split; [by eapply paging_ok_intro|by eapply same_users_tree].
Qed.

Lemma paging_free kc sp ks l b n m :
  paging_ok kc sp ks l m -> 0 < n -> frames_of b n ⊆ l ->
  exists m', mem_free b n m = Some m' /\ paging_ok kc sp ks (l ∖ frames_of b n) m' /\ same_users sp m m'.
Proof.
  intros Hok Hn Hsub. destruct (po_tree _ _ _ _ _ Hok) as (pt & Hm & Hl).
  change (mem_free b n m) with (release b n m).
  destruct (release_tree base kc sp pt l m b n Hm Hn Hsub) as (fa & -> & Hm').
  eexists. split; [done|]. split; [by eapply paging_ok_intro|by eapply same_users_tree].
Qed.

Lemma paging_zero kc sp ks l b n m :
  paging_ok kc sp ks l m -> frames_of b n ⊆ l ->
  paging_ok kc sp ks l (phys_zero b (n * PAGE_SIZE) m) /\ same_users sp m (phys_zero b (n * PAGE_SIZE) m).
Proof.
  intros Hok Hsub. destruct (po_tree _ _ _ _ _ Hok) as (pt & Hm & Hl).
  assert (Hm' : mem_tree base kc sp pt l (set_BYTES (zero_bytes b (n * PAGE_SIZE) (BYTES m)) m)).
  { destruct (decide (0 < n)) as [Hn|Hn].
    - apply zero_tree; [done| |lia|done].
      destruct (loose_frame base kc sp pt l m b Hm) as [[? _] _]; [|done].
      apply Hsub, elem_of_frames_of. exists 0. lia.
    - apply bytes_tree; [done|..].
      + intros pa v [Hv _]%map_lookup_filter_Some. by apply (mt_bytes _ _ _ _ _ _ Hm) in Hv.
      + intros k t i _ _ Hi. apply entry_of_ext. intros pa _. rewrite byte_zero_bytes.
        destruct (decide _) as [Hr|]; [unfold PAGE_SIZE in Hr; lia|done]. }
  split; [by eapply paging_ok_intro|by eapply same_users_tree].
Qed.

(** A byte of a user leaf is in no table. *)
Lemma paging_write kc sp ks l c va pa v m :
  paging_ok kc sp ks l m -> c ∈ sp -> 0 <= va < USER_STACK_TOP -> translate m c va = Some pa ->
  paging_ok kc sp ks l (phys_write pa v m) /\ same_users sp m (phys_write pa v m).
Proof.
  intros Hok Hc Hva Htr. destruct (po_tree _ _ _ _ _ Hok) as (pt & Hm & Hl). 
  rewrite (user_translate kc sp pt l) in Htr by done.
  destruct (pt !! (c, path va)) as [f|] eqn:Ef; [|done]. injection Htr as <-.
  pose proof (mt_tree _ _ _ _ _ _ Hm) as Ht.
  assert (Hm' : mem_tree base kc sp pt l (set_BYTES (write_byte (f + va mod PAGE_SIZE) v (BYTES m)) m)).
  { apply bytes_tree; [done|..].
    - apply bytes_store; [apply wrap_fits; lia|]. intros pa b. by apply (mt_bytes _ _ _ _ _ _ Hm).
    - intros k t i Hk Hlen Hi. apply entry_of_ext. intros pa Hpa. unfold write_byte.
      rewrite byte_store. destruct (decide _) as [<-|]; [exfalso|done].
      pose proof (Z.mod_pos_bound va PAGE_SIZE ltac:(unfold PAGE_SIZE; lia)) as Ho.
      destruct (decide (t = f)) as [->|Hne].
      + pose proof (to_inj _ _ _ _ Ht _ _ _ Hk Ef) as ->. simpl in Hlen. lia.
      + destruct (frames_apart t f); [by eapply (to_frame _ _ _ _ Ht)..|done| |]; unfold PAGE_SIZE in *; lia. }
  split; [by eapply paging_ok_intro|by eapply same_users_tree].
Qed.

Lemma leaves_user_insert kc st pt c p f :
  c <> kc -> leaves_are kc st pt -> leaves_are kc st (<[(c, p) := f]> pt).
Proof. intros Hc Hl. apply (leaves_ext kc st pt); [done|]. intros q _. apply lookup_insert_ne. congruence. Qed.

Lemma leaves_grown kc st pt pt' : leaves_are kc st pt -> grown pt pt' -> leaves_are kc st pt'.
Proof. intros Hl [_ G]. apply (leaves_ext kc st pt); [done|]. intros p Hp. by apply G. Qed.

Lemma paging_map kc sp ks l c va pa fl m :
  paging_ok kc sp ks l m -> c ∈ sp -> user_page va -> pa ∈ l -> translate m c va = None ->
  match map_page_in c va pa fl m with
  | (true, m') =>
      paging_ok kc sp ks (l ∖ {[pa]}) m' /\ translate m' c va = Some pa /\
      forall va', user_page va' -> va' <> va -> translate m' c va' = translate m c va'
  | (false, m') => paging_ok kc sp ks l m' /\ same_user c m m'
  end.
Proof.
  intros Hok Hc Hva Hpa Htr. destruct (po_tree _ _ _ _ _ Hok) as (pt & Hm & Hl).
  rewrite (page_translate kc sp pt l) in Htr by done.
  pose proof (map_page_ok base kc sp pt l m c va pa fl Hm (user_reach kc sp c va Hc (proj2 Hva)) Hpa) as Hmap.
  rewrite user_key in Hmap by apply Hva. specialize (Hmap Htr).
  destruct (Paging.map_page_in c va pa fl m) as [[] m']; destruct Hmap as (pt' & G & S1 & Hm').
  - split; [|split].
    + eapply paging_ok_intro; [done|exact Hm'| |done].
      apply leaves_user_insert; [by eapply sp_not_kernel|by eapply leaves_grown].
    + rewrite (page_translate kc sp _ _ _ _ _ Hm') by done. by rewrite lookup_insert_eq.
    + intros va' Hva' Hne.
      rewrite (page_translate kc sp _ _ _ _ _ Hm'), (page_translate kc sp _ _ _ _ _ Hm) by done.
      rewrite lookup_insert_ne; [by apply G|]. intros E. apply Hne. symmetry.
      apply user_path_inj; [done|done|]. exact (f_equal snd E).
  - split; [by eapply paging_ok_intro; [| |by eapply leaves_grown|]|].
    eapply (same_users_tree kc sp pt pt'); [done|done|intros ? ? _ ?; by apply G|done].
Qed.

Lemma paging_remap kc sp ks l c va pa fl m :
  paging_ok kc sp ks l m -> c ∈ sp -> user_page va -> translate m c va = Some pa ->
  paging_ok kc sp ks l (snd (map_page_in c va pa fl m)) /\ same_user c m (snd (map_page_in c va pa fl m)).
Proof.
  intros Hok Hc Hva Htr. destruct (po_tree _ _ _ _ _ Hok) as (pt & Hm & Hl).
  rewrite (page_translate kc sp pt l) in Htr by done.
  destruct (remap_page_ok base kc sp pt l m c va pa fl Hm (user_reach kc sp c va Hc (proj2 Hva))) as (m' & -> & Hm' & S1).
  { by rewrite user_key by apply Hva. }
  split; [by eapply paging_ok_intro|by eapply (same_users_tree kc sp pt pt)].
Qed.

Lemma paging_unmap kc sp ks l c va pa m :
  paging_ok kc sp ks l m -> c ∈ sp -> user_page va -> translate m c va = Some pa ->
  let m' := unmap_page_in c va m in
  paging_ok kc sp ks (l ∪ {[pa]}) m' /\ translate m' c va = None /\
  forall va', user_page va' -> va' <> va -> translate m' c va' = translate m c va'.
Proof.
  intros Hok Hc Hva Htr. destruct (po_tree _ _ _ _ _ Hok) as (pt & Hm & Hl).
  rewrite (page_translate kc sp pt l) in Htr by done.
  destruct (unmap_page_ok base kc sp pt l m c va Hm (user_reach kc sp c va Hc (proj2 Hva))) as [S1 Hm'].
  rewrite user_key, Htr in Hm' by apply Hva. split; [|split].
  - eapply paging_ok_intro; [done|exact Hm'| |done]. apply (leaves_ext kc _ pt); [done|].
    intros p _. apply lookup_delete_ne. intros E. apply (sp_not_kernel kc sp pt l m c Hm Hc). congruence.
  - rewrite (page_translate kc sp _ _ _ _ _ Hm') by done. by rewrite lookup_delete_eq.
  - intros va' Hva' Hne.
    rewrite (page_translate kc sp _ _ _ _ _ Hm'), (page_translate kc sp _ _ _ _ _ Hm) by done.
    apply lookup_delete_ne. intros E. apply Hne. symmetry.
    apply user_path_inj; [done|done|]. exact (f_equal snd E).
Qed.

Lemma paging_destroy kc sp ks l c m :
  paging_ok kc sp ks l m -> c ∈ sp ->
  exists m', destroy_address_space c m = Some m' /\ paging_ok kc (sp ∖ {[c]}) ks l m'.
Proof.
  intros Hok Hc. pose proof Hok as [(pt & Hm & Hl) (r & Hsp & Hr) Hks Hslots].
  unfold Paging.destroy_address_space.
  destruct (free_user_subtree_ok base kc sp pt l m c Hm Hc) as (m' & pt' & -> & Hm' & [E1 E2] & Hother).
  pose proof (sp_not_kernel kc sp pt l m c Hm Hc) as Hck.
  eexists. split; [done|]. split.
  - exists pt'. split; [by destruct Hm'|]. apply (leaves_ext kc _ pt); [done|]. intros p _. apply Hother. simpl. congruence.
  - cbn [ADDRESS_SPACES set_SPACES]. rewrite E1, Hsp. cbn [List.filter].
    rewrite (proj2 (Z.eqb_neq kc c)) by congruence. cbn [negb]. eexists. split; [done|]. intros c'.
    rewrite list_elem_of_In, filter_In, <- list_elem_of_In, Hr, negb_true_iff, Z.eqb_neq. set_solver.
  - intros va b n. cbn [KSTACKS set_SPACES]. rewrite E2. apply Hks.
  - exact Hslots.
Qed.

(** *** A fresh space *)

Lemma fresh_root kc sp pt l m c active m' :
  mem_tree base kc sp pt (l ∪ {[c]}) m -> c ∉ l -> active ∈ sp \/ active = kc ->
  m' = copy_entries c active (zero_frame c m) ->
  mem_tree base kc ({[c]} ∪ sp) (<[(c, []) := c]> pt) l m' /\ same_lists m m' /\ c ∉ sp /\ c <> kc.
Proof.
  intros Hm Hcl Hact Em'. assert (Hcin : c ∈ l ∪ {[c]}) by (by apply elem_of_union_r, elem_of_singleton).
  destruct (loose_frame base kc sp pt _ m c Hm Hcin) as [Hfa Hck]. pose proof Hm as [Ht Hb Hlo Hbase Ha].
  assert (Hci : c ∉ img pt) by (intros Hin; by apply (Hlo c)).
  assert (Hroot : pt !! (active, []) = Some active) by (by apply (to_root _ _ _ _ Ht)).
  assert (Hne : c <> active) by (intros ->; apply Hci, elem_of_img; eauto).
  assert (Haa : aligned active) by (by eapply (to_frame _ _ _ _ Ht)).
  assert (Hz : mem_tree base kc sp pt (l ∪ {[c]}) (zero_frame c m)).
  { apply (zero_tree base kc sp pt _ m c 1 Hm); [apply Hfa|lia|]. rewrite frames_of_one. apply union_subseteq_r. }
  pose proof (mt_tree _ _ _ _ _ _ Hz) as Htz.
  destruct (copy_all_ok c active (zero_frame c m)) as (B & A & L & O & Dst);
    [apply Hfa|done|done|intros pa b; by apply (mt_bytes _ _ _ _ _ _ Hz)|].
  rewrite <- Em' in B, A, L, O, Dst. clear Em'.
  assert (Hcs : c ∉ sp) by (intros Hin; apply Hci, elem_of_img; exists (c, []); apply (to_root _ _ _ _ Ht); auto).
  assert (Hn : pt !! (c, []) = None) by (destruct (pt !! (c, [])) eqn:E; [apply (to_root _ _ _ _ Ht) in E; naive_solver|done]).
  split; [|split; [by destruct L|done]].
  split; rewrite ?(img_insert pt (c, []) c Hn); [|done|solve_sets..|].
  - apply (tree_add_root kc sp pt (BYTES (zero_frame c m))); try done.
    + intros k t i Hk Hl Hi. apply O; [by eapply (to_frame _ _ _ _ Ht)|done|]. intros ->. apply Hci, elem_of_img. eauto.
    + specialize (Dst 0 ltac:(lia)). rewrite decide_False in Dst by lia. etrans; [exact Dst|].
      apply entry_zero_in. lia.
    + unfold KSLOT. specialize (Dst 384 ltac:(lia)). rewrite decide_True in Dst by lia.
      unfold entry_is, read_entry in *. rewrite Dst.
      apply (to_entry _ _ _ _ Htz active [] active 384 Hroot); [simpl; lia|lia|]. intros _. by left.
  - rewrite A. cbn [ALLOCATOR zero_frame set_BYTES].
    replace (base ∪ l ∪ (({[c]} ∪ img pt) ∖ {[kc]})) with (base ∪ (l ∪ {[c]}) ∪ (img pt ∖ {[kc]})); [done|].
    apply set_eq. intros x. destruct (decide (x = c)) as [->|]; solve_sets.
Qed.

Lemma replay_pages_ok kc sp pt l c va b n : forall i m,
  mem_tree base kc sp pt l m -> c ∈ sp \/ c = kc ->
  (forall j, 0 <= j < i + Z.of_nat n -> stack_page (va + j * 4096) /\ pt !! (kc, path (va + j * 4096)) = Some (b + j * 4096)) ->
  0 <= i -> exists m', replay_pages c va b n i m = (true, m') /\ mem_tree base kc sp pt l m' /\ same_lists m m'.
Proof.
  induction n as [|n IH]; intros i m Hm Hc Hpt Hi; cbn [replay_pages]; [by exists m|].
  destruct (Hpt i ltac:(lia)) as [Hpg Hi'].
  destruct (remap_page_ok base kc sp pt l m c (va + i * 4096) (b + i * 4096) kstack_flags Hm) as (m1 & -> & Hm1 & S1);
    [by apply stack_reach|by rewrite stack_key|].
  destruct (IH (i + 1) m1 Hm1 Hc) as (m2 & -> & Hm2 & S2); [intros j Hj; apply Hpt; lia|lia|].
  exists m2. split; [done|]. split; [done|by etrans].
Qed.

Lemma kstack_page s j : 0 <= s < 4096 -> 0 <= j < KSTACK_PAGES -> stack_page (kstack_slot_base s + j * 4096).
Proof.
  unfold stack_page, kstack_slot_base, KSTACK_REGION_BASE, KSTACK_SLOT_BYTES, KSTACK_PAGES, KSTACK_GUARD_PAGES, aligned, PAGE_SIZE.
  intros Hs Hj. split; [|lia]. replace (_ + j * 4096) with (0 + (0xFFFFC00000000 + s * 9 + 1 + j) * 4096) by lia.
  by rewrite Z.mod_add.
Qed.

Lemma all_stacks_slot kc sp ks l m va b :
  paging_ok kc sp ks l m -> all_stacks ks !! va = Some b -> exists s, 0 <= s < 4096 /\ va = kstack_slot_base s.
Proof.
  intros Hok. unfold all_stacks. rewrite lookup_insert_Some. intros [[<- _]|[_ Hk]]; [by exists 0|].
  destruct (po_slots _ _ _ _ _ Hok _ _ Hk) as (s & ? & ->). exists s. lia.
Qed.

Lemma replay_kstacks_ok kc sp pt l c st : forall stacks m,
  mem_tree base kc sp pt l m -> c ∈ sp \/ c = kc -> leaves_are kc st pt ->
  Forall (fun s => snd s = KSTACK_PAGES /\ st !! fst (fst s) = Some (snd (fst s)) /\
                   exists i, 0 <= i < 4096 /\ fst (fst s) = kstack_slot_base i) stacks ->
  exists m', replay_kstacks c stacks m = (true, m') /\ mem_tree base kc sp pt l m' /\ same_lists m m'.
Proof.
  induction stacks as [|[[va b] n] stacks IH]; intros m Hm Hc Hl Hst; cbn [replay_kstacks]; [by exists m|].
  apply Forall_cons in Hst as [(En & Eb & i & Hi & Ev) Hst]. simpl in En, Eb, Ev. subst n va.
  destruct (replay_pages_ok kc sp pt l c (kstack_slot_base i) b (Z.to_nat KSTACK_PAGES) 0 m Hm Hc) as (m1 & -> & Hm1 & S1); [|lia|].
  { rewrite Z2Nat.id by done. intros j Hj. split; [by apply kstack_page|]. apply Hl; [done|]. by eexists _, b, j. }
  destruct (IH m1 Hm1 Hc Hl Hst) as (m2 & -> & Hm2 & S2). exists m2. split; [done|]. split; [done|by etrans].
Qed.

Lemma paging_new kc sp ks l active m :
  paging_ok kc sp ks l m -> active ∈ sp \/ active = kc ->
  exists r m', Paging.new_address_space active m = Some (r, m') /\
    match r with
    | Some c => c ∉ sp /\ paging_ok kc ({[c]} ∪ sp) ks l m' /\ forall va, user_page va -> Paging.translate m' c va = None
    | None => paging_ok kc sp ks l m'
    end.
Proof.
  intros Hok Hact. pose proof Hok as [(pt & Hm & Hl) (r & Hsp & Hr) Hks Hslots].
  unfold Paging.new_address_space. pose proof (mem_alloc_tree base kc sp pt l m 1 Hm ltac:(lia)) as Ha.
  destruct (alloc 1 m) as [[c|] m1]; [|exists None, m1; split; [done|]; destruct Ha as (Hm1 & _ & S1); by eapply paging_ok_intro].
  rewrite frames_of_one in Ha. destruct Ha as (Hm1 & Hd & _ & [S1 S1']).
  assert (Hcl : c ∉ l) by (intros Hin; apply (Hd c); [by apply elem_of_singleton|by apply elem_of_union_l]).
  destruct (fresh_root kc sp pt l m1 c active _ Hm1 Hcl Hact eq_refl) as (Hm2 & [S2 S2'] & Hcs & Hck).
  remember (copy_entries c active (zero_frame c m1)) as m2 eqn:Em2. clear Em2.
  assert (Hl2 : leaves_are kc (all_stacks ks) (<[(c, []) := c]> pt)) by (by apply leaves_user_insert).
  destruct (replay_kstacks_ok kc ({[c]} ∪ sp) _ l c (all_stacks ks) (KSTACKS m2) m2 Hm2) as (m3 & -> & Hm3 & [S3 S3']).
  { left. set_solver. }
  { done. }
  { apply Forall_forall. intros [[va b] n] Hin. rewrite S2', S1' in Hin. apply Hks in Hin as [-> Hb].
    split; [done|]. split; [done|]. by eapply all_stacks_slot. }
  exists (Some c). eexists. split; [done|]. split; [done|].
  assert (Hnin : c ∉ ADDRESS_SPACES m3).
  { rewrite S3, S2, S1, Hsp. intros [->|Hin]%elem_of_cons; [done|]. by apply Hr in Hin. }
  unfold register_address_space. rewrite bool_decide_false by done. split.
  - split.
    + exists (<[(c, []) := c]> pt). split; [by destruct Hm3|done].
    + exists (r ++ [c]). cbn [ADDRESS_SPACES set_SPACES]. rewrite S3, S2, S1, Hsp. split; [done|].
      intros c'. rewrite elem_of_app, list_elem_of_singleton, Hr. set_solver.
    + intros va b n. cbn [KSTACKS set_SPACES]. rewrite S3', S2', S1'. apply Hks.
    + exact Hslots.
  - intros va Hva. assert (Hm4 : mem_tree base kc ({[c]} ∪ sp) (<[(c, []) := c]> pt) l (set_SPACES (ADDRESS_SPACES m3 ++ [c]) m3))
      by (by destruct Hm3).
    rewrite (page_translate kc _ _ _ _ c va Hm4) by (set_solver || done).
    rewrite lookup_insert_ne by done. destruct (pt !! (c, path va)) eqn:E; [|done].
    destruct (to_slot _ _ _ _ (mt_tree _ _ _ _ _ _ Hm) _ _ _ _ E) as [[_ ?]|[_ ?]]; done.
Qed.

(** *** Kernel stacks *)

Lemma stack_va_inj s s' j j' :
  0 <= s < 4096 -> 0 <= s' < 4096 -> 0 <= j < KSTACK_PAGES -> 0 <= j' < KSTACK_PAGES ->
  path (kstack_slot_base s + j * 4096) = path (kstack_slot_base s' + j' * 4096) -> s = s' /\ j = j'.
Proof.
  intros Hs Hs' Hj Hj' E. destruct (kstack_page s j Hs Hj) as [Ha Hr], (kstack_page s' j' Hs' Hj') as [Ha' Hr'].
  apply path_inj in E; try done.
  - unfold kstack_slot_base, KSTACK_SLOT_BYTES, KSTACK_PAGES, KSTACK_GUARD_PAGES in *. lia.
  - unfold KSTACK_REGION_BASE, KSTACK_SLOT_BYTES, KSTACK_PAGES, KSTACK_GUARD_PAGES in Hr, Hr'.
    rewrite <- (Z.div_unique (kstack_slot_base s + j * 4096) (2 ^ 48) 65535 (kstack_slot_base s + j * 4096 - 65535 * 2 ^ 48)) by lia.
    rewrite <- (Z.div_unique (kstack_slot_base s' + j' * 4096) (2 ^ 48) 65535 (kstack_slot_base s' + j' * 4096 - 65535 * 2 ^ 48)) by lia.
    done.
Qed.

(** Which stack page a leaf is, if any. *)
Lemma spot_or_not kc va p :
  (exists j, 0 <= j < KSTACK_PAGES /\ p = path (va + j * 4096)) \/
  (forall j, 0 <= j < KSTACK_PAGES -> (kc, p) <> spot kc va j).
Proof.
  destruct (decide (Exists (fun j => p = path (va + j * 4096)) (seqZ 0 KSTACK_PAGES))) as [He|Hn].
  - left. apply Exists_exists in He as (j & Hj%elem_of_seqZ & E). exists j. split; [lia|done].
  - right. intros j Hj E. apply Hn, Exists_exists. exists j. split; [apply elem_of_seqZ; lia|].
    exact (f_equal snd E).
Qed.

Lemma leaves_register kc st pt pt' s b :
  leaves_are kc st pt -> 0 <= s < 4096 -> st !! kstack_slot_base s = None ->
  (forall va b, st !! va = Some b -> exists s, 0 <= s < 4096 /\ va = kstack_slot_base s) ->
  partial kc (kstack_slot_base s) b KSTACK_PAGES pt pt' ->
  leaves_are kc (<[kstack_slot_base s := b]> st) pt'.
Proof.
  intros Hl Hs Hn Hst [Hin Hout] p f Hp. set (va := kstack_slot_base s) in *.
  destruct (spot_or_not kc va p) as [(j & Hj & ->)|Hno].
  - change (kc, path (va + j * 4096)) with (spot kc va j). rewrite (Hin j Hj). split.
    + intros [= <-]. exists va, b, j. by rewrite lookup_insert_eq.
    + intros (va' & b' & j' & Hb' & Hj' & E & ->). destruct (decide (va' = va)) as [->|Hne].
      * rewrite lookup_insert_eq in Hb'. injection Hb' as <-. apply stack_va_inj in E as [_ ->]; done.
      * rewrite lookup_insert_ne in Hb' by done. destruct (Hst _ _ Hb') as (s' & Hs' & ->).
        apply stack_va_inj in E as [-> _]; done.
  - rewrite (Hout (kc, p) Hp Hno), (Hl p f Hp). split; intros (va' & b' & j' & Hb' & Hj' & -> & ->); exists va', b', j'.
    + split; [|done]. rewrite lookup_insert_ne; [done|]. intros <-. congruence.
    + split; [|done]. apply lookup_insert_Some in Hb' as [[<- _]|[_ ?]]; [|done]. by destruct (Hno j' Hj').
Qed.

Lemma stack_free kc sp ks l m pt s j :
  paging_ok kc sp ks l m -> leaves_are kc (all_stacks ks) pt -> 1 <= s < 4096 -> ks !! kstack_slot_base s = None ->
  0 <= j < KSTACK_PAGES -> pt !! spot kc (kstack_slot_base s) j = None.
Proof.
  intros Hok Hl Hs Hn Hj. destruct (pt !! spot kc (kstack_slot_base s) j) eqn:E; [|done].
  apply Hl in E as (va' & b' & j' & Hb' & Hj' & Ep & _); [|done].
  destruct (all_stacks_slot _ _ _ _ _ _ _ Hok Hb') as (s' & Hs' & ->).
  apply stack_va_inj in Ep as [<- _]; [|lia|done|done|done]. unfold all_stacks in Hb'.
  rewrite lookup_insert_ne in Hb' by (unfold kstack_slot_base, KSTACK_SLOT_BYTES, KSTACK_PAGES, KSTACK_GUARD_PAGES; lia).
  congruence.
Qed.

Lemma paging_register kc sp ks l va b m :
  paging_ok kc sp ks l m -> frames_of b KSTACK_PAGES ⊆ l -> kstack_va va -> ks !! va = None ->
  match Paging.register_kstack va b KSTACK_PAGES m with
  | (true, m') => paging_ok kc sp (<[va := b]> ks) (l ∖ frames_of b KSTACK_PAGES) m'
  | (false, m') => paging_ok kc sp ks l m'
  end.
Proof.
  intros Hok Hsub Hva Hn. pose proof Hva as (s & Hs & ->). pose proof Hok as [(pt & Hm & Hl) Hspaces Hks Hslots].
  destruct (spaces_in _ _ _ _ _ Hok) as [Hin Hne]. set (va := kstack_slot_base s) in *.
  assert (Hv0 : kstack_slot_base 0 <> va)
    by (unfold va, kstack_slot_base, KSTACK_SLOT_BYTES, KSTACK_PAGES, KSTACK_GUARD_PAGES; lia).
  assert (E0 : l ∖ frames_of b 0 = l) by (unfold frames_of; simpl; set_solver).
  pose proof (map_kstack_ok base kc sp (ADDRESS_SPACES m) Hin Hne va b) as Hmk.
  specialize (Hmk ltac:(intros j Hj; by apply kstack_page; [lia|]) pt l Hsub (Z.to_nat KSTACK_PAGES) 0 pt m eq_refl ltac:(lia)).
  rewrite E0 in Hmk. specialize (Hmk ltac:(intros j Hj; by eapply stack_free) Hm).
  specialize (Hmk ltac:(split; [intros j Hj; lia|done])). unfold Paging.register_kstack.
  destruct (map_kstack _ _ _ _ _ m) as [[] m1]; destruct Hmk as (pt' & [S1 S2] & Hm' & Hp).
  - assert (Eall : all_stacks (<[va := b]> ks) = <[va := b]> (all_stacks ks)) by (unfold all_stacks; by rewrite insert_insert_ne).
    split.
    + exists pt'. split; [by destruct Hm'|]. rewrite Eall. apply (leaves_register kc _ pt); try done; [lia| |].
      * unfold all_stacks. by rewrite lookup_insert_ne.
      * intros va' b' Hb'. by eapply all_stacks_slot.
    + cbn [ADDRESS_SPACES set_KSTACKS]. by rewrite S1.
    + intros va' b' n. cbn [KSTACKS set_KSTACKS]. rewrite S2, elem_of_app, list_elem_of_singleton, Hks, Eall.
      rewrite lookup_insert_Some. assert (all_stacks ks !! va = None) by (unfold all_stacks; by rewrite lookup_insert_ne).
      split; [intros [[-> ?]|[= -> -> ->]]|]; naive_solver congruence.
    + intros va' b'. rewrite lookup_insert_Some. intros [[<- _]|[_ ?]]; [done|by eapply Hslots].
  - eapply paging_ok_intro; [done|exact Hm'| |done]. apply (leaves_ext kc _ pt); [done|].
    intros p Hp'. apply Hp; [done|]. intros j Hj. lia.
Qed.

Lemma paging_unregister kc sp ks l va b m :
  paging_ok kc sp ks l m -> ks !! va = Some b ->
  paging_ok kc sp (delete va ks) (l ∪ frames_of b KSTACK_PAGES) (Paging.unregister_kstack va KSTACK_PAGES m).
Proof.
  intros Hok Hb. pose proof Hok as [(pt & Hm & Hl) Hspaces Hks Hslots].
  destruct (Hslots va b Hb) as (s & Hs & Eva). destruct (spaces_in _ _ _ _ _ Hok) as [Hin Hne].
  assert (Hv0 : kstack_slot_base 0 <> va)
    by (subst va; unfold kstack_slot_base, KSTACK_SLOT_BYTES, KSTACK_PAGES, KSTACK_GUARD_PAGES; lia).
  assert (Hball : all_stacks ks !! va = Some b) by (unfold all_stacks; by rewrite lookup_insert_ne).
  assert (Eall : all_stacks (delete va ks) = delete va (all_stacks ks)) by (unfold all_stacks; by rewrite delete_insert_ne).
  destruct (unmap_pages_ok base kc sp (ADDRESS_SPACES m) Hin Hne va b) with (i := KSTACK_PAGES) (js := seqZ 0 KSTACK_PAGES)
    (pt := pt) (l := l) (m := m) as (pt' & [S1 S2] & Hm' & Hcut & Hkeep); try done.
  { intros j Hj. subst va. apply kstack_page; [lia|done]. }
  { apply NoDup_seqZ. }
  { apply Forall_forall. intros j Hj%elem_of_seqZ. lia. }
  { intros j Hj%elem_of_seqZ. rewrite decide_True by lia. apply Hl; [done|]. exists va, b, j. repeat split; try done; lia. }
  rewrite filter_below in Hm' by done. unfold Paging.unregister_kstack. split.
  - exists pt'. split; [by destruct Hm'|]. rewrite Eall. intros p f Hp.
    destruct (spot_or_not kc va p) as [(j & Hj & ->)|Hno].
    + change (kc, path (va + j * 4096)) with (spot kc va j). rewrite Hcut by (apply elem_of_seqZ; lia).
      split; [done|]. intros (va' & b' & j' & [Hne' Hb']%lookup_delete_Some & Hj' & E & ->). exfalso. apply Hne'.
      destruct (all_stacks_slot _ _ _ _ _ _ _ Hok Hb') as (s' & Hs' & ->). subst va.
      apply stack_va_inj in E as [-> _]; [done|lia|done|done|done].
    + rewrite Hkeep by (intros j Hj%elem_of_seqZ; apply Hno; lia). rewrite (Hl p f Hp).
      split; intros (va' & b' & j' & Hb' & Hj' & -> & ->); exists va', b', j'.
      * split; [|done]. apply lookup_delete_Some. split; [|done]. intros <-. by destruct (Hno j' Hj').
      * split; [|done]. by apply lookup_delete_Some in Hb' as [_ ?].
  - cbn [ADDRESS_SPACES set_KSTACKS]. by rewrite S1.
  - intros va' b' n. cbn [KSTACKS set_KSTACKS].
    rewrite list_elem_of_In, filter_In, <- list_elem_of_In, S2, Hks, Eall, lookup_delete_Some, negb_true_iff. cbn [fst].
    rewrite Z.eqb_neq. naive_solver congruence.
  - intros va' b' [_ ?]%lookup_delete_Some. by eapply Hslots.
Qed.
End paging_mem.

(** frame.rs and paging.rs keep the promises the kernel relies on. *)
Definition paging_laws `{PE : PageEntry} `{!PageEntryLaws} (base : gset Z) (b0 : Z) : MemLaws Paging.
Proof.
  refine {| mem_ok := paging_ok base b0 |}.
  - intros kc sp ks l m [(pt & Hm & _) (r & Hsp & _) _ _].
    change (Paging.kernel_space m = Some kc /\ kc ∉ sp). unfold Paging.kernel_space. rewrite Hsp. split; [done|].
    apply (to_kc _ _ _ _ (mt_tree _ _ _ _ _ _ Hm)).
  - intros kc sp ks l pa m [(pt & Hm & _) _ _ _]. apply byte_map_lookup. intros ? ?. by apply (mt_bytes _ _ _ _ _ _ Hm).
  - intros. by apply paging_alloc.
  - intros. by apply paging_free.
  - intros. by apply paging_zero.
  - intros. by eapply paging_write.
  - intros. by apply paging_map.
  - intros. by apply paging_remap.
  - intros. by apply paging_unmap.
  - intros. by apply paging_new.
  - intros. by apply paging_destroy.
  - intros. by apply paging_register.
  - intros. by apply paging_unregister.
Defined.
