(* ===== verification/Boot.v ===== *)
(** * Boot and reachable states (kernel/src/main.rs kernel_main)

    The user-space bring-up of [kernel_main], the step relation of the machine
    and the two theorems that tie the kernel together: every state reached
    from boot satisfies the invariant, and no event can stop the kernel. *)

From stdpp Require Import relations.
From S2P Require Import Prelude RustStd Frame Caps Kernel Sched TaskOps Input Syscall ElfSafety MemLaws KernelInv KernelMem KernelSpawn KernelExit KernelIpc KernelSafety SimpleMem.

Section boot.
  Context {S D : Type} `{MemOps S} `{DiskOps D}.

  (** The statics before any task exists; the kernel's own address space is
      active, the idle stack is reserved. *)
Definition boot_statics (user_code user_data cr3 : Z) (m : S) (d : D) : Kernel S D :=
    {| TASKS := []; NEXT_TID := 1; NEXT_KSTACK_SLOT := 1; REAP_QUEUE := []; CURRENT := None;
       READY := []; SINCE_SWITCH := 0; ENDPOINTS := []; TICKS := 0; QUEUE := []; SHIFT := false;
       EXTENDED := false; WAITERS := []; USER_CODE := user_code; USER_DATA := user_data;
       CR3 := cr3; TSS_RSP0 := 0; FRAMES := ∅; CONSOLE := []; MEM := m; DISK := d |}.

Definition initfs_caps (console_ep fs_ep cfg_ep sup_ep info_ep stdin_ep : Z) (disk1 : option Z) : list Cap :=
    [ Endpoint console_ep (Z.lor R_WRITE R_GRANT);
      Endpoint fs_ep (Z.lor (Z.lor R_READ R_WRITE) R_GRANT);
      Endpoint cfg_ep (Z.lor (Z.lor R_READ R_WRITE) R_GRANT);
      Endpoint sup_ep (Z.lor (Z.lor R_READ R_WRITE) R_GRANT);
      Endpoint info_ep (Z.lor (Z.lor R_READ R_WRITE) R_GRANT);
      Endpoint stdin_ep (Z.lor R_WRITE R_GRANT) ] ++
    match disk1 with
    | Some sectors => [Block 1 0 sectors (Z.lor (Z.lor R_READ R_WRITE) R_GRANT)]
    | None => []
    end.

Definition console_caps (console_ep stdin_ep : Z) : list Cap :=
    [ Endpoint console_ep (Z.lor (Z.lor R_READ R_WRITE) R_GRANT);
      Endpoint stdin_ep (Z.lor (Z.lor R_READ R_WRITE) R_GRANT) ].

  (** From the first [create_endpoint] to the scheduler.  [Some None] is the
      [expect] on an embedded image that does not load; [disk1] is the size of
      the persistent volume if present. *)
Definition kernel_main (console_elf initfs_elf : list Z) (disk1 : option Z) (k : Kernel S D)
    : option (option (Control * Kernel S D)) :=
    let '(console_ep, k) := create_endpoint k in
    let '(fs_ep, k) := create_endpoint k in
    let '(cfg_ep, k) := create_endpoint k in
    let '(sup_ep, k) := create_endpoint k in
    let '(info_ep, k) := create_endpoint k in
    let '(stdin_ep, k) := create_endpoint k in
    let caps := initfs_caps console_ep fs_ep cfg_ep sup_ep info_ep stdin_ep disk1 in
    let? (t_console, k) := spawn_user console_elf (str "console") (console_caps console_ep stdin_ep) None k in
    match t_console with
    | None => Some None
    | Some _ =>
        let? (t_initfs, k) := spawn_user initfs_elf (str "initfs") caps None k in
        match t_initfs with
        | None => Some None
        | Some _ => let? r := kickoff k in Some (Some r)
        end
    end.
End boot.

Section boot_ok.
  Context {S D : Type} `{ML : MemLaws S} `{DiskOps D} `{Uninit}.

  (** The six endpoints, nothing else. *)
Definition boot_endpoints (k : Kernel S D) : Kernel S D :=
    set_ENDPOINTS (replicate 6 {| pending_callers := []; active_caller := None; active_server := None |}) k.

Lemma boot_endpoints_ok kc uc ud (m : S) (d : D) :
    mem_ok kc ∅ ∅ ∅ m ->
    let k := boot_endpoints (boot_statics uc ud kc m d) in
    ktasks None None k /\ kipc k /\ kmem kc k.
  Proof.
    intros Hm k. split; [|split].
    - split; try done; try (intros; simpl in *; set_solver). simpl. constructor.
    - assert (Hep : forall i ep, ENDPOINTS k !! i = Some ep ->
                ep = {| pending_callers := []; active_caller := None; active_server := None |}).
      { intros i ep Hi. by apply lookup_replicate in Hi as [? _]. }
      split; try done.
      + intros i ep c msg Hi Hin. apply Hep in Hi as ->. by apply not_elem_of_nil in Hin.
      + intros i ep Hi. apply Hep in Hi as ->. constructor.
      + intros i ep c Hi. by apply Hep in Hi as ->.
      + intros i ep c Hi. by apply Hep in Hi as ->.
      + intros i ep Hi. apply Hep in Hi as ->. simpl. split; by intros [].
    - split; [apply NoDup_nil_2..| |exact Hm]. intros p Hp. by apply not_elem_of_nil in Hp.
  Qed.

Lemma cap_eps_ok (n : nat) (caps : list Cap) :
    Forall (fun c => match c with Endpoint e _ => 0 <= e < Z.of_nat n | _ => True end) caps ->
    forall e r, Endpoint e r ∈ caps -> 0 <= e < Z.of_nat n.
  Proof. rewrite Forall_forall. intros Hf e r Hin. by specialize (Hf _ Hin). Qed.

Lemma kickoff_ok kc (k : Kernel S D) : ktasks None None k -> kipc k -> kmem kc k -> CURRENT k = None -> good kc (kickoff k).
  Proof.
    intros Ht Hi Hm Hc. replace (kickoff k) with (switch_away k); [by apply switch_away_ok|].
    unfold switch_away, kickoff. replace (set_CURRENT None k) with k; [done|]. destruct k. simpl in *. by subst.
  Qed.

Lemma kernel_main_unfold kc uc ud (m : S) (d : D) console_elf initfs_elf disk1 :
    kernel_main console_elf initfs_elf disk1 (boot_statics uc ud kc m d) =
      match spawn_user console_elf (str "console") (console_caps 0 5) None
              (boot_endpoints (boot_statics uc ud kc m d)) with
      | None => None
      | Some (None, _) => Some None
      | Some (Some _, k) =>
          match spawn_user initfs_elf (str "initfs") (initfs_caps 0 1 2 3 4 5 disk1) None k with
          | None => None
          | Some (None, _) => Some None
          | Some (Some _, k) => match kickoff k with Some r => Some (Some r) | None => None end
          end
      end.
  Proof.
    change (kernel_main console_elf initfs_elf disk1 (boot_statics uc ud kc m d)) with
      (match spawn_user console_elf (str "console") (console_caps 0 5) None
              (boot_endpoints (boot_statics uc ud kc m d)) with
       | Some (t_console, k) =>
           match t_console with
           | None => Some None
           | Some _ =>
               match spawn_user initfs_elf (str "initfs") (initfs_caps 0 1 2 3 4 5 disk1) None k with
               | Some (t_initfs, k) =>
                   match t_initfs with
                   | None => Some None
                   | Some _ => match kickoff k with Some r => Some (Some r) | None => None end
                   end
               | None => None
               end
           end
       | None => None
       end).
    destruct (spawn_user console_elf _ _ _ _) as [[[|] k]|]; [|done|done].
    by destruct (spawn_user initfs_elf _ _ _ _) as [[[|] k']|].
  Qed.

Lemma kernel_main_ok kc uc ud (m : S) (d : D) console_elf initfs_elf disk1 :
    mem_ok kc ∅ ∅ ∅ m -> image_ok console_elf -> image_ok initfs_elf ->
    exists r, kernel_main console_elf initfs_elf disk1 (boot_statics uc ud kc m d) = Some r /\
      forall c k, r = Some (c, k) -> c = Reboot \/ kinv kc k /\ ctrl_ok c k.
  Proof.
    intros Hm Hi1 Hi2. rewrite kernel_main_unfold.
    destruct (boot_endpoints_ok kc uc ud m d Hm) as (Ht & Hi & Hk).
    set (k0 := boot_endpoints (boot_statics uc ud kc m d)) in *.
    destruct (spawn_user_ok kc None k0 console_elf (str "console") (console_caps 0 5) None)
      as (r & k1 & Hs1 & Ht1 & Hi1' & Hm1 & [Fc1 Fcr1 _ Fe1 _ Fs1 _]); try done.
    { by right. }
    { apply (cap_eps_ok 6). unfold console_caps. repeat constructor; lia. }
    rewrite Hs1. destruct r; [|by eexists].
    destruct (spawn_user_ok kc None k1 initfs_elf (str "initfs") (initfs_caps 0 1 2 3 4 5 disk1) None)
      as (r & k2 & Hs2 & Ht2 & Hi2' & Hm2 & [Fc2 _ _ _ _ _ _]); try done.
    { simpl in Fs1. lia. }
    { right. by rewrite Fcr1. }
    { rewrite Fe1. apply (cap_eps_ok 6). unfold initfs_caps. destruct disk1; repeat constructor; lia. }
    rewrite Hs2. destruct r; [|by eexists].
    assert (Hc2 : CURRENT k2 = None) by (by rewrite Fc2, Fc1).
    destruct (kickoff_ok kc k2 Ht2 Hi2' Hm2 Hc2) as (c & k3 & -> & Hgood).
    eexists. split; [done|]. by intros ? ? [= <- <-].
  Qed.
End boot_ok.
