(* ===== verification/CapSafety.v ===== *)
(** * Authority never grows

    The capability system of the kernel.  Deriving and spawning attenuate;
    every other handler leaves capability tables alone; so over any event the
    capabilities of a task come from its own table, or, for a task just
    created, from the grantable capabilities of its creator.  Block I/O stays
    inside the window its capability names. *)

From S2P Require Import Prelude RustStd Frame Caps Kernel Sched TaskOps Input Syscall ElfSafety MemLaws KernelInv KernelMem KernelSpawn KernelExit KernelIpc KernelSafety SimpleMem Boot.

Definition holds (t : Task) (c : Cap) : Prop := Some c ∈ t_caps t.

(** Every capability of [t'] attenuates one of [t]. *)
Definition caps_within (t' t : Task) : Prop := forall c, holds t' c -> exists d, holds t d /\ attenuates c d.

#[global] Instance caps_within_preorder : PreOrder caps_within.
Proof.
  split; [intros t c Hc; exists c; split; [done|reflexivity]|].
  intros t1 t2 t3 H1 H2 c Hc. destruct (H1 c Hc) as (d & Hd & Hcd). destruct (H2 d Hd) as (e & He & Hde).
  exists e. split; [done|]. by etrans.
Qed.

(** The result of the first step of a sequence that returned. *)
Tactic Notation "destruct_in" hyp(H) "as" ident(x) ident(Hx) :=
  match type of H with
  | match ?o with Some _ => _ | None => None end = Some _ => destruct o as [x|] eqn:Hx; [|discriminate H]
  end.

(** ** Handlers that leave capability tables alone *)

Section evolves.
  Context {S D : Type} `{MemOps S} `{DiskOps D} `{Uninit}.
  Implicit Types k : Kernel S D.

  (** Tasks may disappear and change in every other way, but none is created,
      and none changes its capability table or its address space; the disks
      are untouched.  A reader that parks is a task of the table, parked on
      its own address space with a buffer in user space. *)
Definition evolves_tasks k k' : Prop :=
    forall t', t' ∈ TASKS k' -> exists t, t ∈ TASKS k /\ t_id t = t_id t' /\ t_caps t = t_caps t' /\ t_cr3 t = t_cr3 t'.

Definition own_reader k (w : Waiter) : Prop :=
    (exists t, t ∈ TASKS k /\ t_id t = w_tid w /\ t_cr3 t = w_cr3 w) /\
    0 <= w_buf w /\ w_buf w + w_len w <= USER_STACK_TOP.

Definition parks k k' : Prop :=
    NEXT_TID k' = NEXT_TID k /\ forall w, w ∈ WAITERS k' -> w ∈ WAITERS k \/ own_reader k w.

Definition evolves k k' : Prop := evolves_tasks k k' /\ DISK k' = DISK k /\ parks k k'.

Lemma own_reader_back k k' w : evolves_tasks k k' -> own_reader k' w -> own_reader k w.
  Proof.
    intros He [(t & Ht & Hi & Hc) Hb]. split; [|exact Hb]. destruct (He t Ht) as (u & Hu & Eu & _ & Ec).
    exists u. split; [done|]. split; congruence.
  Qed.

#[global] Instance evolves_preorder : PreOrder evolves.
  Proof.
    split; [intros k; split; [intros t Ht; by exists t|split; [done|split; auto]]|].
    intros k1 k2 k3 (H1' & E1 & N1 & W1) (H2' & E2 & N2 & W2). split; [|split; [congruence|split; [congruence|]]].
    - intros t Ht. destruct (H2' _ Ht) as (u & Hu & <- & <- & <-). by apply H1'.
    - intros w Hw. destruct (W2 w Hw) as [Hw2|Hw2]; [by apply W1|]. right. by eapply own_reader_back.
  Qed.

  (** What a handler that parks no reader and creates no task leaves alone. *)
Definition still k k' : Prop := DISK k' = DISK k /\ NEXT_TID k' = NEXT_TID k /\ WAITERS k' = WAITERS k.

Lemma still_evolves k k' : evolves_tasks k k' -> still k k' -> evolves k k'.
  Proof. intros He (ED & EN & EW). split; [done|]. split; [done|]. split; [done|]. rewrite EW. auto. Qed.

Lemma evolves_eq k k' : TASKS k' = TASKS k -> still k k' -> evolves k k'.
  Proof. intros E. apply still_evolves. intros t'. rewrite E. intros Ht. by exists t'. Qed.

Definition keeps_caps (f : Task -> Task) : Prop :=
    forall t, t_id (f t) = t_id t /\ t_caps (f t) = t_caps t /\ t_cr3 (f t) = t_cr3 t.

Lemma evolves_update p f k k' :
    keeps_caps f -> TASKS k' = update_first p f (TASKS k) -> still k k' -> evolves k k'.
  Proof.
    intros Hf E. apply still_evolves. intros t'. rewrite E. intros Ht. apply elem_of_update_first in Ht as [Ht|(u & Hu & _ & ->)].
    - by exists t'.
    - exists u. destruct (Hf u) as (-> & -> & ->). done.
  Qed.

Lemma evolves_filter (p : Task -> bool) k k' :
    TASKS k' = List.filter p (TASKS k) -> still k k' -> evolves k k'.
  Proof.
    intros E. apply still_evolves. intros t'. rewrite E, list_elem_of_In, filter_In, <- list_elem_of_In. intros [? _]. by exists t'.
  Qed.

Lemma evolves_write_frame a f k k' : write_frame a f k = Some k' -> evolves k k'.
  Proof. unfold write_frame. intros E. case_match; [|done]. injection E as <-. by apply evolves_eq. Qed.

Lemma evolves_return_with a f k c k' : return_with a f k = Some (c, k') -> evolves k k'.
  Proof.
    unfold return_with. intros E. destruct (write_frame a f k) as [k1|] eqn:Ew; [|done].
    injection E as _ <-. by eapply evolves_write_frame.
  Qed.

Lemma evolves_resume tid k c k' : resume tid k = Some (c, k') -> evolves k k'.
  Proof.
    unfold resume. intros E. case_match; [|done]. injection E as _ <-.
    by eapply (evolves_update (has_id tid) (with_state Running)).
  Qed.

Lemma evolves_switch_away k c k' : switch_away k = Some (c, k') -> evolves k k'.
  Proof.
    unfold switch_away, pick_next. destruct (pick_loop _ _ _ _) as [[n q]|]; intros E.
    - apply evolves_resume in E. etrans; [|exact E]. by apply evolves_eq.
    - injection E as _ <-. apply evolves_eq; unfold activate_kernel_space; by case_match.
  Qed.

Lemma evolves_upd tid f k k' : keeps_caps f -> upd_task_or_panic tid f k = Some k' -> evolves k k'.
  Proof.
    unfold upd_task_or_panic. intros Hf E. case_match; [|done]. injection E as <-.
    by eapply (evolves_update (has_id tid) f).
  Qed.

Lemma evolves_park tid fp s k c k' : park tid fp s k = Some (c, k') -> evolves k k'.
  Proof.
    unfold park. intros E. destruct (upd_task_or_panic _ _ _) as [k1|] eqn:Eu; [|done].
    etrans; [eapply evolves_upd; [|exact Eu]; by split|]. by eapply evolves_switch_away.
  Qed.

Lemma evolves_reap z k : evolves k (schedule_reap z k).
  Proof. unfold schedule_reap. case_match; [|done]. by eapply evolves_filter. Qed.

Lemma evolves_reap_all zs : forall k, evolves k (foldl (fun k z => schedule_reap z k) k zs).
  Proof. induction zs as [|z zs IH]; intros k; simpl; [done|]. etrans; [apply evolves_reap|apply IH]. Qed.

Lemma evolves_orphan kids : forall k, evolves k (fst (orphan_kids kids k)).
  Proof.
    induction kids as [|kid kids IH]; intros k; cbn [orphan_kids]; [done|]. case_match; [|apply IH].
    specialize (IH (upd_task kid (with_parent None) k)). destruct (orphan_kids _ _) as [k1 zs]. simpl in *.
    etrans; [|exact IH]. by eapply (evolves_update (has_id kid) (with_parent None)).
  Qed.

Lemma evolves_fail_all cs : forall k k', fail_all cs k = Some k' -> evolves k k'.
  Proof.
    induction cs as [|c cs IH]; intros k k'; cbn [fail_all]; [by intros [= <-]|].
    destruct (fail_stranded c k) as [k1|] eqn:Ef; [|done]. intros E. etrans; [|by eapply IH].
    clear IH E. unfold fail_stranded in Ef. repeat (case_match; try done; simplify_eq); try done.
    etrans; [by eapply evolves_write_frame|]. by eapply (evolves_update (has_id c) (with_state Ready)).
  Qed.

Lemma evolves_terminate tid code k k' : terminate_lifecycle tid code k = Some k' -> evolves k k'.
  Proof.
    unfold terminate_lifecycle.
    assert (H0' : evolves k (snd (match find_task tid k with
      | None => (Orphan, [], k)
      | Some me => let k := upd_task tid (with_state (Zombie code)) k in
          let '(k, zombies) := orphan_kids (children tid (TASKS k)) k in (fate_of (t_parent me) k, zombies, k)
      end))).
    { destruct (find_task tid k) as [me|]; [|done]. cbv zeta.
      pose proof (evolves_orphan (children tid (TASKS (upd_task tid (with_state (Zombie code)) k)))
        (upd_task tid (with_state (Zombie code)) k)) as Ho.
      destruct (orphan_kids _ _) as [k1 zs]. simpl in *. etrans; [|exact Ho].
      by eapply (evolves_update (has_id tid) (with_state (Zombie code))). }
    destruct (match find_task tid k with None => _ | Some me => _ end) as [[fate zs] k1]. simpl in H0'.
    pose proof (evolves_reap_all zs k1) as H1'. set (k2 := foldl _ k1 zs) in *.
    destruct (abort_ipc_for_exiting_task tid k2) as [k3|] eqn:Ea; [|done].
    assert (H3 : evolves k k3).
    { etrans; [exact H0'|]. etrans; [exact H1'|]. unfold abort_ipc_for_exiting_task in Ea.
      apply evolves_fail_all in Ea. etrans; [|exact Ea]. by apply evolves_eq. }
    intros E. etrans; [exact H3|]. destruct fate as [p| |].
    - destruct (find_task p k3); [|done]. destruct (write_frame _ _ _) as [k4|] eqn:Ew; [|done].
      injection E as <-. etrans; [by eapply evolves_write_frame|].
      etrans; [|apply evolves_reap]. by eapply (evolves_update (has_id p) (with_state Ready)).
    - by injection E as <-.
    - injection E as <-. apply evolves_reap.
  Qed.

Lemma reclaim_tasks p k k' : reclaim p k = Some k' -> TASKS k' = TASKS k /\ still k k'.
  Proof. unfold reclaim. intros E. repeat (case_match; [|done]). by injection E as <-. Qed.

Lemma reclaim_all_tasks ps : forall k k', reclaim_all ps k = Some k' -> TASKS k' = TASKS k /\ still k k'.
  Proof.
    induction ps as [|p ps IH]; intros k k'; simpl; [by intros [= <-]|].
    destruct (reclaim p k) as [k1|] eqn:Er; [|done]. intros E.
    destruct (IH _ _ E) as (-> & ED & EN & EW). unfold still. rewrite ED, EN, EW. by eapply reclaim_tasks.
  Qed.

Lemma remove_first_sub z (ts : list Task) t : t ∈ remove_first z ts -> t ∈ ts.
  Proof.
    induction ts as [|u ts IH]; simpl; [done|]. case_match; [by apply list_elem_of_further|].
    intros [->|Hin]%elem_of_cons; [apply list_elem_of_here|]. apply list_elem_of_further. auto.
  Qed.

Lemma evolves_reap_zombie z k r k' : reap_zombie z k = Some (r, k') -> evolves k k'.
  Proof.
    unfold reap_zombie. intros E. repeat (case_match; try done; simplify_eq); try done.
    match goal with Hr : reclaim _ _ = Some _ |- _ => apply reclaim_tasks in Hr as [Htasks Hstill]; simpl in Htasks end.
    apply still_evolves; [|exact Hstill]. intros t'. rewrite Htasks. intros Hin. exists t'. split; [by eapply remove_first_sub|done].
  Qed.

Lemma wake_tasks_caps now ts : forall fr ts' fr' w, wake_tasks now ts fr = Some (ts', fr', w) ->
    forall t', t' ∈ ts' -> exists t, t ∈ ts /\ t_id t = t_id t' /\ t_caps t = t_caps t' /\ t_cr3 t = t_cr3 t'.
  Proof.
    induction ts as [|t ts IH]; intros fr ts' fr' w; cbn [wake_tasks]; [intros [= <- <- <-]; set_solver|].
    intros E. destruct (expired now (t_state t)).
    - destruct (fr !! t_saved_rsp t); [|done]. destruct (wake_tasks _ _ _) as [[[ts1 fr1] w1]|] eqn:Ew; [|done].
      injection E as <- <- <-. intros t' [->|Hin]%elem_of_cons.
      + exists t. split; [apply list_elem_of_here|done].
      + destruct (IH _ _ _ _ Ew _ Hin) as (u & ? & ?). exists u. split; [by apply list_elem_of_further|done].
    - destruct (wake_tasks _ _ _) as [[[ts1 fr1] w1]|] eqn:Ew; [|done].
      injection E as <- <- <-. intros t' [->|Hin]%elem_of_cons.
      + exists t. split; [apply list_elem_of_here|done].
      + destruct (IH _ _ _ _ Ew _ Hin) as (u & ? & ?). exists u. split; [by apply list_elem_of_further|done].
  Qed.

Lemma evolves_wake k k' : wake_expired k = Some k' -> evolves k k'.
  Proof.
    unfold wake_expired. destruct (wake_tasks _ _ _) as [[[ts fr] w]|] eqn:Ew; [|done].
    rewrite foldl_make_ready. intros [= <-]. apply still_evolves; [|done]. intros t' Hin. by eapply wake_tasks_caps.
  Qed.

Lemma evolves_preempt fp k c k' : maybe_preempt fp k = Some (c, k') -> evolves k k'.
  Proof.
    unfold maybe_preempt, pick_next. intros E. case_match; [injection E as _ <-; by apply evolves_eq|].
    destruct (pick_loop _ _ _ _) as [[n q]|]; cbn [CURRENT set_SINCE_SWITCH] in E; destruct (CURRENT k) as [x|].
    - destruct (upd_task_or_panic _ _ _) as [k1|] eqn:Eu; [|done].
      apply evolves_resume in E. apply evolves_upd in Eu; [|by split].
      etrans; [|exact E]. transitivity k1; [|by apply evolves_eq]. etrans; [|exact Eu]. by apply evolves_eq.
    - apply evolves_resume in E. etrans; [|exact E]. by apply evolves_eq.
    - injection E as _ <-. by apply evolves_eq.
    - injection E as _ <-. by apply evolves_eq.
  Qed.

Lemma evolves_deliver w k k' : deliver_to w k = Some k' -> evolves k k'.
  Proof.
    unfold deliver_to. destruct (fill _ _ _ _ _ _) as [[n q] m]. intros E.
    match type of E with match ?o with _ => _ end = _ => destruct o as [k1|] eqn:E1; [|done] end.
    injection E as <-. transitivity k1; [|by apply evolves_eq].
    transitivity (set_MEM m (set_QUEUE q k)); [by apply evolves_eq|].
    destruct (find_task _ _) as [t|]; [|by injection E1 as <-].
    destruct (t_state t); try (by injection E1 as <-).
    destruct (write_frame _ _ _) as [k2|] eqn:Ew; [|done]. injection E1 as <-.
    etrans; [by eapply evolves_write_frame|]. by eapply (evolves_update (has_id (w_tid w)) (with_state Ready)).
  Qed.

Lemma evolves_key sc k k' : on_scancode sc k = Some k' -> evolves k k'.
  Proof.
    unfold on_scancode, enqueue. intros E.
    repeat (case_match; try (injection E as <-; by apply evolves_eq)).
    apply evolves_deliver in E. etrans; [|exact E]. split; [intros t Ht; by exists t|]. split; [done|]. split; [done|].
    cbn in *. intros x Hx. left. match goal with Hw : WAITERS k = _ |- _ => rewrite Hw end. by apply list_elem_of_further.
  Qed.

  (** ** The system calls *)

Lemma evolves_ipc_call tid fp a0 a1 a2 a3 a4 a5 k c k' :
    ipc_call tid fp a0 a1 a2 a3 a4 a5 k = Some (c, k') -> evolves k k'.
  Proof.
    unfold ipc_call. intros E. destruct (get_endpoint_cap _ _ _ _); [|by eapply evolves_return_with].
    destruct (upd_task_or_panic tid (with_saved_rsp fp) k) as [k1|] eqn:E1; [|done].
    etrans; [eapply evolves_upd; [|exact E1]; by split|]. destruct (ENDPOINTS k1 !! _) as [ep|]; [|done].
    destruct (find _ _) as [w|].
    - destruct_in E as k2 E2. etrans; [by eapply evolves_write_frame|].
      destruct_in E as k3 E3.
      apply evolves_switch_away in E. apply evolves_upd in E3; [|by split].
      etrans; [|exact E]. etrans; [|exact E3].
      by eapply (evolves_update (receives_on a) (with_state Ready)).
    - destruct_in E as k3 E3.
      apply evolves_switch_away in E. apply evolves_upd in E3; [|by split].
      etrans; [|exact E]. etrans; [|exact E3].
      by apply evolves_eq.
  Qed.

Lemma evolves_ipc_recv tid fp slot dl k c k' : ipc_recv tid fp slot dl k = Some (c, k') -> evolves k k'.
  Proof.
    unfold ipc_recv. intros E. destruct (get_endpoint_cap _ _ _ _); [|by eapply evolves_return_with].
    destruct (ENDPOINTS k !! _) as [ep|]; [|done]. case_match; [by eapply evolves_return_with|].
    destruct (pending_callers ep) as [|[cl msg] rest].
    - case_match; [by eapply evolves_return_with|by eapply evolves_park].
    - apply evolves_return_with in E. etrans; [|exact E].
      by eapply (evolves_update (has_id cl) (with_state (BlockedCall a))).
  Qed.

Lemma evolves_ipc_reply tid fp a0 a1 a2 a3 a4 a5 k c k' :
    ipc_reply tid fp a0 a1 a2 a3 a4 a5 k = Some (c, k') -> evolves k k'.
  Proof.
    unfold ipc_reply. intros E. destruct (get_endpoint_cap _ _ _ _); [|by eapply evolves_return_with].
    destruct (ENDPOINTS k !! _) as [ep|]; [|done]. case_bool_decide; [|by eapply evolves_return_with].
    destruct (active_caller ep) as [cid|].
    - destruct (find_task _ _); [|done]. destruct (write_frame _ _ _) as [k1|] eqn:Ew; [|done].
      apply evolves_write_frame in Ew. apply evolves_return_with in E. etrans; [|exact E].
      etrans; [|by eapply (evolves_update (has_id cid) (with_state Ready) k1)].
      etrans; [|exact Ew]. by apply evolves_eq.
    - apply evolves_return_with in E. etrans; [|exact E]. by apply evolves_eq.
  Qed.

Lemma evolves_wait tid fp fl k c k' : sys_wait tid fp fl k = Some (c, k') -> evolves k k'.
  Proof.
    unfold sys_wait. intros E. destruct (zombie_child _ _) as [z|].
    - destruct (reap_zombie z k) as [[r k1]|] eqn:Er; [|done].
      etrans; [by eapply evolves_reap_zombie|by eapply evolves_return_with].
    - repeat case_match; first [by eapply evolves_return_with | by eapply evolves_park].
  Qed.

Lemma evolves_input tid fp a0 a1 a2 k c k' : fits 64 a0 -> sys_input_read tid fp a0 a1 a2 k = Some (c, k') -> evolves k k'.
  Proof.
    unfold sys_input_read, try_read, request_read. intros Ha0 E.
    destruct (find_task tid k) as [t|] eqn:Hf; [|by eapply evolves_return_with].
    assert (Hret : forall f k1, TASKS k1 = TASKS k -> still k k1 -> return_with fp f k1 = Some (c, k') -> evolves k k').
    { intros f k1 Ek Ed Er. apply evolves_return_with in Er. etrans; [by apply evolves_eq|exact Er]. }
    destruct (negb (Z.land a2 INPUT_NOHANG =? 0)); [repeat case_match; simplify_eq; by eapply Hret; [| |exact E]|].
    destruct (_ || _) eqn:Eb; [by eapply Hret; [| |exact E]|].
    destruct (translate _ _ _); [|by eapply Hret; [| |exact E]].
    destruct (QUEUE k) eqn:EQ; [|destruct (fill _ _ _ _ _ _) as [[n q] m]; by eapply Hret; [| |exact E]].
    apply evolves_park in E. etrans; [|exact E]. split; [intros u Hu; by exists u|]. split; [done|]. split; [done|].
    cbn. intros w [Hw|Hw%list_elem_of_singleton]%elem_of_app; [by left|]. right. subst w. bool_facts.
    split; [exists t; apply find_task_id in Hf as [? ?]; done|]. cbn. apply user_range_spec; assumption.
  Qed.

  (** A block request changes the disk only inside the window of a
      capability with the write right. *)
Definition window_write (t : Task) (d d' : D) : Prop :=
    exists disk start lbas rights lba count data,
      holds t (Block disk start lbas rights) /\ Z.land rights R_WRITE = R_WRITE /\
      start <= lba /\ lba + count <= start + lbas /\ 1 <= count <= MAX_BLOCK_SECTORS /\
      snd (write_sectors disk lba count data d) = d'.

Lemma block_io_effect fp tid t a0 a1 a2 a3 w k c k' :
    find_task tid k = Some t -> fits 64 a1 -> block_io fp tid a0 a1 a2 a3 w k = Some (c, k') ->
    evolves k k' \/ evolves_tasks k k' /\ parks k k' /\ window_write t (DISK k) (DISK k').
  Proof.
    intros Hf Ha1 E. unfold block_io in E. set (count := wrap 16 a2) in *.
    assert (Hret : forall f d1, return_with fp f (set_DISK d1 k) = Some (c, k') ->
              evolves_tasks k k' /\ parks k k' /\ DISK k' = d1).
    { intros f d1 Er. by apply evolves_return_with in Er as (? & ? & ?). }
    destruct (_ || _) eqn:Ecount; [left; by eapply evolves_return_with|]. bool_facts.
    assert (Hc : 0 <= count) by apply (wrap_fits 16 a2 ltac:(lia)).
    destruct (locate_block tid a0 k) as [[disk base]|] eqn:El; [|left; by eapply evolves_return_with].
    destruct (check_block_cap _ _ _ _ _ _ _) as [u|] eqn:Ec; [|left; by eapply evolves_return_with].
    destruct (checked_add64 base a1) as [lba|] eqn:Ea; [|left; by eapply evolves_return_with].
    unfold locate_block in El. unfold check_block_cap in Ec. rewrite Hf in El, Ec.
    destruct (t_caps t !! Z.to_nat a0) as [[[| |d s n r]|]|] eqn:Es; try done. injection El as -> ->.
    apply checked_add64_Some in Ea as [-> _]. destruct w.
    - case_match; [left; by eapply evolves_return_with|].
      destruct (copy_from_user (CR3 k) _ _ _) as [data|]; [|left; by eapply evolves_return_with].
      destruct (write_sectors disk (base + a1) count data (DISK k)) as [ok d'] eqn:Ew.
      right. destruct (Hret _ d' E) as (Ht' & Hp' & ->). split; [done|]. split; [done|].
      destruct (checked_add64 a1 count) as [e|] eqn:Ee; [|done]. apply checked_add64_Some in Ee as [-> _].
      destruct (negb _) eqn:Eb in Ec; [done|]. destruct (negb _) eqn:Eb2 in Ec; [done|]. bool_facts.
      exists disk, base, n, r, (base + a1), count, data. unfold fits in Ha1.
      split; [by eapply list_elem_of_lookup_2|]. repeat split; try done; try lia. by rewrite Ew.
    - left. destruct (read_sectors _ _ _ _); [|by eapply evolves_return_with].
      destruct (copy_to_user _ _ _ _) as [ok m].
      apply evolves_return_with in E. etrans; [|exact E]. by apply evolves_eq.
  Qed.
End evolves.

(** ** Derivation and spawn *)

Lemma grantable_Ok t slot mask src nr :
  grantable t slot mask = Ok (src, nr) ->
  holds t src /\ Z.land (cap_rights src) R_GRANT <> 0 /\ nr = Z.land (cap_rights src) mask /\ nr <> 0.
Proof.
  unfold grantable. intros E. destruct (t_caps t !! Z.to_nat slot) as [[c|]|] eqn:El; try done.
  repeat case_match; simplify_eq. bool_facts. split; [by eapply list_elem_of_lookup_2|done].
Qed.

Lemma derived_cap_attenuates src mask lo len c :
  derived_cap src (Z.land (cap_rights src) mask) lo len = Ok c -> attenuates c src.
Proof.
  unfold derived_cap. destruct src as [e r|b p r|d s n r]; intros E.
  - case_match; [done|]. injection E as <-. apply (with_rights_attenuates (Endpoint e r) mask).
  - case_match; [done|]. injection E as <-. apply (with_rights_attenuates (Memory b p r) mask).
  - destruct (checked_add64 lo len) as [hi|]; [|done]. case_match; [done|]. injection E as <-. bool_facts.
    constructor; [apply land_subset_l|lia|]. unfold saturating_add64. lia.
Qed.

Section authority.
  Context {S D : Type} `{MemOps S} `{DiskOps D} `{Uninit}.
  Implicit Types k : Kernel S D.

  (** Where the capabilities of a task may come from over one event. *)
Definition authority k k' : Prop :=
    forall t', t' ∈ TASKS k' ->
      (exists t, t ∈ TASKS k /\ t_id t = t_id t' /\ caps_within t' t) \/
      (exists p, p ∈ TASKS k /\ CURRENT k = Some (t_id p) /\ t_parent t' = Some (t_id p) /\
         forall c, holds t' c ->
           exists d, holds p d /\ Z.land (cap_rights d) R_GRANT <> 0 /\ attenuates c d).

  (** The disks change only through a window the current task holds. *)
Definition disk_effect k k' : Prop :=
    DISK k' = DISK k \/
    exists p, p ∈ TASKS k /\ CURRENT k = Some (t_id p) /\ window_write p (DISK k) (DISK k').

  (** Task ids are never handed out twice, a task keeps its address space, and
      every new parked reader is a task of the table. *)
Record readers k k' : Prop := {
  rd_next : NEXT_TID k <= NEXT_TID k';
  rd_tasks : forall t', t' ∈ TASKS k' ->
    (exists t, t ∈ TASKS k /\ t_id t = t_id t' /\ t_cr3 t = t_cr3 t') \/ NEXT_TID k <= t_id t';
  rd_waiters : forall w, w ∈ WAITERS k' -> w ∈ WAITERS k \/ own_reader k w;
}.

Definition effect k k' : Prop := authority k k' /\ disk_effect k k' /\ readers k k'.

Lemma evolves_tasks_readers k k' : evolves_tasks k k' -> parks k k' -> readers k k'.
  Proof.
    intros He [En Hw]. split; [lia| |exact Hw]. intros t' Ht'. left. destruct (He _ Ht') as (t & Ht & Hid & _ & Hc). eauto.
  Qed.

Lemma evolves_tasks_authority k k' : evolves_tasks k k' -> authority k k'.
  Proof.
    intros He t' Ht'. left. destruct (He _ Ht') as (t & Ht & Hid & Hc & _). exists t. split; [done|]. split; [done|].
    intros c. unfold holds. rewrite Hc. intros Hh. exists c. split; [done|reflexivity].
  Qed.

Lemma evolves_effect k k' : evolves k k' -> effect k k'.
  Proof. intros (He & Hd & Hp). split; [by apply evolves_tasks_authority|]. split; [by left|by apply evolves_tasks_readers]. Qed.

Lemma effect_from k1 k2 k3 :
    TASKS k2 = TASKS k1 -> CURRENT k2 = CURRENT k1 -> still k1 k2 -> effect k2 k3 -> effect k1 k3.
  Proof.
    unfold effect, authority, disk_effect. intros ET -> (-> & EN & EW) (Ha & Hd & [Hn Ht Hw]). rewrite ET in *.
    split; [exact Ha|]. split; [exact Hd|]. split; rewrite <- ?EN; [done..|]. unfold own_reader in *. by rewrite <- EW, <- ET.
  Qed.

Lemma effect_return k1 k2 k3 c f a :
    effect k1 k2 -> return_with a f k2 = Some (c, k3) -> effect k1 k3.
  Proof.
    intros (Ha & Hd & [? ? ?]) E. unfold return_with, write_frame in E. case_match; [|done].
    destruct (FRAMES k2 !! a); [|done]. simplify_eq. split; [exact Ha|]. split; [exact Hd|by split].
  Qed.

Lemma effect_cap_derive fp tid a0 a1 a2 a3 k c k' :
    sys_cap_derive fp tid a0 a1 a2 a3 k = Some (c, k') -> effect k k'.
  Proof.
    unfold sys_cap_derive. intros E.
    destruct (find_task tid k) as [t|] eqn:Hf; [|by apply evolves_effect; eapply evolves_return_with].
    destruct (cap_derive t a0 a1 a2 a3) as [[slot d]|e] eqn:Ed; [|by apply evolves_effect; eapply evolves_return_with].
    eapply effect_return; [|exact E]. split.
    2:{ split; [by left|]. split; [done| |by left]. cbn. intros t' Ht'. left.
        apply elem_of_upd_task in Ht' as [Ht'|(u & Hu & ->)]; [by exists t'|].
        exists u. by apply find_task_id in Hu as [_ ?]. }
    intros t' Ht'. left.
    apply elem_of_upd_task in Ht' as [Ht'|(u & Hu & ->)]; [by exists t'|].
    assert (u = t) as -> by congruence. exists t. apply find_task_id in Hf as [_ Hin]. split; [done|]. split; [done|].
    unfold cap_derive in Ed. destruct (grantable t a0 a1) as [[src nr]|] eqn:Eg; [|done].
    destruct (derived_cap src nr a2 a3) as [d'|] eqn:Edd; [|done]. destruct (free_cap_slot _); [|done].
    injection Ed as -> ->. apply grantable_Ok in Eg as (Hsrc & _ & -> & _). apply derived_cap_attenuates in Edd.
    intros x Hx. unfold holds in Hx. simpl in Hx. apply list_elem_of_lookup in Hx as [j Hj].
    apply list_lookup_insert_Some in Hj as [(_ & [= ->] & _)|[_ Hj]]; [by exists src|].
    exists x. split; [by eapply list_elem_of_lookup_2|reflexivity].
  Qed.

Lemma spawn_user_tasks elf name caps parent k r k' :
    spawn_user elf name caps parent k = Some (r, k') ->
    DISK k' = DISK k /\ WAITERS k' = WAITERS k /\
    (TASKS k' = TASKS k /\ NEXT_TID k' = NEXT_TID k \/
     NEXT_TID k' = add64 (NEXT_TID k) 1 /\
     exists t, TASKS k' = TASKS k ++ [t] /\ t_id t = NEXT_TID k /\ t_caps t = install_caps caps /\ t_parent t = parent).
  Proof.
    unfold spawn_user, alloc_kstack. intros E.
    repeat (case_match; try done; simplify_eq); (split; [done|]); (split; [done|]); auto; right; split; try done; by eexists.
  Qed.

Lemma derive_all_authority tid t pairs k : forall cs,
    find_task tid k = Some t -> derive_all tid pairs k = Ok cs ->
    forall c, c ∈ cs -> exists d, holds t d /\ Z.land (cap_rights d) R_GRANT <> 0 /\ attenuates c d.
  Proof.
    induction pairs as [|p pairs IH]; intros cs Hf; cbn [derive_all].
    - intros [= <-] c Hc. by apply not_elem_of_nil in Hc.
    - destruct (derive_for_child _ _ _ _) as [c|] eqn:Ed; [|done]. destruct (derive_all tid pairs k) as [cs'|]; [|done].
      intros [= <-] x [->|Hx]%elem_of_cons; [|by eapply IH].
      unfold derive_for_child in Ed. rewrite Hf in Ed. destruct (grantable t _ _) as [[src nr]|] eqn:Eg; [|done].
      injection Ed as <-. apply grantable_Ok in Eg as (Hs & Hg & -> & _). exists src. split; [done|]. split; [done|].
      apply with_rights_attenuates.
  Qed.

Lemma effect_spawn fp tid t a0 a1 a2 a3 k c k' :
    CURRENT k = Some tid -> find_task tid k = Some t -> 0 <= NEXT_TID k < 2 ^ 64 - 1 ->
    sys_task_spawn fp tid a0 a1 a2 a3 k = Some (c, k') -> effect k k'.
  Proof.
    intros Hcur Hf Hn. unfold sys_task_spawn. intros E.
    do 2 (case_match; [by apply evolves_effect; eapply evolves_return_with|]).
    destruct (copy_from_user (CR3 k) a0 a1 (MEM k)) as [elf|]; [|by apply evolves_effect; eapply evolves_return_with].
    destruct (if 0 <? a3 then _ else _) as [spec|]; [|by apply evolves_effect; eapply evolves_return_with].
    destruct (derive_all tid (chunks 16 spec) k) as [cs|] eqn:Ed; [|by apply evolves_effect; eapply evolves_return_with].
    destruct (spawn_user elf _ cs (Some tid) k) as [[r k1]|] eqn:Es; [|done].
    assert (Ha : effect k k1).
    { apply spawn_user_tasks in Es as (Ed1 & Ew & [[Es En]|(En & t' & Es & Hid' & Hc & Hp)]); [by apply evolves_effect, evolves_eq|].
      split.
      2:{ split; [by left|]. split; [rewrite En; unfold add64; rewrite wrap_small by (unfold fits; lia); lia| |rewrite Ew; auto]. intros u. rewrite Es, elem_of_app, list_elem_of_singleton.
          intros [Hu| ->]; [left; by exists u|right; lia]. }
      intros u. rewrite Es, elem_of_app, list_elem_of_singleton. intros [Hu| ->]; [left; by exists u|].
      right. pose proof Hf as Hf'. apply find_task_id in Hf' as [Hid Hin]. exists t. rewrite Hid.
      do 3 (split; [done|]). intros x Hx. unfold holds in Hx. rewrite Hc in Hx. apply elem_of_install_caps in Hx.
      by eapply derive_all_authority. }
    destruct r; by eapply effect_return.
  Qed.

Lemma effect_block fp tid t a0 a1 a2 a3 w k c k' :
    CURRENT k = Some tid -> find_task tid k = Some t -> fits 64 a1 ->
    block_io fp tid a0 a1 a2 a3 w k = Some (c, k') -> effect k k'.
  Proof.
    intros Hcur Hf Ha1 E. destruct (block_io_effect _ _ _ _ _ _ _ _ _ _ _ Hf Ha1 E) as [He|(He & Hp & Hw)];
      [by apply evolves_effect|]. split; [by apply evolves_tasks_authority|]. split; [|by apply evolves_tasks_readers].
    right. exists t. apply find_task_id in Hf as [-> ?]. done.
  Qed.

Lemma effect_dispatch fp f k tid t c k' :
    CURRENT k = Some tid -> find_task tid k = Some t -> FRAMES k !! fp = Some f -> regs_ok f ->
    0 <= NEXT_TID k < 2 ^ 64 - 1 -> dispatch fp k = Some (c, k') -> effect k k'.
  Proof.
    intros Hcur Hf Hfr Hr Hn. unfold dispatch. rewrite Hfr, Hcur. intros E.
    unfold regs_ok in Hr. repeat (apply Forall_cons in Hr as [? Hr]).
    repeat match type of E with (if ?b then _ else _) = _ => destruct b end;
      try (by eapply effect_cap_derive); try (by eapply effect_spawn);
      try (eapply effect_block; [exact Hcur|exact Hf| |exact E]; assumption);
      apply evolves_effect;
      try first [ by eapply evolves_ipc_call | by eapply evolves_ipc_recv | by eapply evolves_ipc_reply
            | by eapply evolves_wait | eapply evolves_input; [|exact E]; assumption | by eapply evolves_return_with ].
    - unfold yield_task, pick_next in E. destruct (pick_loop _ _ _ _) as [[n q]|].
      + destruct_in E as k1 Eu. apply evolves_upd in Eu; [|by split]. apply evolves_resume in E.
        etrans; [|exact E]. transitivity k1; [|by apply evolves_eq]. etrans; [|exact Eu]. by apply evolves_eq.
      + injection E as _ <-. by apply evolves_eq.
    - unfold exit_task in E. destruct_in E as k1 Et. etrans; [by eapply evolves_terminate|by eapply evolves_switch_away].
    - unfold sys_debug_write in E. repeat case_match; try (by eapply evolves_return_with);
        (apply evolves_return_with in E; etrans; [|exact E]; by apply evolves_eq).
    - unfold sys_set_name in E. case_match; [|by eapply evolves_return_with].
      apply evolves_return_with in E. etrans; [|exact E]. eapply (evolves_update (has_id tid)); [|done|done]. by split.
    - unfold sys_stats in E. repeat case_match; try (by eapply evolves_return_with);
        (apply evolves_return_with in E; etrans; [|exact E]; by apply evolves_eq).
    - injection E as _ <-. done.
    - unfold sys_sleep in E. case_match; [by eapply evolves_return_with|by eapply evolves_park].
    - unfold sys_kill in E. repeat (case_match; [by eapply evolves_return_with|]). destruct_in E as k1 Et.
      etrans; [by eapply evolves_terminate|by eapply evolves_return_with].
  Qed.
End authority.

Section authority_step.
  Context {S D : Type} `{ML : MemLaws S} `{DiskOps D} `{Uninit}.

Lemma machine_step_effect kc (k : Kernel S D) ev c k' :
    kinv kc k -> allowed ev k -> machine_step ev k = Some (c, k') -> effect k k'.
  Proof.
    intros Hk Hal E. destruct ev as [f|f|v f|sc]; unfold machine_step in E.
    - destruct Hal as ([tid Hcur] & Hr & Hslot). unfold do_handle_trap in E. cbv zeta in E.
      destruct (drain_reaper_ok kc _ (push_frame_ok kc f k Hk)) as (m & fr & Ed & _ & Hfr). rewrite Ed in E.
      change (VECTOR_SYSCALL =? VECTOR_TIMER) with false in E.
      change (VECTOR_SYSCALL =? VECTOR_SYSCALL) with true in E. cbv iota in E.
      destruct (current_task kc k tid Hk Hcur) as (t & Ht).
      set (k1 := set_MEM m (set_FRAMES fr (set_REAP_QUEUE [] (push_frame f k)))) in *.
      apply (effect_from _ k1); [done..|]. apply (effect_dispatch _ f k1 tid t c k' Hcur Ht) in E; [exact E| |exact Hr|].
      2:{ pose proof (kt_next _ _ _ (inv_tasks _ _ Hk)). change (NEXT_TID k1) with (NEXT_TID k). lia. }
      simpl. rewrite (cur_fp kc k tid t), (Hfr t) by (done || by apply find_task_id in Ht as [_ ?]).
      unfold push_frame. simpl. by rewrite (cur_fp kc k tid t), lookup_insert_eq by done.
    - unfold do_handle_trap in E. destruct_in E as k1 Ed. apply reclaim_all_tasks in Ed as [HT HD]. simpl in HT.
      change (VECTOR_TIMER =? VECTOR_TIMER) with true in E. cbv iota in E. destruct_in E as k2 Ew.
      apply evolves_effect. etrans; [|by eapply evolves_preempt]. apply evolves_wake in Ew.
      etrans; [|exact Ew]. by apply evolves_eq.
    - unfold handle_user_fault in E. apply evolves_effect. case_match; [|done].
      case_match; [injection E as _ <-; by apply evolves_eq|].
      case_match; [|injection E as _ <-; by apply evolves_eq]. unfold exit_task in E. destruct_in E as k1 Et.
      etrans; [|by eapply evolves_switch_away]. apply evolves_terminate in Et. etrans; [|exact Et]. by apply evolves_eq.
    - destruct_in E as k1 Ek. injection E as _ <-. by apply evolves_effect; eapply evolves_key.
  Qed.

  (** Parked readers stay as [readers_ok] describes them, whatever happens to
      their tasks. *)
Lemma readers_ok_step kc (k k' : Kernel S D) : kinv kc k -> readers k k' -> readers_ok k -> readers_ok k'.
  Proof.
    intros Hk [Hn Ht Hw] Hr. pose proof (inv_tasks _ _ Hk) as [Hnd Hids _ _ _ _ _ _ _].
    assert (Hold : forall w, w_tid w < NEXT_TID k -> (forall t, t ∈ TASKS k -> t_id t = w_tid w -> t_cr3 t = w_cr3 w) ->
              forall t', t' ∈ TASKS k' -> t_id t' = w_tid w -> t_cr3 t' = w_cr3 w).
    { intros w Hlt Hown t' Ht' Hid. destruct (Ht t' Ht') as [(t & Hin & Hi & <-)|Hnew]; [|lia]. apply Hown; congruence. }
    apply Forall_forall. intros w Hin. destruct (Hw w Hin) as [Hin0|[(t & Hint & Hi & Hc) [Hb He]]].
    - pose proof (proj1 (Forall_forall _ _) Hr w Hin0) as [Hb He Hlt Hown]. split; [done|done|lia|by apply Hold].
    - pose proof (Hids t Hint). split; [done|done|lia|]. apply Hold; [lia|]. intros u Hu Hui.
      apply find_task_elem in Hu, Hint; [|done..]. congruence.
  Qed.

Lemma machine_step_readers kc (k : Kernel S D) ev c k' :
    kinv kc k -> readers_ok k -> allowed ev k -> machine_step ev k = Some (c, k') -> readers_ok k'.
  Proof. intros Hk Hr Hal E. destruct (machine_step_effect kc k ev c k' Hk Hal E) as (_ & _ & He). by eapply readers_ok_step. Qed.
End authority_step.
