(* ===== verification/Reachable.v ===== *)
(** * Runs of the kernel

    The machine as a transition system: boot (main.rs [kernel_main]), then any
    sequence of system calls, timer ticks, user faults and key strokes.  The
    theorems here are the end-to-end guarantees: the kernel never panics and
    keeps its invariant, capabilities in the system never exceed those handed
    out at boot, and the disks change only inside the boot window. *)

From stdpp Require Import relations.
From S2P Require Import Prelude RustStd Frame Caps Kernel Sched TaskOps Input Syscall ElfSafety MemLaws KernelInv KernelMem KernelSpawn KernelExit KernelIpc KernelSafety SimpleMem Boot CapSafety.

(** The parameters of a boot: the embedded images, the persistent volume and
    the segment selectors. *)
Record BootImage := { bi_console : list Z; bi_initfs : list Z; bi_disk1 : option Z; bi_code : Z; bi_data : Z }.

Definition boot_caps (b : BootImage) : list Cap := console_caps 0 5 ++ initfs_caps 0 1 2 3 4 5 (bi_disk1 b).

Section runs.
  Context {S D : Type} `{ML : MemLaws S} `{DiskOps D} `{Uninit}.
  Implicit Types k : Kernel S D.

(** One event the kernel handles and returns from. *)
Inductive mstep : Kernel S D -> Kernel S D -> Prop :=
| mstep_event ev c k k' : allowed ev k -> machine_step ev k = Some (c, k') -> c <> Reboot -> mstep k k'.

Definition boots (kc : Z) (b : BootImage) (m : S) (d : D) k : Prop :=
  mem_ok kc ∅ ∅ ∅ m /\ image_ok (bi_console b) /\ image_ok (bi_initfs b) /\
  exists c, kernel_main (bi_console b) (bi_initfs b) (bi_disk1 b)
              (boot_statics (bi_code b) (bi_data b) kc m d) = Some (Some (c, k)).

Definition reachable (kc : Z) (b : BootImage) (m : S) (d : D) k : Prop :=
  exists k0, boots kc b m d k0 /\ rtc mstep k0 k.

(** ** The invariant along a run *)

Lemma kickoff_not_reboot k c k' : kickoff k = Some (c, k') -> c <> Reboot.
Proof.
  unfold kickoff, resume. intros E. repeat case_match; simplify_eq; try done;
    unfold park_idle in *; simplify_eq; done.
Qed.

Lemma kernel_main_control kc uc ud (m : S) (d : D) e1 e2 d1 c k :
  kernel_main e1 e2 d1 (boot_statics uc ud kc m d) = Some (Some (c, k)) -> c <> Reboot.
Proof.
  rewrite kernel_main_unfold. intros E.
  destruct (spawn_user e1 _ _ _ _) as [[[|] k1]|]; try done.
  destruct (spawn_user e2 _ _ _ _) as [[[|] k2]|]; try done.
  destruct (kickoff k2) as [[c' k3]|] eqn:Ek; [|done]. injection E as <- <-. by eapply kickoff_not_reboot.
Qed.

Lemma boots_kinv kc b m d k : boots kc b m d k -> kinv kc k.
Proof.
  intros (Hm & Hi1 & Hi2 & c & E).
  destruct (kernel_main_ok kc (bi_code b) (bi_data b) m d (bi_console b) (bi_initfs b) (bi_disk1 b) Hm Hi1 Hi2)
    as (r & E' & Hr). rewrite E in E'. injection E' as <-.
  destruct (Hr c k eq_refl) as [->|[? _]]; [|done]. by apply kernel_main_control in E.
Qed.

(** What holds between two events: the kernel invariant, and what is known of
    the parked readers. *)
Record kernel_ok (kc : Z) k : Prop := { ok_inv : kinv kc k; ok_readers : readers_ok k }.

Lemma step_kernel_ok kc k ev : kernel_ok kc k -> allowed ev k ->
  exists c k', machine_step ev k = Some (c, k') /\ (c = Reboot \/ kernel_ok kc k' /\ ctrl_ok c k').
Proof.
  intros [Hk Hr] Hal. destruct (machine_step_ok kc k ev Hk Hr Hal) as (c & k' & E & Hg). exists c, k'. split; [done|].
  destruct Hg as [?|[Hk' Hc]]; [by left|right]. split; [|done]. split; [done|]. exact (machine_step_readers kc k ev c k' Hk Hr Hal E).
Qed.

Lemma spawn_user_waiters elf name caps parent k r k' : spawn_user elf name caps parent k = Some (r, k') -> WAITERS k' = WAITERS k.
Proof. by intros (_ & ? & _)%spawn_user_tasks. Qed.

Lemma kickoff_waiters k c k' : kickoff k = Some (c, k') -> WAITERS k' = WAITERS k.
Proof.
  unfold kickoff, pick_next. destruct (pick_loop _ _ _ _) as [[n q]|].
  - unfold resume. intros E. case_match; [|done]. by injection E as _ <-.
  - unfold park_idle, activate_kernel_space. intros E. injection E as _ <-. by repeat case_match.
Qed.

Lemma boots_waiters kc b m d k : boots kc b m d k -> WAITERS k = [].
Proof.
  intros (_ & _ & _ & c & E). rewrite kernel_main_unfold in E.
  destruct (spawn_user (bi_console b) _ _ _ _) as [[[t1|] k1]|] eqn:E1; try done.
  destruct (spawn_user (bi_initfs b) _ _ _ _) as [[[t2|] k2]|] eqn:E2; try done.
  destruct (kickoff k2) as [[c' k3]|] eqn:Ek; [|done]. injection E as _ <-.
  apply kickoff_waiters in Ek. apply spawn_user_waiters in E1, E2. by rewrite Ek, E2, E1.
Qed.

Lemma boots_ok kc b m d k : boots kc b m d k -> kernel_ok kc k.
Proof.
  intros Hb. split; [by eapply boots_kinv|]. unfold readers_ok. rewrite (boots_waiters _ _ _ _ _ Hb). constructor.
Qed.

Lemma mstep_ok kc k k' : mstep k k' -> kernel_ok kc k -> kernel_ok kc k'.
Proof.
  intros [ev c ? ? Hal E Hc] Hk. destruct (step_kernel_ok kc _ ev Hk Hal) as (c' & k1 & E' & [Hr|[? _]]); by simplify_eq.
Qed.

Lemma reachable_ind_inv kc b m d (P : Kernel S D -> Prop) :
  (forall k, boots kc b m d k -> P k) ->
  (forall k k', kernel_ok kc k -> P k -> mstep k k' -> P k') ->
  forall k, reachable kc b m d k -> P k.
Proof.
  intros Hb Hs k (k0 & Hb0 & Hr). pose proof (boots_ok _ _ _ _ _ Hb0) as Hk. apply Hb in Hb0.
  induction Hr as [|k1 k2 k3 Hst _ IH]; [done|]. apply IH; [by eapply Hs|by eapply mstep_ok].
Qed.

Lemma reachable_ok kc b m d k : reachable kc b m d k -> kernel_ok kc k.
Proof. apply (reachable_ind_inv kc b m d (kernel_ok kc)); [apply boots_ok|]. intros k1 k2 Hk _ Hs. by eapply mstep_ok. Qed.

Lemma reachable_kinv kc b m d k : reachable kc b m d k -> kinv kc k.
Proof. intros Hr. by apply reachable_ok, ok_inv in Hr. Qed.

(** ** Authority along a run *)

(** Every capability in the system attenuates a boot capability. *)
Definition rooted (b : BootImage) k : Prop :=
  forall t c, t ∈ TASKS k -> holds t c -> exists d, d ∈ boot_caps b /\ attenuates c d.

Lemma rooted_authority b k k' : authority k k' -> rooted b k -> rooted b k'.
Proof.
  intros Ha Hr t' c Ht' Hc. destruct (Ha t' Ht') as [(t & Ht & _ & Hw)|(p & Hp & _ & _ & Hw)].
  - destruct (Hw c Hc) as (d & Hd & Hcd). destruct (Hr t d Ht Hd) as (e & He & Hde). exists e. split; [done|]. by etrans.
  - destruct (Hw c Hc) as (d & Hd & _ & Hcd). destruct (Hr p d Hp Hd) as (e & He & Hde). exists e. split; [done|]. by etrans.
Qed.

Lemma rooted_spawn b elf name caps parent k r k' :
  (forall c, c ∈ caps -> c ∈ boot_caps b) -> spawn_user elf name caps parent k = Some (r, k') -> rooted b k -> rooted b k'.
Proof.
  intros Hc E Hr. apply spawn_user_tasks in E as (_ & _ & [[E _]|(_ & t & E & _ & Ht & _)]); intros u c; rewrite E.
  - apply Hr.
  - rewrite elem_of_app, list_elem_of_singleton. intros [Hu| ->]; [by apply Hr|].
    unfold holds. rewrite Ht. intros Hx%elem_of_install_caps. exists c. split; [by apply Hc|reflexivity].
Qed.

Lemma evolves_kickoff k c k' : CURRENT k = None -> kickoff k = Some (c, k') -> evolves k k'.
Proof.
  intros Hc E. apply (evolves_switch_away k c k'). rewrite <- E. unfold switch_away, kickoff.
  replace (set_CURRENT None k) with k; [done|]. destruct k. simpl in *. by subst.
Qed.

Lemma spawn_user_current elf name caps parent k r k' :
  spawn_user elf name caps parent k = Some (r, k') -> CURRENT k' = CURRENT k.
Proof. unfold spawn_user, alloc_kstack. intros E. by repeat (case_match; try done; simplify_eq). Qed.

Lemma boots_rooted kc b m d k : boots kc b m d k -> rooted b k.
Proof.
  intros (_ & _ & _ & c & E). rewrite kernel_main_unfold in E.
  set (k0 := boot_endpoints _) in E.
  assert (H0' : rooted b k0) by (intros t x Ht; by apply not_elem_of_nil in Ht).
  destruct (spawn_user (bi_console b) _ _ _ _) as [[[t1|] k1]|] eqn:E1; try done.
  destruct (spawn_user (bi_initfs b) _ _ _ _) as [[[t2|] k2]|] eqn:E2; try done.
  destruct (kickoff k2) as [[c' k3]|] eqn:Ek; [|done]. injection E as _ <-.
  assert (Hc2 : CURRENT k2 = None).
  { apply spawn_user_current in E1, E2. by rewrite E2, E1. }
  apply (evolves_kickoff _ _ _ Hc2) in Ek as [Ek _]. apply evolves_tasks_authority in Ek.
  eapply rooted_authority; [exact Ek|]. eapply rooted_spawn; [|exact E2|]; [unfold boot_caps; set_solver|].
  eapply rooted_spawn; [|exact E1|done]. unfold boot_caps. set_solver.
Qed.

Lemma reachable_rooted kc b m d k : reachable kc b m d k -> rooted b k.
Proof.
  apply (reachable_ind_inv kc b m d (rooted b)); [apply boots_rooted|].
  intros k1 k2 [Hk _] Hr Hst. inversion Hst as [ev c ? ? Hal E _]; subst. destruct (machine_step_effect kc _ _ _ _ Hk Hal E) as [Ha _].
  by eapply rooted_authority.
Qed.

Lemma boot_block_caps b disk s n r c :
  c ∈ boot_caps b -> attenuates (Block disk s n r) c ->
  exists sectors, bi_disk1 b = Some sectors /\ disk = 1 /\ 0 <= s /\ s + n <= sectors.
Proof.
  intros Hin Ha. unfold boot_caps, console_caps, initfs_caps in Hin.
  repeat (rewrite elem_of_app in Hin || rewrite elem_of_cons in Hin || rewrite elem_of_nil in Hin).
  destruct_or! Hin; subst; try by inversion Ha.
  destruct (bi_disk1 b) as [sec|]; [|by apply not_elem_of_nil in Hin].
  apply list_elem_of_singleton in Hin as ->. inversion Ha; subst. exists sec. repeat split; lia.
Qed.
End runs.

(** ** A concrete machine

    A 152-byte executable (one loadable segment mapping the file at 0x1000,
    with a spawn specification in its last 32 bytes), the simple memory manager
    and a RAM disk: enough to evaluate boots and runs. *)

Definition demo_elf : list Z :=
  ELF_MAGIC ++ [2; 1; 1] ++ replicate 9 0 ++
  to_le_bytes 2 2 ++ to_le_bytes 2 0x3e ++ to_le_bytes 4 1 ++
  to_le_bytes 8 0x1040 ++ to_le_bytes 8 0x40 ++ to_le_bytes 8 0 ++
  to_le_bytes 4 0 ++ to_le_bytes 2 64 ++ to_le_bytes 2 56 ++ to_le_bytes 2 1 ++ to_le_bytes 6 0 ++
  to_le_bytes 4 1 ++ to_le_bytes 4 5 ++ to_le_bytes 8 0 ++ to_le_bytes 8 0x1000 ++ to_le_bytes 8 0x1000 ++
  to_le_bytes 8 152 ++ to_le_bytes 8 152 ++ to_le_bytes 8 1 ++
  to_le_bytes 8 1 ++ to_le_bytes 8 7 ++ to_le_bytes 8 0 ++ to_le_bytes 8 7.

Lemma demo_elf_ok : image_ok demo_elf.
Proof. split; [|vm_compute; reflexivity]. by apply (bool_decide_unpack (Forall is_byte demo_elf)); vm_compute. Qed.

Definition demo_boot : BootImage :=
  {| bi_console := demo_elf; bi_initfs := demo_elf; bi_disk1 := Some 100; bi_code := 0x10; bi_data := 0x18 |}.

(** The state the demo boot leaves, computed. *)
Definition demo_kernel : Kernel SimpleMem RamDisk :=
  match kernel_main demo_elf demo_elf (Some 100) (boot_statics 0x10 0x18 4096 boot_mem (∅ : RamDisk)) with
  | Some (Some (_, k)) => k
  | _ => boot_statics 0x10 0x18 4096 boot_mem ∅
  end.

Definition demo_control : Control :=
  match kernel_main demo_elf demo_elf (Some 100) (boot_statics 0x10 0x18 4096 boot_mem (∅ : RamDisk)) with
  | Some (Some (c, _)) => c
  | _ => Halt
  end.

Lemma demo_boots : boots 4096 demo_boot boot_mem (∅ : RamDisk) demo_kernel.
Proof.
  split; [apply boot_mem_ok|]. split; [apply demo_elf_ok|]. split; [apply demo_elf_ok|].
  exists demo_control. vm_compute. reflexivity.
Qed.


(** ** Executable runs *)

(** A trap frame of a ring-3 task with the system-call registers given. *)
Definition user_frame (n a0 a1 a2 a3 a4 a5 : Z) : TrapFrame :=
  set_request n a0 a1 a2 a3 a4 a5 (new_user 0x1040 0 0x13 0x1b).

Section exec.
  Context {S D : Type} `{ML : MemLaws S} `{DiskOps D} `{Uninit}.

Definition allowedb (ev : event) (k : Kernel S D) : bool :=
  match ev with
  | ESyscall f => bool_decide (is_Some (CURRENT k)) &&
      forallb (fun r => (0 <=? r) && (r <? 2 ^ 64)) [rax f; rdi f; rsi f; rdx f; r10 f; r8 f; r9 f] &&
      (NEXT_KSTACK_SLOT k + 1 <? 2 ^ 64)
  | ETimer _ => true
  | EFault _ f => bool_decide (is_Some (CURRENT k)) && (Z.land (cs f) 3 =? 3)
  | EKey _ =>
      match WAITERS k with
      | [] => true
      | w :: _ => bool_decide (is_Some (find_task (w_tid w) k)) || bool_decide (w_cr3 w ∈ p_cr3 <$> REAP_QUEUE k)
      end
  end.

Lemma allowedb_sound ev k : allowedb ev k = true -> allowed ev k.
Proof.
  destruct ev as [f|f|v f|sc]; cbn [allowedb allowed]; try done.
  - intros E. apply andb_prop in E as [E Hs]. apply andb_prop in E as [Hc Hr]. apply bool_decide_eq_true in Hc. bool_facts.
    split; [done|]. split; [|done]. unfold regs_ok. apply Forall_forall. intros x Hx.
    rewrite forallb_forall in Hr. apply list_elem_of_In, Hr in Hx. bool_facts. unfold fits. lia.
  - intros E. apply andb_prop in E as [Hc Hr]. apply bool_decide_eq_true in Hc. by bool_facts.
  - intros E w Hw. destruct (WAITERS k) as [|x ws]; [done|]. injection Hw as ->.
    apply orb_prop in E as [E|E]; apply bool_decide_eq_true in E; [by left|by right].
Qed.

(** Run a sequence of events; [None] if one is not allowed, or ends the run. *)
Fixpoint run_events (evs : list event) (k : Kernel S D) : option (Kernel S D) :=
  match evs with
  | [] => Some k
  | ev :: evs =>
      if allowedb ev k then
        match machine_step ev k with
        | Some (Reboot, _) | None => None
        | Some (_, k') => run_events evs k'
        end
      else None
  end.

Lemma run_events_rtc evs : forall k k', run_events evs k = Some k' -> rtc mstep k k'.
Proof.
  induction evs as [|ev evs IH]; intros k k'; cbn [run_events]; [by intros [= <-]|].
  destruct (allowedb ev k) eqn:Ea; [|done]. destruct (machine_step ev k) as [[c k1]|] eqn:Em; [|done].
  intros E. apply (rtc_l _ _ k1); [|destruct c; done || by apply IH].
  apply (mstep_event ev c); [by apply allowedb_sound|done|by destruct c].
Qed.
End exec.

Lemma demo_run_reachable evs k :
  run_events evs demo_kernel = Some k -> reachable 4096 demo_boot boot_mem (∅ : RamDisk) k.
Proof. intros E. exists demo_kernel. split; [apply demo_boots|]. by apply (run_events_rtc evs). Qed.

(** The state after a run of the demo machine ([demo_kernel] if it stops). *)
Definition demo_after (evs : list event) : Kernel SimpleMem RamDisk := default demo_kernel (run_events evs demo_kernel).

Lemma demo_after_reachable evs :
  bool_decide (is_Some (run_events evs demo_kernel)) = true ->
  reachable 4096 demo_boot boot_mem (∅ : RamDisk) (demo_after evs).
Proof.
  intros [k E]%bool_decide_eq_true. apply (demo_run_reachable evs). unfold demo_after. by rewrite E.
Qed.

(** Both boot tasks exit with a code. *)
Definition exit_event (code : Z) : event := ESyscall (user_frame num.EXIT code 0 0 0 0 0).

(** ** The end-to-end theorems *)

Section theorems.
  Context {S D : Type} `{ML : MemLaws S} `{DiskOps D} `{Uninit}.
  Implicit Types k : Kernel S D.


(** Boot is safe for any two embedded images and any disk: it either stops
    at the [expect] on an image that does not load, or hands the CPU to a task
    in a state that satisfies the kernel invariant; it never faults. *)
Theorem boot_safe kc uc ud (m : S) (d : D) console_elf initfs_elf disk1 :
  mem_ok kc ∅ ∅ ∅ m -> image_ok console_elf -> image_ok initfs_elf ->
  exists r, kernel_main console_elf initfs_elf disk1 (boot_statics uc ud kc m d) = Some r /\
    forall c k, r = Some (c, k) -> c <> Reboot /\ kinv kc k /\ ctrl_ok c k.
Proof.
  intros Hm Hi1 Hi2. destruct (kernel_main_ok kc uc ud m d console_elf initfs_elf disk1 Hm Hi1 Hi2) as (r & E & Hr).
  exists r. split; [done|]. intros c k ->. assert (c <> Reboot) by (by eapply kernel_main_control).
  by destruct (Hr c k eq_refl) as [->|].
Qed.

(** C4. Authority never grows: whatever the tasks do, every capability held
    by any task at any time is an attenuation (fewer rights, narrower block
    window) of one of the capabilities handed out at boot. *)
Theorem capabilities_rooted kc b m d k t c :
  reachable kc b m d k -> t ∈ TASKS k -> holds t c -> exists d0, d0 ∈ boot_caps b /\ attenuates c d0.
Proof. intros Hr. by apply (reachable_rooted kc b m d k Hr). Qed.

(** C5. Disk confinement: an event that changes a disk is a write by the
    current task, complete or cut short by an error, to the persistent volume
    (disk 1), through a window the task holds with the write right, and inside
    the volume given at boot; disk 0 is never written. *)
Theorem disk_confined kc b m d k ev c k' :
  reachable kc b m d k -> allowed ev k -> machine_step ev k = Some (c, k') -> DISK k' <> DISK k ->
  exists t start lbas rights lba count data sectors,
    CURRENT k = Some (t_id t) /\ t ∈ TASKS k /\ holds t (Block 1 start lbas rights) /\
    Z.land rights R_WRITE = R_WRITE /\ bi_disk1 b = Some sectors /\
    start <= lba /\ lba + count <= start + lbas /\ 0 <= lba /\ lba + count <= sectors /\
    snd (write_sectors 1 lba count data (DISK k)) = DISK k'.
Proof.
  intros Hr Hal E Hd. pose proof (reachable_kinv _ _ _ _ _ Hr) as Hk.
  destruct (machine_step_effect kc _ _ _ _ Hk Hal E) as (_ & [?|(p & Hp & Hc & Hw)] & _); [done|].
  destruct Hw as (disk & start & lbas & rights & lba & count & data & Hh & Hrw & Hlo & Hhi & Hn & Hwr).
  destruct (reachable_rooted _ _ _ _ _ Hr _ _ Hp Hh) as (d0 & Hd0 & Ha).
  destruct (boot_block_caps _ _ _ _ _ _ Hd0 Ha) as (sec & Hs & -> & Hlo' & Hhi').
  exists p, start, lbas, rights, lba, count, data, sec. repeat split; try done; lia.
Qed.

(** C16. Authority of one event: a task's capabilities after the event come
    from its own table (attenuated), or the task was just created by the
    current task and each of its capabilities attenuates one the creator held
    with the grant right. *)
Theorem authority_confined kc k ev c k' :
  kinv kc k -> allowed ev k -> machine_step ev k = Some (c, k') -> authority k k'.
Proof. intros Hk Hal E. by destruct (machine_step_effect kc _ _ _ _ Hk Hal E). Qed.

(** C15. Nothing leaks: when every task has gone, draining the reaper hands
    back every address space and kernel stack, and leaves the memory manager
    in the condition it had at boot. *)
Theorem teardown_complete kc b m d k :
  reachable kc b m d k -> TASKS k = [] ->
  exists k', drain_reaper k = Some k' /\ mem_ok kc ∅ ∅ ∅ (MEM k') /\ REAP_QUEUE k' = [].
Proof.
  intros Hr Ht. apply reachable_kinv in Hr. destruct (drain_reaper_ok kc k Hr) as (m' & fr & E & Hk & _).
  eexists. split; [exact E|]. split; [|done]. destruct (inv_mem _ _ Hk) as [_ _ _ Hok].
  unfold resources in Hok. simpl in Hok. by rewrite Ht in Hok.
Qed.
End theorems.


Lemma boot_safe_witness :
  exists r, kernel_main demo_elf demo_elf (Some 100) (boot_statics 0x10 0x18 4096 boot_mem (∅ : RamDisk)) = Some r /\
    forall c k, r = Some (c, k) -> c <> Reboot /\ kinv 4096 k /\ ctrl_ok c k.
Proof. apply (boot_safe 4096 0x10 0x18 boot_mem ∅ demo_elf demo_elf (Some 100) boot_mem_ok demo_elf_ok demo_elf_ok). Defined.

(** The state in which the second boot task (initfs) runs. *)
Definition yield_event : event := ESyscall (user_frame num.YIELD 0 0 0 0 0 0).
Definition demo_initfs : Kernel SimpleMem RamDisk := demo_after [yield_event].

Definition running_task (k : Kernel SimpleMem RamDisk) : Task :=
  match CURRENT k with
  | Some tid => default (mkTask 0 [] Ready 0 0 0 [] None 0 0 0) (find_task tid k)
  | None => mkTask 0 [] Ready 0 0 0 [] None 0 0 0
  end.

Lemma capabilities_rooted_witness :
  exists d0, d0 ∈ boot_caps demo_boot /\ attenuates (Block 1 0 100 (Z.lor (Z.lor R_READ R_WRITE) R_GRANT)) d0.
Proof.
  apply (capabilities_rooted 4096 demo_boot boot_mem ∅ demo_initfs (running_task demo_initfs)).
  - apply demo_after_reachable. vm_compute. reflexivity.
  - apply (list_elem_of_lookup_2 _ 1). vm_compute. reflexivity.
  - apply (list_elem_of_lookup_2 _ 6). vm_compute. reflexivity.
Defined.

Definition write_event : event := ESyscall (user_frame num.BLOCK_WRITE 6 3 1 0x1000 0 0).

Definition state_of_result (r : option (Control * Kernel SimpleMem RamDisk)) : Kernel SimpleMem RamDisk :=
  match r with Some (_, k) => k | None => demo_kernel end.
Definition control_of_result (r : option (Control * Kernel SimpleMem RamDisk)) : Control :=
  match r with Some (c, _) => c | None => Halt end.

Lemma disk_confined_witness :
  exists t start lbas rights lba count data sectors,
    CURRENT demo_initfs = Some (t_id t) /\ t ∈ TASKS demo_initfs /\ holds t (Block 1 start lbas rights) /\
    Z.land rights R_WRITE = R_WRITE /\ bi_disk1 demo_boot = Some sectors /\
    start <= lba /\ lba + count <= start + lbas /\ 0 <= lba /\ lba + count <= sectors /\
    snd (write_sectors 1 lba count data (DISK demo_initfs)) =
      DISK (state_of_result (machine_step write_event demo_initfs)).
Proof.
  apply (disk_confined 4096 demo_boot boot_mem ∅ demo_initfs write_event
           (control_of_result (machine_step write_event demo_initfs))).
  - apply demo_after_reachable. vm_compute. reflexivity.
  - apply allowedb_sound. vm_compute. reflexivity.
  - vm_compute. reflexivity.
  - intros E. apply (f_equal (fun d : RamDisk => bool_decide (d !! (1, 3) = None))) in E. vm_compute in E. discriminate E.
Defined.

Lemma authority_confined_witness :
  authority demo_kernel (state_of_result (machine_step yield_event demo_kernel)).
Proof.
  apply (authority_confined 4096 demo_kernel yield_event
           (control_of_result (machine_step yield_event demo_kernel))).
  - apply (boots_kinv _ _ _ _ _ demo_boots).
  - apply allowedb_sound. vm_compute. reflexivity.
  - vm_compute. reflexivity.
Defined.

Lemma teardown_complete_witness :
  exists k', drain_reaper (demo_after [exit_event 1; exit_event 2]) = Some k' /\
    mem_ok 4096 ∅ ∅ ∅ (MEM k') /\ REAP_QUEUE k' = [].
Proof.
  apply (teardown_complete 4096 demo_boot boot_mem ∅).
  - apply demo_after_reachable. vm_compute. reflexivity.
  - vm_compute. reflexivity.
Defined.
