(* ===== verification/PagedKernel.v ===== *)
(** * The kernel on its own memory manager

    The end-to-end theorems with nothing left abstract below the kernel but
    the entry format of the processor and the disk: boot of the memory
    manager (main.rs, task.rs [idle_stack_top]), safety of every run on page
    tables and frames, isolation of user memory, exact return of frames. *)

From stdpp Require Import relations.
From S2P Require Import Prelude RustStd Frame Caps Kernel Sched TaskOps Input Syscall ElfSafety MemLaws KernelInv KernelMem KernelSpawn KernelExit KernelIpc KernelSafety SimpleMem FrameOwn Paging PagingInv PagingLaws PagingSpaces PagingMem Boot CapSafety Reachable.
Import Paging.

(** ** The processor's entry format satisfies the laws *)

Lemma land_frame_mask a : frame_addr a -> Z.land a x86_addr_mask = a.
Proof.
  intros [Ha Hr]. unfold aligned, PAGE_SIZE in Ha. pose proof (Z.div_mod a 4096) as E. rewrite Ha, Z.add_0_r in E.
  rewrite E by lia. replace (4096 * (a / 4096)) with (Z.shiftl (a / 4096) 12) by (rewrite Z.shiftl_mul_pow2 by lia; lia).
  change x86_addr_mask with (Z.shiftl (Z.ones 40) 12). rewrite <- Z.shiftl_land. f_equal.
  rewrite Z.land_ones by lia. apply Z.mod_small. split; [apply Z.div_pos; lia|]. apply Z.div_lt_upper_bound; lia.
Qed.

Lemma flags_outside_mask fl : Z.land (x86_flags fl) x86_addr_mask = 0 /\ 1 <= x86_flags fl < 2 ^ 63 + 8.
Proof. destruct fl as [[] [] []]; vm_compute; repeat split; discriminate. Qed.

Lemma entry_sum a fl : frame_addr a -> Z.lor a (x86_flags fl) = a + x86_flags fl.
Proof.
  intros Ha. destruct (flags_outside_mask fl) as [Hm _].
  assert (Z.land a (x86_flags fl) = 0).
  { rewrite <- (land_frame_mask a Ha), <- Z.land_assoc, (Z.land_comm x86_addr_mask), Hm. apply Z.land_0_r. }
  pose proof (Z.add_lor_land a (x86_flags fl)). lia.
Qed.

Lemma x86_entry_laws : @PageEntryLaws x86_entry.
Proof.
  split; cbn [pe_set pe_addr pe_is_unused pe_huge x86_entry].
  - intros a fl Ha. destruct (flags_outside_mask fl) as [_ ?], Ha as [? ?]. rewrite entry_sum by done. red. lia.
  - intros a fl Ha. rewrite Z.land_lor_distr_l, land_frame_mask by done.
    destruct (flags_outside_mask fl) as [-> _]. apply Z.lor_0_r.
  - intros a fl Ha. destruct (flags_outside_mask fl) as [_ ?], Ha as [? ?]. rewrite entry_sum by done.
    apply Z.eqb_neq. lia.
  - intros a fl Ha. rewrite Z.lor_spec, <- (land_frame_mask a Ha), Z.land_spec.
    replace (Z.testbit x86_addr_mask 7) with false by done. rewrite andb_false_r.
    destruct fl as [[] [] []]; reflexivity.
  - done.
Qed.

(** ** Boot of the memory manager *)

Section boot.
  Context `{PE : PageEntry} `{!PageEntryLaws}.

(** [kernel_main] up to the first endpoint: the kernel's own space is
    registered and the idle stack reserved; [Some None] is the [expect] of
    [idle_stack_top] when frames run out. *)
Definition boot_memory (kc : Z) (m : Paging) : option (option (Z * Paging)) :=
  let m := register_address_space kc m in
  let? (r, m) := kstack_slot 0 m in
  match r with
  | None => Some None
  | Some (_, frames) => Some (Some (frames, m))
  end.

(** What the bootloader and the earlier initialisation leave: the kernel's
    PML4 [kc] outside usable memory, its stack slot unused, [base] the
    frames in use. *)
Record boot_state (base : gset Z) (kc : Z) (m : Paging) : Prop := {
  bs_acct : accounted kc base (ALLOCATOR m);
  bs_bytes pa b : BYTES m !! pa = Some b -> is_byte b;
  bs_spaces : ADDRESS_SPACES m = [];
  bs_stacks : KSTACKS m = [];
  bs_kc : frame_addr kc /\ kc ∉ base;
  bs_slot : read_entry m kc KSLOT = 0;
}.

Definition root_tree (kc f : Z) : ptree := <[(kc, [KSLOT]) := f]> {[(kc, []) := kc]}.

Lemma root_tree_lookup kc f k x :
  root_tree kc f !! k = Some x <-> (k = (kc, [KSLOT]) /\ x = f) \/ (k = (kc, []) /\ x = kc).
Proof.
  unfold root_tree. rewrite lookup_insert_Some, lookup_singleton_Some. split; [naive_solver|].
  intros [[-> ->]|[-> ->]]; [by left|right]. split; [|done]. by intros [= ].
Qed.

Lemma root_tree_shallow kc f k : length (snd k) = 4%nat -> root_tree kc f !! k = None.
Proof.
  intros Hk. destruct (root_tree kc f !! k) eqn:E; [|done].
  apply root_tree_lookup in E as [[-> _]|[-> _]]; simpl in Hk; lia.
Qed.

Lemma root_tree_ok kc f bs :
  frame_addr kc -> frame_addr f -> f <> kc ->
  (exists fl, entry_of bs kc KSLOT = pe_set f fl) -> (forall i, 0 <= i < 512 -> entry_of bs f i = 0) ->
  tree_ok kc ∅ (root_tree kc f) bs.
Proof.
  intros Hk Hf Hne He Hz. split.
  - set_solver.
  - intros c x. rewrite root_tree_lookup. split; [intros [[? _]|[[= ->] ->]]; [done|auto]|].
    intros [-> [?| ->]]; [set_solver|auto].
  - intros k1 k2 x. rewrite !root_tree_lookup. intros [[-> ->]|[-> ->]] [[-> ?]|[-> ?]]; congruence.
  - intros c p i x. rewrite root_tree_lookup. intros [[[= -> E] ->]|[[= _ E] _]]; [|by destruct p].
    destruct p as [|j p]; [|by destruct p]. injection E as ->. unfold KSLOT. split; [lia|]. split; [simpl; lia|].
    exists kc. apply root_tree_lookup. auto.
  - intros c i p x. rewrite root_tree_lookup. intros [[[= -> -> _] _]|[? _]]; [by right|done].
  - exists f. apply root_tree_lookup. auto.
  - intros k x. rewrite root_tree_lookup. by intros [[_ ->]|[_ ->]].
  - intros c p t i Hp Hl Hi Hs. apply root_tree_lookup in Hp as [[[= -> ->] ->]|[[= -> ->] ->]].
    + assert (root_tree kc f !! key kc kc ([KSLOT] ++ [i]) = None) as ->; [|by apply Hz].
      destruct (root_tree kc f !! _) eqn:E; [|done]. apply root_tree_lookup in E. naive_solver.
    + destruct (Hs eq_refl) as [->|[_ ?]]; [|set_solver]. simpl app. change (key kc kc [KSLOT]) with (kc, [KSLOT]).
      rewrite (proj2 (root_tree_lookup kc f (kc, [KSLOT]) f)) by auto. done.
Qed.

(** The first table of the stack region. *)
Lemma first_table base kc l m :
  accounted kc (base ∪ l) (ALLOCATOR m) -> base ## l -> kc ∉ base ∪ l ->
  (forall pa b, BYTES m !! pa = Some b -> is_byte b) -> frame_addr kc -> read_entry m kc KSLOT = 0 ->
  match next_table_mut kc KSLOT m with
  | (Some f, m') => mem_tree base kc ∅ (root_tree kc f) l m' /\ same_lists m m' /\
                    next_table_mut kc KSLOT m' = (Some f, m')
  | (None, m') => accounted kc (base ∪ l) (ALLOCATOR m') /\ same_lists m m' /\ read_entry m' kc KSLOT = 0
  end.
Proof.
  intros Hac Hd Hkc Hb Hk Hz. unfold next_table_mut. rewrite Hz, pe_unused_0. unfold alloc.
  pose proof (accounted_alloc kc _ 1 _ Hac ltac:(lia)) as Ha.
  destruct (alloc_frames 1 (ALLOCATOR m)) as [[f|] fa']; [|done].
  rewrite frames_of_one in Ha. destruct Ha as (Hfd & Hfk & Hfal & Hac').
  assert (Hne : f <> kc) by (intros ->; apply Hfk; by apply elem_of_singleton).
  assert (Hf : frame_addr f).
  { split; [done|]. destruct (ac_held _ _ _ Hac' f) as [_ Hh]; [set_solver|].
    pose proof (held_range _ _ (ac_inv _ _ _ Hac') Hh). unfold MIN_ADDR in *. lia. }
  rewrite pe_addr_set by done. cbn [ALLOCATOR BYTES set_ALLOCATOR zero_frame set_BYTES write_entry].
  set (bs := put_entry kc KSLOT (pe_set f table_flags) (zero_bytes f PAGE_SIZE (BYTES m))).
  assert (Hent : entry_of bs kc KSLOT = pe_set f table_flags) by (by apply entry_put_same, pe_word).
  split; [split|].
  - apply root_tree_ok; try done; [by exists table_flags|]. intros i Hi.
    change (entry_of bs f i = 0). unfold bs. rewrite entry_put_ne; [by apply entry_zero_in|apply Hk|done|by unfold KSLOT|done|congruence].
  - apply bytes_put_entry. intros pa b [Hv _]%map_lookup_filter_Some. by apply Hb in Hv.
  - intros x Hx (k & E)%elem_of_img. apply root_tree_lookup in E as [[_ ->]|[_ ->]]; set_solver.
  - intros x Hx Hx'. apply elem_of_union in Hx' as [Hx'|(k & E)%elem_of_img]; [by apply (Hd x)|].
    apply root_tree_lookup in E as [[_ ->]|[_ ->]]; set_solver.
  - replace (base ∪ l ∪ (img (root_tree kc f) ∖ {[kc]})) with (base ∪ l ∪ {[f]}); [done|].
    f_equal. apply set_eq. intros x. rewrite elem_of_difference, elem_of_img, !elem_of_singleton.
    setoid_rewrite root_tree_lookup. split; [intros ->; split; [|done]; exists (kc, [KSLOT]); auto|].
    intros [(k & [[_ ->]|[_ ->]]) Hx]; done.
  - split; [done|]. unfold read_entry, write_entry, zero_frame. cbn [BYTES set_BYTES set_ALLOCATOR].
    fold bs. rewrite Hent, pe_used_set, pe_addr_set by done. done.
Qed.

Lemma map_first_table kc va pa m f m' n b i :
  p4_index va = KSLOT -> next_table_mut kc KSLOT m = (Some f, m') -> next_table_mut kc KSLOT m' = (Some f, m') ->
  va = b + i * 4096 ->
  map_kstack [kc] b pa (S n) i m = map_kstack [kc] b pa (S n) i m'.
Proof.
  intros Hp E E' ->. cbn [map_kstack map_all]. unfold Paging.map_page_in. by rewrite Hp, E, E'.
Qed.

(** No frame for the first table: the undo finds nothing to clear. *)
Lemma map_no_table kc va b m m' n :
  p4_index (va + 0 * 4096) = KSLOT -> next_table_mut kc KSLOT m = (None, m') -> read_entry m' kc KSLOT = 0 ->
  map_kstack [kc] va b (S n) 0 m = (false, m').
Proof.
  intros Hp E Hz. cbn [map_kstack map_all]. unfold Paging.map_page_in. rewrite Hp, E.
  replace (seqZ 0 (0 + 1)) with [0] by done. cbn [foldl]. unfold unmap_all. cbn [foldl].
  unfold Paging.unmap_page_in, table_of. by rewrite Hp, Hz, pe_unused_0.
Qed.

Lemma no_leaves_yet kc f : leaves_are kc ∅ (root_tree kc f).
Proof.
  intros p x Hp. split.
  - intros [[[= ->] _]|[[= ->] _]]%root_tree_lookup; done.
  - intros (va & b & j & Hb & _). by rewrite lookup_empty in Hb.
Qed.

(** The idle stack, once its frames are allocated. *)
Lemma idle_stack_ok base kc b m va F :
  va = kstack_slot_base 0 -> F = frames_of b KSTACK_PAGES ->
  accounted kc (base ∪ F) (ALLOCATOR m) -> base ## F -> kc ∉ base ∪ F ->
  (forall pa v, BYTES m !! pa = Some v -> is_byte v) -> frame_addr kc -> read_entry m kc KSLOT = 0 ->
  ADDRESS_SPACES m = [kc] -> KSTACKS m = [] ->
  match Paging.register_kstack va b KSTACK_PAGES m with
  | (true, m') => paging_ok base b kc ∅ ∅ ∅ m'
  | (false, m') => exists m2, release b KSTACK_PAGES m' = Some m2
  end.
Proof.
  intros Eva EF Hac Hd Hk Hb Hkf Hz Hsp Hks. unfold Paging.register_kstack. rewrite Hsp.
  assert (Hpage : forall j, 0 <= j < KSTACK_PAGES -> stack_page (va + j * 4096)) by (intros j Hj; subst va; by apply kstack_page).
  pose proof (stack_slot _ (Hpage 0 ltac:(done))) as Hp4.
  pose proof (first_table base kc F m Hac Hd Hk Hb Hkf Hz) as Hft.
  change (Z.to_nat KSTACK_PAGES) with 8%nat.
  destruct (next_table_mut kc KSLOT m) as [[f|] m1] eqn:Et.
  - destruct Hft as (Hm1 & [S1 S1'] & Et1).
    rewrite (map_first_table kc _ b m f m1 7 va 0 Hp4 Et Et1 eq_refl).
    assert (Hin : Forall (fun c => c ∈ (∅ : gset Z) \/ c = kc) [kc]) by (repeat constructor; by right).
    pose proof (map_kstack_ok base kc ∅ [kc] Hin ltac:(done) va b Hpage (root_tree kc f) F ltac:(by rewrite EF) 8 0
      (root_tree kc f) m1 eq_refl ltac:(lia)) as Hmk.
    assert (E0 : F ∖ frames_of b 0 = F) by (clear; unfold frames_of; simpl; set_solver). rewrite E0 in Hmk.
    specialize (Hmk (fun j _ => root_tree_shallow kc f (spot kc va j) eq_refl) Hm1).
    specialize (Hmk ltac:(split; [intros j Hj; lia|done])).
    destruct (map_kstack [kc] va b 8 0 m1) as [[] m2]; destruct Hmk as (pt' & [S2 S2'] & Hm2 & Hp).
    + rewrite EF, difference_diag_L in Hm2. split.
      * exists pt'. split; [by destruct Hm2|]. unfold all_stacks. rewrite Eva in Hp.
        apply (leaves_register kc ∅ (root_tree kc f)); [apply no_leaves_yet|lia|done|done|done].
      * exists []. cbn [ADDRESS_SPACES set_KSTACKS]. rewrite S2, S1, Hsp. split; [done|]. intros c. split; set_solver.
      * intros v b' n. cbn [KSTACKS set_KSTACKS]. rewrite S2', S1', Hks, Eva. cbn [app]. rewrite list_elem_of_singleton.
        unfold all_stacks. rewrite lookup_insert_Some. split; [intros [= -> -> ->]; auto|].
        intros [-> [[<- <-]|[_ ?]]]; done.
      * intros v b' Hv. by rewrite lookup_empty in Hv.
    + destruct (release_tree base kc _ _ _ _ b KSTACK_PAGES Hm2 ltac:(done) ltac:(by rewrite EF)) as (fa & -> & _). eauto.
  - destruct Hft as (Hac1 & _ & Hz1). rewrite (map_no_table kc va b m m1 7 Hp4 Et Hz1).
    destruct (accounted_free kc _ b KSTACK_PAGES _ Hac1 ltac:(done)) as (fa & Hf & _); [rewrite <- EF; apply union_subseteq_r|].
    unfold release. rewrite Hf. eauto.
Qed.

Lemma boot_memory_spec base kc m :
  boot_state base kc m ->
  exists r, boot_memory kc m = Some r /\ forall b m', r = Some (b, m') -> paging_ok base b kc ∅ ∅ ∅ m'.
Proof.
  intros [Hac Hb Hsp Hks [Hkf Hkb] Hz]. unfold boot_memory, register_address_space. rewrite Hsp.
  rewrite bool_decide_false by apply not_elem_of_nil. cbn [app]. set (m1 := set_SPACES [kc] m).
  unfold kstack_slot. change (4096 <=? 0) with false. cbv iota.
  change (mem_alloc KSTACK_PAGES m1) with (alloc KSTACK_PAGES m1). unfold alloc.
  pose proof (accounted_alloc kc base KSTACK_PAGES (ALLOCATOR m1) Hac ltac:(done)) as Ha.
  destruct (alloc_frames KSTACK_PAGES (ALLOCATOR m1)) as [[b|] fa].
  2:{ exists None. split; [done|]. by intros. }
  destruct Ha as (Hd & Hk & _ & Hac2).
  pose proof (idle_stack_ok base kc b (set_ALLOCATOR fa m1) _ _ eq_refl eq_refl Hac2 ltac:(set_solver) ltac:(set_solver) Hb Hkf Hz eq_refl Hks) as Hi.
  change (Kernel.register_kstack ?a ?b ?c ?d) with (Paging.register_kstack a b c d).
  destruct (Paging.register_kstack _ b KSTACK_PAGES _) as [[] m2].
  - eexists. split; [done|]. by intros b' m' [= <- <-].
  - destruct Hi as [m3 Hr]. change (mem_free b KSTACK_PAGES m2) with (release b KSTACK_PAGES m2). rewrite Hr.
    exists None. split; [done|]. by intros.
Qed.
End boot.

(** ** Runs on page tables *)

Section paged.
  Context `{PE : PageEntry} `{!PageEntryLaws} {D : Type} `{DiskOps D} `{Uninit}.
  Implicit Types k : Kernel Paging D.

Definition paged_boots (kc : Z) (img : BootImage) (m0 : Paging) (d : D) k : Prop :=
  image_ok (bi_console img) /\ image_ok (bi_initfs img) /\
  exists b m c, boot_memory kc m0 = Some (Some (b, m)) /\
    kernel_main (bi_console img) (bi_initfs img) (bi_disk1 img)
      (boot_statics (bi_code img) (bi_data img) kc m d) = Some (Some (c, k)).

(** Reached from the machine's initial memory [m0] by boot and any events. *)
Definition paged_reachable (kc : Z) (img : BootImage) (m0 : Paging) (d : D) k : Prop :=
  exists k0, paged_boots kc img m0 d k0 /\ rtc mstep k0 k.

Lemma paged_run base kc img m0 d k :
  boot_state base kc m0 -> paged_reachable kc img m0 d k ->
  exists b m, boot_memory kc m0 = Some (Some (b, m)) /\
    @reachable _ _ _ (paging_laws base b) _ _ kc img m d k.
Proof.
  intros Hbs (k0 & (Hi1 & Hi2 & b & m & c & Hbm & E) & Hr).
  destruct (boot_memory_spec base kc m0 Hbs) as (r & Hbm' & Hok). rewrite Hbm in Hbm'. injection Hbm' as <-.
  exists b, m. split; [done|]. exists k0. split; [|done].
  split; [by apply Hok|]. split; [done|]. split; [done|]. by exists c.
Qed.

Lemma paged_inv base kc img m0 d k :
  boot_state base kc m0 -> paged_reachable kc img m0 d k ->
  exists b, @kernel_ok _ _ _ (paging_laws base b) kc k.
Proof. intros Hbs Hr. destruct (paged_run _ _ _ _ _ _ Hbs Hr) as (b & m & _ & R). exists b. by eapply reachable_ok. Qed.

(** The memory of a state that satisfies the invariant. *)
Lemma paged_memory base b kc k :
  @kinv _ _ _ (paging_laws base b) kc k ->
  exists pt, mem_tree base kc (res_spaces (resources k)) pt ∅ (MEM k) /\
    leaves_are kc (all_stacks b (res_stacks (resources k))) pt.
Proof. intros Hk. by destruct (ow_ok _ _ _ _ (inv_mem _ _ Hk)). Qed.

Lemma task_by_cr3 base b kc k t t' :
  @kinv _ _ _ (paging_laws base b) kc k -> t ∈ TASKS k -> t' ∈ TASKS k -> t_cr3 t = t_cr3 t' -> t = t'.
Proof.
  intros Hk Ht Ht' E. pose proof (ow_cr3 _ _ _ _ (inv_mem _ _ Hk)) as Hnd. unfold resources in Hnd.
  rewrite fmap_app, <- list_fmap_compose in Hnd. apply NoDup_app in Hnd as (Hnd & _).
  apply list_elem_of_lookup in Ht as [i Hi], Ht' as [j Hj].
  assert (i = j); [|congruence]. eapply (NoDup_lookup _ _ _ (t_cr3 t) Hnd); rewrite list_lookup_fmap.
  - by rewrite Hi.
  - rewrite Hj. simpl. by rewrite E.
Qed.

(** Two user pages that share a frame are the same page of the same space. *)
Lemma leaf_unique base kc sp pt l m c c' va va' pa pa' :
  mem_tree base kc sp pt l m -> c ∈ sp -> c' ∈ sp -> 0 <= va < USER_STACK_TOP -> 0 <= va' < USER_STACK_TOP ->
  Paging.translate m c va = Some pa -> Paging.translate m c' va' = Some pa' ->
  pa / PAGE_SIZE = pa' / PAGE_SIZE -> c = c' /\ va / PAGE_SIZE = va' / PAGE_SIZE.
Proof.
  intros Hm Hc Hc' Hva Hva' T T' E.
  rewrite (user_translate base kc sp pt l) in T, T' by done.
  destruct (pt !! (c, path va)) as [f|] eqn:Ef; [|done]. destruct (pt !! (c', path va')) as [f'|] eqn:Ef'; [|done].
  injection T as <-. injection T' as <-. pose proof (mt_tree _ _ _ _ _ _ Hm) as Ht.
  destruct (to_frame _ _ _ _ Ht _ _ Ef) as [Ha _], (to_frame _ _ _ _ Ht _ _ Ef') as [Ha' _].
  assert (f = f').
  { unfold aligned, PAGE_SIZE in *. clear - E Ha Ha'. Z.to_euclidean_division_equations. lia. }
  subst f'. pose proof (to_inj _ _ _ _ Ht _ _ _ Ef Ef') as E'. split; [exact (f_equal fst E')|].
  apply (f_equal snd) in E'. cbn [snd] in E'. rewrite <- (path_same_page va), <- (path_same_page va') in E'.
  assert (P : forall v, 0 <= v < USER_STACK_TOP -> user_page (v - v mod PAGE_SIZE)).
  { intros v Hv. unfold user_page, aligned, PAGE_SIZE in *. pose proof (Z.div_mod v 4096). pose proof (Z.mod_pos_bound v 4096).
    split; [|lia]. replace (v - v mod 4096) with (v / 4096 * 4096) by lia. by apply Z.mod_mul. }
  apply user_path_inj in E'; [|by apply P..]. unfold PAGE_SIZE in *.
  pose proof (Z.div_mod va 4096). pose proof (Z.div_mod va' 4096). lia.
Qed.

(** The frames of the tables under the kernel's stack slot. *)
Fixpoint walk_path (m : Paging) (t : Z) (p : list Z) : option Z :=
  match p with
  | [] => Some t
  | i :: p => let? t := table_of m t i in walk_path m t p
  end.

Definition stack_table (kc : Z) (m : Paging) (t : Z) : Prop :=
  exists p, (length p <= 2)%nat /\ Forall (fun i => 0 <= i < 512) p /\ walk_path m kc (KSLOT :: p) = Some t.

Lemma walk_path_spec base kc sp pt l m : mem_tree base kc sp pt l m -> forall p q t,
  pt !! (kc, KSLOT :: q) = Some t -> (length (q ++ p) <= 3)%nat -> Forall (fun i => 0 <= i < 512) p ->
  walk_path m t p = pt !! (kc, KSLOT :: q ++ p).
Proof.
  intros Hm. induction p as [|i p IH]; intros q t Hq Hl Hr; cbn [walk_path]; [by rewrite app_nil_r, Hq|].
  apply Forall_cons in Hr as [Hi Hr]. rewrite length_app in Hl. simpl in Hl.
  rewrite (child_spec base kc sp pt l m kc (KSLOT :: q) t i Hm) by (done || (simpl; lia) || (intros ?; done)).
  change (key kc kc ((KSLOT :: q) ++ [i])) with (kc, KSLOT :: (q ++ [i])).
  destruct (pt !! (kc, KSLOT :: q ++ [i])) as [t'|] eqn:E.
  - rewrite (IH (q ++ [i]) t' E); [by rewrite <- app_assoc|rewrite !length_app; simpl; lia|done].
  - destruct (pt !! (kc, KSLOT :: q ++ i :: p)) eqn:E'; [|done].
    destruct (prefix_in_tree _ _ _ _ kc (KSLOT :: q ++ [i]) (mt_tree _ _ _ _ _ _ Hm) p) as [x Hx]; [|congruence].
    cbn [app]. rewrite <- app_assoc. by exists z.
Qed.

(** With no space but the kernel's, the frames in use are the boot frames, the
    idle stack and the stack tables. *)
Lemma empty_memory base b kc m :
  paging_ok base b kc ∅ ∅ ∅ m ->
  exists T : gset Z, (forall t, t ∈ T <-> stack_table kc m t) /\
    allocated_frames (ALLOCATOR m) = Z.of_nat (size base) + KSTACK_PAGES + Z.of_nat (size T).
Proof.
  intros [(pt & Hm & Hl) _ _ _]. pose proof (mt_tree _ _ _ _ _ _ Hm) as Ht.
  set (F := frames_of b KSTACK_PAGES). set (T := (img pt ∖ {[kc]}) ∖ F).
  destruct (to_kslot _ _ _ _ Ht) as [l3 Hl3].
  assert (Hroot : forall p, Forall (fun i => 0 <= i < 512) p -> (length p <= 3)%nat ->
            walk_path m kc (KSLOT :: p) = pt !! (kc, KSLOT :: p)).
  { intros p Hp Hlen. cbn [walk_path].
    rewrite (child_spec base kc ∅ pt ∅ m kc [] kc KSLOT Hm) by
      ((unfold KSLOT; lia) || (simpl; lia) || (apply (to_root _ _ _ _ Ht); auto) || (intros _; by left)).
    change (key kc kc ([] ++ [KSLOT])) with (kc, [KSLOT]). rewrite Hl3. by apply (walk_path_spec base kc ∅ pt ∅ m Hm p [] l3). }
  assert (Hidx : forall c p f, pt !! (c, p) = Some f -> Forall (fun i => 0 <= i < 512) p).
  { intros c p. induction p as [|i p IH] using rev_ind; intros f Hf; [constructor|].
    destruct (to_step _ _ _ _ Ht _ _ _ _ Hf) as (Hi & _ & [x Hx]). apply Forall_app. split; [by eapply IH|by constructor]. }
  assert (Hleaf : forall p f, length p = 4%nat -> pt !! (kc, p) = Some f -> f ∈ F).
  { intros p f Hp Hf. apply (Hl p f Hp) in Hf as (va & b' & j & Hb' & Hj & _ & ->). unfold all_stacks in Hb'.
    apply lookup_insert_Some in Hb' as [[_ <-]|[_ Hb']]; [|by rewrite lookup_empty in Hb'].
    apply elem_of_frames_of. by exists j. }
  assert (HF : F ⊆ img pt ∖ {[kc]}).
  { intros x (j & Hj & ->)%elem_of_frames_of.
    assert (E : pt !! (kc, path (kstack_slot_base 0 + j * 4096)) = Some (b + j * PAGE_SIZE)).
    { apply Hl; [done|]. exists (kstack_slot_base 0), b, j. unfold all_stacks. by rewrite lookup_insert_eq. }
    apply elem_of_difference. split; [apply elem_of_img; eauto|]. intros Hx%elem_of_singleton.
    rewrite Hx in E. pose proof (proj2 (to_root _ _ _ _ Ht kc kc) (conj eq_refl (or_intror eq_refl))) as Hk.
    by pose proof (to_inj _ _ _ _ Ht _ _ _ E Hk). }
  exists T. split.
  - intros t. unfold T. rewrite !elem_of_difference, elem_of_img, elem_of_singleton. split.
    + intros [[([c p] & Hk) Hne] Hn]. destruct p as [|i p].
      { apply (to_root _ _ _ _ Ht) in Hk as [-> [?| ->]]; set_solver. }
      destruct (to_slot _ _ _ _ Ht _ _ _ _ Hk) as [[_ ?]|[-> ->]]; [set_solver|].
      pose proof (path_depth _ _ _ _ _ _ _ Ht Hk) as Hd. simpl in Hd.
      assert (length p <> 3%nat) by (intros E; apply Hn, (Hleaf (KSLOT :: p)); simpl; congruence).
      pose proof (Hidx _ _ _ Hk) as Hr. apply Forall_cons in Hr as [_ Hr].
      exists p. split; [lia|]. split; [done|]. rewrite Hroot by (done || lia). done.
    + intros (p & Hp & Hr & Hw). rewrite Hroot in Hw by (done || lia). split; [split; [eauto|]|].
      * intros ->. pose proof (proj2 (to_root _ _ _ _ Ht kc kc) (conj eq_refl (or_intror eq_refl))) as Hk.
        by pose proof (to_inj _ _ _ _ Ht _ _ _ Hw Hk).
      * intros HtF. apply elem_of_frames_of in HtF as (j & Hj & ->).
        assert (E : pt !! (kc, path (kstack_slot_base 0 + j * 4096)) = Some (b + j * PAGE_SIZE)).
        { apply Hl; [done|]. exists (kstack_slot_base 0), b, j. unfold all_stacks. by rewrite lookup_insert_eq. }
        pose proof (f_equal snd (to_inj _ _ _ _ Ht _ _ _ Hw E)) as E'. apply (f_equal length) in E'. simpl in E'. lia.
  - pose proof (mt_acct _ _ _ _ _ _ Hm) as Hac. rewrite (ac_count _ _ _ Hac).
    rewrite union_empty_r_L, size_union.
    2:{ pose proof (mt_base _ _ _ _ _ _ Hm). solve_sets. }
    rewrite (union_difference_L F (img pt ∖ {[kc]}) HF), size_union by (unfold T; clear; set_solver).
    fold T. pose proof (size_frames_of b KSTACK_PAGES ltac:(done)) as Hsz. fold F in Hsz. lia.
Qed.
End paged.

(** ** The theorems *)

Section theorems.
  Context `{PE : PageEntry} `{!PageEntryLaws} {D : Type} `{DiskOps D} `{Uninit}.
  Implicit Types k : Kernel Paging D.

(** The memory manager comes up: from what the bootloader leaves,
    registering the kernel's address space and reserving the idle stack
    returns without a fault, and unless frames run out (the [expect] of
    [idle_stack_top]) the page tables and the frame allocator satisfy the
    whole contract the kernel is proved against, with no address space, no
    task stack and no loose frame. *)
Theorem memory_boot_safe base kc m0 :
  boot_state base kc m0 ->
  exists r, boot_memory kc m0 = Some r /\
    forall b m, r = Some (b, m) -> @mem_ok _ _ (paging_laws base b) kc ∅ ∅ ∅ m.
Proof. apply boot_memory_spec. Qed.

(** C2. The kernel on page tables never panics: booted from the machine's
    memory, after any sequence of allowed system calls, ticks, faults and
    keys, any further one is handled, the kernel invariant (page tables and
    frame ownership included) holds again and the frame resumed is the saved
    one of the task on the CPU.  Excluded, along the run and after it
    ([allowed]): a key while the first parked reader is a terminated task that
    has been torn down ([dead_reader_hit] is such a key). *)
Theorem paged_kernel_safe base kc img m0 d k ev :
  boot_state base kc m0 -> paged_reachable kc img m0 d k -> allowed ev k ->
  exists c k', machine_step ev k = Some (c, k') /\
    (c = Reboot \/ ctrl_ok c k' /\ exists b, @kernel_ok _ _ _ (paging_laws base b) kc k').
Proof.
  intros Hbs Hr Hal. destruct (paged_inv _ _ _ _ _ _ Hbs Hr) as (b & Hk).
  destruct (step_kernel_ok (ML := paging_laws base b) kc k ev Hk Hal) as (c & k' & E & R). naive_solver.
Qed.

(** C3. User memory is isolated: in every reachable state two user addresses
    that translate into the same frame are in the same page of the same task,
    and storing a byte through a user translation changes no user translation
    of any task (no page table is user memory).  The runs are those of
    [paged_kernel_safe]: they hold no key for a parked reader that has been
    torn down, which would be stored through page tables that are no longer
    the reader's. *)
Theorem user_memory_isolated base kc img m0 d k t t' va va' pa pa' v :
  boot_state base kc m0 -> paged_reachable kc img m0 d k -> t ∈ TASKS k -> t' ∈ TASKS k ->
  0 <= va < USER_STACK_TOP -> 0 <= va' < USER_STACK_TOP ->
  Paging.translate (MEM k) (t_cr3 t) va = Some pa -> Paging.translate (MEM k) (t_cr3 t') va' = Some pa' ->
  (pa / PAGE_SIZE = pa' / PAGE_SIZE -> t = t' /\ va / PAGE_SIZE = va' / PAGE_SIZE) /\
  (forall page, user_page page ->
     Paging.translate (set_BYTES (write_byte pa v (BYTES (MEM k))) (MEM k)) (t_cr3 t') page =
     Paging.translate (MEM k) (t_cr3 t') page).
Proof.
  intros Hbs Hr Ht Ht' Hva Hva' T T'. destruct (paged_inv _ _ _ _ _ _ Hbs Hr) as (b & [Hk _]).
  destruct (paged_memory _ _ _ _ Hk) as (pt & Hm & _).
  pose proof (task_space _ _ _ _ (inv_tasks _ _ Hk) Ht) as Hs. pose proof (task_space _ _ _ _ (inv_tasks _ _ Hk) Ht') as Hs'.
  split.
  - intros E. destruct (leaf_unique base kc _ pt _ _ _ _ _ _ _ _ Hm Hs Hs' Hva Hva' T T' E) as [Ec Ev].
    split; [|done]. by eapply task_by_cr3.
  - intros page Hp. destruct (paging_write base b kc _ _ _ _ _ _ v _ (ow_ok _ _ _ _ (inv_mem _ _ Hk)) Hs Hva T) as [_ Hu].
    by apply (Hu (t_cr3 t') Hs').
Qed.

(** Every frame comes back: when every task has gone and the reaper has
    run, the frames in use are the boot frames, the idle stack and the page
    tables of the kernel-stack region; [frame::stats] counts exactly those. *)
Theorem frames_returned base kc img m0 d k :
  boot_state base kc m0 -> paged_reachable kc img m0 d k -> TASKS k = [] ->
  exists k' T, drain_reaper k = Some k' /\ REAP_QUEUE k' = [] /\
    (forall t, t ∈ (T : gset Z) <-> stack_table kc (MEM k') t) /\
    fst (frame_stats (ALLOCATOR (MEM k'))) = Z.of_nat (size base) + KSTACK_PAGES + Z.of_nat (size T).
Proof.
  intros Hbs Hr Ht. destruct (paged_inv _ _ _ _ _ _ Hbs Hr) as (b & [Hk _]).
  destruct (drain_reaper_ok (ML := paging_laws base b) kc k Hk) as (m' & fr & E & Hk' & _).
  destruct (inv_mem _ _ Hk') as [_ _ _ Hok]. unfold resources in Hok. simpl in Hok. rewrite Ht in Hok.
  destruct (empty_memory _ _ _ _ Hok) as (T & HT & Hc). eexists _, T. split; [exact E|]. done.
Qed.
End theorems.

(** ** A machine

    Three megabytes of usable memory, the kernel's PML4 in the first one. *)

Definition machine_map : list MemoryRegion :=
  [ {| r_start := 0; r_end := 0x9f000; r_usable := true |};
    {| r_start := 0x9f000; r_end := 0x100000; r_usable := false |};
    {| r_start := 0x100000; r_end := 0x400000; r_usable := true |} ].

Definition machine_memory : Paging := mkPaging (frame_init machine_map) ∅ [] [].

#[local] Existing Instance x86_entry.
#[local] Existing Instance x86_entry_laws.

Lemma machine_map_ok : memory_map_ok machine_map.
Proof.
  split; [repeat constructor; simpl; lia|].
  repeat constructor; unfold regions_apart; simpl; try lia; discriminate.
Qed.

Lemma machine_regions : the_regions (frame_init machine_map) = [(0x100000, 0x400000)].
Proof. reflexivity. Qed.

Lemma machine_state : boot_state ∅ 0x1000 machine_memory.
Proof.
  split.
  - split.
    + apply (init_inv machine_map machine_map_ok).
    + intros r r'. cbn [ALLOCATOR machine_memory]. rewrite machine_regions, !list_elem_of_singleton. by intros -> ->.
    + intros (i & s & e & Hi & Hp). cbn [ALLOCATOR machine_memory] in Hi. rewrite machine_regions in Hi.
      apply list_lookup_singleton_Some in Hi as [_ [= <- <-]]. lia.
    + intros x Hx. set_solver.
    + done.
  - intros pa b Hb. cbn [BYTES machine_memory] in Hb. by rewrite lookup_empty in Hb.
  - done.
  - done.
  - split; [split; [done|lia]|set_solver].
  - done.
Qed.

Definition machine_boot : Z * Paging :=
  match boot_memory 0x1000 machine_memory with Some (Some r) => r | _ => (0, machine_memory) end.

Definition machine_control : Control :=
  match kernel_main demo_elf demo_elf (Some 100) (boot_statics 0x10 0x18 0x1000 (snd machine_boot) (∅ : RamDisk)) with
  | Some (Some (c, _)) => c
  | _ => Halt
  end.

Definition machine_kernel : Kernel Paging RamDisk :=
  match kernel_main demo_elf demo_elf (Some 100) (boot_statics 0x10 0x18 0x1000 (snd machine_boot) (∅ : RamDisk)) with
  | Some (Some (_, k)) => k
  | _ => boot_statics 0x10 0x18 0x1000 (snd machine_boot) ∅
  end.

Lemma machine_boots : paged_boots 0x1000 demo_boot machine_memory (∅ : RamDisk) machine_kernel.
Proof.
  split; [apply demo_elf_ok|]. split; [apply demo_elf_ok|].
  exists (fst machine_boot), (snd machine_boot), machine_control. split; vm_compute; reflexivity.
Qed.

Lemma machine_reachable evs k :
  run_events evs machine_kernel = Some k -> paged_reachable 0x1000 demo_boot machine_memory (∅ : RamDisk) k.
Proof.
  intros E. exists machine_kernel. split; [apply machine_boots|].
  apply (run_events_rtc evs). exact E.
Qed.

(** The state after both boot tasks have exited. *)
Definition machine_ended : Kernel Paging RamDisk :=
  default machine_kernel (run_events [exit_event 1; exit_event 2] machine_kernel).

Lemma memory_boot_safe_witness :
  exists r, boot_memory 0x1000 machine_memory = Some r /\
    forall b m, r = Some (b, m) -> @mem_ok _ _ (paging_laws ∅ b) 0x1000 ∅ ∅ ∅ m.
Proof. apply (memory_boot_safe ∅ 0x1000 machine_memory machine_state). Defined.

Lemma paged_kernel_safe_witness :
  exists c k', machine_step (exit_event 7) machine_kernel = Some (c, k') /\
    (c = Reboot \/ ctrl_ok c k' /\ exists b, @kernel_ok _ _ _ (paging_laws ∅ b) 0x1000 k').
Proof.
  apply (paged_kernel_safe ∅ 0x1000 demo_boot machine_memory ∅ machine_kernel (exit_event 7) machine_state).
  - apply (machine_reachable []). reflexivity.
  - apply allowedb_sound. vm_compute. reflexivity.
Defined.

Definition first_task : Task := default (mkTask 0 [] Ready 0 0 0 [] None 0 0 0) (TASKS machine_kernel !! 0%nat).
Definition second_task : Task := default (mkTask 0 [] Ready 0 0 0 [] None 0 0 0) (TASKS machine_kernel !! 1%nat).

Lemma first_in : first_task ∈ TASKS machine_kernel.
Proof. apply (list_elem_of_lookup_2 _ 0). vm_compute. reflexivity. Qed.
Lemma second_in : second_task ∈ TASKS machine_kernel.
Proof. apply (list_elem_of_lookup_2 _ 1). vm_compute. reflexivity. Qed.

(** The two boot tasks map the same address to different frames. *)
Lemma user_memory_isolated_witness :
  exists pa pa', Paging.translate (MEM machine_kernel) (t_cr3 first_task) 0x1040 = Some pa /\
    Paging.translate (MEM machine_kernel) (t_cr3 second_task) 0x1040 = Some pa' /\ pa / PAGE_SIZE <> pa' / PAGE_SIZE.
Proof.
  exists (default 0 (Paging.translate (MEM machine_kernel) (t_cr3 first_task) 0x1040)),
    (default 0 (Paging.translate (MEM machine_kernel) (t_cr3 second_task) 0x1040)).
  assert (T1 : Paging.translate (MEM machine_kernel) (t_cr3 first_task) 0x1040 =
    Some (default 0 (Paging.translate (MEM machine_kernel) (t_cr3 first_task) 0x1040))) by (vm_compute; reflexivity).
  assert (T2 : Paging.translate (MEM machine_kernel) (t_cr3 second_task) 0x1040 =
    Some (default 0 (Paging.translate (MEM machine_kernel) (t_cr3 second_task) 0x1040))) by (vm_compute; reflexivity).
  split; [exact T1|]. split; [exact T2|]. intros E.
  destruct (user_memory_isolated ∅ 0x1000 demo_boot machine_memory ∅ machine_kernel first_task second_task
    0x1040 0x1040 _ _ 0 machine_state (machine_reachable [] machine_kernel eq_refl)
    first_in second_in
    ltac:(unfold USER_STACK_TOP; lia) ltac:(unfold USER_STACK_TOP; lia) T1 T2) as [Hs _].
  destruct (Hs E) as [Et _]. apply (f_equal t_id) in Et. vm_compute in Et. discriminate Et.
Defined.

Lemma frames_returned_witness :
  exists k' T, drain_reaper machine_ended = Some k' /\ REAP_QUEUE k' = [] /\
    (forall t, t ∈ (T : gset Z) <-> stack_table 0x1000 (MEM k') t) /\
    fst (frame_stats (ALLOCATOR (MEM k'))) = Z.of_nat (size (∅ : gset Z)) + KSTACK_PAGES + Z.of_nat (size T).
Proof.
  apply (frames_returned ∅ 0x1000 demo_boot machine_memory ∅ machine_ended machine_state).
  - apply (machine_reachable [exit_event 1; exit_event 2]). vm_compute. reflexivity.
  - vm_compute. reflexivity.
Defined.

(** ** The excluded key *)

Definition user_call (n a0 a1 a2 a3 : Z) : event := ESyscall (user_frame n a0 a1 a2 a3 0 0).

(** The console sleeps; initfs starts a child, which parks reading the
    keyboard; initfs kills it, collects it and starts another child. *)
Definition killed_reader : list event :=
  [ yield_event; user_call num.TASK_SPAWN 0x1000 152 (0x1000 + 120) 2; yield_event; user_call num.SLEEP 1000 0 0 0;
    user_call num.INPUT_READ 0x1000 16 0 0; user_call num.KILL 3 0 0 0; user_call num.WAIT 0 0 0 0;
    user_call num.TASK_SPAWN 0x1000 152 (0x1000 + 120) 2 ].

Definition stale_reader : Kernel Paging RamDisk := default machine_kernel (run_events killed_reader machine_kernel).
Definition after_key : option (Control * Kernel Paging RamDisk) := machine_step (EKey 0x1e) stale_reader.
Definition after_key_kernel : Kernel Paging RamDisk := from_option snd machine_kernel after_key.
Definition after_key_control : Control := from_option fst Halt after_key.
Definition hit_task : Task := default (mkTask 0 [] Ready 0 0 0 [] None 0 0 0) (find_task 4 stale_reader).
Definition hit_byte : Z := default 0 (Paging.translate (MEM stale_reader) (t_cr3 hit_task) 0x1000).

(** A key can reach a task that never read the keyboard: in a reachable
    state the first parked reader has been killed and collected, and its page
    table is now the one of a task started since; the next key is stored in
    that task's memory.  This is the event [allowed] excludes. *)
Theorem dead_reader_hit : exists (k : Kernel Paging RamDisk) w t c k' pa,
  paged_reachable 0x1000 demo_boot machine_memory ∅ k /\ head (WAITERS k) = Some w /\ find_task (w_tid w) k = None /\
  t ∈ TASKS k /\ t_state t = Ready /\ w_tid w < t_id t /\
  machine_step (EKey 0x1e) k = Some (c, k') /\
  Paging.translate (MEM k) (t_cr3 t) (w_buf w) = Some pa /\ phys_read (MEM k) pa = 127 /\ phys_read (MEM k') pa = 97.
Proof.
  exists stale_reader, {| w_tid := 3; w_buf := 0x1000; w_len := 16; w_cr3 := t_cr3 hit_task |}, hit_task, after_key_control, after_key_kernel, hit_byte.
  split; [apply (machine_reachable killed_reader); vm_compute; reflexivity|].
  split; [vm_compute; reflexivity|]. split; [vm_compute; reflexivity|].
  split; [apply (list_elem_of_lookup_2 _ 2); vm_compute; reflexivity|].
  repeat (split; [vm_compute; reflexivity|]). vm_compute. reflexivity.
Qed.
