(* ===== verification/IpcSpec.v ===== *)
(** * What IPC and termination deliver (syscall.rs)

    The functional behaviour of a rendezvous: which registers of which task's
    saved frame the kernel writes, which task runs next, how the endpoint
    changes; and what every other task observes when a task terminates. *)

From S2P Require Import Prelude RustStd Frame Caps Kernel Sched TaskOps Input Syscall ElfSafety MemLaws KernelInv KernelMem KernelSpawn KernelExit KernelIpc KernelSafety SimpleMem Boot CapSafety Reachable.

Section frames.
  Context {S D : Type} `{ML : MemLaws S} `{DiskOps D} `{Uninit}.
  Implicit Types k : Kernel S D.

(** The registers task [x] resumes with. *)
Definition regs_of k (x : Z) : option TrapFrame :=
  match find_task x k with Some t => FRAMES k !! t_saved_rsp t | None => None end.

(** Tasks own distinct kernel stacks, hence distinct saved frames. *)
Definition stacks_distinct k : Prop := NoDup (p_kstack_base_va <$> resources k).

Lemma kmem_stacks kc k : kmem kc k -> stacks_distinct k.
Proof. by intros []. Qed.

Lemma saved_rsp_inj dy run k t u :
  ktasks dy run k -> stacks_distinct k -> t ∈ TASKS k -> u ∈ TASKS k -> t_saved_rsp t = t_saved_rsp u -> t = u.
Proof.
  intros Hk Hd Ht Hu E. rewrite (frame_key_task k t), (frame_key_task k u) in E by (by apply (kt_task _ _ _ Hk)).
  apply frame_key_inj in E. unfold stacks_distinct, resources in Hd. rewrite fmap_app in Hd.
  apply NoDup_app in Hd as (Hd & _). apply list_elem_of_lookup in Ht as [i Hi], Hu as [j Hj].
  assert (i = j) as ->; [|congruence]. eapply NoDup_lookup; [exact Hd|..]; rewrite !list_lookup_fmap.
  - by rewrite Hi.
  - rewrite Hj. simpl in *. by f_equal.
Qed.

Lemma regs_of_upd_state k c s x : regs_of (upd_task c (with_state s) k) x = regs_of k x.
Proof.
  unfold regs_of. rewrite find_upd_task by auto with redoubt. destruct (Z.eqb_spec x c) as [->|]; [|done].
  by destruct (find_task c k).
Qed.

(** Writing through one task's frame pointer changes only its registers. *)
Lemma regs_of_write dy run k c t f g k' x :
  ktasks dy run k -> stacks_distinct k -> find_task c k = Some t -> FRAMES k !! t_saved_rsp t = Some f ->
  TASKS k' = TASKS k -> FRAMES k' = <[t_saved_rsp t := g f]> (FRAMES k) ->
  regs_of k' x = if x =? c then Some (g f) else regs_of k x.
Proof.
  intros Hk Hd Hf Hfr ET EF. unfold regs_of, find_task in *. rewrite ET, EF.
  destruct (Z.eqb_spec x c) as [->|Hne]; [by rewrite Hf, lookup_insert_eq|].
  destruct (find (has_id x) (TASKS k)) as [u|] eqn:Hu; [|done]. rewrite lookup_insert_ne; [done|]. intros E.
  apply find_task_id in Hf as [Hid Hin], Hu as [Hid' Hin'].
  assert (t = u) by (by eapply saved_rsp_inj). congruence.
Qed.

Lemma write_frame_spec dy run k c t g :
  ktasks dy run k -> find_task c k = Some t ->
  exists f, FRAMES k !! t_saved_rsp t = Some f /\ regs_of k c = Some f /\
    write_frame (t_saved_rsp t) g k = Some (set_FRAMES (<[t_saved_rsp t := g f]> (FRAMES k)) k).
Proof.
  intros Hk Hf. pose proof Hf as [Hid Hin]%find_task_id.
  destruct (to_frame _ _ (kt_task _ _ _ Hk _ Hin)) as [f Hfr]. exists f.
  unfold write_frame, regs_of. by rewrite Hfr, Hf.
Qed.

(** ** Callers stranded by a dying server *)

Definition peer_died (cs : list Z) (o : option TaskState) (x : Z) (r : option TrapFrame) : option TrapFrame :=
  match o with
  | Some (BlockedCall _) => if bool_decide (x ∈ cs) then set_rax E_PEER_DIED <$> r else r
  | _ => r
  end.

Lemma fail_stranded_regs dy run c k k' x :
  ktasks dy run k -> stacks_distinct k -> fail_stranded c k = Some k' ->
  regs_of k' x = peer_died [c] (state_of k x) x (regs_of k x).
Proof.
  intros Hk Hd E. unfold fail_stranded in E.
  assert (Hsame : x <> c -> peer_died [c] (state_of k x) x (regs_of k x) = regs_of k x).
  { intros Hne. unfold peer_died. destruct (state_of k x) as [[]|]; try done.
    by rewrite bool_decide_false by set_solver. }
  destruct (find_task c k) as [t|] eqn:Hf.
  - destruct (t_state t) eqn:Es;
      try (injection E as <-; destruct (decide (x = c)) as [->|]; [|by rewrite Hsame];
           unfold state_of; rewrite Hf; simpl; by rewrite Es).
    destruct (write_frame_spec _ _ _ _ _ (set_rax E_PEER_DIED) Hk Hf) as (f & Hfr & Hr & Hw).
    rewrite Hw in E. injection E as <-.
    transitivity (regs_of (set_FRAMES (<[t_saved_rsp t:=set_rax E_PEER_DIED f]> (FRAMES k)) k) x).
    { apply (regs_of_upd_state (set_FRAMES (<[t_saved_rsp t:=set_rax E_PEER_DIED f]> (FRAMES k)) k) c Ready x). }
    rewrite (regs_of_write dy run k c t f (set_rax E_PEER_DIED)) by done.
    destruct (Z.eqb_spec x c) as [->|Hne]; [|by rewrite Hsame].
    unfold state_of. rewrite Hf. simpl. rewrite Es. simpl. rewrite bool_decide_true by set_solver. by rewrite Hr.
  - injection E as <-. destruct (decide (x = c)) as [->|]; [|by rewrite Hsame].
    unfold state_of. by rewrite Hf.
Qed.

Lemma fail_all_regs dy run cs x : forall k k',
  ktasks dy run k -> stacks_distinct k -> fail_all cs k = Some k' ->
  regs_of k' x = peer_died cs (state_of k x) x (regs_of k x).
Proof.
  induction cs as [|c cs IH]; intros k k' Hk Hd; cbn [fail_all].
  - intros [= <-]. unfold peer_died. repeat case_match; try done. 
  - intros E. destruct (fail_stranded_ok dy run c k Hk) as (k1 & E1 & Hk1 & Hu). rewrite E1 in E.
    rewrite (IH k1 k' Hk1) by (done || unfold stacks_distinct; by rewrite (uw_res _ _ _ Hu)).
    rewrite (fail_stranded_regs dy run c k k1) by done. rewrite (uw_state _ _ _ Hu x). unfold failed, peer_died.
    destruct (state_of k x) as [[]|]; try done. destruct (decide (x = c)) as [->|Hne].
    + by rewrite !(bool_decide_true (c ∈ _)) by set_solver.
    + rewrite (bool_decide_false (x ∈ [c])) by set_solver.
      by rewrite (bool_decide_ext (x ∈ c :: cs) (x ∈ cs)) by set_solver.
Qed.

Lemma regs_of_alive k3 k x tid code :
  FRAMES k3 = FRAMES k -> (find_task x k3 = t ← find_task x k; survivor tid code t) ->
  x <> tid -> alive (state_of k x) -> regs_of k3 x = regs_of k x.
Proof.
  intros EF Ef Hne (s & (t & Hf & <-)%state_of_find & Hz). unfold regs_of. rewrite Ef, EF, Hf. simpl.
  unfold survivor. apply find_task_id in Hf as [-> _]. rewrite (proj2 (Z.eqb_neq _ _)) by done.
  rewrite Hz. by case_bool_decide.
Qed.

(** Registers of the survivors after the unwinding phase of an exit. *)
Lemma unwound_regs kc run k tid code me k4 x :
  ktasks None run k -> kmem kc k -> find_task tid k = Some me ->
  abort_ipc_for_exiting_task tid (exit_table tid code k) = Some k4 -> x <> tid -> alive (state_of k x) ->
  regs_of k4 x = peer_died (stranded tid (ENDPOINTS k)) (state_of k x) x (regs_of k x).
Proof.
  intros Ht Hm Hme E Hne Hal. unfold abort_ipc_for_exiting_task in E.
  destruct (exit_table_spec kc run k tid code Ht Hm) as (_ & _ & Hm3 & _ & _ & HF3 & HE3).
  pose proof (exit_table_tasks kc run k tid code me Ht Hm Hme) as Ht3.
  pose proof (exit_table_find kc run k tid code Ht Hm x) as Hfx.
  pose proof (exit_table_alive kc run k tid code me Ht Hm Hme x) as Hax.
  set (k3 := exit_table tid code k) in *. rewrite HE3 in E. fold (stranded tid (ENDPOINTS k)) in E.
  set (k3' := set_ENDPOINTS _ k3) in E.
  assert (Ht3' : ktasks (Some tid) (off_cpu run tid) k3').
  { apply (ktasks_ext _ _ k3); try done. split; try done. simpl. by rewrite !length_fmap, HE3. }
  rewrite (fail_all_regs _ _ _ x _ _ Ht3' (kmem_stacks _ _ Hm3) E).
  change (regs_of k3' x) with (regs_of k3 x). change (state_of k3' x) with (state_of k3 x).
  rewrite (regs_of_alive k3 k x tid code HF3 Hfx Hne Hal). destruct Hal as (s & Hs & Hz).
  rewrite (proj2 (Hax s Hne Hz) Hs). by rewrite Hs.
Qed.

Lemma state_of_failed kc run k tid code me k4 x s :
  ktasks None run k -> kipc k -> kmem kc k -> find_task tid k = Some me ->
  abort_ipc_for_exiting_task tid (exit_table tid code k) = Some k4 -> x <> tid -> state_of k x = Some s ->
  is_zombie s = false -> state_of k4 x = failed (stranded tid (ENDPOINTS k)) x (Some s).
Proof.
  intros Ht Hi Hm Hme E Hne Hs Hz.
  destruct (exit_unwound_ok kc run k tid code me Ht Hi Hm Hme) as (k4' & E' & _ & _ & _ & _ & _ & Hoth & _).
  rewrite E in E'. injection E' as <-.
  destruct (failed _ x (Some s)) as [s'|] eqn:Ef; [|by destruct s; simpl in Ef; try case_bool_decide].
  apply Hoth; [done| |by exists s]. destruct s; simpl in Ef; simplify_eq; try done. case_bool_decide; by simplify_eq.
Qed.

(** ** What the others observe *)

Definition served_by k (tid x : Z) : Prop :=
  exists i ep, ENDPOINTS k !! i = Some ep /\ active_caller ep = Some x /\ active_server ep = Some tid.

(** State and registers of a task. *)
Definition view k (x : Z) : option TaskState * option TrapFrame := (state_of k x, regs_of k x).

Lemma view_bury k tid x : NoDup (t_id <$> TASKS k) -> x <> tid -> view (schedule_reap tid k) x = view k x.
Proof.
  intros Hnd Hne. unfold view, state_of, regs_of, schedule_reap. destruct (find_task tid k) as [t|] eqn:Hf; [|done].
  assert (E : find_task x (set_TASKS (remove_task tid (TASKS k)) k) = find_task x k).
  { unfold find_task at 1. simpl. rewrite find_remove_task. by rewrite (proj2 (Z.eqb_neq _ _)). }
  unfold find_task in *. simpl in *. by rewrite E.
Qed.

Lemma terminate_view kc run k tid code me k' x s f :
  ktasks None run k -> kipc k -> kmem kc k -> find_task tid k = Some me ->
  terminate_lifecycle tid code k = Some k' -> x <> tid ->
  view k x = (Some s, Some f) -> is_zombie s = false ->
  view k' x =
    if bool_decide (t_parent me = Some x /\ s = BlockedWait) then (Some Ready, Some (set_rax_rdi_rsi E_OK tid code f))
    else (failed (stranded tid (ENDPOINTS k)) x (Some s), peer_died (stranded tid (ENDPOINTS k)) (Some s) x (Some f)).
Proof.
  intros Ht Hi Hm Hme E Hne [= Hs Hr] Hz. rewrite (terminate_unfold run k tid code me Ht Hme) in E.
  destruct (exit_unwound_ok kc run k tid code me Ht Hi Hm Hme) as (k4 & E4 & Ht4 & _ & Hm4 & _ & _ & _ & _).
  rewrite E4 in E.
  assert (Hal : alive (state_of k x)) by (by exists s).
  assert (Hv4 : view k4 x = (failed (stranded tid (ENDPOINTS k)) x (Some s),
                  peer_died (stranded tid (ENDPOINTS k)) (Some s) x (Some f))).
  { unfold view. rewrite (state_of_failed kc run k tid code me k4 x s) by done.
    rewrite (unwound_regs kc run k tid code me k4 x) by done. by rewrite Hs, Hr. }
  destruct (t_parent me) as [p|] eqn:Hp.
  2:{ injection E as <-. rewrite bool_decide_false by (by intros [? _]). rewrite view_bury by (done || apply Ht4). done. }
  destruct (decide (state_of k p = Some BlockedWait)) as [Hw|Hw].
  2:{ rewrite bool_decide_false in E by done. injection E as <-. rewrite bool_decide_false; [done|].
      intros [[= ->] ->]. done. }
  rewrite bool_decide_true in E by done. destruct (find_task p k4) as [pt|] eqn:Hpt; [|done].
  destruct (write_frame_spec _ _ _ _ _ (set_rax_rdi_rsi E_OK tid code) Ht4 Hpt) as (g & Hg & Hrg & Hwr).
  rewrite Hwr in E. injection E as <-. set (k5 := set_FRAMES _ k4).
  rewrite view_bury; [|simpl; rewrite update_first_map, <- list_fmap_compose by apply Ht4|done].
  2:{ erewrite list_fmap_ext; [apply Ht4|]. intros i u _. simpl. by destruct (_ =? _). }
  transitivity (state_of (upd_task p (with_state Ready) k4) x, regs_of (upd_task p (with_state Ready) k5) x); [done|].
  rewrite regs_of_upd_state, state_of_upd_state, (regs_of_write _ _ k4 p pt g (set_rax_rdi_rsi E_OK tid code)) by (done || by eapply kmem_stacks).
  destruct (Z.eqb_spec x p) as [->|Hxp].
  - rewrite bool_decide_true by (split; congruence). rewrite Hpt. simpl. do 2 f_equal.
    injection Hv4 as _ Hv4. assert (s = BlockedWait) as -> by congruence. simpl in Hv4. congruence.
  - rewrite bool_decide_false by (intros [? _]; congruence). exact Hv4.
Qed.
End frames.

(** ** The IPC operations *)

Section delivery.
  Context {S D : Type} `{ML : MemLaws S} `{DiskOps D} `{Uninit}.
  Context (kc : Z) (k : Kernel S D) (tid : Z) (t : Task).
  Context (Hinv : kinv kc k) (Hcur : CURRENT k = Some tid) (Hfind : find_task tid k = Some t).

(** A call that finds a receiver waiting. *)
Lemma rendezvous_spec a0 a1 a2 a3 a4 a5 e ep w :
  get_endpoint_cap tid a0 R_WRITE k = Ok e -> ENDPOINTS k !! Z.to_nat e = Some ep ->
  find (receives_on e) (TASKS k) = Some w ->
  exists f k',
    regs_of k (t_id w) = Some f /\
    ipc_call tid (t_saved_rsp t) a0 a1 a2 a3 a4 a5 k = Some (Resume (t_saved_rsp w), k') /\
    CURRENT k' = Some (t_id w) /\ state_of k' (t_id w) = Some Running /\
    regs_of k' (t_id w) = Some (set_request E_OK tid a1 a2 a3 a4 a5 f) /\
    state_of k' tid = Some (BlockedCall e) /\
    (forall x, x <> tid -> x <> t_id w -> state_of k' x = state_of k x) /\
    ENDPOINTS k' = <[Z.to_nat e :=
      {| pending_callers := pending_callers ep; active_caller := Some tid; active_server := Some (t_id w) |}]>
      (ENDPOINTS k).
Proof.
  intros Hcap Hep Hw. unfold ipc_call. rewrite Hcap. unfold upd_task_or_panic at 1.
  rewrite Hfind, (upd_task_save tid t), Hep, Hw by done.
  pose proof Hw as [Hwin Hwr]%find_In.
  assert (Hwf : find_task (t_id w) k = Some w) by (apply find_task_elem; [apply Hinv|done]).
  destruct (write_frame_spec _ _ _ _ _ (set_request E_OK tid a1 a2 a3 a4 a5) (inv_tasks _ _ Hinv) Hwf) as (f & Hfr & Hr & ->).
  cbn [TASKS set_FRAMES]. rewrite (update_receiver e w) by (done || apply Hinv).
  assert (Hne : t_id w <> tid).
  { intros E. rewrite E in Hwf. pose proof (cur_running kc k tid t Hinv Hcur Hfind).
    unfold receives_on in Hwr. assert (w = t) as -> by congruence. by rewrite H2 in Hwr. }
  set (k1 := set_endpoint e _ _).
  assert (Hf1 : find_task tid k1 = Some t).
  { change (find_task tid (upd_task (t_id w) (with_state Ready) k) = Some t).
    rewrite find_upd_task, (proj2 (Z.eqb_neq _ _)) by (auto with redoubt). done. }
  unfold upd_task_or_panic. rewrite Hf1. set (k2 := upd_task tid _ k1).
  assert (Hf2 : find_task (t_id w) k2 = Some (with_state Ready w)).
  { unfold k2. rewrite find_upd_task, (proj2 (Z.eqb_neq _ _)) by (auto with redoubt).
    change (find_task (t_id w) (upd_task (t_id w) (with_state Ready) k) = Some (with_state Ready w)).
    rewrite find_upd_task, Z.eqb_refl, Hwf by (auto with redoubt). done. }
  assert (Hrd : is_ready (TASKS k2) (t_id w) = true).
  { apply existsb_exists. exists (with_state Ready w). apply find_task_id in Hf2 as [Hid Hin].
    split; [by apply list_elem_of_In|]. simpl. by rewrite Z.eqb_refl. }
  unfold switch_away, pick_next. cbn [READY set_CURRENT TASKS].
  change (READY k2) with (t_id w :: READY k). cbn [pick_loop]. rewrite Hrd. cbn [bool_decide negb andb].
  rewrite bool_decide_false by done. cbn [negb andb]. unfold resume.
  change (find_task (t_id w) (set_READY _ (set_CURRENT None k2))) with (find_task (t_id w) k2). rewrite Hf2.
  exists f. eexists. split; [done|]. split; [done|]. split; [done|].
  set (k3 := upd_task (t_id w) (with_state Running) _).
  assert (Hst : forall x, state_of k3 x = if x =? t_id w then Some Running else state_of k2 x).
  { intros x. change (state_of (upd_task (t_id w) (with_state Running) k2) x = if x =? t_id w then Some Running else state_of k2 x).
    by rewrite state_of_upd_state, Hf2. }
  split; [change (state_of k3 (t_id w) = Some Running); by rewrite Hst, Z.eqb_refl|]. split.
  { change (regs_of (upd_task (t_id w) (with_state Running) (upd_task tid (with_state (BlockedCall e))
      (upd_task (t_id w) (with_state Ready) (set_FRAMES (<[t_saved_rsp w := set_request E_OK tid a1 a2 a3 a4 a5 f]> (FRAMES k)) k)))) (t_id w)
      = Some (set_request E_OK tid a1 a2 a3 a4 a5 f)).
    rewrite !regs_of_upd_state.
    rewrite (regs_of_write _ _ k (t_id w) w f (set_request E_OK tid a1 a2 a3 a4 a5) _ (t_id w) (inv_tasks _ _ Hinv)) by (done || by eapply kmem_stacks, Hinv).
    by rewrite Z.eqb_refl. }
  split.
  { change (state_of k3 tid = Some (BlockedCall e)). rewrite Hst, (proj2 (Z.eqb_neq _ _)) by done.
    unfold k2. by rewrite state_of_upd_state, Z.eqb_refl, Hf1. }
  split; [|done]. intros x Hx Hxw. change (state_of k3 x = state_of k x).
  rewrite Hst, (proj2 (Z.eqb_neq _ _)) by done. unfold k2. rewrite state_of_upd_state, (proj2 (Z.eqb_neq _ _)) by done.
  change (state_of (upd_task (t_id w) (with_state Ready) k) x = state_of k x).
  by rewrite state_of_upd_state, (proj2 (Z.eqb_neq _ _)).
Qed.

Lemma recv_spec slot deadline e ep c msg rest :
  get_endpoint_cap tid slot R_READ k = Ok e -> ENDPOINTS k !! Z.to_nat e = Some ep -> active_caller ep = None ->
  pending_callers ep = (c, msg) :: rest ->
  exists f k',
    regs_of k tid = Some f /\
    ipc_recv tid (t_saved_rsp t) slot deadline k = Some (Resume (t_saved_rsp t), k') /\
    regs_of k' tid = Some (set_request E_OK c (nth 0 msg 0) (nth 1 msg 0) (nth 2 msg 0) (nth 3 msg 0) (nth 4 msg 0) f) /\
    state_of k' c = Some (BlockedCall e) /\
    ENDPOINTS k' !! Z.to_nat e =
      Some {| pending_callers := rest; active_caller := Some c; active_server := Some tid |}.
Proof.
  intros Hcap Hep Hact Hpend. unfold ipc_recv. rewrite Hcap, Hep, Hact, bool_decide_false, Hpend by (by intros []).
  destruct (endpoint_cap_in_range _ _ _ _ _ _ _ (inv_tasks _ _ Hinv) Hcap) as (He & _).
  assert (Hcs : state_of k c = Some (BlockedSend e)).
  { replace e with (Z.of_nat (Z.to_nat e)) by lia. eapply (ki_pending _ (inv_ipc _ _ Hinv)); [exact Hep|].
    rewrite Hpend. apply list_elem_of_here. }
  pose proof Hcs as (tc & Hc & Htc)%state_of_find.
  set (k1 := upd_task c _ _).
  assert (Hne : tid <> c).
  { intros <-. pose proof (cur_running kc k tid t Hinv Hcur Hfind). congruence. }
  assert (Hf1 : find_task tid k1 = Some t).
  { change (find_task tid (upd_task c (with_state (BlockedCall e)) k) = Some t).
    rewrite find_upd_task, (proj2 (Z.eqb_neq _ _)) by (auto with redoubt). done. }
  set (g := set_request _ _ _ _ _ _ _).
  assert (Hfr : exists f, FRAMES k1 !! t_saved_rsp t = Some f /\ regs_of k tid = Some f).
  { destruct (write_frame_spec _ _ _ _ _ g (inv_tasks _ _ Hinv) Hfind) as (f & ? & ? & _). eauto. }
  destruct Hfr as (f & Hfr & Hr). unfold return_with, write_frame. rewrite Hfr.
  exists f. eexists. split; [done|]. split; [done|]. split; [|split].
  - unfold regs_of. change (find_task tid (set_FRAMES _ k1)) with (find_task tid k1). rewrite Hf1. simpl.
    by rewrite lookup_insert_eq.
  - change (state_of (upd_task c (with_state (BlockedCall e)) k) c = Some (BlockedCall e)).
    by rewrite state_of_upd_state, Z.eqb_refl, Hc.
  - simpl. apply list_lookup_insert_eq. by eapply lookup_lt_Some.
Qed.

Lemma reply_spec a0 a1 a2 a3 a4 a5 e ep c :
  get_endpoint_cap tid a0 R_WRITE k = Ok e -> ENDPOINTS k !! Z.to_nat e = Some ep ->
  active_server ep = Some tid -> active_caller ep = Some c ->
  exists f k',
    regs_of k c = Some f /\
    ipc_reply tid (t_saved_rsp t) a0 a1 a2 a3 a4 a5 k = Some (Resume (t_saved_rsp t), k') /\
    regs_of k' c = Some (set_reply E_OK a1 a2 a3 a4 a5 f) /\
    state_of k' c = Some Ready /\ READY k' = c :: READY k /\
    option_map rax (regs_of k' tid) = Some E_OK /\
    ENDPOINTS k' !! Z.to_nat e =
      Some {| pending_callers := pending_callers ep; active_caller := None; active_server := None |}.
Proof.
  intros Hcap Hep Hsrv Hcal. unfold ipc_reply. rewrite Hcap, Hep, bool_decide_true, Hcal by done.
  destruct (endpoint_cap_in_range _ _ _ _ _ _ _ (inv_tasks _ _ Hinv) Hcap) as (He & _).
  assert (Hcs : state_of k c = Some (BlockedCall e)).
  { replace e with (Z.of_nat (Z.to_nat e)) by lia. by eapply (ki_caller _ (inv_ipc _ _ Hinv)). }
  pose proof Hcs as (tc & Hc & Htc)%state_of_find.
  assert (Hne : tid <> c).
  { intros <-. pose proof (cur_running kc k tid t Hinv Hcur Hfind). congruence. }
  change (find_task c (set_endpoint e _ k)) with (find_task c k). rewrite Hc.
  destruct (write_frame_spec _ _ _ _ _ (set_reply E_OK a1 a2 a3 a4 a5) (inv_tasks _ _ Hinv) Hc) as (f & Hfr & Hr & _).
  unfold write_frame. cbn [FRAMES set_endpoint set_ENDPOINTS]. rewrite Hfr.
  set (k1 := make_ready c true _).
  pose proof (kmem_stacks _ _ (inv_mem _ _ Hinv)) as Hd. pose proof (inv_tasks _ _ Hinv) as Hk.
  assert (Hrsp : t_saved_rsp tc <> t_saved_rsp t).
  { intros E. apply Hne. apply find_task_id in Hc as [<- Hin], Hfind as [<- Hin'].
    f_equal. symmetry. by eapply saved_rsp_inj. }
  destruct (write_frame_spec _ _ _ _ _ (set_rax E_OK) Hk Hfind) as (f' & Hfr' & Hr' & _).
  unfold return_with, write_frame. change (FRAMES k1 !! t_saved_rsp t) with
    (<[t_saved_rsp tc := set_reply E_OK a1 a2 a3 a4 a5 f]> (FRAMES k) !! t_saved_rsp t).
  rewrite lookup_insert_ne, Hfr' by done.
  assert (Hf1 : forall x, find_task x (set_FRAMES (<[t_saved_rsp t := set_rax E_OK f']> (FRAMES k1)) k1) =
                   if x =? c then Some (with_state Ready tc) else find_task x k).
  { intros x. change (find_task x (upd_task c (with_state Ready) k) = if x =? c then Some (with_state Ready tc) else find_task x k).
    rewrite find_upd_task by auto with redoubt. by rewrite Hc. }
  exists f. eexists. split; [done|]. split; [done|]. split; [|split; [|split; [done|split]]].
  - unfold regs_of. rewrite Hf1, Z.eqb_refl. simpl. by rewrite lookup_insert_ne, lookup_insert_eq.
  - unfold state_of. by rewrite Hf1, Z.eqb_refl.
  - unfold regs_of. rewrite Hf1, (proj2 (Z.eqb_neq _ _)), Hfind by done. simpl. by rewrite lookup_insert_eq.
  - simpl. apply list_lookup_insert_eq. by eapply lookup_lt_Some.
Qed.
End delivery.

(** ** Timers *)

Section timers.
  Context {S D : Type} `{ML : MemLaws S} `{DiskOps D} `{Uninit}.
  Implicit Types k : Kernel S D.

(** What one tick does to a task: woken with its status, or untouched. *)
Definition woken (now : Z) (t : Task) : Task := if expired now (t_state t) then with_state Ready t else t.

Lemma woken_id now t : t_id (woken now t) = t_id t.
Proof. unfold woken. by destruct (expired now (t_state t)). Qed.

Lemma wake_tasks_frames now ts : forall fr ts' fr' w,
  NoDup (t_saved_rsp <$> ts) -> wake_tasks now ts fr = Some (ts', fr', w) ->
  ts' = woken now <$> ts /\ w = t_id <$> List.filter (fun t => expired now (t_state t)) ts /\
  (forall a, a ∉ (t_saved_rsp <$> ts) -> fr' !! a = fr !! a) /\
  forall t, t ∈ ts -> fr' !! t_saved_rsp t =
    if expired now (t_state t) then set_rax (wake_status (t_state t)) <$> fr !! t_saved_rsp t else fr !! t_saved_rsp t.
Proof.
  induction ts as [|t ts IH]; intros fr ts' fr' w; csimpl.
  { intros _ [= <- <- <-]. repeat split; try done. intros t Ht. by apply not_elem_of_nil in Ht. }
  intros [Hn Hnd]%NoDup_cons E. unfold woken at 1. destruct (expired now (t_state t)) eqn:Ex.
  - destruct (fr !! t_saved_rsp t) as [f|] eqn:Ef; [|done].
    destruct (wake_tasks now ts _) as [[[ts1 fr1] w1]|] eqn:Ew; [|done]. injection E as <- <- <-.
    destruct (IH _ _ _ _ Hnd Ew) as (-> & -> & Hout & Hin). repeat split.
    + intros a Ha. apply not_elem_of_cons in Ha as [Ha Ha']. rewrite Hout by done. by rewrite lookup_insert_ne.
    + intros u [->|Hu]%elem_of_cons.
      * rewrite Ex, Hout by done. by rewrite lookup_insert_eq, Ef.
      * rewrite Hin by done. rewrite lookup_insert_ne; [done|]. intros E'. apply Hn. rewrite E'.
        apply list_elem_of_fmap. by exists u.
  - destruct (wake_tasks now ts _) as [[[ts1 fr1] w1]|] eqn:Ew; [|done]. injection E as <- <- <-.
    destruct (IH _ _ _ _ Hnd Ew) as (-> & -> & Hout & Hin). repeat split.
    + intros a Ha. apply not_elem_of_cons in Ha as [Ha Ha']. by rewrite Hout.
    + intros u [->|Hu]%elem_of_cons; [by rewrite Ex, Hout|by apply Hin].
Qed.

Lemma saved_rsp_nodup dy run k : ktasks dy run k -> stacks_distinct k -> NoDup (t_saved_rsp <$> TASKS k).
Proof.
  intros Hk Hd. apply NoDup_fmap_2_strong; [|by eapply NoDup_fmap_1, (kt_nodup _ _ _ Hk)].
  intros t u Ht Hu. by eapply saved_rsp_inj.
Qed.

Lemma wake_expired_view kc k k' x s f :
  kinv kc k -> wake_expired k = Some k' -> view k x = (Some s, Some f) ->
  view k' x = if expired (TICKS k) s then (Some Ready, Some (set_rax (wake_status s) f)) else (Some s, Some f).
Proof.
  intros Hk E. unfold wake_expired in E. destruct (wake_tasks _ _ _) as [[[ts fr] w]|] eqn:Ew; [|done].
  rewrite foldl_make_ready in E. injection E as <-.
  pose proof (saved_rsp_nodup _ _ _ (inv_tasks _ _ Hk) (kmem_stacks _ _ (inv_mem _ _ Hk))) as Hnd.
  destruct (wake_tasks_frames _ _ _ _ _ _ Hnd Ew) as (-> & _ & _ & Hfr).
  unfold view, state_of, regs_of, find_task. cbn [TASKS FRAMES set_READY set_FRAMES set_TASKS].
  rewrite find_map by apply woken_id.
  destruct (find (has_id x) (TASKS k)) as [t|] eqn:Hf; [|done]. simpl. intros [= <- Hr].
  apply find_task_id in Hf as [_ Hin]. specialize (Hfr t Hin). rewrite Hr in Hfr. simpl in Hfr. unfold woken.
  destruct (expired (TICKS k) (t_state t)); simpl; by rewrite Hfr.
Qed.
End timers.
