(* ===== verification/KernelTheorems.v ===== *)
(** * Functional theorems of the kernel (syscall.rs, sched.rs, task.rs)

    What the system calls deliver, stated over any state that satisfies the
    kernel invariant, with runs of the demo machine as witnesses. *)

From S2P Require Import Prelude RustStd Frame Caps Kernel Sched TaskOps Input Syscall ElfSafety MemLaws KernelInv KernelMem KernelSpawn KernelExit KernelIpc KernelSafety SimpleMem Boot CapSafety Reachable IpcSpec.

Section theorems.
  Context {S D : Type} `{ML : MemLaws S} `{DiskOps D} `{Uninit}.
  Implicit Types k : Kernel S D.

(** The clock is not part of the invariant. *)
Lemma kinv_ticks kc n k : kinv kc k -> kinv kc (set_TICKS n k).
Proof.
  intros [Ht Hi Hm Hc]. split; [|by apply (kipc_ext k)|done|done].
  by apply (ktasks_ext None (CURRENT k) k); [|split|..].
Qed.

(** C19. Rendezvous: a call on an endpoint with a waiting receiver hands the
    CPU directly to that receiver, whose registers now hold the status, the
    caller's id and the five message words; the caller is blocked on the reply
    and the endpoint records the pair. *)
Theorem ipc_rendezvous kc k tid t a0 a1 a2 a3 a4 a5 e ep w :
  kinv kc k -> CURRENT k = Some tid -> find_task tid k = Some t ->
  get_endpoint_cap tid a0 R_WRITE k = Ok e -> ENDPOINTS k !! Z.to_nat e = Some ep ->
  find (receives_on e) (TASKS k) = Some w ->
  exists f k',
    regs_of k (t_id w) = Some f /\
    ipc_call tid (t_saved_rsp t) a0 a1 a2 a3 a4 a5 k = Some (Resume (t_saved_rsp w), k') /\
    CURRENT k' = Some (t_id w) /\ state_of k' (t_id w) = Some Running /\
    regs_of k' (t_id w) = Some (set_request E_OK tid a1 a2 a3 a4 a5 f) /\
    state_of k' tid = Some (BlockedCall e) /\
    (forall x, x <> tid -> x <> t_id w -> state_of k' x = state_of k x) /\
    ENDPOINTS k' = <[Z.to_nat e :=
      {| pending_callers := pending_callers ep; active_caller := Some tid; active_server := Some (t_id w) |}]>
      (ENDPOINTS k).
Proof. intros. by eapply rendezvous_spec. Qed.

(** Callers are served in order: a receive on an idle endpoint takes the
    caller that has queued longest, returns its id and exactly the words it
    sent, and leaves the rest of the queue in order. *)
Theorem ipc_recv_fifo kc k tid t slot deadline e ep c msg rest :
  kinv kc k -> CURRENT k = Some tid -> find_task tid k = Some t ->
  get_endpoint_cap tid slot R_READ k = Ok e -> ENDPOINTS k !! Z.to_nat e = Some ep -> active_caller ep = None ->
  pending_callers ep = (c, msg) :: rest ->
  exists f k',
    regs_of k tid = Some f /\
    ipc_recv tid (t_saved_rsp t) slot deadline k = Some (Resume (t_saved_rsp t), k') /\
    regs_of k' tid = Some (set_request E_OK c (nth 0 msg 0) (nth 1 msg 0) (nth 2 msg 0) (nth 3 msg 0) (nth 4 msg 0) f) /\
    state_of k' c = Some (BlockedCall e) /\
    ENDPOINTS k' !! Z.to_nat e =
      Some {| pending_callers := rest; active_caller := Some c; active_server := Some tid |}.
Proof. intros. by eapply recv_spec. Qed.

(** A reply by the task that serves the call puts status and words in the
    registers of the caller, makes it ready at the head of the run queue and
    frees the endpoint; the server goes on. *)
Theorem ipc_reply_delivers kc k tid t a0 a1 a2 a3 a4 a5 e ep c :
  kinv kc k -> CURRENT k = Some tid -> find_task tid k = Some t ->
  get_endpoint_cap tid a0 R_WRITE k = Ok e -> ENDPOINTS k !! Z.to_nat e = Some ep ->
  active_server ep = Some tid -> active_caller ep = Some c ->
  exists f k',
    regs_of k c = Some f /\
    ipc_reply tid (t_saved_rsp t) a0 a1 a2 a3 a4 a5 k = Some (Resume (t_saved_rsp t), k') /\
    regs_of k' c = Some (set_reply E_OK a1 a2 a3 a4 a5 f) /\
    state_of k' c = Some Ready /\ READY k' = c :: READY k /\
    option_map rax (regs_of k' tid) = Some E_OK /\
    ENDPOINTS k' !! Z.to_nat e =
      Some {| pending_callers := pending_callers ep; active_caller := None; active_server := None |}.
Proof. intros. by eapply reply_spec. Qed.

(** C17. What the others observe when a task terminates, however it does: a
    parent waiting for it wakes with its id and exit code; a caller whose call
    it was serving wakes with "peer died"; every other living task keeps its
    state and its registers. *)
Theorem exit_observed kc k tid code me x s f :
  kinv kc k -> find_task tid k = Some me -> x <> tid -> view k x = (Some s, Some f) -> is_zombie s = false ->
  exists k', terminate_lifecycle tid code k = Some k' /\
    (t_parent me = Some x -> s = BlockedWait -> view k' x = (Some Ready, Some (set_rax_rdi_rsi E_OK tid code f))) /\
    (served_by k tid x -> view k' x = (Some Ready, Some (set_rax E_PEER_DIED f))) /\
    ((t_parent me <> Some x \/ s <> BlockedWait) -> ~ served_by k tid x -> view k' x = view k x).
Proof.
  intros [Ht Hi Hm Hc] Hme Hne Hv Hz. destruct (terminate_ok kc _ k tid code me Ht Hi Hm Hme) as (k' & E & _).
  exists k'. split; [done|]. rewrite (terminate_view kc _ k tid code me k' x s f Ht Hi Hm Hme E Hne Hv Hz).
  assert (Hserv : served_by k tid x <-> x ∈ stranded tid (ENDPOINTS k)).
  { rewrite elem_of_stranded. unfold served_by. naive_solver. }
  split; [intros Hp ->; by rewrite bool_decide_true|]. split.
  - intros Hsv. pose proof Hsv as (i & ep & Hep & Hcal & _). apply (ki_caller _ Hi _ _ _ Hep) in Hcal.
    injection Hv as Hs _. rewrite Hs in Hcal. injection Hcal as ->.
    rewrite bool_decide_false by naive_solver. simpl. by rewrite bool_decide_true by (by apply Hserv).
  - intros Hnw Hns. rewrite bool_decide_false by naive_solver. rewrite Hv. unfold failed, peer_died.
    destruct s; try done. rewrite bool_decide_false; [done|]. by rewrite <- Hserv.
Qed.

(** C39. A second receiver strands the first caller: a call that finds a
    receiver waiting takes the endpoint over even while another call is being
    served; the first caller stays blocked on a reply no task can send. *)
Theorem busy_endpoint_strands kc k tid t a0 a1 a2 a3 a4 a5 e ep w c0 :
  kinv kc k -> CURRENT k = Some tid -> find_task tid k = Some t ->
  get_endpoint_cap tid a0 R_WRITE k = Ok e -> ENDPOINTS k !! Z.to_nat e = Some ep ->
  find (receives_on e) (TASKS k) = Some w -> active_caller ep = Some c0 ->
  exists c k', ipc_call tid (t_saved_rsp t) a0 a1 a2 a3 a4 a5 k = Some (c, k') /\
    state_of k' c0 = Some (BlockedCall e) /\
    forall i ep', ENDPOINTS k' !! i = Some ep' -> active_caller ep' <> Some c0.
Proof.
  intros Hk Hc Hf Hcap Hep Hw Hac.
  destruct (rendezvous_spec kc k tid t Hk Hc Hf a0 a1 a2 a3 a4 a5 e ep w Hcap Hep Hw)
    as (f & k' & _ & E & _ & _ & _ & _ & Hoth & HE).
  destruct (endpoint_cap_in_range _ _ _ _ _ _ _ (inv_tasks _ _ Hk) Hcap) as (He & _).
  pose proof (ki_caller _ (inv_ipc _ _ Hk) _ _ _ Hep Hac) as Hst. rewrite Z2Nat.id in Hst by done.
  assert (Hct : c0 <> tid) by (intros ->; pose proof (cur_state kc k tid t Hk Hc Hf); congruence).
  assert (Hcw : c0 <> t_id w).
  { intros ->. apply find_In in Hw as [Hin Hr]. rewrite state_of_elem in Hst by (done || apply Hk).
    unfold receives_on in Hr. injection Hst as Hst. by rewrite Hst in Hr. }
  eexists _, k'. split; [exact E|]. rewrite Hoth by done. split; [done|]. rewrite HE. intros i ep1 Hi Hac1.
  destruct (decide (i = Z.to_nat e)) as [->|Hne].
  - rewrite list_lookup_insert_eq in Hi by (by eapply lookup_lt_Some). injection Hi as <-. simpl in Hac1. congruence.
  - rewrite list_lookup_insert_ne in Hi by done.
    pose proof (ki_caller _ (inv_ipc _ _ Hk) _ _ _ Hi Hac1) as Hst1. rewrite Hst in Hst1. injection Hst1 as ->. lia.
Qed.

(** Killing a child that has already exited is accepted, and replaces
    the exit code the parent has not yet collected by the kill code. *)
Theorem kill_overwrites_exit_code kc k tid t z zt code :
  kinv kc k -> CURRENT k = Some tid -> find_task tid k = Some t ->
  find_task z k = Some zt -> t_state zt = Zombie code -> t_parent zt = Some tid ->
  exists c k', sys_kill (t_saved_rsp t) tid z k = Some (c, k') /\ state_of k' z = Some (Zombie 0x200).
Proof.
  intros Hk Hc Hf Hz Hzs Hp. pose proof (cur_running kc k tid t Hk Hc Hf) as Hrun.
  destruct (kill_ok kc k tid t Hk Hc Hf z) as (c & k' & E & _). exists c, k'. split; [done|].
  unfold sys_kill in E. destruct (Z.eqb_spec z tid) as [->|Hne]; [congruence|].
  pose proof Hz as [Hid Hin]%find_task_id.
  replace (existsb _ (TASKS k)) with true in E.
  2:{ symmetry. apply existsb_exists. exists zt. split; [by apply list_elem_of_In|]. rewrite Hid, Z.eqb_refl.
      by rewrite bool_decide_true. }
  cbn [negb] in E. pose proof Hk as [Ht Hi Hm _]. rewrite (terminate_unfold _ k z 0x200 zt Ht Hz) in E.
  destruct (exit_unwound_ok kc _ k z 0x200 zt Ht Hi Hm Hz) as (k4 & E4 & _ & _ & _ & _ & Hself & _).
  rewrite E4, Hp, bool_decide_false in E by (unfold state_of; rewrite Hf; simpl; congruence).
  unfold return_with, write_frame in E. destruct (FRAMES k4 !! t_saved_rsp t); [|done]. injection E as _ <-.
  change (state_of k4 z = Some (Zombie 0x200)). unfold state_of. by rewrite Hself.
Qed.

(** The timer wakes exactly the tasks that are due: a sleeper with "ok",
    a receiver past its deadline with "timed out", both ready; every other task
    keeps its state and registers. *)
Theorem wake_exact kc k x s f :
  kinv kc k -> view k x = (Some s, Some f) ->
  exists k', wake_expired k = Some k' /\
    view k' x = if expired (TICKS k) s then (Some Ready, Some (set_rax (wake_status s) f)) else (Some s, Some f).
Proof.
  intros Hk Hv. destruct (wake_expired_ok kc k Hk) as (k' & E & _). exists k'. split; [done|].
  by apply (wake_expired_view kc k k').
Qed.

(** Waiting collects exactly the child's exit: with a zombie child, wait
    returns at once with "ok", the child's id and the code it exited with, and
    the child is gone from the task table. *)
Theorem wait_collects kc k tid t z flags :
  kinv kc k -> CURRENT k = Some tid -> find_task tid k = Some t -> zombie_child tid (TASKS k) = Some z ->
  exists code f k', state_of k z = Some (Zombie code) /\
    sys_wait tid (t_saved_rsp t) flags k = Some (Resume (t_saved_rsp t), k') /\
    regs_of k' tid = Some (set_rax_rdi_rsi E_OK z code f) /\ find_task z k' = None.
Proof.
  intros Hk Hc Hf Hz. destruct (reap_zombie_ok kc k tid t Hk Hc Hf z Hz) as (code & k1 & E & Hk1 & Hc1 & Hf1 & Hs).
  unfold sys_wait. rewrite Hz, E. cbn [default].
  destruct (write_frame_spec _ _ _ _ _ (set_rax_rdi_rsi E_OK z code) (inv_tasks _ _ Hk1) Hf1) as (f & Hfr & Hr & Hw).
  unfold return_with. unfold from_option, id. rewrite Hw. exists code, f. eexists. split; [done|]. split; [done|]. split.
  - rewrite (regs_of_write _ _ k1 tid t f (set_rax_rdi_rsi E_OK z code) _ _ (inv_tasks _ _ Hk1)), Z.eqb_refl
      by (done || by eapply kmem_stacks, Hk1). done.
  - change (find_task z k1 = None). unfold reap_zombie in E. destruct (find_task z k) as [u|] eqn:Hu; [|done].
    destruct (t_state u); try done. destruct (reclaim _ _) as [k2|] eqn:Er; [|done]. injection E as _ <-.
    apply reclaim_tasks in Er as [Er _]. simpl in Er. unfold find_task. rewrite Er.
    rewrite remove_first_task, find_remove_task, Z.eqb_refl by apply Hk. done.
Qed.
End theorems.

(** C18. ELF validation never reads out of bounds, whatever the bytes.  A plan
    it accepts keeps every segment inside user space and off page zero, reads
    only inside the file, never maps a page writable and executable and never
    overlaps two segments; its flag is up exactly when the entry point lies
    between [p_vaddr] and [p_vaddr + p_memsz] of an executable loadable
    program header.  The loader succeeds only with that flag: a loaded program
    starts at an address inside one of its executable segments. *)
Theorem elf_plan_safe {S} `{MemOps S} elf :
  image_ok elf ->
  exists r, elf_plan elf = Some r /\
    (forall entry segs exec, r = Some (entry, segs, exec) -> plan_ok elf (program_header elf) entry segs exec) /\
    (forall cr3 (m : S) entry pages m', load_elf cr3 elf m = Some (Some (entry, pages), m') ->
       exists segs, r = Some (entry, segs, true) /\ entry_covered elf (program_header elf) entry segs).
Proof.
  intros Him. destruct (elf_plan_spec elf Him) as (r & E & Hr). exists r. split; [done|]. split; [done|].
  intros cr3 m entry pages m' El. destruct (load_elf_entry _ _ _ _ _ _ El) as [segs E2]. rewrite E in E2. injection E2 as ->.
  exists segs. split; [done|]. by apply (po_entry _ _ _ _ _ (Hr _ _ _ eq_refl)).
Qed.

(** ** Witnesses: runs of the demo machine *)

Definition syscall_event (n a0 a1 a2 a3 : Z) : event := ESyscall (user_frame n a0 a1 a2 a3 0 0).
Definition spawn_event : event := syscall_event num.TASK_SPAWN 0x1000 152 (0x1000 + 120) 2.
Definition recv_event : event := syscall_event num.IPC_RECV 0 0 0 0.

(** initfs spawns three children sharing endpoint 1; the console sleeps; the
    first child is on the CPU. *)
Definition three_children : list event :=
  [yield_event; spawn_event; spawn_event; spawn_event; yield_event; syscall_event num.SLEEP 1000 0 0 0].

(** Two children wait for a request, the third is about to call. *)
Definition two_servers : Kernel SimpleMem RamDisk := demo_after (three_children ++ [recv_event; recv_event]).

Lemma two_servers_ok : kinv 4096 two_servers.
Proof. apply (reachable_kinv 4096 demo_boot boot_mem ∅), demo_after_reachable. vm_compute. reflexivity. Qed.

Definition the_endpoint (k : Kernel SimpleMem RamDisk) (e : nat) : EndpointState :=
  default {| pending_callers := []; active_caller := None; active_server := None |} (ENDPOINTS k !! e).
Definition the_task (k : Kernel SimpleMem RamDisk) (x : Z) : Task :=
  default (mkTask 0 [] Ready 0 0 0 [] None 0 0 0) (find_task x k).

Lemma ipc_rendezvous_witness :
  exists f k',
    regs_of two_servers 3 = Some f /\
    ipc_call 5 (t_saved_rsp (the_task two_servers 5)) 0 11 12 13 14 15 two_servers =
      Some (Resume (t_saved_rsp (the_task two_servers 3)), k') /\
    CURRENT k' = Some 3 /\ state_of k' 3 = Some Running /\
    regs_of k' 3 = Some (set_request E_OK 5 11 12 13 14 15 f) /\
    state_of k' 5 = Some (BlockedCall 1) /\
    (forall x, x <> 5 -> x <> 3 -> state_of k' x = state_of two_servers x) /\
    ENDPOINTS k' = <[1%nat := {| pending_callers := []; active_caller := Some 5; active_server := Some 3 |}]>
                     (ENDPOINTS two_servers).
Proof.
  apply (ipc_rendezvous 4096 two_servers 5 (the_task two_servers 5) 0 11 12 13 14 15 1 (the_endpoint two_servers 1)
           (the_task two_servers 3) two_servers_ok); vm_compute; reflexivity.
Defined.

(** The first child has called with no receiver, the second is about to receive. *)
Definition one_caller : Kernel SimpleMem RamDisk :=
  demo_after (three_children ++ [ESyscall (user_frame num.IPC_CALL 0 21 22 23 24 25)]).

Lemma ipc_recv_fifo_witness :
  exists f k',
    regs_of one_caller 4 = Some f /\
    ipc_recv 4 (t_saved_rsp (the_task one_caller 4)) 0 0 one_caller =
      Some (Resume (t_saved_rsp (the_task one_caller 4)), k') /\
    regs_of k' 4 = Some (set_request E_OK 3 21 22 23 24 25 f) /\
    state_of k' 3 = Some (BlockedCall 1) /\
    ENDPOINTS k' !! 1%nat = Some {| pending_callers := []; active_caller := Some 3; active_server := Some 4 |}.
Proof.
  assert (Hk : kinv 4096 one_caller).
  { apply (reachable_kinv 4096 demo_boot boot_mem ∅), demo_after_reachable. vm_compute. reflexivity. }
  apply (ipc_recv_fifo 4096 one_caller 4 (the_task one_caller 4) 0 0 1 (the_endpoint one_caller 1) 3
           [21; 22; 23; 24; 25; 0] [] Hk); vm_compute; reflexivity.
Defined.

(** The third child's call is being served by the first. *)
Definition serving : Kernel SimpleMem RamDisk :=
  demo_after (three_children ++ [recv_event; recv_event; ESyscall (user_frame num.IPC_CALL 0 11 12 13 14 15)]).

Lemma serving_ok : kinv 4096 serving.
Proof. apply (reachable_kinv 4096 demo_boot boot_mem ∅), demo_after_reachable. vm_compute. reflexivity. Qed.

Lemma ipc_reply_delivers_witness :
  exists f k',
    regs_of serving 5 = Some f /\
    ipc_reply 3 (t_saved_rsp (the_task serving 3)) 0 31 32 33 34 35 serving =
      Some (Resume (t_saved_rsp (the_task serving 3)), k') /\
    regs_of k' 5 = Some (set_reply E_OK 31 32 33 34 35 f) /\
    state_of k' 5 = Some Ready /\ READY k' = 5 :: READY serving /\
    option_map rax (regs_of k' 3) = Some E_OK /\
    ENDPOINTS k' !! 1%nat = Some {| pending_callers := []; active_caller := None; active_server := None |}.
Proof.
  apply (ipc_reply_delivers 4096 serving 3 (the_task serving 3) 0 31 32 33 34 35 1 (the_endpoint serving 1) 5 serving_ok);
    vm_compute; reflexivity.
Defined.

Definition the_regs (k : Kernel SimpleMem RamDisk) (x : Z) : TrapFrame :=
  default (new_user 0 0 0 0) (regs_of k x).

Lemma exit_observed_witness :
  exists k', terminate_lifecycle 3 7 serving = Some k' /\
    (Some 2 = Some 5 -> BlockedCall 1 = BlockedWait ->
       view k' 5 = (Some Ready, Some (set_rax_rdi_rsi E_OK 3 7 (the_regs serving 5)))) /\
    (served_by serving 3 5 -> view k' 5 = (Some Ready, Some (set_rax E_PEER_DIED (the_regs serving 5)))) /\
    ((Some 2 <> Some 5 \/ BlockedCall 1 <> BlockedWait) -> ~ served_by serving 3 5 -> view k' 5 = view serving 5).
Proof.
  apply (exit_observed 4096 serving 3 7 (the_task serving 3) 5 (BlockedCall 1) (the_regs serving 5) serving_ok);
    [vm_compute; reflexivity|lia|vm_compute; reflexivity|reflexivity].
Defined.

(** The server yields; initfs calls on the same endpoint. *)
Definition second_call : Kernel SimpleMem RamDisk :=
  demo_after (three_children ++
    [recv_event; recv_event; ESyscall (user_frame num.IPC_CALL 0 11 12 13 14 15); yield_event]).

Lemma busy_endpoint_strands_witness :
  exists c k', ipc_call 2 (t_saved_rsp (the_task second_call 2)) 1 0 0 0 0 0 second_call = Some (c, k') /\
    state_of k' 5 = Some (BlockedCall 1) /\
    forall i ep', ENDPOINTS k' !! i = Some ep' -> active_caller ep' <> Some 5.
Proof.
  assert (Hk : kinv 4096 second_call).
  { apply (reachable_kinv 4096 demo_boot boot_mem ∅), demo_after_reachable. vm_compute. reflexivity. }
  apply (busy_endpoint_strands 4096 second_call 2 (the_task second_call 2) 1 0 0 0 0 0 1 (the_endpoint second_call 1)
           (the_task second_call 4) 5 Hk); vm_compute; reflexivity.
Defined.

(** The first child has exited with code 9; its parent is on the CPU. *)
Definition child_exited : Kernel SimpleMem RamDisk :=
  demo_after (three_children ++ [exit_event 9; yield_event; yield_event]).

Lemma child_exited_ok : kinv 4096 child_exited.
Proof. apply (reachable_kinv 4096 demo_boot boot_mem ∅), demo_after_reachable. vm_compute. reflexivity. Qed.

Lemma kill_overwrites_exit_code_witness :
  exists c k', sys_kill (t_saved_rsp (the_task child_exited 2)) 2 3 child_exited = Some (c, k') /\
    state_of k' 3 = Some (Zombie 0x200).
Proof.
  apply (kill_overwrites_exit_code 4096 child_exited 2 (the_task child_exited 2) 3 (the_task child_exited 3) 9 child_exited_ok);
    vm_compute; reflexivity.
Defined.

Lemma wait_collects_witness :
  exists code f k', state_of child_exited 3 = Some (Zombie code) /\
    sys_wait 2 (t_saved_rsp (the_task child_exited 2)) 0 child_exited =
      Some (Resume (t_saved_rsp (the_task child_exited 2)), k') /\
    regs_of k' 2 = Some (set_rax_rdi_rsi E_OK 3 code f) /\ find_task 3 k' = None.
Proof.
  apply (wait_collects 4096 child_exited 2 (the_task child_exited 2) 3 0 child_exited_ok); vm_compute; reflexivity.
Defined.

Lemma wake_exact_witness :
  exists k', wake_expired (set_TICKS 1000 child_exited) = Some k' /\
    view k' 1 = (Some Ready, Some (set_rax E_OK (the_regs child_exited 1))).
Proof.
  assert (Hk : kinv 4096 (set_TICKS 1000 child_exited)).
  { apply kinv_ticks, child_exited_ok. }
  apply (wake_exact 4096 (set_TICKS 1000 child_exited) 1 (BlockedSleep 1000) (the_regs child_exited 1) Hk).
  vm_compute. reflexivity.
Defined.

(** A fresh address space, and the demo image loaded into it. *)
Definition fresh_space : option Z * SimpleMem :=
  match new_address_space 4096 boot_mem with Some r => r | None => (None, boot_mem) end.
Definition loaded_memory : SimpleMem :=
  match load_elf (default 0 (fst fresh_space)) demo_elf (snd fresh_space) with Some (_, m) => m | None => boot_mem end.

Lemma elf_plan_safe_witness : exists r, elf_plan demo_elf = Some r /\
  exists segs, r = Some (0x1040, segs, true) /\ plan_ok demo_elf (program_header demo_elf) 0x1040 segs true /\
    entry_covered demo_elf (program_header demo_elf) 0x1040 segs.
Proof.
  destruct (elf_plan_safe (S := SimpleMem) demo_elf demo_elf_ok) as (r & E & Hp & Hl). exists r. split; [exact E|].
  destruct (Hl (default 0 (fst fresh_space)) (snd fresh_space) 0x1040 1 loaded_memory) as (segs & Er & Hc); [vm_compute; reflexivity|].
  exists segs. split; [exact Er|]. split; [exact (Hp _ _ _ Er)|exact Hc].
Defined.
