(* ===== verification/HashStream.v ===== *)
(** * The buffered block hasher (crypto/src/sha256.rs, sha512.rs)

    [Sha256] and [Sha512] buffer their input alike; they differ in the block
    size, the width of the length field and the compression function, which
    are the parameters of this section.  The theorem is the one a caller relies
    on: however the message is cut into [update] calls, [finalize] returns the
    state of the padded message. *)

From S2P Require Import Prelude RustStd.

Record Hasher (St : Type) := mkHasher { h_state : St; h_buf : list Z; h_buf_len : nat; h_total_len : Z }.
Arguments mkHasher {St}.
Arguments h_state {St}.
Arguments h_buf {St}.
Arguments h_buf_len {St}.
Arguments h_total_len {St}.

Section stream.
  Context {St : Type} (BLOCK LEN : nat) (iv : St) (compress : St -> list Z -> St).

Definition hash_new : Hasher St := mkHasher iv (replicate BLOCK 0) 0 0.

(** The [while data.len() >= BLOCK] loop. *)
Fixpoint absorb_blocks (fuel : nat) (st : St) (data : list Z) : St * list Z :=
  match fuel with
  | O => (st, data)
  | S fuel =>
      if (BLOCK <=? length data)%nat
      then absorb_blocks fuel (compress st (take BLOCK data)) (drop BLOCK data)
      else (st, data)
  end.

(** The first branch: top the buffer up, compress it when full. *)
Definition top_up (h : Hasher St) (data : list Z) : Hasher St * list Z :=
  if (0 <? h_buf_len h)%nat then
    let n := Nat.min (BLOCK - h_buf_len h) (length data) in
    let buf := splice (h_buf_len h) (take n data) (h_buf h) in
    let buf_len := (h_buf_len h + n)%nat in
    let data := drop n data in
    if (buf_len =? BLOCK)%nat
    then (mkHasher (compress (h_state h) buf) buf 0 (h_total_len h), data)
    else (mkHasher (h_state h) buf buf_len (h_total_len h), data)
  else (h, data).

Definition absorb (h : Hasher St) (data : list Z) : Hasher St :=
  let '(h, data) := top_up h data in
  let '(st, rest) := absorb_blocks (length data) (h_state h) data in
  match rest with
  | [] => mkHasher st (h_buf h) (h_buf_len h) (h_total_len h)
  | _ => mkHasher st (splice 0 rest (h_buf h)) (length rest) (h_total_len h)
  end.

Definition hash_update (h : Hasher St) (data : list Z) : Hasher St :=
  absorb (mkHasher (h_state h) (h_buf h) (h_buf_len h) (add64 (h_total_len h) (Z.of_nat (length data)))) data.

(** The [while self.buf_len != BLOCK - LEN] loop; [None] is a loop that has not
    ended within [fuel]. *)
Fixpoint pad_zeros (fuel : nat) (h : Hasher St) : option (Hasher St) :=
  if (h_buf_len h =? BLOCK - LEN)%nat then Some h
  else match fuel with
       | O => None
       | S fuel => pad_zeros fuel (absorb h [0])
       end.

(** The state of [finalize] before it is serialized; the bit length is a
    64-bit number, left-padded to [LEN] bytes. *)
Definition hash_finalize (h : Hasher St) : option St :=
  let bit_len := wrap 64 (h_total_len h * 8) in
  let? h := pad_zeros BLOCK (absorb h [0x80]) in
  Some (h_state (absorb h (replicate (LEN - 8) 0 ++ to_be_bytes 8 bit_len))).

(** ** Reference: Merkle-Damgard over the padded message *)

Definition zero_count (n : nat) : nat :=
  let r := ((n + 1) mod BLOCK)%nat in
  if (r <=? BLOCK - LEN)%nat then (BLOCK - LEN - r)%nat else (BLOCK - LEN + BLOCK - r)%nat.

Definition padded (msg : list Z) : list Z :=
  msg ++ [0x80] ++ replicate (zero_count (length msg)) 0 ++
  replicate (LEN - 8) 0 ++ to_be_bytes 8 (wrap 64 (Z.of_nat (length msg) * 8)).

Definition md_state (st : St) (msg : list Z) : St := foldl compress st (chunks BLOCK msg).

(** ** Correctness of the buffering *)

  Hypothesis HB : (0 < BLOCK)%nat.

Lemma md_state_app k m1 m2 st :
  length m1 = (k * BLOCK)%nat -> md_state st (m1 ++ m2) = md_state (md_state st m1) m2.
Proof. intros Hl. unfold md_state. rewrite (chunks_app BLOCK m1 m2 k) by done. apply foldl_app. Qed.

Lemma md_state_block st b : length b = BLOCK -> md_state st b = compress st b.
Proof.
  intros Hb. unfold md_state. rewrite chunks_small; [done|done| |lia]. intros ->. simpl in Hb. lia.
Qed.

(** [h] has absorbed [msg]: whole blocks compressed, the rest buffered. *)
Record absorbed (h : Hasher St) (msg : list Z) : Prop := {
  ab_buf : length (h_buf h) = BLOCK;
  ab_len : (h_buf_len h < BLOCK)%nat;
  ab_msg : exists k full, length full = (k * BLOCK)%nat /\ msg = full ++ take (h_buf_len h) (h_buf h) /\
             h_state h = md_state iv full;
}.

Lemma absorbed_new : absorbed hash_new [].
Proof.
  split; simpl; [by rewrite length_replicate|done|]. exists 0%nat, []. by rewrite take_0.
Qed.

Lemma absorbed_mod h msg : absorbed h msg -> (length msg mod BLOCK)%nat = h_buf_len h.
Proof.
  intros [Hb Hl (k & full & Hf & -> & _)]. rewrite length_app, length_take, Hb, Hf, Nat.min_l by lia.
  rewrite Nat.add_comm, Nat.Div0.mod_add. by apply Nat.mod_small.
Qed.

Lemma absorbed_total h msg t :
  absorbed h msg -> absorbed (mkHasher (h_state h) (h_buf h) (h_buf_len h) t) msg.
Proof. intros []. by split. Qed.

Lemma absorb_blocks_spec fuel : forall st data st' rest,
  (length data <= fuel)%nat -> absorb_blocks fuel st data = (st', rest) ->
  (length rest < BLOCK)%nat /\
  exists k full, length full = (k * BLOCK)%nat /\ data = full ++ rest /\ st' = md_state st full.
Proof.
  induction fuel as [|fuel IH]; intros st data st' rest Hf; cbn [absorb_blocks].
  - intros [= <- <-]. split; [lia|]. by exists 0%nat, [].
  - destruct (Nat.leb_spec BLOCK (length data)) as [Hle|Hlt]; intros E.
    + destruct (IH _ (drop BLOCK data) _ _ ltac:(rewrite length_drop; lia) E) as (Hr & k & full & Hk & Hd & ->). split; [done|].
      assert (Ht : length (take BLOCK data) = BLOCK) by (rewrite length_take; lia).
      exists (S k), (take BLOCK data ++ full). rewrite length_app, Ht, Hk. split; [lia|].
      rewrite <- app_assoc, <- Hd, take_drop. split; [done|].
      rewrite (md_state_app 1) by lia. by rewrite (md_state_block st (take BLOCK data)).
    + injection E as <- <-. split; [done|]. by exists 0%nat, [].
Qed.

Lemma take_splice_grow (n : nat) (src buf : list Z) :
  (n + length src <= length buf)%nat -> take (n + length src) (splice n src buf) = take n buf ++ src.
Proof.
  intros Hl. unfold splice. rewrite app_assoc.
  assert (E : (n + length src)%nat = length (take n buf ++ src)) by (rewrite length_app, length_take; lia).
  rewrite E at 1. apply take_app_length.
Qed.

Lemma top_up_spec h msg data h1 rest :
  absorbed h msg -> top_up h data = (h1, rest) ->
  exists used, data = used ++ rest /\ absorbed h1 (msg ++ used) /\ (h_buf_len h1 = 0%nat \/ rest = []).
Proof.
  intros Hab. pose proof Hab as [Hb Hl (k & full & Hf & Hm & Hst)]. unfold top_up.
  destruct (Nat.ltb_spec 0 (h_buf_len h)) as [Hp|Hz]; cbv zeta.
  2:{ intros [= <- <-]. exists []. rewrite app_nil_r. split; [done|]. split; [done|]. left. lia. }
  set (n := Nat.min _ _). assert (Hn : length (take n data) = n) by (rewrite length_take; lia).
  assert (Hsp : take (h_buf_len h + n) (splice (h_buf_len h) (take n data) (h_buf h)) =
                take (h_buf_len h) (h_buf h) ++ take n data).
  { rewrite <- Hn at 1. apply take_splice_grow. lia. }
  assert (Hlen : length (splice (h_buf_len h) (take n data) (h_buf h)) = BLOCK) by (rewrite length_splice; lia).
  destruct (Nat.eqb_spec (h_buf_len h + n) BLOCK) as [He|Hne]; intros [= <- <-]; exists (take n data);
    rewrite take_drop; (split; [done|]).
  - split; [|by left]. split; simpl; [done|done|]. rewrite He, take_ge in Hsp by lia.
    exists (k + 1)%nat, (full ++ splice (h_buf_len h) (take n data) (h_buf h)). rewrite length_app, Hf, Hlen.
    split; [lia|]. rewrite take_0, app_nil_r, Hsp, Hm, <- !app_assoc. split; [done|].
    rewrite (md_state_app k) by done. rewrite <- Hsp, md_state_block, Hst by done. done.
  - split; [|right; apply drop_ge; lia]. split; simpl; [done|lia|]. exists k, full.
    rewrite Hsp, Hm, <- app_assoc. done.
Qed.

Lemma absorb_spec h msg data : absorbed h msg -> absorbed (absorb h data) (msg ++ data).
Proof.
  intros Hab. unfold absorb. destruct (top_up h data) as [h1 rest] eqn:E1.
  destruct (top_up_spec _ _ _ _ _ Hab E1) as (used & -> & Hab1 & Hz). clear E1 Hab.
  destruct (absorb_blocks _ _ _) as [st r] eqn:E2.
  destruct (absorb_blocks_spec _ _ _ _ _ (le_n _) E2) as (Hr & k & full & Hk & -> & ->).
  rewrite (app_assoc msg). destruct Hab1 as [Hb Hl (j & whole & Hj & Hm & Hst)]. rewrite Hst in *.
  destruct r as [|x r].
  - rewrite app_nil_r. split; simpl; [done|done|]. destruct Hz as [Hz|Hz].
    + rewrite Hz, take_0, app_nil_r in *. exists (j + k)%nat, (whole ++ full). rewrite length_app.
      rewrite (md_state_app j), Hm by done. split; [lia|]. by rewrite app_nil_r.
    + apply app_eq_nil in Hz as [-> _]. exists j, whole. by rewrite Hm, app_nil_r.
  - destruct Hz as [Hz|Hz]; [|by apply app_eq_nil in Hz as [_ ?]].
    rewrite Hz, take_0, app_nil_r in Hm. split; cbn [h_buf h_buf_len h_state].
    + rewrite length_splice by lia. done.
    + done.
    + exists (j + k)%nat, (whole ++ full). rewrite length_app. split; [lia|].
      pose proof (take_splice_grow 0 (x :: r) (h_buf h1) ltac:(lia)) as Hts. rewrite Nat.add_0_l in Hts. rewrite Hts.
      rewrite take_0, Hm, (md_state_app j), <- app_assoc by done. done.
Qed.

Lemma absorb_total h data : h_total_len (absorb h data) = h_total_len h.
Proof.
  unfold absorb, top_up. destruct (0 <? h_buf_len h)%nat; cbv zeta; [destruct (_ =? _)%nat|];
    destruct (absorb_blocks _ _ _) as [st [|x r]]; done.
Qed.

Lemma updates_absorbed pieces : forall h msg,
  absorbed h msg -> absorbed (foldl hash_update h pieces) (msg ++ concat pieces).
Proof.
  induction pieces as [|p pieces IH]; intros h msg Hab; simpl; [by rewrite app_nil_r|].
  rewrite app_assoc. apply IH. unfold hash_update. by apply absorb_spec, absorbed_total.
Qed.

Lemma updates_total pieces : forall h,
  wrap 64 (h_total_len (foldl hash_update h pieces)) = wrap 64 (h_total_len h + Z.of_nat (length (concat pieces))).
Proof.
  induction pieces as [|p pieces IH]; intros h; simpl; [by rewrite Z.add_0_r|].
  rewrite IH. unfold hash_update. rewrite absorb_total. simpl. unfold add64, wrap.
  rewrite Zplus_mod_idemp_l, length_app. f_equal. lia.
Qed.

  Hypothesis HL : (8 <= LEN)%nat.
  Hypothesis HLB : (LEN < BLOCK)%nat.

(** One more zero, until the length field fits exactly. *)
Lemma pad_zeros_spec n : forall h msg,
  absorbed h msg -> ((length msg + n) mod BLOCK = BLOCK - LEN)%nat ->
  (forall m, (m < n)%nat -> ((length msg + m) mod BLOCK <> BLOCK - LEN)%nat) ->
  forall fuel, (n <= fuel)%nat ->
  exists h', pad_zeros fuel h = Some h' /\ absorbed h' (msg ++ replicate n 0) /\ h_total_len h' = h_total_len h.
Proof.
  induction n as [|n IH]; intros h msg Hab Hn Hmin fuel Hfuel.
  - rewrite Nat.add_0_r, (absorbed_mod _ _ Hab) in Hn. exists h. rewrite app_nil_r.
    destruct fuel; cbn [pad_zeros]; by rewrite Hn, Nat.eqb_refl.
  - destruct fuel as [|fuel]; [lia|]. cbn [pad_zeros].
    specialize (Hmin 0%nat ltac:(lia)) as H0. rewrite Nat.add_0_r, (absorbed_mod _ _ Hab) in H0.
    rewrite (proj2 (Nat.eqb_neq _ _)) by done.
    destruct (IH (absorb h [0]) (msg ++ [0])) with (fuel := fuel) as (h' & -> & Hab' & Ht); try lia.
    + by apply absorb_spec.
    + rewrite length_app. simpl. by rewrite <- Nat.add_assoc.
    + intros m Hm. rewrite length_app. simpl. rewrite <- Nat.add_assoc. apply Hmin. lia.
    + exists h'. split; [done|]. rewrite <- app_assoc in Hab'. split; [done|]. by rewrite Ht, absorb_total.
Qed.

(** The padding reaches the length field after [zero_count] zeros, and not
    before. *)
Lemma zero_count_spec n :
  ((n + 1 + zero_count n) mod BLOCK = BLOCK - LEN)%nat /\ (zero_count n < BLOCK)%nat /\
  forall m, (m < zero_count n)%nat -> ((n + 1 + m) mod BLOCK <> BLOCK - LEN)%nat.
Proof.
  unfold zero_count. pose proof (Nat.mod_upper_bound (n + 1) BLOCK ltac:(lia)) as Hr.
  assert (Hmod : forall m, ((n + 1 + m) mod BLOCK)%nat = (((n + 1) mod BLOCK + m) mod BLOCK)%nat).
  { intros m. by rewrite Nat.Div0.add_mod_idemp_l. }
  set (r := ((n + 1) mod BLOCK)%nat) in *.
  assert (Hhi : forall x, (BLOCK <= x < 2 * BLOCK)%nat -> (x mod BLOCK = x - BLOCK)%nat).
  { intros x Hx. replace x with ((x - BLOCK) + 1 * BLOCK)%nat at 1 by lia.
    rewrite Nat.Div0.mod_add. apply Nat.mod_small. lia. }
  destruct (Nat.leb_spec r (BLOCK - LEN)).
  - split; [|split]; [|lia|].
    + rewrite Hmod. replace (r + _)%nat with (BLOCK - LEN)%nat by lia. apply Nat.mod_small. lia.
    + intros m Hm. rewrite Hmod, Nat.mod_small by lia. lia.
  - split; [|split]; [|lia|].
    + rewrite Hmod, Hhi by lia. lia.
    + intros m Hm. rewrite Hmod. destruct (decide (r + m < BLOCK)%nat).
      * rewrite Nat.mod_small by lia. lia.
      * rewrite Hhi by lia. lia.
Qed.

(** The two loops terminate and the result depends on the message alone. *)
Lemma finalize_spec h msg :
  absorbed h msg -> wrap 64 (h_total_len h) = wrap 64 (Z.of_nat (length msg)) ->
  hash_finalize h = Some (md_state iv (padded msg)).
Proof.
  intros Hab Ht. unfold hash_finalize. destruct (zero_count_spec (length msg)) as (Hz & Hlt & Hmin).
  destruct (pad_zeros_spec (zero_count (length msg)) (absorb h [0x80]) (msg ++ [0x80])) with (fuel := BLOCK)
    as (h2 & -> & Hab2 & Ht2);
    [by apply absorb_spec|by rewrite length_app|intros m Hm; rewrite length_app; by apply Hmin|lia|].
  f_equal. set (len := replicate (LEN - 8) 0 ++ _).
  assert (Hlen : length len = LEN).
  { unfold len. rewrite length_app, length_replicate, length_to_be_bytes. lia. }
  pose proof (absorb_spec _ _ len Hab2) as Hab3.
  assert (Hl3 : (length ((msg ++ [0x80%Z]) ++ replicate (zero_count (length msg)) 0%Z) mod BLOCK)%nat = (BLOCK - LEN)%nat).
  { rewrite !length_app, length_replicate. exact Hz. }
  destruct Hab3 as [Hb3 Hlt3 (k & full & Hk & Hm3 & Hst3)]. rewrite Hst3. f_equal.
  assert (H0 : h_buf_len (absorb h2 len) = 0%nat).
  { rewrite <- (absorbed_mod _ _ (absorb_spec _ _ len Hab2)), length_app, Hlen, Nat.Div0.add_mod, Hl3.
    rewrite (Nat.mod_small LEN) by lia. replace (BLOCK - LEN + LEN)%nat with (1 * BLOCK)%nat by lia.
    apply Nat.Div0.mod_mul. }
  rewrite H0, take_0, app_nil_r in Hm3. rewrite <- Hm3. unfold padded, len. rewrite <- !app_assoc.
  do 4 f_equal. f_equal. unfold wrap in *. rewrite (Z.mul_mod (h_total_len h)), Ht, <- Z.mul_mod by lia. done.
Qed.

Lemma stream_spec pieces :
  hash_finalize (foldl hash_update hash_new pieces) = Some (md_state iv (padded (concat pieces))).
Proof.
  apply finalize_spec.
  - apply (updates_absorbed pieces hash_new []), absorbed_new.
  - by rewrite updates_total.
Qed.
End stream.
