(* ===== verification/Sha256.v ===== *)
(** * SHA-256 (crypto/src/sha256.rs)

    The message schedule, the round function and the digest, over the shared
    block buffering; the FIPS 180-4 vectors of the source's tests evaluate. *)

From S2P Require Import Prelude RustStd HashStream.

Module Sha256.

(** The round constants, in the rows of the source. *)
Definition K : list Z :=
  concat
    [
      [0x428a2f98; 0x71374491; 0xb5c0fbcf; 0xe9b5dba5; 0x3956c25b; 0x59f111f1; 0x923f82a4; 0xab1c5ed5];
      [0xd807aa98; 0x12835b01; 0x243185be; 0x550c7dc3; 0x72be5d74; 0x80deb1fe; 0x9bdc06a7; 0xc19bf174];
      [0xe49b69c1; 0xefbe4786; 0x0fc19dc6; 0x240ca1cc; 0x2de92c6f; 0x4a7484aa; 0x5cb0a9dc; 0x76f988da];
      [0x983e5152; 0xa831c66d; 0xb00327c8; 0xbf597fc7; 0xc6e00bf3; 0xd5a79147; 0x06ca6351; 0x14292967];
      [0x27b70a85; 0x2e1b2138; 0x4d2c6dfc; 0x53380d13; 0x650a7354; 0x766a0abb; 0x81c2c92e; 0x92722c85];
      [0xa2bfe8a1; 0xa81a664b; 0xc24b8b70; 0xc76c51a3; 0xd192e819; 0xd6990624; 0xf40e3585; 0x106aa070];
      [0x19a4c116; 0x1e376c08; 0x2748774c; 0x34b0bcb5; 0x391c0cb3; 0x4ed8aa4a; 0x5b9cca4f; 0x682e6ff3];
      [0x748f82ee; 0x78a5636f; 0x84c87814; 0x8cc70208; 0x90befffa; 0xa4506ceb; 0xbef9a3f7; 0xc67178f2] ].

Definition IV : list Z :=
  [ 0x6a09e667; 0xbb67ae85; 0x3c6ef372; 0xa54ff53a;
    0x510e527f; 0x9b05688c; 0x1f83d9ab; 0x5be0cd19 ].

Definition BLOCK : nat := 64.
Definition DIGEST_LEN : nat := 32.

Definition message_words (block : list Z) : list Z :=
  (fun i => from_be_bytes (slice (4 * i) 4 block)) <$> seq 0 16.

(** [w[i]] for [i >= 16], from the words before it. *)
Definition schedule_step (w : list Z) (i : nat) : list Z :=
  let at_ j := nth (i - j) w 0 in
  let s0 := Z.lxor (Z.lxor (rotate_right 32 7 (at_ 15%nat)) (rotate_right 32 18 (at_ 15%nat))) (Z.shiftr (at_ 15%nat) 3) in
  let s1 := Z.lxor (Z.lxor (rotate_right 32 17 (at_ 2%nat)) (rotate_right 32 19 (at_ 2%nat))) (Z.shiftr (at_ 2%nat) 10) in
  w ++ [add32 (add32 (add32 (at_ 16%nat) s0) (at_ 7%nat)) s1].

Definition schedule (block : list Z) : list Z :=
  foldl schedule_step (message_words block) (seq 16 48).

Definition round (w : list Z) (s : list Z) (i : nat) : list Z :=
  match s with
  | [a; b; c; d; e; f; g; h] =>
      let s1 := Z.lxor (Z.lxor (rotate_right 32 6 e) (rotate_right 32 11 e)) (rotate_right 32 25 e) in
      let ch := Z.lxor (Z.land e f) (Z.land (bit_not 32 e) g) in
      let t1 := add32 (add32 (add32 (add32 h s1) ch) (nth i K 0)) (nth i w 0) in
      let s0 := Z.lxor (Z.lxor (rotate_right 32 2 a) (rotate_right 32 13 a)) (rotate_right 32 22 a) in
      let maj := Z.lxor (Z.lxor (Z.land a b) (Z.land a c)) (Z.land b c) in
      let t2 := add32 s0 maj in
      [add32 t1 t2; a; b; c; add32 d t1; e; f; g]
  | _ => s
  end.

Definition compress (state block : list Z) : list Z :=
  zip_with add32 state (foldl (round (schedule block)) state (seq 0 64)).

Definition new : Hasher (list Z) := hash_new BLOCK IV.
Definition update : Hasher (list Z) -> list Z -> Hasher (list Z) := hash_update BLOCK compress.
Definition serialize (state : list Z) : list Z := concat (to_be_bytes 4 <$> state).
Definition finalize (h : Hasher (list Z)) : option (list Z) :=
  let? state := hash_finalize BLOCK 8 compress h in Some (serialize state).

Definition sha256 (data : list Z) : list Z := default [] (finalize (update new data)).

(** The digest as a function of the whole message. *)
Definition reference (msg : list Z) : list Z := serialize (md_state BLOCK compress IV (padded BLOCK 8 msg)).

Lemma sha256_finalize_updates pieces : finalize (foldl update new pieces) = Some (reference (concat pieces)).
Proof. unfold finalize, update, new, reference. by rewrite stream_spec by (unfold BLOCK; lia). Qed.

Lemma sha256_reference msg : sha256 msg = reference msg.
Proof. unfold sha256. pose proof (sha256_finalize_updates [msg]) as E. simpl in E. by rewrite E, app_nil_r. Qed.

(** ** Shape of the state and of the digest *)

Lemma sha256_length_compress st b : length st = 8%nat -> length (compress st b) = 8%nat.
Proof.
  intros Hl. unfold compress. rewrite length_zip_with.
  assert (Hr : forall w l s, length s = 8%nat -> length (foldl (round w) s l) = 8%nat).
  { intros w l. induction l as [|i l IH]; intros s Hs; [done|]. simpl. apply IH.
    destruct s as [|a [|b1 [|c [|d [|e [|f [|g [|h [|]]]]]]]]]; done. }
  rewrite Hr by done. lia.
Qed.

Lemma sha256_length_md msg : forall st, length st = 8%nat -> length (md_state BLOCK compress st msg) = 8%nat.
Proof.
  intros st. unfold md_state. revert st. induction (chunks BLOCK msg) as [|b bs IH]; intros st Hs; [done|].
  simpl. by apply IH, sha256_length_compress.
Qed.

Lemma sha256_serialize_ok st : length st = 8%nat -> length (serialize st) = DIGEST_LEN /\ bytes_ok (serialize st).
Proof.
  intros Hl. unfold serialize. split.
  - destruct st as [|a [|b [|c [|d [|e [|f [|g [|h [|]]]]]]]]]; try done.
  - clear Hl. induction st as [|x st IH]; [constructor|]. rewrite fmap_cons. cbn [concat]. apply Forall_app. split; [|done].
    unfold to_be_bytes. apply Forall_rev, to_le_bytes_ok.
Qed.

Lemma sha256_digest_ok msg : length (sha256 msg) = DIGEST_LEN /\ bytes_ok (sha256 msg).
Proof. rewrite sha256_reference. apply sha256_serialize_ok, sha256_length_md. done. Qed.
End Sha256.

(** The bytes of a hexadecimal literal. *)
Definition hex_digit (b : Z) : Z := if is_ascii_digit b then b - 48 else b - 87.
Definition hex (s : string) : list Z :=
  (fun c => match c with [hi; lo] => 16 * hex_digit hi + hex_digit lo | _ => 0 end) <$> chunks 2 (str s).

Example sha256_empty :
  Sha256.sha256 [] = hex "e3b0c44298fc1c149afbf4c8996fb92427ae41e4649b934ca495991b7852b855".
Proof. vm_compute. reflexivity. Qed.

Example sha256_two_blocks :
  Sha256.sha256 (str "abcdbcdecdefdefgefghfghighijhijkijkljklmklmnlmnomnopnopq") =
    hex "248d6a61d20638b8e5c026930c3e6039a33ce45964ff2167f6ecedd419db06c1".
Proof. vm_compute. reflexivity. Qed.
