(* ===== verification/Sha512.v ===== *)
(** * SHA-512 (crypto/src/sha512.rs)

    The message schedule, the round function and the digest, over the shared
    block buffering; the FIPS 180-4 vectors of the source's tests evaluate. *)

From S2P Require Import Prelude RustStd HashStream Sha256.

Module Sha512.

Definition K : list Z :=
  [
    0x428a2f98d728ae22; 0x7137449123ef65cd; 0xb5c0fbcfec4d3b2f; 0xe9b5dba58189dbbc;
    0x3956c25bf348b538; 0x59f111f1b605d019; 0x923f82a4af194f9b; 0xab1c5ed5da6d8118;
    0xd807aa98a3030242; 0x12835b0145706fbe; 0x243185be4ee4b28c; 0x550c7dc3d5ffb4e2;
    0x72be5d74f27b896f; 0x80deb1fe3b1696b1; 0x9bdc06a725c71235; 0xc19bf174cf692694;
    0xe49b69c19ef14ad2; 0xefbe4786384f25e3; 0x0fc19dc68b8cd5b5; 0x240ca1cc77ac9c65;
    0x2de92c6f592b0275; 0x4a7484aa6ea6e483; 0x5cb0a9dcbd41fbd4; 0x76f988da831153b5;
    0x983e5152ee66dfab; 0xa831c66d2db43210; 0xb00327c898fb213f; 0xbf597fc7beef0ee4;
    0xc6e00bf33da88fc2; 0xd5a79147930aa725; 0x06ca6351e003826f; 0x142929670a0e6e70;
    0x27b70a8546d22ffc; 0x2e1b21385c26c926; 0x4d2c6dfc5ac42aed; 0x53380d139d95b3df;
    0x650a73548baf63de; 0x766a0abb3c77b2a8; 0x81c2c92e47edaee6; 0x92722c851482353b;
    0xa2bfe8a14cf10364; 0xa81a664bbc423001; 0xc24b8b70d0f89791; 0xc76c51a30654be30;
    0xd192e819d6ef5218; 0xd69906245565a910; 0xf40e35855771202a; 0x106aa07032bbd1b8;
    0x19a4c116b8d2d0c8; 0x1e376c085141ab53; 0x2748774cdf8eeb99; 0x34b0bcb5e19b48a8;
    0x391c0cb3c5c95a63; 0x4ed8aa4ae3418acb; 0x5b9cca4f7763e373; 0x682e6ff3d6b2b8a3;
    0x748f82ee5defb2fc; 0x78a5636f43172f60; 0x84c87814a1f0ab72; 0x8cc702081a6439ec;
    0x90befffa23631e28; 0xa4506cebde82bde9; 0xbef9a3f7b2c67915; 0xc67178f2e372532b;
    0xca273eceea26619c; 0xd186b8c721c0c207; 0xeada7dd6cde0eb1e; 0xf57d4f7fee6ed178;
    0x06f067aa72176fba; 0x0a637dc5a2c898a6; 0x113f9804bef90dae; 0x1b710b35131c471b;
    0x28db77f523047d84; 0x32caab7b40c72493; 0x3c9ebe0a15c9bebc; 0x431d67c49c100d4c;
    0x4cc5d4becb3e42b6; 0x597f299cfc657e2a; 0x5fcb6fab3ad6faec; 0x6c44198c4a475817 ].

Definition IV : list Z :=
  [ 0x6a09e667f3bcc908; 0xbb67ae8584caa73b; 0x3c6ef372fe94f82b; 0xa54ff53a5f1d36f1;
    0x510e527fade682d1; 0x9b05688c2b3e6c1f; 0x1f83d9abfb41bd6b; 0x5be0cd19137e2179 ].

Definition BLOCK : nat := 128.
Definition DIGEST_LEN : nat := 64.

Definition message_words (block : list Z) : list Z :=
  (fun i => from_be_bytes (slice (8 * i) 8 block)) <$> seq 0 16.

(** [w[i]] for [i >= 16], from the words before it. *)
Definition schedule_step (w : list Z) (i : nat) : list Z :=
  let at_ j := nth (i - j) w 0 in
  let s0 := Z.lxor (Z.lxor (rotate_right 64 1 (at_ 15%nat)) (rotate_right 64 8 (at_ 15%nat))) (Z.shiftr (at_ 15%nat) 7) in
  let s1 := Z.lxor (Z.lxor (rotate_right 64 19 (at_ 2%nat)) (rotate_right 64 61 (at_ 2%nat))) (Z.shiftr (at_ 2%nat) 6) in
  w ++ [add64 (add64 (add64 (at_ 16%nat) s0) (at_ 7%nat)) s1].

Definition schedule (block : list Z) : list Z :=
  foldl schedule_step (message_words block) (seq 16 64).

Definition round (w : list Z) (s : list Z) (i : nat) : list Z :=
  match s with
  | [a; b; c; d; e; f; g; h] =>
      let s1 := Z.lxor (Z.lxor (rotate_right 64 14 e) (rotate_right 64 18 e)) (rotate_right 64 41 e) in
      let ch := Z.lxor (Z.land e f) (Z.land (bit_not 64 e) g) in
      let t1 := add64 (add64 (add64 (add64 h s1) ch) (nth i K 0)) (nth i w 0) in
      let s0 := Z.lxor (Z.lxor (rotate_right 64 28 a) (rotate_right 64 34 a)) (rotate_right 64 39 a) in
      let maj := Z.lxor (Z.lxor (Z.land a b) (Z.land a c)) (Z.land b c) in
      let t2 := add64 s0 maj in
      [add64 t1 t2; a; b; c; add64 d t1; e; f; g]
  | _ => s
  end.

Definition compress (state block : list Z) : list Z :=
  zip_with add64 state (foldl (round (schedule block)) state (seq 0 80)).

Definition new : Hasher (list Z) := hash_new BLOCK IV.
Definition update : Hasher (list Z) -> list Z -> Hasher (list Z) := hash_update BLOCK compress.
Definition serialize (state : list Z) : list Z := concat (to_be_bytes 8 <$> state).
Definition finalize (h : Hasher (list Z)) : option (list Z) :=
  let? state := hash_finalize BLOCK 16 compress h in Some (serialize state).

Definition sha512 (data : list Z) : list Z := default [] (finalize (update new data)).

(** The digest as a function of the whole message. *)
Definition reference (msg : list Z) : list Z := serialize (md_state BLOCK compress IV (padded BLOCK 16 msg)).

Lemma sha512_finalize_updates pieces : finalize (foldl update new pieces) = Some (reference (concat pieces)).
Proof. unfold finalize, update, new, reference. by rewrite stream_spec by (unfold BLOCK; lia). Qed.

Lemma sha512_reference msg : sha512 msg = reference msg.
Proof. unfold sha512. pose proof (sha512_finalize_updates [msg]) as E. simpl in E. by rewrite E, app_nil_r. Qed.

(** ** Shape of the state and of the digest *)

Lemma sha512_length_compress st b : length st = 8%nat -> length (compress st b) = 8%nat.
Proof.
  intros Hl. unfold compress. rewrite length_zip_with.
  assert (Hr : forall w l s, length s = 8%nat -> length (foldl (round w) s l) = 8%nat).
  { intros w l. induction l as [|i l IH]; intros s Hs; [done|]. simpl. apply IH.
    destruct s as [|a [|b1 [|c [|d [|e [|f [|g [|h [|]]]]]]]]]; done. }
  rewrite Hr by done. lia.
Qed.

Lemma sha512_length_md msg : forall st, length st = 8%nat -> length (md_state BLOCK compress st msg) = 8%nat.
Proof.
  intros st. unfold md_state. revert st. induction (chunks BLOCK msg) as [|b bs IH]; intros st Hs; [done|].
  simpl. by apply IH, sha512_length_compress.
Qed.

Lemma sha512_serialize_ok st : length st = 8%nat -> length (serialize st) = DIGEST_LEN /\ bytes_ok (serialize st).
Proof.
  intros Hl. unfold serialize. split.
  - destruct st as [|a [|b [|c [|d [|e [|f [|g [|h [|]]]]]]]]]; try done.
  - clear Hl. induction st as [|x st IH]; [constructor|]. rewrite fmap_cons. cbn [concat]. apply Forall_app. split; [|done].
    unfold to_be_bytes. apply Forall_rev, to_le_bytes_ok.
Qed.

Lemma sha512_digest_ok msg : length (sha512 msg) = DIGEST_LEN /\ bytes_ok (sha512 msg).
Proof. rewrite sha512_reference. apply sha512_serialize_ok, sha512_length_md. done. Qed.
End Sha512.

Example sha512_abc :
  Sha512.sha512 (str "abc") =
    hex ("ddaf35a193617abacc417349ae20413112e6fa4e89a97ea20a9eeee64b55d39a" +:+
         "2192992a274fc1a836ba3c23a3feebbd454d4423643ce80e2a9ac94fa54ca49f").
Proof. vm_compute. reflexivity. Qed.
