(* ===== verification/Hmac.v ===== *)
(** * HMAC-SHA-256 (crypto/src/hmac.rs)

    The keyed hash all volume, slot, application and configuration tags use.
    [hmac_finalize_updates] equates the streaming interface with RFC 2104. *)

From S2P Require Import Prelude RustStd HashStream Sha256.

Module Hmac.

Record HmacSha256 := mkHmac { inner : Hasher (list Z); outer : Hasher (list Z) }.

Definition BLOCK : nat := 64.
Definition TAG_LEN : nat := Sha256.DIGEST_LEN.

(** The key, hashed if longer than a block, zero-padded to one. *)
Definition block_key (key : list Z) : list Z :=
  let k := replicate BLOCK 0 in
  if (BLOCK <? length key)%nat then splice 0 (Sha256.sha256 key) k else splice 0 key k.

Definition pad_key (b : Z) (key : list Z) : list Z := zip_with Z.lxor (replicate BLOCK b) (block_key key).

Definition new (key : list Z) : HmacSha256 :=
  {| inner := Sha256.update Sha256.new (pad_key 0x36 key); outer := Sha256.update Sha256.new (pad_key 0x5c key) |}.

Definition update (m : HmacSha256) (data : list Z) : HmacSha256 :=
  {| inner := Sha256.update (inner m) data; outer := outer m |}.

Definition finalize (m : HmacSha256) : option (list Z) :=
  let? inner_tag := Sha256.finalize (inner m) in
  Sha256.finalize (Sha256.update (outer m) inner_tag).

Definition oneshot (key data : list Z) : list Z := default [] (finalize (update (new key) data)).

(** RFC 2104, on its own terms: a key longer than a block is replaced by its
    hash, the key is completed with zeros to a block, and
    HMAC(K, m) = H((K0 xor opad) || H((K0 xor ipad) || m)). *)
Definition rfc_key (key : list Z) : list Z :=
  let k := if (64 <? length key)%nat then Sha256.reference key else key in k ++ replicate (64 - length k) 0.

Definition reference (key msg : list Z) : list Z :=
  Sha256.reference ((Z.lxor 0x5c <$> rfc_key key) ++ Sha256.reference ((Z.lxor 0x36 <$> rfc_key key) ++ msg)).

Lemma block_key_rfc key : block_key key = rfc_key key.
Proof.
  unfold block_key, rfc_key, BLOCK. destruct (Nat.ltb_spec 64 (length key)) as [Hl|Hl].
  - rewrite Sha256.sha256_reference. pose proof (proj1 (Sha256.sha256_digest_ok key)) as Hd. rewrite Sha256.sha256_reference in Hd.
    unfold splice. cbn [take app Nat.add]. by rewrite drop_replicate, Hd.
  - unfold splice. cbn [take app Nat.add]. by rewrite drop_replicate.
Qed.

Lemma length_rfc_key key : length (rfc_key key) = BLOCK.
Proof.
  unfold rfc_key, BLOCK. rewrite length_app, length_replicate. destruct (Nat.ltb_spec 64 (length key)); [|lia].
  pose proof (proj1 (Sha256.sha256_digest_ok key)) as Hd. rewrite Sha256.sha256_reference in Hd. change Sha256.DIGEST_LEN with 32%nat in Hd. lia.
Qed.

Lemma pad_key_rfc b key : pad_key b key = Z.lxor b <$> rfc_key key.
Proof.
  unfold pad_key. rewrite block_key_rfc, <- (length_rfc_key key). induction (rfc_key key) as [|x l IH]; [done|].
  cbn [length replicate]. cbn [zip_with fmap list_fmap]. f_equal. exact IH.
Qed.

Lemma fold_update pieces : forall m,
  foldl update m pieces = {| inner := foldl Sha256.update (inner m) pieces; outer := outer m |}.
Proof. induction pieces as [|p pieces IH]; intros m; simpl; [by destruct m|]. by rewrite IH. Qed.

Lemma hmac_finalize_updates key pieces :
  finalize (foldl update (new key) pieces) = Some (reference key (concat pieces)).
Proof.
  rewrite fold_update. unfold finalize, new, reference. rewrite <- !pad_key_rfc. cbn [inner outer].
  pose proof (Sha256.sha256_finalize_updates (pad_key 0x36 key :: pieces)) as E. simpl in E. rewrite E.
  pose proof (Sha256.sha256_finalize_updates [pad_key 0x5c key; Sha256.reference (pad_key 0x36 key ++ concat pieces)]) as E2.
  simpl in E2. rewrite E2, app_nil_r. reflexivity.
Qed.

Lemma oneshot_reference key msg : oneshot key msg = reference key msg.
Proof. unfold oneshot. pose proof (hmac_finalize_updates key [msg]) as E. simpl in E. by rewrite E, app_nil_r. Qed.

Lemma tag_ok key msg : length (oneshot key msg) = TAG_LEN /\ bytes_ok (oneshot key msg).
Proof. rewrite oneshot_reference. unfold reference. rewrite <- Sha256.sha256_reference. apply Sha256.sha256_digest_ok. Qed.
End Hmac.

Example hmac_rfc4231_long_key :
  Hmac.oneshot (replicate 131 0xaa) (str "Test Using Larger Than Block-Size Key - Hash Key First") =
    hex "60e431591ee0b67f0d8a26aacbf5b77f8e0bc6213728c5140546040f0ee37f54".
Proof. vm_compute. reflexivity. Qed.
