(* ===== verification/ChaCha20.v ===== *)
(** * ChaCha20 (crypto/src/chacha20.rs)

    The block function and the stream: encryption is its own inverse, keeps
    the length, and a block-aligned split of the data can be processed apart. *)

From S2P Require Import Prelude RustStd HashStream Sha256.

Module ChaCha20.

Definition KEY_LEN : nat := 32.
Definition NONCE_LEN : nat := 12.

(** One assignment [s[i] = f(s[i], s[j])]. *)
Definition upd (s : list Z) (i j : nat) (f : Z -> Z -> Z) : list Z := <[i := f (nth i s 0) (nth j s 0)]> s.

Definition xor_rotl (n : Z) (x y : Z) : Z := rotate_left 32 n (Z.lxor x y).

Definition quarter_round (s : list Z) (a b c d : nat) : list Z :=
  let s := upd s a b add32 in
  let s := upd s d a (xor_rotl 16) in
  let s := upd s c d add32 in
  let s := upd s b c (xor_rotl 12) in
  let s := upd s a b add32 in
  let s := upd s d a (xor_rotl 8) in
  let s := upd s c d add32 in
  upd s b c (xor_rotl 7).

Definition double_round (s : list Z) : list Z :=
  let s := quarter_round s 0 4 8 12 in
  let s := quarter_round s 1 5 9 13 in
  let s := quarter_round s 2 6 10 14 in
  let s := quarter_round s 3 7 11 15 in
  let s := quarter_round s 0 5 10 15 in
  let s := quarter_round s 1 6 11 12 in
  let s := quarter_round s 2 7 8 13 in
  quarter_round s 3 4 9 14.

Definition initial_state (key : list Z) (counter : Z) (nonce : list Z) : list Z :=
  [0x61707865; 0x3320646e; 0x79622d32; 0x6b206574] ++
  ((fun i => from_le_bytes (slice (4 * i) 4 key)) <$> seq 0 8) ++ [counter] ++
  ((fun i => from_le_bytes (slice (4 * i) 4 nonce)) <$> seq 0 3).

Definition block (key : list Z) (counter : Z) (nonce : list Z) : list Z :=
  let working := initial_state key counter nonce in
  let state := Nat.iter 10 double_round working in
  concat (to_le_bytes 4 <$> zip_with add32 state working).

(** The loop over [data.chunks_mut(64)]. *)
Fixpoint xor_chunks (key : list Z) (ctr : Z) (nonce : list Z) (cs : list (list Z)) : list (list Z) :=
  match cs with
  | [] => []
  | c :: cs => zip_with Z.lxor c (block key ctr nonce) :: xor_chunks key (add32 ctr 1) nonce cs
  end.

Definition xor_stream (key : list Z) (counter : Z) (nonce data : list Z) : list Z :=
  concat (xor_chunks key counter nonce (chunks 64 data)).

(** ** The key stream *)

Lemma length_quarter_round s a b c d : length (quarter_round s a b c d) = length s.
Proof. unfold quarter_round, upd. by rewrite !length_insert. Qed.

Lemma length_double_round s : length (double_round s) = length s.
Proof. unfold double_round. by rewrite !length_quarter_round. Qed.

Lemma length_rounds n s : length (Nat.iter n double_round s) = length s.
Proof. induction n as [|n IH]; [done|]. cbn [Nat.iter nat_rect]. by rewrite length_double_round. Qed.

Lemma length_words (l : list Z) : length (concat (to_le_bytes 4 <$> l)) = (4 * length l)%nat.
Proof.
  induction l as [|x l IH]; [done|]. rewrite fmap_cons. cbn [concat]. rewrite length_app, IH, length_to_le_bytes.
  simpl. lia.
Qed.

Lemma length_block key ctr nonce : length (block key ctr nonce) = 64%nat.
Proof.
  unfold block. rewrite length_words, length_zip_with, length_rounds, Nat.min_id. done.
Qed.

(** [n] blocks of key stream. *)
Fixpoint keystream (key : list Z) (ctr : Z) (nonce : list Z) (n : nat) : list Z :=
  match n with
  | O => []
  | S n => block key ctr nonce ++ keystream key (add32 ctr 1) nonce n
  end.

Lemma length_keystream key nonce n : forall ctr, length (keystream key ctr nonce n) = (64 * n)%nat.
Proof. induction n as [|n IH]; intros ctr; [done|]. cbn [keystream]. rewrite length_app, length_block, IH. lia. Qed.

Lemma xor_stream_cons key ctr nonce data :
  data <> [] -> xor_stream key ctr nonce data =
    zip_with Z.lxor (take 64 data) (block key ctr nonce) ++ xor_stream key (add32 ctr 1) nonce (drop 64 data).
Proof. intros Hd. unfold xor_stream. rewrite chunks_cons by (done || lia). done. Qed.

(** Encryption is a one-time pad with the key stream. *)
Lemma xor_stream_keystream key nonce data : forall ctr n,
  (length data <= 64 * n)%nat -> xor_stream key ctr nonce data = zip_with Z.lxor data (keystream key ctr nonce n).
Proof.
  revert data. apply (chunks_ind 64 (fun data => forall ctr n, (length data <= 64 * n)%nat ->
    xor_stream key ctr nonce data = zip_with Z.lxor data (keystream key ctr nonce n))); [lia|done|].
  intros data Hd IH ctr n Hn. rewrite xor_stream_cons by done.
  destruct n as [|n]; [exfalso; apply Hd, nil_length_inv; lia|]. cbn [keystream].
  rewrite (IH _ n) by (rewrite length_drop; lia).
  destruct (decide (64 <= length data)%nat) as [Hl|Hl].
  - rewrite <- (take_drop 64 data) at 3. rewrite zip_with_app; [done|]. rewrite length_take, length_block. lia.
  - rewrite drop_ge, take_ge by lia. rewrite zip_with_app_r, length_block, drop_ge, take_ge by lia. done.
Qed.

Lemma length_xor_stream key ctr nonce data : length (xor_stream key ctr nonce data) = length data.
Proof.
  rewrite (xor_stream_keystream _ _ _ _ (length data)) by lia.
  rewrite length_zip_with, length_keystream. lia.
Qed.

Lemma zip_lxor_twice (d : list Z) : forall ks, (length d <= length ks)%nat -> zip_with Z.lxor (zip_with Z.lxor d ks) ks = d.
Proof.
  induction d as [|x d IH]; intros [|k ks] Hl; simpl in *; try done; try lia.
  rewrite IH by lia. by rewrite Z.lxor_assoc, Z.lxor_nilpotent, Z.lxor_0_r.
Qed.

Lemma xor_stream_twice key ctr nonce data :
  xor_stream key ctr nonce (xor_stream key ctr nonce data) = data.
Proof.
  rewrite (xor_stream_keystream _ _ (xor_stream _ _ _ _) _ (length data)) by (rewrite length_xor_stream; lia).
  rewrite (xor_stream_keystream _ _ _ _ (length data)) by lia.
  apply zip_lxor_twice. rewrite length_keystream. lia.
Qed.

(** Whole blocks may be processed apart, the counter advancing by one each. *)
Lemma xor_stream_app key nonce k : forall ctr a b,
  fits 32 ctr -> length a = (64 * k)%nat ->
  xor_stream key ctr nonce (a ++ b) =
    xor_stream key ctr nonce a ++ xor_stream key (add32 ctr (Z.of_nat k)) nonce b.
Proof.
  induction k as [|k IH]; intros ctr a b Hc Ha.
  - rewrite Nat.mul_0_r in Ha. apply nil_length_inv in Ha as ->. unfold add32. rewrite Z.add_0_r, wrap_small by done. done.
  - assert (Hna : a <> []) by (intros ->; simpl in Ha; lia).
    rewrite xor_stream_cons by (destruct a; done). rewrite (xor_stream_cons _ _ _ a) by done.
    rewrite take_app_le, drop_app_le by lia. rewrite IH; [|by apply wrap_fits|rewrite length_drop; lia].
    rewrite <- app_assoc. do 3 f_equal. unfold add32, wrap. rewrite Zplus_mod_idemp_l. f_equal. lia.
Qed.
End ChaCha20.

Example chacha20_rfc8439 :
  take 16 (ChaCha20.block (Z.of_nat <$> seq 0 32) 1 [0; 0; 0; 9; 0; 0; 0; 0x4a; 0; 0; 0; 0]) =
    hex "10f1e7e4d13b5915500fdd1fa32071c4".
Proof. vm_compute. reflexivity. Qed.
