(* ===== verification/Layout.v ===== *)
(** * The on-disk layout (crypto/src/layout.rs)

    Sector codecs shared by the host tools and the storage service: the
    superblock, the runtime configuration, slot headers and sealed images,
    update and application packages, audit records.  A write outside the
    buffer is a panic ([None]); [puts] is the series of [copy_from_slice] a
    writer performs. *)

From S2P Require Import Prelude RustStd HashStream Sha256 Hmac ChaCha20.

(** ** Field writes *)

Abbreviation field := (nat * list Z)%type.

Fixpoint puts (fs : list field) (l : list Z) : option (list Z) :=
  match fs with
  | [] => Some l
  | (o, v) :: fs => if (o + length v <=? length l)%nat then puts fs (splice o v l) else None
  end.

Definition zeroed (l : list Z) : list Z := replicate (length l) 0.
Definition byte_at (i : nat) (l : list Z) : Z := nth i l 0.

Definition written (fs : list field) (l : list Z) : list Z := foldl (fun l f => splice (fst f) (snd f) l) l fs.
Definition in_bounds (n : nat) (f : field) : Prop := (fst f + length (snd f) <= n)%nat.
Definition apart (o n : nat) (f : field) : Prop := (o + n <= fst f \/ fst f + length (snd f) <= o)%nat.

Lemma length_written fs : forall l, Forall (in_bounds (length l)) fs -> length (written fs l) = length l.
Proof.
  induction fs as [|[o v] fs IH]; intros l Hf; [done|]. apply Forall_cons in Hf as [Hv Hf]. simpl in *.
  red in Hv. simpl in Hv. assert (E : length (splice o v l) = length l) by (by apply length_splice).
  rewrite IH; [done|]. by rewrite E.
Qed.

Lemma puts_written fs : forall l, Forall (in_bounds (length l)) fs -> puts fs l = Some (written fs l).
Proof.
  induction fs as [|[o v] fs IH]; intros l Hf; [done|]. apply Forall_cons in Hf as [Hv Hf]. simpl in *.
  red in Hv. simpl in Hv. rewrite (proj2 (Nat.leb_le _ _)) by done. apply IH. by rewrite length_splice.
Qed.

(** A range no field touches keeps its contents. *)
Lemma written_apart fs o n : forall l,
  Forall (in_bounds (length l)) fs -> Forall (apart o n) fs -> slice o n (written fs l) = slice o n l.
Proof.
  induction fs as [|[o' v] fs IH]; intros l Hf Ha; [done|].
  apply Forall_cons in Hf as [Hv Hf], Ha as [Hd Ha]. unfold in_bounds, apart in *. simpl in *.
  rewrite IH; [|by rewrite length_splice|done]. apply slice_splice_disjoint; lia.
Qed.

(** A field no later field touches reads back. *)
Lemma written_field i fs o v n l :
  fs !! i = Some (o, v) -> n = length v -> Forall (in_bounds (length l)) fs -> Forall (apart o n) (drop (S i) fs) ->
  slice o n (written fs l) = v.
Proof.
  revert i l. induction fs as [|[o' v'] fs IH]; intros i l Hi -> Hf Ha; [done|].
  apply Forall_cons in Hf as [Hv Hf]. unfold in_bounds in Hv. simpl in Hv.
  assert (El : length (splice o' v' l) = length l) by (by apply length_splice).
  destruct i as [|i]; simpl in Hi.
  - injection Hi as -> ->. cbn [written foldl fst snd drop] in *.
    change (slice o (length v) (written fs (splice o v l)) = v).
    rewrite written_apart; [by apply slice_splice_same|by rewrite El|done].
  - cbn [written foldl fst snd]. apply (IH i); [done|done|by rewrite El|done].
Qed.

Lemma byte_at_slice i l : (i < length l)%nat -> [byte_at i l] = slice i 1 l.
Proof.
  intros Hi. unfold byte_at, slice. destruct (lookup_lt_is_Some_2 l i Hi) as [x Hx].
  rewrite (nth_lookup_Some l i 0 x) by done. rewrite (drop_S l x i) by done. done.
Qed.

Lemma byte_at_value i l x : (i < length l)%nat -> slice i 1 l = [x] -> byte_at i l = x.
Proof. intros Hi E. rewrite <- byte_at_slice in E by done. by injection E. Qed.

(** ** Geometry *)

Module Layout.

Definition SECTOR : nat := 512.
Definition SUPERBLOCK_LBA : Z := 0.
Definition CONFIG_LBA : Z := 1.
Definition SLOT_A_HDR_LBA : Z := 2.
Definition SLOT_A_PAYLOAD_LBA : Z := 4.
Definition SLOT_B_HDR_LBA : Z := 1034.
Definition SLOT_B_PAYLOAD_LBA : Z := 1036.
Definition AUDIT_START_LBA : Z := 3072.
Definition AUDIT_END_LBA : Z := 16383.
Definition APP_START_LBA : Z := 16384.
Definition APP_SLOT_SECTORS : Z := 512.
Definition APP_SLOTS : Z := 8.
Definition STAGING_LBA : Z := 20480.
Definition STAGING_SECTORS : Z := 256.
Definition PAYLOAD_CAP : Z := 1000 * 512.
Definition APP_PAYLOAD_CAP : Z := (APP_SLOT_SECTORS - 1) * 512.
Definition AUDIT_RECORDS : Z := AUDIT_END_LBA - AUDIT_START_LBA.

Definition SB_MAGIC : list Z := str "AEGSVOL" ++ [0].
Definition CFG_MAGIC : list Z := str "AEGSCFG" ++ [0].
Definition SLOT_MAGIC : list Z := str "AEGSLOT" ++ [0].
Definition PKG_MAGIC : list Z := str "AEGUPKG".
Definition APP_MAGIC : list Z := str "AEGSAPP" ++ [0].
Definition APP_PKG_MAGIC : list Z := str "AEGAPKG" ++ [0].
Definition VOL_FORMAT_VERSION : Z := 1.

Inductive SlotId := A | B.

#[global] Instance SlotId_eq_dec : EqDecision SlotId.
Proof. solve_decision. Defined.

Definition other (s : SlotId) : SlotId := match s with A => B | B => A end.
Definition slot_num (s : SlotId) : Z := match s with A => 1 | B => 2 end.
Definition from_num (n : Z) : option SlotId := if n =? 1 then Some A else if n =? 2 then Some B else None.
Definition hdr_lba (s : SlotId) : Z := match s with A => SLOT_A_HDR_LBA | B => SLOT_B_HDR_LBA end.
Definition payload_lba (s : SlotId) : Z := match s with A => SLOT_A_PAYLOAD_LBA | B => SLOT_B_PAYLOAD_LBA end.

Definition nonce (b0 b1 counter : Z) : list Z :=
  written [(0%nat, [b0]); (1%nat, [b1]); (2%nat, to_le_bytes 8 counter)] (replicate 12 0).
Definition data_nonce (s : SlotId) (purpose gen : Z) : list Z := nonce purpose 0 gen.
Definition seal_nonce (gen : Z) : list Z := nonce 83 0 gen.

(** The accumulator loop; no early exit. *)
Definition constant_time_eq (a b : list Z) : bool :=
  if negb (length a =? length b)%nat then false
  else foldl Z.lor 0 (zip_with Z.lxor a b) =? 0.

(** ** Superblock *)

Definition SB_KEY_OFF : nat := 0x28.
Definition SB_MAC_OFF : nat := 0x48.

(** An unaligned little-endian field. *)
Definition le_field (off len : nat) (l : list Z) : Z := from_le_bytes (slice off len l).

Definition parse_superblock (sb : list Z) : option (option SlotId * Z * Z) :=
  if (length sb <? SECTOR)%nat || negb (bytes_eqb (slice 0 8 sb) SB_MAGIC) then None else
  if negb (le_field 8 4 sb =? VOL_FORMAT_VERSION) then None else
  Some (from_num (le_field 16 4 sb), le_field 24 8 sb, le_field 32 8 sb).

Definition write_superblock (sb : list Z) (active : option SlotId) (gen_a gen_b : Z) (key : list Z) : option (list Z) :=
  let act := match active with Some s => slot_num s | None => 0 end in
  let? sb := puts [ (0%nat, SB_MAGIC); (8%nat, to_le_bytes 4 VOL_FORMAT_VERSION); (16%nat, to_le_bytes 4 act);
                    (24%nat, to_le_bytes 8 gen_a); (32%nat, to_le_bytes 8 gen_b); (SB_KEY_OFF, key) ] (zeroed sb) in
  puts [(SB_MAC_OFF, Hmac.oneshot key (take SB_MAC_OFF sb))] sb.

Definition superblock_mac (key sb : list Z) : list Z := Hmac.oneshot key (take SB_MAC_OFF sb).
Definition superblock_valid (key sb : list Z) : bool :=
  constant_time_eq (superblock_mac key sb) (slice SB_MAC_OFF 32 sb).

(** ** Runtime configuration *)

Definition CFG_TEXT_MAX : Z := 400.

Definition parse_config (sec : list Z) : option (list Z * Z * list Z) :=
  if (length sec <? SECTOR)%nat || negb (bytes_eqb (slice 0 8 sec) CFG_MAGIC) then None else
  let gen := le_field 8 8 sec in
  let len := le_field 16 2 sec in
  if CFG_TEXT_MAX <? len then None else
  Some (slice 448 32 sec, gen, slice 32 (Z.to_nat len) sec).

Definition write_config (sec : list Z) (gen : Z) (text key : list Z) : option (list Z) :=
  if CFG_TEXT_MAX <? Z.of_nat (length text) then None else
  let? sec := puts [ (0%nat, CFG_MAGIC); (8%nat, to_le_bytes 8 gen);
                     (16%nat, to_le_bytes 2 (wrap 16 (Z.of_nat (length text)))); (32%nat, text) ] (zeroed sec) in
  puts [(448%nat, Hmac.oneshot key (take 448 sec))] sec.

Definition config_mac (key sec : list Z) : list Z := Hmac.oneshot key (take 448 sec).

(** ** Slots *)

Definition SLOT_STATE_EMPTY : Z := 0.
Definition SLOT_STATE_VALID : Z := 1.
Definition SLOT_STATE_BAD : Z := 2.
Definition HDR_SIG_OFF : nat := 0x40.
Definition HDR_MAC_OFF : nat := 0x80.

Record SlotHeader := mkSlotHeader {
  sh_slot : SlotId; sh_state : Z; sh_generation : Z; sh_payload_len : Z; sh_payload_sha : list Z; sh_signature : list Z;
}.

Definition parse_slot_header (hdr : list Z) : option SlotHeader :=
  if (length hdr <? SECTOR)%nat || negb (bytes_eqb (slice 0 8 hdr) SLOT_MAGIC) then None else
  let? slot := from_num (byte_at 8 hdr) in
  let state := byte_at 9 hdr in
  if SLOT_STATE_BAD <? state then None else
  Some {| sh_slot := slot; sh_state := state; sh_generation := le_field 16 8 hdr; sh_payload_len := le_field 24 4 hdr;
          sh_payload_sha := slice 32 32 hdr; sh_signature := slice HDR_SIG_OFF 64 hdr |}.

Definition write_slot_header (hdr : list Z) (slot : SlotId) (state generation : Z) (payload signature : list Z)
    : option (list Z) :=
  if PAYLOAD_CAP <? Z.of_nat (length payload) then None else
  puts [ (0%nat, SLOT_MAGIC); (8%nat, [slot_num slot]); (9%nat, [state]); (16%nat, to_le_bytes 8 generation);
         (24%nat, to_le_bytes 4 (wrap 32 (Z.of_nat (length payload)))); (32%nat, Sha256.sha256 payload);
         (HDR_SIG_OFF, signature) ] (zeroed hdr).

Definition slot_mac (key hdr ciphertext : list Z) : list Z :=
  default [] (Hmac.finalize (Hmac.update (Hmac.update (Hmac.new key) (take HDR_MAC_OFF hdr)) ciphertext)).

Definition slot_mac_ok (key hdr ciphertext : list Z) : bool :=
  constant_time_eq (slot_mac key hdr ciphertext) (slice HDR_MAC_OFF 32 hdr).

(** ** Update packages *)

Definition PKG_IMAGE_OFF : nat := 0x80.
Definition PKG_LEN_OFF : nat := 0x10.
Definition PKG_SHA_OFF : nat := 0x18.
Definition PKG_SIG_OFF : nat := 0x38.
Definition SLOT_IMAGE_MAX : Z := 512 * (2 + PAYLOAD_CAP / 512).

Definition xor_in_place (key nonce data : list Z) : list Z := ChaCha20.xor_stream key 0 nonce data.

(** The image buffer after sealing, and the image length. *)
Definition build_slot_image (img : list Z) (generation : Z) (payload payload_signature key : list Z)
    : option (list Z * nat) :=
  if Z.of_nat (length img) <? SLOT_IMAGE_MAX then None else
  let img := zeroed img in
  let? hdr := write_slot_header (take SECTOR img) A SLOT_STATE_VALID generation payload payload_signature in
  let img := hdr ++ drop SECTOR img in
  let ct := xor_in_place key (seal_nonce generation) payload in
  let mac := slot_mac key (take SECTOR img) ct in
  let img := take SECTOR img ++ zeroed (drop SECTOR img) in
  let payload_start := (2 * SECTOR)%nat in
  let? img := puts [(HDR_MAC_OFF, mac); (payload_start, ct)] img in
  Some (img, payload_start + length ct)%nat.

Definition write_stage_package (out img image_sig : list Z) : option (list Z * nat) :=
  let? out := puts [ (0%nat, PKG_MAGIC); (7%nat, [2]); (PKG_LEN_OFF, to_le_bytes 8 (Z.of_nat (length img)));
                     (PKG_SHA_OFF, Sha256.sha256 img); (PKG_SIG_OFF, image_sig); (PKG_IMAGE_OFF, img) ] (zeroed out) in
  Some (out, PKG_IMAGE_OFF + length img)%nat.

Definition parse_stage_package (buf : list Z) : option (list Z * list Z) :=
  if (length buf <? PKG_IMAGE_OFF)%nat || negb (bytes_eqb (slice 0 7 buf) PKG_MAGIC) || negb (byte_at 7 buf =? 2)
  then None else
  let len := le_field PKG_LEN_OFF 8 buf in
  if (len =? 0) || (SLOT_IMAGE_MAX <? len) || (Z.of_nat (length buf) <? Z.of_nat PKG_IMAGE_OFF + len) then None else
  Some (slice PKG_IMAGE_OFF (Z.to_nat len) buf, slice PKG_SIG_OFF 64 buf).

(** ** Application packages and headers *)

Definition APP_FORMAT_VERSION : Z := 1.
Definition APP_STATE_EMPTY : Z := 0.
Definition APP_STATE_VALID : Z := 1.
Definition APP_NAME_MAX : nat := 24.
Definition APP_HDR_NAME_OFF : nat := 32.
Definition APP_HDR_SHA_OFF : nat := 64.
Definition APP_HDR_SIG_OFF : nat := 96.
Definition APP_HDR_MAC_OFF : nat := 160.
Definition APP_PKG_HEADER : nat := 192.
Definition APP_STAGE_CAP : Z := STAGING_SECTORS * 512 - 192.
Definition APP_SIGN_BYTES : nat := 80.

Record AppHeader := mkAppHeader {
  ah_slot : Z; ah_name : list Z; ah_name_len : nat; ah_payload_len : Z; ah_version : Z;
  ah_payload_sha : list Z; ah_signature : list Z;
}.

Record AppPackage := mkAppPackage {
  ap_name : list Z; ap_name_len : nat; ap_payload : list Z; ap_version : Z;
  ap_payload_sha : list Z; ap_signature : list Z;
}.

Definition app_slot_lba (slot : Z) : option Z :=
  if slot <? APP_SLOTS then Some (APP_START_LBA + slot * APP_SLOT_SECTORS) else None.

Definition app_peer_slot (slot : Z) : option Z := if slot <? APP_SLOTS then Some (Z.lxor slot 1) else None.

Definition app_nonce (slot version : Z) : list Z := nonce 65 slot version.

Definition app_signing_message (name : list Z) (version payload_len : Z) (payload_sha : list Z) : list Z :=
  let n := Nat.min (length name) APP_NAME_MAX in
  written [ (0%nat, str "AEGAPPV1"); (8%nat, [Z.of_nat n]); (9%nat, take n name); (33%nat, to_le_bytes 8 version);
            (41%nat, to_le_bytes 4 (wrap 32 payload_len)); (45%nat, payload_sha) ] (replicate APP_SIGN_BYTES 0).

Definition app_header_mac (key hdr ciphertext : list Z) : list Z :=
  default [] (Hmac.finalize (Hmac.update (Hmac.update (Hmac.new key) (take APP_HDR_MAC_OFF hdr)) ciphertext)).

Definition app_header_mac_ok (key hdr ciphertext : list Z) : bool :=
  constant_time_eq (app_header_mac key hdr ciphertext) (slice APP_HDR_MAC_OFF 32 hdr).

(** [Some None] is the refusal (the buffer is untouched). *)
Definition write_app_header (hdr : list Z) (slot : Z) (name : list Z) (version : Z) (payload signature : list Z)
    : option (option (list Z)) :=
  if (length hdr <? SECTOR)%nat || (APP_SLOTS <=? slot) || (length name =? 0)%nat || (APP_NAME_MAX <? length name)%nat ||
     (APP_PAYLOAD_CAP <? Z.of_nat (length payload))
  then Some None else
  let? hdr := puts [ (0%nat, APP_MAGIC); (8%nat, [APP_FORMAT_VERSION]); (9%nat, [APP_STATE_VALID]); (10%nat, [slot]);
         (11%nat, [wrap 8 (Z.of_nat (length name))]); (12%nat, to_le_bytes 4 (wrap 32 (Z.of_nat (length payload))));
         (16%nat, to_le_bytes 8 version); (APP_HDR_NAME_OFF, name); (APP_HDR_SHA_OFF, Sha256.sha256 payload);
         (APP_HDR_SIG_OFF, signature) ] (zeroed hdr) in
  Some (Some hdr).

Definition parse_app_header (hdr : list Z) : option AppHeader :=
  if (length hdr <? SECTOR)%nat || negb (bytes_eqb (slice 0 8 hdr) APP_MAGIC) || negb (byte_at 8 hdr =? APP_FORMAT_VERSION)
  then None else
  if negb (byte_at 9 hdr =? APP_STATE_VALID) || (APP_SLOTS <=? byte_at 10 hdr) then None else
  let name_len := byte_at 11 hdr in
  let payload_len := le_field 12 4 hdr in
  if (name_len =? 0) || (Z.of_nat APP_NAME_MAX <? name_len) || (payload_len =? 0) || (APP_PAYLOAD_CAP <? payload_len)
  then None else
  Some {| ah_slot := byte_at 10 hdr; ah_name := slice APP_HDR_NAME_OFF APP_NAME_MAX hdr; ah_name_len := Z.to_nat name_len;
          ah_payload_len := payload_len; ah_version := le_field 16 8 hdr;
          ah_payload_sha := slice APP_HDR_SHA_OFF 32 hdr; ah_signature := slice APP_HDR_SIG_OFF 64 hdr |}.

Definition write_app_stage_package (out name : list Z) (version : Z) (payload signature : list Z)
    : option (option (list Z * nat)) :=
  if (length out <? APP_PKG_HEADER + length payload)%nat || (length name =? 0)%nat || (APP_NAME_MAX <? length name)%nat ||
     (length payload =? 0)%nat || (APP_STAGE_CAP <? Z.of_nat (length payload))
  then Some None else
  let? out := puts [ (0%nat, APP_PKG_MAGIC); (8%nat, [APP_FORMAT_VERSION]); (9%nat, [wrap 8 (Z.of_nat (length name))]);
         (12%nat, to_le_bytes 4 (wrap 32 (Z.of_nat (length payload)))); (16%nat, to_le_bytes 8 version);
         (APP_HDR_NAME_OFF, name); (APP_HDR_SHA_OFF, Sha256.sha256 payload); (APP_HDR_SIG_OFF, signature);
         (APP_PKG_HEADER, payload) ] (zeroed out) in
  Some (Some (out, APP_PKG_HEADER + length payload)%nat).

Definition parse_app_stage_package (buf : list Z) : option AppPackage :=
  if (length buf <? APP_PKG_HEADER)%nat || negb (bytes_eqb (slice 0 8 buf) APP_PKG_MAGIC) ||
     negb (byte_at 8 buf =? APP_FORMAT_VERSION)
  then None else
  let name_len := byte_at 9 buf in
  let payload_len := le_field 12 4 buf in
  if (name_len =? 0) || (Z.of_nat APP_NAME_MAX <? name_len) || (payload_len =? 0) || (APP_STAGE_CAP <? payload_len)
  then None else
  if Z.of_nat (length buf) <? Z.of_nat APP_PKG_HEADER + payload_len then None else
  Some {| ap_name := slice APP_HDR_NAME_OFF APP_NAME_MAX buf; ap_name_len := Z.to_nat name_len;
          ap_payload := slice APP_PKG_HEADER (Z.to_nat payload_len) buf; ap_version := le_field 16 8 buf;
          ap_payload_sha := slice APP_HDR_SHA_OFF 32 buf; ap_signature := slice APP_HDR_SIG_OFF 64 buf |}.

(** ** Audit records *)

Definition AUD_MAGIC : Z := 0x31445541.
Definition AUD_DATA_MAX : Z := 424.
Definition AUD_DIGEST_OFF : nat := 0x1E0.

(** The record and its digest. *)
Definition write_audit_record (rec : list Z) (seq tick event aux : Z) (data prev : list Z) : option (list Z * list Z) :=
  if AUD_DATA_MAX <? Z.of_nat (length data) then None else
  let? rec := puts [ (0%nat, to_le_bytes 4 AUD_MAGIC); (4%nat, to_le_bytes 8 seq); (12%nat, to_le_bytes 8 tick);
         (20%nat, [event]); (21%nat, [aux]); (22%nat, to_le_bytes 2 (wrap 16 (Z.of_nat (length data))));
         (24%nat, prev); (56%nat, data) ] (zeroed rec) in
  let digest := Sha256.sha256 (take AUD_DIGEST_OFF rec) in
  let? rec := puts [(AUD_DIGEST_OFF, digest)] rec in
  Some (rec, digest).

Inductive AuditCheck := Valid (seq : Z) | End_ | Broken.

Definition check_audit_record (rec : list Z) (expected_seq : Z) (expected_prev : list Z) : AuditCheck :=
  if (length rec <? SECTOR)%nat then Broken else
  if le_field 0 4 rec =? 0 then End_ else
  if negb (le_field 0 4 rec =? AUD_MAGIC) then Broken else
  let seq := le_field 4 8 rec in
  if negb (seq =? expected_seq) then Broken else
  if negb (constant_time_eq (slice 24 32 rec) expected_prev) then Broken else
  let digest := Sha256.sha256 (take AUD_DIGEST_OFF rec) in
  if negb (constant_time_eq digest (slice AUD_DIGEST_OFF 32 rec)) then Broken else
  Valid seq.
End Layout.
