(* ===== verification/LayoutTheorems.v ===== *)
(** * The codecs of the volume round-trip (crypto/src/layout.rs)

    Every writer is inverted by its parser, tags written are accepted,
    sealed images decrypt to their payload, the signed form of an application
    is unambiguous, and an audit log cannot be edited without a SHA-256
    collision. *)

From S2P Require Import Prelude RustStd HashStream Sha256 Hmac ChaCha20 Layout.
Import Layout.

(** The codecs never look inside the primitives. *)
#[local] Opaque Sha256.sha256 Hmac.oneshot Hmac.reference ChaCha20.xor_stream Sha256.compress.

Lemma length_SB_MAGIC : length SB_MAGIC = 8%nat. Proof. done. Qed.
Lemma length_CFG_MAGIC : length CFG_MAGIC = 8%nat. Proof. done. Qed.
Lemma length_SLOT_MAGIC : length SLOT_MAGIC = 8%nat. Proof. done. Qed.
Lemma length_PKG_MAGIC : length PKG_MAGIC = 7%nat. Proof. done. Qed.
Lemma length_APP_MAGIC : length APP_MAGIC = 8%nat. Proof. done. Qed.
Lemma length_APP_PKG_MAGIC : length APP_PKG_MAGIC = 8%nat. Proof. done. Qed.
Lemma length_sha256 msg : length (Sha256.sha256 msg) = 32%nat. Proof. apply Sha256.sha256_digest_ok. Qed.
Lemma length_oneshot key msg : length (Hmac.oneshot key msg) = 32%nat. Proof. apply Hmac.tag_ok. Qed.
Lemma length_zeroed l : length (zeroed l) = length l. Proof. apply length_replicate. Qed.

#[export] Hint Rewrite length_SB_MAGIC length_CFG_MAGIC length_SLOT_MAGIC length_PKG_MAGIC length_APP_MAGIC
  length_APP_PKG_MAGIC length_sha256 length_oneshot length_zeroed ChaCha20.length_xor_stream
  @length_replicate : redoubt.

(** Side conditions: bounds and disjointness of concrete field lists. *)
Ltac offsets :=
  unfold SECTOR, SB_KEY_OFF, SB_MAC_OFF, HDR_SIG_OFF, HDR_MAC_OFF, PKG_IMAGE_OFF, PKG_LEN_OFF, PKG_SHA_OFF, PKG_SIG_OFF,
    APP_NAME_MAX, APP_HDR_NAME_OFF, APP_HDR_SHA_OFF, APP_HDR_SIG_OFF, APP_HDR_MAC_OFF, APP_PKG_HEADER, APP_SIGN_BYTES,
    AUD_DIGEST_OFF in *.
Ltac layout :=
  repeat match goal with
  | |- Forall _ ?x => is_var x; unfold x
  | |- context [drop _ ?x] => is_var x; unfold x
  | |- context [drop _ (?x ++ _)] => is_var x; unfold x; cbn [app]
  | |- Forall _ [] => constructor
  | |- Forall _ (_ :: _) => constructor
  | |- Forall _ (drop _ _) => progress cbn [drop app]
  | |- in_bounds _ _ => unfold in_bounds; cbn [fst snd length]
  | |- apart _ _ _ => unfold apart; cbn [fst snd length]
  end; autorewrite with redoubt; cbn [length]; offsets; try lia.

(** ** Comparison *)

Lemma foldl_lor_zero l : forall acc, foldl Z.lor acc l = 0 <-> acc = 0 /\ Forall (fun x => x = 0) l.
Proof.
  induction l as [|x l IH]; intros acc; simpl; [split; [by split|by intros [? _]]|].
  rewrite IH, Forall_cons, Z.lor_eq_0_iff. tauto.
Qed.

Lemma constant_time_eq_true a b : constant_time_eq a b = true <-> a = b.
Proof.
  unfold constant_time_eq. destruct (Nat.eqb_spec (length a) (length b)) as [Hl|Hl]; cbn [negb].
  2:{ split; [done|]. by intros ->. }
  rewrite Z.eqb_eq, foldl_lor_zero. split; [|intros ->; split; [done|]; induction b as [|y b IH]; constructor;
    [apply Z.lxor_nilpotent|by apply IH]].
  intros [_ Hz]. revert b Hl Hz. induction a as [|x a IH]; intros [|y b] Hl Hz; try done.
  simpl in *. apply Forall_cons in Hz as [Hx Hz]. f_equal; [by apply Z.lxor_eq|]. apply IH; [lia|done].
Qed.

Lemma written_app fs1 fs2 l : written fs2 (written fs1 l) = written (fs1 ++ fs2) l.
Proof. unfold written. by rewrite foldl_app. Qed.

Lemma take_slice {T} n (l : list T) : take n l = slice 0 n l.
Proof. done. Qed.

Lemma le_field_value off len l z :
  slice off len l = to_le_bytes len z -> 0 <= z < 256 ^ Z.of_nat len -> le_field off len l = z.
Proof. intros E Hz. unfold le_field. rewrite E. by apply from_le_to_le_small. Qed.

Lemma from_num_slot s : from_num (slot_num s) = Some s.
Proof. by destruct s. Qed.

(** What reading fields back needs of a written buffer. *)
Definition reads (fs : list field) (l : list Z) : Prop :=
  forall i o v n, fs !! i = Some (o, v) -> n = length v -> Forall (apart o n) (drop (S i) fs) -> slice o n l = v.

Lemma puts_reads fs l :
  Forall (in_bounds (length l)) fs -> exists l', puts fs l = Some l' /\ length l' = length l /\ reads fs l'.
Proof.
  intros Hf. exists (written fs l). split; [by apply puts_written|]. split; [by apply length_written|].
  intros i o v n Hi Hn Ha. by eapply written_field.
Qed.

(** Fields, then a 32-byte tag of everything before it. *)
Lemma tagged_reads fs off (tag : list Z -> list Z) l :
  Forall (in_bounds off) fs -> (off + 32 <= length l)%nat -> (forall x, length (tag x) = 32%nat) ->
  exists l1 l', puts fs (zeroed l) = Some l1 /\ puts [(off, tag (take off l1))] l1 = Some l' /\
    length l' = length l /\ slice off 32 l' = tag (take off l') /\ take off l' = take off l1 /\ reads fs l'.
Proof.
  intros Hf Ho Ht.
  assert (Hf' : Forall (in_bounds (length (zeroed l))) fs).
  { eapply Forall_impl; [exact Hf|]. intros f. unfold in_bounds. rewrite length_zeroed. lia. }
  destruct (puts_reads fs (zeroed l) Hf') as (l1 & E1 & Hl1 & Hr). rewrite length_zeroed in Hl1.
  set (t := tag (take off l1)). assert (Htl : length t = 32%nat) by apply Ht.
  assert (Hb : Forall (in_bounds (length l1)) [(off, t)]) by (apply Forall_singleton; red; simpl; lia).
  assert (Htake : take off (written [(off, t)] l1) = take off l1).
  { rewrite !take_slice. apply written_apart; [done|]. apply Forall_singleton. left. simpl. lia. }
  exists l1, (written [(off, t)] l1). split; [done|]. split; [by apply puts_written|].
  split; [by rewrite length_written|]. split; [|split; [done|]].
  - rewrite Htake. change (slice off 32 (splice off t l1) = t). rewrite <- Htl. apply slice_splice_same. rewrite Htl. lia.
  - intros i o v n Hi Hn Ha. rewrite written_apart; [by eapply Hr|done|].
    apply Forall_singleton. left. simpl. pose proof (Forall_lookup_1 _ _ _ _ Hf Hi) as Hv. red in Hv. simpl in Hv. lia.
Qed.

(** A little-endian field of a written buffer. *)
Lemma reads_le fs l i o len z :
  reads fs l -> fs !! i = Some (o, to_le_bytes len z) -> Forall (apart o len) (drop (S i) fs) ->
  0 <= z < 256 ^ Z.of_nat len -> le_field o len l = z.
Proof.
  intros Hr Hi Ha Hz. apply le_field_value; [|done]. apply (Hr i); [done|by rewrite length_to_le_bytes|done].
Qed.

Lemma reads_byte fs l i o z :
  reads fs l -> fs !! i = Some (o, [z]) -> Forall (apart o 1) (drop (S i) fs) -> (o < length l)%nat -> byte_at o l = z.
Proof. intros Hr Hi Ha Hl. apply byte_at_value; [done|]. by apply (Hr i). Qed.

Lemma reads_magic fs l n magic :
  reads fs l -> fs !! 0%nat = Some (0%nat, magic) -> n = length magic -> Forall (apart 0 n) (drop 1 fs) ->
  bytes_eqb (slice 0 n l) magic = true.
Proof. intros Hr Hi Hn Ha. apply bytes_eqb_eq. by apply (Hr 0%nat). Qed.

Ltac read_le i Hr := erewrite (reads_le _ _ i _ _ _ Hr); [..|reflexivity|layout|].
Ltac read_byte i Hr := erewrite (reads_byte _ _ i _ _ Hr); [..|reflexivity|layout|].
Ltac read_magic Hr := erewrite (reads_magic _ _ _ _ Hr); [..|reflexivity|reflexivity|layout].
Ltac read_field i Hr := apply (Hr i); [reflexivity|layout|layout].

Lemma wrap_len n w : Z.of_nat n < 2 ^ w -> wrap w (Z.of_nat n) = Z.of_nat n.
Proof. intros. apply wrap_small. red. lia. Qed.

(** ** Superblock and configuration *)

Lemma superblock_spec sb active ga gb key :
  length sb = SECTOR -> length key = 32%nat -> fits 64 ga -> fits 64 gb ->
  exists sb', write_superblock sb active ga gb key = Some sb' /\ length sb' = SECTOR /\
    parse_superblock sb' = Some (active, ga, gb) /\ superblock_valid key sb' = true /\ slice SB_KEY_OFF 32 sb' = key.
Proof.
  intros Hl Hk Ha Hb. unfold write_superblock. set (act := match active with Some s => slot_num s | None => 0 end).
  set (fs := [_; _; _; _; _; _]).
  destruct (tagged_reads fs SB_MAC_OFF (Hmac.oneshot key) sb) as (l1 & sb' & -> & -> & Hl' & Htag & _ & Hr);
    [layout|rewrite Hl; offsets; lia|apply length_oneshot|]. rewrite Hl in Hl'.
  exists sb'. split; [done|]. split; [done|]. split; [|split].
  - unfold parse_superblock. rewrite Hl'. cbn [Nat.ltb Nat.leb orb]. read_magic Hr. cbn [negb orb].
    read_le 1%nat Hr; [|unfold VOL_FORMAT_VERSION; lia]. cbn [negb Z.eqb Pos.eqb VOL_FORMAT_VERSION].
    read_le 2%nat Hr; [|unfold act; destruct active as [[]|]; simpl; lia].
    read_le 3%nat Hr; [|exact Ha]. read_le 4%nat Hr; [|exact Hb].
    unfold act. by destruct active as [[]|].
  - apply constant_time_eq_true. by rewrite Htag.
  - read_field 5%nat Hr.
Qed.

Lemma config_spec sec gen text key :
  length sec = SECTOR -> fits 64 gen -> Z.of_nat (length text) <= CFG_TEXT_MAX ->
  exists sec', write_config sec gen text key = Some sec' /\ length sec' = SECTOR /\
    parse_config sec' = Some (config_mac key sec', gen, text).
Proof.
  intros Hl Hg Ht. unfold CFG_TEXT_MAX in Ht. unfold write_config.
  rewrite (proj2 (Z.ltb_ge _ _)) by (unfold CFG_TEXT_MAX; lia). set (fs := [_; _; _; _]).
  destruct (tagged_reads fs 448 (Hmac.oneshot key) sec) as (l1 & sec' & -> & -> & Hl' & Htag & _ & Hr);
    [layout|rewrite Hl; offsets; lia|apply length_oneshot|]. rewrite Hl in Hl'.
  exists sec'. split; [done|]. split; [done|].
  unfold parse_config. rewrite Hl'. cbn [Nat.ltb Nat.leb orb]. read_magic Hr. cbn [negb orb].
  read_le 2%nat Hr; [|apply wrap_fits; lia]. rewrite wrap_len by lia.
  rewrite (proj2 (Z.ltb_ge _ _)) by (unfold CFG_TEXT_MAX; lia). rewrite Nat2Z.id. read_le 1%nat Hr; [|exact Hg].
  assert (E : slice 32 (length text) sec' = text) by (read_field 3%nat Hr). rewrite E, Htag. done.
Qed.

(** ** Slots and sealed images *)

Lemma slot_header_spec hdr slot state gen payload sig :
  length hdr = SECTOR -> 0 <= state <= SLOT_STATE_BAD -> fits 64 gen ->
  Z.of_nat (length payload) <= PAYLOAD_CAP -> length sig = 64%nat ->
  exists hdr', write_slot_header hdr slot state gen payload sig = Some hdr' /\ length hdr' = SECTOR /\
    parse_slot_header hdr' = Some {| sh_slot := slot; sh_state := state; sh_generation := gen;
      sh_payload_len := Z.of_nat (length payload); sh_payload_sha := Sha256.sha256 payload; sh_signature := sig |}.
Proof.
  intros Hl Hst Hg Hp Hs. unfold PAYLOAD_CAP, SLOT_STATE_BAD in *. unfold write_slot_header.
  rewrite (proj2 (Z.ltb_ge _ _)) by (unfold PAYLOAD_CAP; lia). set (fs := [_; _; _; _; _; _; _]).
  destruct (puts_reads fs (zeroed hdr)) as (hdr' & -> & Hl' & Hr); [rewrite length_zeroed, Hl; layout|].
  rewrite length_zeroed, Hl in Hl'. exists hdr'. split; [done|]. split; [done|].
  unfold parse_slot_header. rewrite Hl'. cbn [Nat.ltb Nat.leb orb]. read_magic Hr. cbn [negb orb].
  read_byte 1%nat Hr; [|rewrite Hl'; offsets; lia]. rewrite from_num_slot.
  read_byte 2%nat Hr; [|rewrite Hl'; offsets; lia]. rewrite (proj2 (Z.ltb_ge _ _)) by (unfold SLOT_STATE_BAD; lia).
  read_le 3%nat Hr; [|exact Hg]. read_le 4%nat Hr; [|apply wrap_fits; lia]. rewrite wrap_len by lia.
  assert (E1 : slice 32 32 hdr' = Sha256.sha256 payload) by (read_field 5%nat Hr).
  assert (E2 : slice HDR_SIG_OFF 64 hdr' = sig) by (read_field 6%nat Hr). rewrite E1, E2. reflexivity.
Qed.

Lemma slot_mac_reference key hdr ct : slot_mac key hdr ct = Hmac.reference key (take HDR_MAC_OFF hdr ++ ct).
Proof.
  unfold slot_mac. pose proof (Hmac.hmac_finalize_updates key [take HDR_MAC_OFF hdr; ct]) as E. simpl in E.
  by rewrite E, app_nil_r.
Qed.

Lemma length_slot_mac key hdr ct : length (slot_mac key hdr ct) = 32%nat.
Proof. rewrite slot_mac_reference, <- Hmac.oneshot_reference. apply length_oneshot. Qed.
#[export] Hint Rewrite length_slot_mac : redoubt.

(** A header written, tagged over its ciphertext and stored passes the check. *)
Lemma slot_mac_spec key hdr ct :
  length hdr = SECTOR ->
  exists hdr', puts [(HDR_MAC_OFF, slot_mac key hdr ct)] hdr = Some hdr' /\ slot_mac_ok key hdr' ct = true /\
    take HDR_MAC_OFF hdr' = take HDR_MAC_OFF hdr.
Proof.
  intros Hl. set (fs := [_]).
  assert (Hf : Forall (in_bounds (length hdr)) fs) by (rewrite Hl; layout).
  assert (Ht : take HDR_MAC_OFF (written fs hdr) = take HDR_MAC_OFF hdr).
  { rewrite !take_slice. apply written_apart; [done|layout]. }
  exists (written fs hdr). split; [by apply puts_written|]. split; [|done].
  apply constant_time_eq_true. rewrite (written_field 0 fs _ (slot_mac key hdr ct)); [|done|layout|done|layout].
  unfold slot_mac. by rewrite Ht.
Qed.

(** Fields inside a prefix depend on the prefix alone. *)
Lemma slice_prefix {T} m o n (l l' : list T) : (o + n <= m)%nat -> take m l = take m l' -> slice o n l = slice o n l'.
Proof.
  intros Hm E. assert (Hp : forall k : list T, slice o n k = slice o n (take m k)).
  { intros k. symmetry. by apply (slice_slice 0 m o n). }
  by rewrite (Hp l), (Hp l'), E.
Qed.

Lemma byte_prefix m o l l' : (o < m)%nat -> take m l = take m l' -> byte_at o l = byte_at o l'.
Proof.
  intros Hm E. unfold byte_at. rewrite !nth_lookup. f_equal.
  by rewrite <- (lookup_take_lt l m o), <- (lookup_take_lt l' m o), E.
Qed.

Lemma parse_slot_header_prefix h h' :
  length h = length h' -> take HDR_MAC_OFF h = take HDR_MAC_OFF h' -> parse_slot_header h = parse_slot_header h'.
Proof.
  intros Hl E. unfold parse_slot_header, le_field. rewrite Hl.
  rewrite (slice_prefix HDR_MAC_OFF 0 8 h h'), (byte_prefix HDR_MAC_OFF 8 h h'), (byte_prefix HDR_MAC_OFF 9 h h'), (slice_prefix HDR_MAC_OFF 16 8 h h'),
    (slice_prefix HDR_MAC_OFF 24 4 h h'), (slice_prefix HDR_MAC_OFF 32 32 h h'), (slice_prefix HDR_MAC_OFF HDR_SIG_OFF 64 h h')
    by (exact E || (offsets; lia)). done.
Qed.

(** Sealing: header, tag and ciphertext of an image. *)
Lemma sealed_image_spec img gen payload sig key :
  SLOT_IMAGE_MAX <= Z.of_nat (length img) -> fits 64 gen -> Z.of_nat (length payload) <= PAYLOAD_CAP ->
  length sig = 64%nat ->
  exists img', build_slot_image img gen payload sig key = Some (img', (1024 + length payload)%nat) /\
    length img' = length img /\
    parse_slot_header (take SECTOR img') = Some {| sh_slot := A; sh_state := SLOT_STATE_VALID; sh_generation := gen;
      sh_payload_len := Z.of_nat (length payload); sh_payload_sha := Sha256.sha256 payload; sh_signature := sig |} /\
    slot_mac_ok key (take SECTOR img') (slice 1024 (length payload) img') = true /\
    xor_in_place key (seal_nonce gen) (slice 1024 (length payload) img') = payload.
Proof.
  intros Hl Hg Hp Hs. unfold build_slot_image. rewrite (proj2 (Z.ltb_ge _ _)) by lia.
  unfold SLOT_IMAGE_MAX, PAYLOAD_CAP in *. change (1000 * 512 / 512) with 1000 in Hl.
  assert (Hz : length (take SECTOR (zeroed img)) = SECTOR) by (rewrite length_take, length_zeroed; offsets; lia).
  destruct (slot_header_spec (take SECTOR (zeroed img)) A SLOT_STATE_VALID gen payload sig Hz) as (hdr & -> & Hh & Hparse);
    [unfold SLOT_STATE_VALID, SLOT_STATE_BAD; lia|done|done|done|].
  rewrite !(take_app_length' hdr), drop_app_length' by done.
  set (ct := xor_in_place key (seal_nonce gen) payload). set (mac := slot_mac key hdr ct).
  assert (Hct : length ct = length payload) by apply ChaCha20.length_xor_stream.
  set (img2 := hdr ++ zeroed _). set (fs := [_; _]).
  assert (Hl2 : length img2 = length img).
  { unfold img2. rewrite length_app, !length_zeroed, length_drop, length_zeroed, Hh. offsets. lia. }
  assert (Hmac : length mac = 32%nat) by apply length_slot_mac.
  assert (Hf : Forall (in_bounds (length img2)) fs) by (rewrite Hl2; layout).
  rewrite puts_written, Hct by done. eexists. split; [done|]. rewrite length_written by done. split; [done|].
  assert (Hpre : take HDR_MAC_OFF (take SECTOR (written fs img2)) = take HDR_MAC_OFF hdr).
  { rewrite take_take, Nat.min_l by (offsets; lia). rewrite take_slice, written_apart, <- take_slice by (done || layout).
    unfold img2. apply take_app_le. rewrite Hh. offsets. lia. }
  assert (Hsec : length (take SECTOR (written fs img2)) = SECTOR).
  { rewrite length_take, length_written by done. offsets. lia. }
  assert (Ect : slice 1024 (length payload) (written fs img2) = ct).
  { apply (written_field 1); [done|done|done|layout]. }
  rewrite Ect. split; [|split].
  - rewrite <- Hparse. apply parse_slot_header_prefix; [congruence|done].
  - apply constant_time_eq_true. transitivity mac; [unfold mac, slot_mac; by rewrite Hpre|].
    rewrite (slice_prefix SECTOR HDR_MAC_OFF 32 (take SECTOR _) (written fs img2)) by (rewrite ?take_take; offsets; done || lia).
    symmetry. apply (written_field 0); [done|done|done|layout].
  - apply ChaCha20.xor_stream_twice.
Qed.

(** ** Packages *)

Lemma stage_package_spec out img sig :
  (PKG_IMAGE_OFF + length img <= length out)%nat -> 0 < Z.of_nat (length img) <= SLOT_IMAGE_MAX -> length sig = 64%nat ->
  exists out', write_stage_package out img sig = Some (out', PKG_IMAGE_OFF + length img)%nat /\
    length out' = length out /\ parse_stage_package out' = Some (img, sig).
Proof.
  intros Hl Hn Hs. assert (Hmax : SLOT_IMAGE_MAX = 513024) by reflexivity. unfold write_stage_package. set (fs := [_; _; _; _; _; _]).
  destruct (puts_reads fs (zeroed out)) as (out' & -> & Hl' & Hr); [rewrite length_zeroed; layout|].
  rewrite length_zeroed in Hl'. eexists. split; [done|]. split; [done|]. unfold parse_stage_package.
  rewrite (proj2 (Nat.ltb_ge _ _)) by lia. cbn [orb]. read_magic Hr. cbn [negb orb].
  read_byte 1%nat Hr; [|offsets; lia]. cbn [negb orb Z.eqb Pos.eqb].
  read_le 2%nat Hr; [|rewrite Hmax in Hn; simpl; lia].
  rewrite (proj2 (Z.eqb_neq _ _)), !(proj2 (Z.ltb_ge _ _)) by lia. cbn [orb].
  rewrite Nat2Z.id.
  assert (E1 : slice PKG_IMAGE_OFF (length img) out' = img) by (read_field 5%nat Hr).
  assert (E2 : slice PKG_SIG_OFF 64 out' = sig) by (read_field 4%nat Hr). rewrite E1, E2. done.
Qed.

Lemma take_slice_inner {T} o n m (l : list T) : (m <= n)%nat -> take m (slice o n l) = slice o m l.
Proof. intros Hm. rewrite take_slice, slice_slice by lia. by rewrite Nat.add_0_r. Qed.

Lemma app_header_spec hdr slot name version payload sig :
  length hdr = SECTOR -> 0 <= slot < APP_SLOTS -> (0 < length name <= APP_NAME_MAX)%nat -> fits 64 version ->
  0 < Z.of_nat (length payload) <= APP_PAYLOAD_CAP -> length sig = 64%nat ->
  exists hdr' h, write_app_header hdr slot name version payload sig = Some (Some hdr') /\ length hdr' = SECTOR /\
    parse_app_header hdr' = Some h /\ ah_slot h = slot /\ take (ah_name_len h) (ah_name h) = name /\
    ah_payload_len h = Z.of_nat (length payload) /\ ah_version h = version /\
    ah_payload_sha h = Sha256.sha256 payload /\ ah_signature h = sig.
Proof.
  intros Hl Hsl Hn Hv Hp Hs. assert (Hcap : APP_PAYLOAD_CAP = 261632) by reflexivity.
  unfold APP_SLOTS, APP_NAME_MAX in *. unfold write_app_header.
  rewrite Hl, (proj2 (Nat.ltb_ge _ _)), (proj2 (Z.leb_gt _ _)), (proj2 (Nat.eqb_neq _ _)), (proj2 (Nat.ltb_ge _ _)),
    (proj2 (Z.ltb_ge _ _)) by (unfold APP_SLOTS; offsets; lia). cbn [orb]. set (fs := [_; _; _; _; _; _; _; _; _; _]).
  destruct (puts_reads fs (zeroed hdr)) as (hdr' & -> & Hl' & Hr); [rewrite length_zeroed, Hl; layout|].
  rewrite length_zeroed, Hl in Hl'. eexists hdr', _. split; [done|]. split; [done|]. unfold parse_app_header.
  rewrite Hl'. cbn [Nat.ltb Nat.leb orb]. read_magic Hr. cbn [negb orb].
  read_byte 1%nat Hr; [|rewrite Hl'; offsets; lia]. cbn [negb orb Z.eqb Pos.eqb APP_FORMAT_VERSION].
  read_byte 2%nat Hr; [|rewrite Hl'; offsets; lia]. cbn [negb orb Z.eqb Pos.eqb APP_STATE_VALID].
  read_byte 3%nat Hr; [|rewrite Hl'; offsets; lia]. rewrite (proj2 (Z.leb_gt _ _)) by (unfold APP_SLOTS; lia).
  read_byte 4%nat Hr; [|rewrite Hl'; offsets; lia]. rewrite wrap_len by lia.
  read_le 5%nat Hr; [|apply wrap_fits; lia]. rewrite wrap_len by lia.
  rewrite !(proj2 (Z.eqb_neq _ _)), !(proj2 (Z.ltb_ge _ _)) by (offsets; lia). cbn [orb].
  read_le 6%nat Hr; [|exact Hv]. split; [reflexivity|]. cbn [ah_slot ah_name ah_name_len ah_payload_len ah_version ah_payload_sha ah_signature].
  split; [done|]. split.
  - rewrite Nat2Z.id, take_slice_inner by (offsets; lia). read_field 7%nat Hr.
  - do 2 (split; [done|]). split; [read_field 8%nat Hr|read_field 9%nat Hr].
Qed.

Lemma app_package_spec out name version payload sig :
  (APP_PKG_HEADER + length payload <= length out)%nat -> (0 < length name <= APP_NAME_MAX)%nat -> fits 64 version ->
  0 < Z.of_nat (length payload) <= APP_STAGE_CAP -> length sig = 64%nat ->
  exists out' p, write_app_stage_package out name version payload sig = Some (Some (out', APP_PKG_HEADER + length payload)%nat) /\
    parse_app_stage_package out' = Some p /\ take (ap_name_len p) (ap_name p) = name /\ ap_payload p = payload /\
    ap_version p = version /\ ap_payload_sha p = Sha256.sha256 payload /\ ap_signature p = sig.
Proof.
  intros Hl Hn Hv Hp Hs. assert (Hcap : APP_STAGE_CAP = 130880) by reflexivity.
  unfold APP_NAME_MAX in *. unfold write_app_stage_package.
  rewrite (proj2 (Nat.ltb_ge _ _)), !(proj2 (Nat.eqb_neq _ _)), (proj2 (Nat.ltb_ge _ _)),
    (proj2 (Z.ltb_ge _ _)) by (offsets; lia). cbn [orb]. set (fs := [_; _; _; _; _; _; _; _; _]).
  destruct (puts_reads fs (zeroed out)) as (out' & -> & Hl' & Hr); [rewrite length_zeroed; layout|].
  rewrite length_zeroed in Hl'. eexists out', _. split; [done|]. unfold parse_app_stage_package.
  rewrite (proj2 (Nat.ltb_ge _ _)) by (offsets; lia). cbn [orb]. read_magic Hr. cbn [negb orb].
  read_byte 1%nat Hr; [|offsets; lia]. cbn [negb orb Z.eqb Pos.eqb APP_FORMAT_VERSION].
  read_byte 2%nat Hr; [|offsets; lia]. rewrite wrap_len by lia.
  read_le 3%nat Hr; [|apply wrap_fits; lia]. rewrite wrap_len by lia.
  rewrite !(proj2 (Z.eqb_neq _ _)), !(proj2 (Z.ltb_ge _ _)) by (offsets; lia). cbn [orb].
  read_le 4%nat Hr; [|exact Hv]. split; [reflexivity|]. cbn [ap_name ap_name_len ap_payload ap_version ap_payload_sha ap_signature].
  split; [|split; [|split; [done|split]]].
  - rewrite Nat2Z.id, take_slice_inner by (offsets; lia). read_field 5%nat Hr.
  - rewrite Nat2Z.id. read_field 8%nat Hr.
  - read_field 6%nat Hr.
  - read_field 7%nat Hr.
Qed.

(** ** The signed form of an application *)

Definition app_fields (name : list Z) (version len : Z) (sha : list Z) : list field :=
  [ (0%nat, str "AEGAPPV1"); (8%nat, [Z.of_nat (length name)]); (9%nat, name); (33%nat, to_le_bytes 8 version);
    (41%nat, to_le_bytes 4 len); (45%nat, sha) ].

Lemma app_message_reads name version len sha :
  (length name <= APP_NAME_MAX)%nat -> fits 32 len -> length sha = 32%nat ->
  length (app_signing_message name version len sha) = APP_SIGN_BYTES /\
  reads (app_fields name version len sha) (app_signing_message name version len sha).
Proof.
  intros Hn Hlen Hs. unfold app_signing_message. rewrite Nat.min_l, firstn_all, wrap_small by done.
  fold (app_fields name version len sha). set (fs := app_fields name version len sha).
  assert (Hf : Forall (in_bounds (length (replicate APP_SIGN_BYTES 0))) fs).
  { rewrite length_replicate. unfold fs, app_fields. layout; change (length (str "AEGAPPV1")) with 8%nat; lia. }
  rewrite length_written, length_replicate by done. split; [done|]. intros i o v n Hi Hv Ha. by eapply written_field.
Qed.

Lemma app_message_inj n1 v1 l1 s1 n2 v2 l2 s2 :
  (length n1 <= APP_NAME_MAX)%nat -> (length n2 <= APP_NAME_MAX)%nat -> fits 64 v1 -> fits 64 v2 ->
  fits 32 l1 -> fits 32 l2 -> length s1 = 32%nat -> length s2 = 32%nat ->
  app_signing_message n1 v1 l1 s1 = app_signing_message n2 v2 l2 s2 -> n1 = n2 /\ v1 = v2 /\ l1 = l2 /\ s1 = s2.
Proof.
  intros Hn1 Hn2 Hv1 Hv2 Hl1 Hl2 Hs1 Hs2 E.
  destruct (app_message_reads n1 v1 l1 s1 Hn1 Hl1 Hs1) as [Hlen1 Hr1].
  destruct (app_message_reads n2 v2 l2 s2 Hn2 Hl2 Hs2) as [Hlen2 Hr2].
  assert (Hbyte : forall n v l s, (length n <= APP_NAME_MAX)%nat -> length s = 32%nat ->
            length (app_signing_message n v l s) = APP_SIGN_BYTES -> reads (app_fields n v l s) (app_signing_message n v l s) ->
            byte_at 8 (app_signing_message n v l s) = Z.of_nat (length n)).
  { intros n v l s Hn Hs Hlen Hr. apply (reads_byte _ _ 1%nat _ _ Hr); [done|unfold app_fields; layout|rewrite Hlen; offsets; lia]. }
  assert (Hn : length n1 = length n2).
  { apply Nat2Z.inj. rewrite <- (Hbyte n1 v1 l1 s1), <- (Hbyte n2 v2 l2 s2) by done. by rewrite E. }
  rewrite E in Hr1. unfold app_fields in *. repeat split.
  - transitivity (slice 9 (length n1) (app_signing_message n2 v2 l2 s2)); [symmetry; read_field 2%nat Hr1|].
    rewrite Hn. read_field 2%nat Hr2.
  - transitivity (le_field 33 8 (app_signing_message n2 v2 l2 s2)); [symmetry|];
      [apply (reads_le _ _ 3%nat _ _ _ Hr1)|apply (reads_le _ _ 3%nat _ _ _ Hr2)]; done || layout.
  - transitivity (le_field 41 4 (app_signing_message n2 v2 l2 s2)); [symmetry|];
      [apply (reads_le _ _ 4%nat _ _ _ Hr1)|apply (reads_le _ _ 4%nat _ _ _ Hr2)]; done || layout.
  - transitivity (slice 45 32 (app_signing_message n2 v2 l2 s2)); [symmetry; read_field 5%nat Hr1|read_field 5%nat Hr2].
Qed.

(** ** The audit chain *)

Lemma audit_record_spec rec seq tick event aux data prev :
  length rec = SECTOR -> fits 64 seq -> Z.of_nat (length data) <= AUD_DATA_MAX -> length prev = 32%nat ->
  exists rec' digest, write_audit_record rec seq tick event aux data prev = Some (rec', digest) /\
    length rec' = SECTOR /\ check_audit_record rec' seq prev = Valid seq /\ slice AUD_DIGEST_OFF 32 rec' = digest.
Proof.
  intros Hl Hseq Hd Hp. unfold AUD_DATA_MAX in Hd. unfold write_audit_record.
  rewrite (proj2 (Z.ltb_ge _ _)) by (unfold AUD_DATA_MAX; lia). set (fs := [_; _; _; _; _; _; _; _]).
  destruct (tagged_reads fs AUD_DIGEST_OFF Sha256.sha256 rec) as (l1 & rec' & -> & -> & Hl' & Htag & Htake & Hr);
    [layout|rewrite Hl; offsets; lia|apply length_sha256|]. rewrite Hl in Hl'.
  exists rec', (Sha256.sha256 (take AUD_DIGEST_OFF l1)). split; [done|]. split; [done|]. rewrite <- Htake.
  split; [|done]. unfold check_audit_record. rewrite Hl'. cbn [Nat.ltb Nat.leb].
  assert (Hm : le_field 0 4 rec' = AUD_MAGIC) by (apply (reads_le _ _ 0%nat _ _ _ Hr); [done|layout|unfold AUD_MAGIC; lia]).
  rewrite Hm. cbn [Z.eqb Pos.eqb AUD_MAGIC negb]. read_le 1%nat Hr; [|exact Hseq]. rewrite Z.eqb_refl. cbn [negb].
  assert (E : slice 24 32 rec' = prev) by (read_field 6%nat Hr). rewrite E.
  rewrite (proj2 (constant_time_eq_true prev prev)) by done. cbn [negb].
  rewrite Htag, (proj2 (constant_time_eq_true _ _)) by done. done.
Qed.

(** Replay of a log from record [seq]: the digest it ends in. *)
Fixpoint replay (seq : Z) (prev : list Z) (recs : list (list Z)) : option (list Z) :=
  match recs with
  | [] => Some prev
  | r :: recs =>
      match check_audit_record r seq prev with
      | Valid _ => replay (seq + 1) (slice AUD_DIGEST_OFF 32 r) recs
      | _ => None
      end
  end.

Lemma replay_app r1 : forall seq prev r2,
  replay seq prev (r1 ++ r2) =
    match replay seq prev r1 with Some d => replay (seq + Z.of_nat (length r1)) d r2 | None => None end.
Proof.
  induction r1 as [|r r1 IH]; intros seq prev r2; [by rewrite Z.add_0_r|].
  rewrite <- app_comm_cons. cbn [replay length]. destruct (check_audit_record r seq prev); [|done..].
  rewrite IH. destruct (replay _ _ r1); [|done]. f_equal. lia.
Qed.

Lemma check_valid r seq prev s :
  check_audit_record r seq prev = Valid s ->
  slice 24 32 r = prev /\ Sha256.sha256 (take AUD_DIGEST_OFF r) = slice AUD_DIGEST_OFF 32 r.
Proof.
  unfold check_audit_record. intros E. repeat (case_match; try done).
  repeat match goal with H : negb _ = false |- _ => apply negb_false_iff in H end.
  split; by apply constant_time_eq_true.
Qed.

Definition collision : Prop := exists m1 m2, m1 <> m2 /\ Sha256.sha256 m1 = Sha256.sha256 m2.

Lemma replay_tamper recs1 : forall recs2 seq prev d,
  Forall (fun r => length r = SECTOR) recs1 -> Forall (fun r => length r = SECTOR) recs2 ->
  length recs1 = length recs2 -> replay seq prev recs1 = Some d -> replay seq prev recs2 = Some d ->
  recs1 = recs2 \/ collision.
Proof.
  induction recs1 as [|r1 recs1 IH] using rev_ind; intros recs2 seq prev d Hs1 Hs2 Hl.
  { destruct recs2; [by left|done]. }
  destruct recs2 as [|r2 recs2 _] using rev_ind; [rewrite length_app in Hl; simpl in Hl; lia|].
  rewrite !length_app in Hl. simpl in Hl. rewrite !replay_app. cbn [replay].
  apply Forall_app in Hs1 as [Hs1 Hr1], Hs2 as [Hs2 Hr2]. rewrite Forall_singleton in Hr1, Hr2.
  destruct (replay seq prev recs1) as [d1|] eqn:E1; [|done]. destruct (replay seq prev recs2) as [d2|] eqn:E2; [|done].
  destruct (check_audit_record r1 _ d1) eqn:C1; try done. destruct (check_audit_record r2 _ d2) eqn:C2; try done.
  intros [= D1] [= D2]. apply check_valid in C1 as [P1 H1], C2 as [P2 H2].
  destruct (decide (take AUD_DIGEST_OFF r1 = take AUD_DIGEST_OFF r2)) as [Et|Hne].
  - assert (r1 = r2) as ->.
    { rewrite <- (take_drop AUD_DIGEST_OFF r1), <- (take_drop AUD_DIGEST_OFF r2), Et. f_equal.
      transitivity (slice AUD_DIGEST_OFF 32 r1); [|transitivity (slice AUD_DIGEST_OFF 32 r2); [congruence|]];
        unfold slice; rewrite take_ge; try done; rewrite length_drop; offsets; lia. }
    destruct (IH recs2 seq prev d1 Hs1 Hs2 ltac:(lia) E1) as [->|]; [congruence|by left|by right].
  - right. exists (take AUD_DIGEST_OFF r1), (take AUD_DIGEST_OFF r2). split; [done|]. congruence.
Qed.

(** ** Theorems *)

(** The superblock round-trips: what [write_superblock] puts in a sector,
    [parse_superblock] reads back, the tag verifies under the key, and the key
    is where mount looks for it. *)
Theorem superblock_roundtrip sb active ga gb key :
  length sb = SECTOR -> length key = 32%nat -> fits 64 ga -> fits 64 gb ->
  exists sb', write_superblock sb active ga gb key = Some sb' /\ length sb' = SECTOR /\
    parse_superblock sb' = Some (active, ga, gb) /\ superblock_valid key sb' = true /\ slice SB_KEY_OFF 32 sb' = key.
Proof. apply superblock_spec. Qed.

(** The configuration sector round-trips, with the tag the reader
    recomputes. *)
Theorem config_roundtrip sec gen text key :
  length sec = SECTOR -> fits 64 gen -> Z.of_nat (length text) <= CFG_TEXT_MAX ->
  exists sec', write_config sec gen text key = Some sec' /\ length sec' = SECTOR /\
    parse_config sec' = Some (config_mac key sec', gen, text).
Proof. apply config_spec. Qed.

(** A sealed slot image opens: its header parses to the fields sealed, its
    tag verifies over the stored ciphertext, and decrypting that ciphertext
    with the canonical nonce gives the payload back. *)
Theorem sealed_image_opens img gen payload sig key :
  SLOT_IMAGE_MAX <= Z.of_nat (length img) -> fits 64 gen -> Z.of_nat (length payload) <= PAYLOAD_CAP ->
  length sig = 64%nat ->
  exists img', build_slot_image img gen payload sig key = Some (img', (1024 + length payload)%nat) /\
    length img' = length img /\
    parse_slot_header (take SECTOR img') = Some {| sh_slot := A; sh_state := SLOT_STATE_VALID; sh_generation := gen;
      sh_payload_len := Z.of_nat (length payload); sh_payload_sha := Sha256.sha256 payload; sh_signature := sig |} /\
    slot_mac_ok key (take SECTOR img') (slice 1024 (length payload) img') = true /\
    xor_in_place key (seal_nonce gen) (slice 1024 (length payload) img') = payload.
Proof. apply sealed_image_spec. Qed.

(** A staged update package parses back to the image and its signature. *)
Theorem stage_package_roundtrip out img sig :
  (PKG_IMAGE_OFF + length img <= length out)%nat -> 0 < Z.of_nat (length img) <= SLOT_IMAGE_MAX -> length sig = 64%nat ->
  exists out', write_stage_package out img sig = Some (out', PKG_IMAGE_OFF + length img)%nat /\
    length out' = length out /\ parse_stage_package out' = Some (img, sig).
Proof. apply stage_package_spec. Qed.

(** An application package parses back to its name, version, payload,
    digest and signature. *)
Theorem app_package_roundtrip out name version payload sig :
  (APP_PKG_HEADER + length payload <= length out)%nat -> (0 < length name <= APP_NAME_MAX)%nat -> fits 64 version ->
  0 < Z.of_nat (length payload) <= APP_STAGE_CAP -> length sig = 64%nat ->
  exists out' p, write_app_stage_package out name version payload sig = Some (Some (out', APP_PKG_HEADER + length payload)%nat) /\
    parse_app_stage_package out' = Some p /\ take (ap_name_len p) (ap_name p) = name /\ ap_payload p = payload /\
    ap_version p = version /\ ap_payload_sha p = Sha256.sha256 payload /\ ap_signature p = sig.
Proof. apply app_package_spec. Qed.

(** The signed byte string of an application determines its name, version,
    length and digest: no signature can be replayed for another application. *)
Theorem app_signing_message_injective n1 v1 l1 s1 n2 v2 l2 s2 :
  (length n1 <= APP_NAME_MAX)%nat -> (length n2 <= APP_NAME_MAX)%nat -> fits 64 v1 -> fits 64 v2 ->
  fits 32 l1 -> fits 32 l2 -> length s1 = 32%nat -> length s2 = 32%nat ->
  app_signing_message n1 v1 l1 s1 = app_signing_message n2 v2 l2 s2 -> n1 = n2 /\ v1 = v2 /\ l1 = l2 /\ s1 = s2.
Proof. apply app_message_inj. Qed.

(** The audit log is tamper-evident: two logs of the same length that both
    replay and end in the same digest are the same log, or a SHA-256 collision
    has been found. *)
Theorem audit_tamper_evident recs1 recs2 seq prev d :
  Forall (fun r => length r = SECTOR) recs1 -> Forall (fun r => length r = SECTOR) recs2 ->
  length recs1 = length recs2 -> replay seq prev recs1 = Some d -> replay seq prev recs2 = Some d ->
  recs1 = recs2 \/ collision.
Proof. apply replay_tamper. Qed.

(** ** Witnesses *)

Lemma superblock_roundtrip_witness :
  exists sb', write_superblock (replicate 512 0) (Some B) 11 9 (replicate 32 7) = Some sb' /\ length sb' = SECTOR /\
    parse_superblock sb' = Some (Some B, 11, 9) /\ superblock_valid (replicate 32 7) sb' = true /\
    slice SB_KEY_OFF 32 sb' = replicate 32 7.
Proof.
  apply (superblock_roundtrip (replicate 512 0) (Some B) 11 9 (replicate 32 7)); [done|done|split; done|split; done].
Defined.

Lemma config_roundtrip_witness :
  exists sec', write_config (replicate 512 0) 42 (str "hostname=dev-01") (replicate 32 3) = Some sec' /\
    length sec' = SECTOR /\ parse_config sec' = Some (config_mac (replicate 32 3) sec', 42, str "hostname=dev-01").
Proof. apply (config_roundtrip (replicate 512 0) 42 (str "hostname=dev-01") (replicate 32 3)); [done|split; done|done]. Defined.

Lemma sealed_image_opens_witness :
  exists img', build_slot_image (replicate (Z.to_nat SLOT_IMAGE_MAX) 0) 9 (str "service heart") (replicate 64 1) (replicate 32 4) =
      Some (img', (1024 + 13)%nat) /\
    length img' = length (replicate (Z.to_nat SLOT_IMAGE_MAX) 0) /\
    parse_slot_header (take SECTOR img') = Some {| sh_slot := A; sh_state := SLOT_STATE_VALID; sh_generation := 9;
      sh_payload_len := 13; sh_payload_sha := Sha256.sha256 (str "service heart"); sh_signature := replicate 64 1 |} /\
    slot_mac_ok (replicate 32 4) (take SECTOR img') (slice 1024 13 img') = true /\
    xor_in_place (replicate 32 4) (seal_nonce 9) (slice 1024 13 img') = str "service heart".
Proof.
  apply (sealed_image_opens (replicate (Z.to_nat SLOT_IMAGE_MAX) 0) 9 (str "service heart") (replicate 64 1) (replicate 32 4)).
  - rewrite length_replicate, Z2Nat.id by (vm_compute; discriminate). reflexivity.
  - split; done.
  - vm_compute. discriminate.
  - reflexivity.
Defined.

Lemma stage_package_roundtrip_witness :
  exists out', write_stage_package (replicate 200 0) [1; 2; 3] (replicate 64 5) = Some (out', 131%nat) /\
    length out' = 200%nat /\ parse_stage_package out' = Some ([1; 2; 3], replicate 64 5).
Proof.
  apply (stage_package_roundtrip (replicate 200 0) [1; 2; 3] (replicate 64 5));
    [vm_compute; lia|split; [done|vm_compute; discriminate]|done].
Defined.

Lemma app_package_roundtrip_witness :
  exists out' p, write_app_stage_package (replicate 200 0) (str "hello-app") 7 [1; 2; 3] (replicate 64 5) =
      Some (Some (out', 195%nat)) /\
    parse_app_stage_package out' = Some p /\ take (ap_name_len p) (ap_name p) = str "hello-app" /\ ap_payload p = [1; 2; 3] /\
    ap_version p = 7 /\ ap_payload_sha p = Sha256.sha256 [1; 2; 3] /\ ap_signature p = replicate 64 5.
Proof.
  apply (app_package_roundtrip (replicate 200 0) (str "hello-app") 7 [1; 2; 3] (replicate 64 5));
    [vm_compute; lia|vm_compute; lia|split; done|split; [done|vm_compute; discriminate]|done].
Defined.

Lemma app_signing_message_injective_witness :
  str "a" = str "a" /\ 7 = 7 /\ 3 = 3 /\ replicate 32 1 = replicate 32 1.
Proof.
  apply (app_signing_message_injective (str "a") 7 3 (replicate 32 1) (str "a") 7 3 (replicate 32 1));
    solve [vm_compute; lia | split; done | done].
Defined.

Definition demo_record : list Z :=
  match write_audit_record (replicate 512 0) 0 100 1 0 (str "boot A") (replicate 32 0) with
  | Some (r, _) => r
  | None => []
  end.

Lemma audit_tamper_evident_witness : [demo_record] = [demo_record] \/ collision.
Proof.
  apply (audit_tamper_evident [demo_record] [demo_record] 0 (replicate 32 0) (slice AUD_DIGEST_OFF 32 demo_record));
    solve [apply Forall_singleton; vm_compute; reflexivity | vm_compute; reflexivity].
Defined.
