(* ===== verification/CryptoTheorems.v ===== *)
(** * Theorems of the cryptographic primitives

    Streaming hashing equals hashing the whole message, HMAC is RFC 2104,
    ChaCha20 encryption is an involution that can be resumed at any block. *)

From S2P Require Import Prelude RustStd HashStream Sha256 Sha512 Hmac ChaCha20.

(** C37. SHA-256 streaming: however a message is cut into [update] calls, both
    padding loops end and [finalize] returns the digest of the padded message. *)
Theorem sha256_streaming pieces :
  Sha256.finalize (foldl Sha256.update Sha256.new pieces) = Some (Sha256.reference (concat pieces)).
Proof. apply Sha256.sha256_finalize_updates. Qed.

(** The same for SHA-512, with its 128-byte blocks and 16-byte length. *)
Theorem sha512_streaming pieces :
  Sha512.finalize (foldl Sha512.update Sha512.new pieces) = Some (Sha512.reference (concat pieces)).
Proof. apply Sha512.sha512_finalize_updates. Qed.

(** C38. HMAC is RFC 2104 for any key length and any sequence of updates: with
    K0 the key, or its hash when it is longer than 64 bytes, completed with
    zeros to 64 bytes, the tag is H((K0 ^ opad) || H((K0 ^ ipad) || message)). *)
Theorem hmac_rfc2104 key pieces :
  let k := if (64 <? length key)%nat then Sha256.reference key else key in
  let k0 := k ++ replicate (64 - length k) 0 in
  Hmac.finalize (foldl Hmac.update (Hmac.new key) pieces) =
    Some (Sha256.reference ((Z.lxor 0x5c <$> k0) ++ Sha256.reference ((Z.lxor 0x36 <$> k0) ++ concat pieces))).
Proof. apply Hmac.hmac_finalize_updates. Qed.

(** Decrypting with the same key, counter and nonce restores the data, of
    any length and any key and nonce. *)
Theorem chacha20_involutive key counter nonce data :
  ChaCha20.xor_stream key counter nonce (ChaCha20.xor_stream key counter nonce data) = data /\
  length (ChaCha20.xor_stream key counter nonce data) = length data.
Proof. split; [apply ChaCha20.xor_stream_twice|apply ChaCha20.length_xor_stream]. Qed.

(** Continuing the key stream: data may be processed in block-aligned
    pieces, each starting at the counter of its first block, as the storage
    service does for every eight-sector transfer. *)
Theorem chacha20_resumable key nonce k ctr a b :
  fits 32 ctr -> length a = (64 * k)%nat ->
  ChaCha20.xor_stream key ctr nonce (a ++ b) =
    ChaCha20.xor_stream key ctr nonce a ++ ChaCha20.xor_stream key (add32 ctr (Z.of_nat k)) nonce b.
Proof. apply ChaCha20.xor_stream_app. Qed.

Lemma chacha20_resumable_witness :
  ChaCha20.xor_stream (replicate 32 3) 0 (replicate 12 1) (replicate 64 5 ++ [1; 2]) =
    ChaCha20.xor_stream (replicate 32 3) 0 (replicate 12 1) (replicate 64 5) ++
    ChaCha20.xor_stream (replicate 32 3) 1 (replicate 12 1) [1; 2].
Proof. apply (chacha20_resumable (replicate 32 3) (replicate 12 1) 1 0 (replicate 64 5) [1; 2]); [split; done|done]. Defined.
