(* ===== verification/Ed25519.v ===== *)
(** * Ed25519 (crypto/src/ed25519.rs)

    Field elements in five 51-bit limbs, points in extended coordinates,
    scalars modulo the group order, signing and verification: one definition
    per function of the source.  Every machine operation is written at its
    width ([add64], [mul64], [add128], ...); what the values mean is in
    [Ed25519Field], [Ed25519Scalar] and [Ed25519Curve].

    [None] is a panic or a loop that has not ended within its fuel; the
    theorems show that neither happens. *)

From S2P Require Import Prelude RustStd HashStream Sha256 Sha512.

Definition sub64 (a b : Z) : Z := wrap 64 (a - b).
Definition mul64 (a b : Z) : Z := wrap 64 (a * b).
Definition shl64 (a n : Z) : Z := wrap 64 (Z.shiftl a n).
Definition add128 (a b : Z) : Z := wrap 128 (a + b).
Definition mul128 (a b : Z) : Z := wrap 128 (a * b).

Module Ed25519.

(** ** Field elements *)

Record Fe := mkFe { l0 : Z; l1 : Z; l2 : Z; l3 : Z; l4 : Z }.

Definition MASK51 : Z := Z.shiftl 1 51 - 1.

Definition TWO_P_LIMBS : Fe := mkFe (2 * (MASK51 - 18)) (2 * MASK51) (2 * MASK51) (2 * MASK51) (2 * MASK51).

Definition ZERO : Fe := mkFe 0 0 0 0 0.
Definition ONE : Fe := mkFe 1 0 0 0 0.

Definition from_u64 (v : Z) : Fe := mkFe (Z.land v MASK51) (Z.shiftr v 51) 0 0 0.

(** [le64(&b[off..off + 8])] *)
Definition le64 (b : list Z) (off : nat) : Z := from_le_bytes (slice off 8 b).

Definition from_bytes (b : list Z) : Fe :=
  mkFe (Z.land (le64 b 0) MASK51)
       (Z.land (Z.shiftr (le64 b 6) 3) MASK51)
       (Z.land (Z.shiftr (le64 b 12) 6) MASK51)
       (Z.land (Z.shiftr (le64 b 19) 1) MASK51)
       (Z.land (Z.shiftr (le64 b 24) 12) MASK51).

(** The carry chain [for i in 0..4]: each limb keeps 51 bits, the rest goes up. *)
Definition carry_chain (a : Fe) : Fe :=
  let l1 := add64 (l1 a) (Z.shiftr (l0 a) 51) in
  let l2 := add64 (l2 a) (Z.shiftr l1 51) in
  let l3 := add64 (l3 a) (Z.shiftr l2 51) in
  let l4 := add64 (l4 a) (Z.shiftr l3 51) in
  mkFe (Z.land (l0 a) MASK51) (Z.land l1 MASK51) (Z.land l2 MASK51) (Z.land l3 MASK51) l4.

(** What overflows the top limb comes back nineteen-fold at the bottom. *)
Definition fold_top (a : Fe) : Fe :=
  let c := Z.shiftr (l4 a) 51 in
  mkFe (add64 (l0 a) (mul64 c 19)) (l1 a) (l2 a) (l3 a) (Z.land (l4 a) MASK51).

(** [l.iter().any(|&x| x > M)] *)
Definition any_over (a : Fe) : bool :=
  (MASK51 <? l0 a) || (MASK51 <? l1 a) || (MASK51 <? l2 a) || (MASK51 <? l3 a) || (MASK51 <? l4 a).

(** The folding loop of [to_bytes]. *)
Fixpoint fold_carries (fuel : nat) (a : Fe) : option Fe :=
  if any_over a then
    match fuel with O => None | S fuel => fold_carries fuel (carry_chain (fold_top a)) end
  else Some a.

Definition pack_words (l : Fe) : list Z :=
  [ Z.lor (l0 l) (shl64 (l1 l) 51);
    Z.lor (Z.shiftr (l1 l) 13) (shl64 (l2 l) 38);
    Z.lor (Z.shiftr (l2 l) 26) (shl64 (l3 l) 25);
    Z.lor (Z.shiftr (l3 l) 39) (shl64 (l4 l) 12) ].

Definition PW : list Z := [0xffffffffffffffed; u64_max; u64_max; 0x7fffffffffffffff].

(** Lane comparison, most significant lane first. *)
Fixpoint cmp_lanes (a b : list Z) : comparison :=
  match a, b with
  | x :: a, y :: b => match x ?= y with Eq => cmp_lanes a b | c => c end
  | _, _ => Eq
  end.

(** Lane subtraction with borrow [br]. *)
Fixpoint sub_lanes (a b : list Z) (br : Z) : list Z :=
  match a, b with
  | x :: a, y :: b =>
      let cur := x - y - br in
      if cur <? 0 then wrap 64 (cur + 2 ^ 64) :: sub_lanes a b 1 else wrap 64 cur :: sub_lanes a b 0
  | _, _ => []
  end.

Definition reduce_words (ws : list Z) : list Z :=
  match cmp_lanes (rev ws) (rev PW) with Lt => ws | _ => sub_lanes ws PW 0 end.

(** Two passes empty every limb ([fold_carries_ends]). *)
Definition to_bytes (a : Fe) : list Z :=
  match fold_carries 2 a with
  | None => []
  | Some l => concat (to_le_bytes 8 <$> reduce_words (pack_words l))
  end.

Definition weak_reduce (a : Fe) : Fe := fold_top (carry_chain a).

Definition add (a b : Fe) : Fe :=
  weak_reduce (mkFe (add64 (l0 a) (l0 b)) (add64 (l1 a) (l1 b)) (add64 (l2 a) (l2 b)) (add64 (l3 a) (l3 b))
                    (add64 (l4 a) (l4 b))).

Definition sub (a b : Fe) : Fe :=
  let a := weak_reduce a in
  let b := weak_reduce b in
  let p := TWO_P_LIMBS in
  weak_reduce (mkFe (sub64 (add64 (l0 a) (l0 p)) (l0 b)) (sub64 (add64 (l1 a) (l1 p)) (l1 b))
                    (sub64 (add64 (l2 a) (l2 p)) (l2 b)) (sub64 (add64 (l3 a) (l3 p)) (l3 b))
                    (sub64 (add64 (l4 a) (l4 p)) (l4 b))).

Definition neg (a : Fe) : Fe := sub ZERO a.

(** The sum of five u128 products. *)
Definition dot5 (x0 y0 x1 y1 x2 y2 x3 y3 x4 y4 : Z) : Z :=
  add128 (add128 (add128 (add128 (mul128 x0 y0) (mul128 x1 y1)) (mul128 x2 y2)) (mul128 x3 y3)) (mul128 x4 y4).

(** The accumulators back to limbs: [for i in 1..5] after the first carry. *)
Definition fold_products (t0 t1 t2 t3 t4 : Z) : Fe :=
  let t1 := add128 t1 (wrap 64 (Z.shiftr t0 51)) in
  let t0 := Z.land t0 MASK51 in
  let t2 := add128 t2 (wrap 64 (Z.shiftr t1 51)) in
  let t1 := Z.land t1 MASK51 in
  let t3 := add128 t3 (wrap 64 (Z.shiftr t2 51)) in
  let t2 := Z.land t2 MASK51 in
  let t4 := add128 t4 (wrap 64 (Z.shiftr t3 51)) in
  let t3 := Z.land t3 MASK51 in
  let t0 := add128 t0 (mul128 (wrap 64 (Z.shiftr t4 51)) 19) in
  let t4 := Z.land t4 MASK51 in
  let t1 := add128 t1 (wrap 64 (Z.shiftr t0 51)) in
  let t0 := Z.land t0 MASK51 in
  mkFe (wrap 64 t0) (wrap 64 t1) (wrap 64 t2) (wrap 64 t3) (wrap 64 t4).

Definition mul (a b : Fe) : Fe :=
  let a := weak_reduce a in
  let b := weak_reduce b in
  let b1_19 := mul128 (l1 b) 19 in
  let b2_19 := mul128 (l2 b) 19 in
  let b3_19 := mul128 (l3 b) 19 in
  let b4_19 := mul128 (l4 b) 19 in
  fold_products
    (dot5 (l0 a) (l0 b) (l1 a) b4_19 (l2 a) b3_19 (l3 a) b2_19 (l4 a) b1_19)
    (dot5 (l0 a) (l1 b) (l1 a) (l0 b) (l2 a) b4_19 (l3 a) b3_19 (l4 a) b2_19)
    (dot5 (l0 a) (l2 b) (l1 a) (l1 b) (l2 a) (l0 b) (l3 a) b4_19 (l4 a) b3_19)
    (dot5 (l0 a) (l3 b) (l1 a) (l2 b) (l2 a) (l1 b) (l3 a) (l0 b) (l4 a) b4_19)
    (dot5 (l0 a) (l4 b) (l1 a) (l3 b) (l2 a) (l2 b) (l3 a) (l1 b) (l4 a) (l0 b)).

Definition square (a : Fe) : Fe := mul a a.

(** The bits of a little-endian number, most significant first:
    [for byte_idx in (0..32).rev()], [for bit in (0..8).rev()]. *)
Definition byte_bits (b : Z) : list bool := (fun i => Z.land (Z.shiftr b i) 1 =? 1) <$> rev (seqZ 0 8).
Definition bits_msb (e : list Z) : list bool := concat (byte_bits <$> rev e).

Definition pow_bytes_exp (a : Fe) (exp_le : list Z) : Fe :=
  foldl (fun r (b : bool) => let r := square r in if b then mul r a else r) ONE (bits_msb exp_le).

(** [exp_p_minus(k)]: the loop subtracts the bytes of [borrow] and stops at 0. *)
Fixpoint sub_small (e : list Z) (borrow : Z) : list Z :=
  match e with
  | [] => []
  | cur :: e =>
      let s := Z.land borrow 0xff in
      let '(x, borrow) :=
        if s <=? cur then (cur - s, Z.shiftr borrow 8) else (wrap 8 (cur + 256 - s), Z.shiftr borrow 8 + 1) in
      if borrow =? 0 then x :: e else x :: sub_small e borrow
  end.

Definition exp_p_minus (k : Z) : list Z := sub_small ([0xed] ++ replicate 30 0xff ++ [0x7f]) k.

(** From the top byte down, [carry] the bits shifted out of the byte above. *)
Fixpoint shr_bytes (e : list Z) (bits carry : Z) : list Z :=
  match e with
  | [] => []
  | x :: e =>
      let next := Z.land x (Z.shiftl 1 bits - 1) in
      Z.lor (Z.shiftr x bits) (wrap 8 (Z.shiftl carry (8 - bits))) :: shr_bytes e bits next
  end.

Definition exp_shr (e : list Z) (bits : Z) : list Z := rev (shr_bytes (rev e) bits 0).

Definition invert (a : Fe) : Fe := pow_bytes_exp a (exp_p_minus 2).

Definition is_negative (a : Fe) : bool := Z.land (nth 0 (to_bytes a) 0) 1 =? 1.
Definition is_zero (a : Fe) : bool := foldl Z.lor 0 (to_bytes a) =? 0.
Definition fe_eq (a b : Fe) : bool := is_zero (sub a b).
Definition conditional_negate (a : Fe) (choice : bool) : Fe := if choice then neg a else a.

Definition d_constant : Fe := mul (invert (from_u64 121666)) (neg (from_u64 121665)).
Definition sqrt_m1 : Fe := pow_bytes_exp (from_u64 2) (exp_shr (exp_p_minus 1) 2).

(** ** Points *)

Record Point := mkPoint { px : Fe; py : Fe; pz : Fe; pt : Fe }.

Definition identity : Point := mkPoint ZERO ONE ONE ZERO.

Definition point_eq (p q : Point) : bool :=
  fe_eq (mul (px p) (pz q)) (mul (px q) (pz p)) && fe_eq (mul (py p) (pz q)) (mul (py q) (pz p)).

Definition point_add (p q : Point) : Point :=
  let d := d_constant in
  let a := mul (sub (py p) (px p)) (sub (py q) (px q)) in
  let b := mul (add (py p) (px p)) (add (py q) (px q)) in
  let c := mul (mul (add (pt p) (pt p)) (pt q)) d in
  let dd := mul (add (pz p) (pz p)) (pz q) in
  let e := sub b a in
  let f := sub dd c in
  let g := add dd c in
  let h := add b a in
  mkPoint (mul e f) (mul g h) (mul f g) (mul e h).

(** [out[31] |= 0x80] *)
Definition set_sign (out : list Z) : list Z := alter (fun b => Z.lor b 0x80) 31%nat out.

Definition compress (p : Point) : list Z :=
  let zinv := invert (pz p) in
  let x := mul (px p) zinv in
  let y := mul (py p) zinv in
  let out := to_bytes y in
  if is_negative x then set_sign out else out.

(** The root and sign selection of [decompress]. *)
Definition recover_x (y : Fe) : option Fe :=
  let yy := square y in
  let u := sub yy ONE in
  let v := add (mul d_constant yy) ONE in
  let v3 := mul (square v) v in
  let v7 := mul (square v3) v in
  let exp := exp_shr (exp_p_minus 5) 3 in
  let x := mul (mul u v3) (pow_bytes_exp (mul u v7) exp) in
  let check := mul (square x) v in
  if fe_eq check u then Some x
  else if fe_eq check (neg u) then Some (mul x sqrt_m1)
  else None.

Definition decompress (bytes : list Z) : option Point :=
  let sign := Z.shiftr (nth 31 bytes 0) 7 =? 1 in
  let yb := alter (fun b => Z.land b 0x7f) 31%nat bytes in
  let y := from_bytes yb in
  let? x := recover_x y in
  if is_zero x && sign then None else
  let x := if negb (eqb (is_negative x) sign) then conditional_negate x true else x in
  Some (mkPoint x y ONE (mul x y)).

(** [None] is the [expect]. *)
Definition basepoint : option Point :=
  decompress (to_bytes (mul (from_u64 4) (invert (from_u64 5)))).

(** One bit of double-and-add; leading zeros are skipped. *)
Definition mul_step (p : Point) (st : bool * Point) (b : bool) : bool * Point :=
  let '(started, acc) := st in
  if negb started then if b then (true, p) else (false, acc)
  else
    let acc := point_add acc acc in
    (true, if b then point_add acc p else acc).

Definition scalar_mul_point (scalar_le : list Z) (p : Point) : Point :=
  snd (foldl (mul_step p) (false, identity) (bits_msb scalar_le)).

Definition scalar_mul_base (scalar_le : list Z) : option Point :=
  scalar_mul_point scalar_le <$> basepoint.

(** ** Scalars modulo the group order *)

Definition L_LIMBS : list Z :=
  [0x5cf5d3ed; 0x5812631a; 0xa2f79cd6; 0x14def9de; 0; 0; 0; 0x10000000].

(** From limb 7 down; [a] has nine limbs, of which the low eight count. *)
Definition limbs_geq (a b : list Z) : bool :=
  match cmp_lanes (rev (take 8 a)) (rev b) with Lt => false | _ => true end.

Fixpoint limbs_sub (a b : list Z) (borrow : Z) : list Z :=
  match a, b with
  | cur :: a, y :: b =>
      let s := add64 y borrow in
      wrap 32 (wrap 64 (cur - s)) :: limbs_sub a b (if cur <? s then 1 else 0)
  | _, _ => a
  end.

(** [rem = rem << 1 | b], carrying through the limbs. *)
Fixpoint shl1 (rem : list Z) (carry : Z) : list Z :=
  match rem with
  | [] => []
  | limb :: rem => Z.lor (wrap 32 (Z.shiftl limb 1)) carry :: shl1 rem (Z.shiftr limb 31)
  end.

Definition mod_l_step (rem : list Z) (b : bool) : list Z :=
  let rem := shl1 rem (if b then 1 else 0) in
  if limbs_geq rem L_LIMBS then limbs_sub rem L_LIMBS 0 else rem.

Definition mod_l (input_le : list Z) : list Z :=
  let rem := foldl mod_l_step (replicate 9 0) (bits_msb input_le) in
  concat (to_le_bytes 4 <$> take 8 rem).

Definition bytes_geq_l (bytes : list Z) : bool :=
  let lb := concat (to_le_bytes 4 <$> L_LIMBS) in
  match cmp_lanes (rev bytes) (rev lb) with Lt => false | _ => true end.

(** [aa[i]] and [bb[i]]: the u32 words of a scalar. *)
Definition words32 (a : list Z) : list Z := (fun i => from_le_bytes (slice (4 * i) 4 a)) <$> seq 0 8.

(** The inner loop: [prod[i..]] gets [x * bb] added, the carry goes on top. *)
Fixpoint mul_row (prod : list Z) (x : Z) (bb : list Z) (carry : Z) : list Z :=
  match prod, bb with
  | q :: prod, y :: bb =>
      let cur := add64 (add64 q (mul64 x y)) carry in
      wrap 32 cur :: mul_row prod x bb (Z.shiftr cur 32)
  | q :: prod, [] => add32 q (wrap 32 carry) :: prod
  | [], _ => []
  end.

(** The outer loop over the limbs of [a]: row [i] starts at [prod[i]]. *)
Fixpoint mul_rows (prod aa bb : list Z) : list Z :=
  match aa with
  | [] => prod
  | x :: aa =>
      match mul_row prod x bb 0 with
      | [] => []
      | q :: prod => q :: mul_rows prod aa bb
      end
  end.

(** Bytewise addition of [c] into [wide]; past [c] the carry ripples on. *)
Fixpoint add_bytes (wide c : list Z) (carry : Z) : list Z :=
  match wide, c with
  | [], _ => []
  | w :: wide, x :: c =>
      let s := add64 (add64 w x) carry in
      wrap 8 s :: add_bytes wide c (Z.shiftr s 8)
  | w :: wide, [] =>
      if 0 <? carry then
        let s := add64 w carry in
        wrap 8 s :: add_bytes wide [] (Z.shiftr s 8)
      else w :: wide
  end.

Definition mul_add_mod_l (a b c : list Z) : list Z :=
  let prod := mul_rows (replicate 34 0) (words32 a) (words32 b) in
  let wide := splice 0 (concat (to_le_bytes 4 <$> prod)) (replicate 144 0) in
  mod_l (add_bytes wide c 0).

(** ** Public interface *)

Definition SEED_LEN : nat := 32.
Definition PUBLIC_LEN : nat := 32.
Definition SIGNATURE_LEN : nat := 64.

Definition clamp (a : list Z) : list Z :=
  alter (fun b => Z.lor (Z.land b 127) 64) 31%nat (alter (fun b => Z.land b 248) 0%nat a).

Definition expand_seed (seed : list Z) : list Z * list Z :=
  let h := Sha512.sha512 seed in
  (clamp (slice 0 32 h), slice 32 32 h).

Definition public_from_seed (seed : list Z) : option (list Z) :=
  let (a, _) := expand_seed seed in
  p ← scalar_mul_base a;
  Some (compress p).

Definition keypair (seed : list Z) : option (list Z * list Z) :=
  p ← public_from_seed seed; Some (p, seed).

(** [Sha512::new()], an update per piece, [finalize()], reduced. *)
Definition hash_mod_l (pieces : list (list Z)) : option (list Z) :=
  h ← Sha512.finalize (foldl Sha512.update Sha512.new pieces);
  Some (mod_l h).

Definition sign (seed msg : list Z) : option (list Z) :=
  let (a_scalar, prefix) := expand_seed seed in
  a_point ← scalar_mul_base a_scalar;
  let a_bytes := compress a_point in
  r ← hash_mod_l [prefix; msg];
  big_r ← scalar_mul_base r;
  let r_bytes := compress big_r in
  k ← hash_mod_l [r_bytes; a_bytes; msg];
  let s := mul_add_mod_l k a_scalar r in
  Some (r_bytes ++ s).

Inductive VerifyError := Malformed | Invalid.

Definition verify (public msg sig : list Z) : option (result unit VerifyError) :=
  let r_bytes := slice 0 32 sig in
  let s_bytes := slice 32 32 sig in
  if bytes_geq_l s_bytes then Some (Err Malformed) else
  match decompress r_bytes with
  | None => Some (Err Malformed)
  | Some big_r =>
      match decompress public with
      | None => Some (Err Malformed)
      | Some a_point =>
          k ← hash_mod_l [r_bytes; public; msg];
          lhs ← scalar_mul_base s_bytes;
          let rhs := point_add big_r (scalar_mul_point k a_point) in
          Some (if point_eq lhs rhs then Ok tt else Err Invalid)
      end
  end.

Definition mix_entropy (inputs : list (list Z)) : option (list Z) :=
  Sha256.finalize
    (foldl (fun h i => Sha256.update (Sha256.update h (to_le_bytes 8 (Z.of_nat (length i)))) i) Sha256.new inputs).
End Ed25519.
