(* ===== verification/Limbs.v ===== *)
(** * Numbers as lists of limbs

    Little-endian lists of [w]-bit limbs: value, bytes, comparison,
    subtraction.  Used for the 64-bit words of field elements and the 32-bit
    limbs of scalars. *)

From S2P Require Import Prelude RustStd HashStream Sha256 Sha512 Ed25519.
Import Ed25519.

(** The value of a list of limbs in radix [2^w]. *)
Fixpoint lval (w : Z) (l : list Z) : Z :=
  match l with
  | [] => 0
  | x :: l => x + 2 ^ w * lval w l
  end.

Abbreviation limbs_ok w := (Forall (fits w)).

Lemma lval_bound w l : 0 <= w -> limbs_ok w l -> 0 <= lval w l < 2 ^ (w * Z.of_nat (length l)).
Proof.
  intros Hw. induction 1 as [|x l Hx _ IH]; [simpl; rewrite Z.mul_0_r; simpl; lia|]. cbn [lval length]. red in Hx.
  rewrite Nat2Z.inj_succ, Z.mul_succ_r, Z.pow_add_r by lia. nia.
Qed.

Lemma lval_app w l1 l2 : 0 <= w -> lval w (l1 ++ l2) = lval w l1 + 2 ^ (w * Z.of_nat (length l1)) * lval w l2.
Proof.
  intros Hw. induction l1 as [|x l1 IH]; [simpl; rewrite Z.mul_0_r; simpl; lia|]. cbn [lval app length]. rewrite IH.
  rewrite Nat2Z.inj_succ, Z.mul_succ_r, Z.pow_add_r by lia. ring.
Qed.

Lemma lval_8 bs : lval 8 bs = from_le_bytes bs.
Proof. induction bs as [|b bs IH]; [done|]. cbn [lval from_le_bytes]. by rewrite IH. Qed.

Lemma lval_zeros w n : lval w (replicate n 0) = 0.
Proof. induction n as [|n IH]; [done|]. cbn [replicate lval]. rewrite IH. lia. Qed.

(** The bytes of a list of limbs are the bytes of its value. *)
Lemma to_le_bytes_add n m x y :
  0 <= x < 256 ^ Z.of_nat n -> to_le_bytes (n + m) (x + 256 ^ Z.of_nat n * y) = to_le_bytes n x ++ to_le_bytes m y.
Proof.
  revert x. induction n as [|n IH]; intros x Hx.
  - simpl in *. f_equal. lia.
  - cbn [Nat.add to_le_bytes app]. rewrite Nat2Z.inj_succ, Z.pow_succ_r in * by lia. f_equal.
    + rewrite <- Z.mul_assoc, (Z.mul_comm 256), Z.mod_add by lia. done.
    + rewrite <- Z.mul_assoc, (Z.mul_comm 256), Z.div_add by lia. apply IH.
      split; [apply Z.div_pos; lia|]. apply Z.div_lt_upper_bound; lia.
Qed.

Lemma limb_bytes n w l :
  w = 8 * Z.of_nat n -> limbs_ok w l ->
  concat (to_le_bytes n <$> l) = to_le_bytes (n * length l) (lval w l).
Proof.
  intros ->. assert (E : forall k, 2 ^ (8 * Z.of_nat k) = 256 ^ Z.of_nat k) by (intros; by rewrite Z.pow_mul_r by lia).
  induction 1 as [|x l Hx _ IH]; [by rewrite Nat.mul_0_r|].
  rewrite fmap_cons. cbn [concat lval length]. rewrite IH, E, Nat.mul_succ_r, Nat.add_comm.
  by rewrite to_le_bytes_add by (rewrite <- E; exact Hx).
Qed.

(** ** Comparison *)

Lemma cmp_lanes_app a b c d :
  length a = length b -> cmp_lanes (a ++ c) (b ++ d) = match cmp_lanes a b with Eq => cmp_lanes c d | r => r end.
Proof.
  revert b. induction a as [|x a IH]; intros [|y b] Hl; try done. simpl in *. destruct (x ?= y); auto.
Qed.

(** From the most significant limb down is comparison of the values. *)
Lemma cmp_lanes_spec w a b :
  0 <= w -> limbs_ok w a -> limbs_ok w b -> length a = length b ->
  cmp_lanes (rev a) (rev b) = (lval w a ?= lval w b).
Proof.
  intros Hw Ha. revert b. induction Ha as [|x a Hx Ha IH]; intros [|y b] Hb Hl; try done.
  inversion Hb as [|?? Hy Hb']; subst. simpl in Hl. cbn [rev lval].
  rewrite cmp_lanes_app by (rewrite !length_rev; lia). rewrite IH by (done || lia). red in Hx, Hy.
  destruct (Z.compare_spec (lval w a) (lval w b)) as [E|E|E].
  - rewrite E. simpl. destruct (Z.compare_spec x y); symmetry;
      [apply Z.compare_eq_iff|apply Z.compare_lt_iff|apply Z.compare_gt_iff]; lia.
  - symmetry. apply Z.compare_lt_iff. nia.
  - symmetry. apply Z.compare_gt_iff. nia.
Qed.

(** ** Subtraction with borrow *)

Lemma sub_lanes_spec a b br :
  limbs_ok 64 a -> limbs_ok 64 b -> length a = length b -> br = 0 \/ br = 1 -> lval 64 b + br <= lval 64 a ->
  lval 64 (sub_lanes a b br) = lval 64 a - lval 64 b - br /\ limbs_ok 64 (sub_lanes a b br) /\
  length (sub_lanes a b br) = length a.
Proof.
  intros Ha. revert b br. induction Ha as [|x a Hx Ha IH]; intros [|y b] br Hb Hl Hbr Hle; try done.
  { simpl in *. split; [lia|]. done. }
  inversion Hb as [|?? Hy Hb']; subst. cbn [length] in Hl. cbn [lval sub_lanes] in *. unfold fits in Hx, Hy.
  destruct (Z.ltb_spec (x - y - br) 0) as [Hlt|Hge].
  - destruct (IH b 1) as (E & Ho & Hn); [done|lia|lia|lia|]. rewrite wrap_small by (red; lia). cbn [lval length].
    rewrite E, Hn. split; [lia|]. split; [constructor; [red; lia|done]|done].
  - destruct (IH b 0) as (E & Ho & Hn); [done|lia|lia|lia|]. rewrite wrap_small by (red; lia). cbn [lval length].
    rewrite E, Hn. split; [lia|]. split; [constructor; [red; lia|done]|done].
Qed.

(** ** Disjoint bits *)

Lemma lor_disjoint k x y : 0 <= k -> 0 <= x < 2 ^ k -> Z.lor x (2 ^ k * y) = x + 2 ^ k * y.
Proof.
  intros Hk Hx. symmetry. apply Z.add_nocarry_lor. apply Z.bits_inj'. intros i Hi.
  rewrite Z.land_spec, Z.bits_0, Z.mul_comm. destruct (Z.lt_ge_cases i k).
  - by rewrite (Z.mul_pow2_bits_low y), andb_false_r by lia.
  - rewrite <- (Z.mod_small x (2 ^ k)), Z.mod_pow2_bits_high by lia. done.
Qed.

Lemma lor_shl64 k x y :
  0 <= k <= 64 -> 0 <= x < 2 ^ k -> Z.lor x (shl64 y k) = x + 2 ^ k * (y mod 2 ^ (64 - k)).
Proof.
  intros Hk Hx. unfold shl64, wrap. rewrite Z.shiftl_mul_pow2, Z.mul_comm by lia.
  replace (2 ^ 64) with (2 ^ k * 2 ^ (64 - k)) by (rewrite <- Z.pow_add_r by lia; f_equal; lia).
  rewrite Z.mul_mod_distr_l by lia. apply lor_disjoint; lia.
Qed.
