(* ===== verification/Ed25519Field.v ===== *)
(** * The field of Ed25519

    The limb arithmetic of [Ed25519] computes in the integers modulo
    [P = 2^255 - 19]: no operation wraps on limbs below 2^52, every result is
    again such, and the canonical encoding is that of the residue. *)

From Stdlib Require Import Setoid Morphisms Ring.
From S2P Require Import Prelude RustStd HashStream Sha256 Sha512 Ed25519 Limbs.
Import Ed25519.

Definition P : Z := 2 ^ 255 - 19.

(** ** Residues *)

Definition cong (a b : Z) : Prop := exists k, a = b + k * P.
Infix "≡p" := cong (at level 70, no associativity) : redoubt_scope.

Lemma cong_iff a b : a ≡p b <-> a mod P = b mod P.
Proof.
  split; [intros [k ->]; by rewrite Z.mod_add|]. intros H. exists (a / P - b / P).
  pose proof (Z.div_mod a P ltac:(done)). pose proof (Z.div_mod b P ltac:(done)). lia.
Qed.

#[global] Instance cong_equiv : Equivalence cong.
Proof.
  split.
  - intros a. by apply cong_iff.
  - intros a b. rewrite !cong_iff. congruence.
  - intros a b c. rewrite !cong_iff. congruence.
Qed.

#[global] Instance cong_add : Proper (cong ==> cong ==> cong) Z.add.
Proof. intros a a' [k ->] b b' [k' ->]. exists (k + k'). ring. Qed.
#[global] Instance cong_mul : Proper (cong ==> cong ==> cong) Z.mul.
Proof. intros a a' [k ->] b b' [k' ->]. exists (k * b' + k' * a' + k * k' * P). ring. Qed.
#[global] Instance cong_sub : Proper (cong ==> cong ==> cong) Z.sub.
Proof. intros a a' [k ->] b b' [k' ->]. exists (k - k'). ring. Qed.
#[global] Instance cong_opp : Proper (cong ==> cong) Z.opp.
Proof. intros a a' [k ->]. exists (- k). ring. Qed.

Lemma cong_mod a : a mod P ≡p a.
Proof. apply cong_iff. by rewrite Z.mod_mod. Qed.

Lemma cong_eq a b : a = b -> a ≡p b.
Proof. by intros ->. Qed.

#[global] Instance cong_pow : Proper (cong ==> eq ==> cong) Z.pow.
Proof.
  intros a b H n ? <-. destruct (Z.lt_ge_cases n 0) as [Hn|Hn]; [by rewrite !Z.pow_neg_r by done|].
  revert n Hn. apply natlike_ind; [done|]. intros n Hn IH. rewrite !Z.pow_succ_r by done. by apply cong_mul.
Qed.

(** ** Limbs *)

Definition fval (a : Fe) : Z := l0 a + 2 ^ 51 * l1 a + 2 ^ 102 * l2 a + 2 ^ 153 * l3 a + 2 ^ 204 * l4 a.

(** Every limb below [n]. *)
Definition below (n : Z) (a : Fe) : Prop :=
  0 <= l0 a < n /\ 0 <= l1 a < n /\ 0 <= l2 a < n /\ 0 <= l3 a < n /\ 0 <= l4 a < n.

(** The operands the curve arithmetic produces: weakly reduced. *)
Definition fe_ok (a : Fe) : Prop := below (2 ^ 52) a.

Lemma below_le m n a : below m a -> m <= n -> below n a.
Proof. unfold below. lia. Qed.

Lemma mask51 x : Z.land x MASK51 = x mod 2 ^ 51.
Proof. change MASK51 with (Z.ones 51). by apply Z.land_ones. Qed.
Lemma shr51 x : Z.shiftr x 51 = x / 2 ^ 51.
Proof. by apply Z.shiftr_div_pow2. Qed.

(** Name the quotient and the remainder of the limb split of [x]. *)
Ltac split51 x :=
  let q := fresh "q" in let r := fresh "r" in
  pose proof (Z.div_mod x (2 ^ 51) ltac:(done));
  pose proof (Z.mod_pos_bound x (2 ^ 51) ltac:(done));
  set (q := x / 2 ^ 51) in *; set (r := x mod 2 ^ 51) in *; clearbody q r.

(** No operation of the goal wraps: innermost first, bounds by [lia]. *)
Ltac no_wrap :=
  repeat match goal with
  | |- context [wrap ?w ?x] =>
      lazymatch x with context [wrap _ _] => fail | context [_ / 2 ^ 51] => fail | _ => idtac end;
      rewrite (wrap_small w x) by (red; lia)
  | |- context [?x / 2 ^ 51] =>
      lazymatch x with context [wrap _ _] => fail | context [_ / 2 ^ 51] => fail | _ => split51 x end
  | |- context [?x mod 2 ^ 51] =>
      lazymatch x with context [wrap _ _] => fail | context [_ / 2 ^ 51] => fail | _ => split51 x end
  end.

Lemma carry_chain_spec a :
  below (2 ^ 63) a ->
  fval (carry_chain a) = fval a /\
  0 <= l0 (carry_chain a) < 2 ^ 51 /\ 0 <= l1 (carry_chain a) < 2 ^ 51 /\
  0 <= l2 (carry_chain a) < 2 ^ 51 /\ 0 <= l3 (carry_chain a) < 2 ^ 51 /\
  l4 a <= l4 (carry_chain a) < l4 a + 2 ^ 13.
Proof.
  destruct a as [a0 a1 a2 a3 a4]. unfold below, carry_chain, fval, add64. cbn [l0 l1 l2 l3 l4].
  rewrite !mask51, !shr51. intros (H0 & H1 & H2 & H3 & H4). no_wrap. lia.
Qed.

Lemma fold_top_spec a :
  below (2 ^ 63) a -> exists c,
  c = l4 a / 2 ^ 51 /\ fval (fold_top a) = fval a - c * P /\
  fold_top a = mkFe (l0 a + 19 * c) (l1 a) (l2 a) (l3 a) (l4 a - 2 ^ 51 * c) /\ 0 <= l4 a - 2 ^ 51 * c < 2 ^ 51.
Proof.
  destruct a as [a0 a1 a2 a3 a4]. unfold below, fold_top, fval, add64, mul64. cbn [l0 l1 l2 l3 l4].
  rewrite !mask51, !shr51. intros (H0 & H1 & H2 & H3 & H4). eexists. split; [done|]. unfold P. no_wrap.
  split; [lia|]. split; [f_equal; lia|lia].
Qed.

Lemma weak_reduce_spec a :
  below (2 ^ 63) a -> fval (weak_reduce a) ≡p fval a /\ below (2 ^ 51 + 2 ^ 18) (weak_reduce a).
Proof.
  intros Ha. destruct (carry_chain_spec a Ha) as (Ev & B0 & B1 & B2 & B3 & B4).
  assert (H4 : l4 (carry_chain a) < 2 ^ 63 + 2 ^ 13) by (unfold below in Ha; lia).
  (* the carry out of limb 3 is below 2^13, so limb 4 still fits a word *)
  unfold weak_reduce, fold_top. set (b := carry_chain a) in *. clearbody b. destruct b as [b0 b1 b2 b3 b4].
  unfold below, fval, add64, mul64 in *. cbn [l0 l1 l2 l3 l4] in *. rewrite mask51, shr51. no_wrap.
  split; [|lia]. rewrite <- Ev. exists (- q). unfold P. lia.
Qed.

Lemma add_spec a b : fe_ok a -> fe_ok b -> fval (add a b) ≡p fval a + fval b /\ fe_ok (add a b).
Proof.
  intros Ha Hb. unfold add, add64. destruct a as [a0 a1 a2 a3 a4], b as [b0 b1 b2 b3 b4].
  unfold fe_ok, below in Ha, Hb. cbn [l0 l1 l2 l3 l4] in *. no_wrap.
  set (s := mkFe _ _ _ _ _). destruct (weak_reduce_spec s) as [Ev Hs]; [unfold s, below; cbn; lia|].
  split; [rewrite Ev; apply cong_eq; unfold s, fval; cbn [l0 l1 l2 l3 l4]; ring|].
  eapply below_le; [exact Hs|done].
Qed.

Lemma sub_spec a b : fe_ok a -> fe_ok b -> fval (sub a b) ≡p fval a - fval b /\ fe_ok (sub a b).
Proof.
  intros Ha Hb. unfold sub. destruct (weak_reduce_spec a) as [Ea Ha']; [by eapply below_le|].
  destruct (weak_reduce_spec b) as [Eb Hb']; [by eapply below_le|]. rewrite <- Ea, <- Eb. clear - Ha' Hb'.
  set (a' := weak_reduce a) in *. set (b' := weak_reduce b) in *. clearbody a' b'.
  destruct a' as [a0 a1 a2 a3 a4], b' as [b0 b1 b2 b3 b4]. unfold add64, sub64.
  change TWO_P_LIMBS with (mkFe (2 ^ 52 - 38) (2 ^ 52 - 2) (2 ^ 52 - 2) (2 ^ 52 - 2) (2 ^ 52 - 2)).
  unfold below in Ha', Hb'. cbn [l0 l1 l2 l3 l4] in *. no_wrap.
  set (s := mkFe _ _ _ _ _). destruct (weak_reduce_spec s) as [Ev Hs]; [unfold s, below; cbn; lia|].
  split; [rewrite Ev; exists 2; unfold s, fval, P; cbn [l0 l1 l2 l3 l4]; lia|].
  eapply below_le; [exact Hs|done].
Qed.

Lemma dot5_spec n x0 y0 x1 y1 x2 y2 x3 y3 x4 y4 :
  n = 2 ^ 51 + 2 ^ 18 ->
  0 <= x0 < n -> 0 <= x1 < n -> 0 <= x2 < n -> 0 <= x3 < n -> 0 <= x4 < n ->
  0 <= y0 < 19 * n -> 0 <= y1 < 19 * n -> 0 <= y2 < 19 * n -> 0 <= y3 < 19 * n -> 0 <= y4 < 19 * n ->
  dot5 x0 y0 x1 y1 x2 y2 x3 y3 x4 y4 = x0 * y0 + x1 * y1 + x2 * y2 + x3 * y3 + x4 * y4 /\
  0 <= x0 * y0 + x1 * y1 + x2 * y2 + x3 * y3 + x4 * y4 < 2 ^ 110.
Proof.
  intros Hn. intros. assert (B : forall x y, 0 <= x < n -> 0 <= y < 19 * n -> 0 <= x * y < 2 ^ 107).
  { intros x y Hx Hy. split; [lia|]. apply Z.le_lt_trans with (n * (19 * n)); [nia|]. by rewrite Hn. }
  pose proof (B x0 y0). pose proof (B x1 y1). pose proof (B x2 y2). pose proof (B x3 y3). pose proof (B x4 y4).
  clear B. unfold dot5, add128, mul128. no_wrap. lia.
Qed.

Lemma fold_products_spec t0 t1 t2 t3 t4 :
  0 <= t0 < 2 ^ 110 -> 0 <= t1 < 2 ^ 110 -> 0 <= t2 < 2 ^ 110 -> 0 <= t3 < 2 ^ 110 -> 0 <= t4 < 2 ^ 110 ->
  fval (fold_products t0 t1 t2 t3 t4) ≡p t0 + 2 ^ 51 * t1 + 2 ^ 102 * t2 + 2 ^ 153 * t3 + 2 ^ 204 * t4 /\
  fe_ok (fold_products t0 t1 t2 t3 t4).
Proof.
  intros H0 H1 H2 H3 H4. unfold fold_products, fe_ok, below, fval, add128, mul128. cbn [l0 l1 l2 l3 l4].
  rewrite !mask51, !shr51. no_wrap. split; [|lia].
  exists (- q3). unfold P. lia.
Qed.

Lemma mul_spec a b : fe_ok a -> fe_ok b -> fval (mul a b) ≡p fval a * fval b /\ fe_ok (mul a b).
Proof.
  intros Ha Hb. unfold mul. destruct (weak_reduce_spec a) as [Ea Ha']; [by eapply below_le|].
  destruct (weak_reduce_spec b) as [Eb Hb']; [by eapply below_le|]. rewrite <- Ea, <- Eb. clear - Ha' Hb'.
  set (a' := weak_reduce a) in *. set (b' := weak_reduce b) in *. clearbody a' b'.
  destruct a' as [a0 a1 a2 a3 a4], b' as [b0 b1 b2 b3 b4].
  assert (E19 : forall x, 0 <= x < 2 ^ 52 -> mul128 x 19 = x * 19) by (intros; unfold mul128; by no_wrap).
  unfold below in Ha', Hb'. cbn [l0 l1 l2 l3 l4] in *. rewrite !E19 by lia.
  destruct (dot5_spec _ a0 b0 a1 (b4 * 19) a2 (b3 * 19) a3 (b2 * 19) a4 (b1 * 19) eq_refl) as [-> B0]; [lia..|].
  destruct (dot5_spec _ a0 b1 a1 b0 a2 (b4 * 19) a3 (b3 * 19) a4 (b2 * 19) eq_refl) as [-> B1]; [lia..|].
  destruct (dot5_spec _ a0 b2 a1 b1 a2 b0 a3 (b4 * 19) a4 (b3 * 19) eq_refl) as [-> B2]; [lia..|].
  destruct (dot5_spec _ a0 b3 a1 b2 a2 b1 a3 b0 a4 (b4 * 19) eq_refl) as [-> B3]; [lia..|].
  destruct (dot5_spec _ a0 b4 a1 b3 a2 b2 a3 b1 a4 b0 eq_refl) as [-> B4]; [lia..|].
  destruct (fold_products_spec _ _ _ _ _ B0 B1 B2 B3 B4) as [Ev Hok]. split; [|done]. rewrite Ev.
  (* a product of limbs whose weights exceed 2^255 comes back nineteen-fold *)
  unfold fval. cbn [l0 l1 l2 l3 l4].
  exists (- (a1 * b4 + a2 * b3 + a3 * b2 + a4 * b1 + 2 ^ 51 * (a2 * b4 + a3 * b3 + a4 * b2) +
             2 ^ 102 * (a3 * b4 + a4 * b3) + 2 ^ 153 * (a4 * b4))). unfold P. ring.
Qed.

Lemma zero_ok : fe_ok ZERO.
Proof. unfold fe_ok, below. cbn. lia. Qed.
Lemma one_ok : fe_ok ONE.
Proof. unfold fe_ok, below. cbn. lia. Qed.
Lemma fval_one : fval ONE = 1.
Proof. done. Qed.
Lemma fval_zero : fval ZERO = 0.
Proof. done. Qed.

Lemma from_u64_spec v : fits 64 v -> fval (from_u64 v) = v /\ fe_ok (from_u64 v).
Proof.
  unfold fits, from_u64, fe_ok, below, fval. cbn [l0 l1 l2 l3 l4]. rewrite mask51, shr51. intros. no_wrap. lia.
Qed.

(** ** The canonical encoding *)

Lemma any_over_false a : any_over a = false <-> l0 a < 2 ^ 51 /\ l1 a < 2 ^ 51 /\ l2 a < 2 ^ 51 /\ l3 a < 2 ^ 51 /\ l4 a < 2 ^ 51.
Proof. unfold any_over. change MASK51 with (2 ^ 51 - 1). rewrite !orb_false_iff, !Z.ltb_ge. lia. Qed.

(** One pass of the folding loop, on any five words. *)
Lemma fold_pass_small a :
  below (2 ^ 64) a ->
  let b := carry_chain (fold_top a) in
  below (2 ^ 51) (mkFe (l0 b) (l1 b) (l2 b) (l3 b) 0) /\ 0 <= l4 b < 2 ^ 51 + 2 ^ 13.
Proof.
  destruct a as [a0 a1 a2 a3 a4]. unfold below, carry_chain, fold_top, add64, mul64. cbn [l0 l1 l2 l3 l4].
  rewrite !mask51, !shr51. intros _.
  assert (M : forall x, 0 <= x mod 2 ^ 51 < 2 ^ 51) by (intros; by apply Z.mod_pos_bound).
  assert (W : forall x, 0 <= wrap 64 x / 2 ^ 51 < 2 ^ 13).
  { intros x. pose proof (wrap_fits 64 x ltac:(lia)) as Hx. red in Hx.
    split; [apply Z.div_pos; lia|apply Z.div_lt_upper_bound; lia]. }
  repeat split; try apply M; try lia.
  all: rewrite wrap_small; [|red]; match goal with |- context [?x mod 2 ^ 51 + wrap 64 ?y / 2 ^ 51] => specialize (M x); specialize (W y) end; lia.
Qed.

(** A pass on limbs that are nearly reduced leaves every limb within 51 bits. *)
Lemma fold_pass_done a :
  below (2 ^ 51) (mkFe (l0 a) (l1 a) (l2 a) (l3 a) 0) -> 0 <= l4 a < 2 ^ 51 + 2 ^ 13 ->
  below (2 ^ 51) (carry_chain (fold_top a)).
Proof.
  destruct a as [a0 a1 a2 a3 a4]. unfold below, carry_chain, fold_top, add64, mul64. cbn [l0 l1 l2 l3 l4].
  rewrite !mask51, !shr51. intros (H0 & H1 & H2 & H3 & _) H4. no_wrap. lia.
Qed.

Lemma fold_pass_value a : below (2 ^ 62) a -> fval (carry_chain (fold_top a)) ≡p fval a.
Proof.
  intros Ha. destruct (fold_top_spec a) as (c & Hc & Ev & Es & Hb); [by eapply below_le|].
  destruct (carry_chain_spec (fold_top a)) as [Ev' _].
  { rewrite Es. unfold below in *. cbn [l0 l1 l2 l3 l4]. lia. }
  rewrite Ev', Ev. exists (- c). ring.
Qed.

Lemma below_any_over a : below (2 ^ 51) a -> any_over a = false.
Proof. intros H. apply any_over_false. unfold below in H. lia. Qed.

(** The loop of [to_bytes] ends after at most two passes, on any words. *)
Lemma fold_carries_ends a : below (2 ^ 64) a -> exists l, fold_carries 2 a = Some l /\ below (2 ^ 51) l.
Proof.
  intros Ha. cbn [fold_carries]. destruct (any_over a) eqn:E.
  2:{ exists a. split; [done|]. apply any_over_false in E. unfold below in *. lia. }
  destruct (fold_pass_small a Ha) as [H1 H2]. set (b := carry_chain (fold_top a)) in *.
  destruct (any_over b) eqn:Eb.
  - exists (carry_chain (fold_top b)). pose proof (fold_pass_done b H1 H2) as Hd. by rewrite (below_any_over _ Hd).
  - exists b. split; [done|]. apply any_over_false in Eb. unfold below in *. cbn [l0 l1 l2 l3 l4] in *. lia.
Qed.

Lemma fold_carries_value a l : below (2 ^ 62) a -> fold_carries 2 a = Some l -> fval l ≡p fval a.
Proof.
  intros Ha. cbn [fold_carries]. destruct (any_over a); [|by intros [= <-]].
  destruct (fold_pass_small a) as [H1 H2]; [by eapply below_le|].
  pose proof (fold_pass_value a Ha) as Ev. set (b := carry_chain (fold_top a)) in *.
  destruct (any_over b); [|by intros [= <-]]. destruct (any_over _); [done|]. intros [= <-].
  rewrite fold_pass_value; [done|]. unfold below in *. cbn [l0 l1 l2 l3 l4] in *. lia.
Qed.

Lemma pack_words_spec l : below (2 ^ 51) l -> lval 64 (pack_words l) = fval l /\ limbs_ok 64 (pack_words l).
Proof.
  destruct l as [a0 a1 a2 a3 a4]. unfold below, pack_words, fval. cbn [l0 l1 l2 l3 l4].
  intros (H0 & H1 & H2 & H3 & H4). rewrite !Z.shiftr_div_pow2 by lia.
  assert (S : forall x k, 0 <= x < 2 ^ 51 -> 0 <= k <= 51 -> 0 <= x / 2 ^ k < 2 ^ (51 - k)).
  { intros x k Hx Hk. split; [apply Z.div_pos; lia|]. apply Z.div_lt_upper_bound; [lia|].
    rewrite <- Z.pow_add_r by lia. replace (k + (51 - k)) with 51 by lia. lia. }
  pose proof (S a1 13 H1 ltac:(lia)). pose proof (S a2 26 H2 ltac:(lia)). pose proof (S a3 39 H3 ltac:(lia)). clear S.
  rewrite !lor_shl64 by lia. cbn [lval].
  change (2 ^ (64 - 51)) with (2 ^ 13). change (2 ^ (64 - 38)) with (2 ^ 26).
  change (2 ^ (64 - 25)) with (2 ^ 39). change (2 ^ (64 - 12)) with (2 ^ 52).
  pose proof (Z.div_mod a1 (2 ^ 13) ltac:(lia)). pose proof (Z.mod_pos_bound a1 (2 ^ 13) ltac:(lia)).
  pose proof (Z.div_mod a2 (2 ^ 26) ltac:(lia)). pose proof (Z.mod_pos_bound a2 (2 ^ 26) ltac:(lia)).
  pose proof (Z.div_mod a3 (2 ^ 39) ltac:(lia)). pose proof (Z.mod_pos_bound a3 (2 ^ 39) ltac:(lia)).
  rewrite (Z.mod_small a4) by lia. split; [lia|]. repeat constructor; lia.
Qed.

Lemma fval_below l : below (2 ^ 51) l -> 0 <= fval l < 2 ^ 255.
Proof. unfold below, fval. lia. Qed.

Lemma reduce_words_spec ws v :
  limbs_ok 64 ws -> length ws = 4%nat -> lval 64 ws = v -> 0 <= v < 2 ^ 255 ->
  limbs_ok 64 (reduce_words ws) /\ length (reduce_words ws) = 4%nat /\ lval 64 (reduce_words ws) = v mod P.
Proof.
  intros Ho Hl Hv Hb. unfold reduce_words.
  assert (HP : limbs_ok 64 PW) by (repeat (apply List.Forall_cons; [by vm_compute|]); constructor). assert (EP : lval 64 PW = P) by done.
  rewrite (cmp_lanes_spec 64) by done. rewrite Hv, EP.
  assert (S : v < P -> v = v mod P) by (intros; rewrite Z.mod_small; lia).
  assert (S' : P <= v -> v - P = v mod P).
  { intros. replace v with (v - P + 1 * P) at 2 by lia. rewrite Z.mod_add by done. rewrite Z.mod_small; unfold P in *; lia. }
  destruct (Z.compare_spec v P) as [E|E|E]; [| by (rewrite Hv, <- S by done) |];
    destruct (sub_lanes_spec ws PW 0) as (E' & Ho' & Hl'); try done; try lia; rewrite E', EP, Hv, Hl';
    (split; [done|]; split; [done|]; rewrite <- S'; lia).
Qed.

(** [to_bytes] is the little-endian encoding of the residue. *)
Lemma to_bytes_spec a : below (2 ^ 62) a -> to_bytes a = to_le_bytes 32 (fval a mod P).
Proof.
  intros Ha. unfold to_bytes. destruct (fold_carries_ends a) as (l & E & Hl); [by eapply below_le|].
  rewrite E. pose proof (fold_carries_value a l Ha E) as Ev. apply cong_iff in Ev. rewrite <- Ev.
  destruct (pack_words_spec l Hl) as [Hv Ho].
  destruct (reduce_words_spec (pack_words l) (fval l) Ho eq_refl Hv (fval_below _ Hl)) as (Ho' & Hn & Ew).
  rewrite (limb_bytes 8 64) by done. by rewrite Hn, Ew.
Qed.

(** ** Decoding *)

(** A window of a number's bytes is a window of the number. *)
Lemma from_le_slice bs o k :
  bytes_ok bs -> (o + k <= length bs)%nat ->
  from_le_bytes (slice o k bs) = (from_le_bytes bs / 2 ^ (8 * Z.of_nat o)) mod 2 ^ (8 * Z.of_nat k).
Proof.
  intros Hb Hl. assert (E256 : forall n, 2 ^ (8 * Z.of_nat n) = 256 ^ Z.of_nat n) by (intros; by rewrite Z.pow_mul_r by lia).
  assert (Es : bs = take o bs ++ slice o k bs ++ drop (o + k) bs).
  { unfold slice. by rewrite <- drop_drop, take_drop, take_drop. }
  assert (Ht : bytes_ok (take o bs)) by by apply Forall_take.
  assert (Hs : bytes_ok (slice o k bs)) by by apply Forall_take, Forall_drop.
  pose proof (from_le_bound _ Ht) as Bt. pose proof (from_le_bound _ Hs) as Bs.
  rewrite Es at 2. rewrite !from_le_app, !E256. rewrite length_take, length_slice in * by lia.
  replace (Nat.min o (length bs)) with o in * by lia.
  rewrite (Z.add_comm (from_le_bytes (take o bs))), Z.mul_comm, Z.div_add_l, Z.div_small, Z.add_0_r by lia.
  rewrite (Z.mul_comm (256 ^ Z.of_nat k)), Z.mod_add, Z.mod_small by lia. done.
Qed.

Lemma limb_window n off s i :
  0 <= s <= 13 -> 0 <= i -> 0 <= off -> 8 * off + s = 51 * i ->
  ((n / 2 ^ (8 * off)) mod 2 ^ 64 / 2 ^ s) mod 2 ^ 51 = (n / 2 ^ (51 * i)) mod 2 ^ 51.
Proof.
  intros Hs Hi Ho <-. rewrite Z.pow_add_r, <- Z.div_div by lia. set (m := n / 2 ^ (8 * off)).
  replace (2 ^ 64) with (2 ^ s * 2 ^ (64 - s)) by (rewrite <- Z.pow_add_r by lia; f_equal; lia).
  rewrite Z.rem_mul_r by lia. rewrite (Z.mul_comm (2 ^ s)), Z.div_add, (Z.div_small (m mod 2 ^ s)), Z.add_0_l by
    (try apply Z.mod_pos_bound; lia).
  replace (2 ^ (64 - s)) with (2 ^ 51 * 2 ^ (13 - s)) by (rewrite <- Z.pow_add_r by lia; f_equal; lia).
  rewrite Z.rem_mul_r by lia. rewrite (Z.mul_comm (2 ^ 51)), Z.mod_add, Z.mod_mod by lia. done.
Qed.

Lemma from_bytes_spec b :
  bytes_ok b -> length b = 32%nat ->
  fval (from_bytes b) = from_le_bytes b mod 2 ^ 255 /\ below (2 ^ 51) (from_bytes b).
Proof.
  intros Hb Hl. pose proof (from_le_bound _ Hb) as Bn. rewrite Hl in Bn.
  unfold from_bytes, le64. rewrite !from_le_slice, !mask51 by (done || lia).
  rewrite !Z.shiftr_div_pow2 by lia. set (n := from_le_bytes b) in *. clearbody n.
  change (8 * Z.of_nat 8) with 64.
  pose proof (limb_window n 0 0 0 ltac:(lia) ltac:(lia) ltac:(lia) eq_refl) as W0.
  pose proof (limb_window n 6 3 1 ltac:(lia) ltac:(lia) ltac:(lia) eq_refl) as W1.
  pose proof (limb_window n 12 6 2 ltac:(lia) ltac:(lia) ltac:(lia) eq_refl) as W2.
  pose proof (limb_window n 19 1 3 ltac:(lia) ltac:(lia) ltac:(lia) eq_refl) as W3.
  pose proof (limb_window n 24 12 4 ltac:(lia) ltac:(lia) ltac:(lia) eq_refl) as W4.
  rewrite Z.div_1_r in W0. cbn [Z.of_nat] in *. change (8 * Z.of_nat 0) with (8 * 0). rewrite W0.
  change (Z.of_nat 6) with 6. change (Z.of_nat 12) with 12. change (Z.of_nat 19) with 19. change (Z.of_nat 24) with 24.
  rewrite W1, W2, W3, W4. clear W0 W1 W2 W3 W4. unfold below, fval. cbn [l0 l1 l2 l3 l4].
  split; [|repeat split; apply Z.mod_pos_bound; lia].
  assert (R : forall k, 0 <= k -> n mod 2 ^ (k + 51) = n mod 2 ^ k + 2 ^ k * ((n / 2 ^ k) mod 2 ^ 51)).
  { intros k Hk. rewrite Z.pow_add_r by lia. apply Z.rem_mul_r; lia. }
  pose proof (R 204 ltac:(lia)) as R4. pose proof (R 153 ltac:(lia)) as R3. pose proof (R 102 ltac:(lia)) as R2.
  pose proof (R 51 ltac:(lia)) as R1. clear R.
  change (204 + 51) with 255 in R4. change (153 + 51) with 204 in R3. change (102 + 51) with 153 in R2.
  change (51 + 51) with 102 in R1. rewrite R4, R3, R2, R1. change (2 ^ (51 * 0)) with 1. rewrite Z.div_1_r.
  change (51 * 1) with 51. change (51 * 2) with 102. change (51 * 3) with 153. change (51 * 4) with 204. ring.
Qed.

(** ** Exponentiation *)

(** The number a list of bits denotes, most significant first. *)
Definition bval (bs : list bool) : Z := foldl (fun n (b : bool) => 2 * n + (if b then 1 else 0)) 0 bs.

Lemma bval_snoc bs b : bval (bs ++ [b]) = 2 * bval bs + (if b then 1 else 0).
Proof. unfold bval. by rewrite foldl_app. Qed.

Lemma bval_nonneg bs : 0 <= bval bs.
Proof. induction bs as [|b bs IH] using rev_ind; [done|]. rewrite bval_snoc. destruct b; lia. Qed.

Lemma bval_app bs cs : bval (bs ++ cs) = 2 ^ Z.of_nat (length cs) * bval bs + bval cs.
Proof.
  induction cs as [|c cs IH] using rev_ind; [rewrite app_nil_r; cbn; lia|].
  rewrite app_assoc, !bval_snoc, IH, length_app. cbn [length]. rewrite Nat2Z.inj_add, Z.pow_add_r by lia.
  change (2 ^ Z.of_nat 1) with 2. ring.
Qed.

Lemma byte_bits_val b : is_byte b -> bval (byte_bits b) = b.
Proof.
  intros Hb. assert (H : forallb (fun b => bval (byte_bits b) =? b) (seqZ 0 256) = true) by by vm_compute.
  rewrite forallb_forall in H. apply Z.eqb_eq, H. apply list_elem_of_In, elem_of_seqZ. red in Hb. lia.
Qed.

Lemma length_byte_bits b : length (byte_bits b) = 8%nat.
Proof. done. Qed.

Lemma bits_msb_val e : bytes_ok e -> bval (bits_msb e) = from_le_bytes e.
Proof.
  unfold bits_msb. induction 1 as [|b e Hb _ IH]; [done|]. cbn [rev]. rewrite fmap_app, concat_app, bval_app, IH.
  cbn [fmap list_fmap concat]. rewrite app_nil_r, byte_bits_val, length_byte_bits by done. cbn [from_le_bytes].
  change (2 ^ Z.of_nat 8) with 256. ring.
Qed.

Lemma pow_bytes_exp_spec a e :
  fe_ok a -> bytes_ok e ->
  fval (pow_bytes_exp a e) ≡p fval a ^ from_le_bytes e /\ fe_ok (pow_bytes_exp a e).
Proof.
  intros Ha He. rewrite <- (bits_msb_val e He). unfold pow_bytes_exp.
  induction (bits_msb e) as [|b bs [IH Hok]] using rev_ind; [split; [done|exact one_ok]|].
  rewrite foldl_app. cbn [foldl]. set (r := foldl _ _ bs) in *. unfold square.
  destruct (mul_spec r r Hok Hok) as [Es Hs]. rewrite bval_snoc. pose proof (bval_nonneg bs).
  assert (Esq : fval (mul r r) ≡p fval a ^ (2 * bval bs)).
  { rewrite Es, IH, <- Z.pow_add_r by lia. apply cong_eq. f_equal. lia. }
  destruct b.
  - destruct (mul_spec _ a Hs Ha) as [Em Hm]. split; [|done]. rewrite Em, Esq, Z.pow_add_r by lia.
    apply cong_eq. ring.
  - by rewrite Z.add_0_r.
Qed.
