(* ===== verification/Primes.v ===== *)
(** * Primality certificates

    Pocklington's criterion with an executable check of a certificate step,
    on the Standard Library's Fermat theorem, and its use for the order of the
    field of Ed25519: [2^255 - 19] is prime. *)

From Stdlib Require Import Zdivisibility Zpow_facts ZmodInv.
From S2P Require Import Prelude.

(** [a^n] is 1 modulo [m]. *)
Definition pow_one (a n m : Z) : Prop := (a ^ n) mod m = 1 mod m.

Lemma pow_one_mul a n m k : 0 <= n -> 0 <= k -> pow_one a n m -> pow_one a (n * k) m.
Proof.
  unfold pow_one. intros Hn Hk H. rewrite Z.pow_mul_r, <- Z.mod_pow_l, H, Z.mod_pow_l by lia. by rewrite Z.pow_1_l by lia.
Qed.

(** Two coprime exponents at which a power is 1: the base is 1. *)
Lemma pow_one_coprime b x y m :
  0 < x -> 0 < y -> Z.coprime x y -> pow_one b x m -> pow_one b y m -> b mod m = 1 mod m.
Proof.
  intros Hx Hy Hc Bx By. apply Z.Bezout_coprime in Hc as (u & v & E).
  set (u' := u + (Z.abs u + Z.abs v) * y). set (v' := (Z.abs u + Z.abs v) * x - v).
  assert (E' : u' * x = y * v' + 1) by (unfold u', v'; lia).
  assert (0 <= u') by (unfold u'; nia). assert (0 <= v') by (unfold v'; nia).
  pose proof (pow_one_mul b x m u' ltac:(lia) ltac:(lia) Bx) as B1.
  pose proof (pow_one_mul b y m v' ltac:(lia) ltac:(lia) By) as B2. unfold pow_one in *.
  rewrite (Z.mul_comm x), E', Z.pow_add_r, Z.pow_1_r, <- Zmult_mod_idemp_l, B2, Zmult_mod_idemp_l, Z.mul_1_l in B1 by lia.
  done.
Qed.

Definition product (l : list Z) : Z := foldr Z.mul 1 l.

(** Distinct primes that divide [n] do so together. *)
Lemma product_divides qs n : Forall Z.prime qs -> NoDup qs -> Forall (fun q => (q | n)) qs -> (product qs | n).
Proof.
  induction qs as [|q qs IH]; intros Hp Hnd Hd; [apply Z.divide_1_l|].
  inversion Hp as [|?? Hq Hp']; inversion Hnd as [|?? Hni Hnd']; inversion Hd as [|?? Hqd Hd']; subst.
  destruct (IH Hp' Hnd' Hd') as [k ->]. cbn [product foldr]. fold (product qs).
  apply Z.divide_prime_mul in Hqd as [Hqd|Hqd]; [|exfalso|done].
  - destruct Hqd as [j ->]. exists j. lia.
  - clear - Hp' Hq Hni Hqd. induction qs as [|r qs IH]; cbn [product foldr] in Hqd.
    + apply Z.divide_1_r_nonneg in Hqd; pose proof (Z.prime_ge_2 _ Hq); lia.
    + inversion Hp' as [|?? Hr Hp'']; subst. apply Z.divide_prime_mul in Hqd as [H|H]; [| |done].
      * apply (Z.divide_prime_prime q r Hq Hr) in H. set_solver.
      * apply IH; [done|set_solver|done].
Qed.

Lemma prime_divisor d : 1 < d -> exists r, Z.prime r /\ (r | d).
Proof.
  intros Hd. assert (0 <= d) as H0 by lia. revert d H0 Hd. apply (Z_lt_induction (fun d => 1 < d -> _)).
  intros d IH Hd. destruct (decide (Exists (fun n => d mod n = 0) (seqZ 2 (d - 2)))) as [H|H].
  - apply Exists_exists in H as (n & Hn & E). apply elem_of_seqZ in Hn.
    destruct (IH n) as (r & Hr & Hrn); [lia..|]. exists r. split; [done|].
    apply Z.divide_trans with n; [done|]. apply Z.mod_divide; lia.
  - exists d. split; [|done]. split; [done|]. intros n Hn Hnd. apply H, Exists_exists. exists n.
    split; [apply elem_of_seqZ; lia|]. apply Z.mod_divide; [lia|done].
Qed.

(** Every prime divisor of [N] is 1 modulo [q]. *)
Lemma divisor_mod N a q r :
  1 < N -> Z.prime q -> (q | N - 1) -> pow_one a (N - 1) N -> Z.gcd (a ^ ((N - 1) / q) - 1) N = 1 ->
  Z.prime r -> (r | N) -> (q | r - 1).
Proof.
  intros HN Hq [m Hm] Ha Hg Hr HrN. pose proof (Z.prime_ge_2 _ Hq). pose proof (Z.prime_ge_2 _ Hr).
  rewrite Hm, Z.div_mul in Hg by lia. assert (0 < m) by nia.
  assert (Ha' : pow_one a (N - 1) r).
  { unfold pow_one in *. destruct HrN as [k ->]. apply (f_equal (fun z => z mod r)) in Ha.
    by rewrite <- !Znumtheory.Zmod_div_mod in Ha by (try apply Z.divide_factor_r; nia). }
  assert (Hnz : a mod r <> 0).
  { intros E. unfold pow_one in Ha'. rewrite <- Z.mod_pow_l, E, Z.pow_0_l, Z.mod_0_l, Z.mod_1_l in Ha' by lia. done. }
  assert (Hf : pow_one a (r - 1) r) by (unfold pow_one; rewrite Z.fermat_nz by done; by rewrite Z.mod_1_l by lia).
  destruct (decide ((r - 1) mod q = 0)) as [E|E]; [by apply Z.mod_divide; [lia|]|exfalso].
  assert (B : (a ^ m) mod r = 1 mod r).
  { apply (pow_one_coprime (a ^ m) q (r - 1)); [lia|lia| | |].
    - apply Z.coprime_prime_l; [done|]. intros Hd. apply E. apply Z.mod_divide; [lia|done].
    - unfold pow_one. rewrite <- Z.pow_mul_r by lia. by rewrite <- Hm.
    - pose proof (pow_one_mul a (r - 1) r m ltac:(lia) ltac:(lia) Hf) as B. unfold pow_one in *.
      by rewrite <- Z.pow_mul_r, Z.mul_comm by lia. }
  assert (Hd : (r | a ^ m - 1)).
  { apply Z.mod_divide; [lia|]. by rewrite Zminus_mod, B, <- Zminus_mod. }
  pose proof (Z.gcd_greatest _ _ _ Hd HrN) as Hone. rewrite Hg in Hone. apply Z.divide_1_r_nonneg in Hone; lia.
Qed.

Theorem pocklington N a qs :
  1 < N -> Forall Z.prime qs -> NoDup qs -> pow_one a (N - 1) N ->
  Forall (fun q => (q | N - 1) /\ Z.gcd (a ^ ((N - 1) / q) - 1) N = 1) qs ->
  0 < product qs -> N < product qs * product qs -> Z.prime N.
Proof.
  intros HN Hp Hnd Ha Hqs H0 Hlt. split; [done|]. intros n Hn [m Hm].
  assert (exists d, 1 < d /\ (d | N) /\ d * d <= N) as (d & Hd1 & HdN & Hdd).
  { destruct (Z.le_ge_cases n m); [exists n|exists m]; (split; [nia|]; split; [|nia]).
    - by exists m. - exists n. lia. }
  destruct (prime_divisor d Hd1) as (r & Hr & Hrd). pose proof (Z.prime_ge_2 _ Hr).
  assert (Hall : Forall (fun q => (q | r - 1)) qs).
  { apply Forall_forall. intros q Hq. rewrite Forall_forall in Hp, Hqs. destruct (Hqs q Hq) as [Hd' Hg].
    apply (divisor_mod N a); auto. by apply Z.divide_trans with d. }
  pose proof (product_divides qs _ Hp Hnd Hall) as Hpd. apply Z.divide_pos_le in Hpd; [|lia].
  apply Z.divide_pos_le in Hrd; [|lia]. nia.
Qed.

(** ** Executable checks *)

Definition cert_step (N a : Z) (qs : list Z) : bool :=
  (1 <? N) && (Zpow_mod a (N - 1) N =? 1) && bool_decide (NoDup qs) &&
  forallb (fun q => (0 <? q) && ((N - 1) mod q =? 0) && (Z.gcd (Zpow_mod a ((N - 1) / q) N - 1) N =? 1)) qs &&
  (0 <? product qs) && (N <? product qs * product qs).

Lemma cert_step_prime N a qs : Forall Z.prime qs -> cert_step N a qs = true -> Z.prime N.
Proof.
  unfold cert_step. intros Hp H. rewrite !andb_true_iff, forallb_forall, bool_decide_eq_true in H.
  destruct H as (((((HN%Z.ltb_lt & Ha%Z.eqb_eq) & Hnd) & Hqs) & H0%Z.ltb_lt) & Hlt%Z.ltb_lt).
  rewrite Zpow_mod_correct in Ha by lia.
  apply (pocklington N a qs); try done; [unfold pow_one; by rewrite Z.mod_1_l by lia|].
  apply Forall_forall. intros q Hq. apply list_elem_of_In, Hqs in Hq.
  rewrite !andb_true_iff, Z.ltb_lt, !Z.eqb_eq in Hq. destruct Hq as ((Hq0 & Hm) & Hg).
  split; [by apply Z.mod_divide; [lia|]|]. rewrite Zpow_mod_correct in Hg by lia.
  by rewrite <- Z.gcd_mod_l, Zminus_mod_idemp_l, Z.gcd_mod_l in Hg.
Qed.

(** Trial division for the small primes of a certificate. *)
Definition trial (n : Z) : bool :=
  (1 <? n) && forallb (fun d => negb (n mod d =? 0)) (seqZ 2 (Z.sqrt n - 1)).

Lemma trial_prime n : trial n = true -> Z.prime n.
Proof.
  unfold trial. rewrite andb_true_iff, forallb_forall. intros [H1%Z.ltb_lt H]. split; [done|]. intros k Hk [m Hm].
  pose proof (Z.sqrt_spec n ltac:(lia)).
  assert (exists d, 1 < d <= Z.sqrt n /\ n mod d = 0) as (d & Hd & E).
  { destruct (Z.le_ge_cases k m); [exists k|exists m]; rewrite Hm at 1 2;
      (split; [split; [nia|]; apply Z.sqrt_le_square; nia|]).
    - by rewrite Z.mod_mul by lia. - rewrite Z.mul_comm. by rewrite Z.mod_mul by nia. }
  specialize (H d). rewrite <- list_elem_of_In, elem_of_seqZ in H.
  specialize (H ltac:(lia)). rewrite E in H. done.
Qed.

(** ** The field order of Ed25519 *)

Ltac small_primes := repeat (apply List.Forall_cons; [by apply trial_prime; vm_compute|]); apply List.Forall_nil.
Ltac certified_by a qs := apply (cert_step_prime _ a qs); [|by vm_compute].

Lemma prime_2773320623 : Z.prime 2773320623.
Proof. certified_by 2 [569003]. small_primes. Qed.
Lemma prime_72106336199 : Z.prime 72106336199.
Proof. certified_by 2 [2773320623]. by repeat constructor; apply prime_2773320623. Qed.
Lemma prime_1919519569386763 : Z.prime 1919519569386763.
Proof. certified_by 2 [127; 8574133]. small_primes. Qed.
Lemma prime_31757755568855353 : Z.prime 31757755568855353.
Proof. certified_by 2 [4153; 430751]. small_primes. Qed.

Lemma prime_75445702479781427272750846543864801 : Z.prime 75445702479781427272750846543864801.
Proof.
  certified_by 2 [72106336199; 1919519569386763].
  repeat apply List.Forall_cons; [apply prime_72106336199|apply prime_1919519569386763|apply List.Forall_nil].
Qed.

Definition P25519_cofactor : Z := 74058212732561358302231226437062788676166966415465897661863160754340907.

Lemma prime_P25519_cofactor : Z.prime P25519_cofactor.
Proof.
  certified_by 2 [31757755568855353; 75445702479781427272750846543864801].
  repeat apply List.Forall_cons;
    [apply prime_31757755568855353|apply prime_75445702479781427272750846543864801|apply List.Forall_nil].
Qed.

Lemma prime_P25519 : Z.prime (2 ^ 255 - 19).
Proof.
  certified_by 2 [P25519_cofactor]. apply List.Forall_cons; [apply prime_P25519_cofactor|apply List.Forall_nil].
Qed.
