(* ===== verification/Edwards.v ===== *)
(** * The group of a complete twisted Edwards curve

    The curve [-x^2 + y^2 = 1 + d x^2 y^2] over a field in which -1 is a square
    and [d] is not: the addition law has no exceptions and makes the points an
    abelian group.  Multiples of a point are defined by repeated addition;
    double-and-add computes them. *)

From Stdlib Require Import Integral_domain NsatzTactic Field.
From S2P Require Import Prelude.

(** A field with decidable Leibniz equality, as a record of operations. *)
Record FieldOps := mkField {
  fcar :> Type;
  f0 : fcar; f1 : fcar;
  fadd : fcar -> fcar -> fcar; fmul : fcar -> fcar -> fcar; fsub : fcar -> fcar -> fcar;
  fopp : fcar -> fcar; fdiv : fcar -> fcar -> fcar; finv : fcar -> fcar;
  field_laws : field_theory f0 f1 fadd fmul fsub fopp fdiv finv eq;
  feq_dec : EqDecision fcar;
}.
Arguments f0 {_}.
Arguments f1 {_}.
Arguments fadd {_}.
Arguments fmul {_}.
Arguments fsub {_}.
Arguments fopp {_}.
Arguments fdiv {_}.
Arguments finv {_}.
#[global] Existing Instance feq_dec.

Declare Scope fp_scope.
Delimit Scope fp_scope with fp.
Infix "+" := fadd : fp_scope.
Infix "*" := fmul : fp_scope.
Infix "-" := fsub : fp_scope.
Infix "/" := fdiv : fp_scope.
Notation "- x" := (fopp x) : fp_scope.
Notation "0" := f0 : fp_scope.
Notation "1" := f1 : fp_scope.

Section edwards.
  Context (F : FieldOps) (d i : F).
  Local Open Scope fp_scope.
  Hypothesis Hi : i * i = - (1).
  Hypothesis Hd : forall s : F, s * s <> d.
  Hypothesis H2 : (1 + 1 : F) <> 0.

  Add Field F_field : (field_laws F).

Lemma f_one_nz : (1 : F) <> 0.
Proof. apply (F_1_neq_0 (field_laws F)). Qed.

Lemma f_integral (a b : F) : a * b = 0 -> a = 0 \/ b = 0.
Proof.
  intros E. destruct (decide (a = 0)) as [|Ha]; [by left|right].
  transitivity (a * b / a); [by field|]. rewrite E. by field.
Qed.

Lemma f_mul_nz (a b : F) : a <> 0 -> b <> 0 -> a * b <> 0.
Proof. intros Ha Hb H. apply f_integral in H. tauto. Qed.

(** Cancel a nonzero factor. *)
Lemma f_cancel (c a b : F) : c <> 0 -> c * a = c * b -> a = b.
Proof. intros Hc E. transitivity (c * a / c); [by field|]. rewrite E. by field. Qed.

#[local] Instance F_ops : @Ring_ops F f0 f1 fadd fmul fsub fopp eq := {}.
#[local] Instance F_ring : Ring (Ro := F_ops).
Proof. split; try solve_proper; try apply _; intros; unfold equality, eq_notation, addition, add_notation, multiplication, mul_notation, subtraction, sub_notation, opposite, opp_notation, zero, zero_notation, one, one_notation; ring. Qed.
#[local] Instance F_cring : Cring (Rr := F_ring).
Proof. intros x y. unfold equality, eq_notation, multiplication, mul_notation. ring. Qed.
#[local] Instance F_domain : Integral_domain (Rcr := F_cring).
Proof. split; [exact f_integral|exact f_one_nz]. Qed.

Definition on_curve (P : F * F) : Prop := let (x, y) := P in y * y - x * x = 1 + d * x * x * y * y.

Definition eadd (P Q : F * F) : F * F :=
  let (x1, y1) := P in let (x2, y2) := Q in
  let k := d * x1 * x2 * y1 * y2 in
  ((x1 * y2 + y1 * x2) / (1 + k), (y1 * y2 + x1 * x2) / (1 - k)).

Definition eneg (P : F * F) : F * F := let (x, y) := P in (- x, y).
Definition ezero : F * F := (0, 1).

Lemma nonsquare_scaled (a b : F) : a * a = d * (b * b) -> b = 0.
Proof.
  intros E. destruct (decide (b = 0)) as [|Hb]; [done|exfalso]. apply (Hd (a / b)).
  apply (f_cancel (b * b)); [by apply f_mul_nz|]. transitivity (a * a); [by field|]. rewrite E. ring.
Qed.

(** The denominators never vanish: [d x1 x2 y1 y2] is neither 1 nor -1. *)
Lemma denominator x1 y1 x2 y2 (e : F) :
  on_curve (x1, y1) -> on_curve (x2, y2) -> e * e = 1 -> d * x1 * x2 * y1 * y2 <> e.
Proof.
  unfold on_curve. intros C1 C2 He H.
  assert (A : forall s : F, s * s = 1 -> (i * x1 + s * e * y1) * (i * x1 + s * e * y1) =
             d * ((x1 * y1 * (i * x2 + s * y2)) * (x1 * y1 * (i * x2 + s * y2)))).
  { intros s Hs. clear Hd H2. nsatz. }
  pose proof (nonsquare_scaled _ _ (A 1 ltac:(ring))) as B1.
  pose proof (nonsquare_scaled _ _ (A (- (1)) ltac:(ring))) as B2. clear A.
  assert (Hnz : x1 * y1 <> 0).
  { intros E. apply f_one_nz. rewrite <- He, <- H. replace (d * x1 * x2 * y1 * y2) with (x1 * y1 * (d * x2 * y2)) by ring.
    rewrite E. ring. }
  apply f_integral in B1 as [|B1]; [done|]. apply f_integral in B2 as [|B2]; [done|].
  assert (Hy : y2 = 0).
  { assert (E : (1 + 1) * y2 = 0).
    { transitivity ((i * x2 + 1 * y2) - (i * x2 + - (1) * y2)); [ring|]. rewrite B1, B2. ring. }
    apply f_integral in E as [E|E]; done. }
  subst y2. apply f_one_nz. rewrite <- He, <- H. ring.
Qed.

Lemma denominators x1 y1 x2 y2 :
  on_curve (x1, y1) -> on_curve (x2, y2) ->
  1 + d * x1 * x2 * y1 * y2 <> 0 /\ 1 - d * x1 * x2 * y1 * y2 <> 0.
Proof.
  intros C1 C2. set (k := d * x1 * x2 * y1 * y2). split; intros E.
  - apply (denominator x1 y1 x2 y2 (- (1)) C1 C2); [ring|]. fold k. transitivity (1 + k - 1); [ring|]. rewrite E. ring.
  - apply (denominator x1 y1 x2 y2 1 C1 C2); [ring|]. fold k. transitivity (1 - (1 - k)); [ring|]. rewrite E. ring.
Qed.

Lemma ezero_on_curve : on_curve ezero.
Proof. unfold on_curve, ezero. ring. Qed.

Lemma eneg_on_curve P : on_curve P -> on_curve (eneg P).
Proof. destruct P as [x y]. unfold on_curve, eneg. intros H. transitivity (y * y - x * x); [ring|]. rewrite H. ring. Qed.

(** Without fractions: coordinates that satisfy the defining equations. *)
Lemma sum_on_curve x1 y1 x2 y2 x3 y3 :
  on_curve (x1, y1) -> on_curve (x2, y2) ->
  x3 * (1 + d * x1 * x2 * y1 * y2) = x1 * y2 + y1 * x2 ->
  y3 * (1 - d * x1 * x2 * y1 * y2) = y1 * y2 + x1 * x2 -> on_curve (x3, y3).
Proof.
  intros C1 C2 Ex Ey. destruct (denominators _ _ _ _ C1 C2) as [N1 N2]. unfold on_curve in *.
  set (c := (1 + d * x1 * x2 * y1 * y2) * (1 - d * x1 * x2 * y1 * y2)).
  assert (Hc : c <> 0) by by apply f_mul_nz. apply (f_cancel (c * c)); [by apply f_mul_nz|].
  assert (A : (y1 * y2 + x1 * x2) * (y1 * y2 + x1 * x2) * (1 + d * x1 * x2 * y1 * y2) * (1 + d * x1 * x2 * y1 * y2) -
              (x1 * y2 + y1 * x2) * (x1 * y2 + y1 * x2) * (1 - d * x1 * x2 * y1 * y2) * (1 - d * x1 * x2 * y1 * y2) =
              c * c + d * (x1 * y2 + y1 * x2) * (x1 * y2 + y1 * x2) * (y1 * y2 + x1 * x2) * (y1 * y2 + x1 * x2)).
  { unfold c. clear - C1 C2. nsatz. }
  rewrite <- Ex, <- Ey in A. unfold c in *. set (k := d * x1 * x2 * y1 * y2) in *. clearbody k. clear - A.
  transitivity (y3 * (1 - k) * (y3 * (1 - k)) * (1 + k) * (1 + k) - x3 * (1 + k) * (x3 * (1 + k)) * (1 - k) * (1 - k)); [ring|].
  rewrite A. ring.
Qed.

Lemma eadd_eqs P Q :
  on_curve P -> on_curve Q ->
  fst (eadd P Q) * (1 + d * fst P * fst Q * snd P * snd Q) = fst P * snd Q + snd P * fst Q /\
  snd (eadd P Q) * (1 - d * fst P * fst Q * snd P * snd Q) = snd P * snd Q + fst P * fst Q.
Proof.
  destruct P as [x1 y1], Q as [x2 y2]. intros C1 C2. destruct (denominators _ _ _ _ C1 C2) as [N1 N2].
  unfold eadd. cbn [fst snd]. split; by field.
Qed.

Lemma eadd_on_curve P Q : on_curve P -> on_curve Q -> on_curve (eadd P Q).
Proof.
  intros C1 C2. destruct (eadd_eqs P Q C1 C2) as [Ex Ey]. destruct P as [x1 y1], Q as [x2 y2], (eadd _ _) as [x3 y3].
  by apply (sum_on_curve x1 y1 x2 y2).
Qed.

Lemma eadd_comm P Q : eadd P Q = eadd Q P.
Proof.
  destruct P as [x1 y1], Q as [x2 y2]. unfold eadd.
  replace (d * x2 * x1 * y2 * y1) with (d * x1 * x2 * y1 * y2) by ring. f_equal; f_equal; ring.
Qed.

Lemma eadd_0_l P : eadd ezero P = P.
Proof.
  destruct P as [x y]. unfold eadd, ezero. pose proof f_one_nz.
  replace (d * 0 * x * 1 * y) with (0 : F) by ring.
  replace (1 + 0) with (1 : F) by ring. replace (1 - 0) with (1 : F) by ring. f_equal; by field.
Qed.

Lemma eadd_0_r P : eadd P ezero = P.
Proof. by rewrite eadd_comm, eadd_0_l. Qed.

(** A point is determined by the equations of the sum. *)
Lemma eadd_unique x1 y1 x2 y2 x3 y3 :
  on_curve (x1, y1) -> on_curve (x2, y2) ->
  x3 * (1 + d * x1 * x2 * y1 * y2) = x1 * y2 + y1 * x2 ->
  y3 * (1 - d * x1 * x2 * y1 * y2) = y1 * y2 + x1 * x2 -> eadd (x1, y1) (x2, y2) = (x3, y3).
Proof.
  intros C1 C2 Ex Ey. destruct (denominators _ _ _ _ C1 C2) as [N1 N2]. unfold eadd. rewrite <- Ex, <- Ey.
  f_equal; by field.
Qed.

Lemma eadd_neg_l P : on_curve P -> eadd (eneg P) P = ezero.
Proof.
  destruct P as [x y]. intros HP. pose proof (eneg_on_curve _ HP) as HN. apply eadd_unique; [done|done| |].
  - ring.
  - unfold on_curve in HP. transitivity (1 + d * x * x * y * y); [ring|]. rewrite <- HP. ring.
Qed.

(** The polynomial identities behind associativity. *)
Lemma assoc_x x1 y1 x2 y2 x3 y3 :
  on_curve (x1, y1) -> on_curve (x2, y2) -> on_curve (x3, y3) ->
  let k12 := d * x1 * x2 * y1 * y2 in let k23 := d * x2 * x3 * y2 * y3 in
  let nx12 := x1 * y2 + y1 * x2 in let ny12 := y1 * y2 + x1 * x2 in
  let nx23 := x2 * y3 + y2 * x3 in let ny23 := y2 * y3 + x2 * x3 in
  (nx12 * (1 - k12) * y3 + ny12 * (1 + k12) * x3) * ((1 - k23 * k23) + d * x1 * y1 * nx23 * ny23) =
  (x1 * ny23 * (1 + k23) + y1 * nx23 * (1 - k23)) * ((1 - k12 * k12) + d * x3 * y3 * nx12 * ny12).
Proof. unfold on_curve. intros C1 C2 C3. cbv zeta. clear - C1 C2 C3. nsatz. Qed.

Lemma assoc_y x1 y1 x2 y2 x3 y3 :
  on_curve (x1, y1) -> on_curve (x2, y2) -> on_curve (x3, y3) ->
  let k12 := d * x1 * x2 * y1 * y2 in let k23 := d * x2 * x3 * y2 * y3 in
  let nx12 := x1 * y2 + y1 * x2 in let ny12 := y1 * y2 + x1 * x2 in
  let nx23 := x2 * y3 + y2 * x3 in let ny23 := y2 * y3 + x2 * x3 in
  (ny12 * (1 + k12) * y3 + nx12 * (1 - k12) * x3) * ((1 - k23 * k23) - d * x1 * y1 * nx23 * ny23) =
  (y1 * ny23 * (1 + k23) + x1 * nx23 * (1 - k23)) * ((1 - k12 * k12) - d * x3 * y3 * nx12 * ny12).
Proof. unfold on_curve. intros C1 C2 C3. cbv zeta. clear - C1 C2 C3. nsatz. Qed.

Lemma eadd_assoc P Q R :
  on_curve P -> on_curve Q -> on_curve R -> eadd (eadd P Q) R = eadd P (eadd Q R).
Proof.
  intros C1 C2 C3. pose proof (eadd_on_curve _ _ C1 C2) as C12. pose proof (eadd_on_curve _ _ C2 C3) as C23.
  destruct (eadd_eqs _ _ C1 C2) as [Ex12 Ey12], (eadd_eqs _ _ C2 C3) as [Ex23 Ey23].
  destruct (eadd_eqs _ _ C1 C23) as [Ex Ey]. destruct (eadd P (eadd Q R)) as [x y].
  destruct P as [x1 y1], Q as [x2 y2], R as [x3 y3], (eadd (x1, y1) _) as [x12 y12], (eadd (x2, y2) _) as [x23 y23].
  cbn [fst snd] in *.
  destruct (denominators _ _ _ _ C1 C2) as [N1 N2], (denominators _ _ _ _ C2 C3) as [N3 N4].
  destruct (denominators _ _ _ _ C1 C23) as [N5 N6].
  pose proof (assoc_x _ _ _ _ _ _ C1 C2 C3) as Ax. pose proof (assoc_y _ _ _ _ _ _ C1 C2 C3) as Ay. cbv zeta in Ax, Ay.
  rewrite <- Ex12, <- Ey12, <- Ex23, <- Ey23 in Ax, Ay.
  set (k12 := d * x1 * x2 * y1 * y2) in *. set (k23 := d * x2 * x3 * y2 * y3) in *.
  set (c := (1 + k12) * (1 - k12) * ((1 + k23) * (1 - k23))).
  assert (Hc : c <> 0) by (by repeat apply f_mul_nz).
  apply eadd_unique; [done|done| |].
  - apply (f_cancel (c * (1 + d * x1 * x23 * y1 * y23))); [by apply f_mul_nz|].
    transitivity (x * (1 + d * x1 * x23 * y1 * y23) * (c * (1 + d * x12 * x3 * y12 * y3))); [ring|]. rewrite Ex.
    unfold c. clear - Ax. clearbody k12 k23.
    transitivity ((x1 * (y23 * (1 - k23)) * (1 + k23) + y1 * (x23 * (1 + k23)) * (1 - k23)) *
      (1 - k12 * k12 + d * x3 * y3 * (x12 * (1 + k12)) * (y12 * (1 - k12)))); [ring|]. rewrite <- Ax. ring.
  - apply (f_cancel (c * (1 - d * x1 * x23 * y1 * y23))); [by apply f_mul_nz|].
    transitivity (y * (1 - d * x1 * x23 * y1 * y23) * (c * (1 - d * x12 * x3 * y12 * y3))); [ring|]. rewrite Ey.
    unfold c. clear - Ay. clearbody k12 k23.
    transitivity ((y1 * (y23 * (1 - k23)) * (1 + k23) + x1 * (x23 * (1 + k23)) * (1 - k23)) *
      (1 - k12 * k12 - d * x3 * y3 * (x12 * (1 + k12)) * (y12 * (1 - k12)))); [ring|]. rewrite <- Ay. ring.
Qed.

(** ** Multiples *)

Definition emul (n : Z) (P : F * F) : F * F := Nat.iter (Z.to_nat n) (eadd P) ezero.

Lemma emul_0 P : emul 0 P = ezero.
Proof. done. Qed.

Lemma emul_succ n P : (0 <= n)%Z -> emul (Z.succ n) P = eadd P (emul n P).
Proof. intros. unfold emul. by rewrite Z2Nat.inj_succ by done. Qed.

Lemma emul_1 P : emul 1 P = P.
Proof. change 1%Z with (Z.succ 0). by rewrite emul_succ, emul_0, eadd_0_r. Qed.

Lemma emul_on_curve n P : on_curve P -> on_curve (emul n P).
Proof.
  intros HP. unfold emul. induction (Z.to_nat n) as [|k IH]; [apply ezero_on_curve|by apply eadd_on_curve].
Qed.

Lemma emul_add m n P : (0 <= m)%Z -> (0 <= n)%Z -> on_curve P -> emul (m + n) P = eadd (emul m P) (emul n P).
Proof.
  intros Hm Hn HP. revert m Hm. apply natlike_ind.
  - by rewrite Z.add_0_l, emul_0, eadd_0_l.
  - intros m Hm IH. rewrite Z.add_succ_l, !emul_succ, IH by lia.
    by rewrite eadd_assoc by (done || by apply emul_on_curve).
Qed.

Lemma emul_zero n : emul n ezero = ezero.
Proof. unfold emul. induction (Z.to_nat n) as [|k IH]; [done|]. rewrite Nat.iter_succ, IH. apply eadd_0_l. Qed.

Lemma emul_mul m n P : (0 <= m)%Z -> (0 <= n)%Z -> on_curve P -> emul (m * n) P = emul m (emul n P).
Proof.
  intros Hm Hn HP. revert m Hm. apply natlike_ind; [done|]. intros m Hm IH.
  rewrite Z.mul_succ_l, emul_succ, Z.add_comm, emul_add, IH by (done || nia). done.
Qed.

(** Scalars count modulo the order of the point. *)
Lemma emul_mod m n P : (0 < m)%Z -> (0 <= n)%Z -> on_curve P -> emul m P = ezero -> emul (n mod m) P = emul n P.
Proof.
  intros Hm Hn HP Ho. pose proof (Z.div_pos n m Hn Hm). pose proof (Z.mod_pos_bound n m Hm).
  rewrite (Z.div_mod n m) at 2 by lia. rewrite Z.mul_comm, emul_add, emul_mul, Ho, emul_zero, eadd_0_l by (done || nia).
  done.
Qed.

(** ** Extended coordinates

    [(X : Y : Z : T)] stands for [(X / Z, Y / Z)] and [T] for their product. *)

Definition extends (X Y Z T : F) (P : F * F) : Prop :=
  Z <> 0 /\ X = fst P * Z /\ Y = snd P * Z /\ T = fst P * snd P * Z.

(** The unified addition formulas give the affine sum. *)
Lemma extended_add X1 Y1 Z1 T1 X2 Y2 Z2 T2 P Q :
  on_curve P -> on_curve Q -> extends X1 Y1 Z1 T1 P -> extends X2 Y2 Z2 T2 Q ->
  let a := (Y1 - X1) * (Y2 - X2) in
  let b := (Y1 + X1) * (Y2 + X2) in
  let c := (T1 + T1) * T2 * d in
  let dd := (Z1 + Z1) * Z2 in
  let e := b - a in let f := dd - c in let g := dd + c in let h := b + a in
  extends (e * f) (g * h) (f * g) (e * h) (eadd P Q).
Proof.
  intros C1 C2 (N1 & -> & -> & ->) (N2 & -> & -> & ->). destruct (eadd_eqs P Q C1 C2) as [Ex Ey].
  destruct P as [x1 y1], Q as [x2 y2], (eadd _ _) as [x3 y3]. destruct (denominators _ _ _ _ C1 C2) as [D1 D2].
  cbn [fst snd] in *. cbv zeta. unfold extends. cbn [fst snd]. clear - Ex Ey N1 N2 D1 D2 H2.
  set (k := d * x1 * x2 * y1 * y2) in *.
  assert (Ef : (Z1 + Z1) * Z2 - (x1 * y1 * Z1 + x1 * y1 * Z1) * (x2 * y2 * Z2) * d = (1 + 1) * (Z1 * Z2) * (1 - k)) by (unfold k; ring).
  assert (Eg : (Z1 + Z1) * Z2 + (x1 * y1 * Z1 + x1 * y1 * Z1) * (x2 * y2 * Z2) * d = (1 + 1) * (Z1 * Z2) * (1 + k)) by (unfold k; ring).
  assert (Ee : (y1 * Z1 + x1 * Z1) * (y2 * Z2 + x2 * Z2) - (y1 * Z1 - x1 * Z1) * (y2 * Z2 - x2 * Z2) =
               (1 + 1) * (Z1 * Z2) * (x1 * y2 + y1 * x2)) by ring.
  assert (Eh : (y1 * Z1 + x1 * Z1) * (y2 * Z2 + x2 * Z2) + (y1 * Z1 - x1 * Z1) * (y2 * Z2 - x2 * Z2) =
               (1 + 1) * (Z1 * Z2) * (y1 * y2 + x1 * x2)) by ring.
  rewrite Ef, Eg, Ee, Eh, <- Ex, <- Ey. clearbody k. split; [by repeat apply f_mul_nz|]. repeat split; ring.
Qed.

(** Equality across denominators is equality of the points. *)
Lemma extends_eq X1 Y1 Z1 T1 X2 Y2 Z2 T2 P Q :
  extends X1 Y1 Z1 T1 P -> extends X2 Y2 Z2 T2 Q ->
  (X1 * Z2 = X2 * Z1 /\ Y1 * Z2 = Y2 * Z1) <-> P = Q.
Proof.
  intros (N1 & -> & -> & ->) (N2 & -> & -> & ->). destruct P as [x1 y1], Q as [x2 y2]. cbn [fst snd].
  split; [|intros [= -> ->]; split; ring]. intros [E1 E2]. f_equal; apply (f_cancel (Z1 * Z2)); try by apply f_mul_nz.
  - transitivity (x1 * Z1 * Z2); [ring|]. rewrite E1. ring.
  - transitivity (y1 * Z1 * Z2); [ring|]. rewrite E2. ring.
Qed.
End edwards.
