(* ===== verification/Ed25519Curve.v ===== *)
(** * The curve of Ed25519

    Field elements stand for residues modulo [P], points for points of the
    Edwards curve: every routine of [Ed25519] computes the operation it is
    named after.  [decompress] accepts exactly the encodings of curve points,
    the base point exists and has the order [L] of the scalar arithmetic. *)

From Stdlib Require Import Zdivisibility Zpow_facts ZmodDef ZmodBase ZmodInv Field.
From S2P Require Import Prelude RustStd HashStream Sha256 Sha512 Ed25519 Limbs Ed25519Field Primes Edwards.
Import Ed25519.

(** ** The field *)

Lemma prime_P : Z.prime P.
Proof. exact prime_P25519. Qed.

#[global] Instance Zmod_eq_dec m : EqDecision (Zmod m).
Proof. intros x y. destruct (Zmod.eqb x y) eqn:E; [left; by apply Zmod.eqb_eq|right; intros ->]. by rewrite Zmod.eqb_refl in E. Defined.

Definition Fp : FieldOps :=
  mkField (Zmod P) Zmod.zero Zmod.one Zmod.add Zmod.mul Zmod.sub Zmod.opp Zmod.mdiv Zmod.inv
    (Zmod.field_theory P prime_P) (Zmod_eq_dec P).

Definition toF (x : Z) : Fp := Zmod.of_Z P x.
Definition ofF (x : Fp) : Z := Zmod.to_Z (x : Zmod P).

Local Open Scope fp_scope.
Add Field Fp_field : (field_laws Fp).

Lemma toF_eq x y : toF x = toF y <-> x ≡p y.
Proof. rewrite cong_iff. apply Zmod.of_Z_inj. Qed.
Lemma toF_add x y : toF (x + y)%Z = toF x + toF y.
Proof. apply Zmod.of_Z_add. Qed.
Lemma toF_sub x y : toF (x - y)%Z = toF x - toF y.
Proof. apply Zmod.of_Z_sub. Qed.
Lemma toF_mul x y : toF (x * y)%Z = toF x * toF y.
Proof. apply Zmod.of_Z_mul. Qed.
Lemma toF_0 : toF 0 = 0.
Proof. apply Zmod.of_Z_0. Qed.
Lemma toF_1 : toF 1 = 1.
Proof. apply Zmod.of_Z_1. Qed.
Lemma ofF_toF x : ofF (toF x) = (x mod P)%Z.
Proof. apply Zmod.to_Z_of_Z. Qed.
Lemma toF_ofF x : toF (ofF x) = x.
Proof. apply Zmod.of_Z_to_Z. Qed.
Lemma ofF_range x : (0 <= ofF x < P)%Z.
Proof. apply Zmod.to_Z_pos_bound. done. Qed.

Definition fpow (x : Fp) (n : Z) : Fp := Zmod.pow (x : Zmod P) n.

Lemma toF_pow x n : (0 <= n)%Z -> toF (x ^ n)%Z = fpow (toF x) n.
Proof. apply Zmod.of_Z_pow. Qed.
Lemma fpow_add x m n : (0 <= m)%Z -> (0 <= n)%Z -> fpow x (m + n)%Z = fpow x m * fpow x n.
Proof. apply Zmod.pow_add_r_nonneg. Qed.
Lemma fpow_mul x m n : (0 <= m)%Z -> (0 <= n)%Z -> fpow x (m * n)%Z = fpow (fpow x m) n.
Proof. apply Zmod.pow_mul_r_nonneg. Qed.
Lemma fpow_1 x : fpow x 1 = x.
Proof. apply Zmod.pow_1_r. Qed.
Lemma fpow_2 x : fpow x 2 = x * x.
Proof. apply Zmod.pow_2_r. Qed.
Lemma fermat x : x <> 0 -> fpow x (P - 1)%Z = 1.
Proof. intros Hx. apply (Zmod.fermat_nz x Hx prime_P). Qed.

Lemma fpow_inv x : fpow x (P - 2)%Z = finv x.
Proof.
  destruct (decide (x = 0)) as [->|Hx]; [|apply (Zmod.fermat_inv x Hx prime_P)].
  transitivity (0 : Fp); [by apply Zmod.pow_0_l|]. symmetry. apply Zmod.inv_0.
Qed.

(** Decide an equation between constants by evaluation. *)
Lemma toF_decide x y : (x mod P =? y mod P)%Z = true -> toF x = toF y.
Proof. intros H. apply toF_eq, cong_iff. by apply Z.eqb_eq. Qed.

Lemma f_two_nz : (1 + 1 : Fp) <> 0.
Proof. rewrite <- toF_1, <- toF_0, <- toF_add, toF_eq, cong_iff. done. Qed.

(** Closed numeric facts. *)
Ltac num := vm_compute; (reflexivity || discriminate).

(** ** The constants *)

Definition D_CONST : Z := 37095705934669439343138083508754565189542113879843219016388785533085940283555.
Definition fd : Fp := toF D_CONST.
Definition fi : Fp := fpow (toF 2) ((P - 1) / 4)%Z.

(** A square root of [2 d]. *)
Definition ROOT_2D : Z := 55487632915927625549282413919184614932259505768049324239291840100650878933168.

Lemma two_nonresidue : fpow (toF 2) ((P - 1) / 2)%Z = - (1).
Proof.
  rewrite <- toF_pow by num. transitivity (toF (-1)).
  - apply toF_eq, cong_iff. rewrite <- (Zpow_mod_correct 2) by done. by vm_compute.
  - change (-1)%Z with (0 - 1)%Z. rewrite toF_sub, toF_0, toF_1. ring.
Qed.

Lemma fi_square : fi * fi = - (1).
Proof. rewrite <- two_nonresidue. unfold fi. by rewrite <- fpow_add by num. Qed.

Lemma neg_one_ne_one : - (1 : Fp) <> 1.
Proof. intros E. apply f_two_nz. transitivity (1 - - (1) : Fp); [ring|]. rewrite E. ring. Qed.

Lemma fd_nonsquare s : s * s <> fd.
Proof.
  intros E. assert (E2 : toF ROOT_2D * toF ROOT_2D = toF 2 * fd).
  { unfold fd. rewrite <- !toF_mul. apply toF_decide. by vm_compute. }
  assert (Hs : s <> 0).
  { intros ->. assert (Hz : fd = 0) by (rewrite <- E; ring). unfold fd in Hz. rewrite <- toF_0, toF_eq, cong_iff in Hz. revert Hz. num. }
  set (r := toF ROOT_2D / s). assert (Er : r * r = toF 2).
  { unfold r. transitivity (toF ROOT_2D * toF ROOT_2D / (s * s)); [by field|]. rewrite E2, E. field. rewrite <- E.
    by apply f_mul_nz. }
  assert (Hr : r <> 0).
  { intros Hz. rewrite Hz in Er. assert (Hz2 : toF 2 = 0) by (rewrite <- Er; ring).
    rewrite <- toF_0, toF_eq, cong_iff in Hz2. revert Hz2. num. }
  apply neg_one_ne_one. rewrite <- two_nonresidue, <- Er, <- fpow_2, <- fpow_mul by num. by apply fermat.
Qed.

(** ** Field elements as residues *)

Definition rep (a : Fe) (x : Fp) : Prop := fe_ok a /\ toF (fval a) = x.

Create HintDb rep discriminated.
#[export] Hint Constants Opaque : rep.
#[local] Opaque add sub mul fval toF.

Lemma rep_ok a : fe_ok a -> rep a (toF (fval a)).
Proof. by split. Qed.

Lemma rep_zero : rep ZERO 0.
Proof. split; [exact zero_ok|exact toF_0]. Qed.
Lemma rep_one : rep ONE 1.
Proof. split; [exact one_ok|exact toF_1]. Qed.

Lemma rep_add a b x y : rep a x -> rep b y -> rep (add a b) (x + y).
Proof. intros [Ha <-] [Hb <-]. destruct (add_spec a b Ha Hb) as [E Ho]. split; [done|]. rewrite <- toF_add. by apply toF_eq. Qed.
Lemma rep_sub a b x y : rep a x -> rep b y -> rep (sub a b) (x - y).
Proof. intros [Ha <-] [Hb <-]. destruct (sub_spec a b Ha Hb) as [E Ho]. split; [done|]. rewrite <- toF_sub. by apply toF_eq. Qed.
Lemma rep_mul a b x y : rep a x -> rep b y -> rep (mul a b) (x * y).
Proof. intros [Ha <-] [Hb <-]. destruct (mul_spec a b Ha Hb) as [E Ho]. split; [done|]. rewrite <- toF_mul. by apply toF_eq. Qed.
Lemma rep_square a x : rep a x -> rep (square a) (x * x).
Proof. intros. unfold square. by apply rep_mul. Qed.
Lemma rep_neg a x : rep a x -> rep (neg a) (- x).
Proof. intros H. unfold neg. replace (- x) with (0 - x) by ring. by apply rep_sub; [apply rep_zero|]. Qed.
Lemma rep_from_u64 v : fits 64 v -> rep (from_u64 v) (toF v).
Proof. intros Hv. destruct (from_u64_spec v Hv) as [E Ho]. split; [done|]. by rewrite E. Qed.

Lemma rep_pow a x e : rep a x -> bytes_ok e -> rep (pow_bytes_exp a e) (fpow x (from_le_bytes e)).
Proof.
  intros [Ha <-] He. destruct (pow_bytes_exp_spec a e Ha He) as [E Ho]. split; [done|].
  rewrite <- toF_pow by (by apply from_le_bound). by apply toF_eq.
Qed.

#[export] Hint Resolve rep_zero rep_one rep_add rep_sub rep_mul rep_square rep_neg : rep.

(** The exponents: [P - k], halved [s] times. *)
Lemma exp_bytes (e : list Z) n : forallb (fun b => (0 <=? b) && (b <? 256))%Z e && (from_le_bytes e =? n)%Z = true ->
  bytes_ok e /\ from_le_bytes e = n.
Proof.
  rewrite andb_true_iff, forallb_forall, Z.eqb_eq. intros [H E]. split; [|done]. apply Forall_forall. intros b Hb.
  apply list_elem_of_In, H in Hb. red. lia.
Qed.

Lemma rep_invert a x : rep a x -> rep (invert a) (finv x).
Proof.
  intros H. destruct (exp_bytes (exp_p_minus 2) (P - 2)) as [Ho E]; [by vm_compute|].
  unfold invert. rewrite <- fpow_inv, <- E. by apply rep_pow.
Qed.

Lemma rep_d : rep d_constant fd.
Proof.
  assert (N : toF 121666 <> 0) by (rewrite <- toF_0, toF_eq, cong_iff; num).
  replace fd with (finv (toF 121666) * - toF 121665).
  - apply rep_mul; [apply rep_invert|apply rep_neg]; by apply rep_from_u64.
  - assert (E : toF 121666 * fd = - toF 121665).
    { unfold fd. replace (- toF 121665) with (toF (0 - 121665)) by (rewrite toF_sub, toF_0; ring).
      rewrite <- toF_mul. apply toF_decide. by vm_compute. }
    rewrite <- E. by field.
Qed.

Lemma rep_sqrt_m1 : rep sqrt_m1 fi.
Proof.
  destruct (exp_bytes (exp_shr (exp_p_minus 1) 2) ((P - 1) / 4)) as [Ho E]; [by vm_compute|].
  unfold sqrt_m1, fi. rewrite <- E. apply rep_pow; [apply rep_from_u64; by split|done].
Qed.
#[export] Hint Resolve rep_d rep_sqrt_m1 rep_invert : rep.

(** ** Predicates *)

Lemma rep_bytes a x : rep a x -> to_bytes a = to_le_bytes 32 (ofF x).
Proof. intros [Ha <-]. rewrite to_bytes_spec by (by eapply below_le). by rewrite ofF_toF. Qed.

Lemma rep_is_negative a x : rep a x -> is_negative a = Z.odd (ofF x).
Proof.
  intros H. unfold is_negative. rewrite (rep_bytes _ _ H). cbn [to_le_bytes nth].
  change 1%Z with (Z.ones 1) at 1. rewrite Z.land_ones by done. change (2 ^ 1)%Z with 2%Z.
  rewrite <- Znumtheory.Zmod_div_mod by (done || by exists 128%Z). rewrite Zmod_odd. by destruct (Z.odd _).
Qed.

Lemma foldl_lor_0 l acc : foldl Z.lor acc l = 0%Z <-> acc = 0%Z /\ Forall (fun x => x = 0%Z) l.
Proof.
  revert acc. induction l as [|x l IH]; intros acc; simpl; [naive_solver|].
  rewrite IH, Z.lor_eq_0_iff, Forall_cons. tauto.
Qed.

Lemma bytes_zero n z : (0 <= z < 256 ^ Z.of_nat n)%Z -> Forall (fun x => x = 0%Z) (to_le_bytes n z) <-> z = 0%Z.
Proof.
  intros Hz. split; [intros H|intros ->].
  - rewrite <- (from_le_to_le_small n z Hz). clear Hz. induction H as [|x l -> _ IH]; [done|]. cbn. lia.
  - clear. induction n as [|n IH]; cbn; constructor; done.
Qed.

Lemma ofF_0_iff x : ofF x = 0%Z <-> x = 0.
Proof.
  split; [intros E|intros ->]. - rewrite <- (toF_ofF x), E. apply toF_0. - apply Zmod.to_Z_0.
Qed.

Lemma rep_is_zero a x : rep a x -> is_zero a = true <-> x = 0.
Proof.
  intros H. unfold is_zero. rewrite Z.eqb_eq, (rep_bytes _ _ H), foldl_lor_0, bytes_zero, ofF_0_iff.
  - tauto.
  - pose proof (ofF_range x). unfold P in *. change (256 ^ Z.of_nat 32)%Z with (2 ^ 256)%Z. lia.
Qed.

Lemma rep_eq a b x y : rep a x -> rep b y -> fe_eq a b = true <-> x = y.
Proof.
  intros Ha Hb. unfold fe_eq. rewrite (rep_is_zero _ (x - y)) by auto with rep.
  split; [intros E|intros ->; ring]. transitivity (x - y + y); [ring|]. rewrite E. ring.
Qed.

(** ** Points *)

Abbreviation curve := (on_curve Fp fd).
Notation "P ⊕ Q" := (eadd Fp fd P Q) (at level 50, left associativity) : fp_scope.
Abbreviation times := (emul Fp fd).

(** [p] is a curve point in extended coordinates. *)
Definition prep (p : Point) (Q : Fp * Fp) : Prop :=
  curve Q /\ exists X Y Z T, rep (px p) X /\ rep (py p) Y /\ rep (pz p) Z /\ rep (pt p) T /\ extends Fp X Y Z T Q.

Lemma sum_curve P Q : curve P -> curve Q -> curve (P ⊕ Q).
Proof. apply (eadd_on_curve Fp fd fi fi_square fd_nonsquare f_two_nz). Qed.

Lemma times_curve n Q : curve Q -> curve (times n Q).
Proof. apply (emul_on_curve Fp fd fi fi_square fd_nonsquare f_two_nz). Qed.

Lemma prep_identity : prep identity (ezero Fp).
Proof.
  split; [apply ezero_on_curve|]. exists 0, 1, 1, 0. do 4 (split; [by auto with rep|]).
  split; [apply f_one_nz|]. cbn. repeat split; ring.
Qed.

Lemma prep_add p q P Q : prep p P -> prep q Q -> prep (point_add p q) (P ⊕ Q).
Proof.
  intros (CP & X1 & Y1 & Z1 & T1 & RX1 & RY1 & RZ1 & RT1 & E1) (CQ & X2 & Y2 & Z2 & T2 & RX2 & RY2 & RZ2 & RT2 & E2).
  split; [by apply sum_curve|]. unfold point_add.
  pose proof (extended_add Fp fd fi fi_square fd_nonsquare f_two_nz _ _ _ _ _ _ _ _ P Q CP CQ E1 E2) as E. cbv zeta in E.
  do 4 eexists. split; [|split; [|split; [|split; [|exact E]]]]; cbn [px py pz pt]; auto 10 with rep.
Qed.

Lemma prep_eq p q P Q : prep p P -> prep q Q -> point_eq p q = true <-> P = Q.
Proof.
  intros (CP & X1 & Y1 & Z1 & T1 & RX1 & RY1 & RZ1 & RT1 & E1) (CQ & X2 & Y2 & Z2 & T2 & RX2 & RY2 & RZ2 & RT2 & E2).
  unfold point_eq. rewrite andb_true_iff.
  rewrite (rep_eq _ _ (X1 * Z2) (X2 * Z1)), (rep_eq _ _ (Y1 * Z2) (Y2 * Z1)) by auto with rep.
  by apply (extends_eq Fp X1 Y1 Z1 T1 X2 Y2 Z2 T2).
Qed.

(** Double-and-add, leading zeros skipped, is multiplication. *)
Lemma prep_mul_step p Q bs :
  prep p Q ->
  let st := foldl (mul_step p) (false, identity) bs in
  prep (snd st) (times (bval bs) Q) /\ (fst st = false -> bval bs = 0%Z).
Proof.
  intros HQ. pose proof (proj1 HQ) as CQ. induction bs as [|b bs [IH IH0]] using rev_ind.
  { split; [|done]. apply prep_identity. }
  cbv zeta. rewrite foldl_app, bval_snoc. cbn [foldl]. pose proof (bval_nonneg bs) as Hb.
  destruct (foldl (mul_step p) (false, identity) bs) as [[] acc]; cbn [fst snd] in *; unfold mul_step; cbn [negb].
  - assert (Hd : prep (point_add acc acc) (times (2 * bval bs) Q)).
    { replace (2 * bval bs)%Z with (bval bs + bval bs)%Z by lia.
      rewrite (emul_add Fp fd fi fi_square fd_nonsquare f_two_nz) by done. by apply prep_add. }
    split; [|done]. cbn [snd]. destruct b; [|by rewrite Z.add_0_r].
    rewrite (emul_add Fp fd fi fi_square fd_nonsquare f_two_nz) by (done || lia).
    rewrite emul_1. by apply prep_add.
  - rewrite (IH0 eq_refl) in *. destruct b; cbn [fst snd].
    + split; [|done]. by rewrite emul_1.
    + done.
Qed.

Lemma prep_scalar_mul s p Q : bytes_ok s -> prep p Q -> prep (scalar_mul_point s p) (times (from_le_bytes s) Q).
Proof. intros Hs HQ. rewrite <- (bits_msb_val s Hs). by apply prep_mul_step. Qed.

(** ** Encodings *)

(** The curve equation solved for [x^2]. *)
Lemma curve_ratio x y : curve (x, y) <-> x * x * (fd * (y * y) + 1) = y * y - 1.
Proof.
  unfold on_curve. split; intros H.
  - transitivity (1 + fd * x * x * y * y - (1 - x * x)); [ring|]. rewrite <- H. ring.
  - transitivity (y * y - 1 + 1 - x * x); [ring|]. rewrite <- H. ring.
Qed.

Lemma ratio_nz y : fd * (y * y) + 1 <> 0.
Proof.
  intros H. assert (E : fi * fi = fd * (y * y)).
  { rewrite fi_square. transitivity (fd * (y * y) + 1 - 1 - (fd * (y * y) + 1)); [ring|]. rewrite H. ring_simplify.
    transitivity (fd * (y * y) + 1 - 1); [rewrite H; ring|ring]. }
  pose proof (nonsquare_scaled Fp fd fd_nonsquare _ _ E) as ->. apply (f_one_nz Fp). rewrite <- H. ring.
Qed.

(** A fourth root of unity times [u]: the candidate of the square root. *)
Lemma candidate_square u v :
  let e := ((P - 5) / 8)%Z in
  let x := u * (v * v * v) * fpow (u * (v * v * v * (v * v * v) * v)) e in
  x * x * v = u * fpow (u * (v * v * v * (v * v * v) * v)) ((P - 1) / 4).
Proof.
  intros e x. unfold x. set (w := u * (v * v * v * (v * v * v) * v)).
  replace ((P - 1) / 4)%Z with (1 + (e + e))%Z by by vm_compute. rewrite !fpow_add, fpow_1 by num.
  unfold w at 3. ring.
Qed.

Lemma square_half s : s <> 0 -> fpow (s * s) ((P - 1) / 4)%Z = 1 \/ fpow (s * s) ((P - 1) / 4)%Z = - (1).
Proof.
  intros Hs. set (r := fpow (s * s) _).
  assert (E : r * r = 1).
  { unfold r. rewrite <- fpow_add, <- fpow_2, <- fpow_mul by num. replace (2 * _)%Z with (P - 1)%Z by by vm_compute.
    by apply fermat. }
  assert (Hz : (r - 1) * (r + 1) = 0) by (transitivity (r * r - 1); [ring|rewrite E; ring]).
  apply f_integral in Hz as [Hz|Hz]; [left|right].
  - transitivity (r - 1 + 1); [ring|rewrite Hz; ring].
  - transitivity (r + 1 - 1); [ring|rewrite Hz; ring].
Qed.

(** When [u / v] has a root, the candidate's square is it up to sign. *)
Lemma candidate_complete u v x0 :
  v <> 0 -> x0 * x0 * v = u ->
  let c := u * fpow (u * (v * v * v * (v * v * v) * v)) ((P - 1) / 4) in c = u \/ c = - u.
Proof.
  intros Hv <- c. unfold c. clear c. destruct (decide (x0 = 0)) as [->|Hx].
  { left. transitivity (0 : Fp); [ring|ring]. }
  set (s := v * v * v * v * x0).
  replace (x0 * x0 * v * (v * v * v * (v * v * v) * v)) with (s * s) by (unfold s; ring).
  destruct (square_half s) as [->| ->]; [|left; ring|right; ring].
  unfold s. by repeat apply f_mul_nz.
Qed.

Lemma recover_x_spec y fy :
  rep y fy ->
  match recover_x y with
  | Some x => exists fx, rep x fx /\ curve (fx, fy)
  | None => forall fx, ~ curve (fx, fy)
  end.
Proof.
  intros Hy. unfold recover_x.
  destruct (exp_bytes (exp_shr (exp_p_minus 5) 3) ((P - 5) / 8)) as [Ho E]; [by vm_compute|].
  set (yy := square y). set (u := sub yy ONE). set (v := add (mul d_constant yy) ONE).
  set (v3 := mul (square v) v). set (v7 := mul (square v3) v). set (ex := exp_shr _ _) in *.
  set (fu := fy * fy - 1). set (fv := fd * (fy * fy) + 1).
  assert (Ru : rep u fu) by (unfold u, yy, fu; auto with rep).
  assert (Rv : rep v fv) by (unfold v, yy, fv; auto with rep).
  assert (R3 : rep v3 (fv * fv * fv)) by (unfold v3; auto with rep).
  assert (R7 : rep v7 (fv * fv * fv * (fv * fv * fv) * fv)) by (unfold v7; auto with rep).
  assert (Hv : fv <> 0) by apply ratio_nz. clearbody u v v3 v7.
  assert (Rw : rep (pow_bytes_exp (mul u v7) ex) (fpow (fu * (fv * fv * fv * (fv * fv * fv) * fv)) ((P - 5) / 8))).
  { rewrite <- E. apply rep_pow; [auto with rep|done]. }
  set (x := mul (mul u v3) _). set (fx := fu * (fv * fv * fv) * fpow (fu * (fv * fv * fv * (fv * fv * fv) * fv)) ((P - 5) / 8)).
  assert (Rx : rep x fx) by (unfold x, fx; auto with rep).
  pose proof (candidate_square fu fv : fx * fx * fv = _) as Ec.
  assert (Rc : rep (mul (square x) v) (fx * fx * fv)) by auto with rep. clearbody x. clear Rw.
  set (check := mul (square x) v) in *. clearbody check.
  destruct (fe_eq check u) eqn:E1.
  { apply (rep_eq _ _ _ _ Rc Ru) in E1. exists fx. split; [done|]. by apply curve_ratio. }
  destruct (fe_eq check (neg u)) eqn:E2.
  { apply (rep_eq _ _ (fx * fx * fv) (- fu)) in E2; [|auto with rep..]. exists (fx * fi). split; [exact (rep_mul _ _ _ _ Rx rep_sqrt_m1)|].
    apply curve_ratio. fold fu fv. transitivity (fi * fi * (fx * fx * fv)); [ring|]. rewrite E2, fi_square. ring. }
  intros x0 C. apply curve_ratio in C. fold fu fv in C.
  destruct (candidate_complete fu fv x0 Hv C) as [H|H]; cbv zeta in H; rewrite <- Ec in H.
  - apply (rep_eq _ _ _ _ Rc Ru) in H. congruence.
  - apply (rep_eq check (neg u) (fx * fx * fv) (- fu)) in H; [congruence|auto with rep..].
Qed.

(** The coordinate and the sign bit of an encoding. *)
Definition enc_y (bytes : list Z) : Fp := toF (from_le_bytes bytes mod 2 ^ 255).
Definition enc_sign (bytes : list Z) : bool := (from_le_bytes bytes / 2 ^ 255 =? 1)%Z.

(** [Q] is the point an encoding denotes. *)
Definition decodes (bytes : list Z) (Q : Fp * Fp) : Prop :=
  curve Q /\ snd Q = enc_y bytes /\ Z.odd (ofF (fst Q)) = enc_sign bytes.

Local Open Scope Z_scope.


(** The top byte of a 32-byte string. *)
Lemma split_top b :
  bytes_ok b -> length b = 32%nat ->
  exists l t, b = l ++ [t] /\ length l = 31%nat /\ is_byte t /\ bytes_ok l /\
    from_le_bytes b = from_le_bytes l + 2 ^ 248 * t /\ 0 <= from_le_bytes l < 2 ^ 248.
Proof.
  intros Hb Hl. destruct b as [|t l _] using rev_ind; [done|]. exists l, t. rewrite length_app in Hl. simpl in Hl.
  apply Forall_app in Hb as [Hl' Ht]. assert (length l = 31%nat) as E by lia. pose proof (from_le_bound l Hl') as B.
  rewrite E in B. inversion Ht; subst. rewrite from_le_app, E. cbn [from_le_bytes].
  do 4 (split; [done|]). change (256 ^ Z.of_nat 31) with (2 ^ 248) in *. lia.
Qed.

Lemma alter_top (f : Z -> Z) l t : length l = 31%nat -> alter f 31%nat (l ++ [t]) = l ++ [f t].
Proof. intros <-. rewrite alter_app_r_alt by lia. by rewrite Nat.sub_diag. Qed.

Lemma land_7f t : is_byte t -> Z.land t 0x7f = t mod 128.
Proof. intros _. change 0x7f with (Z.ones 7). by apply Z.land_ones. Qed.

Lemma decode_parts b :
  bytes_ok b -> length b = 32%nat ->
  (Z.shiftr (nth 31 b 0) 7 =? 1) = enc_sign b /\
  rep (from_bytes (alter (fun x => Z.land x 0x7f) 31%nat b)) (enc_y b).
Proof.
  intros Hb Hl. destruct (split_top b Hb Hl) as (l & t & -> & El & Ht & Hl' & Ev & B). red in Ht.
  assert (Hn : nth 31 (l ++ [t]) 0 = t) by (rewrite app_nth2, El by lia; done).
  assert (Eq : from_le_bytes (l ++ [t]) / 2 ^ 255 = t / 128).
  { rewrite Ev. pose proof (Z.div_mod t 128). pose proof (Z.mod_pos_bound t 128). symmetry.
    apply (Z.div_unique_pos _ _ _ (from_le_bytes l + 2 ^ 248 * (t mod 128))); lia. }
  assert (Er : from_le_bytes (l ++ [t]) mod 2 ^ 255 = from_le_bytes l + 2 ^ 248 * (t mod 128)).
  { rewrite Ev. pose proof (Z.div_mod t 128). pose proof (Z.mod_pos_bound t 128). symmetry.
    apply (Z.mod_unique_pos _ _ (t / 128)); lia. }
  split; [unfold enc_sign; by rewrite Hn, Z.shiftr_div_pow2, Eq by done|].
  rewrite alter_top, land_7f by done. pose proof (Z.mod_pos_bound t 128 ltac:(done)) as Bt.
  set (b' := l ++ [t mod 128]). assert (Hb' : bytes_ok b').
  { apply Forall_app. split; [done|]. apply List.Forall_cons; [red; lia|apply List.Forall_nil]. }
  assert (Hl2 : length b' = 32%nat) by (unfold b'; rewrite length_app, El; done).
  destruct (from_bytes_spec b' Hb' Hl2) as [Ef Hok]. split; [by eapply below_le|]. unfold enc_y. rewrite Ef, Er.
  f_equal. unfold b'. rewrite from_le_app, El. cbn [from_le_bytes]. change (256 ^ Z.of_nat 31) with (2 ^ 248).
  rewrite Z.mod_small; lia.
Qed.

Local Open Scope fp_scope.

Lemma ofF_opp x : x <> 0 -> ofF (- x) = (P - ofF x)%Z.
Proof.
  intros Hx. pose proof (ofF_range x) as B. assert (ofF x <> 0%Z) by by rewrite ofF_0_iff.
  assert (E : - x = toF (P - ofF x)).
  { rewrite toF_sub, toF_ofF. replace (toF P) with (0 : Fp); [ring|]. rewrite <- toF_0. apply toF_eq, cong_iff. done. }
  rewrite E, ofF_toF, Z.mod_small; lia.
Qed.

Lemma odd_opp x : x <> 0 -> Z.odd (ofF (- x)) = negb (Z.odd (ofF x)).
Proof. intros Hx. rewrite ofF_opp, Z.odd_sub by done. change (Z.odd P) with true. by destruct (Z.odd _). Qed.

Lemma curve_opp x y : curve (x, y) -> curve (- x, y).
Proof. apply (eneg_on_curve Fp fd (x, y)). Qed.

(** A coordinate and a sign determine the point. *)
Lemma curve_roots x x' y : curve (x, y) -> curve (x', y) -> x' = x \/ x' = - x.
Proof.
  rewrite !curve_ratio. intros E E'. pose proof (ratio_nz y) as N.
  assert (H : x * x = x' * x').
  { apply (f_cancel Fp (fd * (y * y) + 1) _ _ N). transitivity (x * x * (fd * (y * y) + 1)); [ring|].
    rewrite E, <- E'. ring. }
  assert (Hz : (x' - x) * (x' + x) = 0) by (transitivity (x' * x' - x * x); [ring|rewrite H; ring]).
  apply f_integral in Hz as [Hz|Hz]; [left|right].
  - transitivity (x' - x + x); [ring|rewrite Hz; ring].
  - transitivity (x' + x - x); [ring|rewrite Hz; ring].
Qed.

Lemma decodes_unique b Q Q' : decodes b Q -> decodes b Q' -> Q = Q'.
Proof.
  destruct Q as [x y], Q' as [x' y']. intros (C & E & S) (C' & E' & S'). cbn [fst snd] in *. subst y y'. f_equal.
  destruct (curve_roots x x' _ C C') as [->| ->]; [done|].
  destruct (decide (x = 0)) as [->|Hx]; [ring|]. rewrite odd_opp, S in S' by done. by destruct (no_fixpoint_negb _ S').
Qed.

(** [decompress] finds the point of an encoding, and fails when there is none. *)
Lemma decompress_spec b :
  bytes_ok b -> length b = 32%nat ->
  match decompress b with
  | Some p => exists Q, decodes b Q /\ prep p Q
  | None => forall Q, ~ decodes b Q
  end.
Proof.
  intros Hb Hl. destruct (decode_parts b Hb Hl) as [Es Ry]. unfold decompress. rewrite Es.
  set (y := from_bytes _) in *. clearbody y. pose proof (recover_x_spec y _ Ry) as Hx.
  destruct (recover_x y) as [x|]; [|intros [qx qy] (C & E & _); cbn in E; subst qy; by apply (Hx qx)].
  destruct Hx as (fx & Rx & C).
  assert (Hz : is_zero x && enc_sign b = true -> forall Q, ~ decodes b Q).
  { rewrite andb_true_iff, (rep_is_zero _ _ Rx). intros [-> Hs] [qx qy] (C' & E & S). cbn [fst snd] in *. subst qy.
    assert (qx = (0 : Fp)) as ->. { destruct (curve_roots 0 qx _ C C') as [->| ->]; ring. }
    rewrite Hs, (proj2 (ofF_0_iff 0) eq_refl) in S. discriminate S. }
  destruct (is_zero x && enc_sign b) eqn:E0; [by apply Hz|]. clear Hz.
  assert (Hgo : forall x' fx', rep x' fx' -> curve (fx', enc_y b) -> Z.odd (ofF fx') = enc_sign b ->
    exists Q, decodes b Q /\ prep (mkPoint x' y ONE (mul x' y)) Q).
  { intros x' fx' Rx' C' S'. exists (fx', enc_y b). split; [split; [assumption|split; [reflexivity|assumption]]|]. split; [assumption|].
    exists fx', (enc_y b), 1, (fx' * enc_y b). cbn [px py pz pt].
    split; [done|]. split; [done|]. split; [exact rep_one|]. split; [by apply rep_mul|].
    split; [apply f_one_nz|]. cbn [fst snd]. repeat split; ring. }
  rewrite (rep_is_negative _ _ Rx). destruct (eqb (Z.odd (ofF fx)) (enc_sign b)) eqn:Eb; cbn [negb].
  - apply eqb_prop in Eb. by apply (Hgo x fx).
  - apply eqb_false_iff in Eb. unfold conditional_negate. apply (Hgo _ (- fx)); [by apply rep_neg|by apply curve_opp|].
    assert (fx <> 0).
    { intros ->. rewrite (proj2 (ofF_0_iff 0) eq_refl) in Eb. destruct (enc_sign b) eqn:Hs; [|by apply Eb].
      rewrite andb_true_r in E0. apply not_true_iff_false in E0. apply E0. by apply (rep_is_zero _ _ Rx). }
    rewrite odd_opp by assumption. revert Eb. clear. by destruct (Z.odd (ofF fx)), (enc_sign b).
Qed.
