(* ===== verification/Ed25519Scalar.v ===== *)
(** * Scalars of Ed25519

    [mod_l] is reduction modulo the group order [L], for input of any length;
    [mul_add_mod_l] multiplies and adds modulo [L]; the range check compares
    with [L].  No carry or borrow is lost. *)

From S2P Require Import Prelude RustStd HashStream Sha256 Sha512 Ed25519 Limbs Ed25519Field.
Import Ed25519.

Definition L : Z := 2 ^ 252 + 27742317777372353535851937790883648493.

Lemma L_LIMBS_ok : limbs_ok 32 L_LIMBS.
Proof. repeat (apply List.Forall_cons; [by vm_compute|]). apply List.Forall_nil. Qed.
Lemma L_LIMBS_val : lval 32 L_LIMBS = L.
Proof. done. Qed.

(** ** Reduction *)

Lemma shl1_spec rem : forall carry,
  limbs_ok 32 rem -> 0 <= carry <= 1 ->
  limbs_ok 32 (shl1 rem carry) /\ length (shl1 rem carry) = length rem /\
  exists top, 0 <= top <= 1 /\ lval 32 (shl1 rem carry) + 2 ^ (32 * Z.of_nat (length rem)) * top = 2 * lval 32 rem + carry.
Proof.
  induction rem as [|x rem IH]; intros carry Hr Hc.
  { split; [done|]. split; [done|]. exists carry. split; [done|]. cbn [length lval]. rewrite Z.mul_0_r. cbn [Z.pow]. simpl. lia. }
  inversion Hr as [|?? Hx Hr']; subst. unfold fits in Hx. cbn [shl1 length lval].
  rewrite Z.shiftl_mul_pow2, Z.shiftr_div_pow2 by lia. change (2 ^ 1) with 2.
  assert (Hq : 0 <= x / 2 ^ 31 <= 1).
  { split; [apply Z.div_pos; lia|]. apply Z.lt_succ_r, Z.div_lt_upper_bound; lia. }
  destruct (IH (x / 2 ^ 31) Hr' Hq) as (Ho & Hn & top & Ht & E).
  assert (Ew : wrap 32 (x * 2) = 2 * (x mod 2 ^ 31)).
  { unfold wrap. change (2 ^ 32) with (2 * 2 ^ 31). rewrite Z.mul_comm. by rewrite Z.mul_mod_distr_l by lia. }
  pose proof (Z.mod_pos_bound x (2 ^ 31) ltac:(lia)). pose proof (Z.div_mod x (2 ^ 31) ltac:(lia)).
  assert (El : Z.lor (wrap 32 (x * 2)) carry = carry + 2 * (x mod 2 ^ 31)).
  { rewrite Z.lor_comm, Ew. apply (lor_disjoint 1); lia. }
  rewrite El, Hn. split; [apply List.Forall_cons; [red; lia|done]|]. split; [done|]. exists top. split; [done|].
  rewrite Nat2Z.inj_succ, Z.mul_succ_r, Z.pow_add_r by lia. nia.
Qed.

Lemma limbs_sub_spec a2 a1 : forall b borrow,
  limbs_ok 32 a1 -> limbs_ok 32 b -> length a1 = length b -> 0 <= borrow <= 1 -> lval 32 b + borrow <= lval 32 a1 ->
  exists r, limbs_sub (a1 ++ a2) b borrow = r ++ a2 /\ length r = length a1 /\ limbs_ok 32 r /\
    lval 32 r = lval 32 a1 - lval 32 b - borrow.
Proof.
  induction a1 as [|x a1 IH]; intros [|y b] borrow Ha Hb Hl Hbr Hle; try done.
  { exists []. cbn [lval app limbs_sub] in *. split; [by destruct a2|]. split; [done|]. split; [done|]. lia. }
  inversion Ha as [|?? Hx Ha']; inversion Hb as [|?? Hy Hb']; subst. unfold fits in Hx, Hy. cbn [length] in Hl.
  cbn [app limbs_sub lval] in *. rewrite add64_small by lia.
  assert (Ew : wrap 32 (wrap 64 (x - (y + borrow))) = (x - (y + borrow)) mod 2 ^ 32).
  { unfold wrap. by rewrite <- Znumtheory.Zmod_div_mod by (lia || by exists (2 ^ 32)). }
  rewrite Ew. destruct (Z.ltb_spec x (y + borrow)) as [Hlt|Hge].
  - destruct (IH b 1) as (r & E & Hr & Ho & Ev); [done|done|lia|lia|lia|]. rewrite E.
    assert (Em : (x - (y + borrow)) mod 2 ^ 32 = x - (y + borrow) + 2 ^ 32).
    { symmetry. apply (Z.mod_unique_pos _ _ (-1)); lia. }
    rewrite Em. exists (x - (y + borrow) + 2 ^ 32 :: r). split; [done|]. cbn [length lval]. split; [lia|].
    split; [apply List.Forall_cons; [red; lia|done]|lia].
  - destruct (IH b 0) as (r & E & Hr & Ho & Ev); [done|done|lia|lia|lia|]. rewrite E.
    rewrite Z.mod_small by lia. exists (x - (y + borrow) :: r). split; [done|]. cbn [length lval]. split; [lia|].
    split; [apply List.Forall_cons; [red; lia|done]|lia].
Qed.

(** The remainder of [mod_l]: nine limbs, the top one clear, below [L]. *)
Definition rem_is (rem : list Z) (v : Z) : Prop :=
  exists r, rem = r ++ [0] /\ length r = 8%nat /\ limbs_ok 32 r /\ lval 32 r = v.

Lemma mod_l_step_spec rem v b :
  rem_is rem v -> 0 <= v < L -> rem_is (mod_l_step rem b) ((2 * v + (if b then 1 else 0)) mod L).
Proof.
  intros (r & -> & Hl & Ho & Hv) Hb. unfold mod_l_step. set (c := if b then 1 else 0).
  assert (Hc : 0 <= c <= 1) by (unfold c; destruct b; lia).
  destruct (shl1_spec (r ++ [0]) c) as (Ho' & Hn & top & Ht & E).
  { apply Forall_app. split; [done|]. apply List.Forall_cons; [done|apply List.Forall_nil]. } { done. }
  rewrite lval_app, Hv in E by lia. rewrite length_app, Hl in E, Hn. cbn [lval length] in *.
  change (8 + 1)%nat with 9%nat in *. set (s := shl1 (r ++ [0]) c) in *. clearbody s.
  (* the ninth limb of the doubled remainder is still clear *)
  destruct s as [|t s' _] using rev_ind; [done|]. rewrite length_app in Hn. simpl in Hn.
  assert (Hs : length s' = 8%nat) by lia. apply Forall_app in Ho' as [Hos Hot]. inversion Hot as [|?? Ht0]; subst. red in Ht0.
  rewrite lval_app, Hs in E by lia. cbn [lval] in E. change (32 * Z.of_nat 8) with 256 in E. change (32 * Z.of_nat 9) with 288 in E.
  pose proof (lval_bound 32 s' ltac:(lia) Hos) as Bs. rewrite Hs in Bs. change (32 * Z.of_nat 8) with 256 in Bs.
  assert (t = 0 /\ top = 0) as [-> ->] by (unfold L in Hb; lia).
  assert (Ev : lval 32 s' = 2 * lval 32 r + c) by lia. clear E Ht Ht0 Hot Hn.
  unfold limbs_geq. rewrite take_app_length' by done. rewrite (cmp_lanes_spec 32) by (done || apply L_LIMBS_ok || lia).
  rewrite L_LIMBS_val, Ev.
  assert (Hge : L <= 2 * lval 32 r + c -> rem_is (limbs_sub (s' ++ [0]) L_LIMBS 0) ((2 * lval 32 r + c) mod L)).
  { intros Hge. destruct (limbs_sub_spec [0] s' L_LIMBS 0) as (q & Eq & Hq & Hoq & Evq);
      [done|apply L_LIMBS_ok|done|lia|rewrite L_LIMBS_val; lia|].
    rewrite Eq. exists q. split; [done|]. split; [lia|]. split; [done|]. rewrite Evq, L_LIMBS_val, Ev.
    apply (Z.mod_unique_pos _ _ 1); lia. }
  destruct (Z.compare_spec (2 * lval 32 r + c) L) as [Hc'|Hc'|Hc']; [apply Hge; lia| |apply Hge; lia].
  exists s'. split; [done|]. split; [done|]. split; [done|]. rewrite Z.mod_small; lia.
Qed.

Lemma mod_l_spec input : bytes_ok input -> mod_l input = to_le_bytes 32 (from_le_bytes input mod L).
Proof.
  intros Hi. rewrite <- (bits_msb_val input Hi). unfold mod_l.
  assert (H : rem_is (foldl mod_l_step (replicate 9 0) (bits_msb input)) (bval (bits_msb input) mod L)).
  { generalize (bits_msb input). intros bs. induction bs as [|b bs IH] using rev_ind.
    - exists (replicate 8 0). split; [done|]. split; [done|]. split; [|done]. by repeat (apply List.Forall_cons; [done|]); apply List.Forall_nil.
    - rewrite foldl_app, bval_snoc. cbn [foldl]. pose proof (Z.mod_pos_bound (bval bs) L ltac:(done)).
      pose proof (mod_l_step_spec _ _ b IH ltac:(done)) as Hs.
      by rewrite <- Zplus_mod_idemp_l, Zmult_mod_idemp_r, Zplus_mod_idemp_l in Hs. }
  destruct H as (r & -> & Hl & Ho & Hv). rewrite take_app_length' by done. rewrite (limb_bytes 4 32) by done.
  by rewrite Hl, Hv.
Qed.

(** ** The range check *)

Lemma bytes_geq_l_spec s : bytes_ok s -> length s = 32%nat -> bytes_geq_l s = (L <=? from_le_bytes s).
Proof.
  intros Hs Hl. unfold bytes_geq_l.
  assert (E : concat (to_le_bytes 4 <$> L_LIMBS) = to_le_bytes 32 L) by by vm_compute. rewrite E.
  rewrite (cmp_lanes_spec 8); [|lia|exact Hs|apply to_le_bytes_ok|by rewrite length_to_le_bytes].
  rewrite !lval_8, from_le_to_le_small by (change (256 ^ Z.of_nat 32) with (2 ^ 256); unfold L; lia).
  destruct (Z.compare_spec (from_le_bytes s) L), (Z.leb_spec L (from_le_bytes s)); lia || done.
Qed.

(** ** Multiplication *)

Lemma words32_spec a : bytes_ok a -> length a = 32%nat -> limbs_ok 32 (words32 a) /\ lval 32 (words32 a) = from_le_bytes a.
Proof.
  intros Ha Hl. split.
  - apply Forall_fmap, Forall_forall. intros i Hi. apply elem_of_seq in Hi. cbn.
    assert (Hs : bytes_ok (slice (4 * i) 4 a)) by by apply Forall_take, Forall_drop.
    pose proof (from_le_bound _ Hs) as B. rewrite length_slice in B by lia. exact B.
  - unfold words32. cbn [seq fmap list_fmap lval]. rewrite !from_le_slice by (done || lia).
    set (n := from_le_bytes a). assert (R : forall k, 0 <= k -> n mod 2 ^ (k + 32) = n mod 2 ^ k + 2 ^ k * ((n / 2 ^ k) mod 2 ^ 32)).
    { intros k Hk. rewrite Z.pow_add_r by lia. apply Z.rem_mul_r; lia. }
    pose proof (from_le_bound _ Ha) as Bn. rewrite Hl in Bn. change (256 ^ Z.of_nat 32) with (2 ^ 256) in Bn. fold n in Bn.
    assert (R0 : n mod 2 ^ 32 = (n / 2 ^ 0) mod 2 ^ 32) by (by rewrite Z.div_1_r).
    assert (R1 : n mod 2 ^ 64 = n mod 2 ^ 32 + 2 ^ 32 * ((n / 2 ^ 32) mod 2 ^ 32)) by (apply (R 32); lia).
    assert (R2 : n mod 2 ^ 96 = n mod 2 ^ 64 + 2 ^ 64 * ((n / 2 ^ 64) mod 2 ^ 32)) by (apply (R 64); lia).
    assert (R3 : n mod 2 ^ 128 = n mod 2 ^ 96 + 2 ^ 96 * ((n / 2 ^ 96) mod 2 ^ 32)) by (apply (R 96); lia).
    assert (R4 : n mod 2 ^ 160 = n mod 2 ^ 128 + 2 ^ 128 * ((n / 2 ^ 128) mod 2 ^ 32)) by (apply (R 128); lia).
    assert (R5 : n mod 2 ^ 192 = n mod 2 ^ 160 + 2 ^ 160 * ((n / 2 ^ 160) mod 2 ^ 32)) by (apply (R 160); lia).
    assert (R6 : n mod 2 ^ 224 = n mod 2 ^ 192 + 2 ^ 192 * ((n / 2 ^ 192) mod 2 ^ 32)) by (apply (R 192); lia).
    assert (R7 : n = n mod 2 ^ 224 + 2 ^ 224 * ((n / 2 ^ 224) mod 2 ^ 32)) by (rewrite <- (R 224) by lia; by rewrite Z.mod_small).
    change (8 * Z.of_nat 4) with 32. change (8 * Z.of_nat (4 * 0)) with 0. change (8 * Z.of_nat (4 * 1)) with 32.
    change (8 * Z.of_nat (4 * 2)) with 64. change (8 * Z.of_nat (4 * 3)) with 96. change (8 * Z.of_nat (4 * 4)) with 128.
    change (8 * Z.of_nat (4 * 5)) with 160. change (8 * Z.of_nat (4 * 6)) with 192. change (8 * Z.of_nat (4 * 7)) with 224.
    clear Bn R.
    repeat match goal with |- context [(n / ?k) mod 2 ^ 32] => generalize dependent ((n / k) mod 2 ^ 32); intros end.
    repeat match goal with H : context [n mod ?k] |- _ => generalize dependent (n mod k); intros end. lia.
Qed.

(** One row of the product: the carry ends in the clear limb on top. *)
Lemma mul_row_spec x rest bb : forall ps carry,
  fits 32 x -> limbs_ok 32 bb -> limbs_ok 32 ps -> length ps = length bb -> fits 32 carry ->
  exists r, mul_row (ps ++ 0 :: rest) x bb carry = r ++ rest /\ length r = S (length bb) /\ limbs_ok 32 r /\
    lval 32 r = lval 32 ps + x * lval 32 bb + carry.
Proof.
  induction bb as [|y bb IH]; intros [|q ps] carry Hx Hb Hp Hl Hc; try done.
  { exists [carry]. cbn [app mul_row lval length]. unfold add32. rewrite Z.add_0_l, wrap_wrap, wrap_small by (done || lia).
    split; [done|]. split; [done|]. split; [apply List.Forall_cons; [done|apply List.Forall_nil]|lia]. }
  inversion Hb as [|?? Hy Hb']; inversion Hp as [|?? Hq Hp']; subst. unfold fits in Hx, Hc, Hy, Hq. cbn [length] in Hl.
  cbn [app mul_row lval]. unfold mul64. assert (Hxy : 0 <= x * y <= (2 ^ 32 - 1) * (2 ^ 32 - 1)) by nia.
  rewrite (wrap_small 64 (x * y)) by (red; lia). rewrite (add64_small q) by lia. rewrite add64_small by lia.
  rewrite Z.shiftr_div_pow2 by lia. set (cur := q + x * y + carry). assert (Hcur : 0 <= cur < 2 ^ 64) by (unfold cur; lia).
  destruct (IH ps (cur / 2 ^ 32)) as (r & E & Hr & Ho & Ev); [done|done|done|lia| |].
  { split; [apply Z.div_pos; lia|apply Z.div_lt_upper_bound; lia]. }
  rewrite E. exists (wrap 32 cur :: r). split; [done|]. cbn [length lval]. split; [lia|].
  split; [apply List.Forall_cons; [apply wrap_fits; lia|done]|]. rewrite Ev. unfold wrap.
  pose proof (Z.div_mod cur (2 ^ 32) ltac:(lia)). unfold cur in *. lia.
Qed.

Lemma mul_rows_spec bb aa : forall ps k,
  limbs_ok 32 aa -> limbs_ok 32 bb -> limbs_ok 32 ps -> length ps = length bb -> (length aa <= k)%nat ->
  limbs_ok 32 (mul_rows (ps ++ replicate k 0) aa bb) /\
  length (mul_rows (ps ++ replicate k 0) aa bb) = (length ps + k)%nat /\
  lval 32 (mul_rows (ps ++ replicate k 0) aa bb) = lval 32 ps + lval 32 aa * lval 32 bb.
Proof.
  induction aa as [|x aa IH]; intros ps k Ha Hb Hp Hl Hk; cbn [mul_rows length lval] in *.
  { split; [apply Forall_app; split; [done|by apply Forall_replicate]|]. split; [by rewrite length_app, length_replicate|].
    rewrite lval_app, lval_zeros by lia. lia. }
  inversion Ha as [|?? Hx Ha']; subst. destruct k as [|k]; [lia|]. cbn [replicate].
  destruct (mul_row_spec x (replicate k 0) bb ps 0) as (r & E & Hr & Ho & Ev); [done|done|done|done|done|].
  rewrite E. destruct r as [|q r]; [done|]. cbn [app length] in *. inversion Ho as [|?? Hq Ho']; subst.
  destruct (IH r k Ha' Hb Ho') as (Ho2 & Hn2 & Ev2); [lia|lia|]. cbn [length lval] in *.
  split; [by apply List.Forall_cons|]. split; [lia|]. rewrite Ev2. nia.
Qed.

(** ** Addition *)

Lemma add_bytes_spec wide : forall c carry,
  bytes_ok wide -> bytes_ok c -> (length c <= length wide)%nat -> 0 <= carry < 2 ^ 32 ->
  from_le_bytes wide + from_le_bytes c + carry < 256 ^ Z.of_nat (length wide) ->
  bytes_ok (add_bytes wide c carry) /\ from_le_bytes (add_bytes wide c carry) = from_le_bytes wide + from_le_bytes c + carry.
Proof.
  induction wide as [|w wide IH]; intros c carry Hw Hc Hl Hcar Hlt.
  { destruct c; [|cbn in Hl; lia]. cbn in *. split; [done|]. lia. }
  inversion Hw as [|?? Hwb Hw']; subst. red in Hwb. cbn [length from_le_bytes] in *.
  rewrite Nat2Z.inj_succ, Z.pow_succ_r in Hlt by lia.
  destruct c as [|x c]; cbn [add_bytes from_le_bytes length] in *.
  - destruct (Z.ltb_spec 0 carry) as [H0|H0].
    + rewrite add64_small, Z.shiftr_div_pow2 by lia. change (2 ^ 8) with 256. pose proof (Z.div_mod (w + carry) 256 ltac:(lia)).
      pose proof (Z.mod_pos_bound (w + carry) 256 ltac:(lia)).
      destruct (IH [] ((w + carry) / 256)) as [Ho Ev]; [done|done|cbn; lia| |cbn [from_le_bytes]; lia|].
      { split; [apply Z.div_pos; lia|apply Z.div_lt_upper_bound; lia]. }
      split; [apply List.Forall_cons; [apply (wrap_fits 8); lia|done]|]. cbn [from_le_bytes] in *. rewrite Ev. unfold wrap. change (2 ^ 8) with 256. lia.
    + assert (carry = 0) as -> by lia. split; [done|]. cbn [from_le_bytes]. lia.
  - inversion Hc as [|?? Hx Hc']; subst. red in Hx. rewrite (add64_small w x) by lia. rewrite add64_small, Z.shiftr_div_pow2 by lia. change (2 ^ 8) with 256.
    pose proof (Z.div_mod (w + x + carry) 256 ltac:(lia)). pose proof (Z.mod_pos_bound (w + x + carry) 256 ltac:(lia)).
    destruct (IH c ((w + x + carry) / 256)) as [Ho Ev]; [done|done|lia| |lia|].
    { split; [apply Z.div_pos; lia|apply Z.div_lt_upper_bound; lia]. }
    split; [apply List.Forall_cons; [apply (wrap_fits 8); lia|done]|]. cbn [from_le_bytes]. rewrite Ev. unfold wrap. change (2 ^ 8) with 256. lia.
Qed.

Lemma mul_add_mod_l_spec a b c :
  bytes_ok a -> bytes_ok b -> bytes_ok c -> length a = 32%nat -> length b = 32%nat -> length c = 32%nat ->
  mul_add_mod_l a b c = to_le_bytes 32 ((from_le_bytes a * from_le_bytes b + from_le_bytes c) mod L).
Proof.
  intros Ha Hb Hc La Lb Lc. unfold mul_add_mod_l.
  destruct (words32_spec a Ha La) as [Oa Va], (words32_spec b Hb Lb) as [Ob Vb].
  destruct (mul_rows_spec (words32 b) (words32 a) (replicate 8 0) 26) as (Op & Lp & Vp);
    [done|done|by apply Forall_replicate|done|cbn; lia|].
  change (replicate 8 0 ++ replicate 26 0) with (replicate 34 0) in *. rewrite lval_zeros, Va, Vb in Vp.
  set (prod := mul_rows _ _ _) in *. clearbody prod. rewrite (limb_bytes 4 32), Lp by done. cbn [length replicate] in Lp |- *.
  pose proof (from_le_bound a Ha) as Ba. pose proof (from_le_bound b Hb) as Bb. pose proof (from_le_bound c Hc) as Bc.
  rewrite La in Ba. rewrite Lb in Bb. rewrite Lc in Bc. change (256 ^ Z.of_nat 32) with (2 ^ 256) in *.
  rewrite Vp. set (v := 0 + from_le_bytes a * from_le_bytes b) in *. assert (Bv : 0 <= v < 2 ^ 512) by (unfold v; nia).
  replace (4 * (8 + 26))%nat with 136%nat by lia || idtac.
  set (wide := splice _ _ _).
  assert (Ew : wide = to_le_bytes 136 v ++ replicate 8 0).
  { unfold wide, splice. rewrite take_0, length_to_le_bytes. done. }
  assert (Vw : from_le_bytes wide = v).
  { rewrite Ew, from_le_app, <- (lval_8 (replicate 8 0)), lval_zeros, from_le_to_le_small by (change (256 ^ Z.of_nat 136) with (2 ^ 1088); lia). lia. }
  assert (Ow : bytes_ok wide) by (rewrite Ew; apply Forall_app; split; [apply to_le_bytes_ok|by apply Forall_replicate]).
  assert (Lw : length wide = 144%nat) by (rewrite Ew, length_app, length_to_le_bytes; done).
  destruct (add_bytes_spec wide c 0) as [Oa' Ea]; [done|done|lia|lia| |].
  { rewrite Vw, Lw. change (256 ^ Z.of_nat 144) with (2 ^ 1152). lia. }
  rewrite mod_l_spec by done. rewrite Ea, Vw. unfold v. do 2 f_equal. lia.
Qed.
