(* ===== verification/Ed25519Sign.v ===== *)
(** * Signing and verification

    The encoding of points, the base point and its order, and what [sign] and
    [verify] compute, stated on the group of [Edwards]. *)

From Stdlib Require Import Field.
From S2P Require Import Prelude RustStd HashStream Sha256 Sha512 Ed25519 Limbs Ed25519Field Edwards Ed25519Curve Ed25519Scalar.
Import Ed25519.

Local Open Scope fp_scope.
Add Field Fp_field_sign : (field_laws Fp).

(** ** Encoding *)

Definition encode (Q : Fp * Fp) : list Z :=
  to_le_bytes 32 (ofF (snd Q) + 2 ^ 255 * (if Z.odd (ofF (fst Q)) then 1 else 0))%Z.

Lemma length_encode Q : length (encode Q) = 32%nat.
Proof. apply length_to_le_bytes. Qed.
Lemma encode_ok Q : bytes_ok (encode Q).
Proof. apply to_le_bytes_ok. Qed.

Lemma set_sign_spec v : (0 <= v < 2 ^ 255)%Z -> set_sign (to_le_bytes 32 v) = to_le_bytes 32 (v + 2 ^ 255 * 1)%Z.
Proof.
  intros Hv. destruct (split_top (to_le_bytes 32 v)) as (l & t & E & El & Ht & Hl & Ev & B);
    [apply to_le_bytes_ok|apply length_to_le_bytes|].
  rewrite from_le_to_le_small in Ev by (change (256 ^ Z.of_nat 32)%Z with (2 ^ 256)%Z; lia).
  assert (Ht' : (0 <= t < 128)%Z) by (unfold is_byte in Ht; lia). unfold set_sign. rewrite E, alter_top by done.
  assert (Eo : Z.lor t 0x80 = (t + 128)%Z) by (apply (lor_disjoint 7 t 1); lia). rewrite Eo.
  assert (Hok : bytes_ok (l ++ [t + 128]%Z)).
  { apply Forall_app. split; [done|]. apply List.Forall_cons; [red; lia|apply List.Forall_nil]. }
  assert (Hlen : length (l ++ [t + 128]%Z) = 32%nat) by (rewrite length_app, El; done).
  rewrite <- (to_le_from_le _ Hok), Hlen. f_equal. rewrite from_le_app, El. cbn [from_le_bytes].
  change (256 ^ Z.of_nat 31)%Z with (2 ^ 248)%Z. lia.
Qed.

Lemma compress_spec p Q : prep p Q -> compress p = encode Q.
Proof.
  intros (C & X & Y & Z & T & RX & RY & RZ & RT & (N & EX & EY & ET)). unfold compress, encode.
  assert (Rx : rep (mul (px p) (invert (pz p))) (fst Q)).
  { replace (fst Q) with (X * finv Z) by (rewrite EX; by field). apply rep_mul; [assumption|by apply rep_invert]. }
  assert (Ry : rep (mul (py p) (invert (pz p))) (snd Q)).
  { replace (snd Q) with (Y * finv Z) by (rewrite EY; by field). apply rep_mul; [assumption|by apply rep_invert]. }
  rewrite (rep_is_negative _ _ Rx), (rep_bytes _ _ Ry). pose proof (ofF_range (snd Q)).
  destruct (Z.odd (ofF (fst Q))).
  - apply set_sign_spec. unfold P in *. lia.
  - by rewrite Z.mul_0_r, Z.add_0_r.
Qed.

(** An encoded point decodes to itself. *)
Lemma encode_decodes Q : curve Q -> decodes (encode Q) Q.
Proof.
  intros C. pose proof (ofF_range (snd Q)) as B. unfold decodes, enc_y, enc_sign, encode.
  set (s := if Z.odd (ofF (fst Q)) then 1%Z else 0%Z).
  assert (Hs : (0 <= s <= 1)%Z) by (unfold s; destruct (Z.odd _); lia).
  rewrite from_le_to_le_small by (change (256 ^ Z.of_nat 32)%Z with (2 ^ 256)%Z; unfold P in *; lia).
  split; [assumption|]. rewrite Z.mul_comm, Z.mod_add, Z.div_add, Z.div_small, Z.mod_small by (unfold P in *; lia).
  split; [by rewrite toF_ofF|]. unfold s. by destruct (Z.odd _).
Qed.

(** ** The base point *)

Definition BX : Z := 15112221349535400772501151409588531511454012693041857206046113283949847762202.
Definition BY : Z := 46316835694926478169428394003475163141307993866256225615783033603165251855960.
Definition B : Fp * Fp := (toF BX, toF BY).

Lemma B_curve : curve B.
Proof.
  unfold on_curve, B, fd. rewrite <- toF_1, <- !toF_mul, <- toF_sub, <- toF_add. apply toF_decide. by vm_compute.
Qed.

(** [BY] is 4/5. *)
Lemma B_four_fifths : toF 4 * finv (toF 5) = toF BY.
Proof.
  assert (N : toF 5 <> 0) by (rewrite <- toF_0, toF_eq, cong_iff; num).
  assert (E : toF 5 * toF BY = toF 4) by (rewrite <- toF_mul; apply toF_decide; by vm_compute).
  rewrite <- E. by field.
Qed.

Lemma encode_B : encode B = to_le_bytes 32 BY.
Proof. unfold encode, B. cbn [fst snd]. rewrite !ofF_toF. by f_equal. Qed.

Lemma basepoint_spec : exists p, basepoint = Some p /\ prep p B.
Proof.
  unfold basepoint. assert (Ry : rep (mul (from_u64 4) (invert (from_u64 5))) (toF BY)).
  { rewrite <- B_four_fifths. apply rep_mul; [apply rep_from_u64; by split|]. apply rep_invert, rep_from_u64. by split. }
  rewrite (rep_bytes _ _ Ry), ofF_toF. change (BY mod P)%Z with BY.
  pose proof (decompress_spec (to_le_bytes 32 BY) (to_le_bytes_ok _ _) (length_to_le_bytes _ _)) as H.
  assert (HB : decodes (to_le_bytes 32 BY) B).
  { rewrite <- encode_B. apply encode_decodes, B_curve. }
  destruct (decompress _) as [p|].
  - destruct H as (Q & HQ & Hp). exists p. split; [done|]. by rewrite (decodes_unique _ _ _ HB HQ).
  - exfalso. exact (H _ HB).
Qed.

(** ** The order of the base point

    The multiple [L] of the base point, evaluated on integers that are
    reduced only by folding at bit 255. *)

Definition fold255 (x : Z) : Z := (Z.land x (2 ^ 255 - 1) + 19 * Z.shiftr x 255)%Z.

Lemma fold255_spec x : toF (fold255 x) = toF x.
Proof.
  apply toF_eq. unfold fold255. change (2 ^ 255 - 1)%Z with (Z.ones 255).
  rewrite Z.land_ones, Z.shiftr_div_pow2 by done. exists (- (x / 2 ^ 255))%Z.
  pose proof (Z.div_mod x (2 ^ 255) ltac:(done)). unfold P. lia.
Qed.

Definition zmul (a b : Z) : Z := fold255 (fold255 (a * b)).
Lemma zmul_spec a b : toF (zmul a b) = toF a * toF b.
Proof. unfold zmul. by rewrite !fold255_spec, toF_mul. Qed.

Definition zpoint : Type := Z * Z * Z * Z.

Definition zadd (p q : zpoint) : zpoint :=
  let '(x1, y1, z1, t1) := p in let '(x2, y2, z2, t2) := q in
  let a := zmul (y1 - x1) (y2 - x2) in
  let b := zmul (y1 + x1) (y2 + x2) in
  let c := zmul (zmul (t1 + t1) t2) D_CONST in
  let dd := zmul (z1 + z1) z2 in
  let e := (b - a)%Z in let f := (dd - c)%Z in let g := (dd + c)%Z in let h := (b + a)%Z in
  (zmul e f, zmul g h, zmul f g, zmul e h).

Fixpoint ztimes (n : positive) (p : zpoint) : zpoint :=
  match n with
  | xH => p
  | xO n => let q := ztimes n p in zadd q q
  | xI n => let q := ztimes n p in zadd (zadd q q) p
  end.

Definition zrep (p : zpoint) (Q : Fp * Fp) : Prop :=
  curve Q /\ let '(x, y, z, t) := p in extends Fp (toF x) (toF y) (toF z) (toF t) Q.

Lemma zrep_add p q Q R : zrep p Q -> zrep q R -> zrep (zadd p q) (Q ⊕ R).
Proof.
  destruct p as [[[x1 y1] z1] t1], q as [[[x2 y2] z2] t2]. intros [C1 E1] [C2 E2]. split; [by apply sum_curve|].
  pose proof (extended_add Fp fd fi fi_square fd_nonsquare f_two_nz _ _ _ _ _ _ _ _ Q R C1 C2 E1 E2) as E. cbv zeta in E.
  cbn [zadd]. rewrite !zmul_spec, !toF_sub, !toF_add, !zmul_spec, !toF_sub, !toF_add. exact E.
Qed.

Lemma zrep_times n p Q : zrep p Q -> zrep (ztimes n p) (times (Zpos n) Q).
Proof.
  intros HQ. pose proof (proj1 HQ) as C.
  assert (Dbl : forall m, emul Fp fd (Zpos m~0) Q = emul Fp fd (Zpos m) Q ⊕ emul Fp fd (Zpos m) Q).
  { intros m. rewrite <- (emul_add Fp fd fi fi_square fd_nonsquare f_two_nz) by (assumption || lia). f_equal. lia. }
  induction n as [n IH|n IH|]; cbn [ztimes].
  - replace (Zpos n~1) with (Zpos n~0 + 1)%Z by lia.
    rewrite (emul_add Fp fd fi fi_square fd_nonsquare f_two_nz) by (assumption || lia). rewrite emul_1, Dbl.
    by apply zrep_add; [apply zrep_add|].
  - rewrite Dbl. by apply zrep_add.
  - by rewrite emul_1.
Qed.

Lemma B_order : times L B = ezero Fp.
Proof.
  assert (HB : zrep (BX, BY, 1, zmul BX BY)%Z B).
  { split; [exact B_curve|]. rewrite zmul_spec, toF_1. split; [apply f_one_nz|]. unfold B. cbn [fst snd]. repeat split; ring. }
  change L with (Zpos (Z.to_pos L)). pose proof (zrep_times (Z.to_pos L) _ _ HB) as [_ H].
  set (Q := times _ B) in *. clearbody Q.
  assert (E : match ztimes (Z.to_pos L) (BX, BY, 1, zmul BX BY)%Z with
              | (x, y, z, _) => (x mod P =? 0) && (y mod P =? z mod P) end%Z = true) by (vm_compute; reflexivity).
  destruct (ztimes _ _) as [[[x y] z] t]. apply andb_true_iff in E as [Ex%Z.eqb_eq Ey%Z.eqb_eq].
  destruct H as (N & Hx & Hy & _). destruct Q as [qx qy]. cbn [fst snd] in *. unfold ezero. f_equal.
  - assert (Hz : toF x = 0) by (rewrite <- toF_0; by apply toF_eq, cong_iff). rewrite Hz in Hx.
    symmetry in Hx. by apply f_integral in Hx as [|].
  - assert (Hz : toF y = toF z) by (by apply toF_eq, cong_iff). rewrite Hz in Hy.
    apply (f_cancel Fp (toF z) _ _ N). transitivity (qy * toF z); [ring|]. rewrite <- Hy. ring.
Qed.

(** One step of a sequence that has a value. *)
Lemma bind_value {A B} (f : A -> option B) o x : o = Some x -> (o ≫= f) = f x.
Proof. by intros ->. Qed.

(** ** Scalars from hashes *)

Definition hash_scalar (msg : list Z) : Z := (from_le_bytes (Sha512.reference msg) mod L)%Z.

Lemma hash_scalar_range msg : (0 <= hash_scalar msg < L)%Z.
Proof. apply Z.mod_pos_bound. done. Qed.

Lemma scalar_bytes s : (0 <= s < L)%Z -> from_le_bytes (to_le_bytes 32 s) = s.
Proof. intros Hs. apply from_le_to_le_small. change (256 ^ Z.of_nat 32)%Z with (2 ^ 256)%Z. unfold L in Hs. lia. Qed.

Lemma hash_mod_l_spec pieces : hash_mod_l pieces = Some (to_le_bytes 32 (hash_scalar (concat pieces))).
Proof.
  unfold hash_mod_l. rewrite Sha512.sha512_finalize_updates. cbn [mbind option_bind]. f_equal. apply mod_l_spec.
  rewrite <- Sha512.sha512_reference. apply Sha512.sha512_digest_ok.
Qed.

Lemma scalar_mul_base_spec s :
  bytes_ok s -> exists p, scalar_mul_base s = Some p /\ prep p (times (from_le_bytes s) B).
Proof.
  intros Hs. destruct basepoint_spec as (b & E & Hb). unfold scalar_mul_base. rewrite E. cbn [fmap option_fmap option_map].
  eexists. split; [reflexivity|]. by apply prep_scalar_mul.
Qed.

(** ** Verification *)

(** The equation of RFC 8032, without cofactor. *)
Definition valid_signature (public msg sig : list Z) : Prop :=
  exists R A, decodes (slice 0 32 sig) R /\ decodes public A /\
    (from_le_bytes (slice 32 32 sig) < L)%Z /\
    times (from_le_bytes (slice 32 32 sig)) B = R ⊕ times (hash_scalar (slice 0 32 sig ++ public ++ msg)) A.

(** What makes the parts of a signature unusable. *)
Definition malformed (public sig : list Z) : Prop :=
  (L <= from_le_bytes (slice 32 32 sig))%Z \/ (forall R, ~ decodes (slice 0 32 sig) R) \/ (forall A, ~ decodes public A).

Lemma verify_cases public msg sig :
  bytes_ok public -> length public = 32%nat -> bytes_ok sig -> length sig = 64%nat ->
  (verify public msg sig = Some (Ok tt) /\ valid_signature public msg sig /\ ~ malformed public sig) \/
  (verify public msg sig = Some (Err Malformed) /\ ~ valid_signature public msg sig /\ malformed public sig) \/
  (verify public msg sig = Some (Err Invalid) /\ ~ valid_signature public msg sig /\ ~ malformed public sig).
Proof.
  intros Hp Lp Hs Ls. unfold verify, valid_signature, malformed. set (rb := slice 0 32 sig). set (sb := slice 32 32 sig).
  assert (Hrb : bytes_ok rb) by by apply Forall_take, Forall_drop.
  assert (Hsb : bytes_ok sb) by by apply Forall_take, Forall_drop.
  assert (Lrb : length rb = 32%nat) by (apply length_slice; lia).
  assert (Lsb : length sb = 32%nat) by (apply length_slice; lia). clearbody rb sb.
  rewrite bytes_geq_l_spec by assumption. destruct (Z.leb_spec L (from_le_bytes sb)) as [HL|HL].
  { right; left. split; [reflexivity|]. split; [|by left]. intros (R & A & _ & _ & HL' & _). lia. }
  pose proof (decompress_spec rb Hrb Lrb) as HR. destruct (decompress rb) as [br|].
  2:{ right; left. split; [reflexivity|]. split; [|by right; left]. intros (R & A & HR' & _). by apply (HR R). }
  pose proof (decompress_spec public Hp Lp) as HA. destruct (decompress public) as [ap|].
  2:{ right; left. split; [reflexivity|]. split; [|by right; right]. intros (R & A & _ & HA' & _). by apply (HA A). }
  destruct HR as (R & HR & PR), HA as (A & HA & PA).
  pose proof (hash_mod_l_spec [rb; public; msg]) as Hk. cbn [concat] in Hk. rewrite app_nil_r in Hk.
  rewrite (bind_value _ _ _ Hk). destruct (scalar_mul_base_spec sb Hsb) as (lhs & El & PL). rewrite (bind_value _ _ _ El).
  set (k := hash_scalar (rb ++ public ++ msg)) in *.
  pose proof (prep_scalar_mul (to_le_bytes 32 k) ap A (to_le_bytes_ok _ _) PA) as PK.
  rewrite scalar_bytes in PK by apply hash_scalar_range.
  pose proof (prep_eq _ _ _ _ PL (prep_add _ _ _ _ PR PK)) as Heq.
  assert (Nm : ~ ((L <= from_le_bytes sb)%Z \/ (forall R, ~ decodes rb R) \/ (forall A, ~ decodes public A))).
  { intros [H|[H|H]]; [lia|by apply (H R)|by apply (H A)]. }
  destruct (point_eq _ _).
  - left. split; [reflexivity|]. split; [|exact Nm]. exists R, A. do 3 (split; [assumption|]). by apply Heq.
  - right; right. split; [reflexivity|]. split; [|exact Nm]. intros (R' & A' & HR' & HA' & _ & E).
    rewrite (decodes_unique _ _ _ HR' HR), (decodes_unique _ _ _ HA' HA) in E. apply Heq in E. discriminate E.
Qed.


(** ** Signing *)

Lemma clamp_ok a : bytes_ok a -> bytes_ok (clamp a).
Proof.
  assert (F : forall f, forallb (fun x => (0 <=? f x) && (f x <? 256))%Z (seqZ 0 256) = true -> forall x, is_byte x -> is_byte (f x)).
  { intros f Hf x Hx. rewrite forallb_forall in Hf. specialize (Hf x). red in Hx |- *.
    rewrite <- list_elem_of_In, elem_of_seqZ in Hf. specialize (Hf ltac:(lia)). lia. }
  intros Ha. unfold clamp.
  apply Forall_alter; [apply Forall_alter; [assumption|]|]; intros x _.
  - apply (F (fun b => Z.land b 248)). by vm_compute.
  - apply (F (fun b => Z.lor (Z.land b 127) 64)). by vm_compute.
Qed.

Lemma expand_seed_ok seed :
  let '(a, prefix) := expand_seed seed in bytes_ok a /\ length a = 32%nat.
Proof.
  destruct (Sha512.sha512_digest_ok seed) as [Hl Ho]. unfold expand_seed.
  split; [by apply clamp_ok, Forall_take, Forall_drop|]. unfold clamp. rewrite !length_alter. apply length_slice.
  rewrite Hl. unfold Sha512.DIGEST_LEN. lia.
Qed.

(** What [sign] and [public_from_seed] compute. *)
Lemma sign_spec seed msg :
  exists a r, (0 <= a)%Z /\ (0 <= r < L)%Z /\
    let A := times a B in let R := times r B in
    let k := hash_scalar (encode R ++ encode A ++ msg) in
    public_from_seed seed = Some (encode A) /\
    sign seed msg = Some (encode R ++ to_le_bytes 32 ((k * a + r) mod L)).
Proof.
  pose proof (expand_seed_ok seed) as H. unfold sign, public_from_seed. destruct (expand_seed seed) as [ab prefix].
  destruct H as [Hab Lab]. set (a := from_le_bytes ab). set (r := hash_scalar (prefix ++ msg)).
  exists a, r. split; [by apply from_le_bound|]. split; [apply hash_scalar_range|]. cbv zeta.
  destruct (scalar_mul_base_spec ab Hab) as (pa & Ea & PA). pose proof (compress_spec _ _ PA) as Ca. fold a in Ca.
  split; [etransitivity; [exact (bind_value _ _ _ Ea)|]; by rewrite Ca|].
  etransitivity; [exact (bind_value _ _ _ Ea)|]. cbv beta zeta. rewrite Ca.
  pose proof (hash_mod_l_spec [prefix; msg]) as Hr. cbn [concat] in Hr. rewrite app_nil_r in Hr. fold r in Hr.
  etransitivity; [exact (bind_value _ _ _ Hr)|]. cbv beta zeta.
  destruct (scalar_mul_base_spec (to_le_bytes 32 r) (to_le_bytes_ok _ _)) as (pr & Er & PR).
  rewrite scalar_bytes in PR by apply hash_scalar_range. pose proof (compress_spec _ _ PR) as Cr.
  etransitivity; [exact (bind_value _ _ _ Er)|]. cbv beta zeta. rewrite Cr.
  pose proof (hash_mod_l_spec [encode (times r B); encode (times a B); msg]) as Hk. cbn [concat] in Hk. rewrite app_nil_r in Hk.
  etransitivity; [exact (bind_value _ _ _ Hk)|]. cbv beta zeta. do 2 f_equal.
  rewrite mul_add_mod_l_spec; [|apply to_le_bytes_ok|assumption|apply to_le_bytes_ok|apply length_to_le_bytes|assumption|apply length_to_le_bytes].
  by rewrite !scalar_bytes by apply hash_scalar_range.
Qed.

(** The equation holds for what [sign] produces. *)
Lemma signed_equation a r k :
  (0 <= a)%Z -> (0 <= r)%Z -> (0 <= k)%Z -> times ((k * a + r) mod L) B = times r B ⊕ times k (times a B).
Proof.
  intros Ha Hr Hk. pose proof B_order as Ho.
  rewrite (emul_mod Fp fd fi fi_square fd_nonsquare f_two_nz L (k * a + r)%Z B ltac:(by vm_compute) ltac:(nia) B_curve Ho).
  rewrite Z.add_comm, (emul_add Fp fd fi fi_square fd_nonsquare f_two_nz r (k * a)%Z B Hr ltac:(nia) B_curve).
  rewrite (emul_mul Fp fd fi fi_square fd_nonsquare f_two_nz k a B Hk Ha B_curve). reflexivity.
Qed.

Lemma sign_verifies seed msg :
  exists public sig, public_from_seed seed = Some public /\ sign seed msg = Some sig /\ length sig = 64%nat /\
    verify public msg sig = Some (Ok tt).
Proof.
  destruct (sign_spec seed msg) as (a & r & Ha & Hr & Hp & Hs). cbv zeta in *.
  set (A := times a B) in *. set (R := times r B) in *. set (k := hash_scalar (encode R ++ encode A ++ msg)) in *.
  set (s := ((k * a + r) mod L)%Z) in *. assert (Bs : (0 <= s < L)%Z) by (apply Z.mod_pos_bound; done).
  pose proof (hash_scalar_range (encode R ++ encode A ++ msg)) as Bk. fold k in Bk.
  set (sig := encode R ++ to_le_bytes 32 s) in *. exists (encode A), sig. split; [exact Hp|]. split; [exact Hs|].
  assert (Ls : length sig = 64%nat) by (unfold sig; by rewrite length_app, length_encode, length_to_le_bytes).
  split; [exact Ls|].
  assert (Er : slice 0 32 sig = encode R).
  { unfold slice, sig. rewrite drop_0. rewrite take_app_length' by (by rewrite length_encode). reflexivity. }
  assert (Es : slice 32 32 sig = to_le_bytes 32 s).
  { unfold slice, sig. rewrite drop_app_length' by (by rewrite length_encode). apply take_ge. by rewrite length_to_le_bytes. }
  assert (CA : curve A) by exact (times_curve a B B_curve). assert (CR : curve R) by exact (times_curve r B B_curve).
  assert (V : valid_signature (encode A) msg sig).
  { exists R, A. rewrite Er, Es, scalar_bytes by exact Bs. split; [exact (encode_decodes R CR)|]. split; [exact (encode_decodes A CA)|].
    split; [lia|]. fold k. exact (signed_equation a r k Ha ltac:(lia) ltac:(lia)). }
  assert (Hsig : bytes_ok sig) by (apply Forall_app; split; [apply encode_ok|apply to_le_bytes_ok]).
  destruct (verify_cases (encode A) msg sig (encode_ok A) (length_encode A) Hsig Ls) as [(E & _)|[(_ & N & _)|(_ & N & _)]];
    [exact E|by destruct N..].
Qed.
