(* ===== verification/Ed25519Theorems.v ===== *)
(** * Theorems of Ed25519

    The limb arithmetic is exact, the encoding loop ends, scalars reduce
    correctly, verification is the group equation, and every signature that
    [sign] makes verifies. *)

From S2P Require Import Prelude RustStd HashStream Sha256 Sha512 Ed25519 Limbs Ed25519Field Edwards Ed25519Curve Ed25519Scalar Ed25519Sign.

(** C6. Signing then verifying: for any seed and message [public_from_seed] and
    [sign] return, the signature has 64 bytes, and [verify] accepts it under
    that public key. *)
Theorem ed25519_sign_verifies seed msg :
  exists public sig, Ed25519.public_from_seed seed = Some public /\ Ed25519.sign seed msg = Some sig /\
    length sig = 64%nat /\ Ed25519.verify public msg sig = Some (Ok tt).
Proof. apply sign_verifies. Qed.

(** C7. Verification decides the equation [S]B = R + [k]A of the group of
    curve points: on any 32-byte key and 64-byte signature it returns (the base
    point exists, no loop runs on), it accepts exactly when both encodings
    denote points, S is below the group order and the equation holds, and it
    says malformed exactly when an encoding denotes no point or S is not below
    the order. *)
Theorem ed25519_verify_decides public msg sig :
  bytes_ok public -> length public = 32%nat -> bytes_ok sig -> length sig = 64%nat ->
  exists r, Ed25519.verify public msg sig = Some r /\
    (r = Ok tt <-> valid_signature public msg sig) /\
    (r = Err Ed25519.Malformed <-> malformed public sig).
Proof.
  intros Hp Lp Hs Ls.
  destruct (verify_cases public msg sig Hp Lp Hs Ls) as [(E & V & M)|[(E & V & M)|(E & V & M)]];
    eexists; (split; [exact E|]); intuition discriminate.
Qed.

Lemma ed25519_verify_decides_witness :
  length (replicate 64 0) = 64%nat /\
  exists r, Ed25519.verify (replicate 32 1) [7] (replicate 64 0) = Some r /\
    (r = Ok tt <-> valid_signature (replicate 32 1) [7] (replicate 64 0)) /\
    (r = Err Ed25519.Malformed <-> malformed (replicate 32 1) (replicate 64 0)).
Proof.
  split; [reflexivity|].
  apply (ed25519_verify_decides (replicate 32 1) [7] (replicate 64 0));
    [apply Forall_replicate; red; lia|reflexivity|apply Forall_replicate; red; lia|reflexivity].
Defined.

(** C8. The field arithmetic never overflows: on limbs below 2^52, the values
    every routine is given, sums, differences and products have limbs below
    2^52 again and stand for the sum, difference and product modulo
    2^255 - 19; no 64-bit or 128-bit operation on the way loses a bit. *)
Theorem field_arithmetic_exact a b :
  fe_ok a -> fe_ok b ->
  (fe_ok (Ed25519.add a b) /\ fval (Ed25519.add a b) mod P = (fval a + fval b) mod P) /\
  (fe_ok (Ed25519.sub a b) /\ fval (Ed25519.sub a b) mod P = (fval a - fval b) mod P) /\
  (fe_ok (Ed25519.mul a b) /\ fval (Ed25519.mul a b) mod P = (fval a * fval b) mod P).
Proof.
  intros Ha Hb. destruct (add_spec a b Ha Hb) as [E1 O1], (sub_spec a b Ha Hb) as [E2 O2], (mul_spec a b Ha Hb) as [E3 O3].
  repeat split; try (by apply cong_iff); assumption || apply O1 || apply O2 || apply O3.
Qed.

Definition top_limbs : Ed25519.Fe := Ed25519.mkFe (2 ^ 52 - 1) (2 ^ 52 - 1) (2 ^ 52 - 1) (2 ^ 52 - 1) (2 ^ 52 - 1).

Lemma field_arithmetic_exact_witness :
  fe_ok top_limbs /\ fval (Ed25519.mul top_limbs top_limbs) mod P = (fval top_limbs * fval top_limbs) mod P.
Proof.
  assert (H : fe_ok top_limbs) by (unfold fe_ok, below, top_limbs; cbn; lia).
  split; [exact H|]. exact (proj2 (proj2 (proj2 (field_arithmetic_exact top_limbs top_limbs H H)))).
Defined.

(** The carry loop of [to_bytes] ends on any five 64-bit words, after at
    most two passes, with every limb within 51 bits; on the values of the field
    arithmetic the bytes are the canonical encoding of the residue. *)
Theorem to_bytes_terminates a :
  below (2 ^ 64) a ->
  (exists l, Ed25519.fold_carries 2 a = Some l /\ below (2 ^ 51) l) /\
  (below (2 ^ 62) a -> Ed25519.to_bytes a = to_le_bytes 32 (fval a mod P)).
Proof. intros Ha. split; [by apply fold_carries_ends|apply to_bytes_spec]. Qed.

Definition full_words : Ed25519.Fe := Ed25519.mkFe u64_max u64_max u64_max u64_max u64_max.

Lemma to_bytes_terminates_witness :
  Ed25519.fold_carries 0 full_words = None /\ Ed25519.fold_carries 1 full_words = None /\
  exists l, Ed25519.fold_carries 2 full_words = Some l /\ below (2 ^ 51) l.
Proof.
  split; [reflexivity|]. split; [reflexivity|].
  apply (to_bytes_terminates full_words). unfold below, full_words, u64_max. cbn. lia.
Defined.

(** Scalar arithmetic: reduction of an integer of any length and the
    multiply-add of signing are exact modulo the group order, canonical in 32
    bytes, and the range check compares with the order. *)
Theorem scalar_arithmetic_exact input a b c :
  bytes_ok input -> bytes_ok a -> bytes_ok b -> bytes_ok c ->
  length a = 32%nat -> length b = 32%nat -> length c = 32%nat ->
  Ed25519.mod_l input = to_le_bytes 32 (from_le_bytes input mod L) /\
  Ed25519.mul_add_mod_l a b c = to_le_bytes 32 ((from_le_bytes a * from_le_bytes b + from_le_bytes c) mod L) /\
  Ed25519.bytes_geq_l a = (L <=? from_le_bytes a).
Proof.
  intros. split; [by apply mod_l_spec|]. split; [by apply mul_add_mod_l_spec|by apply bytes_geq_l_spec].
Qed.

Lemma scalar_arithmetic_exact_witness :
  Ed25519.mod_l (replicate 64 255) = to_le_bytes 32 (from_le_bytes (replicate 64 255) mod L) /\
  Ed25519.mul_add_mod_l (replicate 32 255) (replicate 32 255) (replicate 32 255) =
    to_le_bytes 32 ((from_le_bytes (replicate 32 255) * from_le_bytes (replicate 32 255) + from_le_bytes (replicate 32 255)) mod L).
Proof.
  assert (H : forall n, bytes_ok (replicate n 255)) by (intros; apply Forall_replicate; red; lia).
  destruct (scalar_arithmetic_exact (replicate 64 255) (replicate 32 255) (replicate 32 255) (replicate 32 255)
    (H _) (H _) (H _) (H _) eq_refl eq_refl eq_refl) as (E1 & E2 & _).
  exact (conj E1 E2).
Defined.

(** The y coordinate is not required to be below [P]: the encoding of [P + 1]
    denotes the neutral point, as the encoding of 1 does. *)
Lemma noncanonical_accepted :
  decodes (to_le_bytes 32 (P + 1)) (ezero Fp) /\ decodes (to_le_bytes 32 1) (ezero Fp) /\
  Ed25519.decompress (to_le_bytes 32 (P + 1)) <> None.
Proof.
  assert (H : forall v, 0 <= v < 2 ^ 255 -> toF v = f1 -> decodes (to_le_bytes 32 v) (ezero Fp)).
  { intros v Hv E. split; [apply ezero_on_curve|]. unfold enc_y, enc_sign.
    rewrite from_le_to_le_small by (change (256 ^ Z.of_nat 32) with (2 ^ 256); lia).
    rewrite Z.mod_small, Z.div_small by lia. unfold ezero. cbn [fst snd]. rewrite E.
    split; [reflexivity|]. by rewrite (proj2 (ofF_0_iff f0) eq_refl). }
  assert (HP : decodes (to_le_bytes 32 (P + 1)) (ezero Fp)).
  { apply H; [unfold P; lia|]. rewrite <- toF_1. apply toF_eq, cong_iff. by vm_compute. }
  split; [exact HP|]. split; [apply H; [lia|apply toF_1]|]. intros E.
  pose proof (decompress_spec (to_le_bytes 32 (P + 1)) (to_le_bytes_ok _ _) (length_to_le_bytes _ _)) as D.
  rewrite E in D. exact (D _ HP).
Qed.
