(* ===== verification/Prog.v ===== *)
(** * Programs over a state, with panics

    The services are imperative: they read and write a state and may panic.
    [prog S A] is such a program; [None] is the panic.  [wp m Q s] says that [m]
    started in [s] returns, with a result and a state satisfying [Q]: it is a
    total-correctness weakest precondition, so every theorem stated with it
    includes the absence of panics.  The service models are written with
    stdpp's monad notation over the instances below. *)

From S2P Require Import Prelude.

Definition prog (S A : Type) : Type := S -> option (A * S).

#[global] Instance prog_ret S : MRet (prog S) := fun A a s => Some (a, s).
#[global] Instance prog_bind S : MBind (prog S) := fun A B f m s => match m s with Some (a, s') => f a s' | None => None end.

Section prog.
Context {S : Type}.

Definition panic {A} : prog S A := fun _ => None.
Definition gets {A} (f : S -> A) : prog S A := fun s => Some (f s, s).
Definition modify (f : S -> S) : prog S () := fun s => Some ((), f s).

(** A value the source indexes or unwraps. *)
Definition expect {A} (o : option A) : prog S A := fun s => match o with Some a => Some (a, s) | None => None end.

Definition wp {A} (m : prog S A) (Q : A -> S -> Prop) (s : S) : Prop :=
  match m s with Some (a, s') => Q a s' | None => False end.

Lemma wp_ret {A} (a : A) Q s : Q a s -> wp (mret a) Q s.
Proof. done. Qed.

Lemma wp_bind {A B} (m : prog S A) (f : A -> prog S B) Q s :
  wp m (fun a s' => wp (f a) Q s') s -> wp (m ≫= f) Q s.
Proof. unfold wp, mbind, prog_bind. by destruct (m s) as [[a s']|]. Qed.

Lemma wp_mono {A} (m : prog S A) (Q R : A -> S -> Prop) s : wp m Q s -> (forall a s', Q a s' -> R a s') -> wp m R s.
Proof. unfold wp. destruct (m s) as [[a s']|]; naive_solver. Qed.

Lemma wp_and {A} (m : prog S A) (Q R : A -> S -> Prop) s : wp m Q s -> wp m R s -> wp m (fun a s' => Q a s' /\ R a s') s.
Proof. unfold wp. destruct (m s) as [[a s']|]; naive_solver. Qed.

Lemma wp_gets {A} (f : S -> A) Q s : Q (f s) s -> wp (gets f) Q s.
Proof. done. Qed.

Lemma wp_modify f Q s : Q () (f s) -> wp (modify f) Q s.
Proof. done. Qed.

Lemma wp_expect {A} (o : option A) a Q s : o = Some a -> Q a s -> wp (expect o) Q s.
Proof. by intros ->. Qed.

(** What a run shows. *)
Lemma wp_run {A} (m : prog S A) Q s : wp m Q s <-> exists a s', m s = Some (a, s') /\ Q a s'.
Proof.
  unfold wp. destruct (m s) as [[a s']|]; [|naive_solver]. split; [eauto|]. intros (? & ? & [= <- <-] & H). done.
Qed.

Lemma run_wp {A} (m : prog S A) (Q : A -> S -> Prop) s a s' : wp m Q s -> m s = Some (a, s') -> Q a s'.
Proof. unfold wp. intros H E. by rewrite E in H. Qed.

End prog.

Arguments wp {S A} m Q s : simpl never.

(** Run a program of a component inside a larger state. *)
Definition zoom {S T A} (get : T -> S) (put : S -> T -> T) (m : prog S A) : prog T A := fun t =>
  match m (get t) with Some (a, s') => Some (a, put s' t) | None => None end.

Lemma wp_zoom {S T A} (get : T -> S) (put : S -> T -> T) (m : prog S A) Q t :
  wp m (fun a s' => Q a (put s' t)) (get t) -> wp (zoom get put m) Q t.
Proof. unfold wp, zoom. by destruct (m (get t)) as [[a s']|]. Qed.

(** One step of symbolic execution through the sequencing forms. *)
Ltac wp_step :=
  first [ apply wp_bind | apply wp_ret | apply wp_gets | apply wp_modify ]; cbv beta.
Ltac wp_steps := repeat wp_step.
