(* ===== verification/Userlib.v ===== *)
(** * The user library (userlib/src/lib.rs)

    The IPC payload codecs, the system-call wrappers with their decoding of the
    result registers, the chunked console printer and the bump allocator.

    A process sees the kernel through one instruction, [raw_full]: it is the
    class [Abi], a function of the call number and the six argument registers.
    A register holding a pointer is [In bs] (the bytes the kernel may read
    there) or [Out bs] (a buffer the kernel may write); the call returns the
    result registers and the contents of the [Out] buffer afterwards. *)

From S2P Require Import Prelude RustStd Prog.

(** [sys::Ret]: the registers after the trap. *)
Record Ret := mkRet { rax : Z; ra0 : Z; ra1 : Z; ra2 : Z; ra3 : Z; ra4 : Z; ra5 : Z }.

Inductive Arg := Word (z : Z) | In (bs : list Z) | Out (bs : list Z).

Class Abi (W : Type) := raw_full : Z -> list Arg -> W -> Ret * list Z * W.

Module Sys.
Definition SYS_YIELD : Z := 1.
Definition SYS_EXIT : Z := 2.
Definition SYS_DEBUG_WRITE : Z := 3.
Definition SYS_IPC_CALL : Z := 4.
Definition SYS_IPC_RECV : Z := 5.
Definition SYS_IPC_REPLY : Z := 6.
Definition SYS_CAP_DERIVE : Z := 7.
Definition SYS_TASK_SPAWN : Z := 8.
Definition SYS_WAIT : Z := 9.
Definition SYS_INPUT_READ : Z := 10.
Definition SYS_TICKS : Z := 11.
Definition SYS_SET_NAME : Z := 12.
Definition SYS_STATS : Z := 13.
Definition SYS_REBOOT : Z := 14.
Definition SYS_SLEEP : Z := 15.
Definition SYS_KILL : Z := 16.
Definition SYS_BLOCK_READ : Z := 17.
Definition SYS_BLOCK_WRITE : Z := 18.
End Sys.

Definition R_READ : Z := Z.shiftl 1 0.
Definition R_WRITE : Z := Z.shiftl 1 1.
Definition R_GRANT : Z := Z.shiftl 1 2.

(** [msg]: five words carry up to 40 bytes, trimmed at the first NUL. *)
Module msg.
Definition pack (bytes : list Z) : list Z :=
  splice 0 ((fun chunk => from_le_bytes (splice 0 chunk (replicate 8 0))) <$> take 5 (chunks 8 bytes)) (replicate 5 0).

Fixpoint unpack (words : list Z) : list Z :=
  match words with
  | [] => []
  | w :: words =>
      let b := to_le_bytes 8 w in
      let last := default 8%nat (position (fun c => c =? 0) b) in
      take last b ++ if (last <? 8)%nat then [] else unpack words
  end.
End msg.

(** [raw]: the binary-safe codec. *)
Module raw.
Definition pack (bytes : list Z) : list Z :=
  let n := Nat.min (length bytes) 40 in
  let tmp := splice 0 (take n bytes) (replicate 40 0) in
  (fun i => from_le_bytes (slice (i * 8) 8 tmp)) <$> seq 0 5.

Definition unpack_word (words : list Z) (out : list Z) (i : nat) : list Z :=
  splice (i * 8) (to_le_bytes 8 (nth i words 0)) out.

Definition unpack_all (words out : list Z) : list Z :=
  let n := Nat.min (length out) 40 in
  let out := foldl (unpack_word words) out (seq 0 (n / 8)) in
  let rem := (n mod 8)%nat in
  if (0 <? rem)%nat then splice (n / 8 * 8) (take rem (to_le_bytes 8 (nth (n / 8) words 0))) out else out.
End raw.

Module Userlib.
Section calls.
Context {W : Type} `{Abi W}.

Definition trap (n : Z) (args : list Arg) : prog W (Ret * list Z) := fun w => Some (raw_full n args w).

(** [Ok] of some registers when the status is 0, [Err] of the status otherwise. *)
Definition decode {A} (f : Ret -> A) (r : Ret) : result A Z := if rax r =? 0 then Ok (f r) else Err (rax r).

Definition debug_write (b : list Z) : prog W Z :=
  '(r, _) ← trap Sys.SYS_DEBUG_WRITE [In b; Word (Z.of_nat (length b)); Word 0; Word 0; Word 0; Word 0];
  mret (rax r).

Definition debug_write_raw (b : list Z) : prog W Z :=
  '(r, _) ← trap Sys.SYS_DEBUG_WRITE [In b; Word (Z.of_nat (length b)); Word 1; Word 0; Word 0; Word 0];
  mret (rax r).

Definition yield_now : prog W () :=
  _ ← trap Sys.SYS_YIELD [Word 0; Word 0; Word 0; Word 0; Word 0; Word 0]; mret ().

(** [exit] spins if the kernel ever resumes it; its callers end there. *)
Definition exit (code : Z) : prog W () :=
  _ ← trap Sys.SYS_EXIT [Word code; Word 0; Word 0; Word 0; Word 0; Word 0]; mret ().

(** [reboot] repeats the call for ever; its callers end there. *)
Definition reboot : prog W () :=
  _ ← trap Sys.SYS_REBOOT [Word 0; Word 0; Word 0; Word 0; Word 0; Word 0]; mret ().

Definition call (ep : Z) (w : list Z) : prog W (result (list Z) Z) :=
  '(r, _) ← trap Sys.SYS_IPC_CALL [Word ep; Word (nth 0 w 0); Word (nth 1 w 0); Word (nth 2 w 0); Word (nth 3 w 0); Word (nth 4 w 0)];
  mret (decode (fun r => [ra0 r; ra1 r; ra2 r; ra3 r; ra4 r]) r).

Definition recv_until (ep deadline : Z) : prog W (result (Z * list Z) Z) :=
  '(r, _) ← trap Sys.SYS_IPC_RECV [Word ep; Word deadline; Word 0; Word 0; Word 0; Word 0];
  mret (decode (fun r => (ra0 r, [ra1 r; ra2 r; ra3 r; ra4 r; ra5 r])) r).

Definition recv (ep : Z) : prog W (result (Z * list Z) Z) := recv_until ep 0.

Definition reply (ep : Z) (w : list Z) : prog W Z :=
  '(r, _) ← trap Sys.SYS_IPC_REPLY [Word ep; Word (nth 0 w 0); Word (nth 1 w 0); Word (nth 2 w 0); Word (nth 3 w 0); Word (nth 4 w 0)];
  mret (rax r).

Definition derive_block (slot rights_mask lba lbas : Z) : prog W (result Z Z) :=
  '(r, _) ← trap Sys.SYS_CAP_DERIVE [Word slot; Word rights_mask; Word lba; Word lbas; Word 0; Word 0];
  mret (decode ra0 r).

Definition derive (slot rights_mask : Z) : prog W (result Z Z) := derive_block slot rights_mask 0 0.

(** The grant list the kernel reads: (slot, mask) pairs of little-endian words. *)
Definition spawn_spec (grants : list (Z * Z)) : list Z :=
  concat ((fun g => to_le_bytes 8 (fst g) ++ to_le_bytes 8 (snd g)) <$> grants).

Definition spawn (elf : list Z) (grants : list (Z * Z)) : prog W (result Z Z) :=
  let spec := spawn_spec grants in
  '(r, _) ← trap Sys.SYS_TASK_SPAWN
    [In elf; Word (Z.of_nat (length elf)); In spec; Word (Z.of_nat (length spec) / 8); Word 0; Word 0];
  mret (decode ra0 r).

Definition wait : prog W (result (Z * Z) Z) :=
  '(r, _) ← trap Sys.SYS_WAIT [Word 0; Word 0; Word 0; Word 0; Word 0; Word 0];
  mret (decode (fun r => (ra0 r, ra1 r)) r).

(** The buffers below are returned with their contents after the call. *)
Definition input_read (buf : list Z) : prog W (result Z Z * list Z) :=
  '(r, buf) ← trap Sys.SYS_INPUT_READ [Out buf; Word (Z.of_nat (length buf)); Word 0; Word 0; Word 0; Word 0];
  mret (if rax r <=? Z.of_nat (length buf) then Ok (rax r) else Err (rax r), buf).

Definition input_try_read (buf : list Z) : prog W (result Z Z * list Z) :=
  '(r, buf) ← trap Sys.SYS_INPUT_READ [Out buf; Word (Z.of_nat (length buf)); Word 1; Word 0; Word 0; Word 0];
  mret (if negb (rax r =? u64_max) && (rax r <=? Z.of_nat (length buf)) && negb (rax r =? 9)
        then Ok (rax r) else Err (rax r), buf).

Definition ticks : prog W Z :=
  '(r, _) ← trap Sys.SYS_TICKS [Word 0; Word 0; Word 0; Word 0; Word 0; Word 0]; mret (rax r).

Definition set_name (name : list Z) : prog W bool :=
  '(r, _) ← trap Sys.SYS_SET_NAME [In name; Word (Z.of_nat (length name)); Word 0; Word 0; Word 0; Word 0];
  mret (rax r =? 0).

Definition SYS_STATS_MAGIC : Z := 0x41454753.

(** [SysStats] is repr(C): 48 bytes, the last four padding. *)
Record SysStats := mkSysStats {
  ss_magic : Z; ss_tick_hz : Z; ss_ticks : Z; ss_frames_used : Z; ss_frames_total : Z; ss_my_pages : Z; ss_ntasks : Z;
}.

Definition read_stats (b : list Z) : SysStats :=
  let u32 o := from_le_bytes (slice o 4 b) in
  let u64 o := from_le_bytes (slice o 8 b) in
  mkSysStats (u32 0%nat) (u32 4%nat) (u64 8%nat) (u64 16%nat) (u64 24%nat) (u64 32%nat) (u32 40%nat).

Definition stats : prog W (result SysStats Z) :=
  '(r, b) ← trap Sys.SYS_STATS [Out (replicate 48 0); Word 48; Word 0; Word 0; Word 0; Word 0];
  let st := read_stats b in
  mret (if (rax r =? 0) && (ss_magic st =? SYS_STATS_MAGIC) then Ok st
        else if rax r =? 0 then Err u64_max else Err (rax r)).

Definition sleep (t : Z) : prog W (result () Z) :=
  '(r, _) ← trap Sys.SYS_SLEEP [Word t; Word 0; Word 0; Word 0; Word 0; Word 0]; mret (decode (fun _ => ()) r).

Definition kill (tid : Z) : prog W (result () Z) :=
  '(r, _) ← trap Sys.SYS_KILL [Word tid; Word 0; Word 0; Word 0; Word 0; Word 0]; mret (decode (fun _ => ()) r).

Definition try_wait : prog W (result (option (Z * Z)) Z) :=
  '(r, _) ← trap Sys.SYS_WAIT [Word 1; Word 0; Word 0; Word 0; Word 0; Word 0];
  mret (if rax r =? 0 then Ok (Some (ra0 r, ra1 r)) else if rax r =? 9 then Ok None else Err (rax r)).

Definition block_guard (len : nat) (count : Z) : bool :=
  (Z.of_nat len <? count * 512) || (8 <? count) || (count =? 0).

Definition block_read (cap lba count : Z) (buf : list Z) : prog W (result () Z * list Z) :=
  if block_guard (length buf) count then mret (Err 5, buf) else
  '(r, buf) ← trap Sys.SYS_BLOCK_READ [Word cap; Word lba; Word count; Out buf; Word 0; Word 0];
  mret (decode (fun _ => ()) r, buf).

Definition block_write (cap lba count : Z) (buf : list Z) : prog W (result () Z) :=
  if block_guard (length buf) count then mret (Err 5) else
  '(r, _) ← trap Sys.SYS_BLOCK_WRITE [Word cap; Word lba; Word count; In buf; Word 0; Word 0];
  mret (decode (fun _ => ()) r).

(** One message per 37 bytes, each behind a start-of-heading byte. *)
Definition SOH : Z := 1.

Fixpoint print_chunks (ep : Z) (cs : list (list Z)) : prog W bool :=
  match cs with
  | [] => mret true
  | chunk :: cs =>
      r ← call ep (msg.pack (SOH :: chunk));
      match r with Ok _ => print_chunks ep cs | Err _ => mret false end
  end.

Definition print_split (ep : Z) (data : list Z) : prog W bool := print_chunks ep (chunks 37 data).
End calls.

(** ** The bump allocator: [head] is the offset of the first free byte.  The
    exchange is retried until it succeeds; the process has one thread. *)
Definition HEAP_SIZE : Z := 1024 * 1024.

Definition alloc (base head align size : Z) : option Z * Z :=
  let aligned := Z.land (wrap 64 (base + head + align - 1)) (bit_not 64 (wrap 64 (align - 1))) in
  let next := wrap 64 (aligned + size - base) in
  if HEAP_SIZE <? next then (None, head) else (Some aligned, next).
End Userlib.
