(* ===== verification/UserlibTheorems.v ===== *)
(** * What the user library promises

    The two IPC codecs deliver the bytes they are given (up to the payload
    size, and for [msg] up to the first NUL); the printer sends all of its
    text in order; the allocator hands out aligned, disjoint blocks of the
    arena and refuses exactly the requests that do not fit. *)

From Stdlib Require Import Sorted.
From S2P Require Import Prelude RustStd Prog Userlib.

(** ** Byte strings behind words *)

Definition until_nul (b : list Z) : list Z := take (default (length b) (position (fun c => c =? 0) b)) b.

(** The first [n] bytes of [b], zero-padded to [n]. *)
Definition padded_to (n : nat) (b : list Z) : list Z := splice 0 (take n b) (replicate n 0).

Definition bytes_of (words : list Z) : list Z := concat (to_le_bytes 8 <$> words).

Lemma bytes_of_cons w ws : bytes_of (w :: ws) = to_le_bytes 8 w ++ bytes_of ws.
Proof. done. Qed.

Lemma splice_0 {A} (src l : list A) : splice 0 src l = src ++ drop (length src) l.
Proof. done. Qed.

Lemma padded_to_app n b : padded_to n b = take n b ++ replicate (n - length b) 0.
Proof.
  unfold padded_to. rewrite splice_0, drop_replicate. do 2 f_equal. rewrite length_take. lia.
Qed.

Lemma length_padded_to n b : length (padded_to n b) = n.
Proof. rewrite padded_to_app, length_app, length_take, length_replicate. lia. Qed.

Lemma padded_to_ok n b : bytes_ok b -> bytes_ok (padded_to n b).
Proof.
  intros. rewrite padded_to_app. apply Forall_app. split; [by apply Forall_take|].
  apply Forall_replicate. by vm_compute.
Qed.

Lemma padded_to_exact b : padded_to (length b) b = b.
Proof. by rewrite padded_to_app, take_ge, Nat.sub_diag, app_nil_r. Qed.

Lemma bytes_of_zeros n : bytes_of (replicate n 0) = replicate (8 * n) 0.
Proof.
  induction n as [|n IH]; [done|]. cbn [replicate]. rewrite bytes_of_cons, IH.
  replace (8 * S n)%nat with (8 + 8 * n)%nat by lia. by rewrite replicate_add.
Qed.

Lemma length_bytes_of words : length (bytes_of words) = (8 * length words)%nat.
Proof. induction words as [|w ws IH]; [done|]. rewrite bytes_of_cons, length_app, IH, length_to_le_bytes. simpl length. lia. Qed.

(** Eight bytes of the packed words. *)
Lemma slice_bytes_of words i : (i < length words)%nat -> slice (8 * i) 8 (bytes_of words) = to_le_bytes 8 (nth i words 0).
Proof.
  revert i. induction words as [|w ws IH]; intros [|i] Hi; simpl length in Hi; [lia..| |].
  - cbn [nth]. rewrite bytes_of_cons. unfold slice. change (8 * 0)%nat with 0%nat. rewrite drop_0. by rewrite take_app_length'.
  - cbn [nth]. rewrite bytes_of_cons, <- (IH i) by lia. unfold slice.
    replace (8 * S i)%nat with (8 + 8 * i)%nat by lia.
    rewrite <- drop_drop, (drop_app_length' _ _ 8) by done. done.
Qed.

(** ** The two codecs pack alike *)

Lemma msg_pack_bytes n : forall b, bytes_ok b ->
  bytes_of (splice 0 ((fun c => from_le_bytes (splice 0 c (replicate 8 0))) <$> take n (chunks 8 b)) (replicate n 0))
  = padded_to (8 * n) b.
Proof.
  induction n as [|n IH]; intros b Hb; [done|].
  destruct b as [|x b'].
  - change (splice 0 _ _) with (replicate (S n) 0). by rewrite bytes_of_zeros, padded_to_app.
  - remember (x :: b') as b eqn:Eb. rewrite chunks_cons by (lia || by subst).
    specialize (IH (drop 8 b) ltac:(by apply Forall_drop)).
    rewrite splice_0 in IH. change (take (S n) (?c :: ?cs)) with (c :: take n cs).
    rewrite fmap_cons, splice_0, <- app_comm_cons, bytes_of_cons. change (drop (length (_ :: ?l)) (replicate (S n) 0)) with (drop (length l) (replicate n 0)). rewrite IH.
    change (splice 0 (take 8 b) (replicate 8 0)) with (padded_to 8 b).
    pose proof (to_le_from_le (padded_to 8 b) (padded_to_ok 8 b Hb)) as E. rewrite length_padded_to in E. rewrite E.
    rewrite !padded_to_app, length_drop. destruct (decide (8 <= length b)%nat) as [Hl|Hl].
    + replace (8 - length b)%nat with 0%nat by lia. simpl replicate. rewrite app_nil_r, app_assoc.
      rewrite take_take_drop. f_equal; [f_equal; lia|f_equal; lia].
    + rewrite (drop_ge b 8), take_nil, !(take_ge b) by lia. rewrite <- app_assoc. f_equal. simpl app.
      rewrite <- replicate_add. f_equal. lia.
Qed.

Lemma msg_pack_padded b : bytes_ok b -> bytes_of (msg.pack b) = padded_to 40 b.
Proof. apply (msg_pack_bytes 5). Qed.

Lemma raw_pack_padded b : bytes_ok b -> bytes_of (raw.pack b) = padded_to 40 b.
Proof.
  intros Hb. unfold raw.pack.
  assert (Et : splice 0 (take (Nat.min (length b) 40) b) (replicate 40 0) = padded_to 40 b).
  { unfold padded_to. f_equal. destruct (decide (length b <= 40)%nat).
    - rewrite Nat.min_l, !take_ge by lia. done.
    - by rewrite Nat.min_r by lia. }
  rewrite Et. pose proof (padded_to_ok 40 b Hb) as Ht. pose proof (length_padded_to 40 b) as Hl.
  generalize dependent (padded_to 40 b). intros t _ Ht Hl.
  assert (Hw : forall i, (i < 5)%nat -> to_le_bytes 8 (from_le_bytes (slice (i * 8) 8 t)) = slice (i * 8) 8 t).
  { intros i Hi. rewrite <- (length_slice (i * 8) 8 t) at 1 by lia. apply to_le_from_le.
    unfold slice. apply Forall_take, Forall_drop, Ht. }
  cbn [seq fmap list_fmap]. rewrite !bytes_of_cons, !Hw by lia. unfold slice, bytes_of. simpl Nat.mul.
  cbn [fmap list_fmap concat]. rewrite app_nil_r, drop_0, !app_assoc, !take_take_drop. apply take_ge. simpl. lia.
Qed.

(** Both codecs share the wire format. *)
Lemma raw_pack_msg b : bytes_ok b -> bytes_of (raw.pack b) = bytes_of (msg.pack b).
Proof. intros. by rewrite raw_pack_padded, msg_pack_padded. Qed.

(** ** Unpacking *)

Lemma until_nul_cons x b : until_nul (x :: b) = if x =? 0 then [] else x :: until_nul b.
Proof. unfold until_nul. simpl. destruct (x =? 0); [done|]. by destruct (position _ b). Qed.

Lemma until_nul_app a b :
  until_nul (a ++ b) = until_nul a ++ (if (length (until_nul a) <? length a)%nat then [] else until_nul b).
Proof.
  induction a as [|x a IH]; [done|]. simpl app. rewrite !until_nul_cons. destruct (x =? 0); [done|].
  rewrite IH. simpl. f_equal.
Qed.

Lemma until_nul_zeros a n : until_nul (a ++ replicate n 0) = until_nul a.
Proof.
  rewrite until_nul_app. assert (until_nul (replicate n 0) = []) as -> by (by destruct n).
  destruct (_ <? _)%nat; by rewrite app_nil_r.
Qed.

Lemma length_until_nul b : (length (until_nul b) <= length b)%nat.
Proof. unfold until_nul. rewrite length_take. lia. Qed.

Lemma until_nul_free b : 0 ∉ b -> until_nul b = b.
Proof.
  induction b as [|x b IH]; intros Hn; [done|]. rewrite until_nul_cons.
  apply not_elem_of_cons in Hn as [Hx Hn]. rewrite (proj2 (Z.eqb_neq x 0)) by congruence. by rewrite IH.
Qed.

Lemma unpack_until_nul words : msg.unpack words = until_nul (bytes_of words).
Proof.
  induction words as [|w ws IH]; [done|]. cbn [msg.unpack]. rewrite bytes_of_cons.
  rewrite until_nul_app, IH. unfold until_nul at 1 3. rewrite length_to_le_bytes. f_equal.
  rewrite length_take, length_to_le_bytes.
  destruct (position _ (to_le_bytes 8 w)) as [k|] eqn:E; simpl; [|done].
  apply position_Some in E as (y & Hk & _). apply lookup_lt_Some in Hk. rewrite length_to_le_bytes in Hk.
  rewrite Nat.min_l by lia. done.
Qed.

Lemma unpack_words_spec words k : forall out, (8 * k <= length out)%nat -> (k <= length words)%nat ->
  foldl (raw.unpack_word words) out (seq 0 k) = splice 0 (take (8 * k) (bytes_of words)) out.
Proof.
  induction k as [|k IH]; intros out Ho Hw.
  - rewrite splice_0. done.
  - rewrite seq_S, foldl_app, IH by lia. cbn [foldl]. unfold raw.unpack_word. rewrite Nat.add_0_l.
    rewrite <- slice_bytes_of by lia. pose proof (length_bytes_of words) as Hl.
    rewrite !splice_0, !length_take. replace (k * 8)%nat with (8 * k)%nat by lia. unfold splice.
    assert (Ht : length (take (8 * k) (bytes_of words)) = (8 * k)%nat) by (rewrite length_take; lia).
    rewrite take_app_length' by done. rewrite length_slice by lia.
    rewrite drop_app_ge by lia. rewrite drop_drop, Ht, app_assoc. unfold slice. rewrite take_take_drop.
    f_equal; [f_equal; lia|]. f_equal. lia.
Qed.

Lemma unpack_all_spec words out : length words = 5%nat ->
  raw.unpack_all words out = splice 0 (take (length out) (bytes_of words)) out.
Proof.
  intros Hw. unfold raw.unpack_all. pose proof (length_bytes_of words) as Hl. rewrite Hw in Hl.
  remember (Nat.min (length out) 40) as n eqn:En.
  pose proof (Nat.div_mod n 8 ltac:(lia)) as Hd. pose proof (Nat.mod_upper_bound n 8 ltac:(lia)) as Hm.
  remember (n / 8)%nat as q eqn:Eq. remember (n mod 8)%nat as r eqn:Er. clear Eq Er.
  assert (Et : take (length out) (bytes_of words) = take n (bytes_of words)).
  { destruct (decide (length out <= 40)%nat); [by replace n with (length out) by lia|].
    replace n with 40%nat by lia. rewrite !take_ge by lia. done. }
  rewrite Et. rewrite unpack_words_spec by lia. destruct (0 <? r)%nat eqn:E0.
  - apply Nat.ltb_lt in E0. rewrite <- slice_bytes_of by lia. rewrite !splice_0. unfold splice.
    replace (q * 8)%nat with (8 * q)%nat by lia.
    assert (Ht : length (take (8 * q) (bytes_of words)) = (8 * q)%nat) by (rewrite length_take; lia).
    assert (Hs : length (take r (slice (8 * q) 8 (bytes_of words))) = r) by (rewrite length_take, length_slice; lia).
    rewrite take_app_length' by done. rewrite drop_app_ge by lia. rewrite drop_drop, Ht, Hs, app_assoc.
    unfold slice. rewrite take_take, Nat.min_l, take_take_drop by lia.
    assert (Hn : length (take n (bytes_of words)) = n) by (rewrite length_take; lia). rewrite Hn.
    f_equal; f_equal; lia.
  - apply Nat.ltb_ge in E0. replace n with (8 * q)%nat by lia. done.
Qed.

Lemma length_raw_pack b : length (raw.pack b) = 5%nat.
Proof. done. Qed.

Lemma length_msg_pack b : length (msg.pack b) = 5%nat.
Proof.
  unfold msg.pack. apply length_splice. rewrite length_fmap, length_take, length_replicate. lia.
Qed.

(** Both codecs deliver what was packed: [msg] the first 40 bytes up to the
    first NUL, [raw] the first 40 bytes, zero-padded to the reader's buffer. *)
Theorem message_roundtrip b out :
  bytes_ok b ->
  msg.unpack (msg.pack b) = until_nul (take 40 b) /\
  raw.unpack_all (raw.pack b) out = splice 0 (take (length out) (padded_to 40 b)) out.
Proof.
  intros Hb. split.
  - rewrite unpack_until_nul, msg_pack_padded, padded_to_app by done. apply until_nul_zeros.
  - rewrite unpack_all_spec by done. by rewrite raw_pack_padded.
Qed.

Lemma message_roundtrip_witness :
  msg.unpack (msg.pack (str "get hostname")) = str "get hostname" /\
  raw.unpack_all (raw.pack (str "ELF")) (replicate 4 7) = [69; 76; 70; 0].
Proof.
  pose proof (str_ok "get hostname") as Hb. pose proof (str_ok "ELF") as He.
  split.
  - rewrite (proj1 (message_roundtrip _ [] Hb)). vm_compute. reflexivity.
  - rewrite (proj2 (message_roundtrip _ (replicate 4 7) He)). vm_compute. reflexivity.
Defined.

(** ** The console printer *)

Section printer.
Context {W : Type} `{Abi W}.

(** The messages sent to an endpoint, in order. *)
Inductive sends (ep : Z) : list (list Z) -> W -> W -> Prop :=
  | sends_nil w : sends ep [] w w
  | sends_cons m ms r w1 w2 w3 : Userlib.call ep m w1 = Some (r, w2) -> sends ep ms w2 w3 -> sends ep (m :: ms) w1 w3.

Lemma chunks_bounds {A} n (l : list A) : (0 < n)%nat -> Forall (fun c => (length c <= n)%nat) (chunks n l).
Proof.
  intros Hn. revert l. apply (chunks_ind n); [done|constructor|]. intros l Hl IH.
  rewrite chunks_cons by done. constructor; [rewrite length_take; lia|done].
Qed.

Lemma Forall_chunks {A} (P : A -> Prop) n l : (0 < n)%nat -> Forall P l -> Forall (Forall P) (chunks n l).
Proof.
  intros Hn. revert l. apply (chunks_ind n (fun l => Forall P l -> Forall (Forall P) (chunks n l))); [done|constructor|].
  intros l Hl IH Hp. rewrite chunks_cons by done. constructor; [by apply Forall_take|]. by apply IH, Forall_drop.
Qed.

Lemma chunk_message c : (length c <= 37)%nat -> bytes_ok c -> 0 ∉ c ->
  msg.unpack (msg.pack (Userlib.SOH :: c)) = Userlib.SOH :: c.
Proof.
  intros Hl Hb Hn. assert (Hs : bytes_ok (Userlib.SOH :: c)) by (constructor; [by vm_compute|done]).
  rewrite unpack_until_nul, msg_pack_padded, padded_to_app, until_nul_zeros by done.
  rewrite take_ge by (simpl; lia). apply until_nul_free. apply not_elem_of_cons. by split.
Qed.

Lemma print_chunks_sends ep cs : forall w,
  Forall (fun c => (length c <= 37)%nat) cs -> Forall bytes_ok cs -> Forall (fun c => 0 ∉ c) cs ->
  wp (Userlib.print_chunks ep cs) (fun ok w' => exists ms rest,
    sends ep ms w w' /\ cs = ((fun m => tail (msg.unpack m)) <$> ms) ++ rest /\ (ok = true -> rest = [])) w.
Proof.
  induction cs as [|c cs IH]; intros w Hl Hb Hn; cbn [Userlib.print_chunks].
  - apply wp_ret. exists [], []. split; [constructor|]. done.
  - apply Forall_cons in Hl as [Hl Hls], Hb as [Hb Hbs], Hn as [Hn Hns]. apply wp_bind.
    pose proof (chunk_message c Hl Hb Hn) as E.
    destruct (Userlib.call ep (msg.pack (Userlib.SOH :: c)) w) as [[r w1]|] eqn:Ec; [|by cbv [Userlib.call Userlib.trap mbind prog_bind] in Ec; destruct (raw_full _ _ _) as [[??]?]].
    unfold wp at 1. rewrite Ec. destruct r as [v|e].
    + eapply wp_mono; [by apply IH|]. intros ok w' (ms & rest & Hs & -> & Hr).
      exists (msg.pack (Userlib.SOH :: c) :: ms), rest. split; [econstructor; [exact Ec|done]|].
      rewrite fmap_cons, E. done.
    + apply wp_ret. exists [msg.pack (Userlib.SOH :: c)], cs. split; [econstructor; [exact Ec|constructor]|].
      rewrite fmap_cons, E. done.
Qed.

(** The printer sends its text in order, each message within the payload
    size; it reports success only after all of it was sent. *)
Theorem print_split_sends ep data w :
  bytes_ok data -> 0 ∉ data ->
  wp (Userlib.print_split ep data) (fun ok w' => exists ms rest,
    sends ep ms w w' /\ data = concat ((fun m => tail (msg.unpack m)) <$> ms) ++ rest /\ (ok = true -> rest = [])) w.
Proof.
  intros Hb Hn. assert (Hc : concat (chunks 37 data) = data) by (apply concat_chunks; lia).
  eapply wp_mono.
  - apply print_chunks_sends; [apply chunks_bounds; lia|by apply Forall_chunks; [lia|]|].
    apply (Forall_impl (Forall (fun x => 0 <> x))).
    + apply Forall_chunks; [lia|]. apply Forall_forall. intros x Hx E. by subst x.
    + intros c Hc' Hx. rewrite Forall_forall in Hc'. by apply (Hc' 0).
  - intros ok w' (ms & rest & Hs & E & Hr). exists ms, (concat rest). split; [done|]. split.
    + rewrite <- Hc at 1. by rewrite E, concat_app.
    + by intros ->%Hr.
Qed.
End printer.

(** ** The allocator *)

Lemma land_bit_not w k x : 0 <= k <= w -> fits w x -> Z.land x (bit_not w (2 ^ k - 1)) = x - x mod 2 ^ k.
Proof.
  intros Hk Hx. unfold bit_not. replace (2 ^ k - 1) with (Z.ones k) by (rewrite Z.ones_equiv; lia).
  replace (2 ^ w - 1) with (Z.ones w) by (rewrite Z.ones_equiv; lia).
  transitivity (Z.ldiff x (Z.ones k)).
  - apply Z.bits_inj'. intros n Hn. rewrite Z.land_spec, Z.lxor_spec, Z.ldiff_spec, !Z.testbit_ones by lia.
    destruct (Z.ltb_spec n w) as [Hw|Hw].
    + rewrite (proj2 (Z.leb_le 0 n)) by lia. simpl. by destruct (n <? k).
    + assert (Z.testbit x n = false) as ->; [|done]. rewrite <- (Z.mod_small x (2 ^ w)) by done.
      apply Z.mod_pow2_bits_high. lia.
  - rewrite Z.ldiff_ones_r, Z.shiftl_mul_pow2, Z.shiftr_div_pow2 by lia.
    pose proof (Z.div_mod x (2 ^ k)). lia.
Qed.

Definition HEAP_LIMIT : Z := 2 ^ 47.

(** The first multiple of [align] at or after [x]. *)
Definition round_up (align x : Z) : Z := (x + align - 1) - (x + align - 1) mod align.

Lemma round_up_spec k x : 0 <= k -> x <= round_up (2 ^ k) x < x + 2 ^ k /\ round_up (2 ^ k) x mod 2 ^ k = 0.
Proof.
  intros Hk. unfold round_up. assert (0 < 2 ^ k) by (apply Z.pow_pos_nonneg; lia).
  pose proof (Z.mod_pos_bound (x + 2 ^ k - 1) (2 ^ k)). split; [lia|].
  rewrite Zminus_mod, Z.mod_mod, Z.sub_diag by lia. done.
Qed.

Lemma alloc_spec base head k size :
  0 <= k <= 16 -> 0 <= base <= HEAP_LIMIT -> 0 <= head <= Userlib.HEAP_SIZE -> 0 <= size <= 2 ^ 63 - 1 ->
  Userlib.alloc base head (2 ^ k) size =
    let a := round_up (2 ^ k) (base + head) in
    if Userlib.HEAP_SIZE <? a + size - base then (None, head) else (Some a, a + size - base).
Proof.
  unfold HEAP_LIMIT, Userlib.HEAP_SIZE. intros Hk Hb Hh Hs.
  assert (1 <= 2 ^ k <= 2 ^ 16).
  { split; [apply (Z.pow_le_mono_r 2 0 k); lia|apply Z.pow_le_mono_r; lia]. }
  pose proof (round_up_spec k (base + head) ltac:(lia)) as [Hr _].
  unfold Userlib.alloc. rewrite (wrap_small 64 (base + head + 2 ^ k - 1)) by (red; lia).
  rewrite (wrap_small 64 (2 ^ k - 1)) by (red; lia). rewrite land_bit_not by (lia || (red; lia)).
  fold (round_up (2 ^ k) (base + head)). cbv zeta. rewrite wrap_small by (red; lia). done.
Qed.

(** A sequence of requests (logarithm of the alignment, size). *)
Fixpoint alloc_all (base head : Z) (reqs : list (Z * Z)) : list (option (Z * Z)) * Z :=
  match reqs with
  | [] => ([], head)
  | (k, size) :: reqs =>
      let '(r, head) := Userlib.alloc base head (2 ^ k) size in
      let '(rs, head) := alloc_all base head reqs in
      (((fun a => (a, size)) <$> r) :: rs, head)
  end.

(** Any sequence of allocations returns aligned blocks inside the arena, in
    increasing order without overlap, whatever requests failed between. *)
Theorem user_heap_disjoint base head reqs :
  0 <= base <= HEAP_LIMIT -> 0 <= head <= Userlib.HEAP_SIZE ->
  Forall (fun q => 0 <= fst q <= 16 /\ 0 <= snd q <= 2 ^ 63 - 1) reqs ->
  let '(blocks, head') := alloc_all base head reqs in
  head <= head' <= Userlib.HEAP_SIZE /\
  Forall2 (fun q o => from_option (fun b => fst b mod 2 ^ fst q = 0 /\ snd b = snd q) True o) reqs blocks /\
  Forall (fun b => base + head <= fst b /\ fst b + snd b <= base + head') (omap id blocks) /\
  StronglySorted (fun b c => fst b + snd b <= fst c) (omap id blocks).
Proof.
  intros Hb. revert head. induction reqs as [|[k size] reqs IH]; intros head Hh Hf; simpl.
  - split; [lia|]. repeat constructor.
  - apply Forall_cons in Hf as [[Hk Hs] Hf]. simpl in Hk, Hs. rewrite alloc_spec by done. cbv zeta.
    pose proof (round_up_spec k (base + head) ltac:(lia)) as [Hr Ha].
    remember (round_up (2 ^ k) (base + head)) as a eqn:Ea. clear Ea.
    destruct (Z.ltb_spec Userlib.HEAP_SIZE (a + size - base)) as [Hfull|Hfit].
    + specialize (IH head Hh Hf). destruct (alloc_all base head reqs) as [bs head'].
      destruct IH as (H1 & H2 & H3 & H4). split; [done|]. split; [by constructor|]. done.
    + specialize (IH (a + size - base) ltac:(lia) Hf). destruct (alloc_all base _ reqs) as [bs head'].
      destruct IH as (H1 & H2 & H3 & H4). split; [lia|]. split; [by constructor|]. simpl. split.
      * constructor; [simpl; lia|]. eapply Forall_impl; [exact H3|]. simpl. lia.
      * constructor; [done|]. eapply Forall_impl; [exact H3|]. simpl. lia.
Qed.

Lemma user_heap_disjoint_witness :
  alloc_all 0x401008 0 [(4, 24); (0, 2 ^ 20); (3, 8)] = ([Some (0x401010, 24); None; Some (0x401028, 8)], 40) /\
  StronglySorted (fun b c => fst b + snd b <= fst c) [(0x401010, 24); (0x401028, 8)].
Proof.
  assert (E : alloc_all 0x401008 0 [(4, 24); (0, 2 ^ 20); (3, 8)] =
              ([Some (0x401010, 24); None; Some (0x401028, 8)], 40)) by (vm_compute; reflexivity).
  split; [exact E|].
  assert (Hq : Forall (fun q => 0 <= fst q <= 16 /\ 0 <= snd q <= 2 ^ 63 - 1) [(4, 24); (0, 2 ^ 20); (3, 8)]).
  { repeat (apply List.Forall_cons; [simpl; lia|]). apply List.Forall_nil. }
  pose proof (user_heap_disjoint 0x401008 0 _ ltac:(unfold HEAP_LIMIT; lia) ltac:(unfold Userlib.HEAP_SIZE; lia) Hq) as T.
  rewrite E in T. exact (proj2 (proj2 (proj2 T))).
Defined.
