(* ===== verification/Strings.v ===== *)
(** * String slices of the Rust core library

    [str::trim], [str::get] with its character boundaries, and
    [u8::from_str_radix(_, 16)], on UTF-8 byte lists; the decoding of a public
    key printed in hexadecimal, which three programs share. *)

From S2P Require Import Prelude RustStd.

Module Strings.

(** The UTF-8 encodings of the White_Space characters. *)
Definition WHITE : list (list Z) :=
  [[9]; [10]; [11]; [12]; [13]; [32]; [0xc2; 0x85]; [0xc2; 0xa0]; [0xe1; 0x9a; 0x80]] ++
  ((fun b => [0xe2; 0x80; b]) <$> seqZ 0x80 11) ++
  [[0xe2; 0x80; 0xa8]; [0xe2; 0x80; 0xa9]; [0xe2; 0x80; 0xaf]; [0xe2; 0x81; 0x9f]; [0xe3; 0x80; 0x80]].

Definition prefixed (s p : list Z) : bool := bytes_eqb (take (length p) s) p.

Fixpoint trim_with (fuel : nat) (white : list (list Z)) (s : list Z) : list Z :=
  match fuel with
  | O => s
  | S fuel => match find (prefixed s) white with Some p => trim_with fuel white (drop (length p) s) | None => s end
  end.

(** White space goes from the front, then from the back. *)
Definition trim (s : list Z) : list Z :=
  let s := trim_with (length s) WHITE s in
  rev (trim_with (length s) (@rev Z <$> WHITE) (rev s)).

Definition is_boundary (s : list Z) (i : nat) : bool :=
  (i =? 0)%nat || (i =? length s)%nat ||
  match s !! i with Some b => negb (in_range 0x80 0xbf b) | None => false end.

(** [s.get(a..b)] *)
Definition get (s : list Z) (a b : nat) : option (list Z) :=
  if (a <=? b)%nat && is_boundary s a && is_boundary s b then Some (slice a (b - a) s) else None.

Definition hex_digit (b : Z) : option Z :=
  if is_ascii_digit b then Some (b - 48)
  else if in_range 97 102 b then Some (b - 87)
  else if in_range 65 70 b then Some (b - 55) else None.

Fixpoint hex_fold (acc : Z) (s : list Z) : option Z :=
  match s with
  | [] => Some acc
  | b :: s => d ← hex_digit b; let acc := 16 * acc + d in if 255 <? acc then None else hex_fold acc s
  end.

(** [u8::from_str_radix(s, 16)]: a sign is not a digit; a plus sign is skipped. *)
Definition u8_from_hex (s : list Z) : option Z :=
  match s with
  | [] => None
  | b :: s' => if b =? 43 then match s' with [] => None | _ => hex_fold 0 s' end else hex_fold 0 s
  end.

(** The loop of [pub_key]: a pair that does not parse is a zero byte. *)
Definition hex_key (hex : list Z) : list Z :=
  (fun i => default 0 (u8_from_hex (default (str "zz") (get hex (i * 2) (i * 2 + 2))))) <$> seq 0 32.

Definition pub_key (bytes : list Z) : list Z := hex_key (trim (default [] (from_utf8 bytes))).

(** ** Lemmas *)

Lemma hex_digit_bounds b d : hex_digit b = Some d -> 0 <= d < 16.
Proof. unfold hex_digit, is_ascii_digit, in_range. repeat case_match; intros [= <-]; lia. Qed.

Lemma hex_fold_byte s : forall acc v, is_byte acc -> hex_fold acc s = Some v -> is_byte v.
Proof.
  induction s as [|b s IH]; cbn [hex_fold]; intros acc v Ha; [by intros [= <-]|].
  destruct (hex_digit b) as [d|] eqn:E; [|done]. cbn. apply hex_digit_bounds in E.
  destruct (Z.ltb_spec 255 (16 * acc + d)); [done|]. apply IH. red in Ha |- *. lia.
Qed.

Lemma u8_from_hex_byte s v : u8_from_hex s = Some v -> is_byte v.
Proof.
  assert (is_byte 0) by done. unfold u8_from_hex. destruct s as [|b [|c s]]; [done|..]; case_match; try done; by apply hex_fold_byte.
Qed.

Lemma hex_key_ok hex : bytes_ok (hex_key hex) /\ length (hex_key hex) = 32%nat.
Proof.
  split; [|by unfold hex_key; rewrite length_fmap, length_seq]. apply Forall_fmap, Forall_forall. intros i _. cbn.
  destruct (u8_from_hex _) as [v|] eqn:E; [by apply u8_from_hex_byte in E|done].
Qed.

Lemma pub_key_ok bytes : bytes_ok (pub_key bytes) /\ length (pub_key bytes) = 32%nat.
Proof. apply hex_key_ok. Qed.

(** A printed key is read back. *)
Definition hex_char (d : Z) : Z := if d <? 10 then 48 + d else 87 + d.
Definition hex_print (key : list Z) : list Z := concat ((fun b => [hex_char (b / 16); hex_char (b mod 16)]) <$> key).

Lemma length_hex_print key : length (hex_print key) = (length key * 2)%nat.
Proof. unfold hex_print. induction key as [|b key IH]; [done|]. rewrite fmap_cons. cbn [concat]. rewrite length_app, IH. done. Qed.

Lemma hex_print_app k1 k2 : hex_print (k1 ++ k2) = hex_print k1 ++ hex_print k2.
Proof. unfold hex_print. by rewrite fmap_app, concat_app. Qed.

Lemma ascii_boundary s j : Forall (fun b => 0 <= b < 128) s -> (j <= length s)%nat -> is_boundary s j = true.
Proof.
  intros Hs Hj. unfold is_boundary. destruct (Nat.eqb_spec j 0); [done|]. destruct (Nat.eqb_spec j (length s)); [done|]. cbn [orb].
  destruct (lookup_lt_is_Some_2 s j) as [b Hb]; [lia|]. rewrite Hb. pose proof (Forall_lookup_1 _ _ _ _ Hs Hb) as Hx. cbv beta in Hx. unfold in_range.
  destruct (Z.leb_spec 0x80 b); [lia|done].
Qed.

Lemma hex_print_ascii key : bytes_ok key -> Forall (fun b => 0 <= b < 128) (hex_print key).
Proof.
  intros Hk. unfold hex_print. induction Hk as [|b key Hb _ IH]; [constructor|]. cbn [fmap list_fmap concat]. apply Forall_app. split; [|exact IH].
  red in Hb. assert (H1 : 0 <= b / 16 < 16) by (split; [apply Z.div_pos|apply Z.div_lt_upper_bound]; lia). pose proof (Z.mod_pos_bound b 16 ltac:(lia)).
  repeat constructor; unfold hex_char; case_match; lia.
Qed.

Lemma hex_pair b : is_byte b -> u8_from_hex [hex_char (b / 16); hex_char (b mod 16)] = Some b.
Proof.
  intros Hb. assert (E : forallb (fun b => match u8_from_hex [hex_char (b / 16); hex_char (b mod 16)] with Some v => v =? b | None => false end) (seqZ 0 256) = true)
    by (vm_compute; reflexivity).
  rewrite forallb_forall in E. red in Hb. specialize (E b ltac:(apply list_elem_of_In, elem_of_seqZ; lia)).
  destruct (u8_from_hex _) as [v|]; [|done]. apply Z.eqb_eq in E. by subst.
Qed.

Lemma get_pair key i b : bytes_ok key -> key !! i = Some b -> get (hex_print key) (i * 2) (i * 2 + 2) = Some [hex_char (b / 16); hex_char (b mod 16)].
Proof.
  intros Hk Hi. pose proof (lookup_lt_Some _ _ _ Hi) as Hl. unfold get. rewrite (proj2 (Nat.leb_le _ _)) by lia.
  rewrite !ascii_boundary by (try (by apply hex_print_ascii); rewrite length_hex_print; lia). cbn [andb]. f_equal.
  rewrite <- (take_drop_middle key i b Hi), hex_print_app. assert (Et : length (hex_print (take i key)) = (i * 2)%nat) by (rewrite length_hex_print, length_take; lia).
  unfold slice. rewrite drop_app_length' by done. replace (i * 2 + 2 - i * 2)%nat with 2%nat by lia. done.
Qed.

Lemma hex_key_print key : bytes_ok key -> length key = 32%nat -> hex_key (hex_print key) = key.
Proof.
  intros Hk Hl. unfold hex_key. apply list_eq. intros i. rewrite list_lookup_fmap. destruct (decide (i < 32)%nat) as [Hi|Hi].
  - destruct (lookup_lt_is_Some_2 key i) as [b Hb]; [lia|]. rewrite lookup_seq_lt by done. cbn [fmap option_fmap option_map Nat.add].
    rewrite (get_pair key i b Hk Hb). cbn [default from_option id]. rewrite hex_pair by (by apply (Forall_lookup_1 _ _ _ _ Hk Hb)). by rewrite Hb.
  - rewrite lookup_seq_ge by lia. symmetry. apply lookup_ge_None. lia.
Qed.

Example pub_key_reads : pub_key (hex_print (seqZ 200 32) ++ [10]) = seqZ 200 32.
Proof. vm_compute. reflexivity. Qed.

End Strings.
