(* ===== verification/StorageText.v ===== *)
(** * Text handling of the storage service (servers/storaged/src/main.rs)

    Decimal printing, trimming, prefixes, the [key=value] lines of payloads and
    overrides, the service roster.  Byte strings are lists; a line is what
    [split] on a newline yields. *)

From S2P Require Import Prelude RustStd.

Module Text.

Definition NL : Z := 10.

(** [push_num]: the digits, least significant first, then reversed. *)
Fixpoint digits (fuel : nat) (v : Z) : list Z :=
  match fuel with
  | O => []
  | S fuel => if 0 <? v then 48 + v mod 10 :: digits fuel (v / 10) else []
  end.

Definition push_num (out : list Z) (v : Z) : list Z :=
  if v =? 0 then out ++ str "0" else out ++ rev (digits 20 v).

Definition is_space (b : Z) : bool := (b =? 32) || (b =? 9) || (b =? 13).

Fixpoint trim_front (s : list Z) : list Z :=
  match s with
  | [] => []
  | f :: s' => if is_space f then trim_front s' else s
  end.

Definition trim (s : list Z) : list Z := rev (trim_front (rev (trim_front s))).

Definition strip_prefix (s p : list Z) : option (list Z) :=
  if (length p <=? length s)%nat && bytes_eqb (take (length p) s) p then Some (drop (length p) s) else None.

(** The value of a [key=value] line, when the line has that key. *)
Definition line_value (key line : list Z) : option (list Z) :=
  match position (fun c => c =? 61) line with
  | Some eq => if bytes_eqb (take eq line) key then Some (trim (drop (eq + 1) line)) else None
  | None => None
  end.

Definition is_comment (line : list Z) : bool :=
  match line with [] => true | c :: _ => c =? 35 end.

Fixpoint find_kv_lines (lines : list (list Z)) (key : list Z) : option (list Z) :=
  match lines with
  | [] => None
  | line :: lines =>
      let line := trim line in
      if is_comment line then find_kv_lines lines key else
      match line_value key line with Some v => Some v | None => find_kv_lines lines key end
  end.

Definition find_kv (payload key : list Z) : option (list Z) := find_kv_lines (split_on NL payload) key.

(** The first loop of [lookup]: overrides have no comments. *)
Fixpoint find_override (lines : list (list Z)) (key : list Z) : option (list Z) :=
  match lines with
  | [] => None
  | line :: lines =>
      match line_value key (trim line) with Some v => Some v | None => find_override lines key end
  end.

Definition lookup (overrides payload key : list Z) : option (list Z) :=
  match find_override (split_on NL overrides) key with Some v => Some v | None => find_kv payload key end.

Record RosterEntry := mkRosterEntry { r_name : list Z; r_autostart : bool; r_restart : bool }.

Definition roster_entry (line : list Z) : option RosterEntry :=
  let line := trim line in
  if is_comment line then None else
  rest ← strip_prefix line (str "service ");
  match List.filter (fun p => negb (length p =? 0)%nat) (split_on 32 rest) with
  | name :: autostart :: restart :: _ =>
      Some (mkRosterEntry (default (str "?") (from_utf8 name)) (bytes_eqb autostart (str "autostart"))
              (bytes_eqb restart (str "restart")))
  | _ => None
  end.

Definition parse_roster (payload : list Z) : list RosterEntry := omap roster_entry (split_on NL payload).

(** The loop of [set]: the lines that do not bind [key], each on a line. *)
Fixpoint without_key (lines : list (list Z)) (key : list Z) : list Z :=
  match lines with
  | [] => []
  | line :: lines =>
      let l := trim line in
      if (length l =? 0)%nat then without_key lines key else
      match position (fun c => c =? 61) l with
      | Some eq2 => if bytes_eqb (take eq2 l) key then without_key lines key else l ++ [NL] ++ without_key lines key
      | None => l ++ [NL] ++ without_key lines key
      end
  end.

Definition set_override (overrides key value : list Z) : list Z :=
  without_key (split_on NL overrides) key ++ key ++ str "=" ++ value ++ [NL].

(** [parse_app_chunk_req]: a name and an offset around the last space. *)
Definition parse_app_chunk_req (rest : list Z) : option (list Z * Z) :=
  split ← rposition (fun b => b =? 32) rest;
  off ← parse_u64 (trim (drop (split + 1) rest));
  Some (trim (take split rest), off).

(** A number after a prefix, [dflt] when it does not parse. *)
Definition parse_or (dflt : Z) (rest : list Z) : Z := default dflt (parse_u64 (trim rest)).

Definition fmt_err (prefix : list Z) (errno : Z) : list Z := push_num prefix errno.

End Text.
