(* ===== verification/StorageConfig.v ===== *)
(** * Configuration text (storaged's [set], [get] and [lookup])

    The overrides are lines [key=value]; setting a key removes the lines that
    bind it and appends one.  Read back, the key has the value set and every
    other key what it had. *)

From S2P Require Import Prelude RustStd StorageText.
Import Text.

(** ** Lines *)

Lemma split_on_cons sep b s :
  split_on sep (b :: s) = match split_on sep s with
    | [] => [[b]] | p :: ps => if b =? sep then [] :: p :: ps else (b :: p) :: ps end.
Proof. done. Qed.

Lemma split_on_ne sep s : split_on sep s <> [].
Proof. destruct s as [|b s]; [done|]. rewrite split_on_cons. destruct (split_on sep s); [done|]. by destruct (b =? sep). Qed.

Lemma split_on_app sep l s : sep ∉ l -> split_on sep (l ++ sep :: s) = l :: split_on sep s.
Proof.
  induction l as [|b l IH]; intros Hn.
  - simpl app. rewrite split_on_cons, Z.eqb_refl. destruct (split_on sep s) eqn:E; [by apply split_on_ne in E|done].
  - apply not_elem_of_cons in Hn as [Hb Hn]. rewrite <- app_comm_cons, split_on_cons, IH by done.
    rewrite (proj2 (Z.eqb_neq _ _)) by congruence. done.
Qed.

Lemma split_on_free sep s : Forall (fun l => sep ∉ l) (split_on sep s).
Proof.
  induction s as [|b s IH]; [repeat constructor; by apply not_elem_of_nil|]. rewrite split_on_cons.
  destruct (split_on sep s) as [|p ps] eqn:E; [by apply split_on_ne in E|].
  apply Forall_cons in IH as [Hp Hps]. destruct (Z.eqb_spec b sep) as [->|Hb].
  - constructor; [apply not_elem_of_nil|]. by constructor.
  - constructor; [|done]. apply not_elem_of_cons. split; [congruence|done].
Qed.

Lemma split_on_ok sep s : bytes_ok s -> Forall bytes_ok (split_on sep s).
Proof.
  induction 1 as [|b s Hb Hs IH]; [repeat constructor|]. rewrite split_on_cons.
  destruct (split_on sep s) as [|p ps]; [repeat constructor; apply Hb|]. apply Forall_cons in IH as [Hp Hps].
  destruct (b =? sep); repeat (constructor; try done); apply Hb.
Qed.

(** Lines each followed by a newline. *)
Definition unlines_of (ls : list (list Z)) : list Z := concat ((fun l => l ++ [NL]) <$> ls).

Lemma split_unlines ls : Forall (fun l => NL ∉ l) ls -> split_on NL (unlines_of ls) = ls ++ [[]].
Proof.
  induction 1 as [|l ls Hl Hls IH]; [done|]. unfold unlines_of. rewrite fmap_cons. cbn [concat].
  rewrite <- app_assoc. simpl app. rewrite split_on_app by done. fold (unlines_of ls). by rewrite IH.
Qed.

(** ** Trimming *)

Lemma trim_front_sub l : exists p, l = p ++ trim_front l /\ Forall (fun b => is_space b = true) p.
Proof.
  induction l as [|b l (p & E & Hp)]; [by exists []|]. simpl. destruct (is_space b) eqn:Eb.
  - exists (b :: p). split; [simpl; by f_equal|by constructor].
  - by exists [].
Qed.

Lemma trim_sub l : exists p q, l = p ++ trim l ++ q.
Proof.
  unfold trim. destruct (trim_front_sub l) as (p & E & _). destruct (trim_front_sub (rev (trim_front l))) as (q & E2 & _).
  exists p, (rev q). rewrite <- rev_app_distr, <- E2, rev_involutive. exact E.
Qed.

Lemma trim_ok l : bytes_ok l -> bytes_ok (trim l).
Proof. destruct (trim_sub l) as (p & q & E). intros H. rewrite E, !Forall_app in H. apply H. Qed.

Lemma trim_free x l : x ∉ l -> x ∉ trim l.
Proof. destruct (trim_sub l) as (p & q & E). intros H Hx. apply H. rewrite E. set_solver. Qed.

Lemma length_trim l : (length (trim l) <= length l)%nat.
Proof. destruct (trim_sub l) as (p & q & E). rewrite E at 2. rewrite !length_app. lia. Qed.

Lemma trim_front_head l : match trim_front l with [] => True | b :: _ => is_space b = false end.
Proof. induction l as [|b l IH]; simpl; [done|]. destruct (is_space b) eqn:E; [done|]. done. Qed.

Lemma trim_front_fix l : match l with [] => True | b :: _ => is_space b = false end -> trim_front l = l.
Proof. destruct l as [|b l]; [done|]. simpl. by intros ->. Qed.

Definition first_ok (l : list Z) : Prop := match l with [] => True | b :: _ => is_space b = false end.

(** Neither end of the line is a space. *)
Definition trimmed (l : list Z) : Prop := first_ok l /\ first_ok (rev l).

Lemma trim_fix l : trimmed l -> trim l = l.
Proof. intros [H1 H2]. unfold trim. by rewrite (trim_front_fix l), trim_front_fix, rev_involutive. Qed.

Lemma trim_trimmed l : trimmed (trim l).
Proof.
  unfold trimmed, trim. rewrite rev_involutive. split; [|apply trim_front_head].
  pose proof (trim_front_head l) as H. destruct (trim_front_sub (rev (trim_front l))) as (p & E & _).
  apply (f_equal (@rev Z)) in E. rewrite rev_involutive, rev_app_distr in E. rewrite E in H.
  destruct (rev (trim_front (rev (trim_front l)))); [done|exact H].
Qed.

Lemma trim_idem l : trim (trim l) = trim l.
Proof. apply trim_fix, trim_trimmed. Qed.

(** ** Bindings *)

(** The key a line binds. *)
Definition binds (line : list Z) : option (list Z) := (fun i => take i line) <$> position (fun c => c =? 61) line.

Lemma line_value_binds key line : line_value key line = None <-> binds line <> Some key.
Proof.
  unfold line_value, binds. destruct (position _ line) as [i|]; simpl; [|done].
  destruct (bytes_eqb (take i line) key) eqn:E; [apply bytes_eqb_eq in E as ->; naive_solver|].
  split; [|done]. intros _ [= E2]. apply bytes_eqb_eq in E2. congruence.
Qed.

Lemma position_first {A} (p : A -> bool) l1 x l2 :
  Forall (fun y => p y = false) l1 -> p x = true -> position p (l1 ++ x :: l2) = Some (length l1).
Proof. induction 1 as [|y l1 Hy _ IH]; intros Hx; simpl; [by rewrite Hx|]. by rewrite Hy, IH. Qed.

Definition binding (key value : list Z) : list Z := key ++ str "=" ++ value.

Lemma position_binding key value : 61 ∉ key -> position (fun c => c =? 61) (binding key value) = Some (length key).
Proof.
  intros Hk. apply (position_first (fun c => c =? 61) key 61 value); [|done].
  apply Forall_forall. intros y Hy. apply Z.eqb_neq. intros ->. done.
Qed.

Lemma binds_binding key value : 61 ∉ key -> binds (binding key value) = Some key.
Proof. intros Hk. unfold binds. rewrite position_binding by done. simpl. unfold binding. by rewrite take_app_length. Qed.

Lemma line_value_binding key value : 61 ∉ key -> trim value = value -> line_value key (binding key value) = Some value.
Proof.
  intros Hk Hv. unfold line_value. rewrite position_binding by done. unfold binding.
  rewrite take_app_length. rewrite (proj2 (bytes_eqb_eq key key)) by done.
  rewrite app_assoc, drop_app_length' by (rewrite length_app; simpl; lia). by rewrite Hv.
Qed.

Lemma first_ok_app a b : first_ok a -> a <> [] -> first_ok (a ++ b).
Proof. by destruct a. Qed.

Lemma binding_trimmed key value : trimmed key -> key <> [] -> trimmed value -> trimmed (binding key value).
Proof.
  intros [Hk _] Hne [_ Hv]. unfold binding. split; [by apply first_ok_app|].
  rewrite !rev_app_distr. rewrite <- app_assoc. destruct value as [|v value]; [done|].
  apply first_ok_app; [done|]. intros E. apply (f_equal (@length Z)) in E. rewrite length_rev in E. done.
Qed.

(** The lines [set] keeps. *)
Definition kept (key : list Z) (lines : list (list Z)) : list (list Z) :=
  List.filter (fun l => negb (length l =? 0)%nat && negb (bool_decide (binds l = Some key))) (trim <$> lines).

Lemma without_key_kept key lines : without_key lines key = unlines_of (kept key lines).
Proof.
  induction lines as [|l lines IH]; [done|]. cbn [without_key]. unfold kept. rewrite fmap_cons. cbn [List.filter].
  destruct (length (trim l) =? 0)%nat; cbn [negb andb]; [exact IH|].
  assert (Hcons : forall x xs, unlines_of (x :: xs) = x ++ [NL] ++ unlines_of xs)
    by (intros; unfold unlines_of; rewrite fmap_cons; cbn [concat]; by rewrite <- app_assoc).
  assert (Hb : binds (trim l) = (fun i => take i (trim l)) <$> position (fun c => c =? 61) (trim l)) by done.
  destruct (position _ (trim l)) as [i|] eqn:Ep; cbn [fmap option_fmap option_map] in Hb.
  - destruct (bytes_eqb (take i (trim l)) key) eqn:E.
    + apply bytes_eqb_eq in E. rewrite bool_decide_true by congruence. exact IH.
    + rewrite bool_decide_false by (rewrite Hb; intros [= E2]; apply bytes_eqb_eq in E2; congruence). cbn [negb]. rewrite Hcons, IH. done.
  - rewrite bool_decide_false by (by rewrite Hb). cbn [negb]. rewrite Hcons, IH. done.
Qed.

Lemma set_override_lines ov key value : NL ∉ key -> NL ∉ value ->
  split_on NL (set_override ov key value) = kept key (split_on NL ov) ++ [binding key value; []].
Proof.
  intros Hk Hv. unfold set_override. rewrite without_key_kept.
  replace (unlines_of _ ++ _) with (unlines_of (kept key (split_on NL ov) ++ [binding key value])).
  - rewrite split_unlines, <- app_assoc; [done|]. apply Forall_app. split.
    + unfold kept. apply Forall_forall. intros l Hl. apply list_elem_of_In, filter_In in Hl as [Hl _].
      apply list_elem_of_In, list_elem_of_fmap in Hl as (l0 & -> & Hl0). apply trim_free.
      pose proof (split_on_free NL ov) as Hf. rewrite Forall_forall in Hf. by apply Hf.
    + apply Forall_singleton. unfold binding. rewrite !not_elem_of_app. split; [done|]. split; [|done]. by vm_compute; intros ?%list_elem_of_In; naive_solver.
  - unfold unlines_of. rewrite fmap_app, concat_app. f_equal. simpl. unfold binding. by rewrite app_nil_r, <- !app_assoc.
Qed.

Lemma find_override_app l1 l2 key :
  find_override (l1 ++ l2) key = match find_override l1 key with Some v => Some v | None => find_override l2 key end.
Proof. induction l1 as [|l l1 IH]; [done|]. simpl. by destruct (line_value key (trim l)). Qed.

Lemma kept_hides key lines : find_override (kept key lines) key = None.
Proof.
  unfold kept. induction lines as [|l lines IH]; [done|]. rewrite fmap_cons. cbn [List.filter].
  destruct (negb _ && _) eqn:E; [|exact IH]. apply andb_true_iff in E as [_ E]. apply negb_true_iff, bool_decide_eq_false in E.
  cbn [find_override]. rewrite trim_idem. by rewrite (proj2 (line_value_binds key (trim l))).
Qed.

Lemma kept_keeps key key' lines : key' <> key -> find_override (kept key lines) key' = find_override lines key'.
Proof.
  intros Hne. unfold kept. induction lines as [|l lines IH]; [done|]. rewrite fmap_cons. cbn [List.filter find_override].
  destruct (negb _ && _) eqn:E.
  - cbn [find_override]. by rewrite trim_idem, IH.
  - rewrite IH. assert (line_value key' (trim l) = None) as ->; [|done]. apply line_value_binds.
    apply andb_false_iff in E as [E|E]; apply negb_false_iff in E.
    + apply Nat.eqb_eq, nil_length_inv in E. by rewrite E.
    + apply bool_decide_eq_true in E. rewrite E. congruence.
Qed.

(** A key and value that fit on a line. *)
Record settable (key value : list Z) : Prop := {
  se_key : trimmed key /\ key <> [];
  se_value : trimmed value;
  se_plain : 61 ∉ key /\ NL ∉ key /\ NL ∉ value;
}.

Lemma lookup_set ov payload key value : settable key value ->
  lookup (set_override ov key value) payload key = Some value /\
  forall key', key' <> key -> lookup (set_override ov key value) payload key' = lookup ov payload key'.
Proof.
  intros [[Hk Hne] Hv (H1 & H2 & H3)]. unfold lookup. rewrite set_override_lines by done.
  assert (Ht : trim (binding key value) = binding key value) by (apply trim_fix, binding_trimmed; done).
  split.
  - rewrite find_override_app, kept_hides. cbn [find_override]. rewrite Ht, line_value_binding; [done|done|by apply trim_fix].
  - intros key' Hne'. rewrite find_override_app, kept_keeps by done. destruct (find_override _ key'); [done|].
    cbn [find_override]. rewrite Ht. rewrite (proj2 (line_value_binds key' (binding key value))); [done|].
    rewrite binds_binding by done. congruence.
Qed.

Lemma digits_ok fuel : forall v, bytes_ok (digits fuel v).
Proof.
  induction fuel as [|fuel IH]; intros v; cbn [digits]; [constructor|]. destruct (0 <? v); [|constructor].
  constructor; [|apply IH]. pose proof (Z.mod_pos_bound v 10). red. lia.
Qed.

Lemma push_num_ok out v : bytes_ok out -> bytes_ok (push_num out v).
Proof.
  intros Ho. unfold push_num. destruct (v =? 0); apply Forall_app; (split; [exact Ho|]); [apply str_ok|apply Forall_rev, digits_ok].
Qed.

Lemma push_num_app out v : exists t, push_num out v = out ++ t.
Proof. unfold push_num. destruct (v =? 0); by eexists. Qed.

Lemma unlines_ok ls : Forall bytes_ok ls -> bytes_ok (unlines_of ls).
Proof.
  induction 1 as [|l ls Hl _ IH]; [constructor|]. unfold unlines_of. rewrite fmap_cons. cbn [concat].
  rewrite !Forall_app. split; [split; [done|by repeat constructor]|exact IH].
Qed.

Lemma set_override_ok ov key value : bytes_ok ov -> bytes_ok key -> bytes_ok value -> bytes_ok (set_override ov key value).
Proof.
  intros Ho Hk Hv. unfold set_override. rewrite without_key_kept, !Forall_app. split.
  - apply unlines_ok. unfold kept. apply Forall_forall. intros l Hl. apply list_elem_of_In, filter_In in Hl as [Hl _].
    apply list_elem_of_In, list_elem_of_fmap in Hl as (l0 & -> & Hl0). apply trim_ok.
    pose proof (split_on_ok NL ov Ho) as Hf. rewrite Forall_forall in Hf. by apply Hf.
  - split; [done|]. split; [apply str_ok|]. split; [done|by repeat constructor].
Qed.

(** A key with an equals sign is accepted and bound under its first part. *)
Example equals_sign_splits :
  lookup (set_override [] (str "a=b") (str "v")) [] (str "a=b") = None /\
  lookup (set_override [] (str "a=b") (str "v")) [] (str "a") = Some (str "b=v").
Proof. split; vm_compute; reflexivity. Qed.
