(* ===== verification/Storaged.v ===== *)
(** * The storage service (servers/storaged/src/main.rs)

    Every function of the service as a program over its state [State], the
    shared [WORKSPACE] and the world behind the system calls.  [None] is a
    panic.  The public key and the update agent's image are built into the
    binary: they are parameters.  Replies are byte strings, as the source
    builds them before packing. *)

From S2P Require Import Prelude RustStd HashStream Sha256 Hmac ChaCha20 Ed25519 Layout Prog Userlib StorageText.
Import Layout Text.

Module Storaged.

Definition SLOT_PAYLOAD_SECTORS : Z := PAYLOAD_CAP / 512.

Definition unlines (ls : list string) : list Z := concat ((fun l => str l ++ [NL]) <$> ls).

Definition FACTORY_PAYLOAD : list Z :=
  unlines ["# redoubt system definition v1"; "device-id=redoubt-dev-01"; "min-generation=1"; "service heart autostart restart"]%string.
Definition FACTORY_CONFIG : list Z := unlines ["hostname=redoubt-dev-01"]%string.

Record AppEntry := mkAppEntry {
  ae_slot : Z; ae_name : list Z; ae_name_len : nat; ae_payload_len : Z; ae_version : Z;
  ae_payload_sha : list Z; ae_signature : list Z;
}.

(** [st.recovery] ... [st.cached_app]. *)
Record State := mkState {
  recovery : bool; block : option Z; vol_key : list Z; active : option SlotId; generation : Z;
  payload : list Z; overrides : list Z; cfg_gen : Z; roster : list RosterEntry; device_id : list Z;
  audit_seq : Z; audit_prev : list Z; pubkey : list Z; apps : list AppEntry; cached_app : option AppEntry;
}.

Definition set_vol_key v (s : State) := mkState (recovery s) (block s) v (active s) (generation s) (payload s)
  (overrides s) (cfg_gen s) (roster s) (device_id s) (audit_seq s) (audit_prev s) (pubkey s) (apps s) (cached_app s).
Definition set_active v (s : State) := mkState (recovery s) (block s) (vol_key s) v (generation s) (payload s)
  (overrides s) (cfg_gen s) (roster s) (device_id s) (audit_seq s) (audit_prev s) (pubkey s) (apps s) (cached_app s).
Definition set_commit a g (s : State) := mkState (recovery s) (block s) (vol_key s) a g (payload s)
  (overrides s) (cfg_gen s) (roster s) (device_id s) (audit_seq s) (audit_prev s) (pubkey s) (apps s) (cached_app s).
Definition set_overrides v g (s : State) := mkState (recovery s) (block s) (vol_key s) (active s) (generation s) (payload s)
  v g (roster s) (device_id s) (audit_seq s) (audit_prev s) (pubkey s) (apps s) (cached_app s).
Definition set_audit q p (s : State) := mkState (recovery s) (block s) (vol_key s) (active s) (generation s) (payload s)
  (overrides s) (cfg_gen s) (roster s) (device_id s) q p (pubkey s) (apps s) (cached_app s).
Definition set_apps v c (s : State) := mkState (recovery s) (block s) (vol_key s) (active s) (generation s) (payload s)
  (overrides s) (cfg_gen s) (roster s) (device_id s) (audit_seq s) (audit_prev s) (pubkey s) v c.
Definition set_cached c (s : State) := set_apps (apps s) c s.

(** The [Some] arm of mount's "load winning payload". *)
Definition set_mounted key a gen p (s : State) := mkState false (block s) key (Some a) gen p
  (overrides s) (cfg_gen s) (parse_roster p) (default (str "?") (find_kv p (str "device-id")))
  (audit_seq s) (audit_prev s) (pubkey s) (apps s) (cached_app s).

(** The literal of [main], and the name of a slot in messages. *)
Definition initial (blk : option Z) (pk : list Z) : State :=
  mkState true blk (replicate 32 0) None 0 FACTORY_PAYLOAD FACTORY_CONFIG 0 (parse_roster FACTORY_PAYLOAD)
    (default (str "redoubt-device") (find_kv FACTORY_PAYLOAD (str "device-id"))) 0 (replicate 32 0) pk [] None.

Definition slot_letter (s : SlotId) : list Z := if slot_num s =? 1 then str "A" else str "B".

Section service.
Context {W : Type} `{Abi W} (UPDATED_ELF : list Z).

Record Sd := mkSd { sd_st : State; sd_ws : list Z; sd_env : W }.
Abbreviation M := (prog Sd).

Definition sys {A} (m : prog W A) : M A := zoom sd_env (fun w d => mkSd (sd_st d) (sd_ws d) w) m.
Definition st {A} (f : State -> A) : M A := gets (fun d => f (sd_st d)).
Definition upd (f : State -> State) : M () := modify (fun d => mkSd (f (sd_st d)) (sd_ws d) (sd_env d)).
Definition workspace : M (list Z) := gets sd_ws.
Definition fill_workspace (w : list Z) : M () := modify (fun d => mkSd (sd_st d) w (sd_env d)).

Definition say (console : Z) (s : list Z) : M () := _ ← sys (Userlib.print_split console s); mret ().
Definition debug_write (s : string) : M () := _ ← sys (Userlib.debug_write (str s ++ [NL])); mret ().

(** ** Block helpers: the buffer is returned with its contents. *)
Definition is_ok {A E} (r : result A E) : bool := match r with Ok _ => true | Err _ => false end.

Definition is_some {A} (o : option A) : bool := match o with Some _ => true | None => false end.

Definition br (cap lba sectors : Z) (buf : list Z) : M (bool * list Z) :=
  '(r, buf) ← sys (Userlib.block_read cap lba sectors buf); mret (is_ok r, buf).
Definition bw (cap lba sectors : Z) (buf : list Z) : M bool :=
  r ← sys (Userlib.block_write cap lba sectors buf); mret (is_ok r).

(** [br] into [workspace[done..done + sectors * 512]]. *)
Definition br_at (cap lba : Z) (sectors done : nat) : M (bool * list Z) :=
  ws ← workspace;
  if (length ws <? done + sectors * SECTOR)%nat then panic else
  '(ok, buf) ← br cap lba (Z.of_nat sectors) (slice done (sectors * SECTOR) ws);
  _ ← fill_workspace (splice done buf ws);
  mret (ok, buf).

Definition zeros : list Z := replicate SECTOR 0.

(** Bytes and sectors of one transfer of the loading loops. *)
Definition transfer (len done : nat) : nat * nat :=
  let take := Nat.min (len - done) (8 * SECTOR) in (take, ((take + SECTOR - 1) / SECTOR)%nat).

(** [h.update(&buf[..take]); xor_stream(key, done / 64, nonce, &mut buf[..take])]. *)
Definition absorb_chunk (key nonce : list Z) (n done : nat) (buf : list Z) (h : Hmac.HmacSha256) : M Hmac.HmacSha256 :=
  ws ← workspace;
  _ ← fill_workspace (splice done (ChaCha20.xor_stream key (wrap 32 (Z.of_nat (done / 64))) nonce (take n buf)) ws);
  mret (Hmac.update h (take n buf)).

(** ** Slot validation *)
Fixpoint load_slot (fuel : nat) (cap : Z) (key nonce : list Z) (len : nat) (lba : Z) (done : nat) (h : Hmac.HmacSha256)
    : M (option Hmac.HmacSha256) :=
  match fuel with
  | O => panic
  | S fuel =>
      if (done <? len)%nat then
        let (n, sectors) := transfer len done in
        '(ok, buf) ← br_at cap lba sectors done;
        if negb ok then mret None else
        h ← absorb_chunk key nonce n done buf h;
        load_slot fuel cap key nonce len (lba + Z.of_nat sectors) (done + n)%nat h
      else mret (Some h)
  end.

(** Passes of a loading loop: one per 4096 bytes. *)
Definition passes (len : nat) : nat := (len / (8 * SECTOR) + 2)%nat.

Definition validate_and_load (cap : Z) (key : list Z) (slot : SlotId) (pubkey : list Z) : M (option (nat * Z)) :=
  '(ok, hdr_sec) ← br cap (hdr_lba slot) 1 zeros;
  if negb ok then mret None else
  match parse_slot_header hdr_sec with
  | None => mret None
  | Some hdr =>
      if negb (sh_state hdr =? SLOT_STATE_VALID) then mret None else
      let len := Z.to_nat (sh_payload_len hdr) in
      ws ← workspace;
      if (len =? 0)%nat || (PAYLOAD_CAP <? Z.of_nat len) || (length ws <? len)%nat then mret None else
      let h := Hmac.update (Hmac.new key) (take HDR_MAC_OFF hdr_sec) in
      loaded ← load_slot (passes len) cap key (seal_nonce (sh_generation hdr)) len (payload_lba slot) 0 h;
      match loaded with
      | None => mret None
      | Some h =>
          expect_mac ← expect (Hmac.finalize h);
          if negb (constant_time_eq expect_mac (slice HDR_MAC_OFF 32 hdr_sec)) then mret None else
          ws ← workspace;
          if negb (constant_time_eq (Sha256.sha256 (take len ws)) (sh_payload_sha hdr)) then mret None else
          v ← expect (Ed25519.verify pubkey (take len ws) (sh_signature hdr));
          mret (if is_ok v then Some (len, sh_generation hdr) else None)
      end
  end.

Definition slot_validates (cap : Z) (key : list Z) (slot : option SlotId) (pubkey : list Z) : M bool :=
  match slot with
  | None => mret false
  | Some slot => r ← validate_and_load cap key slot pubkey; mret (is_some r)
  end.

Definition zero_header (cap : Z) (slot : SlotId) : M () := _ ← bw cap (hdr_lba slot) 1 zeros; mret ().

(** ** Audit *)
Fixpoint scan_loop (fuel : nat) (cap seq : Z) (prev sec : list Z) : M (Z * list Z) :=
  match fuel with
  | O => mret (seq, prev)
  | S fuel =>
      '(ok, sec) ← br cap (AUDIT_START_LBA + seq) 1 sec;
      if negb ok then mret (seq, prev) else
      match check_audit_record sec seq prev with
      | Valid _ => scan_loop fuel cap (seq + 1) (slice AUD_DIGEST_OFF 32 sec) sec
      | _ => mret (seq, prev)
      end
  end.

(** [while (seq as usize) < AUDIT_RECORDS]: one pass per record. *)
Definition scan_audit (cap : Z) : M () :=
  '(seq, prev) ← scan_loop (Z.to_nat AUDIT_RECORDS) cap 0 (replicate 32 0) zeros;
  upd (set_audit seq prev).

Definition audit_raw (text : list Z) : M () :=
  blk ← st block;
  match blk with
  | None => mret ()
  | Some cap =>
      seq ← st audit_seq; prev ← st audit_prev;
      if AUDIT_RECORDS <=? seq then mret () else
      tick ← sys Userlib.ticks;
      '(rec, digest) ← expect (write_audit_record zeros seq tick 1 0 (take (Z.to_nat AUD_DATA_MAX) text) prev);
      ok ← bw cap (AUDIT_START_LBA + seq) 1 rec;
      if ok : bool then upd (set_audit (seq + 1) digest) else mret ()
  end.

(** ** Application store *)
Definition app_name_valid (name : list Z) : bool :=
  negb (length name =? 0)%nat && (length name <=? APP_NAME_MAX)%nat &&
  forallb (fun b => is_ascii_alphanumeric b || (b =? 45)) name.

Definition app_entry_from_header (h : AppHeader) : AppEntry :=
  mkAppEntry (ah_slot h) (ah_name h) (ah_name_len h) (ah_payload_len h) (ah_version h) (ah_payload_sha h) (ah_signature h).

(** [&entry.name[..entry.name_len]]; the length is at most 24 in every entry. *)
Definition entry_name (e : AppEntry) : list Z := take (ae_name_len e) (ae_name e).

Definition same_app_name (entry : AppEntry) (name : list Z) : bool :=
  (ae_name_len entry =? length name)%nat && bytes_eqb (entry_name entry) name.

(** [max_by_key]: the last of the greatest. *)
Definition newer (best : option AppEntry) (a : AppEntry) : option AppEntry :=
  match best with
  | None => Some a
  | Some b => if ae_version b <=? ae_version a then Some a else Some b
  end.

Definition best_app (apps : list AppEntry) (name : list Z) : option AppEntry :=
  foldl newer None (List.filter (fun a => same_app_name a name) apps).

Fixpoint load_app (fuel : nat) (cap : Z) (key nonce : list Z) (len : nat) (lba : Z) (done : nat) (h : Hmac.HmacSha256)
    : M (option Hmac.HmacSha256) :=
  match fuel with
  | O => panic
  | S fuel =>
      if (done <? len)%nat then
        let (n, sectors) := transfer len done in
        '(ok, buf) ← br_at cap (lba + 1 + Z.of_nat (done / SECTOR)) sectors done;
        if negb ok then _ ← debug_write "[storaged] app payload read failed"; mret None else
        h ← absorb_chunk key nonce n done buf h;
        load_app fuel cap key nonce len lba (done + n)%nat h
      else mret (Some h)
  end.

Definition validate_and_load_app (cap : Z) (key : list Z) (slot : Z) (pubkey : list Z) : M (option AppEntry) :=
  match app_slot_lba slot with
  | None => mret None
  | Some lba =>
      '(ok, hdr_sec) ← br cap lba 1 zeros;
      if negb ok then _ ← debug_write "[storaged] app header read failed"; mret None else
      match parse_app_header hdr_sec with
      | None => mret None
      | Some hdr =>
          let len := Z.to_nat (ah_payload_len hdr) in
          let name := take (ah_name_len hdr) (ah_name hdr) in
          ws ← workspace;
          if negb (ah_slot hdr =? slot) || negb (app_name_valid name) || (length ws <? len)%nat
          then _ ← debug_write "[storaged] app header invalid"; mret None else
          let h := Hmac.update (Hmac.new key) (take APP_HDR_MAC_OFF hdr_sec) in
          loaded ← load_app (passes len) cap key (app_nonce slot (ah_version hdr)) len lba 0 h;
          match loaded with
          | None => mret None
          | Some h =>
              mac ← expect (Hmac.finalize h);
              if negb (constant_time_eq mac (slice APP_HDR_MAC_OFF 32 hdr_sec))
              then _ ← debug_write "[storaged] app MAC invalid"; mret None else
              ws ← workspace;
              if negb (constant_time_eq (Sha256.sha256 (take len ws)) (ah_payload_sha hdr))
              then _ ← debug_write "[storaged] app digest invalid"; mret None else
              v ← expect (Ed25519.verify pubkey (app_signing_message name (ah_version hdr) (Z.of_nat len) (ah_payload_sha hdr))
                            (ah_signature hdr));
              if negb (is_ok v) then _ ← debug_write "[storaged] app signature invalid"; mret None else
              mret (Some (app_entry_from_header hdr))
          end
      end
  end.

Fixpoint load_slots (cap : Z) (slots : list Z) : M () :=
  match slots with
  | [] => mret ()
  | slot :: slots =>
      key ← st vol_key; pk ← st pubkey;
      valid ← validate_and_load_app cap key slot pk;
      _ ← match valid with Some e => upd (fun s => set_apps (apps s ++ [e]) (cached_app s) s) | None => mret () end;
      load_slots cap slots
  end.

Definition load_apps (cap : Z) : M () :=
  _ ← upd (set_apps [] None);
  load_slots cap (seqZ 0 APP_SLOTS).

Definition app_unique_count (apps : list AppEntry) : Z :=
  Z.of_nat (length (List.filter
    (fun i => match apps !! i with
              | Some a => negb (existsb (fun old => same_app_name old (entry_name a)) (take i apps))
              | None => false
              end) (seq 0 (length apps)))).

Fixpoint app_at_loop (all rest : list AppEntry) (want seen : Z) : option AppEntry :=
  match rest with
  | [] => None
  | entry :: rest =>
      if negb (bool_decide (ae_slot <$> best_app all (entry_name entry) = Some (ae_slot entry))) then app_at_loop all rest want seen
      else if seen =? want then Some entry else app_at_loop all rest want (seen + 1)
  end.
Definition app_at_index (apps : list AppEntry) (want : Z) : option AppEntry := app_at_loop apps apps want 0.

(** Is the cached program this entry's? *)
Definition cache_hit (cached : option AppEntry) (entry : AppEntry) : bool :=
  match cached with
  | Some c => (ae_slot c =? ae_slot entry) && (ae_version c =? ae_version entry)
  | None => false
  end.

Definition cache_app (name : list Z) : M (option AppEntry) :=
  s ← st id;
  match best_app (apps s) name with
  | None => mret None
  | Some entry =>
      if cache_hit (cached_app s) entry then mret (cached_app s) else
      match block s with
      | None => mret None
      | Some cap =>
          loaded ← validate_and_load_app cap (vol_key s) (ae_slot entry) (pubkey s);
          match loaded with
          | None => mret None
          | Some l =>
              if negb (ae_version l =? ae_version entry) || negb (bytes_eqb (ae_payload_sha l) (ae_payload_sha entry))
              then mret None else
              _ ← upd (set_cached (Some l));
              mret (Some l)
          end
      end
  end.

Definition app_info (name : list Z) : M (list Z) :=
  e ← cache_app name;
  mret match e with
       | Some entry => push_num (push_num (str "len ") (ae_payload_len entry) ++ str " ver ") (ae_version entry)
       | None => str "err: no app"
       end.

Definition app_hash (s : State) (name : list Z) : list Z :=
  match best_app (apps s) name with Some entry => ae_payload_sha entry | None => str "err: no app" end.

Definition app_sig (s : State) (name : list Z) (off : Z) : list Z :=
  match best_app (apps s) name with
  | None => str "err: no app"
  | Some entry =>
      if Z.of_nat (length (ae_signature entry)) <=? off then [] else
      let off := Z.to_nat off in
      splice 0 (slice off (Nat.min (length (ae_signature entry) - off) 40) (ae_signature entry)) (replicate 40 0)
  end.

Definition app_chunk (name : list Z) (off : Z) : M (list Z) :=
  e ← cache_app name;
  match e with
  | None => mret (str "err: no app")
  | Some entry =>
      if ae_payload_len entry <=? off then mret [] else
      ws ← workspace;
      let off := Z.to_nat off in
      let n := Nat.min (Z.to_nat (ae_payload_len entry) - off) 40 in
      if (length ws <? off + n)%nat then panic else
      mret (splice 0 (slice off n ws) (replicate 40 0))
  end.

Definition target_app_slot (apps : list AppEntry) (name : list Z) : option Z :=
  match best_app apps name with
  | Some current => app_peer_slot (ae_slot current)
  | None => find (fun first => negb (existsb (fun a => (ae_slot a =? first) || (ae_slot a =? first + 1)) apps)) [0; 2; 4; 6]
  end.

(** The staging area into the workspace, eight sectors at a time. *)
Fixpoint read_staging (fuel : nat) (cap : Z) (total done : nat) : M bool :=
  match fuel with
  | O => panic
  | S fuel =>
      if (done <? total)%nat then
        let n := Nat.min (total - done) (8 * SECTOR) in
        '(ok, _) ← br_at cap (STAGING_LBA + Z.of_nat (done / SECTOR)) (n / SECTOR) done;
        if negb ok then mret false else read_staging fuel cap total (done + n)%nat
      else mret true
  end.

(** The ciphertext from the workspace into the slot. *)
Fixpoint write_app (fuel : nat) (cap slot_lba : Z) (total done : nat) : M bool :=
  match fuel with
  | O => panic
  | S fuel =>
      if (done <? total)%nat then
        let n := Nat.min (total - done) (8 * SECTOR) in
        ws ← workspace;
        ok ← bw cap (slot_lba + 1 + Z.of_nat (done / SECTOR)) (Z.of_nat (n / SECTOR)) (slice done n ws);
        if negb ok then mret false else write_app fuel cap slot_lba total (done + n)%nat
      else mret true
  end.

(** From "Move plaintext down" to the publication of the header. *)
Definition publish_app (cap slot slot_lba : Z) (name : list Z) (version : Z) (signature : list Z)
    (payload_len bytes : nat) : M (option (list Z)) :=
  key ← st vol_key;
  raw ← workspace;
  let raw := splice 0 (slice APP_PKG_HEADER (bytes - APP_PKG_HEADER) raw) raw in
  let padded := ((payload_len + SECTOR - 1) / SECTOR * SECTOR)%nat in
  let raw := splice payload_len (replicate (padded - payload_len) 0) raw in
  _ ← fill_workspace raw;
  written ← expect (write_app_header zeros slot name version (take payload_len raw) signature);
  match written with
  | None => mret (Some (str "err: malformed app"))
  | Some hdr =>
      let ct := ChaCha20.xor_stream key 0 (app_nonce slot version) (take payload_len raw) in
      _ ← fill_workspace (splice 0 ct raw);
      let hdr := splice APP_HDR_MAC_OFF (app_header_mac key hdr ct) hdr in
      ok ← bw cap slot_lba 1 zeros;
      if negb ok then mret (Some (str "err: app io")) else
      ok ← write_app (passes padded) cap slot_lba padded 0;
      if negb ok then mret (Some (str "err: app io")) else
      ok ← bw cap slot_lba 1 hdr;
      if negb ok then mret (Some (str "err: app io")) else
      mret None
  end.

(** The bookkeeping after publication. *)
Definition record_app (entry : AppEntry) : M (list Z) :=
  _ ← upd (fun s => set_apps (List.filter (fun a => negb (ae_slot a =? ae_slot entry)) (apps s) ++ [entry]) None s);
  _ ← audit_raw (take 38 (str "app-install " ++ entry_name entry));
  mret (push_num (str "ok app " ++ entry_name entry ++ str " v") (ae_version entry)).

(** Signature, freshness and slot of a parsed package, then its publication. *)
Definition accept_app (cap : Z) (bytes : nat) (pkg : AppPackage) : M (list Z) :=
  let name := take (ap_name_len pkg) (ap_name pkg) in
  if negb (app_name_valid name) || negb (bytes_eqb (Sha256.sha256 (ap_payload pkg)) (ap_payload_sha pkg))
  then mret (str "err: BAD PACKAGE") else
  s ← st id;
  v ← expect (Ed25519.verify (pubkey s)
        (app_signing_message name (ap_version pkg) (Z.of_nat (length (ap_payload pkg))) (ap_payload_sha pkg)) (ap_signature pkg));
  if negb (is_ok v) then mret (str "err: BAD SIGNATURE") else
  if match best_app (apps s) name with Some old => ap_version pkg <=? ae_version old | None => false end
  then mret (str "err: stale version") else
  match target_app_slot (apps s) name with
  | None => mret (str "err: app store full")
  | Some slot =>
      match app_slot_lba slot with
      | None => mret (str "err: internal")
      | Some slot_lba =>
          failed ← publish_app cap slot slot_lba name (ap_version pkg) (ap_signature pkg) (length (ap_payload pkg)) bytes;
          match failed with
          | Some err => mret err
          | None => record_app (mkAppEntry slot (ap_name pkg) (ap_name_len pkg) (Z.of_nat (length (ap_payload pkg)))
                                  (ap_version pkg) (ap_payload_sha pkg) (ap_signature pkg))
          end
      end
  end.

Definition install_app : M (list Z) :=
  s ← st id;
  match block s with
  | None => mret (str "err: no volume")
  | Some cap =>
      if recovery s then mret (str "err: recovery mode") else
      '(ok, head) ← br cap STAGING_LBA 1 zeros;
      if negb ok then mret (str "err: staging io") else
      if negb (bytes_eqb (slice 0 8 head) APP_PKG_MAGIC) || negb (byte_at 8 head =? APP_FORMAT_VERSION)
      then mret (str "err: no app package") else
      let package_len := le_field 12 4 head in
      if (package_len =? 0) || (APP_STAGE_CAP <? package_len) then mret (str "err: malformed app") else
      let bytes := (APP_PKG_HEADER + Z.to_nat package_len)%nat in
      let total := ((bytes + SECTOR - 1) / SECTOR * SECTOR)%nat in
      ok ← read_staging (passes total) cap total 0;
      if negb ok then mret (str "err: staging io") else
      raw ← workspace;
      match parse_app_stage_package (take bytes raw) with
      | None => mret (str "err: malformed app")
      | Some pkg => accept_app cap bytes pkg
      end
  end.

Fixpoint erase_apps (cap : Z) (entries : list AppEntry) (removed : bool) : M (option bool) :=
  match entries with
  | [] => mret (Some removed)
  | entry :: entries =>
      match app_slot_lba (ae_slot entry) with
      | Some lba =>
          ok ← bw cap lba 1 zeros;
          if negb ok then mret None else erase_apps cap entries true
      | None => erase_apps cap entries removed
      end
  end.

Definition remove_app (name : list Z) : M (list Z) :=
  if negb (app_name_valid name) then mret (str "err: invalid app") else
  s ← st id;
  match block s with
  | None => mret (str "err: no volume")
  | Some cap =>
      r ← erase_apps cap (List.filter (fun a => same_app_name a name) (apps s)) false;
      match r with
      | None => mret (str "err: app io")
      | Some false => mret (str "err: no app")
      | Some true =>
          _ ← upd (fun s => set_apps (List.filter (fun a => negb (same_app_name a name)) (apps s)) None s);
          _ ← audit_raw (str "app-remove " ++ name);
          mret (str "ok removed")
      end
  end.

(** ** Configuration *)
Definition persist_overrides : M bool :=
  blk ← st block;
  match blk with
  | None => mret false
  | Some cap =>
      _ ← upd (fun s => set_overrides (overrides s) (wrap 64 (cfg_gen s + 1)) s);
      s ← st id;
      sec ← expect (write_config zeros (cfg_gen s) (overrides s) (vol_key s));
      bw cap CONFIG_LBA 1 sec
  end.

Definition slot_status_text (s : State) : list Z :=
  if recovery s then str "recovery" else
  match active s with
  | Some a => push_num (slot_letter a ++ str " gen ") (generation s)
  | None => str "unknown"
  end.

(** ** Updates *)

(** The wait for the agent: its exit code, [0xFFFF] and [0xFFFE] included. *)
Fixpoint wait_agent (fuel : nat) (child deadline : Z) : M Z :=
  match fuel with
  | O => panic
  | S fuel =>
      r ← sys Userlib.try_wait;
      match r with
      | Ok (Some (tid, code)) => if tid =? child then mret code else wait_agent fuel child deadline
      | Err _ => mret 0xFFFF
      | Ok None =>
          now ← sys Userlib.ticks;
          if deadline <=? now then _ ← sys (Userlib.kill child); mret 0xFFFE else
          slept ← sys (Userlib.sleep 10);
          if negb (is_ok slept) then mret 0xFFFE else wait_agent fuel child deadline
      end
  end.

(** A pass collects a child or sleeps ten of the 1200 ticks. *)
Definition WAIT_FUEL : nat := 4300.

Definition commit_slot (cap : Z) (new_active : SlotId) (gen : Z) : M bool :=
  s ← st id;
  if bool_decide (is_Some (active s)) && (gen <=? generation s) then mret false else
  let gens := <[Z.to_nat (slot_num new_active - 1) := gen]> [0; 0] in
  let gens := match active s with
              | Some old => if bool_decide (old = new_active) then gens
                            else <[Z.to_nat (slot_num old - 1) := generation s]> gens
              | None => gens
              end in
  sb ← expect (write_superblock zeros (Some new_active) (nth 0 gens 0) (nth 1 gens 0) (vol_key s));
  ok ← bw cap SUPERBLOCK_LBA 1 sb;
  if ok : bool then _ ← upd (set_commit (Some new_active) gen); mret true else mret false.

(** The reply to each exit code of the agent. *)
Definition finish_update (cap : Z) (inactive : SlotId) (exit_code : Z) : M (list Z) :=
  let line := str "update " in
  if exit_code =? 0 then
    s ← st id;
    r ← validate_and_load cap (vol_key s) inactive (pubkey s);
    match r with
    | Some (len, gen) =>
        ok ← commit_slot cap inactive gen;
        if negb ok then _ ← audit_raw (line ++ str "commit-fail"); mret (str "err: commit failed") else
        _ ← audit_raw (push_num (line ++ str "applied gen ") gen);
        mret (push_num (str "ok applied ") (Z.of_nat len) ++ str " bytes; reboot")
    | None => _ ← audit_raw (line ++ str "validate-fail"); mret (str "err: applied but validation failed")
    end
  else if exit_code =? 16 then _ ← audit_raw (line ++ str "reject bad-signature"); mret (str "err: BAD SIGNATURE")
  else if exit_code =? 17 then _ ← audit_raw (line ++ str "reject no-package"); mret (str "err: no staged package")
  else if exit_code =? 18 then _ ← audit_raw (line ++ str "io-error"); mret (str "err: staging io error")
  else if exit_code =? 19 then _ ← audit_raw (line ++ str "reject stale-generation"); mret (str "err: stale generation")
  else _ ← audit_raw (push_num (line ++ str "agent-exit ") exit_code); mret (str "err: agent failed").

Definition run_update (console : Z) : M (list Z) :=
  _ ← upd (set_cached None);
  s ← st id;
  match block s with
  | None => mret (str "err: no volume")
  | Some blk =>
      let inactive := match active s with Some a => other a | None => A end in
      stage_cap ← sys (Userlib.derive_block blk (Z.lor R_READ R_GRANT) STAGING_LBA STAGING_SECTORS);
      match stage_cap with
      | Err e => mret (fmt_err (str "err: derive stage ") e)
      | Ok stage_cap =>
          let slot_lo := hdr_lba inactive in
          let slot_len := 2 + SLOT_PAYLOAD_SECTORS - (payload_lba inactive - hdr_lba inactive) in
          slot_cap ← sys (Userlib.derive_block blk (Z.lor R_WRITE R_GRANT) slot_lo slot_len);
          match slot_cap with
          | Err e => mret (fmt_err (str "err: derive slot ") e)
          | Ok slot_cap =>
              _ ← say console (str "[storaged] verifying staged update" ++ [NL]);
              child ← sys (Userlib.spawn UPDATED_ELF [(stage_cap, R_READ); (slot_cap, R_WRITE)]);
              match child with
              | Err e => mret (fmt_err (str "err: spawn updated ") e)
              | Ok child =>
                  now ← sys Userlib.ticks;
                  exit_code ← wait_agent WAIT_FUEL child (wrap 64 (now + 1200));
                  finish_update blk inactive exit_code
              end
          end
      end
  end.

(** ** Mounting *)

(** A/B validation with rollback: the slot to load, if any. *)
Definition choose_slot (cap : Z) (key : list Z) (console : Z) (active_sb : option SlotId) : M (option SlotId) :=
  pk ← st pubkey;
  good ← slot_validates cap key active_sb pk;
  if good : bool then mret active_sb else
  match active_sb with
  | None => mret None
  | Some a =>
      _ ← zero_header cap a;
      _ ← scan_audit cap;
      _ ← audit_raw (str "rollback slot " ++ slot_letter a);
      _ ← say console (str "[store] active invalid; rollback" ++ [NL]);
      good ← slot_validates cap key (Some (other a)) pk;
      mret (if good : bool then Some (other a) else None)
  end.

(** Runtime overrides: adopted only under a valid tag. *)
Definition mount_config (cap console : Z) (sec : list Z) : M () :=
  '(ok, sec) ← br cap CONFIG_LBA 1 sec;
  if negb (ok && bytes_eqb (slice 0 8 sec) CFG_MAGIC) then mret () else
  key ← st vol_key;
  if constant_time_eq (Hmac.oneshot key (take 448 sec)) (slice 448 32 sec) then
    match parse_config sec with
    | Some (_, gen, text) => upd (set_overrides text gen)
    | None => mret ()
    end
  else
    _ ← scan_audit cap;
    _ ← audit_raw (str "cfg tamper ignored");
    say console (str "[storaged] config blob corrupt: defaults in effect" ++ [NL]).

Definition mount (cap console : Z) : M () :=
  '(ok, sec) ← br cap SUPERBLOCK_LBA 1 zeros;
  if negb ok then say console (str "[storaged] disk read failed: RECOVERY mode" ++ [NL]) else
  if negb (bytes_eqb (slice 0 8 sec) SB_MAGIC)
  then say console (str "[storaged] volume unformatted: RECOVERY (stage an update to install)" ++ [NL]) else
  let key := slice SB_KEY_OFF 32 sec in
  if negb (superblock_valid key sec) then say console (str "[storaged] SUPERBLOCK INTEGRITY FAILURE: RECOVERY" ++ [NL]) else
  let '(active_sb, gen_a, gen_b) := default (None, 0, 0) (parse_superblock sec) in
  chosen ← choose_slot cap key console active_sb;
  match chosen with
  | None =>
      _ ← say console (str "[storaged] no verifiable slot: RECOVERY mode" ++ [NL]);
      _ ← upd (fun s => set_active None (set_vol_key key s));
      _ ← scan_audit cap;
      audit_raw (str "boot recovery")
  | Some active =>
      pk ← st pubkey;
      r ← validate_and_load cap key active pk;
      match r with
      | None =>
          _ ← say console (str "[storaged] payload verify failed: RECOVERY" ++ [NL]);
          _ ← upd (set_vol_key key);
          _ ← scan_audit cap;
          audit_raw (str "boot payload-fail")
      | Some (len, gen) =>
          ws ← workspace;
          _ ← upd (set_mounted key active gen (take len ws));
          _ ← mount_config cap console sec;
          _ ← scan_audit cap;
          _ ← load_apps cap;
          _ ← audit_raw (push_num (str "boot slot" ++ slot_letter active ++ str " gen ") gen);
          s ← st id;
          say console
            (push_num (push_num (push_num (str "[storaged] mounted slot " ++ slot_letter active ++ str " gen ") gen
               ++ str "; ") (Z.of_nat (length (roster s))) ++ str " service(s); audit ") (audit_seq s)
               ++ str " records" ++ [NL])
      end
  end.

(** Slot 3 holds the whole-disk capability when it answers to a derivation. *)
Definition probe_block_cap : prog W (option Z) :=
  r ← Userlib.derive_block 3 R_READ 0 1;
  mret (if is_ok r then Some 3 else None).

(** ** Requests *)

Definition read_audit_record (seq : Z) : M (list Z) :=
  s ← st id;
  match block s with
  | None => mret (str "err: novol")
  | Some cap =>
      if audit_seq s <=? seq then mret (str "err: range") else
      '(ok, sec) ← br cap (AUDIT_START_LBA + seq) 1 zeros;
      if negb ok then mret (str "err: io") else
      let dlen := Z.to_nat (Z.min (le_field 22 2 sec) AUD_DATA_MAX) in
      mret (take 38 (push_num (push_num [] (le_field 4 8 sec) ++ [32]) (le_field 12 8 sec) ++ [32] ++ slice 56 dlen sec))
  end.

(** The argument after the first of several prefixes. *)
Fixpoint after_prefix (req : list Z) (ps : list string) : option (list Z) :=
  match ps with
  | [] => None
  | p :: ps => match strip_prefix req (str p) with Some r => Some r | None => after_prefix req ps end
  end.

Definition roster_reply (s : State) (rest : list Z) : list Z :=
  let idx := parse_or u64_max rest in
  match (if idx <? Z.of_nat (length (roster s)) then roster s !! Z.to_nat idx else None) with
  | Some r => r_name r ++ (if r_autostart r then str " autostart" else str " manual") ++
                (if r_restart r then str " restart" else str " once")
  | None => str "err: range"
  end.

(** The application queries, the last arms of [handle_query]. *)
Definition handle_app_query (req : list Z) : M (list Z) :=
  s ← st id;
  if bytes_eqb req (str "app-count") then mret (push_num [] (app_unique_count (apps s))) else
  match after_prefix req ["app-list "%string] with
  | Some rest =>
      mret match app_at_index (apps s) (parse_or u64_max rest) with
           | Some app => push_num (entry_name app ++ [32]) (ae_version app)
           | None => str "err: range"
           end
  | None =>
  match after_prefix req ["app-info "; "ai "]%string with
  | Some name => app_info (trim name)
  | None =>
  match after_prefix req ["app-hash "; "ah "]%string with
  | Some name => mret (app_hash s (trim name))
  | None =>
  match after_prefix req ["app-sig "; "as "]%string with
  | Some rest =>
      mret match parse_app_chunk_req rest with
           | Some (name, off) => app_sig s name off
           | None => str "err: query?"
           end
  | None =>
  match after_prefix req ["app-chunk "; "ac "]%string with
  | Some rest =>
      match parse_app_chunk_req rest with
      | Some (name, off) => app_chunk name off
      | None => mret (str "err: query?")
      end
  | None => mret (str "err: query?")
  end end end end end.

Definition handle_query (req : list Z) : M (list Z) :=
  match strip_prefix req (str "log ") with
  | Some rest => _ ← audit_raw (trim rest); mret (str "ok")
  | None =>
  s ← st id;
  if bytes_eqb req (str "id") then mret (str "id=" ++ device_id s) else
  if bytes_eqb req (str "slot") then mret (slot_status_text s) else
  match strip_prefix req (str "get ") with
  | Some rest =>
      let key := trim rest in
      mret match lookup (overrides s) (payload s) key with
           | Some v => key ++ str "=" ++ v
           | None => str "err: unset"
           end
  | None =>
  if bytes_eqb req (str "roster-count") then mret (push_num [] (Z.of_nat (length (roster s)))) else
  match strip_prefix req (str "roster ") with
  | Some rest => mret (roster_reply s rest)
  | None =>
  if bytes_eqb req (str "auditcount") then mret (push_num [] (audit_seq s)) else
  match strip_prefix req (str "audit ") with
  | Some rest => read_audit_record (parse_or u64_max rest)
  | None => handle_app_query req
  end end end end.

(** The [set] arm of [handle_config]. *)
Definition set_config (rest : list Z) : M (list Z) :=
  match position (fun c => c =? 32) rest with
  | None => mret (str "err: usage set <k> <v>")
  | Some eq =>
      let key := trim (take eq rest) in
      let value := trim (drop (eq + 1) rest) in
      if (length key =? 0)%nat || (24 <? length key)%nat || (24 <? length value)%nat then mret (str "err: bounds") else
      s ← st id;
      let text := set_override (overrides s) key value in
      if CFG_TEXT_MAX <? Z.of_nat (length text) then mret (str "err: full") else
      _ ← upd (fun s => set_overrides text (cfg_gen s) s);
      ok ← persist_overrides;
      if ok : bool then _ ← audit_raw (str "cfg-set " ++ key); mret (str "ok") else mret (str "err: io")
  end.

Definition handle_config (console : Z) (req : list Z) : M (list Z) :=
  s ← st id;
  match strip_prefix req (str "set ") with
  | Some rest => if recovery s then mret (str "err: recovery mode is read-only") else set_config rest
  | None =>
  if bytes_eqb req (str "begin-update") then run_update console else
  if bytes_eqb req (str "install-app") then install_app else
  match strip_prefix req (str "remove-app ") with
  | Some name => remove_app (trim name)
  | None => mret (str "err: config?")
  end end.

(** One round of [serve]; [Err] is the exit of the process with that code. *)
Definition serve_round (console query config : Z) : M (result () Z) :=
  now ← sys Userlib.ticks;
  now2 ← sys Userlib.ticks;
  q ← sys (Userlib.recv_until query (wrap 64 (now2 + 100)));
  config_deadline ← match q with
    | Ok (_, words) =>
        reply ← handle_query (msg.unpack words);
        _ ← sys (Userlib.reply query (msg.pack reply));
        t ← sys Userlib.ticks; mret (Ok t)
    | Err e => mret (if e =? 10 then Ok (wrap 64 (now + 100)) else Err e)
    end;
  match config_deadline with
  | Err e => _ ← sys (Userlib.exit e); mret (Err e)
  | Ok deadline =>
      c ← sys (Userlib.recv_until config deadline);
      match c with
      | Ok (_, words) =>
          reply ← handle_config console (msg.unpack words);
          _ ← sys (Userlib.reply config (msg.pack reply)); mret (Ok ())
      | Err e => if e =? 10 then mret (Ok ()) else _ ← sys (Userlib.exit e); mret (Err e)
      end
  end.

(** The first [n] rounds of the endless loop. *)
Fixpoint serve (n : nat) (console query config : Z) : M (result () Z) :=
  match n with
  | O => mret (Ok ())
  | S n => r ← serve_round console query config; match r with Ok _ => serve n console query config | Err e => mret (Err e) end
  end.

(** [main] up to the serve loop. *)
Definition start (console : Z) (pk : list Z) (w : W) : option (() * Sd) :=
  match (_ ← Userlib.set_name (str "storaged"); probe_block_cap) w with
  | None => None
  | Some (blk, w) =>
      (_ ← say console (str "[storaged] starting" ++ [NL]);
       match blk with
       | Some cap => mount cap console
       | None => say console (str "[storaged] no block capability: RECOVERY mode" ++ [NL])
       end) (mkSd (initial blk pk) (replicate (Z.to_nat PAYLOAD_CAP) 0) w)
  end.

End service.
End Storaged.
