(* ===== verification/StorageEnv.v ===== *)
(** * What the storage service relies on from the kernel

    [Volume] is the contract of the system calls storaged makes, as a type
    class over [Abi]: what the volume holds, which sectors other tasks can
    write, whether the disk is free of faults, the clock.  It is what the
    kernel side of this development establishes of [block_io], [sys_cap_derive],
    [sys_task_spawn] and [sys_wait]: a write changes only the sectors named, a
    failed one may leave anything in those; every other call changes only
    sectors some other task may write; a child writes only through the windows
    it was granted and not after it was collected.

    [on b D F w] is the assertion the proofs carry: the volume holds [D]
    outside [F], only sectors of [F] can be written by others, and when [b] no
    transfer fails. *)

From S2P Require Import Prelude RustStd Layout Prog Userlib StorageText Storaged.
Import Layout.

Definition VOLUME_SECTORS : Z := 32768.

Definition sector_ok (s : list Z) : Prop := length s = SECTOR /\ bytes_ok s.

Definition disk_read (D : Z -> list Z) (lba n : Z) : list Z := concat (D <$> seqZ lba n).

Definition has_write (mask : Z) : Prop := Z.land mask R_WRITE <> 0.

Class Volume (W : Type) `{Abi W} := {
  sector : W -> Z -> list Z;
  foreign : W -> Z -> Z -> Prop;   (* the sectors a task other than this one can write *)
  writable : W -> Z -> Z -> Prop;  (* the sectors a capability slot of this task can write *)
  reliable : W -> Prop;
  clock : W -> Z;
  kids : W -> nat;                 (* children not yet collected *)

  law_sector w k : sector_ok (sector w k);
  law_clock w : 0 <= clock w < 2 ^ 62;

  law_read lba n buf w : 1 <= n <= 8 -> (Z.to_nat n * SECTOR <= length buf)%nat ->
    let '(r, buf', w') := raw_full Sys.SYS_BLOCK_READ [Word 3; Word lba; Word n; Out buf; Word 0; Word 0] w in
    length buf' = length buf /\ (bytes_ok buf -> bytes_ok buf') /\
    (rax r = 0 -> buf' = disk_read (sector w') lba n ++ drop (Z.to_nat n * SECTOR) buf) /\
    (reliable w -> 0 <= lba -> lba + n <= VOLUME_SECTORS -> rax r = 0);

  law_write lba n buf w : 1 <= n <= 8 -> length buf = (Z.to_nat n * SECTOR)%nat -> bytes_ok buf ->
    let '(r, _, w') := raw_full Sys.SYS_BLOCK_WRITE [Word 3; Word lba; Word n; In buf; Word 0; Word 0] w in
    (forall k, ~ (lba <= k < lba + n) -> (forall t, ~ foreign w t k) -> sector w' k = sector w k) /\
    (rax r = 0 -> forall k, lba <= k < lba + n -> (forall t, ~ foreign w t k) ->
       sector w' k = slice (Z.to_nat (k - lba) * SECTOR) SECTOR buf) /\
    (reliable w -> 0 <= lba -> lba + n <= VOLUME_SECTORS -> rax r = 0);

  law_other n args w : n <> Sys.SYS_BLOCK_WRITE ->
    forall k, (forall t, ~ foreign w t k) -> sector (snd (raw_full n args w)) k = sector w k;

  law_foreign n args w t k : n <> Sys.SYS_TASK_SPAWN ->
    foreign (snd (raw_full n args w)) t k -> foreign w t k;

  law_writable n args w s k : n <> Sys.SYS_CAP_DERIVE ->
    writable (snd (raw_full n args w)) s k -> writable w s k;

  law_reliable n args w : reliable w -> reliable (snd (raw_full n args w));

  law_time n args w : clock w <= clock (snd (raw_full n args w));

  law_kids n args w : n <> Sys.SYS_TASK_SPAWN -> (kids (snd (raw_full n args w)) <= kids w)%nat;

  law_kids_bound w : (kids w <= 4095)%nat;  (* the kernel-stack slots *)

  law_derive slot mask lba n w s k :
    let '(r, _, w') := raw_full Sys.SYS_CAP_DERIVE [Word slot; Word mask; Word lba; Word n; Word 0; Word 0] w in
    writable w' s k ->
    if (rax r =? 0) && (s =? ra0 r) then has_write mask /\ lba <= k < lba + n else writable w s k;

  law_slot n args w : fits 64 (ra0 (fst (fst (raw_full n args w))));  (* a register *)

  law_spawn elf grants w t k : Forall (fun g => fits 64 (fst g) /\ fits 64 (snd g)) grants ->
    let '(r, _, w') := raw_full Sys.SYS_TASK_SPAWN [In elf; Word (Z.of_nat (length elf)); In (Userlib.spawn_spec grants);
      Word (Z.of_nat (length (Userlib.spawn_spec grants)) / 8); Word 0; Word 0] w in
    (kids w' <= S (kids w))%nat /\
    (foreign w' t k -> foreign w t k \/
       rax r = 0 /\ t = ra0 r /\ exists s mask, (s, mask) ∈ grants /\ has_write mask /\ writable w s k);

  law_wait flag w t k :
    let '(r, _, w') := raw_full Sys.SYS_WAIT [Word flag; Word 0; Word 0; Word 0; Word 0; Word 0] w in
    rax r = 0 -> (kids w' < kids w)%nat /\ (foreign w' t k -> t <> ra0 r);

  law_ticks w :
    let '(r, _, w') := raw_full Sys.SYS_TICKS [Word 0; Word 0; Word 0; Word 0; Word 0; Word 0] w in rax r = clock w';

  law_sleep n w :
    let '(r, _, w') := raw_full Sys.SYS_SLEEP [Word n; Word 0; Word 0; Word 0; Word 0; Word 0] w in
    rax r = 0 -> clock w + n <= clock w';
}.

(** A volume as a function from sectors to bytes, and a write to it. *)
Definition disk_write (lba n : Z) (buf : list Z) (D : Z -> list Z) : Z -> list Z := fun k =>
  if (lba <=? k) && (k <? lba + n) then slice (Z.to_nat (k - lba) * SECTOR) SECTOR buf else D k.

(** [D'] differs from [D] in the sectors of [X] only. *)
Definition same_except (X : Z -> Prop) (D D' : Z -> list Z) : Prop := forall k, ~ X k -> D' k = D k.
Definition within (lba n k : Z) : Prop := lba <= k < lba + n.

Lemma same_except_refl X D : same_except X D D.
Proof. done. Qed.

Lemma same_except_trans (X : Z -> Prop) D1 D2 D3 : same_except X D1 D2 -> same_except X D2 D3 -> same_except X D1 D3.
Proof. intros H1 H2 k Hk. rewrite H2 by done. by apply H1. Qed.

Lemma same_except_weaken (X Y : Z -> Prop) D D' : same_except X D D' -> (forall k, X k -> Y k) -> same_except Y D D'.
Proof. intros H HX k Hk. apply H. auto. Qed.

Lemma length_disk_read D lba n : (forall k, sector_ok (D k)) -> 0 <= n -> length (disk_read D lba n) = (Z.to_nat n * SECTOR)%nat.
Proof.
  intros HD Hn. unfold disk_read. replace (Z.to_nat n) with (length (seqZ lba n)) by apply length_seqZ.
  induction (seqZ lba n) as [|k l IH]; [done|]. cbn [fmap list_fmap concat length].
  rewrite length_app, (proj1 (HD k)). fold (D <$> l). rewrite IH. lia.
Qed.

Lemma disk_read_ok D lba n : (forall k, sector_ok (D k)) -> bytes_ok (disk_read D lba n).
Proof.
  intros HD. unfold disk_read. induction (seqZ lba n) as [|k l IH]; [constructor|].
  cbn [fmap list_fmap concat]. apply Forall_app. split; [apply HD|exact IH].
Qed.

Lemma disk_read_1 D lba : disk_read D lba 1 = D lba.
Proof.
  unfold disk_read. rewrite seqZ_cons by lia. replace (Z.pred 1) with 0 by lia. cbn. apply app_nil_r.
Qed.

Lemma disk_read_ext D D' lba n : (forall k, within lba n k -> D' k = D k) -> disk_read D' lba n = disk_read D lba n.
Proof.
  intros HD. unfold disk_read. f_equal. apply list_fmap_ext. intros i k Hk.
  apply HD. apply lookup_seqZ in Hk. red. lia.
Qed.

Lemma disk_read_app D lba n m : 0 <= n -> 0 <= m -> disk_read D lba (n + m) = disk_read D lba n ++ disk_read D (lba + n) m.
Proof. intros. unfold disk_read. by rewrite seqZ_app, fmap_app, concat_app. Qed.

Section on.
Context {W : Type} `{Volume W}.

Record on (b : bool) (D : Z -> list Z) (F : Z -> Prop) (w : W) : Prop := {
  on_ok : forall k, sector_ok (D k);
  on_disk : forall k, ~ F k -> sector w k = D k;
  on_foreign : forall t k, foreign w t k -> F k;
  on_reliable : b = true -> reliable w;
}.

Definition nobody (_ : Z) : Prop := False.

(** A call that is neither a write nor a spawn. *)
Lemma on_call b D F n args w :
  n <> Sys.SYS_BLOCK_WRITE -> n <> Sys.SYS_TASK_SPAWN -> on b D F w -> on b D F (snd (raw_full n args w)).
Proof.
  intros Hn Hs [Hk Hd Hf Hr]. split; [done|..].
  - intros k Hk'. rewrite law_other; [by apply Hd|done|]. intros t Ht. apply Hk'. by eapply Hf.
  - intros t k Ht. apply law_foreign in Ht; [|done]. by eapply Hf.
  - intros Hb. by apply law_reliable, Hr.
Qed.

Lemma wp_trap b D F n args Q w :
  n <> Sys.SYS_BLOCK_WRITE -> n <> Sys.SYS_TASK_SPAWN -> on b D F w ->
  (forall r buf w', raw_full n args w = (r, buf, w') -> on b D F w' -> Q (r, buf) w') -> wp (Userlib.trap n args) Q w.
Proof.
  intros Hn Hs Ho HQ. unfold Userlib.trap, wp. pose proof (on_call b D F n args w Hn Hs Ho) as H2.
  destruct (raw_full n args w) as [[r buf] w'] eqn:E. by apply HQ.
Qed.

Lemma wp_block_read b D F lba n buf Q w :
  on b D F w -> 1 <= n <= 8 -> (Z.to_nat n * SECTOR <= length buf)%nat -> bytes_ok buf ->
  (forall r buf' w', on b D F w' -> length buf' = length buf -> bytes_ok buf' ->
     (Storaged.is_ok r = true -> (forall k, within lba n k -> ~ F k) -> buf' = disk_read D lba n ++ drop (Z.to_nat n * SECTOR) buf) ->
     (b = true -> 0 <= lba -> lba + n <= VOLUME_SECTORS -> Storaged.is_ok r = true) -> Q (r, buf') w') ->
  wp (Userlib.block_read 3 lba n buf) Q w.
Proof.
  intros Ho Hn Hl Hb HQ. unfold Userlib.block_read, Userlib.block_guard.
  rewrite (proj2 (Z.ltb_ge _ _)), (proj2 (Z.ltb_ge _ _)), (proj2 (Z.eqb_neq _ _)) by (unfold SECTOR in *; lia). cbn [orb].
  apply wp_bind. eapply wp_trap; [done|done|exact Ho|]. intros r buf' w' E Ho'. apply wp_ret.
  pose proof (law_read lba n buf w Hn Hl) as HL. rewrite E in HL. destruct HL as (L1 & L2 & L3 & L4).
  unfold Userlib.decode. apply HQ; [done|done|by apply L2|..].
  - destruct (Z.eqb_spec (rax r) 0) as [E0|]; [|done]. intros _ HF. rewrite (L3 E0). f_equal.
    apply disk_read_ext. intros k Hk. apply (on_disk b D F w' Ho'). by apply HF.
  - intros -> H1 H2. rewrite (L4 (on_reliable _ _ _ _ Ho eq_refl) H1 H2). done.
Qed.

Lemma wp_block_write b D F lba n buf Q w :
  on b D F w -> 1 <= n <= 8 -> length buf = (Z.to_nat n * SECTOR)%nat -> bytes_ok buf ->
  (forall r D' w', on b D' F w' -> same_except (within lba n) D D' ->
     (Storaged.is_ok r = true -> forall k, D' k = disk_write lba n buf D k) ->
     (b = true -> 0 <= lba -> lba + n <= VOLUME_SECTORS -> Storaged.is_ok r = true) -> Q r w') ->
  wp (Userlib.block_write 3 lba n buf) Q w.
Proof.
  intros Ho Hn Hl Hb HQ. unfold Userlib.block_write, Userlib.block_guard.
  rewrite (proj2 (Z.ltb_ge _ _)), (proj2 (Z.ltb_ge _ _)), (proj2 (Z.eqb_neq _ _)) by (unfold SECTOR in *; lia). cbn [orb].
  apply wp_bind. unfold Userlib.trap, wp at 1.
  pose proof (law_write lba n buf w Hn Hl Hb) as HL. set (args := [_; _; _; _; _; _]) in *.
  pose proof (law_foreign Sys.SYS_BLOCK_WRITE args w) as HF. pose proof (law_reliable Sys.SYS_BLOCK_WRITE args w) as HR.
  destruct (raw_full _ args w) as [[r buf'] w']. destruct HL as (L1 & L2 & L3). simpl in HF, HR. apply wp_ret.
  assert (Hnf : forall k, ~ F k -> forall t, ~ foreign w t k) by (intros k Hk t Ht; apply Hk; by eapply on_foreign).
  set (inr := fun k => (lba <=? k) && (k <? lba + n)).
  assert (Hin : forall k, inr k = true <-> within lba n k) by (intros k; unfold inr, within; rewrite andb_true_iff, Z.leb_le, Z.ltb_lt; lia).
  assert (Hin' : forall k, inr k = false -> ~ within lba n k) by (intros k E Hw; apply Hin in Hw; congruence).
  assert (Hs : forall k, sector_ok (slice (Z.to_nat (k - lba) * SECTOR) SECTOR buf) \/ ~ within lba n k).
  { intros k. destruct (inr k) eqn:E; [left|right; by apply Hin']. apply Hin in E. unfold within in E. split.
    - apply length_slice. rewrite Hl. unfold SECTOR. lia.
    - by apply Forall_take, Forall_drop. }
  unfold Userlib.decode. destruct (Z.eqb_spec (rax r) 0) as [E0|E0].
  - apply (HQ _ (disk_write lba n buf D)); [split| |done|done].
    + intros k. unfold disk_write. fold (inr k). destruct (inr k) eqn:E; [|apply Ho]. destruct (Hs k) as [|Hw]; [done|]. by apply Hin in E.
    + intros k Hk. unfold disk_write. fold (inr k). destruct (inr k) eqn:E.
      * apply L2; [done|by apply Hin|by apply Hnf].
      * rewrite L1; [by apply (on_disk _ _ _ _ Ho)|by apply Hin'|by apply Hnf].
    + intros t k Ht. apply HF in Ht; [|done]. by eapply on_foreign.
    + intros Hb'. by apply HR, (on_reliable _ _ _ _ Ho).
    + intros k Hk. unfold disk_write. fold (inr k). destruct (inr k) eqn:E; [|done]. by apply Hin in E.
  - apply (HQ _ (fun k => if inr k then sector w' k else D k)); [split| |done|].
    + intros k. destruct (inr k); [apply law_sector|apply Ho].
    + intros k Hk. destruct (inr k) eqn:E; [done|]. rewrite L1; [by apply (on_disk _ _ _ _ Ho)|by apply Hin'|by apply Hnf].
    + intros t k Ht. apply HF in Ht; [|done]. by eapply on_foreign.
    + intros Hb'. by apply HR, (on_reliable _ _ _ _ Ho).
    + intros k Hk. destruct (inr k) eqn:E; [|done]. by apply Hin in E.
    + intros -> H1 H2. by rewrite (L3 (on_reliable _ _ _ _ Ho eq_refl) H1 H2) in E0.
Qed.
End on.
