(* ===== verification/StorageLoad.v ===== *)
(** * Reading and authenticating images (storaged's validation loops)

    Rules for the I/O helpers of the service over the contract of
    [StorageEnv], and what [validate_and_load] and [validate_and_load_app]
    compute: exactly the pure functions [slot_content] and [app_content] of the
    volume, when no transfer fails. *)

From S2P Require Import Prelude RustStd HashStream Sha256 Hmac ChaCha20 Ed25519 Ed25519Sign Layout LayoutTheorems Prog Userlib StorageText Storaged StorageEnv.
Import Layout Storaged.

#[local] Opaque Ed25519.verify Sha256.sha256 Hmac.reference Hmac.finalize Hmac.new Hmac.update ChaCha20.xor_stream.

Lemma le_words_ok n l : bytes_ok (concat (to_le_bytes n <$> l)).
Proof. induction l as [|x l IH]; cbn [fmap list_fmap concat]; [constructor|]. apply Forall_app. split; [apply to_le_bytes_ok|exact IH]. Qed.

Lemma keystream_ok key nonce n : forall ctr, bytes_ok (ChaCha20.keystream key ctr nonce n).
Proof.
  induction n as [|n IH]; intros ctr; cbn [ChaCha20.keystream]; [constructor|]. apply Forall_app. split; [|apply IH].
  apply le_words_ok.
Qed.

Lemma lxor_byte a b : is_byte a -> is_byte b -> is_byte (Z.lxor a b).
Proof.
  unfold is_byte. intros Ha Hb. split; [by apply Z.lxor_nonneg; lia|].
  destruct (Z.eq_dec (Z.lxor a b) 0) as [->|Hn]; [lia|]. apply Z.log2_lt_cancel.
  assert (0 <= Z.lxor a b) by (apply Z.lxor_nonneg; lia). assert (Z.log2 (Z.lxor a b) <= Z.max (Z.log2 a) (Z.log2 b)) by (apply Z.log2_lxor; lia).
  assert (Z.log2 a <= 7) by (destruct (Z.eq_dec a 0) as [->|]; [done|]; apply Z.lt_succ_r, Z.log2_lt_pow2; lia).
  assert (Z.log2 b <= 7) by (destruct (Z.eq_dec b 0) as [->|]; [done|]; apply Z.lt_succ_r, Z.log2_lt_pow2; lia).
  change (Z.log2 256) with 8. lia.
Qed.

Lemma xor_stream_ok key ctr nonce data : bytes_ok data -> bytes_ok (ChaCha20.xor_stream key ctr nonce data).
Proof.
  intros Hd. rewrite (ChaCha20.xor_stream_keystream _ _ _ _ (length data)) by lia.
  pose proof (keystream_ok key nonce (length data) ctr) as Hk. revert Hk.
  generalize (ChaCha20.keystream key ctr nonce (length data)). induction Hd as [|x d Hx Hd IH]; intros [|k ks] Hk; simpl; constructor.
  - apply lxor_byte; [done|]. by inversion Hk.
  - apply IH. by inversion Hk.
Qed.

(** ** Splices at a growing offset *)

Lemma take_splice {A} off (src l : list A) : (off <= length l)%nat -> take (off + length src) (splice off src l) = take off l ++ src.
Proof.
  intros. unfold splice. rewrite app_assoc. apply take_app_length'. rewrite length_app, length_take. lia.
Qed.

Lemma take_splice_le {A} n off (src l : list A) : (n <= off <= length l)%nat -> take n (splice off src l) = take n l.
Proof. intros. unfold splice. rewrite take_app_le by (rewrite length_take; lia). rewrite take_take. f_equal. lia. Qed.

Lemma splice_ok off src l : bytes_ok src -> bytes_ok l -> bytes_ok (splice off src l).
Proof. intros. unfold splice. rewrite !Forall_app. split; [by apply Forall_take|]. split; [done|by apply Forall_drop]. Qed.

Definition WS_LEN : nat := Z.to_nat PAYLOAD_CAP.
Definition ws_ok (ws : list Z) : Prop := length ws = WS_LEN /\ bytes_ok ws.

Lemma WS_LEN_Z : Z.of_nat WS_LEN = 512000.
Proof. unfold WS_LEN. rewrite Z2Nat.id by done. done. Qed.

#[global] Opaque WS_LEN.

Lemma ws_ok_splice off src ws : ws_ok ws -> (off + length src <= WS_LEN)%nat -> bytes_ok src -> ws_ok (splice off src ws).
Proof. intros [Hl Hb] Ho Hs. split; [rewrite length_splice; lia|by apply splice_ok]. Qed.

(** ** Consecutive sectors *)

Lemma drop_disk_read D lba i n : (forall k, sector_ok (D k)) -> 0 <= i <= n ->
  drop (Z.to_nat i * SECTOR) (disk_read D lba n) = disk_read D (lba + i) (n - i).
Proof.
  intros HD Hi. replace n with (i + (n - i)) at 1 by lia. rewrite disk_read_app by lia.
  rewrite drop_app_length'; [done|]. rewrite length_disk_read by (done || lia). done.
Qed.

(** A transfer continues the image where the previous one stopped. *)
Lemma take_disk_read D lba N len i k n : (forall k, sector_ok (D k)) ->
  0 <= i -> 0 <= k -> i + k <= N -> (n <= Z.to_nat k * SECTOR)%nat -> (Z.to_nat i * SECTOR + n <= len)%nat ->
  take (Z.to_nat i * SECTOR + n) (take len (disk_read D lba N)) =
    take (Z.to_nat i * SECTOR) (take len (disk_read D lba N)) ++ take n (disk_read D (lba + i) k).
Proof.
  intros HD Hi Hk HN Hn Hl. rewrite !take_take, !Nat.min_l by lia. rewrite <- take_take_drop. f_equal.
  rewrite drop_disk_read by (done || lia). replace (N - i) with (k + (N - i - k)) by lia.
  rewrite disk_read_app by lia. apply take_app_le. rewrite length_disk_read by done. done.
Qed.

(** ** The state of a loading loop *)

(** [h] has absorbed [data] under [key]. *)
Definition mac_of (key data : list Z) (h : Hmac.HmacSha256) : Prop :=
  exists pieces, h = foldl Hmac.update (Hmac.new key) pieces /\ concat pieces = data.

Lemma mac_of_new key data : mac_of key data (Hmac.update (Hmac.new key) data).
Proof. exists [data]. simpl. by rewrite app_nil_r. Qed.

Lemma mac_of_update key data more h : mac_of key data h -> mac_of key (data ++ more) (Hmac.update h more).
Proof. intros (ps & -> & <-). exists (ps ++ [more]). rewrite foldl_app, concat_app. simpl. by rewrite app_nil_r. Qed.

Lemma mac_of_finalize key data h : mac_of key data h -> Hmac.finalize h = Some (Hmac.oneshot key data).
Proof. intros (ps & -> & <-). by rewrite Hmac.hmac_finalize_updates, Hmac.oneshot_reference. Qed.

(** After [done] bytes of the ciphertext [ct], when [clean] (no other task
    writes those sectors): the workspace holds their decryption. *)
Record loading (clean : Prop) (key nonce pre ct : list Z) (done : nat) (ws : list Z) (h : Hmac.HmacSha256) : Prop := {
  ld_some : exists data, mac_of key data h;
  ld_mac : clean -> mac_of key (pre ++ take done ct) h;
  ld_plain : clean -> take done ws = ChaCha20.xor_stream key 0 nonce (take done ct);
}.

Lemma loading_start clean key nonce pre ct ws : loading clean key nonce pre ct 0 ws (Hmac.update (Hmac.new key) pre).
Proof. split; [eexists; apply mac_of_new|..]; intros _; rewrite !take_0; [rewrite app_nil_r; apply mac_of_new|done]. Qed.

Lemma loading_step clean key nonce pre ct i n buf ws h :
  loading clean key nonce pre ct (64 * i) ws h -> (64 * i + length buf <= length ws)%nat -> (n <= length buf)%nat ->
  Z.of_nat i < 2 ^ 32 -> (64 * i <= length ct)%nat ->
  (clean -> take (64 * i + n) ct = take (64 * i) ct ++ take n buf) ->
  loading clean key nonce pre ct (64 * i + n)
    (splice (64 * i) (ChaCha20.xor_stream key (wrap 32 (Z.of_nat (64 * i / 64))) nonce (take n buf)) (splice (64 * i) buf ws))
    (Hmac.update h (take n buf)).
Proof.
  intros [[data Hs] Hm Hp] Hl Hn Hi Hct Hc. split.
  - exists (data ++ take n buf). by apply mac_of_update.
  - intros Hcl. rewrite Hc by done. rewrite app_assoc. by apply mac_of_update, Hm.
  - intros Hcl. rewrite Hc by done.
    assert (Ht : length (take n buf) = n) by (rewrite length_take; lia).
    rewrite <- (ChaCha20.length_xor_stream key (wrap 32 (Z.of_nat (64 * i / 64))) nonce) in Ht.
    rewrite <- Ht at 1. rewrite take_splice by (rewrite length_splice; lia).
    rewrite take_splice_le by lia. rewrite Hp by done.
    rewrite (ChaCha20.xor_stream_app key nonce i 0) by ((red; lia) || (rewrite length_take; lia)).
    f_equal. f_equal. rewrite Nat.mul_comm, Nat.div_mul by lia. unfold add32. by rewrite Z.add_0_l.
Qed.

(** ** What a slot holds *)

Definition slot_ct (D : Z -> list Z) (slot : SlotId) (len : nat) : list Z :=
  take len (disk_read D (payload_lba slot) SLOT_PAYLOAD_SECTORS).

(** The slot's header is valid, its tag and digest match and its payload is
    signed by [pk]. *)
Definition slot_holds (D : Z -> list Z) (key pk : list Z) (slot : SlotId) (plain : list Z) (gen : Z) : Prop :=
  exists hdr, parse_slot_header (D (hdr_lba slot)) = Some hdr /\ sh_state hdr = SLOT_STATE_VALID /\ sh_generation hdr = gen /\
    let len := Z.to_nat (sh_payload_len hdr) in let ct := slot_ct D slot len in
    (0 < len)%nat /\ Z.of_nat len <= PAYLOAD_CAP /\ slot_mac_ok key (D (hdr_lba slot)) ct = true /\
    plain = ChaCha20.xor_stream key 0 (seal_nonce gen) ct /\ Sha256.sha256 plain = sh_payload_sha hdr /\
    Ed25519.verify pk plain (sh_signature hdr) = Some (Ok tt).

Definition slot_region (slot : SlotId) : Z -> Prop := within (hdr_lba slot) (payload_lba slot - hdr_lba slot + SLOT_PAYLOAD_SECTORS).

Lemma slot_holds_unique D key pk slot p1 g1 p2 g2 :
  slot_holds D key pk slot p1 g1 -> slot_holds D key pk slot p2 g2 -> p1 = p2 /\ g1 = g2.
Proof.
  intros (h1 & E1 & _ & <- & _ & _ & _ & -> & _) (h2 & E2 & _ & <- & _ & _ & _ & -> & _).
  rewrite E1 in E2. injection E2 as ->. done.
Qed.

(** What a slot holds depends on its own sectors. *)
Lemma slot_holds_ext D D' key pk slot plain gen :
  (forall k, slot_region slot k -> D' k = D k) -> slot_holds D key pk slot plain gen -> slot_holds D' key pk slot plain gen.
Proof.
  intros HD. unfold slot_holds, slot_ct. assert (Eh : D' (hdr_lba slot) = D (hdr_lba slot)).
  { apply HD. unfold slot_region, within. destruct slot; vm_compute; split; congruence. }
  assert (Ep : disk_read D' (payload_lba slot) SLOT_PAYLOAD_SECTORS = disk_read D (payload_lba slot) SLOT_PAYLOAD_SECTORS).
  { apply disk_read_ext. intros k Hk. apply HD. unfold slot_region, within in *.
    change SLOT_PAYLOAD_SECTORS with 1000 in *.
    destruct slot; cbn [hdr_lba payload_lba] in *;
      unfold SLOT_A_HDR_LBA, SLOT_A_PAYLOAD_LBA, SLOT_B_HDR_LBA, SLOT_B_PAYLOAD_LBA in *; lia. }
  by rewrite Eh, Ep.
Qed.

Definition keys_ok (key pk : list Z) : Prop := bytes_ok pk /\ length pk = 32%nat.

Lemma verify_returns pk msg sig : bytes_ok pk -> length pk = 32%nat -> bytes_ok sig -> length sig = 64%nat ->
  exists v, Ed25519.verify pk msg sig = Some v.
Proof. intros H1 H2 H3 H4. destruct (verify_cases pk msg sig H1 H2 H3 H4) as [(E & _)|[(E & _)|(E & _)]]; eauto. Qed.

Lemma le_field_fits off len sec : bytes_ok sec -> (off + len <= length sec)%nat -> fits (8 * Z.of_nat len) (le_field off len sec).
Proof.
  intros Hb Hl. unfold le_field, fits. pose proof (from_le_bound (slice off len sec)) as Hf.
  rewrite length_slice in Hf by done. rewrite Z.pow_mul_r by lia. apply Hf. by apply Forall_take, Forall_drop.
Qed.

Lemma slot_header_fields sec hdr : sector_ok sec -> parse_slot_header sec = Some hdr ->
  bytes_ok (sh_signature hdr) /\ length (sh_signature hdr) = 64%nat /\ fits 64 (sh_generation hdr) /\ fits 32 (sh_payload_len hdr).
Proof.
  intros [Hl Hb]. unfold parse_slot_header. rewrite Hl. intros E.
  destruct (_ || _); [done|]. destruct (from_num _); [|done]. destruct (_ <? _); [done|]. injection E as <-. cbn [sh_signature sh_generation sh_payload_len].
  split; [by apply Forall_take, Forall_drop|]. split; [apply length_slice; rewrite Hl; unfold HDR_SIG_OFF, SECTOR; lia|].
  split; [apply (le_field_fits 16 8)|apply (le_field_fits 24 4)]; try done; rewrite Hl; unfold SECTOR; lia.
Qed.

(** ** What an application slot holds *)

Definition app_lba (slot : Z) : Z := APP_START_LBA + slot * APP_SLOT_SECTORS.
Definition app_region (slot : Z) : Z -> Prop := within (app_lba slot) APP_SLOT_SECTORS.
Definition app_ct (D : Z -> list Z) (slot : Z) (len : nat) : list Z := take len (disk_read D (app_lba slot + 1) (APP_SLOT_SECTORS - 1)).

(** An entry of the application table: what its fields may be. *)
Record entry_wf (e : AppEntry) : Prop := {
  ew_slot : 0 <= ae_slot e < APP_SLOTS;
  ew_name : length (ae_name e) = APP_NAME_MAX;
  ew_name_len : (ae_name_len e <= APP_NAME_MAX)%nat;
  ew_valid : app_name_valid (entry_name e) = true;
  ew_payload : 0 < ae_payload_len e <= APP_PAYLOAD_CAP;
  ew_version : fits 64 (ae_version e);
  ew_sha : length (ae_payload_sha e) = 32%nat /\ bytes_ok (ae_payload_sha e);
  ew_signature : length (ae_signature e) = 64%nat /\ bytes_ok (ae_signature e);
}.

(** The slot of [e] holds the program [e] describes: header and ciphertext
    tagged, digest right, name, version, length and digest signed by [pk]. *)
Definition app_holds (D : Z -> list Z) (key pk : list Z) (e : AppEntry) (plain : list Z) : Prop :=
  exists hdr, parse_app_header (D (app_lba (ae_slot e))) = Some hdr /\ e = app_entry_from_header hdr /\
    app_name_valid (entry_name e) = true /\
    let ct := app_ct D (ae_slot e) (Z.to_nat (ae_payload_len e)) in
    app_header_mac_ok key (D (app_lba (ae_slot e))) ct = true /\
    plain = ChaCha20.xor_stream key 0 (app_nonce (ae_slot e) (ae_version e)) ct /\
    Sha256.sha256 plain = ae_payload_sha e /\
    Ed25519.verify pk (app_signing_message (entry_name e) (ae_version e) (ae_payload_len e) (ae_payload_sha e)) (ae_signature e)
      = Some (Ok tt).

Lemma app_lba_bounds slot : 0 <= slot < APP_SLOTS -> APP_START_LBA <= app_lba slot /\ app_lba slot + APP_SLOT_SECTORS <= STAGING_LBA.
Proof. unfold app_lba, APP_SLOTS, APP_START_LBA, APP_SLOT_SECTORS, STAGING_LBA. lia. Qed.

Lemma app_slot_lba_Some slot : 0 <= slot < APP_SLOTS -> app_slot_lba slot = Some (app_lba slot).
Proof. intros. unfold app_slot_lba. by rewrite (proj2 (Z.ltb_lt _ _)) by lia. Qed.

Lemma app_holds_ext D D' key pk e plain :
  (forall k, app_region (ae_slot e) k -> D' k = D k) -> app_holds D key pk e plain -> app_holds D' key pk e plain.
Proof.
  intros HD. unfold app_holds, app_ct. assert (Eh : D' (app_lba (ae_slot e)) = D (app_lba (ae_slot e))).
  { apply HD. unfold app_region, within, APP_SLOT_SECTORS. lia. }
  rewrite Eh, (disk_read_ext D D'); [done|]. intros k Hk. apply HD. unfold app_region, within, APP_SLOT_SECTORS in *. lia.
Qed.

Lemma byte_at_ok i sec : bytes_ok sec -> is_byte (byte_at i sec).
Proof.
  intros Hb. unfold byte_at. destruct (nth_in_or_default i sec 0) as [Hin| ->]; [|red; lia].
  rewrite Forall_forall in Hb. apply Hb. by apply list_elem_of_In.
Qed.

Lemma app_header_fields sec hdr : sector_ok sec -> parse_app_header sec = Some hdr ->
  app_name_valid (take (ah_name_len hdr) (ah_name hdr)) = true -> entry_wf (app_entry_from_header hdr).
Proof.
  intros [Hl Hb]. unfold parse_app_header. rewrite Hl. destruct (_ || _); [done|].
  destruct (negb _ || _) eqn:E1; [done|]. cbv zeta. destruct (_ || _ || _ || _) eqn:E2; [done|].
  intros [= <-] Hn. apply orb_false_iff in E1 as [_ E1]. bool_facts.
  pose proof (byte_at_ok 10 sec Hb) as B10. pose proof (byte_at_ok 11 sec Hb) as B11.
  pose proof (le_field_fits 12 4 sec Hb ltac:(rewrite Hl; unfold SECTOR; lia)) as F12.
  pose proof (le_field_fits 16 8 sec Hb ltac:(rewrite Hl; unfold SECTOR; lia)) as F16.
  unfold is_byte, fits in *. change (8 * Z.of_nat 8) with 64 in F16.
  unfold APP_HDR_NAME_OFF, APP_NAME_MAX, APP_HDR_SHA_OFF, APP_HDR_SIG_OFF, SECTOR in *.
  split; unfold entry_name, app_entry_from_header; cbn [ae_slot ae_name ae_name_len ae_payload_len ae_version ae_payload_sha ae_signature ah_slot ah_name
    ah_name_len ah_payload_len ah_version ah_payload_sha ah_signature] in *; try exact Hn.
  - unfold APP_SLOTS in *. lia.
  - unfold APP_NAME_MAX. apply length_slice. lia.
  - unfold APP_NAME_MAX. lia.
  - unfold APP_PAYLOAD_CAP, APP_SLOT_SECTORS in *. lia.
  - exact F16.
  - split; [apply length_slice; lia|by apply Forall_take, Forall_drop].
  - split; [apply length_slice; lia|by apply Forall_take, Forall_drop].
Qed.

Section load.
Context {W : Type} `{Volume W}.
Implicit Types (D : Z -> list Z) (F : Z -> Prop) (d : Sd (W := W)).

(** ** Rules *)

Lemma wp_sys {A} (m : prog W A) (Q : A -> Sd (W := W) -> Prop) s ws w :
  wp m (fun a w' => Q a (mkSd s ws w')) w -> wp (sys m) Q (mkSd s ws w).
Proof. intros. unfold sys. by apply wp_zoom. Qed.

Lemma wp_br b D F lba n buf Q s ws (w : W) :
  on b D F w -> 1 <= n <= 8 -> (Z.to_nat n * SECTOR <= length buf)%nat -> bytes_ok buf ->
  (forall ok buf' w', on b D F w' -> length buf' = length buf -> bytes_ok buf' ->
     (ok = true -> (forall k, within lba n k -> ~ F k) -> buf' = disk_read D lba n ++ drop (Z.to_nat n * SECTOR) buf) ->
     (b = true -> 0 <= lba -> lba + n <= VOLUME_SECTORS -> ok = true) -> Q (ok, buf') (mkSd s ws w')) ->
  wp (br 3 lba n buf) Q (mkSd s ws w).
Proof.
  intros Ho Hn Hl Hb HQ. unfold br. apply wp_bind, wp_sys. eapply wp_block_read; [done..|].
  intros r buf' w' Ho' Hl' Hb' Hc Hr. apply wp_ret. by apply HQ.
Qed.

(** A whole sector into a sector buffer. *)
Lemma wp_br1 b D F lba buf Q s ws (w : W) :
  on b D F w -> sector_ok buf ->
  (forall ok buf' w', on b D F w' -> sector_ok buf' -> (ok = true -> ~ F lba -> buf' = D lba) ->
     (b = true -> 0 <= lba < VOLUME_SECTORS -> ok = true) -> Q (ok, buf') (mkSd s ws w')) ->
  wp (br 3 lba 1 buf) Q (mkSd s ws w).
Proof.
  intros Ho [Hl Hb] HQ. eapply wp_br; [exact Ho|lia|rewrite Hl; unfold SECTOR; lia|done|].
  intros ok buf' w' Ho' Hl' Hb' Hc Hr. apply HQ; [done|split; [congruence|done]|..].
  - intros Hok HF. rewrite Hc, disk_read_1, drop_ge, app_nil_r; [done|rewrite Hl; done|done|].
    intros k Hk. red in Hk. by replace k with lba by lia.
  - intros Hb1 Hr1. apply Hr; [done|lia|lia].
Qed.

Lemma wp_bw b D F lba n buf Q s ws (w : W) :
  on b D F w -> 1 <= n <= 8 -> length buf = (Z.to_nat n * SECTOR)%nat -> bytes_ok buf ->
  (forall ok D' w', on b D' F w' -> same_except (within lba n) D D' ->
     (ok = true -> forall k, D' k = disk_write lba n buf D k) ->
     (b = true -> 0 <= lba -> lba + n <= VOLUME_SECTORS -> ok = true) -> Q ok (mkSd s ws w')) ->
  wp (bw 3 lba n buf) Q (mkSd s ws w).
Proof.
  intros Ho Hn Hl Hb HQ. unfold bw. apply wp_bind, wp_sys. eapply wp_block_write; [done..|].
  intros r D' w' Ho' Hs Hc Hr. apply wp_ret. by eapply HQ.
Qed.

Lemma wp_quiet_call {A} (f : Ret * list Z -> A) b D F n args (Q : A -> W -> Prop) w :
  n <> Sys.SYS_BLOCK_WRITE -> n <> Sys.SYS_TASK_SPAWN -> on b D F w ->
  (forall r buf w', raw_full n args w = (r, buf, w') -> on b D F w' -> Q (f (r, buf)) w') ->
  wp (rb ← Userlib.trap n args; mret (f rb)) Q w.
Proof.
  intros Hn Hs Ho HQ. apply wp_bind. eapply wp_trap; [done..|]. intros r buf w' E Ho'. apply wp_ret. by eapply HQ.
Qed.

Lemma wp_print_split b D F ep data (Q : bool -> W -> Prop) w :
  on b D F w -> (forall ok w', on b D F w' -> Q ok w') -> wp (Userlib.print_split ep data) Q w.
Proof.
  unfold Userlib.print_split. generalize (chunks 37 data). intros cs Ho HQ. revert w Ho.
  induction cs as [|c cs IH]; intros w Ho; cbn [Userlib.print_chunks].
  - apply wp_ret. by apply HQ.
  - apply wp_bind. unfold Userlib.call. apply wp_bind. eapply wp_trap; [done|done|exact Ho|].
    intros r buf w' E Ho'. apply wp_ret. destruct (Userlib.decode _ r); [by apply IH|]. apply wp_ret. by apply HQ.
Qed.

Lemma wp_say b D F con t (Q : () -> Sd (W := W) -> Prop) s ws w :
  on b D F w -> (forall w', on b D F w' -> Q () (mkSd s ws w')) -> wp (say con t) Q (mkSd s ws w).
Proof. intros Ho HQ. unfold say. apply wp_bind, wp_sys. eapply wp_print_split; [exact Ho|]. intros ok w' Ho'. apply wp_ret. by apply HQ. Qed.

Lemma wp_debug_write b D F t (Q : () -> Sd (W := W) -> Prop) s ws w :
  on b D F w -> (forall w', on b D F w' -> Q () (mkSd s ws w')) -> wp (debug_write t) Q (mkSd s ws w).
Proof.
  intros Ho HQ. unfold debug_write. apply wp_bind, wp_sys. unfold Userlib.debug_write. apply wp_bind.
  eapply wp_trap; [done|done|exact Ho|]. intros r buf w' E Ho'. apply wp_ret, wp_ret. by apply HQ.
Qed.

Lemma wp_ticks b D F (Q : Z -> Sd (W := W) -> Prop) s ws w :
  on b D F w -> (forall t w', on b D F w' -> clock w <= clock w' -> t = clock w' -> Q t (mkSd s ws w')) ->
  wp (sys Userlib.ticks) Q (mkSd s ws w).
Proof.
  intros Ho HQ. apply wp_sys. unfold Userlib.ticks. apply wp_bind. eapply wp_trap; [done|done|exact Ho|].
  intros r buf w' E Ho'. apply wp_ret. pose proof (law_time Sys.SYS_TICKS [Word 0; Word 0; Word 0; Word 0; Word 0; Word 0] w) as Ht.
  pose proof (law_ticks w) as Hk. rewrite E in Hk, Ht. by apply HQ.
Qed.

Lemma wp_br_at b D F lba sectors done Q s ws (w : W) :
  on b D F w -> (1 <= sectors <= 8)%nat -> ws_ok ws -> (done + sectors * SECTOR <= WS_LEN)%nat ->
  (forall ok buf w', on b D F w' -> length buf = (sectors * SECTOR)%nat -> bytes_ok buf ->
     (ok = true -> (forall k, within lba (Z.of_nat sectors) k -> ~ F k) -> buf = disk_read D lba (Z.of_nat sectors)) ->
     (b = true -> 0 <= lba -> lba + Z.of_nat sectors <= VOLUME_SECTORS -> ok = true) ->
     Q (ok, buf) (mkSd s (splice done buf ws) w')) ->
  wp (br_at 3 lba sectors done) Q (mkSd s ws w).
Proof.
  intros Ho Hs [Hl Hb] Hd HQ. unfold br_at, workspace. apply wp_bind, wp_gets. cbn [sd_ws].
  rewrite (proj2 (Nat.ltb_ge _ _)) by lia.
  assert (Hsl : length (slice done (sectors * SECTOR) ws) = (sectors * SECTOR)%nat) by (apply length_slice; lia).
  apply wp_bind. eapply wp_br; [exact Ho|lia|rewrite Hsl; lia|by apply Forall_take, Forall_drop|].
  intros ok buf w' Ho' Hl' Hb' Hc Hr. apply wp_bind. unfold fill_workspace. apply wp_modify. cbn [sd_st sd_env]. apply wp_ret.
  apply HQ; [done|congruence|done| |done].
  intros Hok HF. rewrite Hc, drop_ge, app_nil_r by (done || (rewrite Hsl; lia)). done.
Qed.

Lemma wp_absorb key nonce n done buf h (Q : Hmac.HmacSha256 -> Sd (W := W) -> Prop) s ws w :
  Q (Hmac.update h (take n buf))
    (mkSd s (splice done (ChaCha20.xor_stream key (wrap 32 (Z.of_nat (done / 64))) nonce (take n buf)) ws) w) ->
  wp (absorb_chunk key nonce n done buf h) Q (mkSd s ws w).
Proof. intros HQ. unfold absorb_chunk, workspace, fill_workspace. apply wp_bind, wp_gets, wp_bind, wp_modify, wp_ret. exact HQ. Qed.

(** ** The loops *)

(** Sector [8 * j] of an image, and the transfer there. *)
Lemma transfer_spec len j n sectors : transfer len (4096 * j) = (n, sectors) -> (4096 * j < len)%nat -> (len <= WS_LEN)%nat ->
  (n = Nat.min (len - 4096 * j) 4096 /\ n <= sectors * SECTOR /\ 1 <= sectors <= 8 /\ 4096 * j + sectors * SECTOR <= WS_LEN /\
   8 * j + sectors <= 1000)%nat /\ (4096 * j + n = Nat.min len (4096 * S j))%nat.
Proof.
  pose proof WS_LEN_Z as HW. unfold transfer, SECTOR. intros E Hlt Hl. apply pair_equal_spec in E as [En Es].
  change (8 * 512)%nat with 4096%nat in En, Es. rewrite En in Es.
  pose proof (Nat.div_mod (n + 512 - 1) 512 ltac:(lia)) as Hd.
  pose proof (Nat.mod_upper_bound (n + 512 - 1) 512 ltac:(lia)). rewrite Es in Hd. lia.
Qed.

Section loop.
Context (b : bool) (D : Z -> list Z) (F : Z -> Prop) (key nonce pre : list Z) (s : State) (lba0 N : Z) (len : nat).
Let ct := take len (disk_read D lba0 N).
Let clean : Prop := forall k, within lba0 N k -> ~ F k.
Context (Hbase : 0 <= lba0) (Hend : lba0 + N <= VOLUME_SECTORS) (HlenN : Z.of_nat len <= 512 * N) (HlenW : (len <= WS_LEN)%nat).

Definition loaded (r : option Hmac.HmacSha256) (d : Sd (W := W)) : Prop := exists ws w,
  d = mkSd s ws w /\ on b D F w /\ ws_ok ws /\
  match r with Some h => loading clean key nonce pre ct len ws h | None => b = false end.

(** One transfer, whatever the loop does around it. *)
Lemma wp_transfer {A} (K : bool * list Z -> prog (Sd (W := W)) A) (Q : A -> Sd (W := W) -> Prop) j lba n sectors h ws (w : W) :
  transfer len (4096 * j) = (n, sectors) -> (4096 * j < len)%nat -> lba = lba0 + 8 * Z.of_nat j ->
  on b D F w -> ws_ok ws -> loading clean key nonce pre ct (4096 * j) ws h ->
  (forall buf ws' w', on b D F w' -> ws_ok ws' -> b = false -> wp (K (false, buf)) Q (mkSd s ws' w')) ->
  (forall buf ws' w',
     (forall R : Hmac.HmacSha256 -> Sd (W := W) -> Prop, (forall h' ws'', ws_ok ws'' -> loading clean key nonce pre ct (4096 * j + n) ws'' h' -> R h' (mkSd s ws'' w')) ->
        wp (absorb_chunk key nonce n (4096 * j) buf h) R (mkSd s ws' w')) ->
     on b D F w' -> wp (K (true, buf)) Q (mkSd s ws' w')) ->
  wp (r ← br_at 3 lba sectors (4096 * j); K r) Q (mkSd s ws w).
Proof.
  intros E Hlt -> Ho Hws Hld Hf Hk. destruct (transfer_spec len j n sectors E Hlt HlenW) as [(En & Hn & Hs & Hfit & H1000) Hnext].
  unfold VOLUME_SECTORS, SECTOR in *. assert (HN : 8 * Z.of_nat j + Z.of_nat sectors <= N).
  { unfold transfer in E. apply pair_equal_spec in E as [E1 E2]. rewrite E1 in E2. unfold SECTOR in E2.
    pose proof (Nat.div_mod (n + 512 - 1) 512 ltac:(lia)) as Hd. rewrite E2 in Hd. lia. }
  apply wp_bind. eapply wp_br_at; [exact Ho|exact Hs|exact Hws|exact Hfit|].
  intros ok buf w' Ho' Hlb Hbb Hc Hr. unfold SECTOR in Hlb.
  assert (Hws' : ws_ok (splice (4096 * j) buf ws)) by (apply ws_ok_splice; [done|lia|done]).
  destruct ok; cycle 1.
  { apply Hf; [done|done|]. destruct b; [|done]. unfold VOLUME_SECTORS in Hr. discriminate (Hr eq_refl ltac:(lia) ltac:(lia)). }
  apply Hk; [|done]. intros R HR. apply wp_absorb. apply HR.
  - apply ws_ok_splice; [done|rewrite ChaCha20.length_xor_stream, length_take; lia|apply xor_stream_ok; by apply Forall_take].
  - replace (4096 * j)%nat with (64 * (64 * j))%nat in * by lia.
    pose proof (on_ok b D F w Ho) as HD. destruct Hws as [Hwl Hwb]. apply loading_step; [done|lia|lia|pose proof WS_LEN_Z; lia|..].
    + unfold ct. rewrite length_take, length_disk_read by (done || lia). unfold SECTOR. lia.
    + intros Hcl. rewrite Hc; [|done|intros k Hw; apply Hcl; unfold within in *; lia].
      replace (64 * (64 * j))%nat with (Z.to_nat (8 * Z.of_nat j) * SECTOR)%nat by (unfold SECTOR; lia).
      apply take_disk_read; [done|lia|lia|lia|unfold SECTOR; lia|unfold SECTOR; lia].
Qed.

Lemma wp_load_slot fuel : forall j lba done h ws (w : W),
  done = Nat.min len (4096 * j) -> ((done < len)%nat -> lba = lba0 + 8 * Z.of_nat j) ->
  (1 <= fuel)%nat -> (len <= 4096 * (j + fuel - 1))%nat ->
  on b D F w -> ws_ok ws -> loading clean key nonce pre ct done ws h ->
  wp (load_slot fuel 3 key nonce len lba done h) loaded (mkSd s ws w).
Proof.
  induction fuel as [|fuel IH]; intros j lba done h ws w Hd Hlba Hf Hlen Ho Hws Hld; [lia|]. cbn [load_slot].
  destruct (Nat.ltb_spec done len) as [Hlt|Hge]; cycle 1.
  { apply wp_ret. exists ws, w. repeat (split; [done|]). by replace len with done by lia. }
  assert (done = 4096 * j)%nat as -> by lia. destruct (transfer len (4096 * j)) as [n sectors] eqn:E.
  destruct (transfer_spec len j n sectors E Hlt HlenW) as [(En & Hn & Hs & _) Hnext].
  eapply wp_transfer; [exact E|lia|by apply Hlba|done|done|exact Hld|..].
  - intros buf ws' w' Ho' Hws' Hb. apply wp_ret. by exists ws', w'.
  - intros buf ws' w' Habs Ho'. apply wp_bind, Habs. intros h' ws'' Hws'' Hld'.
    apply (IH (S j)); [lia| |lia|lia|done|done|done].
    intros Hlt'. rewrite Hlba by done. unfold transfer in E. apply pair_equal_spec in E as [E1 E2]. rewrite E1 in E2.
    assert (n = 4096)%nat by lia. subst n. change ((4096 + SECTOR - 1) / SECTOR)%nat with 8%nat in E2. lia.
Qed.

Lemma wp_load_app fuel : forall j done h ws (w : W),
  done = Nat.min len (4096 * j) -> (1 <= fuel)%nat -> (len <= 4096 * (j + fuel - 1))%nat ->
  on b D F w -> ws_ok ws -> loading clean key nonce pre ct done ws h ->
  wp (load_app fuel 3 key nonce len (lba0 - 1) done h) loaded (mkSd s ws w).
Proof.
  induction fuel as [|fuel IH]; intros j done h ws w Hd Hf Hlen Ho Hws Hld; [lia|]. cbn [load_app].
  destruct (Nat.ltb_spec done len) as [Hlt|Hge]; cycle 1.
  { apply wp_ret. exists ws, w. repeat (split; [done|]). by replace len with done by lia. }
  assert (done = 4096 * j)%nat as -> by lia. destruct (transfer len (4096 * j)) as [n sectors] eqn:E.
  destruct (transfer_spec len j n sectors E Hlt HlenW) as [(En & Hn & Hs & _) Hnext].
  eapply wp_transfer; [exact E|lia| |done|done|exact Hld|..].
  - replace (4096 * j)%nat with (8 * j * SECTOR)%nat by (unfold SECTOR; lia). rewrite Nat.div_mul by done. lia.
  - intros buf ws' w' Ho' Hws' Hb. apply wp_bind. eapply wp_debug_write; [exact Ho'|]. intros w'' Ho''. apply wp_ret. by exists ws', w''.
  - intros buf ws' w' Habs Ho'. apply wp_bind, Habs. intros h' ws'' Hws'' Hld'.
    apply (IH (S j)); [lia|lia|lia|done|done|done].
Qed.
End loop.

Lemma passes_enough len : (len <= 4096 * (0 + passes len - 1))%nat /\ (1 <= passes len)%nat.
Proof.
  unfold passes. change (8 * SECTOR)%nat with 4096%nat. pose proof (Nat.div_mod len 4096 ltac:(lia)) as Hd.
  pose proof (Nat.mod_upper_bound len 4096 ltac:(lia)). lia.
Qed.

(** ** Slot validation decides what the slot holds *)

Definition validated (b : bool) D F key pk slot (r : option (nat * Z)) (ws : list Z) : Prop :=
  match r with
  | Some (len, gen) =>
      (0 < len <= WS_LEN)%nat /\ fits 64 gen /\
      ((forall k, slot_region slot k -> ~ F k) -> slot_holds D key pk slot (take len ws) gen)
  | None => b = true -> (forall k, slot_region slot k -> ~ F k) -> forall plain gen, ~ slot_holds D key pk slot plain gen
  end.

Lemma slot_region_bounds slot : 0 <= hdr_lba slot /\ hdr_lba slot < payload_lba slot /\ payload_lba slot + SLOT_PAYLOAD_SECTORS <= VOLUME_SECTORS.
Proof. destruct slot; vm_compute; repeat split; congruence. Qed.

Lemma wp_validate_and_load b D F key pk slot (Q : option (nat * Z) -> Sd (W := W) -> Prop) s ws (w : W) :
  on b D F w -> ws_ok ws -> bytes_ok pk -> length pk = 32%nat ->
  (forall r ws' w', on b D F w' -> ws_ok ws' -> validated b D F key pk slot r ws' -> Q r (mkSd s ws' w')) ->
  wp (validate_and_load 3 key slot pk) Q (mkSd s ws w).
Proof.
  intros Ho Hws Hpk Hlpk HQ. unfold validate_and_load. pose proof (slot_region_bounds slot) as (B1 & B2 & B3).
  assert (Hz : sector_ok zeros) by (split; [done|apply Forall_replicate; red; lia]).
  apply wp_bind. eapply wp_br1; [exact Ho|exact Hz|]. intros ok sec w1 Ho1 Hsec Hc Hr.
  assert (Hsr : 0 < SLOT_PAYLOAD_SECTORS) by done.
  destruct ok; cbn [negb]; cycle 1.
  { apply wp_ret, HQ; [assumption|assumption|]. intros Hb. specialize (Hr Hb ltac:(lia)). done. }
  assert (Hcl : (forall k, slot_region slot k -> ~ F k) -> sec = D (hdr_lba slot)).
  { intros HF. apply Hc; [done|]. apply HF. red. red. lia. }
  destruct (parse_slot_header sec) as [hdr|] eqn:Eh; cycle 1.
  { apply wp_ret, HQ; [assumption|assumption|]. intros _ HF plain gen (h & E & _). rewrite <- Hcl in E by done. congruence. }
  destruct (slot_header_fields sec hdr Hsec Eh) as (Hs1 & Hs2 & Hs3 & Hs4).
  (* every refusal contradicts what the slot would have to hold *)
  assert (Hno : forall r, (r = None -> forall plain gen, (forall k, slot_region slot k -> ~ F k) -> slot_holds D key pk slot plain gen -> False) ->
     r = None -> validated b D F key pk slot r ws) by (intros r Hx ->; intros _ HF plain gen Hh; by eapply Hx).
  assert (Hinv : (forall k, slot_region slot k -> ~ F k) -> forall plain gen, slot_holds D key pk slot plain gen ->
     sh_state hdr = SLOT_STATE_VALID /\ sh_generation hdr = gen /\ (0 < Z.to_nat (sh_payload_len hdr))%nat /\
     Z.of_nat (Z.to_nat (sh_payload_len hdr)) <= PAYLOAD_CAP /\
     let ct := slot_ct D slot (Z.to_nat (sh_payload_len hdr)) in
     slot_mac_ok key sec ct = true /\ plain = ChaCha20.xor_stream key 0 (seal_nonce gen) ct /\
     Sha256.sha256 plain = sh_payload_sha hdr /\ Ed25519.verify pk plain (sh_signature hdr) = Some (Ok tt)).
  { intros HF plain gen (h & E & H1 & H2 & H3). rewrite <- (Hcl HF) in E, H3. rewrite Eh in E. injection E as <-. naive_solver. }
  destruct (Z.eqb_spec (sh_state hdr) SLOT_STATE_VALID) as [Est|Est]; cbn [negb]; cycle 1.
  { apply wp_ret, HQ; [assumption|assumption|]. intros _ HF plain gen Hh. by destruct (Hinv HF plain gen Hh). }
  apply wp_bind. unfold workspace. apply wp_gets. cbn [sd_ws].
  remember (Z.to_nat (sh_payload_len hdr)) as len eqn:Elen. pose proof Hws as [Hwl Hwb]. pose proof WS_LEN_Z as HWZ.
  destruct ((len =? 0)%nat || (PAYLOAD_CAP <? Z.of_nat len) || (length ws <? len)%nat) eqn:Eg.
  { apply wp_ret, HQ; [assumption|assumption|]. intros _ HF plain gen Hh. destruct (Hinv HF plain gen Hh) as (_ & _ & G1 & G2 & _).
    unfold PAYLOAD_CAP in *. repeat (apply orb_true_iff in Eg as [Eg|Eg]);
      [apply Nat.eqb_eq in Eg|apply Z.ltb_lt in Eg|apply Nat.ltb_lt in Eg]; lia. }
  apply orb_false_iff in Eg as [Eg Eg3]. apply orb_false_iff in Eg as [Eg1 Eg2].
  apply Nat.eqb_neq in Eg1. apply Z.ltb_ge in Eg2. apply Nat.ltb_ge in Eg3. unfold PAYLOAD_CAP in Eg2.
  apply wp_bind. eapply wp_mono.
  { eapply (wp_load_slot b D F key (seal_nonce (sh_generation hdr)) (take HDR_MAC_OFF sec) s (payload_lba slot) SLOT_PAYLOAD_SECTORS len)
      with (j := 0%nat); [lia|done|change SLOT_PAYLOAD_SECTORS with 1000; lia|lia|lia|lia|apply passes_enough|apply passes_enough|exact Ho1|exact Hws|apply loading_start]. }
  intros loaded' d (ws' & w' & -> & Ho' & Hws' & Hld).
  destruct loaded' as [h|]; cycle 1.
  { apply wp_ret, HQ; [assumption|assumption|]. intros ->. done. }
  destruct Hld as [[data Hsome] Hmac Hplain].
  assert (HF' : (forall k, slot_region slot k -> ~ F k) -> forall k, within (payload_lba slot) SLOT_PAYLOAD_SECTORS k -> ~ F k).
  { intros HF k Hk. apply HF. unfold slot_region, within in *. lia. }
  apply wp_bind. eapply wp_expect; [by apply mac_of_finalize|].
  assert (Hd : (forall k, slot_region slot k -> ~ F k) ->
     Hmac.oneshot key data = slot_mac key sec (slot_ct D slot len) /\
     take len ws' = ChaCha20.xor_stream key 0 (seal_nonce (sh_generation hdr)) (slot_ct D slot len)).
  { intros HF. specialize (Hmac (HF' HF)). specialize (Hplain (HF' HF)). rewrite take_take, Nat.min_id in Hmac, Hplain. split; [|exact Hplain].
    apply mac_of_finalize in Hmac, Hsome. rewrite Hmac in Hsome. injection Hsome as <-.
    by rewrite slot_mac_reference, Hmac.oneshot_reference. }
  destruct (constant_time_eq (Hmac.oneshot key data) (slice HDR_MAC_OFF 32 sec)) eqn:Em; cbn [negb]; cycle 1.
  { apply wp_ret, HQ; [assumption|assumption|]. intros _ HF plain gen Hh. destruct (Hinv HF plain gen Hh) as (_ & _ & _ & _ & G & _).
    unfold slot_mac_ok in G. rewrite <- (proj1 (Hd HF)) in G. congruence. }
  apply wp_bind. unfold workspace. apply wp_gets. cbn [sd_ws].
  destruct (constant_time_eq (Sha256.sha256 (take len ws')) (sh_payload_sha hdr)) eqn:Ed; cbn [negb]; cycle 1.
  { apply wp_ret, HQ; [assumption|assumption|]. intros _ HF plain gen Hh. destruct (Hinv HF plain gen Hh) as (_ & <- & _ & _ & _ & -> & G & _).
    rewrite (proj2 (Hd HF)), G, (proj2 (constant_time_eq_true _ _)) in Ed; done. }
  destruct (verify_returns pk (take len ws') (sh_signature hdr)) as [v Ev]; [done..|].
  apply wp_bind. eapply wp_expect; [exact Ev|]. apply wp_ret, HQ; [assumption|assumption|].
  destruct v as [[]|e]; cbn [is_ok validated].
  - split; [lia|]. split; [done|]. intros HF. exists hdr. rewrite <- (Hcl HF), <- Elen. destruct (Hd HF) as [Hd1 Hd2].
    split; [exact Eh|]. split; [exact Est|]. split; [reflexivity|]. cbv zeta. split; [lia|]. split; [unfold PAYLOAD_CAP; lia|].
    unfold slot_mac_ok. rewrite <- Hd1. split; [exact Em|]. split; [exact Hd2|]. split; [by apply constant_time_eq_true|exact Ev].
  - intros _ HF plain gen Hh. destruct (Hinv HF plain gen Hh) as (_ & <- & _ & _ & _ & -> & _ & G).
    rewrite <- (proj2 (Hd HF)), Ev in G. done.
Qed.

(** ** Application validation decides what the slot holds *)

Definition validated_app (b : bool) D F key pk slot (r : option AppEntry) (ws : list Z) : Prop :=
  match r with
  | Some e =>
      ae_slot e = slot /\ entry_wf e /\
      ((forall k, app_region slot k -> ~ F k) -> app_holds D key pk e (take (Z.to_nat (ae_payload_len e)) ws))
  | None => b = true -> (forall k, app_region slot k -> ~ F k) -> forall e plain, ae_slot e = slot -> ~ app_holds D key pk e plain
  end.

Lemma app_header_mac_oneshot key hdr ct : app_header_mac key hdr ct = Hmac.oneshot key (take APP_HDR_MAC_OFF hdr ++ ct).
Proof.
  unfold app_header_mac. pose proof (Hmac.hmac_finalize_updates key [take APP_HDR_MAC_OFF hdr; ct]) as E. simpl in E.
  by rewrite E, app_nil_r, Hmac.oneshot_reference.
Qed.

(** A refusal after its debug message. *)
Lemma wp_refuse b D F key pk slot t (Q : option AppEntry -> Sd (W := W) -> Prop) s ws (w : W) :
  on b D F w -> ws_ok ws ->
  (forall r ws' w', on b D F w' -> ws_ok ws' -> validated_app b D F key pk slot r ws' -> Q r (mkSd s ws' w')) ->
  validated_app b D F key pk slot None ws ->
  wp (_ ← debug_write t; mret None) Q (mkSd s ws w).
Proof. intros Ho Hws HQ Hv. apply wp_bind. eapply wp_debug_write; [exact Ho|]. intros w' Ho'. apply wp_ret. by apply HQ. Qed.

Lemma wp_validate_and_load_app b D F key pk slot (Q : option AppEntry -> Sd (W := W) -> Prop) s ws (w : W) :
  0 <= slot < APP_SLOTS -> on b D F w -> ws_ok ws -> bytes_ok pk -> length pk = 32%nat ->
  (forall r ws' w', on b D F w' -> ws_ok ws' -> validated_app b D F key pk slot r ws' -> Q r (mkSd s ws' w')) ->
  wp (validate_and_load_app 3 key slot pk) Q (mkSd s ws w).
Proof.
  intros Hslot Ho Hws Hpk Hlpk HQ. unfold validate_and_load_app. rewrite app_slot_lba_Some by done.
  pose proof (app_lba_bounds slot Hslot) as [B1 B2]. unfold APP_START_LBA, STAGING_LBA, APP_SLOT_SECTORS in B1, B2.
  assert (Hz : sector_ok zeros) by (split; [done|apply Forall_replicate; red; lia]).
  apply wp_bind. eapply wp_br1; [exact Ho|exact Hz|]. intros ok sec w1 Ho1 Hsec Hc Hr.
  destruct ok; cbn [negb]; cycle 1.
  { eapply wp_refuse; [exact Ho1|exact Hws|exact HQ|]. intros Hb. unfold VOLUME_SECTORS in Hr. specialize (Hr Hb ltac:(lia)). done. }
  assert (Hcl : (forall k, app_region slot k -> ~ F k) -> sec = D (app_lba slot)).
  { intros HF. apply Hc; [done|]. apply HF. unfold app_region, within, APP_SLOT_SECTORS. lia. }
  destruct (parse_app_header sec) as [hdr|] eqn:Eh; cycle 1.
  { apply wp_ret, HQ; [assumption|assumption|]. intros _ HF e plain <- (h & E & _). rewrite <- Hcl in E by done. congruence. }
  set (e := app_entry_from_header hdr). change (take (ah_name_len hdr) (ah_name hdr)) with (entry_name e).
  (* any program the slot could hold is the one this header describes *)
  assert (Hinv : (forall k, app_region slot k -> ~ F k) -> forall e' plain, ae_slot e' = slot -> app_holds D key pk e' plain ->
     e' = e /\ ae_slot e = slot /\ app_name_valid (entry_name e) = true /\
     let ct := app_ct D slot (Z.to_nat (ae_payload_len e)) in
     app_header_mac_ok key sec ct = true /\ plain = ChaCha20.xor_stream key 0 (app_nonce slot (ae_version e)) ct /\
     Sha256.sha256 plain = ae_payload_sha e /\
     Ed25519.verify pk (app_signing_message (entry_name e) (ae_version e) (ae_payload_len e) (ae_payload_sha e)) (ae_signature e) = Some (Ok tt)).
  { intros HF e' plain Es (h & E & He & Hn & Hrest). rewrite Es in E, Hrest. rewrite <- (Hcl HF) in E, Hrest. rewrite Eh in E. injection E as <-.
    fold e in He. subst e'. split; [reflexivity|]. split; [exact Es|]. split; [exact Hn|]. exact Hrest. }
  change (ah_slot hdr) with (ae_slot e). change (ah_payload_len hdr) with (ae_payload_len e). change (ah_version hdr) with (ae_version e).
  change (ah_payload_sha hdr) with (ae_payload_sha e). change (ah_signature hdr) with (ae_signature e).
  apply wp_bind. unfold workspace at 1. apply wp_gets. cbn [sd_ws]. pose proof Hws as [Hwl _].
  destruct (Z.eqb_spec (ae_slot e) slot) as [Es|Es]; cbn [negb orb]; cycle 1.
  { eapply wp_refuse; [exact Ho1|exact Hws|exact HQ|]. intros _ HF e' plain He' Hh. by destruct (Hinv HF e' plain He' Hh) as (_ & ? & _). }
  destruct (app_name_valid (entry_name e)) eqn:En; cbn [negb orb]; cycle 1.
  { eapply wp_refuse; [exact Ho1|exact Hws|exact HQ|]. intros _ HF e' plain He' Hh. destruct (Hinv HF e' plain He' Hh) as (_ & _ & ? & _). congruence. }
  pose proof (app_header_fields sec hdr Hsec Eh En) as Hwf. fold e in Hwf. pose proof (ew_payload e Hwf) as Hpl. pose proof WS_LEN_Z as HWZ.
  unfold APP_PAYLOAD_CAP, APP_SLOT_SECTORS in Hpl. rewrite (proj2 (Nat.ltb_ge _ _)) by lia.
  remember (Z.to_nat (ae_payload_len e)) as len eqn:Elen. replace (app_lba slot) with ((app_lba slot + 1) - 1) by lia.
  apply wp_bind. eapply wp_mono.
  { eapply (wp_load_app b D F key (app_nonce slot (ae_version e)) (take APP_HDR_MAC_OFF sec) s (app_lba slot + 1) (APP_SLOT_SECTORS - 1) len)
      with (j := 0%nat); unfold VOLUME_SECTORS, APP_SLOT_SECTORS;
      [lia|lia|lia|lia|lia|apply passes_enough|apply passes_enough|exact Ho1|exact Hws|apply loading_start]. }
  intros loaded' d (ws' & w' & -> & Ho' & Hws' & Hld).
  destruct loaded' as [h|]; cycle 1.
  { apply wp_ret, HQ; [assumption|assumption|]. intros ->. done. }
  destruct Hld as [[data Hsome] Hmac Hplain].
  assert (HF' : (forall k, app_region slot k -> ~ F k) -> forall k, within (app_lba slot + 1) (APP_SLOT_SECTORS - 1) k -> ~ F k).
  { intros HF k Hk. apply HF. unfold app_region, within in *. lia. }
  apply wp_bind. eapply wp_expect; [by apply mac_of_finalize|].
  assert (Hd : (forall k, app_region slot k -> ~ F k) ->
     Hmac.oneshot key data = app_header_mac key sec (app_ct D slot len) /\
     take len ws' = ChaCha20.xor_stream key 0 (app_nonce slot (ae_version e)) (app_ct D slot len)).
  { intros HF. specialize (Hmac (HF' HF)). specialize (Hplain (HF' HF)). rewrite take_take, Nat.min_id in Hmac, Hplain. split; [|exact Hplain].
    apply mac_of_finalize in Hmac, Hsome. rewrite Hmac in Hsome. injection Hsome as <-. by rewrite app_header_mac_oneshot. }
  destruct (constant_time_eq (Hmac.oneshot key data) (slice APP_HDR_MAC_OFF 32 sec)) eqn:Em; cbn [negb]; cycle 1.
  { eapply wp_refuse; [exact Ho'|exact Hws'|exact HQ|]. intros _ HF e' plain He' Hh. destruct (Hinv HF e' plain He' Hh) as (_ & _ & _ & G & _).
    unfold app_header_mac_ok in G. rewrite <- (proj1 (Hd HF)) in G. congruence. }
  apply wp_bind. unfold workspace. apply wp_gets. cbn [sd_ws].
  destruct (constant_time_eq (Sha256.sha256 (take len ws')) (ae_payload_sha e)) eqn:Ed; cbn [negb]; cycle 1.
  { eapply wp_refuse; [exact Ho'|exact Hws'|exact HQ|]. intros _ HF e' plain He' Hh. destruct (Hinv HF e' plain He' Hh) as (_ & _ & _ & _ & -> & G & _).
    rewrite (proj2 (Hd HF)), G, (proj2 (constant_time_eq_true _ _)) in Ed; done. }
  replace (Z.of_nat len) with (ae_payload_len e) by lia. destruct (ew_signature e Hwf) as [Hs1 Hs2].
  destruct (verify_returns pk (app_signing_message (entry_name e) (ae_version e) (ae_payload_len e) (ae_payload_sha e)) (ae_signature e) Hpk Hlpk Hs2 Hs1) as [v Ev].
  apply wp_bind. eapply wp_expect; [exact Ev|].
  destruct v as [[]|err]; cbn [is_ok negb].
  - apply wp_ret, HQ; [assumption|assumption|]. split; [exact Es|]. split; [exact Hwf|]. intros HF. rewrite <- Elen. destruct (Hd HF) as [Hd1 Hd2].
    exists hdr. fold e. rewrite Es, <- (Hcl HF). split; [exact Eh|]. split; [reflexivity|]. split; [exact En|]. cbv zeta. rewrite <- Elen.
    unfold app_header_mac_ok. rewrite <- Hd1. split; [exact Em|]. split; [exact Hd2|]. split; [by apply constant_time_eq_true|exact Ev].
  - eapply wp_refuse; [exact Ho'|exact Hws'|exact HQ|]. intros _ HF e' plain He' Hh. destruct (Hinv HF e' plain He' Hh) as (_ & _ & _ & _ & _ & _ & G).
    rewrite Ev in G. discriminate.
Qed.
End load.
