(* ===== verification/StorageAudit.v ===== *)
(** * The audit log of the storage service

    [scan_audit] finds the longest intact chain on the volume and [audit_raw]
    extends it by one record: earlier records are never written again, a
    failed append leaves the chain as it was, a full log is left alone. *)

From S2P Require Import Prelude RustStd HashStream Sha256 Hmac ChaCha20 Layout LayoutTheorems Prog Userlib StorageText Storaged StorageEnv StorageLoad.
Import Layout Storaged.

#[local] Opaque Sha256.sha256 Hmac.oneshot Hmac.reference.

(** ** Sectors that the writers produce *)

Lemma puts_ok fs : forall l l', puts fs l = Some l' -> Forall (fun f => bytes_ok (snd f)) fs -> bytes_ok l -> bytes_ok l'.
Proof.
  induction fs as [|[o v] fs IH]; intros l l' E Hf Hl; cbn [puts] in E; [by injection E as <-|].
  destruct (_ <=? _)%nat; [|done]. apply Forall_cons in Hf as [Hv Hf]. eapply IH; [exact E|done|by apply splice_ok].
Qed.

Lemma zeroed_ok l : bytes_ok (zeroed l).
Proof. apply Forall_replicate. red. lia. Qed.

Lemma byte_ok z : 0 <= z < 256 -> bytes_ok [z].
Proof. intros. by constructor. Qed.

Lemma sha256_ok m : bytes_ok (Sha256.sha256 m).
Proof. apply Sha256.sha256_digest_ok. Qed.

Lemma oneshot_ok key m : bytes_ok (Hmac.oneshot key m).
Proof. apply Hmac.tag_ok. Qed.

Lemma bytes_take n l : bytes_ok l -> bytes_ok (take n l).
Proof. apply Forall_take. Qed.

Lemma bytes_slice o n l : bytes_ok l -> bytes_ok (slice o n l).
Proof. intros. by apply Forall_take, Forall_drop. Qed.

Lemma magic_ok t : bytes_ok (str t ++ [0]).
Proof. apply Forall_app. split; [apply str_ok|]. apply byte_ok. lia. Qed.

Lemma CFG_MAGIC_ok : bytes_ok CFG_MAGIC. Proof. apply magic_ok. Qed.
Lemma SB_MAGIC_ok : bytes_ok SB_MAGIC. Proof. apply magic_ok. Qed.
Lemma APP_MAGIC_ok : bytes_ok APP_MAGIC. Proof. apply magic_ok. Qed.

#[export] Hint Resolve CFG_MAGIC_ok SB_MAGIC_ok APP_MAGIC_ok zeroed_ok sha256_ok oneshot_ok to_le_bytes_ok bytes_take bytes_slice str_ok : bytes.

(** The fields of a series of writes, one by one. *)
Ltac fields_ok := repeat (apply List.Forall_cons; [cbn [snd]; first [solve [auto with bytes] | apply byte_ok; lia | idtac]|]); try apply List.Forall_nil.

Lemma zeros_ok : sector_ok zeros.
Proof. split; [done|]. apply Forall_replicate. red. lia. Qed.
#[export] Hint Resolve zeros_ok : bytes.

(** ** Audit records *)

Lemma audit_record_fields rec seq tick event aux data prev rec' digest :
  length rec = SECTOR -> fits 64 seq -> fits 64 tick -> is_byte event -> is_byte aux -> bytes_ok data -> bytes_ok prev ->
  Z.of_nat (length data) <= AUD_DATA_MAX -> length prev = 32%nat ->
  write_audit_record rec seq tick event aux data prev = Some (rec', digest) ->
  bytes_ok rec' /\ le_field 4 8 rec' = seq /\ le_field 12 8 rec' = tick /\
  le_field 22 2 rec' = Z.of_nat (length data) /\ slice 56 (length data) rec' = data.
Proof.
  intros Hl Hseq Htick He Ha Hdb Hpb Hd Hp. unfold AUD_DATA_MAX in Hd. unfold write_audit_record.
  rewrite (proj2 (Z.ltb_ge _ _)) by (unfold AUD_DATA_MAX; lia). set (fs := [_; _; _; _; _; _; _; _]).
  destruct (tagged_reads fs AUD_DIGEST_OFF Sha256.sha256 rec) as (l1 & r & E1 & E2 & Hl' & Htag & Htake & Hr);
    [layout|rewrite Hl; offsets; lia|apply length_sha256|].
  rewrite E1, E2. intros [= <- <-]. split; [|split; [|split; [|split]]].
  - apply (puts_ok _ _ _ E2); [fields_ok|]. apply (puts_ok _ _ _ E1); [|apply zeroed_ok]. unfold fs. fields_ok; done.
  - apply (reads_le _ _ 1%nat _ _ _ Hr); [reflexivity|layout|exact Hseq].
  - apply (reads_le _ _ 2%nat _ _ _ Hr); [reflexivity|layout|exact Htick].
  - rewrite <- (wrap_len (length data) 16) by lia. apply (reads_le _ _ 5%nat _ _ _ Hr); [reflexivity|layout|apply wrap_fits; lia].
  - read_field 7%nat Hr.
Qed.

(** The first [n] records of the log. *)
Definition log (D : Z -> list Z) (n : Z) : list (list Z) := (fun i => D (AUDIT_START_LBA + i)) <$> seqZ 0 n.

(** The cursor stands after an intact chain. *)
Record audit_ok (D : Z -> list Z) (s : State) : Prop := {
  au_seq : 0 <= audit_seq s <= AUDIT_RECORDS;
  au_prev : length (audit_prev s) = 32%nat /\ bytes_ok (audit_prev s);
  au_chain : replay 0 (replicate 32 0) (log D (audit_seq s)) = Some (audit_prev s);
}.

Definition audit_region : Z -> Prop := within AUDIT_START_LBA AUDIT_RECORDS.

Lemma log_ext D D' n : 0 <= n <= AUDIT_RECORDS -> (forall k, within AUDIT_START_LBA n k -> D' k = D k) -> log D' n = log D n.
Proof.
  intros Hn HD. unfold log. apply list_fmap_ext. intros i k Hk. apply HD. apply lookup_seqZ in Hk. red. lia.
Qed.

Lemma log_snoc D n : 0 <= n -> log D (n + 1) = log D n ++ [D (AUDIT_START_LBA + n)].
Proof. intros. unfold log. rewrite seqZ_app, fmap_app by lia. rewrite Z.add_0_l. done. Qed.

Lemma length_log D n : 0 <= n -> Z.of_nat (length (log D n)) = n.
Proof. intros. unfold log. rewrite length_fmap, length_seqZ. lia. Qed.

Lemma replay_snoc D n prev d rec : 0 <= n -> replay 0 prev (log D n) = Some d ->
  check_audit_record rec n d = Valid n ->
  replay 0 prev (log D n ++ [rec]) = Some (slice AUD_DIGEST_OFF 32 rec).
Proof. intros Hn E Hc. rewrite replay_app, E, length_log by done. cbn [replay]. by rewrite Z.add_0_l, Hc. Qed.

Lemma check_valid_seq r seq prev s : check_audit_record r seq prev = Valid s -> s = seq.
Proof.
  unfold check_audit_record. intros E. repeat (case_match; try done).
  injection E as <-. by match goal with H : negb (_ =? seq) = false |- _ => apply negb_false_iff, Z.eqb_eq in H end.
Qed.

Lemma audit_ok_ext D D' s : (forall k, within AUDIT_START_LBA (audit_seq s) k -> D' k = D k) -> audit_ok D s -> audit_ok D' s.
Proof. intros HD [Hq Hp Hc]. split; [done|done|]. by rewrite (log_ext D). Qed.

Section audit.
Context {W : Type} `{Volume W}.
Implicit Types (D : Z -> list Z) (F : Z -> Prop).

(** [audit_raw] touches the cursor alone. *)
Definition same_but_audit (s s' : State) : Prop := set_audit (audit_seq s) (audit_prev s) s' = s.

Lemma same_but_audit_refl s : same_but_audit s s.
Proof. by destruct s. Qed.

Lemma same_but_audit_set s q p : same_but_audit s (set_audit q p s).
Proof. by destruct s. Qed.

Lemma same_but_audit_inv s s' : same_but_audit s s' -> exists q p, s' = set_audit q p s.
Proof.
  unfold same_but_audit. intros E. exists (audit_seq s'), (audit_prev s'). rewrite <- E. by destruct s'.
Qed.

(** The records from the cursor of [s] on. *)
Definition audit_tail (s : State) (k : Z) : Prop := audit_region k /\ AUDIT_START_LBA + audit_seq s <= k.

Lemma tail_region s D D' : same_except (audit_tail s) D D' -> same_except audit_region D D'.
Proof. intros Hd. eapply same_except_weaken; [exact Hd|]. by intros k [Hk _]. Qed.

(** The cursor moved forward, if at all. *)
Definition advanced (s s' : State) : Prop := same_but_audit s s' /\ audit_seq s <= audit_seq s'.

Lemma advanced_refl s : advanced s s.
Proof. split; [apply same_but_audit_refl|lia]. Qed.

Lemma advanced_inv s s' : advanced s s' -> exists q p, s' = set_audit q p s /\ audit_seq s <= q.
Proof. intros [(q & p & ->)%same_but_audit_inv Hq]. by exists q, p. Qed.

Lemma advanced_set s q p : audit_seq s <= q -> advanced s (set_audit q p s).
Proof. intros Hq. split; [apply same_but_audit_set|exact Hq]. Qed.

(** What a scan reports about the chain on the volume. *)
Definition scanned b D (q : Z) (p : list Z) : Prop :=
  0 <= q <= AUDIT_RECORDS /\ length p = 32%nat /\ bytes_ok p /\ replay 0 (replicate 32 0) (log D q) = Some p /\
  (b = true -> q = AUDIT_RECORDS \/ forall x, check_audit_record (D (AUDIT_START_LBA + q)) q p <> Valid x).

Lemma wp_scan_loop b D F fuel : forall seq prev sec (Q : Z * list Z -> Sd (W := W) -> Prop) s ws (w : W),
  on b D F w -> (forall k, audit_region k -> ~ F k) -> sector_ok sec ->
  0 <= seq -> seq + Z.of_nat fuel = AUDIT_RECORDS -> length prev = 32%nat -> bytes_ok prev ->
  replay 0 (replicate 32 0) (log D seq) = Some prev ->
  (forall q p w', on b D F w' -> scanned b D q p -> Q (q, p) (mkSd s ws w')) ->
  wp (scan_loop fuel 3 seq prev sec) Q (mkSd s ws w).
Proof.
  induction fuel as [|fuel IH]; intros seq prev sec Q s ws w Ho HF Hsec Hq Hf Hp Hb Hc HQ; cbn [scan_loop].
  { apply wp_ret, HQ; [done|]. split; [lia|]. repeat (split; [done|]). left. lia. }
  assert (HAR : AUDIT_RECORDS = 13311) by reflexivity.
  apply wp_bind. eapply wp_br1; [exact Ho|done|]. intros ok sec' w' Ho' Hsec' Hd Hr.
  unfold AUDIT_START_LBA, VOLUME_SECTORS in Hr. destruct ok; cbn [negb]; cycle 1.
  { apply wp_ret, HQ; [done|]. split; [lia|]. repeat (split; [done|]). intros ->. specialize (Hr eq_refl ltac:(lia)). done. }
  rewrite Hd by (done || (apply HF; red; red; lia)).
  destruct (check_audit_record (D (AUDIT_START_LBA + seq)) seq prev) as [x| |] eqn:Ec; cycle 1.
  1,2: apply wp_ret, HQ; [done|]; split; [lia|]; repeat (split; [done|]); right; congruence.
  pose proof (check_valid_seq _ _ _ _ Ec) as ->. pose proof (on_ok b D F w' Ho' (AUDIT_START_LBA + seq)) as [Hl1 Hb1].
  apply IH; [done|done|by split|lia|lia|apply length_slice; rewrite Hl1; offsets; lia|by apply bytes_slice| |done].
  rewrite log_snoc by done. by eapply replay_snoc.
Qed.

Lemma wp_scan_audit b D F (Q : () -> Sd (W := W) -> Prop) s ws (w : W) :
  on b D F w -> (forall k, audit_region k -> ~ F k) ->
  (forall q p w', on b D F w' -> scanned b D q p -> audit_ok D (set_audit q p s) -> Q () (mkSd (set_audit q p s) ws w')) ->
  wp (scan_audit 3) Q (mkSd s ws w).
Proof.
  intros Ho HF HQ. unfold scan_audit. apply wp_bind.
  eapply wp_scan_loop; [exact Ho|done|apply zeros_ok|done|done|done|apply Forall_replicate; red; lia|done|].
  intros q p w' Ho' Hs. unfold upd. apply wp_modify. cbn [sd_st sd_ws sd_env]. apply HQ; [done|done|].
  destruct Hs as (H1 & H2 & H3 & H4 & _). destruct s. by split.
Qed.

(** The record [audit_raw] appends. *)
Definition appended D D' s (text : list Z) (tick : Z) : Prop :=
  exists rec digest, write_audit_record zeros (audit_seq s) tick 1 0 (take (Z.to_nat AUD_DATA_MAX) text) (audit_prev s) = Some (rec, digest) /\
    forall k, D' k = if k =? AUDIT_START_LBA + audit_seq s then rec else D k.

Lemma wp_audit_raw b D F text (Q : () -> Sd (W := W) -> Prop) s ws (w : W) :
  on b D F w -> audit_ok D s -> (block s = None \/ block s = Some 3) -> bytes_ok text ->
  (forall D' s' w', on b D' F w' -> same_except (fun k => k = AUDIT_START_LBA + audit_seq s /\ audit_seq s < AUDIT_RECORDS /\ block s <> None) D D' ->
     same_but_audit s s' -> audit_ok D' s' ->
     (s' = s \/ audit_seq s' = audit_seq s + 1 /\ exists tick, fits 64 tick /\ appended D D' s text tick) ->
     (b = true -> block s <> None -> audit_seq s < AUDIT_RECORDS -> audit_seq s' = audit_seq s + 1) ->
     Q () (mkSd s' ws w')) ->
  wp (audit_raw text) Q (mkSd s ws w).
Proof.
  intros Ho Hau Hblk Ht HQ. unfold audit_raw, st. apply wp_bind, wp_gets. cbn [sd_st].
  assert (Hsame : forall w', on b D F w' -> (block s = None \/ AUDIT_RECORDS <= audit_seq s) -> Q () (mkSd s ws w')).
  { intros w' Ho' Hn. apply (HQ D); [done|done|apply same_but_audit_refl|done|by left|]. intros _ ?. destruct Hn; [done|lia]. }
  destruct Hblk as [E|E]; rewrite E; [apply wp_ret, Hsame; [done|by left]|].
  apply wp_bind, wp_gets, wp_bind, wp_gets. cbn [sd_st].
  destruct (Z.leb_spec AUDIT_RECORDS (audit_seq s)) as [Hfull|Hroom]; [apply wp_ret, Hsame; [done|by right]|].
  pose proof Hau as [Hq [Hpl Hpb] Hc]. assert (HAR : AUDIT_RECORDS = 13311) by reflexivity.
  apply wp_bind. eapply wp_ticks; [exact Ho|]. intros tick w1 Ho1 _ ->. pose proof (law_clock w1) as Hclk.
  set (data := take (Z.to_nat AUD_DATA_MAX) text).
  assert (Hdl : Z.of_nat (length data) <= AUD_DATA_MAX) by (unfold data, AUD_DATA_MAX; rewrite length_take; lia).
  assert (Hsq : fits 64 (audit_seq s)) by (red; lia). assert (Htk : fits 64 (clock w1)) by (red; lia).
  destruct (audit_record_spec zeros (audit_seq s) (clock w1) 1 0 data (audit_prev s)) as (rec & digest & Ew & Hrl & Hchk & Hdg); [done..|].
  destruct (audit_record_fields zeros (audit_seq s) (clock w1) 1 0 data (audit_prev s) rec digest) as (Hrb & _);
    [done|done|done|red; lia|red; lia|by apply bytes_take|done|done|done|done|].
  apply wp_bind. eapply wp_expect; [exact Ew|]. apply wp_bind.
  eapply (wp_bw b D F); [done|lia|rewrite Hrl; done|done|]. intros ok D' w2 Ho2 Hs Hw Hr.
  assert (Hx : same_except (fun k => k = AUDIT_START_LBA + audit_seq s /\ audit_seq s < AUDIT_RECORDS /\ block s <> None) D D').
  { eapply same_except_weaken; [exact Hs|]. intros k Hk. red in Hk. split; [lia|]. split; [done|]. by rewrite E. }
  destruct ok; cycle 1.
  - apply wp_ret, (HQ D'); [done|done|apply same_but_audit_refl| |by left|].
    + apply (audit_ok_ext D); [|done]. intros k Hk. apply Hs. unfold within in *. lia.
    + intros Hb' _ _. unfold AUDIT_START_LBA, VOLUME_SECTORS in Hr. specialize (Hr Hb' ltac:(lia) ltac:(lia)). done.
  - unfold upd. apply wp_modify. cbn [sd_st sd_ws sd_env].
    assert (HD' : forall k, D' k = if k =? AUDIT_START_LBA + audit_seq s then rec else D k).
    { intros k. rewrite Hw by done. unfold disk_write. destruct (Z.eqb_spec k (AUDIT_START_LBA + audit_seq s)) as [->|Hk].
      - rewrite (proj2 (Z.leb_le _ _)), (proj2 (Z.ltb_lt _ _)), Z.sub_diag by lia. cbn [andb]. unfold slice. cbn [Z.to_nat Nat.mul].
        rewrite drop_0, take_ge by (rewrite Hrl; done). done.
      - destruct (_ && _) eqn:Eb; [|done]. bool_facts. lia. }
    apply (HQ D'); [done|done|apply same_but_audit_set| |right; split; [done|]|done].
    + assert (Hpre : audit_ok D' s) by (apply (audit_ok_ext D); [|done]; intros k Hk; apply Hs; unfold within in *; lia).
      destruct Hpre as [_ _ Hc']. split; cbn [audit_seq audit_prev set_audit].
      * lia.
      * rewrite <- Hdg. split; [apply length_slice; rewrite Hrl; offsets; lia|by apply bytes_slice].
      * rewrite log_snoc by lia. rewrite HD', Z.eqb_refl. rewrite <- Hdg. eapply replay_snoc; [lia|exact Hc'|exact Hchk].
    + exists (clock w1). split; [done|]. exists rec, digest. done.
Qed.
End audit.
