(* ===== verification/StorageInv.v ===== *)
(** * The invariant of the storage service

    [service_ok] types the state of the service; [serving] adds the volume
    behind it.  Here: configuration writes, the application cache and the
    application table, each operation with what it does to state and volume on
    every I/O outcome. *)

From S2P Require Import Prelude RustStd HashStream Sha256 Hmac ChaCha20 Ed25519 Layout LayoutTheorems Prog Userlib StorageText StorageConfig Storaged StorageEnv StorageLoad StorageAudit.
Import Layout Text Storaged.

#[local] Opaque Ed25519.verify Sha256.sha256 Hmac.oneshot Hmac.reference ChaCha20.xor_stream WS_LEN.

Record service_ok (s : State) : Prop := {
  so_block : block s = None \/ block s = Some 3;
  so_key : length (vol_key s) = 32%nat /\ bytes_ok (vol_key s);
  so_pubkey : bytes_ok (pubkey s) /\ length (pubkey s) = 32%nat;
  so_overrides : bytes_ok (overrides s) /\ Z.of_nat (length (overrides s)) <= CFG_TEXT_MAX;
  so_gens : fits 64 (generation s) /\ fits 64 (cfg_gen s);
  so_apps : Forall entry_wf (apps s);
  so_slots : NoDup (ae_slot <$> apps s);
  so_cached : from_option entry_wf True (cached_app s);
  so_recovery : recovery s = true -> apps s = [] /\ cached_app s = None;
}.

(** Other tasks write at most in the two slots. *)
Definition slots_only (F : Z -> Prop) : Prop := forall k, F k -> slot_region A k \/ slot_region B k.

Lemma slot_region_range slot k : slot_region slot k -> 2 <= k < 2036.
Proof.
  unfold slot_region, within. change SLOT_PAYLOAD_SECTORS with 1000.
  destruct slot; cbn [hdr_lba payload_lba]; unfold SLOT_A_HDR_LBA, SLOT_A_PAYLOAD_LBA, SLOT_B_HDR_LBA, SLOT_B_PAYLOAD_LBA; lia.
Qed.

Lemma slots_only_outside F k : slots_only F -> k < 2 \/ 2036 <= k -> ~ F k.
Proof. intros HF Hk Hf. destruct (HF k Hf) as [H|H]; apply slot_region_range in H; lia. Qed.

Lemma slots_only_audit F : slots_only F -> forall k, audit_region k -> ~ F k.
Proof. intros HF k Hk. apply (slots_only_outside F k HF). unfold audit_region, within, AUDIT_START_LBA in Hk. lia. Qed.

Lemma slots_only_app F slot : slots_only F -> 0 <= slot < APP_SLOTS -> forall k, app_region slot k -> ~ F k.
Proof.
  intros HF Hs k Hk. apply (slots_only_outside F k HF). pose proof (app_lba_bounds slot Hs) as [B _].
  unfold app_region, within, APP_START_LBA in *. lia.
Qed.

(** ** Changes of the state that keep it typed *)

Lemma service_ok_audit s q p : service_ok s -> service_ok (set_audit q p s).
Proof. by intros []. Qed.

Lemma service_ok_same s s' : same_but_audit s s' -> service_ok s -> service_ok s'.
Proof. intros (q & p & ->)%same_but_audit_inv. apply service_ok_audit. Qed.

Lemma service_ok_overrides s text g : service_ok s -> bytes_ok text -> Z.of_nat (length text) <= CFG_TEXT_MAX -> fits 64 g ->
  service_ok (set_overrides text g s).
Proof. intros [] ? ? ?. by split; try done; split; try apply so_gens0. Qed.

Lemma service_ok_cached s c : service_ok s -> from_option entry_wf True c -> (recovery s = true -> c = None) -> service_ok (set_cached c s).
Proof. intros [] Hc Hr. split; try done. intros E. split; [by apply so_recovery0|by apply Hr]. Qed.

Lemma service_ok_apps s l c : service_ok s -> Forall entry_wf l -> NoDup (ae_slot <$> l) -> from_option entry_wf True c -> recovery s = false ->
  service_ok (set_apps l c s).
Proof. intros [] Hl Hn Hc Hr. split; try done. cbn. congruence. Qed.

Lemma service_ok_commit s a g : service_ok s -> fits 64 g -> service_ok (set_commit a g s).
Proof. intros [] Hg. split; try done. split; [done|apply so_gens0]. Qed.

(** The audit log does not depend on the rest of the state. *)
Lemma audit_ok_state D s s' : audit_seq s' = audit_seq s -> audit_prev s' = audit_prev s -> audit_ok D s -> audit_ok D s'.
Proof. intros E1 E2 [H1 H2 H3]. split; rewrite ?E1, ?E2; done. Qed.

Section ops.
Context {W : Type} `{Volume W}.
Implicit Types (D : Z -> list Z) (F : Z -> Prop).

Record serving (b : bool) (D : Z -> list Z) (F : Z -> Prop) (d : Sd (W := W)) : Prop := {
  sv_on : on b D F (sd_env d);
  sv_ws : ws_ok (sd_ws d);
  sv_state : service_ok (sd_st d);
  sv_audit : audit_ok D (sd_st d);
}.

(** [audit_raw] from a typed state. *)
Definition audit_outcome (b : bool) D D' s s' : Prop :=
  same_except (audit_tail s) D D' /\ advanced s s' /\ audit_seq s' <= audit_seq s + 1.

Lemma wp_audit b D F text (Q : () -> Sd (W := W) -> Prop) s ws (w : W) :
  serving b D F (mkSd s ws w) -> bytes_ok text ->
  (forall D' s' w', serving b D' F (mkSd s' ws w') -> audit_outcome b D D' s s' -> Q () (mkSd s' ws w')) ->
  wp (audit_raw text) Q (mkSd s ws w).
Proof.
  intros [Ho Hws Hs Ha] Ht HQ. eapply (wp_audit_raw b D F); [exact Ho|exact Ha|apply Hs|exact Ht|].
  intros D' s' w' Ho' Hd Hsame Ha' Hstep _. apply (HQ D').
  - split; [exact Ho'|exact Hws|by eapply service_ok_same|exact Ha'].
  - split; [|split; [split; [exact Hsame|]|]].
    + eapply same_except_weaken; [exact Hd|]. intros k (-> & Hk & _). pose proof (au_seq _ _ Ha). unfold audit_tail, audit_region, within. cbn in *. lia.
    + destruct Hstep as [->|[-> _]]; lia.
    + destruct Hstep as [->|[-> _]]; lia.
Qed.

(** ** Configuration *)

(** The configuration sector holds [text] at generation [gen] under [key]. *)
Definition config_stored D key gen text : Prop :=
  parse_config (D CONFIG_LBA) = Some (config_mac key (D CONFIG_LBA), gen, text).

Lemma config_sector key gen text : length key = 32%nat -> fits 64 gen -> bytes_ok text -> Z.of_nat (length text) <= CFG_TEXT_MAX ->
  exists sec, write_config zeros gen text key = Some sec /\ sector_ok sec /\ parse_config sec = Some (config_mac key sec, gen, text).
Proof.
  intros Hk Hg Hb Ht. destruct (config_spec zeros gen text key ltac:(done) Hg Ht) as (sec & E & Hl & Hp).
  exists sec. split; [exact E|]. split; [split; [exact Hl|]|exact Hp].
  unfold write_config in E. destruct (_ <? _); [done|].
  destruct (puts _ (zeroed zeros)) as [s1|] eqn:E1; [|done]. apply (puts_ok _ _ _ E); [fields_ok|].
  apply (puts_ok _ _ _ E1); [|apply zeroed_ok]. fields_ok.
Qed.

Lemma wp_persist b D F (Q : bool -> Sd (W := W) -> Prop) s ws (w : W) :
  serving b D F (mkSd s ws w) ->
  (forall ok D' w', let s' := set_overrides (overrides s) (wrap 64 (cfg_gen s + 1)) s in
     serving b D' F (mkSd s' ws w') -> same_except (fun k => k = CONFIG_LBA) D D' ->
     (ok = true -> config_stored D' (vol_key s) (cfg_gen s') (overrides s)) -> (b = true -> ok = true) -> Q ok (mkSd s' ws w')) ->
  (block s = None -> Q false (mkSd s ws w)) ->
  wp persist_overrides Q (mkSd s ws w).
Proof.
  intros [Ho Hws Hs Ha] HQ Hn. unfold persist_overrides, st, upd. apply wp_bind, wp_gets. cbn [sd_st sd_ws sd_env] in *.
  destruct (so_block s Hs) as [E|E]; rewrite E; [by apply wp_ret, Hn|].
  apply wp_bind, wp_modify, wp_bind, wp_gets. cbn [sd_st sd_ws sd_env]. unfold id. set (s' := set_overrides _ _ s).
  assert (Hg : fits 64 (cfg_gen s')) by (apply wrap_fits; lia).
  assert (Hs' : service_ok s') by (apply service_ok_overrides; [done|apply Hs|apply Hs|exact Hg]).
  destruct (config_sector (vol_key s) (cfg_gen s') (overrides s)) as (sec & Ew & [Hl Hb] & Hp); [apply Hs|done|apply Hs|apply Hs|].
  change (overrides s') with (overrides s). change (vol_key s') with (vol_key s). apply wp_bind. eapply wp_expect; [exact Ew|].
  eapply (wp_bw b D F); [exact Ho|lia|rewrite Hl; done|done|]. intros ok D' w' Ho' Hd Hw Hr.
  assert (Hd' : same_except (fun k => k = CONFIG_LBA) D D') by (eapply same_except_weaken; [exact Hd|]; intros k Hk; red in Hk; lia).
  apply (HQ ok D').
  - split; [exact Ho'|exact Hws|exact Hs'|]. apply (audit_ok_ext D); [|by apply (audit_ok_state D s)].
    intros k Hk. apply Hd'. intros ->. unfold within, CONFIG_LBA, AUDIT_START_LBA in Hk. lia.
  - exact Hd'.
  - intros ->. unfold config_stored. rewrite Hw by done. unfold disk_write. rewrite (proj2 (Z.leb_le _ _)), (proj2 (Z.ltb_lt _ _)), Z.sub_diag by lia.
    cbn [andb]. unfold slice. cbn [Z.to_nat Nat.mul]. rewrite drop_0, take_ge by (rewrite Hl; done). exact Hp.
  - intros Hb'. apply Hr; [done|done|done].
Qed.

(** [set]: refused without effect, or the overrides changed in memory and, when
    the reply is [ok], on the volume. *)
Definition set_outcome (b : bool) D s key value (reply : list Z) D' s' : Prop :=
  let text := set_override (overrides s) key value in
  same_except (fun k => k = CONFIG_LBA \/ audit_tail s k) D D' /\
  advanced (set_overrides (overrides s') (cfg_gen s') s) s' /\
  ( (reply = str "ok" /\ overrides s' = text /\ config_stored D' (vol_key s) (cfg_gen s') text) \/
    (reply = str "err: io" /\ overrides s' = text /\ b = false) \/
    (reply = str "err: full" /\ s' = s /\ CFG_TEXT_MAX < Z.of_nat (length text)) \/
    (reply = str "err: bounds" /\ s' = s /\ (key = [] \/ (24 < length key)%nat \/ (24 < length value)%nat)) ).

Lemma wp_set_config b D F rest i (Q : list Z -> Sd (W := W) -> Prop) s ws (w : W) :
  serving b D F (mkSd s ws w) -> block s = Some 3 -> bytes_ok rest -> position (fun c => c =? 32) rest = Some i ->
  (forall reply D' s' w', serving b D' F (mkSd s' ws w') ->
     set_outcome b D s (trim (take i rest)) (trim (drop (i + 1) rest)) reply D' s' -> Q reply (mkSd s' ws w')) ->
  wp (set_config rest) Q (mkSd s ws w).
Proof.
  intros Hsv Hblk Hrest Hi HQ. unfold set_config. rewrite Hi. set (key := trim (take i rest)) in *. set (value := trim (drop (i + 1) rest)) in *.
  pose proof Hsv as [Ho Hws Hs Ha]. cbn [sd_st sd_ws sd_env] in *.
  assert (Hrefl : advanced (set_overrides (overrides s) (cfg_gen s) s) s) by (split; [by destruct s|done]).
  destruct (_ || _ || _) eqn:Eb.
  { apply wp_ret, (HQ _ D s); [exact Hsv|]. split; [done|]. split; [exact Hrefl|]. right; right; right. split; [done|]. split; [done|].
    repeat (apply orb_true_iff in Eb as [Eb|Eb]); [left; by apply Nat.eqb_eq, nil_length_inv in Eb|right; left|right; right]; by apply Nat.ltb_lt in Eb. }
  apply wp_bind. unfold st. apply wp_gets. cbn [sd_st id]. set (text := set_override (overrides s) key value).
  destruct (Z.ltb_spec CFG_TEXT_MAX (Z.of_nat (length text))) as [Hfull|Hfit].
  { apply wp_ret, (HQ _ D s); [exact Hsv|]. split; [done|]. split; [exact Hrefl|]. by right; right; left. }
  assert (Htb : bytes_ok text) by (apply set_override_ok; [apply Hs|apply trim_ok; by apply Forall_take|apply trim_ok; by apply Forall_drop]).
  apply wp_bind. unfold upd. apply wp_modify. cbn [sd_st sd_ws sd_env]. apply wp_bind.
  apply (wp_persist b D F); cycle 2.
  { cbn. congruence. }
  { split; [exact Ho|exact Hws|apply service_ok_overrides; [done|done|done|apply Hs]|by apply (audit_ok_state D s)]. }
  intros ok D1 w1. cbn zeta. cbn [overrides cfg_gen vol_key set_overrides]. intros Hsv1 Hd1 Hc Hr. destruct ok; cycle 1.
  { apply wp_ret, (HQ _ D1); [exact Hsv1|]. split; [eapply same_except_weaken; [exact Hd1|]; by left|]. split; [by split|].
    right; left. split; [done|]. split; [done|]. destruct b; [by specialize (Hr eq_refl)|done]. }
  apply wp_bind. eapply wp_audit; [exact Hsv1|apply Forall_app; split; [apply str_ok|apply trim_ok; by apply Forall_take]|].
  intros D2 s2 w2 Hsv2 (Hd2 & Hsame & _). apply advanced_inv in Hsame as (q & p & -> & Hq). apply wp_ret, (HQ _ D2); [exact Hsv2|]. split; [|split; [|left; split; [done|]]].
  - eapply same_except_trans; [eapply same_except_weaken; [exact Hd1|]; by left|]. eapply same_except_weaken; [exact Hd2|]. by right.
  - by split.
  - split; [done|]. unfold config_stored. rewrite Hd2; [by apply Hc|]. unfold audit_tail, audit_region, within, CONFIG_LBA, AUDIT_START_LBA. lia.
Qed.
End ops.
