(* ===== verification/StorageApps.v ===== *)
(** * The application store

    Reading the staging area, writing a slot, publishing its header: what each
    leaves on the volume on every I/O outcome, and what an installed slot
    holds. *)

From S2P Require Import Prelude RustStd HashStream Sha256 Hmac ChaCha20 Ed25519 Layout LayoutTheorems Prog Userlib StorageText StorageConfig Storaged StorageEnv StorageLoad StorageAudit StorageInv.
Import Layout Text Storaged.

#[local] Opaque Ed25519.verify Sha256.sha256 Hmac.oneshot Hmac.reference ChaCha20.xor_stream WS_LEN.

(** ** Sectors and the buffers they came from *)

Lemma disk_read_chunks D lba n buf : length buf = (n * SECTOR)%nat ->
  (forall i, (i < n)%nat -> D (lba + Z.of_nat i) = slice (i * SECTOR) SECTOR buf) -> disk_read D lba (Z.of_nat n) = buf.
Proof.
  revert lba buf. induction n as [|n IH]; intros lba buf Hl HD.
  - apply nil_length_inv in Hl as ->. done.
  - replace (Z.of_nat (S n)) with (1 + Z.of_nat n) by lia. rewrite disk_read_app, disk_read_1 by lia.
    replace lba with (lba + Z.of_nat 0) at 1 by lia. rewrite (HD 0%nat) by lia.
    rewrite (IH (lba + 1) (drop SECTOR buf)).
    + change (take SECTOR (drop 0 buf) ++ drop SECTOR buf = buf). by rewrite drop_0, take_drop.
    + rewrite length_drop. lia.
    + intros i Hi. replace (lba + 1 + Z.of_nat i) with (lba + Z.of_nat (S i)) by lia. rewrite HD by lia.
      unfold slice. rewrite drop_drop. done.
Qed.

Lemma take_disk_read_le D lba n m len : (forall k, sector_ok (D k)) -> 0 <= n <= m -> (len <= Z.to_nat n * SECTOR)%nat ->
  take len (disk_read D lba m) = take len (disk_read D lba n).
Proof.
  intros HD Hn Hl. replace m with (n + (m - n)) by lia. rewrite disk_read_app by lia.
  apply take_app_le. rewrite length_disk_read by (done || lia). done.
Qed.

(** ** A published slot *)

Lemma parse_app_header_prefix h h' :
  length h = length h' -> take APP_HDR_MAC_OFF h = take APP_HDR_MAC_OFF h' -> parse_app_header h = parse_app_header h'.
Proof.
  intros Hl E. unfold parse_app_header, le_field. rewrite Hl.
  rewrite (slice_prefix APP_HDR_MAC_OFF 0 8 h h'), (byte_prefix APP_HDR_MAC_OFF 8 h h'), (byte_prefix APP_HDR_MAC_OFF 9 h h'),
    (byte_prefix APP_HDR_MAC_OFF 10 h h'), (byte_prefix APP_HDR_MAC_OFF 11 h h'), (slice_prefix APP_HDR_MAC_OFF 12 4 h h'),
    (slice_prefix APP_HDR_MAC_OFF 16 8 h h'), (slice_prefix APP_HDR_MAC_OFF APP_HDR_NAME_OFF APP_NAME_MAX h h'),
    (slice_prefix APP_HDR_MAC_OFF APP_HDR_SHA_OFF 32 h h'), (slice_prefix APP_HDR_MAC_OFF APP_HDR_SIG_OFF 64 h h')
    by (exact E || (offsets; lia)). done.
Qed.

(** The slot holds the sealed program, whoever signed it. *)
Definition published (D : Z -> list Z) (key : list Z) (slot : Z) (name : list Z) (version : Z) (payload sig : list Z) : Prop :=
  exists h, parse_app_header (D (app_lba slot)) = Some h /\ ah_slot h = slot /\ take (ah_name_len h) (ah_name h) = name /\
    ah_payload_len h = Z.of_nat (length payload) /\ ah_version h = version /\ ah_payload_sha h = Sha256.sha256 payload /\
    ah_signature h = sig /\
    let ct := app_ct D slot (length payload) in
    app_header_mac_ok key (D (app_lba slot)) ct = true /\ ChaCha20.xor_stream key 0 (app_nonce slot version) ct = payload.

Lemma published_ext D D' key slot name version payload sig : (forall k, app_region slot k -> D' k = D k) ->
  published D key slot name version payload sig -> published D' key slot name version payload sig.
Proof.
  intros HD. unfold published, app_ct. assert (Eh : D' (app_lba slot) = D (app_lba slot)).
  { apply HD. unfold app_region, within, APP_SLOT_SECTORS. lia. }
  rewrite Eh, (disk_read_ext D D'); [done|]. intros k Hk. apply HD. unfold app_region, within, APP_SLOT_SECTORS in *. lia.
Qed.

Lemma published_holds D key pk slot name version payload sig :
  published D key slot name version payload sig -> app_name_valid name = true ->
  Ed25519.verify pk (app_signing_message name version (Z.of_nat (length payload)) (Sha256.sha256 payload)) sig = Some (Ok tt) ->
  exists e, ae_slot e = slot /\ entry_name e = name /\ ae_version e = version /\ ae_payload_len e = Z.of_nat (length payload) /\
    app_holds D key pk e payload.
Proof.
  intros (h & Hp & Hs & Hn & Hl & Hv & Hsha & Hsig & Hmac & Hct) Hvalid Hver.
  exists (app_entry_from_header h). unfold entry_name. cbn [app_entry_from_header ae_slot ae_name ae_name_len ae_version ae_payload_len].
  repeat (split; [assumption|]). exists h. unfold entry_name.
  cbn [app_entry_from_header ae_slot ae_name ae_name_len ae_version ae_payload_len ae_payload_sha ae_signature].
  rewrite Hs, Hn, Hl, Hv, Hsha, Hsig, Nat2Z.id. split; [exact Hp|]. split; [reflexivity|]. split; [exact Hvalid|].
  cbv zeta. split; [exact Hmac|]. split; [by rewrite Hct|]. split; [reflexivity|exact Hver].
Qed.

(** The sealed header over the ciphertext the slot holds. *)
Lemma sealed_header key slot name version payload sig :
  length key = 32%nat -> 0 <= slot < APP_SLOTS -> (0 < length name <= APP_NAME_MAX)%nat -> bytes_ok name -> fits 64 version ->
  0 < Z.of_nat (length payload) <= APP_PAYLOAD_CAP -> length sig = 64%nat -> bytes_ok sig ->
  exists hdr, write_app_header zeros slot name version payload sig = Some (Some hdr) /\
    forall ct, let hdr' := splice APP_HDR_MAC_OFF (app_header_mac key hdr ct) hdr in
      sector_ok hdr' /\ app_header_mac_ok key hdr' ct = true /\
      exists h, parse_app_header hdr' = Some h /\ ah_slot h = slot /\ take (ah_name_len h) (ah_name h) = name /\
        ah_payload_len h = Z.of_nat (length payload) /\ ah_version h = version /\ ah_payload_sha h = Sha256.sha256 payload /\ ah_signature h = sig.
Proof.
  intros Hk Hs Hn Hnb Hv Hp Hsig Hsigb.
  destruct (app_header_spec zeros slot name version payload sig) as (hdr & h & Ew & Hl & Hparse & Hrest); [done..|].
  exists hdr. split; [exact Ew|]. intros ct. cbv zeta. set (mac := app_header_mac key hdr ct).
  assert (Hm : length mac = 32%nat) by (unfold mac; rewrite app_header_mac_oneshot; apply length_oneshot).
  assert (Hmb : bytes_ok mac) by (unfold mac; rewrite app_header_mac_oneshot; apply oneshot_ok).
  assert (Hhb : bytes_ok hdr).
  { unfold write_app_header in Ew. destruct (_ || _); [done|]. destruct (puts _ _) as [x|] eqn:E; [|done]. injection Ew as ->.
    apply (puts_ok _ _ _ E); [|apply zeroed_ok]. unfold APP_SLOTS in Hs. fields_ok; red;
      pose proof (wrap_fits 8 (Z.of_nat (length name))); unfold fits, APP_FORMAT_VERSION, APP_STATE_VALID in *; lia. }
  assert (Hl' : length (splice APP_HDR_MAC_OFF mac hdr) = SECTOR) by (rewrite length_splice; [exact Hl|rewrite Hm, Hl; offsets; lia]).
  assert (Htake : take APP_HDR_MAC_OFF (splice APP_HDR_MAC_OFF mac hdr) = take APP_HDR_MAC_OFF hdr) by (apply take_splice_le; rewrite Hl; offsets; lia).
  split; [split; [exact Hl'|by apply splice_ok]|]. split.
  - apply constant_time_eq_true. transitivity mac.
    + rewrite app_header_mac_oneshot, Htake. symmetry. apply app_header_mac_oneshot.
    + symmetry. rewrite <- Hm at 1. apply slice_splice_same. rewrite Hm, Hl. offsets. lia.
  - exists h. split; [|exact Hrest]. rewrite <- Hparse. apply parse_app_header_prefix; [by rewrite Hl|exact Htake].
Qed.

Section store.
Context {W : Type} `{Volume W}.
Implicit Types (D : Z -> list Z) (F : Z -> Prop).

(** ** Staging: [t] sectors into the workspace *)

Lemma wp_read_staging b D F t fuel : forall j ws (Q : bool -> Sd (W := W) -> Prop) s (w : W),
  on b D F w -> ws_ok ws -> (t <= 256)%nat -> (1 <= fuel)%nat -> (t <= 8 * (j + fuel - 1))%nat ->
  ((forall k, within STAGING_LBA STAGING_SECTORS k -> ~ F k) ->
     take (SECTOR * Nat.min t (8 * j)) ws = take (SECTOR * Nat.min t (8 * j)) (disk_read D STAGING_LBA STAGING_SECTORS)) ->
  (forall ok ws' w', on b D F w' -> ws_ok ws' -> (b = true -> ok = true) ->
     (ok = true -> (forall k, within STAGING_LBA STAGING_SECTORS k -> ~ F k) ->
        take (SECTOR * t) ws' = take (SECTOR * t) (disk_read D STAGING_LBA STAGING_SECTORS)) -> Q ok (mkSd s ws' w')) ->
  wp (read_staging fuel 3 (SECTOR * t) (SECTOR * Nat.min t (8 * j))) Q (mkSd s ws w).
Proof.
  induction fuel as [|fuel IH]; intros j ws Q s w Ho Hws Ht Hf Hfuel Hld HQ; [lia|]. cbn [read_staging].
  pose proof WS_LEN_Z as HW. unfold SECTOR in *.
  destruct (Nat.ltb_spec (512 * Nat.min t (8 * j)) (512 * t)) as [Hlt|Hge]; cycle 1.
  { apply wp_ret, HQ; [done|done|done|]. intros _ HF. replace t with (Nat.min t (8 * j)) by lia. by apply Hld. }
  assert (Hd : (512 * Nat.min t (8 * j) = 512 * (8 * j))%nat) by lia.
  set (c := Nat.min (t - 8 * j) 8). assert (Hn : Nat.min (512 * t - 512 * Nat.min t (8 * j)) (8 * 512) = (c * 512)%nat) by (unfold c; lia).
  rewrite Hn, (Nat.div_mul c 512), Hd in * by lia. rewrite (Nat.mul_comm 512 (8 * j)), Nat.div_mul by lia.
  assert (Hc : (1 <= c <= 8)%nat) by (unfold c; lia). assert (Hcz : (8 * j + c <= t)%nat) by (unfold c; lia).
  apply wp_bind. eapply wp_br_at; [exact Ho|exact Hc|exact Hws|unfold SECTOR; lia|].
  unfold SECTOR. intros ok buf w' Ho' Hlb Hbb Hcont Hr.
  assert (Hws' : ws_ok (splice (8 * j * 512) buf ws)) by (apply ws_ok_splice; [done|lia|done]).
  unfold STAGING_LBA, VOLUME_SECTORS in Hr.
  destruct ok; cbn [negb]; cycle 1.
  { apply wp_ret, HQ; [done|done| |done]. intros Hb. apply Hr; [done|lia|lia]. }
  assert (Hnext : (8 * j * 512 + c * 512 = 512 * Nat.min t (8 * S j))%nat) by (unfold c; lia). rewrite Hnext.
  apply IH; [done|done|done|lia|lia| |done].
  intros HF. rewrite <- Hnext. pose proof (on_ok b D F w Ho) as HD. destruct Hws as [Hwl _].
  pose proof (take_disk_read D STAGING_LBA STAGING_SECTORS (512 * 256) (8 * Z.of_nat j) (Z.of_nat c) (c * 512) HD ltac:(lia) ltac:(lia)) as Hsp.
  assert (Hfull : take (512 * 256) (disk_read D STAGING_LBA STAGING_SECTORS) = disk_read D STAGING_LBA STAGING_SECTORS).
  { apply take_ge. rewrite length_disk_read by (done || (unfold STAGING_SECTORS; lia)). unfold STAGING_SECTORS, SECTOR. lia. }
  rewrite Hfull in Hsp. unfold SECTOR, STAGING_SECTORS in Hsp. replace (Z.to_nat (8 * Z.of_nat j)) with (8 * j)%nat in Hsp by lia.
  unfold STAGING_SECTORS. rewrite Hsp by lia. rewrite <- Hlb at 1. rewrite take_splice by lia.
  f_equal; [rewrite (Nat.mul_comm (8 * j)); by apply Hld|].
  rewrite Hcont; [|done|].
  - rewrite take_ge; [f_equal; lia|]. rewrite length_disk_read by (exact HD || lia). unfold SECTOR. lia.
  - intros k Hk. apply HF. unfold within, STAGING_LBA, STAGING_SECTORS in *. lia.
Qed.

Lemma wp_read_staging_all b D F t fuel ws (Q : bool -> Sd (W := W) -> Prop) s (w : W) :
  on b D F w -> ws_ok ws -> (t <= 256)%nat -> (1 <= fuel)%nat -> (t <= 8 * (fuel - 1))%nat ->
  (forall ok ws' w', on b D F w' -> ws_ok ws' -> (b = true -> ok = true) ->
     (ok = true -> (forall k, within STAGING_LBA STAGING_SECTORS k -> ~ F k) ->
        take (SECTOR * t) ws' = take (SECTOR * t) (disk_read D STAGING_LBA STAGING_SECTORS)) -> Q ok (mkSd s ws' w')) ->
  wp (read_staging fuel 3 (t * SECTOR) 0) Q (mkSd s ws w).
Proof.
  intros Ho Hws Ht Hf Hfuel HQ. rewrite (Nat.mul_comm SECTOR t) in HQ. assert (E : (SECTOR * Nat.min t (8 * 0) = 0)%nat) by (rewrite Nat.min_0_r; apply Nat.mul_0_r).
  pose proof (wp_read_staging b D F t fuel 0 ws Q s w Ho Hws Ht Hf Hfuel) as HL. rewrite E, (Nat.mul_comm SECTOR t) in HL.
  apply HL; [by rewrite !take_0|exact HQ].
Qed.

(** ** The ciphertext: [t] sectors of the workspace after the header *)

(** Sectors of the slot already written. *)
Definition copied D lba (ws : list Z) (t : nat) : Prop :=
  forall i, (i < t)%nat -> D (lba + 1 + Z.of_nat i) = slice (i * SECTOR) SECTOR ws.

Lemma wp_write_app b F lba t fuel ws s (Q : bool -> Sd (W := W) -> Prop) : forall j D (w : W),
  on b D F w -> ws_ok ws -> 0 <= lba -> lba + 1 + Z.of_nat t <= VOLUME_SECTORS -> (t * SECTOR <= WS_LEN)%nat ->
  (1 <= fuel)%nat -> (t <= 8 * (j + fuel - 1))%nat -> copied D lba ws (Nat.min t (8 * j)) ->
  (forall ok D' w', on b D' F w' -> same_except (within (lba + 1) (Z.of_nat t)) D D' -> (b = true -> ok = true) ->
     (ok = true -> copied D' lba ws t) -> Q ok (mkSd s ws w')) ->
  wp (write_app fuel 3 lba (SECTOR * t) (SECTOR * Nat.min t (8 * j))) Q (mkSd s ws w).
Proof.
  induction fuel as [|fuel IH]; intros j D w Ho Hws Hl0 Hl1 Ht Hf Hfuel Hcp HQ; [lia|]. cbn [write_app]. unfold SECTOR in *.
  destruct (Nat.ltb_spec (512 * Nat.min t (8 * j)) (512 * t)) as [Hlt|Hge]; cycle 1.
  { apply wp_ret, (HQ _ D); [done|done|done|]. intros _. by replace t with (Nat.min t (8 * j)) by lia. }
  assert (Hd : (512 * Nat.min t (8 * j) = 512 * (8 * j))%nat) by lia.
  set (c := Nat.min (t - 8 * j) 8). assert (Hn : Nat.min (512 * t - 512 * Nat.min t (8 * j)) (8 * 512) = (c * 512)%nat) by (unfold c; lia).
  rewrite Hn, (Nat.div_mul c 512), Hd in * by lia. rewrite (Nat.mul_comm 512 (8 * j)), Nat.div_mul by lia.
  assert (Hc : (1 <= c <= 8)%nat) by (unfold c; lia). assert (Hcz : (8 * j + c <= t)%nat) by (unfold c; lia). destruct Hws as [Hwl Hwb].
  apply wp_bind. unfold workspace. apply wp_gets. cbn [sd_ws]. apply wp_bind.
  eapply (wp_bw b D F); [exact Ho|lia|unfold SECTOR; rewrite length_slice by lia; lia|by apply bytes_slice|].
  intros ok D1 w1 Ho1 Hd1 Hw1 Hr. unfold VOLUME_SECTORS in *.
  assert (Hsub : same_except (within (lba + 1) (Z.of_nat t)) D D1).
  { eapply same_except_weaken; [exact Hd1|]. intros k Hk. unfold within in *. lia. }
  destruct ok; cbn [negb]; cycle 1.
  { apply wp_ret, (HQ _ D1); [done|done| |done]. intros Hb. apply Hr; [done|lia|lia]. }
  assert (Hnext : (8 * j * 512 + c * 512 = 512 * Nat.min t (8 * S j))%nat) by (unfold c; lia). rewrite Hnext.
  apply (IH (S j) D1); [done|done|done|done|done|lia|lia| |].
  - intros i Hi. rewrite Hw1 by done. unfold disk_write, SECTOR.
    destruct ((lba + 1 + Z.of_nat (8 * j) <=? lba + 1 + Z.of_nat i) && _) eqn:E; bool_facts.
    + replace (Z.to_nat _) with (i - 8 * j)%nat by lia. rewrite slice_slice by lia. f_equal. lia.
    + apply Hcp. apply andb_false_iff in E as [E|E]; bool_facts; lia.
  - intros ok' D2 w2 Ho2 Hd2 Hb2 Hc2. apply (HQ ok' D2); [done|by eapply same_except_trans|done|done].
Qed.

(** ** Publication: payload and header of one slot, nothing else *)

Lemma app_sectors n : Z.of_nat n <= 130880 -> let t := ((n + SECTOR - 1) / SECTOR)%nat in
  (n <= t * SECTOR /\ t * SECTOR < n + SECTOR /\ t <= 256 /\ t <= 8 * (0 + passes (t * SECTOR) - 1) /\ 1 <= passes (t * SECTOR))%nat.
Proof.
  intros Hn. cbv zeta. unfold passes, SECTOR. change (8 * 512)%nat with 4096%nat.
  pose proof (Nat.div_mod (n + 512 - 1) 512 ltac:(lia)) as Hd. pose proof (Nat.mod_upper_bound (n + 512 - 1) 512 ltac:(lia)).
  set (t := ((n + 512 - 1) / 512)%nat) in *.
  pose proof (Nat.div_mod (t * 512) 4096 ltac:(lia)). pose proof (Nat.mod_upper_bound (t * 512) 4096 ltac:(lia)). lia.
Qed.

Lemma wp_publish b D F slot name version sig payload bytes (Q : option (list Z) -> Sd (W := W) -> Prop) s ws (w : W) :
  on b D F w -> ws_ok ws -> service_ok s -> slots_only F ->
  0 <= slot < APP_SLOTS -> (0 < length name <= APP_NAME_MAX)%nat -> bytes_ok name -> fits 64 version -> length sig = 64%nat -> bytes_ok sig ->
  (0 < length payload)%nat -> (APP_PKG_HEADER + length payload <= bytes)%nat -> Z.of_nat bytes <= 131072 ->
  payload = slice APP_PKG_HEADER (length payload) ws ->
  (forall r D' ws' w', on b D' F w' -> ws_ok ws' -> same_except (app_region slot) D D' -> (b = true -> r = None) ->
     (forall e, r = Some e -> e = str "err: app io") -> (r = None -> published D' (vol_key s) slot name version payload sig) -> Q r (mkSd s ws' w')) ->
  wp (publish_app 3 slot (app_lba slot) name version sig (length payload) bytes) Q (mkSd s ws w).
Proof.
  intros Ho Hws Hso HF Hslot Hn Hnb Hv Hsl Hsb Hp0 Hbytes Hbytes2 Epay HQ. unfold publish_app. pose proof WS_LEN_Z as HWZ.
  unfold APP_PKG_HEADER in *. destruct (app_sectors (length payload) ltac:(lia)) as (T1 & T2 & T3 & T4 & T5).
  set (t := ((length payload + SECTOR - 1) / SECTOR)%nat) in *. pose proof Hws as [Hwl Hwb].
  apply wp_bind. unfold st. apply wp_gets. apply wp_bind. unfold workspace. apply wp_gets. cbn [sd_st sd_ws].
  set (raw1 := splice 0 (slice 192 (bytes - 192) ws) ws). set (raw2 := splice (length payload) (replicate (t * SECTOR - length payload) 0) raw1).
  assert (Hs1 : length (slice 192 (bytes - 192) ws) = (bytes - 192)%nat) by (apply length_slice; lia).
  assert (W1 : ws_ok raw1) by (apply ws_ok_splice; [done|rewrite Hs1; lia|by apply bytes_slice]).
  assert (W2 : ws_ok raw2) by (apply ws_ok_splice; [done|rewrite length_replicate; unfold SECTOR in *; lia|apply Forall_replicate; red; lia]).
  assert (E2 : take (length payload) raw2 = payload).
  { unfold raw2. rewrite take_splice_le by (split; [done|destruct W1; lia]). unfold raw1.
    change (splice 0 ?src ws) with (src ++ drop (length src) ws). rewrite take_app_le by lia.
    rewrite Epay at 2. unfold slice. rewrite take_take, Nat.min_l by lia. done. }
  clearbody raw2. apply wp_bind. unfold fill_workspace. apply wp_modify. cbn [sd_st sd_ws sd_env]. rewrite E2.
  destruct (sealed_header (vol_key s) slot name version payload sig) as (hdr & Ew & Hsealed);
    [apply Hso|done|done|done|done|unfold APP_PAYLOAD_CAP, APP_SLOT_SECTORS; lia|done|done|].
  apply wp_bind. eapply wp_expect; [exact Ew|]. apply wp_bind, wp_modify. cbn [sd_st sd_ws sd_env].
  set (ct := ChaCha20.xor_stream (vol_key s) 0 (app_nonce slot version) payload). specialize (Hsealed ct). cbv zeta in Hsealed.
  set (hdr' := splice APP_HDR_MAC_OFF (app_header_mac (vol_key s) hdr ct) hdr) in *. destruct Hsealed as (Hhok & Hmac & Hh).
  assert (Hct : length ct = length payload) by apply ChaCha20.length_xor_stream.
  set (raw3 := splice 0 ct raw2). assert (W3 : ws_ok raw3).
  { apply ws_ok_splice; [done|lia|]. apply xor_stream_ok. rewrite Epay. by apply bytes_slice. }
  pose proof (app_lba_bounds slot Hslot) as [B1 B2]. unfold APP_START_LBA, STAGING_LBA, APP_SLOT_SECTORS in B1, B2.
  apply wp_bind. eapply (wp_bw b D F); [exact Ho|lia|done|apply zeros_ok|]. intros ok D1 w1 Ho1 Hd1 _ Hr1.
  assert (R1 : same_except (app_region slot) D D1).
  { eapply same_except_weaken; [exact Hd1|]. intros k Hk. unfold app_region, within, APP_SLOT_SECTORS in *. lia. }
  unfold VOLUME_SECTORS in Hr1. destruct ok; cbn [negb]; cycle 1.
  { apply wp_ret, (HQ _ D1); [done|done|done| |by intros ? [= <-]|done]. intros Hb. specialize (Hr1 Hb ltac:(lia) ltac:(lia)). done. }
  apply wp_bind. rewrite (Nat.mul_comm t SECTOR) at 2. replace 0%nat with (SECTOR * Nat.min t (8 * 0))%nat at 1 by (rewrite Nat.min_0_r; done).
  apply (wp_write_app b F (app_lba slot) t _ raw3 s) with (D := D1);
    [done|done|lia|unfold VOLUME_SECTORS; lia|unfold SECTOR; lia|exact T5|exact T4|intros i Hi; rewrite Nat.min_0_r in Hi; lia|].
  intros ok D2 w2 Ho2 Hd2 Hr2 Hcp.
  assert (R2 : same_except (app_region slot) D1 D2).
  { eapply same_except_weaken; [exact Hd2|]. intros k Hk. unfold app_region, within, APP_SLOT_SECTORS in *. lia. }
  destruct ok; cbn [negb]; cycle 1.
  { apply wp_ret, (HQ _ D2); [done|done|by eapply same_except_trans| |by intros ? [= <-]|done]. intros Hb. by specialize (Hr2 Hb). }
  apply wp_bind. eapply (wp_bw b D2 F); [exact Ho2|lia|apply Hhok|apply Hhok|]. intros ok D3 w3 Ho3 Hd3 Hw3 Hr3.
  assert (R3 : same_except (app_region slot) D D3).
  { eapply same_except_trans; [eapply same_except_trans; [exact R1|exact R2]|]. eapply same_except_weaken; [exact Hd3|].
    intros k Hk. unfold app_region, within, APP_SLOT_SECTORS in *. lia. }
  unfold VOLUME_SECTORS in Hr3. destruct ok; cbn [negb]; cycle 1.
  { apply wp_ret, (HQ _ D3); [done|done|done| |by intros ? [= <-]|done]. intros Hb. specialize (Hr3 Hb ltac:(lia) ltac:(lia)). done. }
  apply wp_ret, (HQ _ D3); [done|done|done|done|done|]. intros _. specialize (Hw3 eq_refl).
  assert (Ehdr : D3 (app_lba slot) = hdr').
  { rewrite Hw3. unfold disk_write. rewrite (proj2 (Z.leb_le _ _)), (proj2 (Z.ltb_lt _ _)), Z.sub_diag by lia. cbn [andb].
    unfold slice. cbn [Z.to_nat Nat.mul]. rewrite drop_0, take_ge; [done|]. by rewrite (proj1 Hhok). }
  assert (Ect : app_ct D3 slot (length payload) = ct).
  { unfold app_ct. pose proof (on_ok b D3 F w3 Ho3) as HD3. rewrite (take_disk_read_le D3 _ (Z.of_nat t)) by (exact HD3 || unfold APP_SLOT_SECTORS, SECTOR in *; lia).
    rewrite (disk_read_chunks D3 (app_lba slot + 1) t (take (t * SECTOR) raw3)).
    - rewrite take_take, Nat.min_l by lia. unfold raw3. rewrite <- Hct. change (length ct) with (0 + length ct)%nat. by rewrite take_splice by lia.
    - rewrite length_take. destruct W3 as [Hw3l _]. unfold SECTOR in *. lia.
    - intros i Hi. rewrite Hw3. unfold disk_write. rewrite (proj2 (andb_false_iff _ _)) by (right; apply Z.ltb_ge; lia).
      rewrite (Hcp eq_refl i Hi). unfold slice. rewrite skipn_firstn_comm, take_take. f_equal. unfold SECTOR. lia. }
  destruct Hh as (h & Hparse & Hf1 & Hf2 & Hf3 & Hf4 & Hf5 & Hf6). exists h. rewrite Ehdr, Ect.
  repeat (split; [assumption|]). unfold ct. apply ChaCha20.xor_stream_twice.
Qed.
End store.
