(* ===== verification/StorageInstall.v ===== *)
(** * Installing, removing and serving applications

    [install_app] and [remove_app] as outcomes on state and volume; what
    [cache_app] authenticates and [app_chunk] serves; the application table
    [load_apps] builds at mount. *)

From S2P Require Import Prelude RustStd HashStream Sha256 Hmac ChaCha20 Ed25519 Layout LayoutTheorems Prog Userlib StorageText StorageConfig Storaged StorageEnv StorageLoad StorageAudit StorageInv StorageApps.
Import Layout Text Storaged.

#[local] Opaque Ed25519.verify Sha256.sha256 Hmac.oneshot Hmac.reference ChaCha20.xor_stream WS_LEN.

(** ** Packages *)

Record package_wf (pkg : AppPackage) (buf : list Z) : Prop := {
  pw_name : length (ap_name pkg) = APP_NAME_MAX /\ bytes_ok (ap_name pkg) /\ (0 < ap_name_len pkg <= APP_NAME_MAX)%nat;
  pw_payload : ap_payload pkg = slice APP_PKG_HEADER (length (ap_payload pkg)) buf /\ (0 < length (ap_payload pkg))%nat /\
    (APP_PKG_HEADER + length (ap_payload pkg) <= length buf)%nat;
  pw_version : fits 64 (ap_version pkg);
  pw_sha : length (ap_payload_sha pkg) = 32%nat /\ bytes_ok (ap_payload_sha pkg);
  pw_sig : length (ap_signature pkg) = 64%nat /\ bytes_ok (ap_signature pkg);
}.

Lemma parse_package_wf buf pkg : bytes_ok buf -> parse_app_stage_package buf = Some pkg -> package_wf pkg buf.
Proof.
  intros Hb. unfold parse_app_stage_package. destruct (_ || _ || _) eqn:E0; [done|]. cbv zeta.
  destruct (_ || _ || _ || _) eqn:E1; [done|]. destruct (Z.ltb_spec (Z.of_nat (length buf)) (Z.of_nat APP_PKG_HEADER + le_field 12 4 buf)) as [|Hl]; [done|].
  intros [= <-]. apply orb_false_iff in E0 as [E0 _]. apply orb_false_iff in E0 as [E0 _]. apply Nat.ltb_ge in E0. bool_facts.
  pose proof (byte_at_ok 9 buf Hb) as B9. offsets. pose proof (le_field_fits 12 4 buf Hb ltac:(lia)) as F12.
  pose proof (le_field_fits 16 8 buf Hb ltac:(lia)) as F16. unfold is_byte, fits in *. change (8 * Z.of_nat 8) with 64 in F16.
  split; cbn [ap_name ap_name_len ap_payload ap_version ap_payload_sha ap_signature]; unfold APP_NAME_MAX, APP_PKG_HEADER.
  - split; [apply length_slice; lia|]. split; [by apply bytes_slice|]. lia.
  - rewrite length_slice by lia. split; [done|]. lia.
  - exact F16.
  - split; [apply length_slice; lia|by apply bytes_slice].
  - split; [apply length_slice; lia|by apply bytes_slice].
Qed.

(** ** Choosing a slot *)

Lemma best_app_In apps name e : best_app apps name = Some e -> e ∈ apps /\ same_app_name e name = true.
Proof.
  unfold best_app. assert (Hg : forall l acc, foldl newer acc l = Some e -> acc = Some e \/ e ∈ l).
  { induction l as [|a l IH]; intros acc E; [by left|]. cbn [foldl] in E. apply IH in E as [E|E]; [|right; by apply list_elem_of_further].
    unfold newer in E. destruct acc as [x|]; [destruct (_ <=? _)|]; injection E as <-; [right; apply list_elem_of_here|by left|right; apply list_elem_of_here]. }
  intros E. apply Hg in E as [E|E]; [done|]. apply list_elem_of_In, filter_In in E as [E1 E2]. split; [by apply list_elem_of_In|done].
Qed.

(** The best entry has the greatest version of its name. *)
Lemma best_app_max apps name e a : best_app apps name = Some e -> a ∈ apps -> same_app_name a name = true -> ae_version a <= ae_version e.
Proof.
  unfold best_app. intros E Ha Hn.
  assert (Hin : a ∈ List.filter (fun a => same_app_name a name) apps) by (apply list_elem_of_In, filter_In; split; [by apply list_elem_of_In|done]).
  revert E Hin. generalize (List.filter (fun a => same_app_name a name) apps). intros l E Hin.
  assert (Hg : forall l acc, foldl newer acc l = Some e -> (forall b, acc = Some b -> ae_version b <= ae_version e) /\ forall a, a ∈ l -> ae_version a <= ae_version e).
  { clear. induction l as [|x l IH]; intros acc E; cbn [foldl] in E.
    - split; [by intros b ->; injection E as ->|]. by intros a ?%not_elem_of_nil.
    - apply IH in E as [E1 E2]. assert (Hx : ae_version x <= ae_version e /\ forall b, acc = Some b -> ae_version b <= ae_version e).
      { unfold newer in E1. destruct acc as [b|]; [|split; [by apply E1|done]]. destruct (Z.leb_spec (ae_version b) (ae_version x)).
        - split; [by apply E1|]. intros b' [= <-]. specialize (E1 x eq_refl). lia.
        - specialize (E1 b eq_refl). split; [lia|]. by intros b' [= <-]. }
      destruct Hx as [Hx Hb]. split; [done|]. intros a [->|Ha]%elem_of_cons; [done|by apply E2]. }
  by apply (Hg l None E).
Qed.

Lemma app_peer_ok slot p : 0 <= slot < APP_SLOTS -> app_peer_slot slot = Some p -> 0 <= p < APP_SLOTS /\ p <> slot.
Proof.
  unfold app_peer_slot, APP_SLOTS. intros Hs. rewrite (proj2 (Z.ltb_lt _ _)) by lia. intros [= <-].
  assert (slot = 0 \/ slot = 1 \/ slot = 2 \/ slot = 3 \/ slot = 4 \/ slot = 5 \/ slot = 6 \/ slot = 7) as Hc by lia.
  repeat destruct Hc as [->|Hc]; try (vm_compute; intuition congruence). subst. vm_compute. intuition congruence.
Qed.

(** The slot installed into is never the one the name is served from. *)
Lemma target_slot_ok apps name slot : Forall entry_wf apps -> target_app_slot apps name = Some slot ->
  0 <= slot < APP_SLOTS /\
  match best_app apps name with
  | Some e => ae_slot e <> slot
  | None => forall a, a ∈ apps -> ae_slot a <> slot
  end.
Proof.
  intros Hwf. unfold target_app_slot. destruct (best_app apps name) as [e|] eqn:E.
  - intros Hp. apply best_app_In in E as [Hin _]. rewrite Forall_forall in Hwf.
    destruct (app_peer_ok (ae_slot e) slot (ew_slot e (Hwf e Hin)) Hp). split; [done|congruence].
  - intros Hf. apply find_In in Hf as [Hin Hn]. split; [unfold APP_SLOTS; set_solver by lia|].
    intros a Ha Es. apply negb_true_iff in Hn. apply not_true_iff_false in Hn. apply Hn. apply existsb_exists.
    exists a. split; [by apply list_elem_of_In|]. apply orb_true_iff. left. by apply Z.eqb_eq.
Qed.

(** The package is well signed and newer than what its name has. *)
Definition acceptable s (pkg : AppPackage) : Prop :=
  let name := take (ap_name_len pkg) (ap_name pkg) in
  app_name_valid name = true /\ Sha256.sha256 (ap_payload pkg) = ap_payload_sha pkg /\
  Ed25519.verify (pubkey s) (app_signing_message name (ap_version pkg) (Z.of_nat (length (ap_payload pkg))) (ap_payload_sha pkg))
    (ap_signature pkg) = Some (Ok tt) /\
  (forall a, a ∈ apps s -> same_app_name a name = true -> ae_version a < ap_version pkg).

(** A removal: refused, or the slots of [name] erased; the table loses the
    name only after every header is erased. *)
Definition removed (b : bool) D D' s (name : list Z) s' (r : list Z) : Prop :=
  same_except (fun k => audit_tail s k \/ exists a, a ∈ apps s /\ same_app_name a name = true /\ k = app_lba (ae_slot a)) D D' /\
  ( (s' = s /\ ((r = str "err: app io" /\ b = false) \/ (forall k, D' k = D k) /\
       ((r = str "err: invalid app" /\ app_name_valid name = false) \/ (r = str "err: no volume" /\ block s = None) \/
        (r = str "err: no app" /\ forall a, a ∈ apps s -> same_app_name a name = false)))) \/
    (r = str "ok removed" /\ (forall a, a ∈ apps s -> same_app_name a name = true -> D' (app_lba (ae_slot a)) = zeros) /\
     advanced (set_apps (List.filter (fun a => negb (same_app_name a name)) (apps s)) None s) s') ).

(** The length of the package the staging area announces, and the package. *)
Definition stage_bytes D : option nat :=
  let head := D STAGING_LBA in
  if negb (bytes_eqb (slice 0 8 head) APP_PKG_MAGIC) || negb (byte_at 8 head =? APP_FORMAT_VERSION) then None else
  let package_len := le_field 12 4 head in
  if (package_len =? 0) || (APP_STAGE_CAP <? package_len) then None else
  Some (APP_PKG_HEADER + Z.to_nat package_len)%nat.

Definition staged D : option AppPackage :=
  n ← stage_bytes D; parse_app_stage_package (take n (disk_read D STAGING_LBA STAGING_SECTORS)).

(** The staged package may be installed. *)
Definition installable D s (pkg : AppPackage) slot : Prop :=
  staged D = Some pkg /\ acceptable s pkg /\ target_app_slot (apps s) (take (ap_name_len pkg) (ap_name pkg)) = Some slot.

(** The outcomes of an installation. *)
Inductive installed (b : bool) (D D' : Z -> list Z) (s s' : State) : list Z -> Prop :=
  | inst_refused r : r <> [] -> take 3 r = str "err" -> (forall k, D' k = D k) -> s' = s ->
      (b = true -> recovery s = false -> block s = Some 3 -> forall pkg slot, ~ installable D s pkg slot) -> installed b D D' s s' r
  | inst_failed slot pkg : b = false -> installable D s pkg slot ->
      same_except (app_region slot) D D' -> s' = s -> installed b D D' s s' (str "err: app io")
  | inst_done slot pkg :
      let name := take (ap_name_len pkg) (ap_name pkg) in
      let entry := mkAppEntry slot (ap_name pkg) (ap_name_len pkg) (Z.of_nat (length (ap_payload pkg))) (ap_version pkg)
                     (ap_payload_sha pkg) (ap_signature pkg) in
      installable D s pkg slot ->
      same_except (fun k => app_region slot k \/ audit_tail s k) D D' ->
      published D' (vol_key s) slot name (ap_version pkg) (ap_payload pkg) (ap_signature pkg) ->
      advanced (set_apps (List.filter (fun a => negb (ae_slot a =? slot)) (apps s) ++ [entry]) None s) s' ->
      installed b D D' s s' (push_num (str "ok app " ++ name ++ str " v") (ap_version pkg)).

Lemma app_holds_unique D key pk e1 p1 e2 p2 :
  app_holds D key pk e1 p1 -> app_holds D key pk e2 p2 -> ae_slot e1 = ae_slot e2 -> e1 = e2 /\ p1 = p2.
Proof.
  intros (h1 & E1 & He1 & _ & _ & -> & _) (h2 & E2 & He2 & _ & _ & -> & _) Es. rewrite Es, E2 in E1. injection E1 as <-.
  rewrite <- He2 in He1. by rewrite He1.
Qed.

(** Two entries for the same program: the unused bytes of the name may differ. *)
Record same_program (e e' : AppEntry) : Prop := {
  sp_slot : ae_slot e' = ae_slot e;
  sp_name : entry_name e' = entry_name e;
  sp_len : ae_payload_len e' = ae_payload_len e;
  sp_version : ae_version e' = ae_version e;
  sp_sha : ae_payload_sha e' = ae_payload_sha e;
}.

(** The slot of the entry holds its program. *)
Definition held (D : Z -> list Z) (key pk : list Z) (e : AppEntry) : Prop :=
  exists e' plain, same_program e e' /\ app_holds D key pk e' plain.

Lemma held_ext D D' key pk e : (forall k, app_region (ae_slot e) k -> D' k = D k) -> held D key pk e -> held D' key pk e.
Proof.
  intros HD (e' & plain & Hs & Hh). exists e', plain. split; [exact Hs|]. apply (app_holds_ext D); [|exact Hh].
  rewrite (sp_slot _ _ Hs). exact HD.
Qed.

Lemma app_holds_held D key pk e plain : app_holds D key pk e plain -> held D key pk e.
Proof. intros Hh. exists e, plain. by split. Qed.

(** What [cache_app] returned, and how. *)
Definition cached (b : bool) (D : Z -> list Z) s ws name (r : option AppEntry) s' ws' : Prop :=
  match r with
  | None => s' = s /\ (b = true -> block s = Some 3 -> forall best, best_app (apps s) name = Some best -> ~ held D (vol_key s) (pubkey s) best)
  | Some e => exists best, best_app (apps s) name = Some best /\ ae_slot e = ae_slot best /\ ae_version e = ae_version best /\ entry_wf e /\
      ( (cached_app s = Some e /\ s' = s /\ ws' = ws) \/
        (s' = set_cached (Some e) s /\ ae_payload_sha e = ae_payload_sha best /\
         app_holds D (vol_key s) (pubkey s) e (take (Z.to_nat (ae_payload_len e)) ws')) )
  end.

(** Forty bytes from [off] of the program in the workspace. *)
Definition chunk_of (e : AppEntry) (ws : list Z) (off : Z) : list Z :=
  if ae_payload_len e <=? off then [] else
  splice 0 (slice (Z.to_nat off) (Nat.min (Z.to_nat (ae_payload_len e) - Z.to_nat off) 40) ws) (replicate 40 0).

(** What [load_apps] puts in the table. *)
Definition table_of (b : bool) (D : Z -> list Z) key pk (slots : list Z) (l : list AppEntry) : Prop :=
  Forall entry_wf l /\ NoDup (ae_slot <$> l) /\
  (forall e, e ∈ l -> ae_slot e ∈ slots /\ exists plain, app_holds D key pk e plain) /\
  (b = true -> forall e plain, app_holds D key pk e plain -> ae_slot e ∈ slots -> e ∈ l).

Lemma app_region_audit slot k : 0 <= slot < APP_SLOTS -> app_region slot k -> audit_region k -> False.
Proof.
  intros Hs Hk Ha. pose proof (app_lba_bounds slot Hs). unfold app_region, audit_region, within, APP_START_LBA, AUDIT_START_LBA in *.
  change AUDIT_RECORDS with 13311 in Ha. lia.
Qed.

Lemma NoDup_slots_filter (p : AppEntry -> bool) l : NoDup (ae_slot <$> l) -> NoDup (ae_slot <$> List.filter p l).
Proof.
  induction l as [|a l IH]; [done|]. rewrite fmap_cons, NoDup_cons. intros [Hn Hd]. cbn [List.filter].
  destruct (p a); [|by apply IH]. rewrite fmap_cons, NoDup_cons. split; [|by apply IH].
  intros Hin. apply Hn. apply list_elem_of_fmap in Hin as (x & Ex & Hx). apply list_elem_of_In, filter_In in Hx as [Hx _].
  apply list_elem_of_fmap. exists x. split; [done|by apply list_elem_of_In].
Qed.

Lemma Forall_filter_b {A} (P : A -> Prop) (p : A -> bool) l : Forall P l -> Forall P (List.filter p l).
Proof. rewrite !Forall_forall. intros Hf x Hx. apply list_elem_of_In, filter_In in Hx as [Hx _]. apply Hf. by apply list_elem_of_In. Qed.

Section install.
Context {W : Type} `{Volume W}.
Implicit Types (D : Z -> list Z) (F : Z -> Prop).

Lemma wp_record_app b D F entry (Q : list Z -> Sd (W := W) -> Prop) s ws (w : W) :
  serving b D F (mkSd s ws w) -> recovery s = false -> entry_wf entry -> bytes_ok (ae_name entry) ->
  (forall D' s' w', serving b D' F (mkSd s' ws w') -> same_except (audit_tail s) D D' ->
     advanced (set_apps (List.filter (fun a => negb (ae_slot a =? ae_slot entry)) (apps s) ++ [entry]) None s) s' ->
     Q (push_num (str "ok app " ++ entry_name entry ++ str " v") (ae_version entry)) (mkSd s' ws w')) ->
  wp (record_app entry) Q (mkSd s ws w).
Proof.
  intros [Ho Hws Hs Ha] Hrec He Hn HQ. cbn [sd_st sd_ws sd_env] in *. unfold record_app, upd. apply wp_bind, wp_modify. cbn [sd_st sd_ws sd_env].
  set (s1 := set_apps _ None s). assert (Hs1 : service_ok s1).
  { apply service_ok_apps; [done| | |done|done].
    - apply Forall_app. split; [apply Forall_filter_b, Hs|by apply Forall_singleton].
    - rewrite fmap_app. apply NoDup_app. split; [apply NoDup_slots_filter, Hs|]. split; [|apply NoDup_singleton].
      intros x Hx Hy. apply list_elem_of_singleton in Hy as ->. apply list_elem_of_fmap in Hx as (a & Ea & Hin).
      apply list_elem_of_In, filter_In in Hin as [_ Hne]. apply negb_true_iff, Z.eqb_neq in Hne. congruence. }
  apply wp_bind. eapply (wp_audit b D F); [split; [done|done|exact Hs1|by apply (audit_ok_state D s)]| |].
  { apply bytes_take, Forall_app. split; [apply str_ok|by apply bytes_take]. }
  intros D' s' w' Hsv (Hd & Hsame & _). apply wp_ret. by apply (HQ D').
Qed.

Lemma wp_accept_app b D F bytes pkg (Q : list Z -> Sd (W := W) -> Prop) s ws (w : W) :
  serving b D F (mkSd s ws w) -> slots_only F -> recovery s = false -> (bytes <= length ws)%nat -> Z.of_nat bytes <= 131072 ->
  parse_app_stage_package (take bytes ws) = Some pkg -> staged D = Some pkg ->
  (forall r D' s' ws' w', serving b D' F (mkSd s' ws' w') -> installed b D D' s s' r -> Q r (mkSd s' ws' w')) ->
  wp (accept_app 3 bytes pkg) Q (mkSd s ws w).
Proof.
  intros Hsv HF Hrec Hbl Hbz Hparse Hstage HQ. pose proof Hsv as [Ho Hws Hs Ha]. cbn [sd_st sd_ws sd_env] in *.
  assert (Hwf : package_wf pkg (take bytes ws)) by (apply parse_package_wf; [apply bytes_take, Hws|done]).
  destruct (pw_name _ _ Hwf) as (Hn1 & Hn2 & Hn3). destruct (pw_payload _ _ Hwf) as (Hp1 & Hp2 & Hp3).
  destruct (pw_sig _ _ Hwf) as [Hg1 Hg2]. rewrite length_take, Nat.min_l in Hp3 by done.
  set (name := take (ap_name_len pkg) (ap_name pkg)).
  assert (Href : forall r, (acceptable s pkg -> target_app_slot (apps s) name = None) -> r <> [] -> take 3 r = str "err" -> Q r (mkSd s ws w)).
  { intros r Hno Hr1 Hr2. apply (HQ r D s ws w Hsv). constructor; [done..|]. intros _ _ _ pkg' slot (I1 & I2 & I3).
    rewrite Hstage in I1. injection I1 as <-. fold name in I3. specialize (Hno I2). congruence. }
  unfold accept_app. fold name.
  destruct (app_name_valid name) eqn:En; cbn [negb orb]; [|apply wp_ret, Href; [intros (A1 & _); fold name in A1; congruence|done|done]].
  destruct (bytes_eqb (Sha256.sha256 (ap_payload pkg)) (ap_payload_sha pkg)) eqn:Eh; cbn [negb]; cycle 1.
  { apply wp_ret, Href; [|done|done]. intros (_ & A2 & _). apply bytes_eqb_eq in A2. congruence. }
  apply bytes_eqb_eq in Eh. apply wp_bind. unfold st. apply wp_gets. cbn [sd_st]. unfold id.
  destruct (so_pubkey s Hs) as [Hk1 Hk2].
  destruct (verify_returns (pubkey s) (app_signing_message name (ap_version pkg) (Z.of_nat (length (ap_payload pkg))) (ap_payload_sha pkg))
    (ap_signature pkg) Hk1 Hk2 Hg2 Hg1) as [v Ev].
  apply wp_bind. eapply wp_expect; [exact Ev|]. destruct v as [[]|e]; cbn [is_ok negb]; cycle 1.
  { apply wp_ret, Href; [|done|done]. intros (_ & _ & A3 & _). fold name in A3. congruence. }
  destruct (match best_app (apps s) name with Some old => ap_version pkg <=? ae_version old | None => false end) eqn:Est.
  { apply wp_ret, Href; [|done|done]. intros (_ & _ & _ & A4). fold name in A4. destruct (best_app (apps s) name) as [old|] eqn:Eb; [|done].
    destruct (best_app_In _ _ _ Eb) as [Hin Hn]. specialize (A4 old Hin Hn). bool_facts. lia. }
  assert (Hacc : acceptable s pkg).
  { split; [exact En|]. split; [exact Eh|]. split; [exact Ev|]. intros a Hain Han. fold name in Han.
    destruct (best_app (apps s) name) as [old|] eqn:Eb.
    - apply Z.leb_gt in Est. pose proof (best_app_max _ _ _ a Eb Hain Han). lia.
    - exfalso. unfold best_app in Eb.
      assert (Hin : a ∈ List.filter (fun a => same_app_name a name) (apps s)) by (apply list_elem_of_In, filter_In; split; [by apply list_elem_of_In|done]).
      revert Eb Hin. clear. generalize (List.filter (fun a => same_app_name a name) (apps s)). intros l.
      assert (Hg : forall l x, foldl newer (Some x) l <> None).
      { clear. induction l as [|y l IH]; intros x; [done|]. cbn [foldl newer]. destruct (_ <=? _); apply IH. }
      destruct l as [|y l]; [by intros _ ?%not_elem_of_nil|]. intros E _. by apply Hg in E. }
  destruct (target_app_slot (apps s) name) as [slot|] eqn:Et; [|by apply wp_ret, Href].
  destruct (target_slot_ok _ _ _ (so_apps s Hs) Et) as [Hslot _]. rewrite app_slot_lba_Some by done.
  assert (Hnl : length name = ap_name_len pkg) by (unfold name; rewrite length_take; lia).
  assert (Hpay : ap_payload pkg = slice APP_PKG_HEADER (length (ap_payload pkg)) ws).
  { rewrite Hp1 at 1. unfold slice. rewrite skipn_firstn_comm, take_take, Nat.min_l by (offsets; lia). done. }
  apply wp_bind. eapply (wp_publish b D F slot name (ap_version pkg) (ap_signature pkg) (ap_payload pkg) bytes);
    [exact Ho|exact Hws|exact Hs|exact HF|exact Hslot|lia|by apply bytes_take|apply Hwf|exact Hg1|exact Hg2|exact Hp2|lia|exact Hbz|exact Hpay|].
  intros r D1 ws1 w1 Ho1 Hws1 Hd1 Hrel Herr Hpub.
  assert (Hsv1 : serving b D1 F (mkSd s ws1 w1)).
  { split; [exact Ho1|exact Hws1|exact Hs|]. apply (audit_ok_ext D); [|exact Ha]. intros k Hk. apply Hd1. intros Hr.
    apply (app_region_audit slot k Hslot Hr). unfold audit_region, within in *; cbn [sd_st] in *. pose proof (au_seq _ _ Ha). lia. }
  destruct r as [err|].
  - apply wp_ret. assert (b = false) by (destruct b; [specialize (Hrel eq_refl); discriminate|reflexivity]).
    rewrite (Herr err eq_refl). apply (HQ _ D1 s ws1 w1 Hsv1). eapply (inst_failed b D D1 s s slot pkg); [assumption|by split|exact Hd1|reflexivity].
  - specialize (Hpub eq_refl). destruct (pw_sha _ _ Hwf) as [Hh1 Hh2].
    eapply wp_record_app; [exact Hsv1|exact Hrec| |exact Hn2|].
    + split; cbn [ae_slot ae_name ae_name_len ae_payload_len ae_version ae_payload_sha ae_signature]; try done; [lia| |apply Hwf].
      offsets. unfold APP_PAYLOAD_CAP, APP_SLOT_SECTORS. lia.
    + intros D2 s2 w2 Hsv2 Hd2 Hsame. apply (HQ _ D2 s2 ws1 w2 Hsv2).
      apply (inst_done b D D2 s s2 slot pkg); [by split| | |exact Hsame].
      * eapply same_except_trans; [eapply same_except_weaken; [exact Hd1|]; by left|eapply same_except_weaken; [exact Hd2|]; by right].
      * eapply published_ext; [|exact Hpub]. intros k Hk. apply Hd2. intros [Hau _]. by eapply app_region_audit.
Qed.

Lemma staging_clean F : slots_only F -> forall k, within STAGING_LBA STAGING_SECTORS k -> ~ F k.
Proof. intros HF k Hk. apply (slots_only_outside F k HF). unfold within, STAGING_LBA in Hk. lia. Qed.

(** The package is read into the workspace, over whatever was there. *)
Lemma wp_stage_read b D F (Q : list Z -> Sd (W := W) -> Prop) s ws (w : W) :
  serving b D F (mkSd s ws w) -> slots_only F ->
  (forall r ws' w', on b D F w' -> ws_ok ws' -> (b = true -> recovery s = false -> block s = Some 3 -> stage_bytes D = None) ->
     r <> [] -> take 3 r = str "err" -> Q r (mkSd s ws' w')) ->
  (forall n ws' w', recovery s = false -> block s = Some 3 -> on b D F w' -> ws_ok ws' -> stage_bytes D = Some n ->
     (n <= length ws')%nat -> Z.of_nat n <= 131072 -> take n ws' = take n (disk_read D STAGING_LBA STAGING_SECTORS) ->
     wp (match parse_app_stage_package (take n ws') with None => mret (str "err: malformed app") | Some pkg => accept_app 3 n pkg end) Q (mkSd s ws' w')) ->
  wp install_app Q (mkSd s ws w).
Proof.
  intros [Ho Hws Hs Ha] HF Href Hread. cbn [sd_st sd_ws sd_env] in *.
  unfold install_app, st. apply wp_bind, wp_gets. cbn [sd_st]. unfold id.
  destruct (so_block s Hs) as [E|E]; rewrite E; cbv iota; [apply wp_ret, Href; [done|done|congruence|done|done]|].
  destruct (recovery s) eqn:Hrec; [apply wp_ret, Href; [done|done|congruence|done|done]|].
  apply wp_bind. eapply (wp_br1 b D F); [exact Ho|apply zeros_ok|]. intros ok head w1 Ho1 [Hhl Hhb] Hhd Hhr. cbv beta.
  unfold STAGING_LBA, VOLUME_SECTORS in Hhr.
  destruct ok; cbn [negb]; [|apply wp_ret, Href; [done|done|intros Hb; specialize (Hhr Hb ltac:(lia)); done|done|done]].
  assert (Hhead : head = D STAGING_LBA) by (apply Hhd; [done|]; apply (slots_only_outside F); [exact HF|unfold STAGING_LBA; lia]). clear Hhd Hhr.
  pose proof (eq_refl (stage_bytes D)) as Estg. unfold stage_bytes in Estg at 2. rewrite <- Hhead in Estg. cbv zeta in Estg.
  destruct (negb _ || negb _); [by apply wp_ret, Href|]. cbv zeta.
  destruct ((le_field 12 4 head =? 0) || (APP_STAGE_CAP <? le_field 12 4 head)) eqn:Eg; [by apply wp_ret, Href|].
  bool_facts. change APP_STAGE_CAP with 130880 in *. offsets.
  pose proof (le_field_fits 12 4 head Hhb ltac:(lia)) as [Hf0 _].
  set (bytes := (192 + Z.to_nat (le_field 12 4 head))%nat). assert (Hb1 : Z.of_nat bytes <= 131072) by (unfold bytes; lia).
  set (t := ((bytes + 512 - 1) / 512)%nat).
  assert (Ht : (bytes <= 512 * t /\ t <= 256 /\ t <= 8 * (0 + passes (t * 512) - 1) /\ 1 <= passes (t * 512))%nat).
  { unfold passes, SECTOR. change (8 * 512)%nat with 4096%nat.
    pose proof (Nat.div_mod (bytes + 512 - 1) 512 ltac:(lia)) as Hd. pose proof (Nat.mod_upper_bound (bytes + 512 - 1) 512 ltac:(lia)).
    fold t in Hd. pose proof (Nat.div_mod (t * 512) 4096 ltac:(lia)). pose proof (Nat.mod_upper_bound (t * 512) 4096 ltac:(lia)). lia. }
  destruct Ht as (Ht1 & Ht2 & Ht3 & Ht4). apply wp_bind.
  eapply (wp_read_staging_all b D F t); [exact Ho1|exact Hws|exact Ht2|exact Ht4|exact Ht3|].
  intros ok ws2 w2 Ho2 Hws2 Hrel Hcont. unfold SECTOR in Hcont.
  destruct ok; cbn [negb]; [|apply wp_ret, Href; [done|done|intros Hb; by specialize (Hrel Hb)|done|done]].
  apply wp_bind. unfold workspace. apply wp_gets. cbn [sd_ws]. specialize (Hcont eq_refl (staging_clean F HF)).
  apply Hread; [done|done|done|done|exact Estg| |exact Hb1|].
  - destruct Hws2 as [-> _]. pose proof WS_LEN_Z. lia.
  - apply (f_equal (take bytes)) in Hcont. by rewrite !take_take, !Nat.min_l in Hcont by lia.
Qed.

Lemma wp_install_app b D F (Q : list Z -> Sd (W := W) -> Prop) s ws (w : W) :
  serving b D F (mkSd s ws w) -> slots_only F ->
  (forall r D' s' ws' w', serving b D' F (mkSd s' ws' w') -> installed b D D' s s' r -> Q r (mkSd s' ws' w')) ->
  wp install_app Q (mkSd s ws w).
Proof.
  intros Hsv HF HQ. pose proof Hsv as [Ho Hws Hs Ha]. cbn [sd_st sd_ws sd_env] in *.
  assert (Href : forall r ws' w', on b D F w' -> ws_ok ws' -> (b = true -> recovery s = false -> block s = Some 3 -> staged D = None) ->
    r <> [] -> take 3 r = str "err" -> Q r (mkSd s ws' w')).
  { intros r ws' w' Ho' Hws' Hno Hr1 Hr2. apply (HQ r D s ws' w'); [by split|]. constructor; [done..|]. intros Hb Hr Hblk pkg slot (I1 & _).
    rewrite Hno in I1 by done. done. }
  eapply wp_stage_read; [exact Hsv|exact HF|..].
  - intros r ws' w' Ho' Hws' Hno Hr1 Hr2. apply Href; [done|done| |done|done]. intros Hb Hr Hblk. unfold staged. by rewrite Hno.
  - intros n ws' w' Hrec Hblk Ho' Hws' En Hn Hnz Et.
    assert (Estg : staged D = parse_app_stage_package (take n ws')) by (unfold staged; rewrite En, Et; done).
    destruct (parse_app_stage_package (take n ws')) as [pkg|] eqn:Ep; [|by apply wp_ret, Href].
    by eapply wp_accept_app; [split; [exact Ho'|exact Hws'|exact Hs|exact Ha]|..].
Qed.

(** ** Removal *)

Lemma wp_erase_apps b F s ws (Q : option bool -> Sd (W := W) -> Prop) entries : forall D rem (w : W),
  on b D F w -> slots_only F -> Forall entry_wf entries ->
  (forall r D' w', on b D' F w' -> same_except (fun k => exists a, a ∈ entries /\ k = app_lba (ae_slot a)) D D' ->
     match r with
     | None => b = false
     | Some x => (forall a, a ∈ entries -> D' (app_lba (ae_slot a)) = zeros) /\ x = rem || negb (length entries =? 0)%nat
     end -> Q r (mkSd s ws w')) ->
  wp (erase_apps 3 entries rem) Q (mkSd s ws w).
Proof.
  induction entries as [|a entries IH]; intros D rem w Ho HF Hwf HQ; cbn [erase_apps].
  - apply wp_ret, (HQ _ D); [done|done|]. split; [by intros a ?%not_elem_of_nil|]. by rewrite orb_false_r.
  - apply Forall_cons in Hwf as [Ha Hwf]. pose proof (app_lba_bounds _ (ew_slot a Ha)) as [B1 B2].
    rewrite app_slot_lba_Some by apply Ha. unfold APP_START_LBA, STAGING_LBA, APP_SLOT_SECTORS in *. apply wp_bind.
    eapply (wp_bw b D F); [exact Ho|lia|done|apply zeros_ok|]. intros ok D1 w1 Ho1 Hd1 Hw1 Hr1. unfold VOLUME_SECTORS in Hr1.
    assert (R1 : same_except (fun k => exists a', a' ∈ a :: entries /\ k = app_lba (ae_slot a')) D D1).
    { eapply same_except_weaken; [exact Hd1|]. intros k Hk. exists a. split; [apply list_elem_of_here|]. red in Hk. lia. }
    destruct ok; cbn [negb]; cycle 1.
    { apply wp_ret, (HQ _ D1); [done|done|]. destruct b; [specialize (Hr1 eq_refl ltac:(lia) ltac:(lia)); done|done]. }
    apply (IH D1); [done|done|done|]. intros r D2 w2 Ho2 Hd2 Hr. apply (HQ r D2); [done| |].
    + eapply same_except_trans; [exact R1|]. eapply same_except_weaken; [exact Hd2|]. intros k (a' & Hin & ->). exists a'. split; [by apply list_elem_of_further|done].
    + destruct r as [x|]; [|done]. destruct Hr as [Hz ->]. split; [|by destruct rem].
      intros a' [->|Hin]%elem_of_cons; [|by apply Hz].
      destruct (decide (app_lba (ae_slot a) ∈ (fun e => app_lba (ae_slot e)) <$> entries)) as [(e & -> & Hin)%list_elem_of_fmap|Hno]; [by apply Hz|].
      rewrite Hd2 by (intros (e & Hin & E); apply Hno; rewrite E; by apply (list_elem_of_fmap_2 (fun e => app_lba (ae_slot e)))). rewrite Hw1 by done. unfold disk_write.
      rewrite (proj2 (Z.leb_le _ _)), (proj2 (Z.ltb_lt _ _)), Z.sub_diag by lia. done.
Qed.

Lemma wp_remove_app b D F name (Q : list Z -> Sd (W := W) -> Prop) s ws (w : W) :
  serving b D F (mkSd s ws w) -> slots_only F -> bytes_ok name ->
  (forall r D' s' w', serving b D' F (mkSd s' ws w') -> removed b D D' s name s' r -> Q r (mkSd s' ws w')) ->
  wp (remove_app name) Q (mkSd s ws w).
Proof.
  intros Hsv HF Hnb HQ. pose proof Hsv as [Ho Hws Hs Ha]. cbn [sd_st sd_ws sd_env] in *. unfold remove_app.
  destruct (app_name_valid name) eqn:En; cbn [negb]; cycle 1.
  { apply wp_ret, (HQ _ D s w Hsv). split; [done|]. left. split; [done|]. right. split; [done|]. by left. }
  apply wp_bind. unfold st. apply wp_gets. cbn [sd_st]. unfold id.
  destruct (so_block s Hs) as [E|E]; rewrite E.
  { apply wp_ret, (HQ _ D s w Hsv). split; [done|]. left. split; [done|]. right. split; [done|]. by right; left. }
  set (mine := List.filter (fun a => same_app_name a name) (apps s)).
  assert (Hmine : forall a, a ∈ mine <-> a ∈ apps s /\ same_app_name a name = true) by (intros a; unfold mine; rewrite !list_elem_of_In, filter_In; done).
  apply wp_bind. eapply (wp_erase_apps b F s ws) with (D := D); [exact Ho|exact HF|apply Forall_filter_b, Hs|].
  intros r D1 w1 Ho1 Hd1 Hr.
  assert (Hsub : same_except (fun k => audit_tail s k \/ exists a, a ∈ apps s /\ same_app_name a name = true /\ k = app_lba (ae_slot a)) D D1).
  { eapply same_except_weaken; [exact Hd1|]. intros k (a & Hin & ->). apply Hmine in Hin as [H1 H2]. right. by exists a. }
  assert (Hnau : forall a, a ∈ apps s -> ~ audit_region (app_lba (ae_slot a))).
  { intros a Hin Hau. pose proof (so_apps s Hs) as Hwf. rewrite Forall_forall in Hwf.
    apply (app_region_audit (ae_slot a) (app_lba (ae_slot a)) (ew_slot a (Hwf a Hin))); [|exact Hau]. unfold app_region, within, APP_SLOT_SECTORS. lia. }
  assert (Hsv1 : serving b D1 F (mkSd s ws w1)).
  { split; [exact Ho1|exact Hws|exact Hs|]. apply (audit_ok_ext D); [|exact Ha]. intros k Hk. apply Hd1.
    intros (a & Hin & ->). apply Hmine in Hin as [Hin _]. apply (Hnau a Hin). unfold audit_region, within in *. cbn [sd_st] in *. pose proof (au_seq _ _ Ha). lia. }
  destruct r as [x|]; cycle 1.
  { apply wp_ret, (HQ _ D1 s w1 Hsv1). split; [exact Hsub|]. left. split; [done|]. by left. }
  destruct Hr as [Hz ->]. cbn [orb]. destruct (length mine =? 0)%nat eqn:El; cbn [negb].
  { apply wp_ret, (HQ _ D1 s w1 Hsv1). split; [exact Hsub|]. left. split; [done|]. right. apply Nat.eqb_eq, nil_length_inv in El.
    split; [intros k; apply Hd1; rewrite El; by intros (a & ?%not_elem_of_nil & _)|]. right; right. split; [done|]. intros a Hin. destruct (same_app_name a name) eqn:Ea; [|done].
    assert (Hx : a ∈ mine) by by apply Hmine. rewrite El in Hx. by apply not_elem_of_nil in Hx. }
  assert (Hrec : recovery s = false).
  { destruct (recovery s) eqn:Hr; [|done]. destruct (so_recovery s Hs Hr) as [E2 _]. unfold mine in El. by rewrite E2 in El. }
  apply wp_bind. unfold upd. apply wp_modify. cbn [sd_st sd_ws sd_env]. set (s1 := set_apps _ None s).
  assert (Hs1 : service_ok s1) by (apply service_ok_apps; [done|apply Forall_filter_b, Hs|apply NoDup_slots_filter, Hs|done|done]).
  apply wp_bind. eapply (wp_audit b D1 F); [split; [exact Ho1|exact Hws|exact Hs1|apply (audit_ok_state D1 s); [done|done|apply Hsv1]]|apply Forall_app; split; [apply str_ok|exact Hnb]|].
  intros D2 s2 w2 Hsv2 (Hd2 & Hsame & _). apply wp_ret, (HQ _ D2 s2 w2 Hsv2). split.
  - eapply same_except_trans; [exact Hsub|]. eapply same_except_weaken; [exact Hd2|]. by left.
  - right. split; [done|]. split; [|exact Hsame]. intros a Hin Hn. rewrite Hd2 by (intros [Hau _]; by apply (Hnau a)). apply Hz. by apply Hmine.
Qed.

(** ** Serving *)

Lemma wp_cache_app b D F name (Q : option AppEntry -> Sd (W := W) -> Prop) s ws (w : W) :
  serving b D F (mkSd s ws w) -> slots_only F ->
  (forall r s' ws' w', serving b D F (mkSd s' ws' w') -> cached b D s ws name r s' ws' -> Q r (mkSd s' ws' w')) ->
  wp (cache_app name) Q (mkSd s ws w).
Proof.
  intros Hsv HF HQ. pose proof Hsv as [Ho Hws Hs Ha]. cbn [sd_st sd_ws sd_env] in *.
  unfold cache_app, st. apply wp_bind, wp_gets. cbn [sd_st]. unfold id.
  destruct (best_app (apps s) name) as [best|] eqn:Eb; [|apply wp_ret, HQ; [exact Hsv|]; split; [done|congruence]].
  destruct (best_app_In _ _ _ Eb) as [Hin _]. pose proof (so_apps s Hs) as Hwf. rewrite Forall_forall in Hwf. specialize (Hwf best Hin).
  destruct (cache_hit (cached_app s) best) eqn:Eh.
  { apply wp_ret, HQ; [exact Hsv|]. unfold cache_hit in Eh. destruct (cached_app s) as [c|] eqn:Ec; [|done]. bool_facts.
    exists best. pose proof (so_cached s Hs) as Hc. rewrite Ec in Hc. split; [exact Eb|]. split; [lia|]. split; [lia|]. split; [exact Hc|]. by left. }
  destruct (so_block s Hs) as [E|E]; rewrite E; [apply wp_ret, HQ; [exact Hsv|]; split; [done|congruence]|]. destruct (so_pubkey s Hs) as [Hk1 Hk2].
  pose proof (slots_only_app F (ae_slot best) HF (ew_slot best Hwf)) as Hcl.
  apply wp_bind. eapply (wp_validate_and_load_app b D F); [apply Hwf|exact Ho|exact Hws|exact Hk1|exact Hk2|].
  intros r ws1 w1 Ho1 Hws1 Hv. assert (Hsv1 : serving b D F (mkSd s ws1 w1)) by by split.
  destruct r as [l|]; cycle 1.
  { apply wp_ret, HQ; [exact Hsv1|]. split; [done|]. intros Hb _ best' Eb' (e' & plain & Hsp & Hh). rewrite Eb in Eb'. injection Eb' as <-.
    apply (Hv Hb Hcl e' plain); [apply Hsp|exact Hh]. }
  destruct Hv as (V1 & V2 & V3). destruct (_ || _) eqn:Eg.
  { apply wp_ret, HQ; [exact Hsv1|]. split; [done|]. intros _ _ best' Eb' (e' & plain & Hsp & Hh). rewrite Eb in Eb'. injection Eb' as <-.
    destruct (app_holds_unique _ _ _ _ _ _ _ Hh (V3 Hcl)) as [<- _]; [rewrite V1; apply Hsp|].
    rewrite (sp_version _ _ Hsp), (sp_sha _ _ Hsp), Z.eqb_refl in Eg. cbn [negb orb] in Eg. apply negb_true_iff in Eg.
    assert (bytes_eqb (ae_payload_sha best) (ae_payload_sha best) = true) by (by apply bytes_eqb_eq). congruence. } bool_facts. apply bytes_eqb_eq in H2.
  apply wp_bind. unfold upd. apply wp_modify. cbn [sd_st sd_ws sd_env]. apply wp_ret, HQ.
  - split; [exact Ho1|exact Hws1| |by apply (audit_ok_state D s)]. apply service_ok_cached; [done|exact V2|].
    intros Hr. destruct (so_recovery s Hs Hr) as [E2 _]. rewrite E2 in Hin. by apply not_elem_of_nil in Hin.
  - exists best. split; [exact Eb|]. split; [exact V1|]. split; [done|]. split; [exact V2|]. right.
    split; [done|]. split; [done|]. by apply V3.
Qed.

Lemma wp_app_chunk b D F name off (Q : list Z -> Sd (W := W) -> Prop) s ws (w : W) :
  serving b D F (mkSd s ws w) -> slots_only F -> 0 <= off ->
  (forall r s' ws' w', serving b D F (mkSd s' ws' w') ->
     (r = str "err: no app" /\ cached b D s ws name None s' ws' \/ exists e, cached b D s ws name (Some e) s' ws' /\ r = chunk_of e ws' off) -> Q r (mkSd s' ws' w')) ->
  wp (app_chunk name off) Q (mkSd s ws w).
Proof.
  intros Hsv HF Hoff HQ. unfold app_chunk. apply wp_bind. eapply wp_cache_app; [exact Hsv|exact HF|].
  intros r s' ws' w' Hsv' Hc. destruct r as [e|]; [|apply wp_ret, HQ; [exact Hsv'|by left]].
  destruct (ae_payload_len e <=? off) eqn:El.
  { apply wp_ret, HQ; [exact Hsv'|]. right. exists e. split; [exact Hc|]. unfold chunk_of. by rewrite El. }
  apply wp_bind. unfold workspace. apply wp_gets. cbn [sd_ws]. pose proof (proj1 (Z.leb_gt _ _) El) as El'.
  pose proof Hc as (best & _ & _ & _ & Cw & _). pose proof (ew_payload e Cw) as Hp. change APP_PAYLOAD_CAP with 261632 in Hp.
  destruct (sv_ws _ _ _ _ Hsv') as [Hwl _]. cbn [sd_ws] in Hwl. pose proof WS_LEN_Z.
  rewrite (proj2 (Nat.ltb_ge _ _)) by lia. apply wp_ret, HQ; [exact Hsv'|]. right. exists e. split; [exact Hc|].
  unfold chunk_of. rewrite El. reflexivity.
Qed.

(** ** The table built at mount *)

Lemma wp_load_slots b D F slots : forall past (Q : () -> Sd (W := W) -> Prop) s ws (w : W),
  on b D F w -> ws_ok ws -> slots_only F -> service_ok s -> recovery s = false -> cached_app s = None ->
  Forall (fun x => 0 <= x < APP_SLOTS) slots -> NoDup (past ++ slots) -> table_of b D (vol_key s) (pubkey s) past (apps s) ->
  (forall l ws' w', on b D F w' -> ws_ok ws' -> table_of b D (vol_key s) (pubkey s) (past ++ slots) l ->
     service_ok (set_apps l None s) -> Q () (mkSd (set_apps l None s) ws' w')) ->
  wp (load_slots 3 slots) Q (mkSd s ws w).
Proof.
  induction slots as [|slot slots IH]; intros past Q s ws w Ho Hws HF Hs Hrec Hcache Hsl Hnd Htab HQ; cbn [load_slots].
  { apply wp_ret. rewrite app_nil_r in HQ. assert (E : s = set_apps (apps s) None s) by (rewrite <- Hcache; by destruct s).
    rewrite E. apply HQ; [done|done|done|by rewrite <- E]. }
  apply Forall_cons in Hsl as [Hslot Hsl]. destruct (so_pubkey s Hs) as [Hk1 Hk2].
  apply wp_bind. unfold st. apply wp_gets, wp_bind, wp_gets. cbn [sd_st]. apply wp_bind.
  eapply (wp_validate_and_load_app b D F); [exact Hslot|exact Ho|exact Hws|exact Hk1|exact Hk2|].
  intros r ws1 w1 Ho1 Hws1 Hv. pose proof (slots_only_app F slot HF Hslot) as Hcl. destruct Htab as (T1 & T2 & T3 & T4).
  assert (Hnew : slot ∉ past) by (apply NoDup_app in Hnd as (_ & Hx & _); intros Hin; by apply (Hx slot Hin), list_elem_of_here).
  destruct r as [e|]; cbn [validated_app] in Hv.
  - destruct Hv as (V1 & V2 & V3). specialize (V3 Hcl).
    assert (Hnd' : NoDup (ae_slot <$> (apps s ++ [e]))).
    { rewrite fmap_app. apply NoDup_app. split; [exact T2|]. split; [|apply NoDup_singleton].
      intros x Hx Hy. apply list_elem_of_singleton in Hy as ->. apply list_elem_of_fmap in Hx as (a & Ea & Hin).
      apply Hnew. rewrite <- V1, Ea. by apply T3. }
    assert (Hwf' : Forall entry_wf (apps s ++ [e])) by (apply Forall_app; split; [exact T1|by apply Forall_singleton]).
    apply wp_bind. unfold upd. apply wp_modify. cbn [sd_st sd_ws sd_env]. rewrite Hcache.
    assert (Hs1 : service_ok (set_apps (apps s ++ [e]) None s)) by (apply service_ok_apps; done).
    apply (IH (past ++ [slot])); [done|done|done|exact Hs1|done|done|done|by rewrite <- app_assoc| |].
    + split; [exact Hwf'|]. split; [exact Hnd'|]. split.
      * intros a [Hin|Hin]%elem_of_app; [destruct (T3 a Hin); split; [by apply elem_of_app; left|done]|].
        apply list_elem_of_singleton in Hin as ->. split; [rewrite V1; apply elem_of_app; right; apply list_elem_of_here|]. by eexists.
      * intros Hb a plain Hh [Hin|Hin]%elem_of_app; [apply elem_of_app; left; by eapply T4|]. apply list_elem_of_singleton in Hin.
        destruct (app_holds_unique _ _ _ _ _ _ _ Hh V3) as [-> _]; [congruence|]. apply elem_of_app. right. apply list_elem_of_here.
    + intros l ws' w' Ho' Hws' Htab Hso. rewrite <- app_assoc in Htab. by apply HQ.
  - apply wp_bind, wp_ret. apply (IH (past ++ [slot])); [done|done|done|done|done|done|done|by rewrite <- app_assoc| |].
    + split; [exact T1|]. split; [exact T2|]. split.
      * intros a Hin. destruct (T3 a Hin). split; [by apply elem_of_app; left|done].
      * intros Hb a plain Hh [Hin|Hin]%elem_of_app; [by eapply T4|]. apply list_elem_of_singleton in Hin. by destruct (Hv Hb Hcl a plain Hin).
    + intros l ws' w' Ho' Hws' Htab Hso. rewrite <- app_assoc in Htab. by apply HQ.
Qed.

Lemma wp_load_apps b D F (Q : () -> Sd (W := W) -> Prop) s ws (w : W) :
  on b D F w -> ws_ok ws -> slots_only F -> service_ok s -> recovery s = false ->
  (forall l ws' w', on b D F w' -> ws_ok ws' -> table_of b D (vol_key s) (pubkey s) (seqZ 0 APP_SLOTS) l ->
     service_ok (set_apps l None s) -> Q () (mkSd (set_apps l None s) ws' w')) ->
  wp (load_apps 3) Q (mkSd s ws w).
Proof.
  intros Ho Hws HF Hs Hrec HQ. unfold load_apps, upd. apply wp_bind, wp_modify. cbn [sd_st sd_ws sd_env].
  apply (wp_load_slots b D F (seqZ 0 APP_SLOTS) []); [done|done|done| |done|done| |apply NoDup_seqZ| |].
  - apply service_ok_apps; [done|constructor|constructor|done|done].
  - apply Forall_forall. intros x Hx. apply elem_of_seqZ in Hx. lia.
  - split; [constructor|]. split; [constructor|]. split; [by intros e ?%not_elem_of_nil|]. by intros _ e p _ ?%not_elem_of_nil.
  - intros l ws' w' Ho' Hws' Htab Hso. by apply (HQ l).
Qed.
End install.
