(* ===== verification/StorageUpdate.v ===== *)
(** * The update flow of the storage service

    While the agent runs it may rewrite the inactive slot and nothing else;
    after it was collected the slot is validated again, and only then does the
    superblock name it, with a generation above the running one. *)

From S2P Require Import Prelude RustStd HashStream Sha256 Hmac ChaCha20 Ed25519 Layout LayoutTheorems Prog Userlib StorageText StorageConfig Storaged StorageEnv StorageLoad StorageAudit StorageInv.
Import Layout Text Storaged.

#[local] Opaque Ed25519.verify Sha256.sha256 Hmac.oneshot Hmac.reference ChaCha20.xor_stream WS_LEN.

(** ** Commit *)

(** The superblock names [slot] and carries [gen] for it, under its own key. *)
Definition superblock_names (D : Z -> list Z) key (slot : SlotId) (gen : Z) : Prop :=
  exists ga gb, parse_superblock (D SUPERBLOCK_LBA) = Some (Some slot, ga, gb) /\ superblock_valid key (D SUPERBLOCK_LBA) = true /\
    slice SB_KEY_OFF 32 (D SUPERBLOCK_LBA) = key /\ match slot with A => ga | B => gb end = gen.

Lemma superblock_sector key slot ga gb : length key = 32%nat -> bytes_ok key -> fits 64 ga -> fits 64 gb ->
  exists sb, write_superblock zeros (Some slot) ga gb key = Some sb /\ sector_ok sb /\
    parse_superblock sb = Some (Some slot, ga, gb) /\ superblock_valid key sb = true /\ slice SB_KEY_OFF 32 sb = key.
Proof.
  intros Hk Hkb Ha Hb. destruct (superblock_spec zeros (Some slot) ga gb key) as (sb & E & Hl & Hp & Hv & Hs); [done..|].
  exists sb. split; [exact E|]. split; [split; [exact Hl|]|done].
  unfold write_superblock in E. destruct (puts _ (zeroed zeros)) as [s1|] eqn:E1; [|done].
  apply (puts_ok _ _ _ E); [fields_ok|]. apply (puts_ok _ _ _ E1); [fields_ok|apply zeroed_ok].
Qed.

(** The slot an update goes to. *)
Definition inactive_slot (s : State) : SlotId := match active s with Some a => other a | None => A end.

Section update.
Context {W : Type} `{Volume W} (ELF : list Z).
Implicit Types (D : Z -> list Z) (F : Z -> Prop).

Lemma wp_commit_slot b D F slot gen (Q : bool -> Sd (W := W) -> Prop) s ws (w : W) :
  serving b D F (mkSd s ws w) -> slots_only F -> fits 64 gen ->
  (forall D' w', serving b D' F (mkSd (set_commit (Some slot) gen s) ws w') -> same_except (fun k => k = SUPERBLOCK_LBA) D D' ->
     superblock_names D' (vol_key s) slot gen -> (active s = None \/ generation s < gen) -> Q true (mkSd (set_commit (Some slot) gen s) ws w')) ->
  (forall D' w', serving b D' F (mkSd s ws w') -> same_except (fun k => k = SUPERBLOCK_LBA) D D' ->
     (b = true -> is_Some (active s) /\ gen <= generation s /\ forall k, D' k = D k) ->
     (is_Some (active s) /\ gen <= generation s -> forall k, D' k = D k) -> Q false (mkSd s ws w')) ->
  wp (commit_slot 3 slot gen) Q (mkSd s ws w).
Proof.
  intros Hsv HF Hg HQ1 HQ2. pose proof Hsv as [Ho Hws Hs Ha]. cbn [sd_st sd_ws sd_env] in *.
  unfold commit_slot, st. apply wp_bind, wp_gets. cbn [sd_st]. unfold id.
  destruct (bool_decide (is_Some (active s)) && (gen <=? generation s)) eqn:Eg.
  { apply andb_true_iff in Eg as [E1 E2]. apply bool_decide_eq_true in E1. apply Z.leb_le in E2. by apply wp_ret, (HQ2 D). }
  assert (Hfresh : active s = None \/ generation s < gen).
  { apply andb_false_iff in Eg as [E|E]; [left|right; by apply Z.leb_gt in E]. apply bool_decide_eq_false in E. by destruct (active s); [exfalso; apply E|]. }
  destruct (so_gens s Hs) as [Hgen _]. destruct (so_key s Hs) as [Hk Hkb].
  set (gens := match active s with Some old => if bool_decide (old = slot) then <[Z.to_nat (slot_num slot - 1):=gen]> [0; 0]
    else <[Z.to_nat (slot_num old - 1):=generation s]> (<[Z.to_nat (slot_num slot - 1):=gen]> [0; 0]) | None => <[Z.to_nat (slot_num slot - 1):=gen]> [0; 0] end).
  assert (Hgens : fits 64 (nth 0 gens 0) /\ fits 64 (nth 1 gens 0) /\ match slot with A => nth 0 gens 0 | B => nth 1 gens 0 end = gen).
  { assert (fits 64 0) by (red; lia). unfold gens. destruct (active s) as [[]|], slot; cbn; try (rewrite bool_decide_true by done); try (rewrite bool_decide_false by done); cbn; done. }
  destruct Hgens as (G0 & G1 & G2).
  destruct (superblock_sector (vol_key s) slot (nth 0 gens 0) (nth 1 gens 0) Hk Hkb G0 G1) as (sb & Ew & [Hl Hb] & Hp & Hv & Hsl).
  apply wp_bind. eapply wp_expect; [exact Ew|]. apply wp_bind.
  eapply (wp_bw b D F); [exact Ho|lia|rewrite Hl; done|exact Hb|]. intros ok D' w' Ho' Hd Hw Hr.
  assert (Hd' : same_except (fun k => k = SUPERBLOCK_LBA) D D') by (eapply same_except_weaken; [exact Hd|]; intros k Hk'; red in Hk'; lia).
  assert (Ha' : audit_ok D' s).
  { apply (audit_ok_ext D); [|exact Ha]. intros k Hk'. apply Hd'. intros ->. unfold within, SUPERBLOCK_LBA, AUDIT_START_LBA in Hk'. lia. }
  destruct ok; cycle 1.
  { apply wp_ret, (HQ2 D'); [by split|exact Hd'| |].
    - intros Hb'. specialize (Hr Hb' ltac:(done) ltac:(done)). done.
    - intros [[a Hx] Hle]. exfalso. destruct Hfresh as [E|E]; [congruence|lia]. }
  apply wp_bind. unfold upd. apply wp_modify. cbn [sd_st sd_ws sd_env]. apply wp_ret, (HQ1 D').
  - split; [exact Ho'|exact Hws|by apply service_ok_commit|by apply (audit_ok_state D' s)].
  - exact Hd'.
  - exists (nth 0 gens 0), (nth 1 gens 0). assert (E : D' SUPERBLOCK_LBA = sb).
    { rewrite Hw by done. unfold disk_write, slice. cbn. apply take_ge. by rewrite Hl. }
    rewrite E. done.
  - exact Hfresh.
Qed.

(** ** Waiting for the agent *)

(** Only [child] was given anything beyond [F], and that is [X]. *)
Definition granted (F X : Z -> Prop) (child : Z) (w : W) : Prop := forall t k, foreign w t k -> F k \/ t = child /\ X k.

Definition ticks_left (deadline : Z) (w : W) : nat := Z.to_nat ((deadline - clock w + 9) / 10).

Lemma ticks_left_mono deadline (w w' : W) : clock w <= clock w' -> (ticks_left deadline w' <= ticks_left deadline w)%nat.
Proof.
  intros Hc. unfold ticks_left. pose proof (Z.div_le_mono (deadline - clock w' + 9) (deadline - clock w + 9) 10). lia.
Qed.

Lemma ticks_left_sleep deadline (w w' : W) :
  clock w < deadline -> clock w + 10 <= clock w' -> (ticks_left deadline w' < ticks_left deadline w)%nat.
Proof.
  intros Hc Hc'. unfold ticks_left. pose proof (Z.div_le_mono (deadline - clock w' + 9) (deadline - clock w + 9 + (-1) * 10) 10).
  rewrite Z.div_add in * by lia. pose proof (Z.div_le_mono 10 (deadline - clock w + 9) 10). change (10 / 10) with 1 in *. lia.
Qed.

Lemma granted_call F X child n args w : n <> Sys.SYS_TASK_SPAWN -> granted F X child w -> granted F X child (snd (raw_full n args w)).
Proof. intros Hn Hg t k Hf. apply law_foreign in Hf; [|done]. by apply Hg. Qed.

(** A call of the waiting loop. *)
Lemma wp_wait_call {A} (f : Ret -> A) b D G F X child n args (Q : A -> Sd (W := W) -> Prop) s ws (w : W) :
  n <> Sys.SYS_BLOCK_WRITE -> n <> Sys.SYS_TASK_SPAWN -> on b D G w -> granted F X child w ->
  (forall r w', raw_full n args w = (r, snd (fst (raw_full n args w)), w') -> on b D G w' -> granted F X child w' ->
     clock w <= clock w' -> (kids w' <= kids w)%nat -> Q (f r) (mkSd s ws w')) ->
  wp (sys ('(r, _) ← Userlib.trap n args; mret (f r))) Q (mkSd s ws w).
Proof.
  intros Hn Hs Ho Hg HQ. apply wp_sys, wp_bind. pose proof (granted_call F X child n args w Hs Hg) as Hg'.
  pose proof (law_time n args w) as Ht. pose proof (law_kids n args w Hs) as Hk.
  eapply wp_trap; [done|done|exact Ho|]. intros r buf w' E Ho'. apply wp_ret.
  rewrite E in Hg', Ht, Hk. apply HQ; [by rewrite E|done..].
Qed.

Lemma wp_wait_agent b D G F X child deadline fuel : forall (Q : Z -> Sd (W := W) -> Prop) s ws (w : W),
  on b D G w -> granted F X child w -> 0 <= deadline -> (kids w + ticks_left deadline w < fuel)%nat ->
  (forall code w', on b D G w' -> granted F X child w' ->
     (code = 0xFFFF \/ code = 0xFFFE \/ forall k, ~ foreign w' child k) -> Q code (mkSd s ws w')) ->
  wp (wait_agent fuel child deadline) Q (mkSd s ws w).
Proof.
  induction fuel as [|fuel IH]; intros Q s ws w Ho Hg Hd Hf HQ; [lia|]. cbn [wait_agent]. apply wp_bind. unfold Userlib.try_wait.
  eapply wp_wait_call; [done|done|exact Ho|exact Hg|]. intros r w1 E1 Ho1 Hg1 Hc1 Hk1.
  pose proof (law_wait 1 w child) as HL.
  rewrite E1 in HL. destruct (Z.eqb_spec (rax r) 0) as [E0|E0].
  { pose proof (ticks_left_mono deadline w w1 Hc1) as Ht. destruct (Z.eqb_spec (ra0 r) child) as [Ec|Ec].
    - apply wp_ret, HQ; [exact Ho1|exact Hg1|]. right. right. intros k Hf0.
      pose proof (law_wait 1 w child k) as HLk. rewrite E1 in HLk. destruct (HLk E0) as [_ Hne]. by apply Hne.
    - destruct (HL 0 E0) as [Hkid _]. apply IH; [exact Ho1|exact Hg1|exact Hd|lia|exact HQ]. }
  destruct (rax r =? 9); [|apply wp_ret, HQ; [exact Ho1|exact Hg1|by left]].
  apply wp_bind. unfold Userlib.ticks. eapply wp_wait_call; [done|done|exact Ho1|exact Hg1|].
  intros r2 w2 E2 Ho2 Hg2 Hc2 Hk2. pose proof (law_ticks w1) as HT. rewrite E2 in HT. rewrite HT.
  destruct (Z.leb_spec deadline (clock w2)) as [Hlate|Hearly].
  { apply wp_bind. unfold Userlib.kill. eapply wp_wait_call; [done|done|exact Ho2|exact Hg2|].
    intros r3 w3 E3 Ho3 Hg3 Hc3 Hk3. apply wp_ret, HQ; [exact Ho3|exact Hg3|by right; left]. }
  apply wp_bind. unfold Userlib.sleep. eapply wp_wait_call; [done|done|exact Ho2|exact Hg2|].
  intros r3 w3 E3 Ho3 Hg3 Hc3 Hk3. pose proof (law_sleep 10 w2) as HS. rewrite E3 in HS.
  unfold Userlib.decode. destruct (Z.eqb_spec (rax r3) 0) as [E4|E4]; cbn [is_ok negb]; [|apply wp_ret, HQ; [exact Ho3|exact Hg3|by right; left]].
  specialize (HS E4). apply IH; [exact Ho3|exact Hg3|exact Hd| |exact HQ].
  pose proof (ticks_left_mono deadline w w2 ltac:(lia)). pose proof (ticks_left_sleep deadline w2 w3 Hearly HS). lia.
Qed.

(** ** After the agent *)

(** What an update may have done: [F'] are the sectors still shared with an
    agent that was not collected. *)
Inductive updated (b : bool) (D D' : Z -> list Z) F' s : State -> list Z -> Prop :=
  | upd_refused s' reply : advanced (set_cached None s) s' ->
      same_except (fun k => slot_region (inactive_slot s) k \/ audit_tail s k \/ b = false /\ k = SUPERBLOCK_LBA) D D' ->
      take 3 reply = str "err" -> updated b D D' F' s s' reply
  | upd_applied s' plain gen : 
      same_except (fun k => slot_region (inactive_slot s) k \/ audit_tail s k \/ k = SUPERBLOCK_LBA) D D' ->
      (active s = None \/ generation s < gen) ->
      ((forall k, slot_region (inactive_slot s) k -> ~ F' k) -> slot_holds D' (vol_key s) (pubkey s) (inactive_slot s) plain gen) ->
      superblock_names D' (vol_key s) (inactive_slot s) gen ->
      advanced (set_commit (Some (inactive_slot s)) gen (set_cached None s)) s' ->
      updated b D D' F' s s' (push_num (str "ok applied ") (Z.of_nat (length plain)) ++ str " bytes; reboot").

Lemma inactive_region s k : slot_region (inactive_slot s) k -> audit_region k \/ k = SUPERBLOCK_LBA -> False.
Proof. intros Hk%slot_region_range. unfold audit_region, within, AUDIT_START_LBA, SUPERBLOCK_LBA. lia. Qed.

Lemma wp_audited b D F line reply (Q : list Z -> Sd (W := W) -> Prop) s ws (w : W) :
  serving b D F (mkSd s ws w) -> bytes_ok line ->
  (forall D' s' w', serving b D' F (mkSd s' ws w') -> same_except (audit_tail s) D D' -> advanced s s' -> Q reply (mkSd s' ws w')) ->
  wp (_ ← audit_raw line; mret reply) Q (mkSd s ws w).
Proof.
  intros Hsv Hl HQ. apply wp_bind. eapply wp_audit; [exact Hsv|exact Hl|].
  intros D' s' w' Hsv' (Hd & Hsame & _). apply wp_ret. by apply (HQ D').
Qed.

Lemma wp_finish_update b D F code (Q : list Z -> Sd (W := W) -> Prop) s ws (w : W) :
  serving b D F (mkSd s ws w) -> slots_only F -> cached_app s = None ->
  (forall D' s' ws' w' reply, serving b D' F (mkSd s' ws' w') -> updated b D D' F s s' reply ->
     (code <> 0 -> take 3 reply = str "err") -> Q reply (mkSd s' ws' w')) ->
  wp (finish_update 3 (inactive_slot s) code) Q (mkSd s ws w).
Proof.
  intros Hsv HF Hca HQ. assert (Es : set_cached None s = s) by (rewrite <- Hca; by destruct s).
  assert (Hbad : forall D1 ws1 w1 line reply, serving b D1 F (mkSd s ws1 w1) -> same_except (fun k => b = false /\ k = SUPERBLOCK_LBA) D D1 ->
    bytes_ok line -> take 3 reply = str "err" -> wp (_ ← audit_raw line; mret reply) Q (mkSd s ws1 w1)).
  { intros D1 ws1 w1 line reply Hsv1 Hd1 Hl Hr. eapply wp_audited; [exact Hsv1|exact Hl|]. intros D' s' w' Hsv' Hd' Hsame.
    apply (HQ D' s' ws1 w'); [exact Hsv'| |by intros _]. apply upd_refused; [by rewrite Es| |exact Hr].
    eapply same_except_trans; [eapply same_except_weaken; [exact Hd1|]|eapply same_except_weaken; [exact Hd'|]]; intros k Hk; cbv beta in *; tauto. }
  pose proof (same_except_refl (fun k => b = false /\ k = SUPERBLOCK_LBA) D) as Hrefl.
  pose proof Hsv as [Ho Hws Hs Ha]. cbn [sd_st sd_ws sd_env] in *. unfold finish_update.
  assert (Hline : forall t, bytes_ok (str "update " ++ str t)) by (intros t; apply Forall_app; split; apply str_ok).
  destruct (Z.eqb_spec code 0) as [Hz|Hnz].
  2:{ repeat (match goal with |- wp (if ?c then _ else _) _ _ => destruct c; [by eapply Hbad; [exact Hsv|exact Hrefl|apply Hline|]|] end).
      eapply Hbad; [exact Hsv|exact Hrefl|apply push_num_ok, Hline|done]. }
  unfold st. apply wp_bind, wp_gets. cbn [sd_st]. unfold id. destruct (so_pubkey s Hs) as [Hk1 Hk2].
  apply wp_bind. eapply (wp_validate_and_load b D F); [exact Ho|exact Hws|exact Hk1|exact Hk2|].
  intros r ws1 w1 Ho1 Hws1 Hv. assert (Hsv1 : serving b D F (mkSd s ws1 w1)) by done.
  destruct r as [[len gen]|]; [|eapply Hbad; [exact Hsv1|exact Hrefl|apply Hline|done]].
  destruct Hv as (V1 & V2 & V3). apply wp_bind. eapply (wp_commit_slot b D F); [exact Hsv1|exact HF|exact V2|..].
  - intros D2 w2 Hsv2 Hd2 Hnames Hfresh. cbn [negb]. eapply wp_audited; [exact Hsv2|apply push_num_ok, Hline|].
    intros D3 s3 w3 Hsv3 Hd3 Hsame. destruct Hws1 as [Hwl _].
    assert (El : length (take len ws1) = len) by (rewrite length_take; lia). rewrite <- El at 1.
    apply (HQ D3 s3 ws1 w3); [exact Hsv3| |by intros ?]. apply (upd_applied b D D3 F s s3 (take len ws1) gen); [|exact Hfresh| | |by rewrite Es].
    + eapply same_except_trans; [eapply same_except_weaken; [exact Hd2|]|eapply same_except_weaken; [exact Hd3|]]; intros k Hk; cbv beta in *; tauto.
    + intros Hcl. apply (slot_holds_ext D); [|by apply V3]. intros k Hk.
      rewrite Hd3, Hd2; [done|intros E; eapply inactive_region; eauto|intros [E _]; eapply inactive_region; eauto].
    + destruct Hnames as (ga & gb & N). exists ga, gb.
      rewrite Hd3; [exact N|]. unfold audit_tail, audit_region, within, AUDIT_START_LBA, SUPERBLOCK_LBA. lia.
  - intros D2 w2 Hsv2 Hd2 Hb Hstale. cbn [negb]. eapply Hbad; [exact Hsv2| |apply Hline|done].
    intros k Hk. destruct b; [by apply (Hb eq_refl)|]. apply Hd2. intros E. by apply Hk.
Qed.

(** ** The whole flow *)

(** The sectors the agent is given. *)
Definition agent_window (slot : SlotId) : Z -> Prop :=
  within (hdr_lba slot) (2 + SLOT_PAYLOAD_SECTORS - (payload_lba slot - hdr_lba slot)).

Lemma agent_window_region slot k : agent_window slot k -> slot_region slot k.
Proof.
  unfold agent_window, slot_region, within. pose proof (slot_region_bounds slot) as (B1 & B2 & B3).
  assert (payload_lba slot - hdr_lba slot = 2) by (by destruct slot). lia.
Qed.

(** A capability of the service writes at most in [X]. *)
Definition confined (X : Z -> Prop) (cap : Z) (w : W) : Prop := forall k, writable w cap k -> X k.

Lemma wp_say_confined b D F X cap con t (Q : () -> Sd (W := W) -> Prop) s ws (w : W) :
  on b D F w -> confined X cap w -> (forall w', on b D F w' -> confined X cap w' -> Q () (mkSd s ws w')) ->
  wp (say con t) Q (mkSd s ws w).
Proof.
  intros Ho Hc HQ. unfold say. apply wp_bind, wp_sys. unfold Userlib.print_split. generalize (chunks 37 t). intros cs. revert w Ho Hc.
  induction cs as [|c cs IH]; intros w Ho Hc; cbn [Userlib.print_chunks]; [by apply wp_ret, wp_ret, HQ|].
  apply wp_bind. unfold Userlib.call. apply wp_bind. eapply wp_trap; [done|done|exact Ho|]. intros r buf w' E Ho'. apply wp_ret.
  assert (Hc' : confined X cap w').
  { intros k Hk. apply Hc. match type of E with raw_full ?n ?a _ = _ => apply (law_writable n a w); [done|] end. by rewrite E. }
  destruct (Userlib.decode _ r); [by apply IH|]. by apply wp_ret, wp_ret, HQ.
Qed.

Lemma wp_derive_window b D F mask lba n (Q : result Z Z -> Sd (W := W) -> Prop) s ws (w : W) :
  on b D F w ->
  (forall r w', on b D F w' -> (forall cap, r = Ok cap -> fits 64 cap /\ confined (within lba n) cap w') -> Q r (mkSd s ws w')) ->
  wp (sys (Userlib.derive_block 3 mask lba n)) Q (mkSd s ws w).
Proof.
  intros Ho HQ. unfold Userlib.derive_block. apply wp_sys, wp_bind. eapply wp_trap; [done|done|exact Ho|].
  intros r buf w' E Ho'. apply wp_ret, HQ; [exact Ho'|]. intros cap Hcap. split.
  { unfold Userlib.decode in Hcap. destruct (rax r =? 0); [|done]. injection Hcap as <-.
    match type of E with raw_full ?n ?a _ = _ => pose proof (law_slot n a w) as Hs end. by rewrite E in Hs. }
  intros k Hk. pose proof (law_derive 3 mask lba n w cap k) as HL. rewrite E in HL. specialize (HL Hk).
  unfold Userlib.decode in Hcap. destruct (rax r =? 0); [|done]. injection Hcap as <-. rewrite Z.eqb_refl in HL. by destruct HL.
Qed.

(** The kernel starts the agent with a read capability and [cap]. *)
Lemma wp_spawn_agent b D F X stage cap (Q : result Z Z -> Sd (W := W) -> Prop) s ws (w : W) :
  on b D F w -> fits 64 stage -> fits 64 cap -> confined X cap w ->
  (forall e w', on b D F w' -> Q (Err e) (mkSd s ws w')) ->
  (forall child w', on b D (fun k => F k \/ X k) w' -> granted F X child w' -> Q (Ok child) (mkSd s ws w')) ->
  wp (sys (Userlib.spawn ELF [(stage, R_READ); (cap, R_WRITE)])) Q (mkSd s ws w).
Proof.
  intros Ho Hstage Hcap Hc HQ1 HQ2. unfold Userlib.spawn. apply wp_sys, wp_bind. unfold Userlib.trap, wp at 1.
  set (grants := [(stage, R_READ); (cap, R_WRITE)]).
  pose proof (law_spawn ELF grants w) as HL.
  assert (Hgr : Forall (fun g => fits 64 (fst g) /\ fits 64 (snd g)) grants).
  { assert (fits 64 R_READ /\ fits 64 R_WRITE) as [? ?] by by vm_compute. unfold grants. apply List.Forall_cons; [done|]. apply List.Forall_cons; [done|]. apply List.Forall_nil. }
  set (args := [_; _; _; _; _; _]) in *. pose proof (law_other Sys.SYS_TASK_SPAWN args w ltac:(done)) as HO.
  pose proof (law_reliable Sys.SYS_TASK_SPAWN args w) as HR.
  destruct (raw_full Sys.SYS_TASK_SPAWN args w) as [[r buf] w'] eqn:E. cbn [snd] in HO, HR. apply wp_ret.
  assert (Hd : forall k, ~ F k -> sector w' k = D k).
  { intros k Hk. rewrite HO; [by apply (on_disk b D F w Ho)|]. intros t Ht. apply Hk. by eapply on_foreign. }
  assert (Hf : forall t k, foreign w' t k -> F k \/ rax r = 0 /\ t = ra0 r /\ X k).
  { intros t k Hk. destruct (HL t k Hgr) as [_ HL']. destruct (HL' Hk) as [Hw|(H1 & H2 & s0 & mask & Hin & Hm & Hw)]; [left; by eapply on_foreign|].
    right. split; [done|]. split; [done|]. apply elem_of_cons in Hin as [[= -> ->]|Hin]; [done|].
    apply elem_of_cons in Hin as [[= -> ->]|Hin%not_elem_of_nil]; [by apply Hc|done]. }
  assert (Hr : b = true -> reliable w') by (intros Hb; by apply HR, (on_reliable b D F w Ho)).
  unfold Userlib.decode. destruct (Z.eqb_spec (rax r) 0) as [E0|E0].
  - apply HQ2; [split; [apply Ho| | |exact Hr]|].
    + intros k Hk. apply Hd. intros ?. apply Hk. by left.
    + intros t k Hk. destruct (Hf t k Hk) as [?|(_ & _ & ?)]; [by left|by right].
    + intros t k Hk. destruct (Hf t k Hk) as [?|(_ & ? & ?)]; [by left|by right].
  - apply HQ1. split; [apply Ho|exact Hd| |exact Hr]. intros t k Hk. by destruct (Hf t k Hk) as [?|(? & _)].
Qed.

(** A collected agent leaves the window to nobody. *)
Lemma collected b D F X `{forall k, Decision (X k)} child (w : W) :
  on b D (fun k => F k \/ X k) w -> granted F X child w -> (forall k, ~ foreign w child k) ->
  exists D', on b D' F w /\ same_except X D D'.
Proof.
  intros [Hok Hd Hf Hr] Hg Hc. exists (fun k => if decide (X k) then sector w k else D k). split; [split; [| | |exact Hr]|].
  - intros k. destruct (decide (X k)); [apply law_sector|apply Hok].
  - intros k Hk. destruct (decide (X k)); [done|]. apply Hd. tauto.
  - intros t k Hk. destruct (Hg t k Hk) as [?|[-> _]]; [done|]. by destruct (Hc k).
  - intros k Hk. by destruct (decide (X k)).
Qed.

Lemma updated_after b D D1 D' F s s' reply : same_except (agent_window (inactive_slot s)) D D1 ->
  updated b D1 D' F s s' reply -> updated b D D' F s s' reply.
Proof.
  intros Hd Hu. destruct Hu as [s' reply Hs He Hr|s' plain gen He Hg Hh Hn Hs].
  - apply upd_refused; [done| |done]. eapply same_except_trans; [eapply same_except_weaken; [exact Hd|]|exact He].
    intros k Hk. left. by apply agent_window_region.
  - apply upd_applied with gen; try done. eapply same_except_trans; [eapply same_except_weaken; [exact Hd|]|exact He].
    intros k Hk. left. by apply agent_window_region.
Qed.

Lemma updated_refused b D D' F G s s' reply : take 3 reply = str "err" -> updated b D D' G s s' reply -> updated b D D' F s s' reply.
Proof.
  intros Hr Hu. destruct Hu as [|s' plain gen]; [by apply upd_refused|]. exfalso.
  destruct (push_num_app (str "ok applied ") (Z.of_nat (length plain))) as [t Et]. rewrite Et in Hr. done.
Qed.

Lemma updated_cached b D D' F s s' reply : updated b D D' F (set_cached None s) s' reply -> updated b D D' F s s' reply.
Proof.
  intros Hu. destruct Hu as [s' reply Hs He Hr|s' plain gen He Hg Hh Hn Hs]; [by apply upd_refused|by apply upd_applied with gen].
Qed.

(** The sectors the agent may keep writing. *)
Definition lent (F F' : Z -> Prop) s (reply : list Z) : Prop :=
  (forall k, F' k <-> F k) \/ take 3 reply = str "err" /\ forall k, F' k <-> F k \/ agent_window (inactive_slot s) k.

Lemma slots_only_lent F s : slots_only F -> slots_only (fun k => F k \/ agent_window (inactive_slot s) k).
Proof.
  intros HF k [Hk|Hk%agent_window_region]; [by apply HF|]. destruct (inactive_slot s); tauto.
Qed.

Lemma wp_run_update b D F con (Q : list Z -> Sd (W := W) -> Prop) s ws (w : W) :
  serving b D F (mkSd s ws w) -> slots_only F ->
  (forall D' F' s' ws' w' reply, serving b D' F' (mkSd s' ws' w') -> lent F F' s reply ->
     updated b D D' F s s' reply -> Q reply (mkSd s' ws' w')) ->
  wp (run_update ELF con) Q (mkSd s ws w).
Proof.
  intros [Ho Hws Hs Ha] HF HQ. cbn [sd_st sd_ws sd_env] in *. unfold run_update, upd. apply wp_bind, wp_modify. cbn [sd_st sd_ws sd_env].
  unfold st. apply wp_bind, wp_gets. cbn [sd_st]. unfold id.
  set (s0 := set_cached None s). assert (Hs0 : service_ok s0) by (apply service_ok_cached; done).
  assert (Ha0 : audit_ok D s0) by (by apply (audit_ok_state D s)).
  assert (Href : forall reply w1, on b D F w1 -> take 3 reply = str "err" -> Q reply (mkSd s0 ws w1)).
  { intros reply w1 Ho1 Hr. apply (HQ D F); [done|by left|]. by apply upd_refused; [apply advanced_refl| |]. }
  change (block s0) with (block s). change (match active s0 with Some a => other a | None => A end) with (inactive_slot s).
  destruct (so_block s Hs) as [E|E]; rewrite E; [by apply wp_ret, Href|].
  assert (Herr : forall t e, take 3 (str "err: " ++ str t) = str "err" -> take 3 (fmt_err (str "err: " ++ str t) e) = str "err").
  { intros t e Ht. unfold fmt_err. destruct (push_num_app (str "err: " ++ str t) e) as [x ->]. done. }
  apply wp_bind. eapply wp_derive_window; [exact Ho|]. intros [stage|e] w1 Ho1 Hc1; [|by apply wp_ret, Href; [|apply (Herr "derive stage ")]].
  apply wp_bind. eapply wp_derive_window; [exact Ho1|]. intros [cap|e] w2 Ho2 Hc2; [|by apply wp_ret, Href; [|apply (Herr "derive slot ")]].
  destruct (Hc1 stage eq_refl) as [Hf1 _]. destruct (Hc2 cap eq_refl) as [Hf2 Hc3']. clear Hc2. rename Hc3' into Hc2. fold (agent_window (inactive_slot s)) in Hc2.
  apply wp_bind. eapply wp_say_confined; [exact Ho2|exact Hc2|]. intros w3 Ho3 Hc3.
  apply wp_bind. eapply wp_spawn_agent; [exact Ho3|exact Hf1|exact Hf2|exact Hc3|intros e w4 Ho4; apply wp_ret, Href; [done|by apply (Herr "spawn updated ")]|].
  intros child w4 Ho4 Hg4. apply wp_bind. unfold Userlib.ticks. eapply wp_wait_call; [done|done|exact Ho4|exact Hg4|].
  intros r w5 E5 Ho5 Hg5 Hc5 Hk5. pose proof (law_ticks w4) as HT. rewrite E5 in HT. rewrite HT.
  pose proof (law_clock w5). pose proof (law_kids_bound w5). assert (Ew : wrap 64 (clock w5 + 1200) = clock w5 + 1200) by (apply Z.mod_small; lia).
  rewrite Ew. apply wp_bind. eapply wp_wait_agent; [exact Ho5|exact Hg5|lia| |].
  { unfold ticks_left, WAIT_FUEL. replace (clock w5 + 1200 - clock w5 + 9) with 1209 by lia. change (Z.to_nat (1209 / 10)) with 120%nat. lia. }
  intros code w6 Ho6 Hg6 Hcode. set (X := agent_window (inactive_slot s)) in *.
  assert (HX : forall k, Decision (X k)) by (intros k; unfold X, agent_window, within; apply _).
  assert (Haud : forall D1, same_except X D D1 -> audit_ok D1 s0).
  { intros D1 Hd1. apply (audit_ok_ext D); [|exact Ha0]. intros k Hk. apply Hd1. intros Hx%agent_window_region.
    apply (inactive_region s k Hx). left. unfold audit_region, within in *. pose proof (au_seq _ _ Ha0). lia. }
  change (inactive_slot s) with (inactive_slot s0). destruct (decide (code = 0xFFFF \/ code = 0xFFFE)) as [Hbad|Hgood].
  - eapply (wp_finish_update b D (fun k => F k \/ X k)); [by split|by apply slots_only_lent|done|].
    intros D' s' ws' w' reply Hsv Hu Hr. assert (Er : take 3 reply = str "err") by (apply Hr; lia).
    apply (HQ D' (fun k => F k \/ X k)); [exact Hsv|by right|]. apply updated_cached. by apply (updated_refused b D D' F (fun k => F k \/ X k)).
  - destruct Hcode as [?|[?|Hcol]]; [tauto|tauto|]. destruct (collected b D F X child w6 Ho6 Hg6 Hcol) as (D1 & Ho7 & Hd1).
    eapply (wp_finish_update b D1 F); [split; [exact Ho7|exact Hws|exact Hs0|by apply Haud]|exact HF|done|].
    intros D' s' ws' w' reply Hsv Hu Hr. apply (HQ D' F); [exact Hsv|by left|]. apply updated_cached. by apply (updated_after b D D1).
Qed.
End update.
