(* ===== verification/StorageMount.v ===== *)
(** * Mounting the volume

    What [mount] does with every volume: recovery with the factory payload, or
    the payload of a slot whose tag, digest and signature hold, with the
    overrides only under their tag and with the application table of the
    slots that validate. *)

From S2P Require Import Prelude RustStd HashStream Sha256 Hmac ChaCha20 Ed25519 Layout LayoutTheorems Prog Userlib StorageText StorageConfig Storaged StorageEnv StorageLoad StorageAudit StorageInv StorageApps StorageInstall StorageUpdate.
Import Layout Text Storaged.

#[local] Opaque Ed25519.verify Sha256.sha256 Hmac.oneshot Hmac.reference ChaCha20.xor_stream WS_LEN.

(** No other task writes the volume. *)
Lemma slots_only_nobody : slots_only nobody.
Proof. by intros k []. Qed.
#[export] Hint Resolve slots_only_nobody : core.

Lemma initial_ok blk pk : (blk = None \/ blk = Some 3) -> bytes_ok pk -> length pk = 32%nat -> service_ok (initial blk pk).
Proof.
  intros Hblk H1 H2. split; cbn [initial block vol_key pubkey overrides generation cfg_gen apps cached_app recovery]; try done.
  - split; [done|]. apply Forall_replicate. red. lia.
  - split; [|by vm_compute]. unfold FACTORY_CONFIG, Storaged.unlines. cbn [fmap list_fmap concat]. rewrite app_nil_r.
    apply Forall_app. split; [apply str_ok|apply byte_ok]. unfold NL. lia.
  - constructor.
Qed.

Lemma initial_audit D blk pk : audit_ok D (initial blk pk).
Proof. change AUDIT_RECORDS with 13311 in *. split; [change (0 <= 0 <= 13311); lia| |done]. split; [done|]. apply Forall_replicate. red. lia. Qed.

Lemma other_other x : other (other x) = x.
Proof. by destruct x. Qed.

Lemma other_region x k : slot_region x k -> slot_region (other x) k -> False.
Proof.
  unfold slot_region, within. change SLOT_PAYLOAD_SECTORS with 1000.
  destruct x; cbn [other hdr_lba payload_lba]; unfold SLOT_A_HDR_LBA, SLOT_A_PAYLOAD_LBA, SLOT_B_HDR_LBA, SLOT_B_PAYLOAD_LBA; lia.
Qed.

Lemma hdr_region x : slot_region x (hdr_lba x).
Proof. unfold slot_region, within. pose proof (slot_region_bounds x). change SLOT_PAYLOAD_SECTORS with 1000 in *. lia. Qed.

Lemma service_ok_key s key : service_ok s -> length key = 32%nat -> bytes_ok key -> service_ok (set_vol_key key s).
Proof. intros [] ? ?. by split. Qed.

Lemma service_ok_noactive s : service_ok s -> service_ok (set_active None s).
Proof. intros []. by split. Qed.

Lemma service_ok_mounted s key x gen p : service_ok s -> recovery s = true -> length key = 32%nat -> bytes_ok key -> fits 64 gen ->
  service_ok (set_mounted key x gen p s).
Proof.
  intros Hs Hr Hk Hkb Hg. split; cbn [set_mounted block vol_key pubkey overrides generation cfg_gen apps cached_app recovery]; try apply Hs; try done.
  split; [exact Hg|apply Hs].
Qed.

Section mount.
Context {W : Type} `{Volume W}.
Implicit Types (D : Z -> list Z).

(** The sectors a mount may change. *)
Definition mount_writes (k : Z) : Prop := audit_region k \/ exists x, k = hdr_lba x.

Lemma audit_mount_writes D D' : same_except audit_region D D' -> same_except mount_writes D D'.
Proof. intros Hd. eapply same_except_weaken; [exact Hd|]. by left. Qed.

Lemma audit_slot D D' key pk x plain gen : same_except audit_region D D' -> slot_holds D key pk x plain gen -> slot_holds D' key pk x plain gen.
Proof.
  intros Hd. apply slot_holds_ext. intros k Hk. apply Hd. apply slot_region_range in Hk. unfold audit_region, within, AUDIT_START_LBA. lia.
Qed.

(** ** Steps from a typed state *)

Lemma wp_scan b D F (Q : () -> Sd (W := W) -> Prop) s ws (w : W) :
  serving b D F (mkSd s ws w) -> slots_only F ->
  (forall q p w', serving b D F (mkSd (set_audit q p s) ws w') -> scanned b D q p -> Q () (mkSd (set_audit q p s) ws w')) ->
  wp (scan_audit 3) Q (mkSd s ws w).
Proof.
  intros [Ho Hws Hs Ha] HF HQ. eapply (wp_scan_audit b D F); [exact Ho|by apply slots_only_audit|].
  intros q p w' Ho' Hsc Ha'. apply HQ; [|exact Hsc]. split; [exact Ho'|exact Hws|by apply service_ok_audit|exact Ha'].
Qed.

(** A scan and a note in the log. *)
Lemma wp_scan_note b D F text (Q : () -> Sd (W := W) -> Prop) s ws (w : W) :
  serving b D F (mkSd s ws w) -> slots_only F -> bytes_ok text ->
  (forall D' s' w', serving b D' F (mkSd s' ws w') -> same_except audit_region D D' -> same_but_audit s s' -> Q () (mkSd s' ws w')) ->
  wp (_ ← scan_audit 3; audit_raw text) Q (mkSd s ws w).
Proof.
  intros Hsv HF Ht HQ. apply wp_bind. eapply wp_scan; [exact Hsv|exact HF|]. intros q p w' Hsv' _.
  eapply wp_audit; [exact Hsv'|exact Ht|]. intros D' s' w'' Hsv'' (Hd & [Hsame _] & _). apply (HQ D'); [done|by eapply tail_region|].
  apply same_but_audit_inv in Hsame as (q' & p' & ->). by destruct s.
Qed.

Lemma wp_slot_validates b D key pk x (Q : bool -> Sd (W := W) -> Prop) s ws (w : W) :
  serving b D nobody (mkSd s ws w) -> bytes_ok pk -> length pk = 32%nat ->
  (forall ok ws' w', serving b D nobody (mkSd s ws' w') ->
     (ok = true -> exists plain gen, slot_holds D key pk x plain gen) ->
     (ok = false -> b = true -> forall plain gen, ~ slot_holds D key pk x plain gen) -> Q ok (mkSd s ws' w')) ->
  wp (slot_validates 3 key (Some x) pk) Q (mkSd s ws w).
Proof.
  intros [Ho Hws Hs Ha] H1 H2 HQ. cbn [slot_validates]. apply wp_bind.
  eapply (wp_validate_and_load b D nobody); [exact Ho|exact Hws|exact H1|exact H2|]. intros r ws' w' Ho' Hws' Hv.
  apply wp_ret, HQ; [done|..].
  - destruct r as [[len gen]|]; [|done]. intros _. destruct Hv as (_ & _ & Hv). eexists _, _. apply Hv. by intros k _ [].
  - destruct r as [[len gen]|]; [done|]. intros _ Hb. apply Hv; [done|]. by intros k _ [].
Qed.

(** ** Rollback *)

(** The slot a mount loads: the one the superblock names when it validates,
    else the other when that does, after the header of the first was erased. *)
Inductive chose (b : bool) D D' (key pk : list Z) : option SlotId -> option SlotId -> Prop :=
  | ch_unnamed : (forall k, D' k = D k) -> chose b D D' key pk None None
  | ch_named x plain gen : slot_holds D key pk x plain gen -> (forall k, D' k = D k) -> chose b D D' key pk (Some x) (Some x)
  | ch_other x plain gen : slot_holds D' key pk (other x) plain gen ->
      (b = true -> forall plain gen, ~ slot_holds D key pk x plain gen) ->
      same_except (fun k => audit_region k \/ k = hdr_lba x) D D' -> chose b D D' key pk (Some x) (Some (other x))
  | ch_nothing x : (b = true -> forall y plain gen, ~ slot_holds D key pk y plain gen) ->
      same_except (fun k => audit_region k \/ k = hdr_lba x) D D' -> chose b D D' key pk (Some x) None.

Lemma rollback_other D D' key pk x plain gen : same_except (fun k => audit_region k \/ k = hdr_lba x) D D' ->
  slot_holds D' key pk (other x) plain gen <-> slot_holds D key pk (other x) plain gen.
Proof.
  intros Hd. assert (E : forall k, slot_region (other x) k -> D' k = D k).
  { intros k Hk. apply Hd. intros [Hau| ->].
    - apply slot_region_range in Hk. unfold audit_region, within, AUDIT_START_LBA in Hau. lia.
    - exact (other_region x _ (hdr_region x) Hk). }
  split; apply slot_holds_ext; intros k Hk; [symmetry|]; by apply E.
Qed.

Lemma wp_choose_slot b D key con named (Q : option SlotId -> Sd (W := W) -> Prop) s ws (w : W) :
  serving b D nobody (mkSd s ws w) ->
  (forall r D' s' ws' w', serving b D' nobody (mkSd s' ws' w') -> same_but_audit s s' ->
     chose b D D' key (pubkey s) named r -> Q r (mkSd s' ws' w')) ->
  wp (choose_slot 3 key con named) Q (mkSd s ws w).
Proof.
  intros Hsv HQ. pose proof (so_pubkey s (sv_state _ _ _ _ Hsv)) as [H1 H2].
  unfold choose_slot, st. apply wp_bind, wp_gets. cbn [sd_st]. apply wp_bind. destruct named as [x|]; cycle 1.
  { cbn [slot_validates]. apply wp_ret, wp_ret. apply (HQ None D); [exact Hsv|apply same_but_audit_refl|by apply ch_unnamed]. }
  eapply wp_slot_validates; [exact Hsv|exact H1|exact H2|]. intros [] ws1 w1 Hsv1 Hyes Hno.
  { destruct (Hyes eq_refl) as (plain & gen & Hh). apply wp_ret, (HQ _ D); [exact Hsv1|apply same_but_audit_refl|by eapply ch_named]. }
  specialize (Hno eq_refl). pose proof Hsv1 as [Ho1 Hws1 Hs1 Ha1]. cbn [sd_st sd_ws sd_env] in *.
  pose proof (slot_region_range x _ (hdr_region x)) as Hr. apply wp_bind. unfold zero_header. apply wp_bind.
  eapply (wp_bw b D nobody); [exact Ho1|lia|done|apply zeros_ok|]. intros ok D2 w2 Ho2 Hd2 _ _. apply wp_ret.
  assert (Hsv2 : serving b D2 nobody (mkSd s ws1 w2)).
  { split; [exact Ho2|exact Hws1|exact Hs1|]. apply (audit_ok_ext D); [|exact Ha1]. intros k Hk. apply Hd2.
    unfold within, AUDIT_START_LBA in *. cbn [sd_st] in Hk. lia. }
  cbv beta. change (wp (_ ← scan_audit 3; _ ← audit_raw (str "rollback slot " ++ slot_letter x); _ ← say con (str "[store] active invalid; rollback" ++ [NL]);
    good ← slot_validates 3 key (Some (other x)) (pubkey s); mret (if good : bool then Some (other x) else None)) Q (mkSd s ws1 w2)).
  apply wp_bind. eapply wp_scan; [exact Hsv2|done|]. intros q p w3 Hsv3 _.
  apply wp_bind. eapply wp_audit; [exact Hsv3|apply Forall_app; split; [apply str_ok|unfold slot_letter; destruct (_ =? _); apply str_ok]|].
  intros D4 s4 w4 Hsv4 (Hd4 & [Hsame _] & _). apply tail_region in Hd4. apply same_but_audit_inv in Hsame as (q4 & p4 & ->).
  assert (Hd : same_except (fun k => audit_region k \/ k = hdr_lba x) D D4).
  { eapply same_except_trans; [eapply same_except_weaken; [exact Hd2|]|eapply same_except_weaken; [exact Hd4|]]; intros k Hk; cbv beta in *; [right; red in Hk; lia|by left]. }
  pose proof Hsv4 as [Ho4 Hws4 Hs4 Ha4]. cbn [sd_st sd_ws sd_env] in *.
  apply wp_bind. eapply wp_say; [exact Ho4|]. intros w5 Ho5. apply wp_bind.
  eapply (wp_slot_validates b D4); [by split|exact H1|exact H2|]. intros good ws6 w6 Hsv6 Hyes6 Hno6. apply wp_ret.
  apply (HQ _ D4 _ ws6 w6 Hsv6); [by destruct s|]. destruct good.
  - destruct (Hyes6 eq_refl) as (plain & gen & Hh). by eapply ch_other.
  - apply ch_nothing; [|exact Hd]. intros Hb y plain gen Hy. destruct (decide (y = x)) as [->|Hne]; [by apply (Hno Hb plain gen)|].
    assert (Ey : y = other x) by (by destruct x, y). subst y. apply (Hno6 eq_refl Hb plain gen). by apply (rollback_other D D4).
Qed.

(** ** Overrides *)

(** Overrides are the factory's or those under the volume key's tag. *)
Definition overrides_authentic D key (ov : list Z) (cg : Z) : Prop :=
  ov = FACTORY_CONFIG /\ cg = 0 \/ config_stored D key cg ov.

Lemma parse_config_ok sec tag gen text : sector_ok sec -> parse_config sec = Some (tag, gen, text) ->
  bytes_ok text /\ Z.of_nat (length text) <= CFG_TEXT_MAX /\ fits 64 gen /\ tag = slice 448 32 sec.
Proof.
  intros [Hl Hb]. unfold parse_config. destruct (_ || _); [done|]. destruct (Z.ltb_spec CFG_TEXT_MAX (le_field 16 2 sec)) as [|Hle]; [done|].
  intros [= <- <- <-]. split; [by apply bytes_slice|]. split; [|split; [|done]].
  - unfold slice. rewrite length_take. pose proof (le_field_fits 16 2 sec Hb ltac:(rewrite Hl; unfold SECTOR; lia)) as [? _]. lia.
  - change 64 with (8 * Z.of_nat 8). apply le_field_fits; [done|]. rewrite Hl. unfold SECTOR. lia.
Qed.

Lemma wp_mount_config b D con sec (Q : () -> Sd (W := W) -> Prop) s ws (w : W) :
  serving b D nobody (mkSd s ws w) -> sector_ok sec -> overrides s = FACTORY_CONFIG -> cfg_gen s = 0 ->
  (forall D' s' ov cg w', serving b D' nobody (mkSd s' ws w') -> same_except audit_region D D' ->
     same_but_audit (set_overrides ov cg s) s' -> overrides_authentic D (vol_key s) ov cg ->
     (b = true -> forall ov' cg', config_stored D (vol_key s) cg' ov' -> ov = ov' /\ cg = cg') -> Q () (mkSd s' ws w')) ->
  wp (mount_config 3 con sec) Q (mkSd s ws w).
Proof.
  intros Hsv Hsec Eov Ecg HQ. pose proof Hsv as [Ho Hws Hs Ha]. cbn [sd_st sd_ws sd_env] in *.
  assert (Es : set_overrides FACTORY_CONFIG 0 s = s) by (rewrite <- Eov, <- Ecg; by destruct s).
  unfold mount_config. apply wp_bind. eapply (wp_br1 b D nobody); [exact Ho|exact Hsec|]. intros ok c w1 Ho1 Hc Hd Hrel. cbv beta.
  assert (Hsv1 : serving b D nobody (mkSd s ws w1)) by done. unfold CONFIG_LBA, VOLUME_SECTORS in Hrel.
  destruct (ok && bytes_eqb (slice 0 8 c) CFG_MAGIC) eqn:Eok; cbn [negb]; cycle 1.
  { apply wp_ret, (HQ D s FACTORY_CONFIG 0); [exact Hsv1|done|rewrite Es; apply same_but_audit_refl|by left|].
    intros Hb ov' cg' Hst. exfalso. apply andb_false_iff in Eok as [E|E]; [specialize (Hrel Hb ltac:(lia)); congruence|].
    specialize (Hrel Hb ltac:(lia)). rewrite (Hd Hrel ltac:(by intros [])) in E.
    unfold config_stored, parse_config in Hst. rewrite E, orb_true_r in Hst. done. }
  apply andb_true_iff in Eok as [-> _]. rewrite (Hd eq_refl ltac:(by intros [])) in *. clear Hd.
  apply wp_bind. unfold st. apply wp_gets. cbn [sd_st].
  destruct (constant_time_eq _ _) eqn:Etag; cycle 1.
  - assert (Hcut : wp ('_ ← (_ ← scan_audit 3; audit_raw (str "cfg tamper ignored")); say con (str "[storaged] config blob corrupt: defaults in effect" ++ [NL])) Q (mkSd s ws w1)).
    { apply wp_bind. eapply wp_scan_note; [exact Hsv1|done|apply str_ok|]. intros D' s' w2 [Ho2 Hws2 Hs2 Ha2] Hd2 Hsame. cbn [sd_st sd_ws sd_env] in *.
      eapply wp_say; [exact Ho2|]. intros w3 Ho3. apply (HQ D' s' FACTORY_CONFIG 0); [by split|exact Hd2|by rewrite Es|by left|].
      intros Hb ov' cg' Hst. exfalso. apply parse_config_ok in Hst as (_ & _ & _ & Et); [|done].
      rewrite <- Et in Etag. unfold config_mac in Etag. assert (constant_time_eq (Hmac.oneshot (vol_key s) (take 448 (D CONFIG_LBA))) (Hmac.oneshot (vol_key s) (take 448 (D CONFIG_LBA))) = true) by (by apply constant_time_eq_true). congruence. }
    revert Hcut. unfold wp, mbind, prog_bind. destruct (scan_audit 3 _) as [[a1 d1]|]; [|done]. by destruct (audit_raw _ d1) as [[a2 d2]|].
  - apply constant_time_eq_true in Etag. destruct (parse_config (D CONFIG_LBA)) as [[[tag gen] text]|] eqn:Ep; cycle 1.
    { apply wp_ret, (HQ D s FACTORY_CONFIG 0); [exact Hsv1|done|rewrite Es; apply same_but_audit_refl|by left|]. intros _ ov' cg' Hst. unfold config_stored in Hst. congruence. }
    destruct (parse_config_ok _ _ _ _ Hc Ep) as (P1 & P2 & P3 & P4). unfold upd. apply wp_modify. cbn [sd_st sd_ws sd_env].
    apply (HQ D _ text gen); [|done|apply same_but_audit_refl| |].
    + split; [exact Ho1|exact Hws|by apply service_ok_overrides|by apply (audit_ok_state D s)].
    + right. unfold config_stored, config_mac. rewrite Etag, Ep, P4. done.
    + intros _ ov' cg' Hst. unfold config_stored in Hst. rewrite Ep in Hst. by injection Hst.
Qed.

(** ** The outcome *)

Definition sb_key D : list Z := slice SB_KEY_OFF 32 (D SUPERBLOCK_LBA).

(** An intact superblock names [x]. *)
Definition names D (x : SlotId) : Prop :=
  superblock_valid (sb_key D) (D SUPERBLOCK_LBA) = true /\ exists ga gb, parse_superblock (D SUPERBLOCK_LBA) = Some (Some x, ga, gb).

Definition all_apps : list Z := seqZ 0 APP_SLOTS.

Inductive mounted (b : bool) D D' (pk : list Z) : State -> Prop :=
  | mnt_recovery s' key : key = replicate 32 0 \/ key = sb_key D ->
      (b = true -> forall x y plain gen, names D x -> ~ slot_holds D (sb_key D) pk y plain gen) ->
      same_except mount_writes D D' ->
      same_but_audit (set_vol_key key (initial (Some 3) pk)) s' -> mounted b D D' pk s'
  | mnt_slot s' x named plain gen ov cg l :
      names D named -> x = named \/ x = other named /\ (b = true -> forall plain gen, ~ slot_holds D (sb_key D) pk named plain gen) ->
      slot_holds D (sb_key D) pk x plain gen -> slot_holds D' (sb_key D) pk x plain gen ->
      overrides_authentic D (sb_key D) ov cg ->
      (b = true -> forall ov' cg', config_stored D (sb_key D) cg' ov' -> ov = ov' /\ cg = cg') ->
      table_of b D' (sb_key D) pk all_apps l -> same_except mount_writes D D' ->
      same_but_audit (set_apps l None (set_overrides ov cg (set_mounted (sb_key D) x gen plain (initial (Some 3) pk)))) s' ->
      mounted b D D' pk s'.

Lemma table_of_ext b D D' key pk l : (forall slot k, 0 <= slot < APP_SLOTS -> app_region slot k -> D' k = D k) ->
  table_of b D key pk all_apps l -> table_of b D' key pk all_apps l.
Proof.
  intros HD (T1 & T2 & T3 & T4). split; [exact T1|]. split; [exact T2|]. rewrite Forall_forall in T1. split.
  - intros e Hin. destruct (T3 e Hin) as [Hs (plain & Hh)]. split; [exact Hs|]. exists plain.
    eapply app_holds_ext; [|exact Hh]. intros k Hk. apply (HD (ae_slot e)); [|exact Hk]. by apply T1.
  - intros Hb e plain Hh Hs. apply (T4 Hb e plain); [|exact Hs]. eapply app_holds_ext; [|exact Hh].
    intros k Hk. symmetry. apply (HD (ae_slot e)); [|exact Hk]. unfold all_apps in Hs. apply elem_of_seqZ in Hs. lia.
Qed.

Lemma audit_table b D D' key pk l : same_except audit_region D D' -> table_of b D key pk all_apps l -> table_of b D' key pk all_apps l.
Proof.
  intros Hd. apply table_of_ext. intros slot k Hs Hk. apply Hd. intros Hau. exact (app_region_audit slot k Hs Hk Hau).
Qed.

Lemma audit_config D D' key ov cg : (forall k, k = CONFIG_LBA -> D' k = D k) -> config_stored D' key cg ov <-> config_stored D key cg ov.
Proof. intros E. unfold config_stored. by rewrite E. Qed.

Lemma chose_writes b D D' key pk named r : chose b D D' key pk named r -> same_except mount_writes D D'.
Proof.
  intros [HD|x plain gen _ HD|x plain gen _ _ HD|x _ HD]; try (by intros k _); (eapply same_except_weaken; [exact HD|]);
    (intros k [?| ->]; [by left|right; eauto]).
Qed.

Lemma sb_key_ok D : (forall k, sector_ok (D k)) -> length (sb_key D) = 32%nat /\ bytes_ok (sb_key D).
Proof.
  intros HD. destruct (HD SUPERBLOCK_LBA) as [Hl Hb]. split; [|by apply bytes_slice].
  apply length_slice. rewrite Hl. unfold SB_KEY_OFF, SECTOR. lia.
Qed.

(** From the chosen slot on. *)
Lemma wp_load_mounted b D D1 pk con sec x named gen plain (Q : () -> Sd (W := W) -> Prop) s ws (w : W) :
  serving b D1 nobody (mkSd s ws w) -> sector_ok sec -> fits 64 gen ->
  (forall k, sector_ok (D k)) -> same_except mount_writes D D1 -> same_but_audit (initial (Some 3) pk) s -> names D named ->
  x = named \/ x = other named /\ (b = true -> forall plain gen, ~ slot_holds D (sb_key D) pk named plain gen) ->
  slot_holds D (sb_key D) pk x plain gen -> slot_holds D1 (sb_key D) pk x plain gen ->
  (forall D' s' ws' w', serving b D' nobody (mkSd s' ws' w') -> mounted b D D' pk s' -> Q () (mkSd s' ws' w')) ->
  wp (_ ← upd (set_mounted (sb_key D) x gen plain);
      _ ← mount_config 3 con sec;
      _ ← scan_audit 3;
      _ ← load_apps 3;
      _ ← audit_raw (push_num (str "boot slot" ++ slot_letter x ++ str " gen ") gen);
      s ← st id;
      say con
        (push_num (push_num (push_num (str "[storaged] mounted slot " ++ slot_letter x ++ str " gen ") gen
           ++ str "; ") (Z.of_nat (length (roster s))) ++ str " service(s); audit ") (audit_seq s)
           ++ str " records" ++ [NL])) Q (mkSd s ws w).
Proof.
  intros [Ho Hws Hs Ha] Hsec Hg HD Hw1 Hinit Hn Hx Hh0 Hh HQ. cbn [sd_st sd_ws sd_env] in *.
  destruct (sb_key_ok D HD) as [Hkl Hkb]. apply same_but_audit_inv in Hinit as (q0 & p0 & ->).
  unfold upd. apply wp_bind, wp_modify. cbn [sd_st sd_ws sd_env]. set (s1 := set_mounted _ x gen plain _).
  assert (Hs1 : service_ok s1) by (by apply service_ok_mounted).
  assert (Hcfg : forall k, k = CONFIG_LBA -> D1 k = D k).
  { intros k ->. apply Hw1. intros [Hau|[y Hy]]; [unfold audit_region, within, AUDIT_START_LBA, CONFIG_LBA in Hau; lia|by destruct y]. }
  apply wp_bind. eapply (wp_mount_config b D1); [split; [exact Ho|exact Hws|exact Hs1|by apply (audit_ok_state D1 (set_audit q0 p0 (initial (Some 3) pk)))]|exact Hsec|done|done|].
  intros D2 s2 ov cg w2 Hsv2 Hd2 Hsame2 Hauth Hpos. change (vol_key s1) with (sb_key D) in *.
  apply same_but_audit_inv in Hsame2 as (q2 & p2 & ->).
  apply wp_bind. eapply wp_scan; [exact Hsv2|done|]. intros q3 p3 w3 [Ho3 Hws3 Hs3 Ha3] _. cbn [sd_st sd_ws sd_env] in *.
  apply wp_bind. eapply (wp_load_apps b D2 nobody); [exact Ho3|exact Hws3|done|exact Hs3|done|].
  intros l ws4 w4 Ho4 Hws4 Htab Hs4. change (vol_key _) with (sb_key D) in Htab. change (pubkey _) with pk in Htab.
  apply wp_bind. eapply (wp_audit b D2 nobody); [split; [exact Ho4|exact Hws4|exact Hs4|by apply (audit_ok_state D2 (set_audit q3 p3 (set_audit q2 p2 (set_overrides ov cg s1))))]|..].
  { apply push_num_ok. apply Forall_app. split; [apply str_ok|]. apply Forall_app. split; [|apply str_ok]. unfold slot_letter. destruct (_ =? _); apply str_ok. }
  intros D5 s5 w5 Hsv5 (Hd5 & [Hsame5 _] & _). apply tail_region in Hd5. unfold st. apply wp_bind, wp_gets. destruct Hsv5 as [Ho5 Hws5 Hs5 Ha5]. cbn [sd_st sd_ws sd_env] in *.
  eapply wp_say; [exact Ho5|]. intros w6 Ho6. apply (HQ D5 s5 ws4 w6); [by split|].
  assert (Hd25 : same_except audit_region D1 D5) by (eapply same_except_trans; eassumption).
  eapply (mnt_slot b D D5 pk s5 x named plain gen ov cg l); [exact Hn|exact Hx|exact Hh0|by apply (audit_slot D1)| | |by apply (audit_table b D2)|..].
  - destruct Hauth as [?|?]; [by left|right]. by apply (audit_config D D1).
  - intros Hb ov' cg' Hst. apply Hpos; [done|]. by apply (audit_config D D1).
  - eapply same_except_trans; [exact Hw1|by apply audit_mount_writes].
  - apply same_but_audit_inv in Hsame5 as (q5 & p5 & ->). reflexivity.
Qed.

Lemma chose_from b D D' pk named x : chose b D D' (sb_key D) pk named (Some x) ->
  exists n plain gen, named = Some n /\ slot_holds D' (sb_key D) pk x plain gen /\ slot_holds D (sb_key D) pk x plain gen /\
    (x = n \/ x = other n /\ (b = true -> forall plain gen, ~ slot_holds D (sb_key D) pk n plain gen)).
Proof.
  remember (Some x) as r eqn:E. intros Hc. destruct Hc as [HD|y plain gen Hh HD|y plain gen Hh Hno HD|y Hno HD]; try done; injection E as <-;
    exists y, plain, gen; (split; [done|]).
  - split; [|split; [exact Hh|tauto]]. eapply slot_holds_ext; [|exact Hh]. intros k _. apply HD.
  - split; [exact Hh|]. split; [by apply (rollback_other D D')|tauto].
Qed.

Lemma wp_mount b D pk con (Q : () -> Sd (W := W) -> Prop) ws (w : W) :
  on b D nobody w -> ws_ok ws -> bytes_ok pk -> length pk = 32%nat ->
  (forall D' s' ws' w', serving b D' nobody (mkSd s' ws' w') -> mounted b D D' pk s' -> Q () (mkSd s' ws' w')) ->
  wp (mount 3 con) Q (mkSd (initial (Some 3) pk) ws w).
Proof.
  intros Ho Hws Hk1 Hk2 HQ. pose proof (initial_ok (Some 3) pk (or_intror eq_refl) Hk1 Hk2) as Hs0. set (s0 := initial (Some 3) pk) in *.
  assert (Ha0 : audit_ok D s0) by apply initial_audit. pose proof (on_ok b D nobody w Ho) as HD.
  assert (Hrec : forall w1, on b D nobody w1 -> (b = true -> forall x, ~ names D x) -> Q () (mkSd s0 ws w1)).
  { intros w1 Ho1 Hno. apply (HQ D); [by split|]. apply (mnt_recovery b D D pk s0 (replicate 32 0)); [by left| |done|apply same_but_audit_refl].
    intros Hb x y plain gen Hn. by destruct (Hno Hb x). }
  unfold mount. apply wp_bind. eapply (wp_br1 b D nobody); [exact Ho|apply zeros_ok|]. intros ok sec w1 Ho1 Hsec Hd Hrel.
  unfold SUPERBLOCK_LBA, VOLUME_SECTORS in Hrel. destruct ok; cbn [negb]; cycle 1.
  { eapply wp_say; [exact Ho1|]. intros w2 Ho2. apply Hrec; [exact Ho2|]. intros Hb. specialize (Hrel Hb ltac:(lia)). done. }
  rewrite (Hd eq_refl ltac:(by intros [])) in *. clear Hd Hrel.
  destruct (bytes_eqb _ SB_MAGIC) eqn:Em; cbn [negb]; cycle 1.
  { eapply wp_say; [exact Ho1|]. intros w2 Ho2. apply Hrec; [exact Ho2|]. intros _ x (_ & ga & gb & Hp). unfold parse_superblock in Hp.
    rewrite Em, orb_true_r in Hp. done. }
  cbv zeta. fold (sb_key D). destruct (superblock_valid (sb_key D) (D SUPERBLOCK_LBA)) eqn:Ev; cbn [negb]; cycle 1.
  { eapply wp_say; [exact Ho1|]. intros w2 Ho2. apply Hrec; [exact Ho2|]. intros _ x (Hv & _). congruence. }
  destruct (default (None, 0, 0) (parse_superblock (D SUPERBLOCK_LBA))) as [[named ga] gb] eqn:Ep.
  assert (Hnamed : forall x, names D x -> named = Some x).
  { intros x (_ & ga' & gb' & Hp). rewrite Hp in Ep. by injection Ep. }
  destruct (sb_key_ok D HD) as [Hkl Hkb].
  assert (Hrecover : forall D' text s1 ws1 w1, serving b D' nobody (mkSd s1 ws1 w1) -> same_except mount_writes D D' -> bytes_ok text ->
    (b = true -> forall x y plain gen, names D x -> ~ slot_holds D (sb_key D) pk y plain gen) ->
    same_but_audit (set_vol_key (sb_key D) s0) s1 -> wp (_ ← scan_audit 3; audit_raw text) Q (mkSd s1 ws1 w1)).
  { intros D1 text s1 ws1 w2 Hsv1 Hd1 Ht Hno Hsame. eapply wp_scan_note; [exact Hsv1|done|exact Ht|].
    intros D2 s2 w3 Hsv2 Hd2 Hsame2. apply (HQ D2); [exact Hsv2|]. apply (mnt_recovery b D D2 pk s2 (sb_key D)); [by right|exact Hno| |].
    - eapply same_except_trans; [exact Hd1|by apply audit_mount_writes].
    - apply same_but_audit_inv in Hsame as (q & p & ->). apply same_but_audit_inv in Hsame2 as (q' & p' & ->). reflexivity. }
  apply wp_bind. eapply (wp_choose_slot b D); [by split|]. intros r D1 s1 ws1 w2 Hsv1 Hsame1 Hch. change (pubkey s0) with pk in Hch.
  pose proof (chose_writes _ _ _ _ _ _ _ Hch) as Hd1. pose proof Hsv1 as [Ho2 Hws1 Hs1 Ha1]. cbn [sd_st sd_ws sd_env] in *.
  pose proof Hsame1 as (q1 & p1 & E1)%same_but_audit_inv.
  destruct r as [x|]; cycle 1.
  { apply wp_bind. eapply wp_say; [exact Ho2|]. intros w3 Ho3. apply wp_bind. unfold upd. apply wp_modify. cbn [sd_st sd_ws sd_env].
    apply (Hrecover D1); [|exact Hd1|apply str_ok| |by rewrite E1].
    - split; [exact Ho3|exact Hws1|by apply service_ok_noactive, service_ok_key|by apply (audit_ok_state D1 s1)].
    - intros Hb x y plain gen Hn. pose proof (Hnamed x Hn) as En. rewrite En in Hch.
      inversion Hch as [| | |x' Hno HD' E2]. by apply Hno. }
  destruct (chose_from _ _ _ _ _ _ Hch) as (n & plain & gen & -> & Hh & Hh0 & Hxn).
  assert (Hn : names D n).
  { split; [exact Ev|]. exists ga, gb. destruct (parse_superblock (D SUPERBLOCK_LBA)) as [t|]; [by rewrite <- Ep|done]. }
  unfold st. apply wp_bind, wp_gets. cbn [sd_st]. assert (Epk : pubkey s1 = pk) by (by rewrite E1). rewrite Epk.
  apply wp_bind. eapply (wp_validate_and_load b D1 nobody); [exact Ho2|exact Hws1|exact Hk1|exact Hk2|]. intros r ws3 w3 Ho3 Hws3 Hv.
  destruct r as [[len g]|].
  - destruct Hv as (V1 & V2 & V3). specialize (V3 ltac:(by intros k _ [])). apply wp_bind. unfold workspace. apply wp_gets. cbn [sd_ws].
    destruct (slot_holds_unique _ _ _ _ _ _ _ _ Hh V3) as [E2 E3]. rewrite E2, E3 in Hh0.
    eapply (wp_load_mounted b D D1 pk con (D SUPERBLOCK_LBA) x n g (take len ws3)); [by split|apply HD|exact V2|exact HD|exact Hd1|exact Hsame1|exact Hn|exact Hxn|exact Hh0|exact V3|exact HQ].
  - apply wp_bind. eapply wp_say; [exact Ho3|]. intros w4 Ho4. apply wp_bind. unfold upd. apply wp_modify. cbn [sd_st sd_ws sd_env].
    apply (Hrecover D1); [|exact Hd1|apply str_ok| |by rewrite E1].
    + split; [exact Ho4|exact Hws3|by apply service_ok_key|by apply (audit_ok_state D1 s1)].
    + intros Hb. destruct (Hv Hb ltac:(by intros k _ []) plain gen Hh).
Qed.
End mount.
