(* ===== verification/StorageServe.v ===== *)
(** * Serving requests

    Every request, whatever its bytes and whatever the disk answers, is replied
    to without a panic and keeps the service invariant; what it may change is
    [kept]: the audit records already written stay, the identity of the
    service stays, and on a disk without faults every listed application stays
    authenticated. *)

From S2P Require Import Prelude RustStd HashStream Sha256 Hmac ChaCha20 Ed25519 Layout LayoutTheorems Prog Userlib StorageText StorageConfig Storaged StorageEnv StorageLoad StorageAudit StorageInv StorageApps StorageInstall StorageUpdate StorageMount.
Import Layout Text Storaged.

#[local] Opaque Ed25519.verify Sha256.sha256 Hmac.oneshot Hmac.reference ChaCha20.xor_stream WS_LEN.

(** What no request changes. *)
Definition identity (s : State) := (recovery s, block s, vol_key s, pubkey s, payload s, roster s, device_id s).

Definition apps_held D s : Prop := Forall (held D (vol_key s) (pubkey s)) (apps s).

Record kept (b : bool) (D D' : Z -> list Z) (s s' : State) : Prop := {
  k_seq : audit_seq s <= audit_seq s';
  k_log : forall k, within AUDIT_START_LBA (audit_seq s) k -> D' k = D k;
  k_identity : identity s' = identity s;
  k_apps : b = true -> apps_held D s -> apps_held D' s';
}.

Lemma kept_trans b D1 D2 D3 s1 s2 s3 : kept b D1 D2 s1 s2 -> kept b D2 D3 s2 s3 -> kept b D1 D3 s1 s3.
Proof.
  intros [Q1 L1 I1 A1] [Q2 L2 I2 A2]. split; [lia| |congruence|auto].
  intros k Hk. rewrite L2; [by apply L1|]. unfold within in *. lia.
Qed.

(** A request that changed sectors [X], none of them a record or an
    application in the table. *)
Lemma kept_apart b D D' (X : Z -> Prop) s s' : service_ok s -> audit_ok D s -> same_except X D D' ->
  (forall k, X k -> audit_region k -> AUDIT_START_LBA + audit_seq s <= k) ->
  (forall slot k, 0 <= slot < APP_SLOTS -> X k -> app_region slot k -> False) ->
  audit_seq s <= audit_seq s' -> identity s' = identity s -> apps s' = apps s -> kept b D D' s s'.
Proof.
  intros Hs Ha Hd Hau Hap Hq Hi Happs. split; [done| |done|].
  - intros k Hk. apply Hd. intros Hx. pose proof (au_seq _ _ Ha). specialize (Hau k Hx). unfold audit_region, within in *. lia.
  - intros _. unfold apps_held, identity in *. injection Hi as E1 E2 E3 E4 E5 E6 E7. rewrite E3, E4, Happs. pose proof (so_apps s Hs) as Hwf.
    rewrite !Forall_forall in *. intros Hh e Hin. apply (held_ext D); [|by apply Hh].
    intros k Hk. apply Hd. intros Hx. apply (Hap (ae_slot e) k); [by apply Hwf|done|done].
Qed.

Lemma kept_log_only b D D' s s' : service_ok s -> audit_ok D s -> same_except (audit_tail s) D D' ->
  audit_seq s <= audit_seq s' -> identity s' = identity s -> apps s' = apps s -> kept b D D' s s'.
Proof.
  intros Hs Ha Hd. apply (kept_apart b D D' (audit_tail s)); [done..| |].
  - by intros k [_ Hk] _.
  - intros slot k Hslot [Hk _] Hr. by apply (app_region_audit slot k).
Qed.

(** Sectors below the log are not the applications'. *)
Lemma low_not_app slot k : 0 <= slot < APP_SLOTS -> k < AUDIT_START_LBA -> app_region slot k -> False.
Proof.
  intros Hs Hk Hr. pose proof (app_lba_bounds slot Hs). unfold app_region, within, APP_START_LBA, AUDIT_START_LBA in *. lia.
Qed.

Lemma low_not_audit k : k < AUDIT_START_LBA -> audit_region k -> False.
Proof. unfold audit_region, within. lia. Qed.

Lemma kept_low b D D' s s' : service_ok s -> audit_ok D s -> same_except (fun k => k < AUDIT_START_LBA \/ audit_tail s k) D D' ->
  audit_seq s <= audit_seq s' -> identity s' = identity s -> apps s' = apps s -> kept b D D' s s'.
Proof.
  intros Hs Ha Hd. eapply kept_apart; [done|done|exact Hd|..].
  - intros k [Hk|[_ Hk]] Hau; [by destruct (low_not_audit k)|exact Hk].
  - intros slot k Hslot [Hk|[Hk _]] Hr; [by apply (low_not_app slot k)|by apply (app_region_audit slot k)].
Qed.

(** ** Per outcome *)

Lemma kept_set b D D' s key value reply s' : service_ok s -> audit_ok D s -> set_outcome b D s key value reply D' s' -> kept b D D' s s'.
Proof.
  intros Hs Ha (Hd & (q & p & E & Hq)%advanced_inv & _). apply kept_low; [done|done| |by rewrite E|by rewrite E|by rewrite E].
  eapply same_except_weaken; [exact Hd|]. intros k [->|Hk]; [left; unfold CONFIG_LBA, AUDIT_START_LBA; lia|by right].
Qed.

Lemma kept_updated b D D' F s s' reply : service_ok s -> audit_ok D s -> updated b D D' F s s' reply -> kept b D D' s s'.
Proof.
  intros Hs Ha Hu.
  assert (Hlow : forall k, slot_region (inactive_slot s) k \/ k = SUPERBLOCK_LBA -> k < AUDIT_START_LBA).
  { intros k [Hk%slot_region_range| ->]; unfold SUPERBLOCK_LBA, AUDIT_START_LBA; lia. }
  destruct Hu as [s' reply (q & p & E & Hq)%advanced_inv Hd _|s' plain gen Hd _ _ _ (q & p & E & Hq)%advanced_inv];
    (apply kept_low; [done|done| |by rewrite E|by rewrite E|by rewrite E]); (eapply same_except_weaken; [exact Hd|]); intros k; cbv beta.
  - intros [Hk|[Hk|[_ Hk]]]; [left; apply Hlow; tauto|by right|left; apply Hlow; tauto].
  - intros [Hk|[Hk|Hk]]; [left; apply Hlow; tauto|by right|left; apply Hlow; tauto].
Qed.

Lemma kept_removed b D D' s name s' r : service_ok s -> audit_ok D s -> removed b D D' s name s' r -> kept b D D' s s'.
Proof.
  intros Hs Ha [Hd Hr]. pose proof (so_apps s Hs) as Hwf. rewrite Forall_forall in Hwf.
  assert (Hlog : forall k, within AUDIT_START_LBA (audit_seq s) k -> D' k = D k).
  { intros k Hk. apply Hd. pose proof (au_seq _ _ Ha). unfold within in Hk. intros [[_ Ht]|(a & Hin & _ & ->)]; [lia|].
    apply (app_region_audit (ae_slot a) (app_lba (ae_slot a))); [by apply Hwf|unfold app_region, within, APP_SLOT_SECTORS; lia|unfold audit_region, within; lia]. }
  assert (Hother : forall e, e ∈ apps s -> same_app_name e name = false -> forall k, app_region (ae_slot e) k -> D' k = D k).
  { intros e Hin Hn k Hk. apply Hd. intros [[Ht _]|(a & Hina & Hna & ->)]; [by apply (app_region_audit (ae_slot e) k); [apply Hwf|..]|].
    assert (Es : ae_slot a = ae_slot e).
    { pose proof (ew_slot _ (Hwf a Hina)). pose proof (ew_slot _ (Hwf e Hin)). unfold app_region, within, app_lba, APP_SLOT_SECTORS in Hk. lia. }
    assert (a = e); [|congruence]. apply list_elem_of_lookup in Hin as [i Hi]. apply list_elem_of_lookup in Hina as [j Hj].
    assert (i = j); [|congruence]. eapply (NoDup_lookup (ae_slot <$> apps s)); [apply Hs|by rewrite list_lookup_fmap, Hi|by rewrite list_lookup_fmap, Hj, <- Es]. }
  destruct Hr as [[-> Hr]|(-> & Hz & (q & p & E & Hq)%advanced_inv)].
  - split; [lia|exact Hlog|done|]. intros Hb Hh. destruct Hr as [[_ Hf]|[HD _]]; [congruence|].
    unfold apps_held in *. rewrite Forall_forall in *. intros e Hin. apply (held_ext D); [|by apply Hh]. intros k _. apply HD.
  - rewrite E. split; [exact Hq|exact Hlog|done|]. intros _. unfold apps_held. cbn [apps set_audit set_apps vol_key pubkey].
    rewrite !Forall_forall. intros Hh e Hin. apply list_elem_of_In, filter_In in Hin as [Hin Hn]. apply list_elem_of_In in Hin.
    apply negb_true_iff in Hn. apply (held_ext D); [by apply Hother|by apply Hh].
Qed.

Lemma app_regions_apart x y k : 0 <= x < APP_SLOTS -> 0 <= y < APP_SLOTS -> app_region x k -> app_region y k -> x = y.
Proof. unfold app_region, within, app_lba, APP_SLOT_SECTORS. lia. Qed.

Lemma kept_installed b D D' s s' r : service_ok s -> audit_ok D s -> installed b D D' s s' r -> kept b D D' s s'.
Proof.
  intros Hs Ha Hi. pose proof (so_apps s Hs) as Hwf. rewrite Forall_forall in Hwf.
  assert (Hlog : forall slot P k, 0 <= slot < APP_SLOTS -> same_except (fun k => app_region slot k \/ P k) D D' -> ~ P k ->
    within AUDIT_START_LBA (audit_seq s) k -> D' k = D k).
  { intros slot P k Hslot Hd Hp Hk. apply Hd. intros [Hr|Hr]; [|done]. apply (app_region_audit slot k Hslot Hr).
    pose proof (au_seq _ _ Ha). unfold audit_region, within in *. lia. }
  destruct Hi as [r Hr1 Hr2 HD -> _|slot pkg -> (_ & Hacc & Ht) Hd ->|slot pkg name entry (Hst & Hacc & Ht) Hd Hpub (q & p & E & Hq)%advanced_inv].
  - split; [lia|by intros k _|done|]. intros _. unfold apps_held. rewrite !Forall_forall. intros Hh e Hin.
    apply (held_ext D); [by intros k _|by apply Hh].
  - destruct (target_slot_ok _ _ _ (so_apps s Hs) Ht) as [Hslot _]. split; [lia| |done|done].
    intros k Hk. apply (Hlog slot nobody k Hslot); [|by intros []|exact Hk]. eapply same_except_weaken; [exact Hd|]. by left.
  - destruct (target_slot_ok _ _ _ (so_apps s Hs) Ht) as [Hslot _]. rewrite E. split; [exact Hq| |done|].
    + intros k Hk. apply (Hlog slot (audit_tail s) k Hslot Hd); [|exact Hk]. intros [_ Hk']. unfold within in Hk. lia.
    + intros _. unfold apps_held. cbn [apps set_audit set_apps vol_key pubkey]. intros Hh. apply Forall_app. split.
      * rewrite Forall_forall in *. intros e Hin. apply list_elem_of_In, filter_In in Hin as [Hin Hn]. apply list_elem_of_In in Hin.
        apply negb_true_iff, Z.eqb_neq in Hn. apply (held_ext D); [|by apply Hh]. intros k Hk. apply Hd.
        intros [Hr|[Hau _]]; [by apply Hn, (app_regions_apart _ _ k (ew_slot _ (Hwf e Hin)) Hslot)|].
        by apply (app_region_audit (ae_slot e) k (ew_slot _ (Hwf e Hin))).
      * destruct Hacc as (A1 & A2 & A3 & _). fold name in A1, A3. rewrite <- A2 in A3. apply Forall_singleton.
        destruct (published_holds _ _ _ _ _ _ _ _ Hpub A1 A3) as (e' & S1 & S2 & S3 & S4 & Hh').
        exists e', (ap_payload pkg). split; [|exact Hh']. split; [exact S1|exact S2|exact S4|exact S3|].
        destruct Hh' as (hdr & _ & _ & _ & _ & _ & Hsha & _). rewrite <- Hsha, A2. reflexivity.
Qed.

(** ** Requests *)

Lemma strip_prefix_app p rest : strip_prefix (p ++ rest) p = Some rest.
Proof.
  unfold strip_prefix. rewrite length_app, (proj2 (Nat.leb_le _ _)) by lia. rewrite take_app_length, (proj2 (bytes_eqb_eq p p)) by done.
  cbn [andb]. by rewrite drop_app_length.
Qed.

Lemma strip_prefix_ok s p r : bytes_ok s -> strip_prefix s p = Some r -> bytes_ok r.
Proof. intros Hb. unfold strip_prefix. destruct (_ && _); [|done]. intros [= <-]. by apply Forall_drop. Qed.

Lemma after_prefix_ok s ps r : bytes_ok s -> after_prefix s ps = Some r -> bytes_ok r.
Proof.
  intros Hb. induction ps as [|p ps IH]; cbn [after_prefix]; [done|]. destruct (strip_prefix s (str p)) eqn:E; [|exact IH].
  intros [= <-]. by eapply strip_prefix_ok.
Qed.

Lemma parse_digits_nonneg l : forall acc r, 0 <= acc -> parse_digits acc l = Some r -> 0 <= r.
Proof.
  induction l as [|d l IH]; intros acc r Ha; cbn [parse_digits]; [congruence|].
  unfold is_ascii_digit, in_range. destruct (_ && _) eqn:Ed; [|done]. bool_facts. cbv zeta.
  destruct (_ <? _); [|done]. apply IH. lia.
Qed.

Lemma parse_u64_nonneg l r : parse_u64 l = Some r -> 0 <= r.
Proof.
  unfold parse_u64. destruct l as [|d l]; [done|]. repeat case_match; try done; apply parse_digits_nonneg; lia.
Qed.

Lemma parse_app_chunk_req_nonneg rest name off : parse_app_chunk_req rest = Some (name, off) -> 0 <= off.
Proof.
  unfold parse_app_chunk_req. destruct (rposition _ rest) as [i|]; [|done]. cbn [mbind option_bind].
  destruct (parse_u64 _) as [z|] eqn:E; [|done]. intros [= _ <-]. by eapply parse_u64_nonneg.
Qed.

Section serve.
Context {W : Type} `{Volume W} (ELF : list Z).
Implicit Types (D : Z -> list Z) (F : Z -> Prop).

(** A query appends to the log at most, and may cache a program. *)
Definition queried D D' s s' : Prop := same_except (audit_tail s) D D' /\ exists c, advanced (set_cached c s) s'.

Lemma queried_refl D s : queried D D s s.
Proof. split; [done|]. exists (cached_app s). split; [by destruct s|done]. Qed.

Lemma kept_queried b D D' s s' : service_ok s -> audit_ok D s -> queried D D' s s' -> kept b D D' s s'.
Proof. intros Hs Ha (Hd & c & (q & p & E & Hq)%advanced_inv). apply kept_log_only; [done|done|exact Hd|by rewrite E|by rewrite E|by rewrite E]. Qed.

Lemma cached_queried b D s ws name r s' ws' : cached b D s ws name r s' ws' -> queried D D s s'.
Proof.
  unfold cached. destruct r as [e|]; [|by intros [-> _]; apply queried_refl].
  intros (best & _ & _ & _ & _ & [(_ & -> & _)|(-> & _)]); [apply queried_refl|]. split; [done|]. exists (Some e). apply advanced_refl.
Qed.

Lemma wp_app_query b D F req (Q : list Z -> Sd (W := W) -> Prop) s ws (w : W) :
  serving b D F (mkSd s ws w) -> slots_only F ->
  (forall r s' ws' w', serving b D F (mkSd s' ws' w') -> queried D D s s' -> Q r (mkSd s' ws' w')) ->
  wp (handle_app_query req) Q (mkSd s ws w).
Proof.
  intros Hsv HF HQ. unfold handle_app_query, st. apply wp_bind, wp_gets. cbn [sd_st]. unfold id.
  assert (Hret : forall r, wp (mret r) Q (mkSd s ws w)) by (intros r; apply wp_ret, HQ; [exact Hsv|apply queried_refl]).
  destruct (bytes_eqb req _); [apply Hret|]. destruct (after_prefix req ["app-list "%string]); [apply Hret|].
  destruct (after_prefix req _) as [name|].
  { unfold app_info. apply wp_bind. eapply wp_cache_app; [exact Hsv|exact HF|]. intros r s' ws' w' Hsv' Hc. apply wp_ret, HQ; [exact Hsv'|by eapply cached_queried]. }
  destruct (after_prefix req _); [apply Hret|]. destruct (after_prefix req _); [apply Hret|].
  destruct (after_prefix req _) as [rest|]; [|apply Hret].
  destruct (parse_app_chunk_req rest) as [[name off]|] eqn:Ep; [|apply Hret].
  eapply wp_app_chunk; [exact Hsv|exact HF|by eapply parse_app_chunk_req_nonneg|].
  intros r s' ws' w' Hsv' [[_ Hc]|(e & Hc & _)]; apply HQ; try exact Hsv'; by eapply cached_queried.
Qed.

Lemma wp_read_record b D F n (Q : list Z -> Sd (W := W) -> Prop) s ws (w : W) :
  serving b D F (mkSd s ws w) -> (forall r w', serving b D F (mkSd s ws w') -> Q r (mkSd s ws w')) ->
  wp (read_audit_record n) Q (mkSd s ws w).
Proof.
  intros Hsv HQ. pose proof Hsv as [Ho Hws Hs Ha]. cbn [sd_st sd_ws sd_env] in *.
  unfold read_audit_record, st. apply wp_bind, wp_gets. cbn [sd_st]. unfold id.
  destruct (so_block s Hs) as [E|E]; rewrite E; cbv iota; [by apply wp_ret, HQ|]. destruct (_ <=? _); [by apply wp_ret, HQ|].
  apply wp_bind. eapply wp_br1; [exact Ho|apply zeros_ok|]. intros ok sec w' Ho' _ _ _. cbv beta.
  destruct ok; cbn [negb]; by apply wp_ret, HQ.
Qed.

Lemma wp_handle_query b D F req (Q : list Z -> Sd (W := W) -> Prop) s ws (w : W) :
  serving b D F (mkSd s ws w) -> slots_only F -> bytes_ok req ->
  (forall r D' s' ws' w', serving b D' F (mkSd s' ws' w') -> queried D D' s s' -> Q r (mkSd s' ws' w')) ->
  wp (handle_query req) Q (mkSd s ws w).
Proof.
  intros Hsv HF Hreq HQ. unfold handle_query.
  assert (Hret : forall r, wp (mret r) Q (mkSd s ws w)) by (intros r; apply wp_ret, (HQ r D); [exact Hsv|apply queried_refl]).
  destruct (strip_prefix req (str "log ")) as [rest|] eqn:El.
  { eapply wp_audited; [exact Hsv|apply trim_ok; by eapply strip_prefix_ok|]. intros D' s' w' Hsv' Hd Hsame. apply (HQ _ D'); [exact Hsv'|].
    split; [exact Hd|]. exists (cached_app s). by replace (set_cached (cached_app s) s) with s by (by destruct s). }
  clear El. unfold st. apply wp_bind, wp_gets. cbn [sd_st]. unfold id.
  destruct (bytes_eqb req _); [apply Hret|]. destruct (bytes_eqb req _); [apply Hret|].
  destruct (strip_prefix req _); [apply Hret|]. destruct (bytes_eqb req _); [apply Hret|].
  destruct (strip_prefix req _); [apply Hret|]. destruct (bytes_eqb req _); [apply Hret|].
  destruct (strip_prefix req _) as [rest|].
  - eapply wp_read_record; [exact Hsv|]. intros r w' Hsv'. apply (HQ r D); [exact Hsv'|apply queried_refl].
  - eapply wp_app_query; [exact Hsv|exact HF|]. intros r s' ws' w' Hsv' Hq. by apply (HQ r D).
Qed.

(** The outcomes of a configuration request. *)
Inductive configured (b : bool) D D' F (F' : Z -> Prop) s s' (req reply : list Z) : Prop :=
  | cf_refused : reply <> [] -> take 3 reply = str "err" -> (forall k, D' k = D k) -> s' = s -> (forall k, F' k <-> F k) ->
      configured b D D' F F' s s' req reply
  | cf_set rest i : strip_prefix req (str "set ") = Some rest -> recovery s = false -> position (fun c => c =? 32) rest = Some i ->
      set_outcome b D s (trim (take i rest)) (trim (drop (i + 1) rest)) reply D' s' -> (forall k, F' k <-> F k) ->
      configured b D D' F F' s s' req reply
  | cf_update : req = str "begin-update" -> updated b D D' F s s' reply -> lent F F' s reply -> configured b D D' F F' s s' req reply
  | cf_install : req = str "install-app" -> installed b D D' s s' reply -> (forall k, F' k <-> F k) -> configured b D D' F F' s s' req reply
  | cf_remove name : strip_prefix req (str "remove-app ") = Some name -> removed b D D' s (trim name) s' reply -> (forall k, F' k <-> F k) ->
      configured b D D' F F' s s' req reply.

Lemma wp_handle_config b D F con req (Q : list Z -> Sd (W := W) -> Prop) s ws (w : W) :
  serving b D F (mkSd s ws w) -> slots_only F -> bytes_ok req -> (recovery s = false -> block s = Some 3) ->
  (forall r D' F' s' ws' w', serving b D' F' (mkSd s' ws' w') -> configured b D D' F F' s s' req r -> Q r (mkSd s' ws' w')) ->
  wp (handle_config ELF con req) Q (mkSd s ws w).
Proof.
  intros Hsv HF Hreq Hblk HQ. unfold handle_config, st. apply wp_bind, wp_gets. cbn [sd_st]. unfold id.
  assert (Href : forall r, r <> [] -> take 3 r = str "err" -> wp (mret r) Q (mkSd s ws w)).
  { intros r Hr Ht. apply wp_ret, (HQ r D F s ws w Hsv). by apply cf_refused. }
  destruct (strip_prefix req (str "set ")) as [rest|] eqn:Es.
  { destruct (recovery s) eqn:Hrec; [by apply Href|]. destruct (position (fun c => c =? 32) rest) as [i|] eqn:Ei.
    - eapply wp_set_config; [exact Hsv|by apply Hblk|by eapply strip_prefix_ok|exact Ei|].
      intros reply D' s' w' Hsv' Hset. apply (HQ reply D' F); [exact Hsv'|by eapply cf_set].
    - unfold set_config. rewrite Ei. by apply Href. }
  destruct (bytes_eqb req (str "begin-update")) eqn:Eu.
  { apply bytes_eqb_eq in Eu. eapply wp_run_update; [exact Hsv|exact HF|]. intros D' F' s' ws' w' reply Hsv' Hl Hu. apply (HQ reply D' F'); [exact Hsv'|by apply cf_update]. }
  destruct (bytes_eqb req (str "install-app")) eqn:Ei.
  { apply bytes_eqb_eq in Ei. eapply wp_install_app; [exact Hsv|exact HF|]. intros reply D' s' ws' w' Hsv' Hi. apply (HQ reply D' F); [exact Hsv'|by apply cf_install]. }
  destruct (strip_prefix req (str "remove-app ")) as [name|] eqn:Er; [|by apply Href].
  eapply wp_remove_app; [exact Hsv|exact HF|apply trim_ok; by eapply strip_prefix_ok|].
  intros reply D' s' w' Hsv' Hr. apply (HQ reply D' F); [exact Hsv'|by eapply cf_remove].
Qed.

Lemma kept_configured b D D' F F' s s' req reply : service_ok s -> audit_ok D s -> configured b D D' F F' s s' req reply -> kept b D D' s s'.
Proof.
  intros Hs Ha [Hr1 Hr2 HD -> _|rest i _ _ _ Hset _|_ Hu _|_ Hi _|name _ Hr _].
  - apply kept_log_only; [done|done| |done|done|done]. intros k _. apply HD.
  - by eapply kept_set.
  - by eapply kept_updated.
  - by eapply kept_installed.
  - by eapply kept_removed.
Qed.

Lemma configured_slots b D D' F F' s s' req reply : slots_only F -> configured b D D' F F' s s' req reply -> slots_only F'.
Proof.
  intros HF Hc. assert (Hsame : (forall k, F' k <-> F k) -> slots_only F') by (intros E k Hk; apply HF, E, Hk).
  destruct Hc as [_ _ _ _ E|rest i _ _ _ _ E|_ _ [E|[_ E]]|_ _ E|name _ _ E]; try (by apply Hsame).
  intros k Hk. apply E in Hk. by apply (slots_only_lent F s HF).
Qed.

(** ** Rounds *)

Lemma unpack_ok words : bytes_ok (msg.unpack words).
Proof.
  induction words as [|w words IH]; cbn [msg.unpack]; [constructor|]. cbv zeta. apply Forall_app. split.
  - apply bytes_take, to_le_bytes_ok.
  - destruct (_ <? _)%nat; [constructor|exact IH].
Qed.

(** The service after some requests: [D0], [s0] are where it started. *)
Record alive (b : bool) D0 s0 (d : Sd (W := W)) : Prop := {
  al_serving : exists D F, serving b D F d /\ slots_only F /\ kept b D0 D s0 (sd_st d);
  al_block : recovery (sd_st d) = false -> block (sd_st d) = Some 3;
}.

Lemma alive_call b D0 s0 s ws (w w' : W) n args r buf : n <> Sys.SYS_BLOCK_WRITE -> n <> Sys.SYS_TASK_SPAWN ->
  raw_full n args w = (r, buf, w') -> alive b D0 s0 (mkSd s ws w) -> alive b D0 s0 (mkSd s ws w').
Proof.
  intros Hn Hs E [(D & F & [Ho Hws Hso Ha] & HF & Hk) Hb]. cbn [sd_st sd_ws sd_env] in *. split; [|exact Hb].
  exists D, F. split; [|done]. split; [|exact Hws|exact Hso|exact Ha].
  pose proof (on_call b D F n args w Hn Hs Ho) as Ho'. by rewrite E in Ho'.
Qed.

(** A system call of the loop that is neither a write nor a spawn. *)
Lemma wp_alive_call {A} (k : Ret * list Z -> prog W A) b D0 s0 n args (Q : A -> Sd (W := W) -> Prop) s ws (w : W) :
  n <> Sys.SYS_BLOCK_WRITE -> n <> Sys.SYS_TASK_SPAWN -> (forall rb w', exists a, k rb w' = Some (a, w')) -> alive b D0 s0 (mkSd s ws w) ->
  (forall a w', alive b D0 s0 (mkSd s ws w') -> Q a (mkSd s ws w')) ->
  wp (sys (Userlib.trap n args ≫= k)) Q (mkSd s ws w).
Proof.
  intros Hn Hs Hk Hal HQ. apply wp_sys, wp_bind. unfold Userlib.trap, wp at 1. destruct (raw_full n args w) as [[r buf] w'] eqn:E.
  destruct (Hk (r, buf) w') as [a Ea]. unfold wp. rewrite Ea. apply HQ. by eapply alive_call.
Qed.

Lemma alive_step b D0 D D' F' s0 s s' ws (w : W) : kept b D0 D s0 s -> kept b D D' s s' -> (recovery s = false -> block s = Some 3) ->
  serving b D' F' (mkSd s' ws w) -> slots_only F' -> alive b D0 s0 (mkSd s' ws w).
Proof.
  intros Hk Hk' Hb Hsv HF. split; [exists D', F'; split; [exact Hsv|]; split; [exact HF|by eapply kept_trans]|].
  pose proof (k_identity _ _ _ _ _ Hk') as Hi. unfold identity in Hi. cbn [sd_st]. injection Hi as E1 E2 _. intros Hr. rewrite E2. apply Hb. congruence.
Qed.

Lemma wp_alive_query b D0 s0 req (Q : list Z -> Sd (W := W) -> Prop) s ws (w : W) :
  alive b D0 s0 (mkSd s ws w) -> bytes_ok req ->
  (forall r s' ws' w', alive b D0 s0 (mkSd s' ws' w') -> Q r (mkSd s' ws' w')) -> wp (handle_query req) Q (mkSd s ws w).
Proof.
  intros [(D & F & Hsv & HF & Hk) Hb] Hreq HQ. eapply wp_handle_query; [exact Hsv|exact HF|exact Hreq|].
  intros r D' s' ws' w' Hsv' Hq. apply HQ. eapply alive_step; [exact Hk| |exact Hb|exact Hsv'|exact HF].
  apply kept_queried; [apply Hsv|apply Hsv|exact Hq].
Qed.

Lemma wp_alive_config b D0 s0 con req (Q : list Z -> Sd (W := W) -> Prop) s ws (w : W) :
  alive b D0 s0 (mkSd s ws w) -> bytes_ok req ->
  (forall r s' ws' w', alive b D0 s0 (mkSd s' ws' w') -> Q r (mkSd s' ws' w')) -> wp (handle_config ELF con req) Q (mkSd s ws w).
Proof.
  intros [(D & F & Hsv & HF & Hk) Hb] Hreq HQ. eapply wp_handle_config; [exact Hsv|exact HF|exact Hreq|exact Hb|].
  intros r D' F' s' ws' w' Hsv' Hc. apply HQ. eapply alive_step; [exact Hk| |exact Hb|exact Hsv'|by eapply configured_slots].
  eapply kept_configured; [apply Hsv|apply Hsv|exact Hc].
Qed.

Ltac alive_call := unfold Userlib.recv_until, Userlib.reply, Userlib.ticks, Userlib.exit; eapply wp_alive_call; [done|done|by intros [? ?] ?; eexists|eassumption|].

Lemma wp_serve_round b D0 s0 con query config (Q : result () Z -> Sd (W := W) -> Prop) s ws (w : W) :
  alive b D0 s0 (mkSd s ws w) -> (forall r s' ws' w', alive b D0 s0 (mkSd s' ws' w') -> Q r (mkSd s' ws' w')) ->
  wp (serve_round ELF con query config) Q (mkSd s ws w).
Proof.
  intros Hal HQ. unfold serve_round. apply wp_bind. alive_call. intros now w1 Hal1. apply wp_bind. alive_call. intros now2 w2 Hal2.
  apply wp_bind. alive_call. intros q w3 Hal3.
  assert (Hcfg : forall (o : result Z Z) s4 ws4 (w4 : W), alive b D0 s0 (mkSd s4 ws4 w4) ->
    wp (match o with
        | Err e => _ ← sys (Userlib.exit e); mret (Err e)
        | Ok deadline =>
            c ← sys (Userlib.recv_until config deadline);
            match c with
            | Ok (_, words) => reply ← handle_config ELF con (msg.unpack words); _ ← sys (Userlib.reply config (msg.pack reply)); mret (Ok ())
            | Err e => if e =? 10 then mret (Ok ()) else _ ← sys (Userlib.exit e); mret (Err e)
            end
        end) Q (mkSd s4 ws4 w4)).
  { intros [deadline|e] s4 ws4 w4 Hal4; cycle 1.
    { apply wp_bind. alive_call. intros [] w5 Hal5. by apply wp_ret, HQ. }
    apply wp_bind. alive_call. intros [[who words]|e] w5 Hal5; cycle 1.
    { destruct (e =? 10); [by apply wp_ret, HQ|]. apply wp_bind. alive_call. intros [] w6 Hal6. by apply wp_ret, HQ. }
    apply wp_bind. eapply wp_alive_config; [exact Hal5|apply unpack_ok|]. intros r s6 ws6 w6 Hal6.
    apply wp_bind. alive_call. intros st w7 Hal7. by apply wp_ret, HQ. }
  apply wp_bind. destruct q as [[who words]|e]; [|apply wp_ret; exact (Hcfg (if e =? 10 then Ok (wrap 64 (now + 100)) else Err e) s ws w3 Hal3)].
  apply wp_bind. eapply wp_alive_query; [exact Hal3|apply unpack_ok|]. intros r s4 ws4 w4 Hal4.
  apply wp_bind. alive_call. intros st w5 Hal5. apply wp_bind. alive_call. intros t w6 Hal6. apply wp_ret, wp_ret. exact (Hcfg (Ok t) s4 ws4 w6 Hal6).
Qed.

Lemma wp_serve b D0 s0 con query config n : forall (Q : result () Z -> Sd (W := W) -> Prop) s ws (w : W),
  alive b D0 s0 (mkSd s ws w) -> (forall r s' ws' w', alive b D0 s0 (mkSd s' ws' w') -> Q r (mkSd s' ws' w')) ->
  wp (serve ELF n con query config) Q (mkSd s ws w).
Proof.
  induction n as [|n IH]; intros Q s ws w Hal HQ; cbn [serve]; [by apply wp_ret, HQ|].
  apply wp_bind. eapply wp_serve_round; [exact Hal|]. intros [[]|e] s1 ws1 w1 Hal1; [by apply IH|by apply wp_ret, HQ].
Qed.
End serve.
