(* ===== verification/StorageSim.v ===== *)
(** * A machine for the storage service to run on

    A concrete kernel side: a disk of sectors, a script of transfer faults, a
    clock, the windows other tasks hold, and an update agent that performs a
    script of sector writes while the service sleeps and then exits.  It
    satisfies [Volume], so the theorems about the service are about something;
    their witnesses run it. *)

From S2P Require Import Prelude RustStd Layout Prog Userlib StorageText Storaged StorageEnv StorageLoad StorageAudit.
Import Layout Storaged.

Definition Window := (Z * Z)%type.

Record Sim := mkSim {
  sm_disk : Z -> list Z;
  sm_faults : list bool;            (* [true]: the next transfer fails *)
  sm_clock : Z;
  sm_caps : list (Z * Window);      (* writable windows of the service's slots *)
  sm_tasks : list (Z * Window);     (* writable windows of other tasks *)
  sm_kids : nat;
  sm_next : Z;
  sm_script : list (Z * list Z);    (* what the agent writes *)
  sm_exit : Z;                      (* and its exit code *)
}.

Definition in_window (k : Z) (x : Window) : bool := (fst x <=? k) && (k <? fst x + snd x).

Definition sim_sector (m : Sim) (k : Z) : list Z :=
  let s := sm_disk m k in if (length s =? SECTOR)%nat && forallb (fun b => (0 <=? b) && (b <? 256)) s then s else zeros.

Definition CLOCK_MAX : Z := 2 ^ 62 - 1.
Definition sim_clock (m : Sim) : Z := Z.max 0 (Z.min (sm_clock m) CLOCK_MAX).
Definition sim_kids (m : Sim) : nat := Nat.min (sm_kids m) 4095.
Definition owns (l : list (Z * Window)) (t k : Z) : bool := existsb (fun x => (fst x =? t) && in_window k (snd x)) l.

Definition with_disk d (m : Sim) := mkSim d (sm_faults m) (sm_clock m) (sm_caps m) (sm_tasks m) (sm_kids m) (sm_next m) (sm_script m) (sm_exit m).
Definition with_faults f (m : Sim) := mkSim (sm_disk m) f (sm_clock m) (sm_caps m) (sm_tasks m) (sm_kids m) (sm_next m) (sm_script m) (sm_exit m).
Definition with_clock c (m : Sim) := mkSim (sm_disk m) (sm_faults m) c (sm_caps m) (sm_tasks m) (sm_kids m) (sm_next m) (sm_script m) (sm_exit m).
Definition with_cap s x (m : Sim) := mkSim (sm_disk m) (sm_faults m) (sm_clock m) ((s, x) :: List.filter (fun c => negb (fst c =? s)) (sm_caps m))
  (sm_tasks m) (sm_kids m) (s + 1) (sm_script m) (sm_exit m).
Definition with_tasks l n (m : Sim) := mkSim (sm_disk m) (sm_faults m) (sm_clock m) (sm_caps m) l n (sm_next m) (sm_script m) (sm_exit m).
Definition with_script l (m : Sim) := mkSim (sm_disk m) (sm_faults m) (sm_clock m) (sm_caps m) (sm_tasks m) (sm_kids m) (sm_next m) l (sm_exit m).

Definition regs (status value : Z) : Ret := mkRet status (wrap 64 value) 0 0 0 0 0.

(** Does the next transfer fail? *)
Definition fault (m : Sim) : bool := match sm_faults m with f :: _ => f | [] => false end.
Definition after_fault (m : Sim) : Sim := with_faults (tail (sm_faults m)) m.

Definition in_volume (lba n : Z) : bool := (0 <=? lba) && (lba + n <=? VOLUME_SECTORS).

(** The grants the kernel decodes. *)
Fixpoint grants_of (fuel : nat) (spec : list Z) : list (Z * Z) :=
  match fuel with
  | O => []
  | S fuel => (from_le_bytes (take 8 spec), from_le_bytes (take 8 (drop 8 spec))) :: grants_of fuel (drop 16 spec)
  end.

Definition write_allowed (mask : Z) : bool := negb (Z.land mask R_WRITE =? 0).

(** One write of the agent, if it still may. *)
Definition agent_step (m : Sim) : Sim :=
  match sm_script m with
  | (k, data) :: l =>
      with_script l (if existsb (fun x => in_window k (snd x)) (sm_tasks m)
                     then with_disk (fun i => if i =? k then data else sm_disk m i) m else m)
  | [] => m
  end.

Definition sim_call (n : Z) (args : list Arg) (m : Sim) : Ret * list Z * Sim :=
  match args with
  | [Word cap; Word lba; Word count; Out buf; _; _] =>
      if n =? Sys.SYS_BLOCK_READ then
        if fault m || negb (in_volume lba count) then (regs 5 0, buf, after_fault m)
        else (regs 0 0, disk_read (sim_sector m) lba count ++ drop (Z.to_nat count * SECTOR) buf, after_fault m)
      else (regs 38 0, [], m)
  | [Word cap; Word lba; Word count; In buf; _; _] =>
      if n =? Sys.SYS_BLOCK_WRITE then
        if negb (in_volume lba count) then (regs 5 0, [], after_fault m)
        else if fault m then (regs 5 0, [], after_fault (with_disk (disk_write lba 1 (take SECTOR buf) (sm_disk m)) m))
        else (regs 0 0, [], after_fault (with_disk (disk_write lba count buf (sm_disk m)) m))
      else (regs 38 0, [], m)
  | [In elf; _; In spec; Word words; _; _] =>
      if n =? Sys.SYS_TASK_SPAWN then
        if (4095 <=? sim_kids m)%nat then (regs 12 0, [], m) else
        let child := wrap 64 (sm_next m) in
        let given := (fun c => (child, snd c)) <$> List.filter (fun c => existsb (fun g => (fst g =? fst c) && write_allowed (snd g))
          (grants_of (length spec / 16) spec)) (sm_caps m) in
        (regs 0 child, [], with_tasks (given ++ sm_tasks m) (S (sim_kids m)) m)
      else (regs 38 0, [], m)
  | [Word a; Word b; Word c; Word d; _; _] =>
      if n =? Sys.SYS_CAP_DERIVE then
        let slot := wrap 64 (sm_next m) in
        (regs 0 slot, [], with_cap slot (if write_allowed b then (c, d) else (0, 0)) m)
      else if n =? Sys.SYS_WAIT then
        match sm_script m, sm_tasks m with
        | [], (t, _) :: _ =>
            if (0 <? sim_kids m)%nat then
              (mkRet 0 (wrap 64 t) (sm_exit m) 0 0 0 0, [],
               with_tasks (List.filter (fun x => negb (wrap 64 (fst x) =? wrap 64 t)) (sm_tasks m)) (pred (sim_kids m)) m)
            else (regs 9 0, [], m)
        | _, _ => (regs 9 0, [], m)
        end
      else if n =? Sys.SYS_TICKS then let c := Z.min (sim_clock m + 1) CLOCK_MAX in (mkRet c 0 0 0 0 0 0, [], with_clock c m)
      else if n =? Sys.SYS_SLEEP then
        let m' := agent_step m in
        if sim_clock m + Z.max 0 a <=? CLOCK_MAX then (regs 0 0, [], with_clock (sim_clock m + Z.max 0 a) m') else (regs 22 0, [], m')
      else if n =? Sys.SYS_IPC_RECV then (regs 10 0, [], m)
      else (regs 0 0, [], m)
  | _ => (regs 38 0, [], m)
  end.

#[global] Instance sim_abi : Abi Sim := sim_call.

Definition sim_foreign (m : Sim) (t k : Z) : Prop := owns (sm_tasks m) t k = true.
Definition sim_writable (m : Sim) (s k : Z) : Prop := owns (sm_caps m) s k = true.

Lemma in_window_within k lba n : in_window k (lba, n) = true <-> within lba n k.
Proof. unfold in_window, within. cbn [fst snd]. rewrite andb_true_iff, Z.leb_le, Z.ltb_lt. done. Qed.

Lemma owns_In l t k : owns l t k = true <-> exists x, List.In x l /\ fst x = t /\ in_window k (snd x) = true.
Proof.
  unfold owns. rewrite existsb_exists. split; intros (x & Hin & Hx); exists x.
  - apply andb_true_iff in Hx as [H1 H2]. apply Z.eqb_eq in H1. done.
  - destruct Hx as [-> ->]. by rewrite Z.eqb_refl.
Qed.

Lemma owns_filter p l t k : owns (List.filter p l) t k = true -> owns l t k = true.
Proof. rewrite !owns_In. intros (x & Hin%filter_In & Hx). exists x. tauto. Qed.

Lemma sim_sector_ok m k : sector_ok (sim_sector m k).
Proof.
  unfold sim_sector. destruct (_ && _) eqn:E; [|apply zeros_ok]. apply andb_true_iff in E as [E1 E2]. split; [by apply Nat.eqb_eq|].
  rewrite forallb_forall in E2. apply Forall_forall. intros b Hb. specialize (E2 b (proj1 (list_elem_of_In _ _) Hb)). bool_facts. red. lia.
Qed.

Lemma sim_sector_same m s k : sm_disk m k = s -> sector_ok s -> sim_sector m k = s.
Proof.
  intros E [Hl Hb]. unfold sim_sector. rewrite E, (proj2 (Nat.eqb_eq _ _) Hl).
  replace (forallb _ s) with true; [done|]. symmetry. apply forallb_forall. intros b Hin. rewrite Forall_forall in Hb.
  specialize (Hb b (proj2 (list_elem_of_In _ _) Hin)). red in Hb. lia.
Qed.

Lemma sim_sector_ext m m' k : sm_disk m' k = sm_disk m k -> sim_sector m' k = sim_sector m k.
Proof. intros E. unfold sim_sector. by rewrite E. Qed.

(** The agent writes in a window it holds. *)
Lemma agent_step_sector m k : (forall t, ~ sim_foreign m t k) -> sim_sector (agent_step m) k = sim_sector m k.
Proof.
  intros Hk. apply sim_sector_ext. unfold agent_step. destruct (sm_script m) as [|[i data] l]; [done|].
  destruct (existsb _ _) eqn:E; [|done]. cbn. destruct (Z.eqb_spec k i) as [->|]; [|done]. exfalso.
  apply existsb_exists in E as (x & Hin & Hx). apply (Hk (fst x)). apply owns_In. by exists x.
Qed.

Lemma agent_step_keeps m : sm_faults (agent_step m) = sm_faults m /\ sm_caps (agent_step m) = sm_caps m /\
  sm_tasks (agent_step m) = sm_tasks m /\ sm_kids (agent_step m) = sm_kids m /\ sm_clock (agent_step m) = sm_clock m.
Proof. unfold agent_step. destruct (sm_script m) as [|[i data] l]; [done|]. by destruct (existsb _ _). Qed.

Record sim_step (n : Z) (m m' : Sim) : Prop := {
  ss_caps : n <> Sys.SYS_CAP_DERIVE -> sm_caps m' = sm_caps m;
  ss_tasks : n <> Sys.SYS_TASK_SPAWN -> forall t k, sim_foreign m' t k -> sim_foreign m t k;
  ss_disk : n <> Sys.SYS_BLOCK_WRITE -> forall k, (forall t, ~ sim_foreign m t k) -> sim_sector m' k = sim_sector m k;
  ss_clock : sim_clock m <= sim_clock m';
  ss_kids : n <> Sys.SYS_TASK_SPAWN -> (sim_kids m' <= sim_kids m)%nat;
  ss_faults : sm_faults m = [] -> sm_faults m' = [];
}.

Lemma sim_step_same n m m' : sm_caps m' = sm_caps m -> sm_tasks m' = sm_tasks m -> (forall k, sm_disk m' k = sm_disk m k) ->
  sim_clock m <= sim_clock m' -> sm_kids m' = sm_kids m -> (sm_faults m = [] -> sm_faults m' = []) -> sim_step n m m'.
Proof.
  intros E1 E2 E3 E4 E5 E6. split; [done| | |done| |done].
  - intros _ t k. unfold sim_foreign. by rewrite E2.
  - intros _ k _. apply sim_sector_ext, E3.
  - intros _. unfold sim_kids. by rewrite E5.
Qed.

Lemma sim_step_refl n m : sim_step n m m.
Proof. by apply sim_step_same. Qed.

Lemma after_fault_nil m : sm_faults m = [] -> sm_faults (after_fault m) = [].
Proof. unfold after_fault. cbn. by intros ->. Qed.

Lemma clock_range m : 0 <= sim_clock m <= CLOCK_MAX.
Proof. unfold sim_clock, CLOCK_MAX. lia. Qed.

Lemma sim_clock_set c m : 0 <= c <= CLOCK_MAX -> sim_clock (with_clock c m) = c.
Proof. unfold sim_clock. cbn [sm_clock with_clock]. lia. Qed.

Lemma sim_call_step n args m : sim_step n m (snd (sim_call n args m)).
Proof.
  pose proof (sim_step_refl n m) as Hrefl. pose proof (clock_range m) as Hc.
  assert (Hfault : forall d, (n = Sys.SYS_BLOCK_WRITE \/ forall k, d k = sm_disk m k) -> sim_step n m (after_fault (with_disk d m))).
  { intros d Hd. split; [done|done| |apply Z.le_refl|intros _; apply le_n|exact (after_fault_nil m)].
    intros Hn k _. destruct Hd as [?|Hd]; [done|]. apply sim_sector_ext, Hd. }
  assert (Hsame : sim_step n m (after_fault m)) by (apply (Hfault (sm_disk m)); by right).
  unfold sim_call. repeat (match goal with |- context [match ?x with _ => _ end] => is_var x; destruct x; cbn [snd]; try exact Hrefl end).
  - destruct (Z.eqb_spec n Sys.SYS_CAP_DERIVE) as [->|_]; [by split|].
    destruct (n =? Sys.SYS_WAIT); [|destruct (n =? Sys.SYS_TICKS); [|destruct (n =? Sys.SYS_SLEEP); [|by destruct (n =? _)]]].
    + destruct (sm_script m); [|exact Hrefl]. destruct (sm_tasks m) as [|[t x] l] eqn:El; [exact Hrefl|].
      destruct (0 <? sim_kids m)%nat; [|exact Hrefl]. rewrite <- El. split; [done| |done|apply Z.le_refl| |done].
      * intros _ t' k. apply owns_filter.
      * intros _. unfold sim_kids. cbn. lia.
    + apply sim_step_same; try done. cbn [snd]. rewrite sim_clock_set; lia.
    + destruct (agent_step_keeps m) as (K1 & K2 & K3 & K4 & K5).
      assert (Hagent : forall c m', sm_clock m' = c -> m' = with_clock c (agent_step m) -> sim_clock m <= sim_clock m' -> sim_step n m m').
      { intros c m' _ -> Hm. split; [done| | |exact Hm| |].
        - intros _ t k. unfold sim_foreign. cbn. by rewrite K3.
        - intros _ k Hk. by apply agent_step_sector.
        - intros _. unfold sim_kids. cbn. by rewrite K4.
        - cbn. by rewrite K1. }
      destruct (Z.leb_spec (sim_clock m + Z.max 0 z) CLOCK_MAX); cbn [snd].
      * eapply Hagent; [reflexivity|reflexivity|]. rewrite sim_clock_set; lia.
      * apply (Hagent (sm_clock m)); [done| |unfold sim_clock; rewrite K5; lia]. rewrite <- K5. by destruct (agent_step m).
  - destruct (Z.eqb_spec n Sys.SYS_BLOCK_WRITE) as [->|]; [|exact Hrefl]. destruct (negb _); [exact Hsame|].
    destruct (fault m); apply Hfault; by left.
  - destruct (n =? _); [|exact Hrefl]. by destruct (_ || _).
  - destruct (Z.eqb_spec n Sys.SYS_TASK_SPAWN) as [->|]; [|exact Hrefl]. destruct (_ <=? _)%nat; [exact Hrefl|]. by split.
Qed.

(** ** The laws *)

Lemma grants_of_spec grants : Forall (fun g => fits 64 (fst g) /\ fits 64 (snd g)) grants ->
  grants_of (length (Userlib.spawn_spec grants) / 16) (Userlib.spawn_spec grants) = grants.
Proof.
  intros Hg. assert (Hl : length (Userlib.spawn_spec grants) = (length grants * 16)%nat).
  { clear. unfold Userlib.spawn_spec. induction grants as [|g grants IH]; [done|]. cbn [fmap list_fmap concat length].
    rewrite !length_app, !length_to_le_bytes. fold (list_fmap _ _ (fun g : Z * Z => to_le_bytes 8 (fst g) ++ to_le_bytes 8 (snd g)) grants).
    rewrite IH. lia. }
  rewrite Hl, Nat.div_mul by lia. clear Hl. induction Hg as [|[a c] grants [Ha Hc] _ IH]; [done|].
  cbn [length grants_of]. unfold Userlib.spawn_spec in *. cbn [fmap list_fmap concat fst snd] in *. rewrite <- !app_assoc.
  rewrite take_app_length', drop_app_length', take_app_length' by (by rewrite length_to_le_bytes).
  rewrite !from_le_to_le_small by (unfold fits in *; change (256 ^ Z.of_nat 8) with (2 ^ 64); lia). f_equal.
  rewrite app_assoc, drop_app_length' by (rewrite length_app, !length_to_le_bytes; done). exact IH.
Qed.

Lemma in_volume_true lba n : 0 <= lba -> lba + n <= VOLUME_SECTORS -> in_volume lba n = true.
Proof. intros. unfold in_volume. by rewrite (proj2 (Z.leb_le _ _)), (proj2 (Z.leb_le _ _)). Qed.

Lemma sim_read lba n buf m : 1 <= n <= 8 -> (Z.to_nat n * SECTOR <= length buf)%nat ->
  let '(r, buf', m') := sim_call Sys.SYS_BLOCK_READ [Word 3; Word lba; Word n; Out buf; Word 0; Word 0] m in
  length buf' = length buf /\ (bytes_ok buf -> bytes_ok buf') /\
  (rax r = 0 -> buf' = disk_read (sim_sector m') lba n ++ drop (Z.to_nat n * SECTOR) buf) /\
  (sm_faults m = [] -> 0 <= lba -> lba + n <= VOLUME_SECTORS -> rax r = 0).
Proof.
  intros Hn Hl. cbn [sim_call]. change (_ =? _) with true. cbv iota.
  destruct (fault m || negb (in_volume lba n)) eqn:E; cbn [regs rax].
  - split; [done|]. split; [done|]. split; [done|]. intros Hf H1 H2. unfold fault in E. by rewrite Hf, in_volume_true in E.
  - split; [|split; [|split]].
    + rewrite length_app, length_disk_read, length_drop; [lia|apply sim_sector_ok|lia].
    + intros Hb. apply Forall_app. split; [apply disk_read_ok, sim_sector_ok|by apply Forall_drop].
    + intros _. done.
    + done.
Qed.

Lemma sim_write lba n buf m : 1 <= n <= 8 -> length buf = (Z.to_nat n * SECTOR)%nat -> bytes_ok buf ->
  let '(r, _, m') := sim_call Sys.SYS_BLOCK_WRITE [Word 3; Word lba; Word n; In buf; Word 0; Word 0] m in
  (forall k, ~ (lba <= k < lba + n) -> sim_sector m' k = sim_sector m k) /\
  (rax r = 0 -> forall k, lba <= k < lba + n -> sim_sector m' k = slice (Z.to_nat (k - lba) * SECTOR) SECTOR buf) /\
  (sm_faults m = [] -> 0 <= lba -> lba + n <= VOLUME_SECTORS -> rax r = 0).
Proof.
  intros Hn Hl Hb. cbn [sim_call]. change (Sys.SYS_BLOCK_WRITE =? Sys.SYS_BLOCK_WRITE) with true. cbv iota.
  assert (Hout : forall c d k, 0 <= c <= n -> ~ (lba <= k < lba + n) -> disk_write lba c d (sm_disk m) k = sm_disk m k).
  { intros c d k Hc Hk. unfold disk_write. destruct (_ && _) eqn:E; [|done]. bool_facts. lia. }
  destruct (in_volume lba n) eqn:Ev; cbn [negb]; [destruct (fault m) eqn:Ef|]; cbn [regs rax].
  - split; [|split; [done|]].
    + intros k Hk. apply sim_sector_ext. cbn. apply Hout; [lia|done].
    + intros Hf. unfold fault in Ef. by rewrite Hf in Ef.
  - split; [|split; [|done]].
    + intros k Hk. apply sim_sector_ext. cbn. apply Hout; [lia|done].
    + intros _ k Hk. apply sim_sector_same.
      * cbn. unfold disk_write. by rewrite (proj2 (Z.leb_le _ _)), (proj2 (Z.ltb_lt _ _)) by lia.
      * split; [apply length_slice; rewrite Hl; unfold SECTOR in *; lia|by apply Forall_take, Forall_drop].
  - split; [|split; [done|]].
    + intros k Hk. by apply sim_sector_ext.
    + intros _ H1 H2. by rewrite in_volume_true in Ev.
Qed.

Lemma sim_derive slot mask lba n m s k :
  let '(r, _, m') := sim_call Sys.SYS_CAP_DERIVE [Word slot; Word mask; Word lba; Word n; Word 0; Word 0] m in
  sim_writable m' s k ->
  if (rax r =? 0) && (s =? ra0 r) then has_write mask /\ lba <= k < lba + n else sim_writable m s k.
Proof.
  cbn [sim_call]. change (Sys.SYS_CAP_DERIVE =? Sys.SYS_CAP_DERIVE) with true. cbv iota. cbn [regs rax ra0].
  rewrite Z.eqb_refl. cbn [andb]. assert (E : wrap 64 (wrap 64 (sm_next m)) = wrap 64 (sm_next m)) by (unfold wrap; apply Z.mod_mod; lia).
  rewrite E. unfold sim_writable. rewrite owns_In. cbn [with_cap sm_caps]. intros (x & Hin & Hx & Hk).
  destruct Hin as [<-|Hin]; cbn [fst snd] in *.
  - subst s. rewrite Z.eqb_refl. unfold write_allowed in Hk. unfold has_write. destruct (Z.eqb_spec (Z.land mask R_WRITE) 0) as [E0|E0]; cbn [negb] in Hk.
    + apply in_window_within in Hk. unfold within in Hk. lia.
    + apply in_window_within in Hk. by split.
  - apply filter_In in Hin as [Hin Hne]. apply negb_true_iff, Z.eqb_neq in Hne. rewrite (proj2 (Z.eqb_neq _ _)) by congruence.
    apply owns_In. by exists x.
Qed.

Lemma sim_spawn elf grants m t k : Forall (fun g => fits 64 (fst g) /\ fits 64 (snd g)) grants ->
  let '(r, _, m') := sim_call Sys.SYS_TASK_SPAWN [In elf; Word (Z.of_nat (length elf)); In (Userlib.spawn_spec grants);
    Word (Z.of_nat (length (Userlib.spawn_spec grants)) / 8); Word 0; Word 0] m in
  (sim_kids m' <= S (sim_kids m))%nat /\
  (sim_foreign m' t k -> sim_foreign m t k \/
     rax r = 0 /\ t = ra0 r /\ exists s mask, (s, mask) ∈ grants /\ has_write mask /\ sim_writable m s k).
Proof.
  intros Hg. cbn [sim_call]. change (Sys.SYS_TASK_SPAWN =? Sys.SYS_TASK_SPAWN) with true. cbv iota.
  destruct (_ <=? _)%nat; [split; [lia|by left]|]. rewrite grants_of_spec by done. cbn [regs rax ra0].
  split; [unfold sim_kids; cbn; lia|]. unfold sim_foreign. cbn [with_tasks sm_tasks]. rewrite owns_In.
  intros (x & Hin & Hx & Hk). apply in_app_iff in Hin as [Hin|Hin]; [right|left; apply owns_In; by exists x].
  apply list_elem_of_In, list_elem_of_fmap in Hin as (c & -> & Hc). cbn [fst snd] in *. subst t. split; [done|].
  split; [unfold wrap; symmetry; apply Z.mod_mod; lia|].
  apply list_elem_of_In, filter_In in Hc as [Hc Hex]. apply existsb_exists in Hex as ([s mask] & Hin & Hs). cbn [fst snd] in Hs.
  apply andb_true_iff in Hs as [Hs Hm]. apply Z.eqb_eq in Hs. exists s, mask. split; [by apply list_elem_of_In|]. split.
  - unfold write_allowed in Hm. apply negb_true_iff, Z.eqb_neq in Hm. exact Hm.
  - unfold sim_writable. apply owns_In. exists c. by rewrite Hs.
Qed.

Lemma sim_wait flag m t k :
  let '(r, _, m') := sim_call Sys.SYS_WAIT [Word flag; Word 0; Word 0; Word 0; Word 0; Word 0] m in
  rax r = 0 -> (sim_kids m' < sim_kids m)%nat /\ (sim_foreign m' t k -> t <> ra0 r).
Proof.
  cbn [sim_call]. change (Sys.SYS_WAIT =? Sys.SYS_CAP_DERIVE) with false. change (Sys.SYS_WAIT =? Sys.SYS_WAIT) with true. cbv iota.
  destruct (sm_script m); [|done]. destruct (sm_tasks m) as [|[t0 x0] l] eqn:El; [done|]. destruct (Nat.ltb_spec 0 (sim_kids m)); [|done].
  cbn [rax ra0]. intros _. split; [unfold sim_kids in *; cbn; lia|].
  unfold sim_foreign. cbn [with_tasks sm_tasks]. rewrite owns_In. intros (x & Hin & <- & _) E.
  apply filter_In in Hin as [_ Hne]. apply negb_true_iff, Z.eqb_neq in Hne. apply Hne. rewrite E. unfold wrap. apply Z.mod_mod. lia.
Qed.

Lemma sim_slot n args m : fits 64 (ra0 (fst (fst (sim_call n args m)))).
Proof.
  assert (H0 : fits 64 0) by (red; lia). assert (Hr : forall a z, fits 64 (ra0 (regs a z))) by (intros; cbn; apply wrap_fits; lia).
  unfold sim_call. repeat (match goal with |- context [match ?x with _ => _ end] => is_var x; destruct x; cbn [fst]; try apply Hr end);
    repeat (match goal with |- context [if ?x then _ else _] => destruct x; cbn [fst]; try apply Hr end);
    repeat (case_match; cbn [fst]; try apply Hr); try done. all: cbn [ra0]; apply wrap_fits; lia.
Qed.

#[global] Instance sim_volume : Volume Sim.
Proof.
  refine {| sector := sim_sector; foreign := sim_foreign; writable := sim_writable; reliable := fun m => sm_faults m = [];
            clock := sim_clock; kids := sim_kids |}.
  - exact sim_sector_ok.
  - intros m. pose proof (clock_range m). unfold CLOCK_MAX in *. lia.
  - exact sim_read.
  - intros lba n buf m H1 H2 H3. pose proof (sim_write lba n buf m H1 H2 H3) as HL. unfold raw_full, sim_abi.
    destruct (sim_call _ _ m) as [[r b] m']. destruct HL as (L1 & L2 & L3). split; [intros k Hk _; by apply L1|]. split; [intros E k Hk _; by apply L2|exact L3].
  - intros n args m Hn. by apply (ss_disk _ _ _ (sim_call_step n args m)).
  - intros n args m t k Hn. by apply (ss_tasks _ _ _ (sim_call_step n args m)).
  - intros n args m s k Hn. unfold sim_writable. change (raw_full n args m) with (sim_call n args m). by rewrite (ss_caps _ _ _ (sim_call_step n args m) Hn).
  - intros n args m. apply (ss_faults _ _ _ (sim_call_step n args m)).
  - intros n args m. apply (ss_clock _ _ _ (sim_call_step n args m)).
  - intros n args m Hn. by apply (ss_kids _ _ _ (sim_call_step n args m)).
  - intros m. unfold sim_kids. lia.
  - exact sim_derive.
  - exact sim_slot.
  - exact sim_spawn.
  - exact sim_wait.
  - intros m. cbn [raw_full sim_abi sim_call]. change (Sys.SYS_TICKS =? Sys.SYS_CAP_DERIVE) with false. change (Sys.SYS_TICKS =? Sys.SYS_WAIT) with false.
    change (Sys.SYS_TICKS =? Sys.SYS_TICKS) with true. cbv iota. cbn [rax]. pose proof (clock_range m). rewrite sim_clock_set; lia.
  - intros n m. cbn [raw_full sim_abi sim_call]. change (Sys.SYS_SLEEP =? Sys.SYS_CAP_DERIVE) with false. change (Sys.SYS_SLEEP =? Sys.SYS_WAIT) with false.
    change (Sys.SYS_SLEEP =? Sys.SYS_TICKS) with false. change (Sys.SYS_SLEEP =? Sys.SYS_SLEEP) with true. cbv iota.
    pose proof (clock_range m). destruct (Z.leb_spec (sim_clock m + Z.max 0 n) CLOCK_MAX); [|done]. intros _. rewrite sim_clock_set; lia.
Defined.
