(* ===== verification/StorageTheorems.v ===== *)
(** * The storage service: what it promises *)

From S2P Require Import Prelude RustStd HashStream Sha256 Hmac ChaCha20 Ed25519 Ed25519Sign Layout LayoutTheorems Prog Userlib StorageText StorageConfig Storaged StorageEnv StorageLoad StorageAudit StorageInv StorageApps StorageInstall StorageUpdate StorageMount StorageServe StorageSim.
Import Layout Text Storaged.

#[local] Opaque Ed25519.verify Ed25519.sign Sha256.sha256 Hmac.oneshot Hmac.reference ChaCha20.xor_stream WS_LEN.

(** ** Sealed images *)

(** Only the header and the payload's own sectors matter. *)
Definition payload_sectors (payload : list Z) : nat := ((length payload + SECTOR - 1) / SECTOR)%nat.

Lemma image_holds D key pk x img n gen payload sig : (forall k, sector_ok (D k)) ->
  build_slot_image (replicate (Z.to_nat SLOT_IMAGE_MAX) 0) gen payload sig key = Some (img, n) ->
  fits 64 gen -> 0 < Z.of_nat (length payload) <= PAYLOAD_CAP -> length sig = 64%nat ->
  Ed25519.verify pk payload sig = Some (Ok tt) ->
  (forall i, (i < 2 + payload_sectors payload)%nat -> i <> 1%nat -> D (hdr_lba x + Z.of_nat i) = slice (i * SECTOR) SECTOR img) ->
  slot_holds D key pk x payload gen.
Proof.
  intros HD Hb Hg Hp Hs Hv Hd. unfold PAYLOAD_CAP in Hp.
  destruct (sealed_image_spec (replicate (Z.to_nat SLOT_IMAGE_MAX) 0) gen payload sig key) as (img' & Eb & Hl & Hparse & Hmac & Hx);
    [rewrite length_replicate; unfold SLOT_IMAGE_MAX; lia|exact Hg|unfold PAYLOAD_CAP; lia|exact Hs|].
  rewrite Hb in Eb. injection Eb as <- _. rewrite length_replicate in Hl.
  assert (Eh : D (hdr_lba x) = take SECTOR img).
  { pose proof (Hd 0%nat ltac:(lia) ltac:(lia)) as E. change (Z.of_nat 0) with 0 in E. rewrite Z.add_0_r in E. rewrite E. unfold slice. by rewrite drop_0. }
  set (t := payload_sectors payload) in *. assert (Ht : (length payload <= t * SECTOR)%nat /\ (t <= 1000)%nat).
  { subst t. unfold payload_sectors, SECTOR. pose proof (Nat.div_mod (length payload + 512 - 1) 512 ltac:(lia)).
    pose proof (Nat.mod_upper_bound (length payload + 512 - 1) 512 ltac:(lia)). lia. }
  set (body := slice (2 * SECTOR) (t * SECTOR) img).
  assert (Hbody : length body = (t * SECTOR)%nat) by (apply length_slice; rewrite Hl; change SLOT_IMAGE_MAX with 513024; unfold SECTOR in *; lia).
  assert (Er : disk_read D (payload_lba x) (Z.of_nat t) = body).
  { apply (disk_read_chunks D (payload_lba x) t body Hbody). intros i Hi. replace (payload_lba x + Z.of_nat i) with (hdr_lba x + Z.of_nat (2 + i)).
    2:{ assert (payload_lba x = hdr_lba x + 2) by (by destruct x). lia. }
    rewrite Hd by lia. unfold body, slice. rewrite skipn_firstn_comm, take_take, drop_drop, Nat.min_l by (unfold SECTOR; lia).
    by replace (2 * SECTOR + i * SECTOR)%nat with ((2 + i) * SECTOR)%nat by lia. }
  assert (Ec : slot_ct D x (length payload) = slice 1024 (length payload) img).
  { unfold slot_ct. change SLOT_PAYLOAD_SECTORS with 1000.
    rewrite (take_disk_read_le D (payload_lba x) (Z.of_nat t) 1000 (length payload) HD); [|lia|rewrite Nat2Z.id; apply Ht].
    rewrite Er. unfold body, slice. rewrite take_take, Nat.min_l by lia. done. }
  eexists. split; [rewrite Eh; exact Hparse|]. cbn [sh_state sh_generation sh_payload_len sh_payload_sha sh_signature].
  rewrite Nat2Z.id. split; [done|]. split; [done|]. cbv zeta. rewrite Ec, Eh. split; [lia|]. split; [unfold PAYLOAD_CAP; lia|].
  split; [exact Hmac|]. unfold xor_in_place in Hx. split; [by symmetry|]. split; [done|exact Hv].
Qed.

Section start.
Context {W : Type} `{Volume W}.

Lemma wp_start b D pk con (w : W) : on b D nobody w -> bytes_ok pk -> length pk = 32%nat ->
  exists d D', start con pk w = Some ((), d) /\ serving b D' nobody d /\
    (sd_st d = initial None pk /\ (forall k, D' k = D k) \/ mounted b D D' pk (sd_st d)).
Proof.
  intros Ho Hk1 Hk2. unfold start.
  assert (Hp : wp (_ ← Userlib.set_name (str "storaged"); probe_block_cap) (fun blk w' => (blk = None \/ blk = Some 3) /\ on b D nobody w') w).
  { apply wp_bind. unfold Userlib.set_name. apply wp_bind. eapply wp_trap; [done|done|exact Ho|]. intros r buf w1 _ Ho1. apply wp_ret.
    unfold probe_block_cap, Userlib.derive_block. apply wp_bind, wp_bind. eapply wp_trap; [done|done|exact Ho1|]. intros r2 buf2 w2 _ Ho2.
    apply wp_ret, wp_ret. split; [destruct (is_ok _); tauto|exact Ho2]. }
  apply wp_run in Hp as (blk & w1 & -> & Hblk & Ho1).
  assert (Hws : ws_ok (replicate (Z.to_nat PAYLOAD_CAP) 0)).
  { split; [apply length_replicate|]. apply Forall_replicate. red. lia. }
  match goal with |- context [?m (mkSd (initial blk pk) ?ws w1)] =>
    assert (Hwp : wp m (fun _ d => exists D', serving b D' nobody d /\ (sd_st d = initial None pk /\ (forall k, D' k = D k) \/ mounted b D D' pk (sd_st d))) (mkSd (initial blk pk) ws w1)) end.
  { apply wp_bind. eapply wp_say; [exact Ho1|]. intros w2 Ho2. destruct Hblk as [-> | ->].
    - eapply wp_say; [exact Ho2|]. intros w3 Ho3. exists D. split; [|by left]. split; [exact Ho3|exact Hws| |apply initial_audit].
      apply initial_ok; [by left|done|done].
    - eapply (wp_mount b D pk); [exact Ho2|exact Hws|exact Hk1|exact Hk2|]. intros D' s' ws' w' Hsv Hm. exists D'. split; [exact Hsv|by right]. }
  apply wp_run in Hwp as ([] & d & E & D' & Hx). exists d, D'. split; [exact E|exact Hx].
Qed.
End start.

Section mounting.
Context {W : Type} `{Volume W}.

(** C9. Starting the service never panics, whatever the volume holds and
    whichever transfers fail, and what runs afterwards is either the factory
    payload in recovery mode, or the payload of a slot whose tag, digest and
    signature hold under the superblock's key, with overrides that are the
    factory's or carry the volume's tag, and with applications whose slots
    validate.  Only audit records and slot headers were written. *)
Theorem storage_start_authentic b D pk con (w : W) :
  on b D nobody w -> bytes_ok pk -> length pk = 32%nat ->
  exists d D', start con pk w = Some ((), d) /\ serving b D' nobody d /\ same_except mount_writes D D' /\
    let s := sd_st d in
    (recovery s = true /\ payload s = FACTORY_PAYLOAD /\ overrides s = FACTORY_CONFIG /\ active s = None /\ apps s = []) \/
    (recovery s = false /\ vol_key s = sb_key D /\ superblock_valid (sb_key D) (D SUPERBLOCK_LBA) = true /\
     exists x, active s = Some x /\ slot_holds D (sb_key D) pk x (payload s) (generation s) /\
       overrides_authentic D (sb_key D) (overrides s) (cfg_gen s) /\
       forall e, e ∈ apps s -> exists plain, app_holds D' (sb_key D) pk e plain).
Proof.
  intros Ho Hk1 Hk2. destruct (wp_start b D pk con w Ho Hk1 Hk2) as (d & D' & E & Hsv & Hm). exists d, D'. split; [exact E|]. split; [exact Hsv|]. cbv zeta.
  destruct Hm as [[-> HD]|Hm]; [split; [intros k _; apply HD|by left]|].
  destruct Hm as [s' key _ _ Hd (q & p & ->)%same_but_audit_inv|s' x named plain gen ov cg l [Hv _] _ Hh _ Hov _ (_ & _ & Ht & _) Hd (q & p & ->)%same_but_audit_inv].
  - split; [exact Hd|]. by left.
  - split; [exact Hd|]. right. split; [done|]. split; [done|]. split; [exact Hv|]. exists x. split; [done|]. split; [exact Hh|]. split; [exact Hov|].
    intros e Hin. by destruct (Ht e Hin).
Qed.

(** A volume whose superblock names a slot that holds a payload runs it. *)
Lemma held_slot_mounts D pk con (w : W) x ga gb gen key body sb :
  on true D nobody w -> bytes_ok pk -> length pk = 32%nat -> length key = 32%nat -> fits 64 ga -> fits 64 gb ->
  write_superblock zeros (Some x) ga gb key = Some sb -> D SUPERBLOCK_LBA = sb -> slot_holds D key pk x body gen ->
  exists d, start con pk w = Some ((), d) /\
    (block (sd_st d) = Some 3 -> recovery (sd_st d) = false /\ active (sd_st d) = Some x /\ payload (sd_st d) = body /\
      generation (sd_st d) = gen /\ forall ov cg, config_stored D key cg ov -> overrides (sd_st d) = ov /\ cfg_gen (sd_st d) = cg).
Proof.
  intros Ho Hk1 Hk2 Hkey Hga Hgb Hsb HDsb Hheld.
  destruct (superblock_spec zeros (Some x) ga gb key) as (sb' & E3 & Hl & Hp & Hv & Hks); [done..|]. rewrite Hsb in E3. injection E3 as <-.
  assert (Hkeyd : sb_key D = key) by (unfold sb_key; by rewrite HDsb).
  assert (Hnames : names D x) by (split; [by rewrite Hkeyd, HDsb|exists ga, gb; by rewrite HDsb]).
  assert (Hh : slot_holds D (sb_key D) pk x body gen) by by rewrite Hkeyd.
  destruct (wp_start true D pk con w Ho Hk1 Hk2) as (d & D' & E & Hsv & Hm). exists d. split; [exact E|]. intros Hblk.
  destruct Hm as [[Ei _]|Hm]; [by rewrite Ei in Hblk|].
  destruct Hm as [s' k _ Hno _ _|s' y named plain g ov cg l Hn Hy Hplain _ _ Hcfg _ _ (q & p & ->)%same_but_audit_inv].
  - exfalso. by apply (Hno eq_refl x x body gen).
  - assert (named = x). { destruct Hn as (_ & ga' & gb' & Ep). destruct Hnames as (_ & ga2 & gb2 & Ep2). rewrite Ep in Ep2. by injection Ep2. }
    subst named. destruct Hy as [->|[_ Hno]]; [|exfalso; by apply (Hno eq_refl body gen)].
    destruct (slot_holds_unique _ _ _ _ _ _ _ _ Hplain Hh) as [-> ->]. do 4 (split; [reflexivity|]).
    intros ov' cg' Hst. rewrite <- Hkeyd in Hst. destruct (Hcfg eq_refl ov' cg' Hst) as [-> ->]. split; reflexivity.
Qed.

(** A provisioned volume runs its payload: when the disk is free of faults,
    the superblock written for slot [x] is intact and the slot holds the image
    built for a payload that [seed]'s key signed, the service started with
    that key runs the payload at its generation, with the stored overrides,
    unless it was given no disk. *)
Theorem provisioned_volume_mounts D pk con (w : W) seed x ga gb gen key body sig sb img n :
  on true D nobody w -> bytes_ok pk -> length pk = 32%nat ->
  Ed25519.public_from_seed seed = Some pk -> Ed25519.sign seed body = Some sig ->
  length key = 32%nat -> fits 64 ga -> fits 64 gb -> fits 64 gen -> 0 < Z.of_nat (length body) <= PAYLOAD_CAP ->
  write_superblock zeros (Some x) ga gb key = Some sb -> D SUPERBLOCK_LBA = sb ->
  build_slot_image (replicate (Z.to_nat SLOT_IMAGE_MAX) 0) gen body sig key = Some (img, n) ->
  (forall i, (i < 1002)%nat -> D (hdr_lba x + Z.of_nat i) = slice (i * SECTOR) SECTOR img) ->
  exists d, start con pk w = Some ((), d) /\
    (block (sd_st d) = Some 3 -> recovery (sd_st d) = false /\ active (sd_st d) = Some x /\ payload (sd_st d) = body /\
      generation (sd_st d) = gen /\ forall ov cg, config_stored D key cg ov -> overrides (sd_st d) = ov /\ cfg_gen (sd_st d) = cg).
Proof.
  intros Ho Hk1 Hk2 Hpub Hsign Hkey Hga Hgb Hgen Hbody Hsb HDsb Himg Hslot.
  destruct (sign_verifies seed body) as (pk' & sig' & E1 & E2 & Hsl & Hver). rewrite Hpub in E1. rewrite Hsign in E2. injection E1 as <-. injection E2 as <-.
  eapply held_slot_mounts; [exact Ho|exact Hk1|exact Hk2|exact Hkey|exact Hga|exact Hgb|exact Hsb|exact HDsb|].
  eapply image_holds; [apply Ho|exact Himg|exact Hgen|exact Hbody|exact Hsl|exact Hver|]. intros i Hi _. apply Hslot.
  unfold payload_sectors, PAYLOAD_CAP, SECTOR in *. pose proof (Nat.div_mod (length body + 512 - 1) 512 ltac:(lia)).
  pose proof (Nat.mod_upper_bound (length body + 512 - 1) 512 ltac:(lia)). lia.
Qed.
End mounting.

Section requests.
Context {W : Type} `{Volume W} (ELF : list Z).
Implicit Types (D : Z -> list Z) (F : Z -> Prop).

Lemma alive_start b D F (d : Sd (W := W)) : serving b D F d -> slots_only F -> (recovery (sd_st d) = false -> block (sd_st d) = Some 3) ->
  alive b D (sd_st d) d.
Proof.
  intros Hsv HF Hb. split; [|exact Hb]. exists D, F. split; [exact Hsv|]. split; [exact HF|]. split; [lia|done|done|done].
Qed.

Lemma serve_alive b D F (d : Sd (W := W)) n con query config : serving b D F d -> slots_only F ->
  (recovery (sd_st d) = false -> block (sd_st d) = Some 3) ->
  exists r d', serve ELF n con query config d = Some (r, d') /\ alive b D (sd_st d) d'.
Proof.
  intros Hsv HF Hb. pose proof (alive_start b D F d Hsv HF Hb) as Hal. destruct d as [s ws w].
  assert (Hwp : wp (serve ELF n con query config) (fun _ d' => alive b D s d') (mkSd s ws w)).
  { eapply wp_serve; [exact Hal|]. by intros r s' ws' w' Hal'. }
  apply wp_run in Hwp as (r & d' & E & Hal'). by exists r, d'.
Qed.

(** C11. No round of the service panics on an index, a slice, an assertion or
    an endless loop, whatever the requests say, whatever the disk answers and
    whatever an update agent does with its window: from any state of the
    invariant, any number of rounds of a process whose allocations succeed
    returns, the invariant holds afterwards and the mode, keys, payload and
    roster are unchanged.  The allocations are the assumption: the heap is one
    mebibyte and is never reclaimed (userlib lib.rs, [BumpAlloc]), so a process
    that runs long enough fails an allocation and panics there. *)
Theorem service_rounds_return b D F (d : Sd (W := W)) n con query config :
  serving b D F d -> slots_only F -> (recovery (sd_st d) = false -> block (sd_st d) = Some 3) ->
  exists r d' D' F', serve ELF n con query config d = Some (r, d') /\ serving b D' F' d' /\ slots_only F' /\
    identity (sd_st d') = identity (sd_st d).
Proof.
  intros Hsv HF Hb. destruct (serve_alive b D F d n con query config Hsv HF Hb) as (r & d' & E & [(D' & F' & Hsv' & HF' & Hk) _]).
  exists r, d', D', F'. repeat (split; [assumption|]). apply (k_identity _ _ _ _ _ Hk).
Qed.

(** C13. The audit log is append-only: after any number of rounds of a process
    whose allocations succeed every record that was in the log is in its place, the cursor has not moved back, and the
    records up to it form an intact chain of digests that ends in the one the
    service holds. *)
Theorem audit_log_append_only b D F (d : Sd (W := W)) n con query config :
  serving b D F d -> slots_only F -> (recovery (sd_st d) = false -> block (sd_st d) = Some 3) ->
  exists r d' D', serve ELF n con query config d = Some (r, d') /\
    (forall k, ~ slot_region A k -> ~ slot_region B k -> sector (sd_env d') k = D' k) /\
    audit_seq (sd_st d) <= audit_seq (sd_st d') <= AUDIT_RECORDS /\
    (forall i, 0 <= i < audit_seq (sd_st d) -> D' (AUDIT_START_LBA + i) = D (AUDIT_START_LBA + i)) /\
    replay 0 (replicate 32 0) (log D' (audit_seq (sd_st d'))) = Some (audit_prev (sd_st d')).
Proof.
  intros Hsv HF Hb. destruct (serve_alive b D F d n con query config Hsv HF Hb) as (r & d' & E & [(D' & F' & Hsv' & HF' & Hk) _]).
  exists r, d', D'. split; [exact E|]. split; [|split; [|split]].
  - intros k Ha' Hb'. apply (on_disk _ _ _ _ (sv_on _ _ _ _ Hsv')). intros Hf. by destruct (HF' k Hf).
  - pose proof (k_seq _ _ _ _ _ Hk). pose proof (au_seq _ _ (sv_audit _ _ _ _ Hsv')). lia.
  - intros i Hi. apply (k_log _ _ _ _ _ Hk). red. lia.
  - apply (sv_audit _ _ _ _ Hsv').
Qed.

(** C14. On a disk without faults every application the service lists stays
    authenticated through any sequence of requests for which the process has
    memory: its slot holds a header and
    ciphertext under the volume key's tag and a program the device's key
    signed, under the name, version and digest listed. *)
Theorem applications_stay_authentic D F (d : Sd (W := W)) n con query config :
  serving true D F d -> slots_only F -> (recovery (sd_st d) = false -> block (sd_st d) = Some 3) -> apps_held D (sd_st d) ->
  exists r d' D', serve ELF n con query config d = Some (r, d') /\
    (forall k, ~ slot_region A k -> ~ slot_region B k -> sector (sd_env d') k = D' k) /\ apps_held D' (sd_st d').
Proof.
  intros Hsv HF Hb Hh. destruct (serve_alive true D F d n con query config Hsv HF Hb) as (r & d' & E & [(D' & F' & Hsv' & HF' & Hk) _]).
  exists r, d', D'. split; [exact E|]. split; [|by apply (k_apps _ _ _ _ _ Hk)].
  intros k Ha' Hb'. apply (on_disk _ _ _ _ (sv_on _ _ _ _ Hsv')). intros Hf. by destruct (HF' k Hf).
Qed.

(** ** Configuration *)

Definition set_request (key value : list Z) : list Z := str "set " ++ key ++ 32 :: value.

Record settable_request (s : State) (key value : list Z) : Prop := {
  sr_settable : settable key value;
  sr_bytes : bytes_ok key /\ bytes_ok value /\ 32 ∉ key;
  sr_bounds : (length key <= 24)%nat /\ (length value <= 24)%nat /\ Z.of_nat (length (set_override (overrides s) key value)) <= CFG_TEXT_MAX;
}.

Lemma set_request_runs b D F con key value s ws (w : W) :
  serving b D F (mkSd s ws w) -> slots_only F -> recovery s = false -> block s = Some 3 -> settable_request s key value ->
  exists reply s' w' D', handle_config ELF con (set_request key value) (mkSd s ws w) = Some (reply, mkSd s' ws w') /\
    serving b D' F (mkSd s' ws w') /\ set_outcome b D s key value reply D' s' /\ (reply = str "ok" \/ reply = str "err: io" /\ b = false).
Proof.
  intros Hsv HF Hrec Hblk [[[Hk Hne] Hv (P1 & P2 & P3)] (B1 & B2 & B3) (L1 & L2 & L3)].
  set (rest := key ++ 32 :: value).
  assert (Hpos : position (fun c => c =? 32) rest = Some (length key)).
  { apply position_first; [|done]. apply Forall_forall. intros x Hx. apply Z.eqb_neq. intros ->. done. }
  assert (Et : trim (take (length key) rest) = key) by (unfold rest; rewrite take_app_length; by apply trim_fix).
  assert (Ed : trim (drop (length key + 1) rest) = value).
  { unfold rest. replace (length key + 1)%nat with (length (key ++ [32])) by (rewrite length_app; done).
    replace (key ++ 32 :: value) with ((key ++ [32]) ++ value) by (by rewrite <- app_assoc). rewrite drop_app_length. by apply trim_fix. }
  assert (Hwp : wp (set_config rest) (fun reply d' => exists s' w' D', d' = mkSd s' ws w' /\ serving b D' F (mkSd s' ws w') /\ set_outcome b D s key value reply D' s') (mkSd s ws w)).
  { eapply (wp_set_config b D F); [exact Hsv|exact Hblk| |exact Hpos|].
    - apply Forall_app. split; [exact B1|]. apply Forall_cons. split; [red; lia|exact B2].
    - intros reply D' s' w' Hsv' Hset. rewrite Et, Ed in Hset. by exists s', w', D'. }
  apply wp_run in Hwp as (reply & d' & E & s' & w' & D' & -> & Hsv' & Hset). exists reply, s', w', D'.
  split; [|split; [exact Hsv'|split; [exact Hset|]]].
  - unfold handle_config, set_request. rewrite strip_prefix_app. unfold st, gets, mbind, prog_bind. cbn [sd_st]. unfold id. rewrite Hrec. exact E.
  - destruct Hset as (_ & _ & [(-> & _)|[(-> & _ & ->)|[(_ & _ & Hl)|(_ & _ & [?|[?|?]])]]]); [by left|by right|lia|done|lia|lia].
Qed.

(** C36. [set] then [get]: a key and value that fit on a line and in the
    sector are stored, [ok] is the reply unless the disk failed, and after an
    [ok] the query [get] returns the value, every other key reads as before,
    and no sector outside the configuration and the log changed. *)
Theorem set_then_get b D F con key value s ws (w : W) :
  serving b D F (mkSd s ws w) -> slots_only F -> recovery s = false -> block s = Some 3 -> settable_request s key value ->
  exists reply s' w' D', handle_config ELF con (set_request key value) (mkSd s ws w) = Some (reply, mkSd s' ws w') /\
    serving b D' F (mkSd s' ws w') /\ same_except (fun k => k = CONFIG_LBA \/ audit_tail s k) D D' /\
    (b = true -> reply = str "ok") /\
    (reply = str "ok" ->
      handle_query (str "get " ++ key) (mkSd s' ws w') = Some (key ++ str "=" ++ value, mkSd s' ws w') /\
      forall key', key' <> key -> lookup (overrides s') (payload s') key' = lookup (overrides s) (payload s) key').
Proof.
  intros Hsv HF Hrec Hblk Hreq. destruct (set_request_runs b D F con key value s ws w Hsv HF Hrec Hblk Hreq) as (reply & s' & w' & D' & E & Hsv' & Hset & Hr).
  exists reply, s', w', D'. split; [exact E|]. split; [exact Hsv'|]. destruct Hset as (Hd & (q & p & Es & _)%advanced_inv & Hout). split; [exact Hd|].
  split; [by intros ->; destruct Hr as [|[_ ?]]|]. intros ->.
  assert (Eov : overrides s' = set_override (overrides s) key value) by (destruct Hout as [(_ & ? & _)|[(? & _)|[(? & _)|(? & _)]]]; done).
  assert (Ep : payload s' = payload s) by (by rewrite Es). destruct Hreq as [Hset _ _]. destruct (lookup_set (overrides s) (payload s) key value Hset) as [Hl Ho].
  split; [|intros key' Hk; rewrite Eov, Ep; by apply Ho].
  unfold handle_query. change (strip_prefix (str "get " ++ key) (str "log ")) with (@None (list Z)). cbv iota.
  unfold st, gets, mbind, prog_bind. cbn [sd_st]. unfold id.
  change (bytes_eqb (str "get " ++ key) (str "id")) with false. change (bytes_eqb (str "get " ++ key) (str "slot")) with false. cbv iota.
  rewrite strip_prefix_app. cbv zeta. rewrite (trim_fix key) by apply Hset. rewrite Eov, Ep, Hl. reflexivity.
Qed.

(** A setting survives a restart: after [ok], the service started again on
    what the disk then holds reads the value back, unless it comes up in
    recovery or without a disk. *)
Theorem set_survives_restart b D con key value s ws (w : W) :
  serving b D nobody (mkSd s ws w) -> recovery s = false -> block s = Some 3 -> settable_request s key value -> vol_key s = sb_key D ->
  exists reply d', handle_config ELF con (set_request key value) (mkSd s ws w) = Some (reply, d') /\
    (reply = str "ok" ->
     forall (w2 : W) pk con2, on true (sector (sd_env d')) nobody w2 -> bytes_ok pk -> length pk = 32%nat ->
       exists d2, start con2 pk w2 = Some ((), d2) /\
         (recovery (sd_st d2) = true \/ lookup (overrides (sd_st d2)) (payload (sd_st d2)) key = Some value)).
Proof.
  intros Hsv Hrec Hblk Hreq Hkey. destruct (set_request_runs b D nobody con key value s ws w Hsv ltac:(done) Hrec Hblk Hreq) as (reply & s' & w' & D' & E & Hsv' & Hset & Hr).
  exists reply, (mkSd s' ws w'). split; [exact E|]. intros -> w2 pk con2 Ho2 Hk1 Hk2. cbn [sd_env] in *.
  destruct (wp_start true _ pk con2 w2 Ho2 Hk1 Hk2) as (d2 & D2 & E2 & _ & Hm). exists d2. split; [exact E2|].
  destruct Hm as [[-> _]|Hm]; [by left|].
  destruct Hm as [s2 k _ _ _ (q & p & ->)%same_but_audit_inv|s2 y named plain g ov cg l Hn _ _ _ _ Hcfg _ _ (q & p & ->)%same_but_audit_inv]; [by left|right].
  destruct Hset as (Hd & _ & Hout).
  assert (Hst : config_stored D' (vol_key s) (cfg_gen s') (set_override (overrides s) key value)) by (destruct Hout as [(_ & _ & ?)|[(? & _)|[(? & _)|(? & _)]]]; done).
  assert (HD : forall k, sector w' k = D' k) by (intros k; apply (on_disk _ _ _ _ (sv_on _ _ _ _ Hsv')); by intros []).
  assert (Hkey' : sb_key (sector w') = vol_key s).
  { rewrite Hkey. unfold sb_key. rewrite HD, Hd; [done|]. unfold audit_tail, audit_region, within, SUPERBLOCK_LBA, CONFIG_LBA, AUDIT_START_LBA. lia. }
  assert (Hst' : config_stored (sector w') (sb_key (sector w')) (cfg_gen s') (set_override (overrides s) key value)) by (unfold config_stored; rewrite Hkey', HD; exact Hst).
  destruct (Hcfg eq_refl _ _ Hst') as [-> _]. destruct (lookup_set (overrides s) plain key value (sr_settable _ _ _ Hreq)) as [Hl _]. exact Hl.
Qed.

(** ** Applications *)

(** C12. Installing: every transfer may fail and the call still returns.  Either
    it is refused, with the state as before and, on a disk without faults, the
    volume as before; or the staged package was acceptable (its name valid, its
    digest right, its signature the device's, its version above that of its
    name) and the table names it in a slot that holds the program, sealed and
    signed.  In both cases the slot of the version served until then is not
    touched.  On a disk without faults an acceptable package with a slot to go
    to is installed. *)
Theorem install_app_spec b D F s ws (w : W) : serving b D F (mkSd s ws w) -> slots_only F ->
  exists r D' s' ws' w', install_app (mkSd s ws w) = Some (r, mkSd s' ws' w') /\ serving b D' F (mkSd s' ws' w') /\
    ( (take 3 r = str "err" /\ s' = s /\ (b = true -> forall k, D' k = D k) /\
       (b = true -> recovery s = false -> block s = Some 3 -> forall pkg slot, ~ installable D s pkg slot)) \/
      (exists pkg slot e, installable D s pkg slot /\ let name := take (ap_name_len pkg) (ap_name pkg) in
         r = push_num (str "ok app " ++ name ++ str " v") (ap_version pkg) /\
         e ∈ apps s' /\ ae_slot e = slot /\ entry_name e = name /\ ae_version e = ap_version pkg /\
         held D' (vol_key s) (pubkey s) e /\ same_except (fun k => app_region slot k \/ audit_tail s k) D D') ) /\
    forall pkg slot e, installable D s pkg slot -> best_app (apps s) (take (ap_name_len pkg) (ap_name pkg)) = Some e ->
      forall k, app_region (ae_slot e) k -> D' k = D k.
Proof.
  intros Hsv HF.
  assert (Hwp : wp install_app (fun r d' => exists D' s' ws' w', d' = mkSd s' ws' w' /\ serving b D' F (mkSd s' ws' w') /\ installed b D D' s s' r) (mkSd s ws w)).
  { eapply wp_install_app; [exact Hsv|exact HF|]. intros r D' s' ws' w' Hsv' Hi. by exists D', s', ws', w'. }
  apply wp_run in Hwp as (r & d' & E & D' & s' & ws' & w' & -> & Hsv' & Hi). exists r, D', s', ws', w'. split; [exact E|]. split; [exact Hsv'|].
  pose proof (so_apps s (sv_state _ _ _ _ Hsv)) as Hwf.
  assert (Hkeep : forall slot, same_except (fun k => app_region slot k \/ audit_tail s k) D D' ->
    (forall pkg slot', installable D s pkg slot' -> slot' = slot) ->
    forall pkg slot' e, installable D s pkg slot' -> best_app (apps s) (take (ap_name_len pkg) (ap_name pkg)) = Some e ->
      forall k, app_region (ae_slot e) k -> D' k = D k).
  { intros slot Hd Hu pkg slot' e Hin Eb k Hk. pose proof (Hu _ _ Hin) as ->. destruct Hin as (_ & _ & Ht).
    destruct (target_slot_ok _ _ _ Hwf Ht) as [Hslot Hne]. rewrite Eb in Hne. destruct (best_app_In _ _ _ Eb) as [Hin _].
    rewrite Forall_forall in Hwf. pose proof (ew_slot _ (Hwf e Hin)) as He. apply Hd. intros [Hr|[Hau _]].
    - by apply Hne, (app_regions_apart _ _ k He Hslot).
    - by apply (app_region_audit (ae_slot e) k He). }
  assert (Huniq : forall pkg slot pkg' slot', installable D s pkg slot -> installable D s pkg' slot' -> pkg' = pkg /\ slot' = slot).
  { intros pkg slot pkg' slot' (I1 & _ & I3) (J1 & _ & J3). rewrite I1 in J1. injection J1 as <-. rewrite I3 in J3. by injection J3. }
  destruct Hi as [r Hr1 Hr2 HD -> Hno|slot pkg -> Hin Hd ->|slot pkg name entry Hin Hd Hpub (q & p & Es & Hq)%advanced_inv].
  - split; [left; split; [exact Hr2|]; split; [done|]; by split|]. intros _ _ _ _ _ k _. apply HD.
  - split; [left; split; [done|]; split; [done|]; by split|]. apply (Hkeep slot); [eapply same_except_weaken; [exact Hd|]; by left|].
    intros pkg' slot' Hin'. by destruct (Huniq _ _ _ _ Hin Hin').
  - split; [right|apply (Hkeep slot Hd); intros pkg' slot' Hin'; by destruct (Huniq _ _ _ _ Hin Hin')].
    exists pkg, slot, entry. split; [exact Hin|]. cbv zeta. fold name. split; [done|].
    split; [rewrite Es; apply elem_of_app; right; apply list_elem_of_here|]. do 3 (split; [done|]). split; [|exact Hd].
    destruct Hin as (_ & (A1 & A2 & A3 & _) & _). fold name in A1, A3. rewrite <- A2 in A3.
    destruct (published_holds _ _ _ _ _ _ _ _ Hpub A1 A3) as (e' & S1 & S2 & S3 & S4 & Hh').
    exists e', (ap_payload pkg). split; [|exact Hh']. split; [exact S1|exact S2|exact S4|exact S3|].
    destruct Hh' as (hdr & _ & _ & _ & _ & _ & Hsha & _). rewrite <- Hsha, A2. reflexivity.
Qed.

(** Forty bytes of a program from [off], as the service packs them. *)
Definition program_chunk (plain : list Z) (off : Z) : list Z :=
  if Z.of_nat (length plain) <=? off then [] else
  splice 0 (slice (Z.to_nat off) (Nat.min (length plain - Z.to_nat off) 40) plain) (replicate 40 0).

(** A chunk of a listed application is a chunk of the program its slot
    holds, whenever nothing is cached: on a disk without faults the reply is
    the forty bytes at the offset, zero-padded, of a program that is tagged,
    sealed and signed under the listed name and version. *)
Theorem app_chunk_serves_program D F name off e s ws (w : W) :
  serving true D F (mkSd s ws w) -> slots_only F -> 0 <= off -> block s = Some 3 -> cached_app s = None ->
  best_app (apps s) name = Some e -> held D (vol_key s) (pubkey s) e ->
  exists e' plain d', same_program e e' /\ app_holds D (vol_key s) (pubkey s) e' plain /\
    app_chunk name off (mkSd s ws w) = Some (program_chunk plain off, d').
Proof.
  intros Hsv HF Hoff Hblk Hca Hbest Hheld. set (key := vol_key s) in *. set (pk := pubkey s) in *.
  assert (Hwp : wp (app_chunk name off) (fun r _ => exists e' plain, same_program e e' /\ app_holds D key pk e' plain /\ r = program_chunk plain off) (mkSd s ws w)).
  { eapply wp_app_chunk; [exact Hsv|exact HF|exact Hoff|]. intros r s' ws' w' Hsv' [[_ [-> Hno]]|(e1 & Hc & ->)].
    - exfalso. by apply (Hno eq_refl Hblk e).
    - destruct Hc as (best & Eb & Hslot & Hver & Hwf & [(Hc & _)|(_ & Hsha & Hh)]); [congruence|].
      rewrite Hbest in Eb. injection Eb as <-. destruct Hheld as (e2 & plain2 & Hsp & Hh2).
      destruct (app_holds_unique _ _ _ _ _ _ _ Hh2 Hh) as [-> ->]; [rewrite Hslot; apply Hsp|].
      exists e1. eexists. split; [exact Hsp|]. split; [exact Hh|]. pose proof (ew_payload e1 Hwf) as Hp. change APP_PAYLOAD_CAP with 261632 in Hp.
      destruct (sv_ws _ _ _ _ Hsv') as [Hl _]. cbn [sd_ws] in Hl. pose proof WS_LEN_Z.
      assert (El : length (take (Z.to_nat (ae_payload_len e1)) ws') = Z.to_nat (ae_payload_len e1)) by (rewrite length_take; lia).
      unfold chunk_of, program_chunk. rewrite El, Z2Nat.id by lia. destruct (Z.leb_spec (ae_payload_len e1) off); [done|].
      f_equal. unfold slice. rewrite skipn_firstn_comm, take_take. f_equal. lia. }
  apply wp_run in Hwp as (r & d' & E & e' & plain & H1 & H2 & ->). by exists e', plain, d'.
Qed.

(** ** Updates *)

(** What the volume itself holds, before and after a call: outside what others
    may write it is the description [serving] carries. *)
Lemma serving_sector b D F d k : serving b D F d -> ~ F k -> sector (sd_env d) k = D k.
Proof. intros Hsv. apply (on_disk _ _ _ _ (sv_on _ _ _ _ Hsv)). Qed.

Lemma lent_outside F F' s reply k : lent F F' s reply -> ~ F k -> ~ slot_region (inactive_slot s) k -> ~ F' k.
Proof. intros [Hl|[_ Hl]] Hk Hr Hk'; apply Hl in Hk'; [done|]. destruct Hk' as [?|?%agent_window_region]; done. Qed.

(** An update moves the volume in the inactive slot, the audit log and the
    superblock only. *)
Lemma update_moves b D D' F' s s' reply : updated b D D' F' s s' reply ->
  same_except (fun k => slot_region (inactive_slot s) k \/ audit_region k \/ k = SUPERBLOCK_LBA) D D'.
Proof.
  intros [t r _ Hd _|t plain gen Hd _ _ _ _]; (eapply same_except_weaken; [exact Hd|]); intros k [Hk|[[Hk _]|Hk]]; cbv beta; tauto.
Qed.

Lemma update_keeps b D D' F F' s s' reply ws ws' (w w' : W) k :
  serving b D F (mkSd s ws w) -> serving b D' F' (mkSd s' ws' w') -> lent F F' s reply -> updated b D D' F s s' reply -> ~ F k ->
  ~ (slot_region (inactive_slot s) k \/ audit_region k \/ k = SUPERBLOCK_LBA) -> sector w' k = sector w k.
Proof.
  intros Hsv Hsv' Hl Hu Hk Hout. pose proof (serving_sector _ _ _ _ k Hsv Hk) as E. cbn [sd_env] in E.
  pose proof (serving_sector _ _ _ _ k Hsv' (lent_outside _ _ _ _ k Hl Hk ltac:(tauto))) as E'. cbn [sd_env] in E'.
  rewrite E, E'. by apply (update_moves _ _ _ _ _ _ _ Hu).
Qed.

Lemma outside_slots F k : slots_only F -> (k < 2 \/ 2036 <= k) -> ~ F k.
Proof. intros HF Hk Hf. apply HF in Hf as [Hf|Hf]; apply slot_region_range in Hf; lia. Qed.

(** C10. An update is all or nothing.  Before it no other task may write the
    inactive slot (an agent of an earlier update that was not collected would
    be such a task).  Then, whatever the new agent does with its window and
    whichever transfers fail, the call returns, and on the volume itself the
    sectors of the running slot that no one else may write, the applications
    and the overrides are untouched.  Either the reply is an error, the running
    slot and generation stay as they are and the superblock changes only when a
    write to it failed; or the superblock is intact, names the other slot with
    a generation above the running one, and that slot holds a payload the
    device's key signed.  Afterwards others may write what they could before,
    and after an error perhaps the agent the window it was given. *)
Theorem update_all_or_nothing b D F con s ws (w : W) : serving b D F (mkSd s ws w) -> slots_only F ->
  (forall k, slot_region (inactive_slot s) k -> ~ F k) ->
  exists reply d', run_update ELF con (mkSd s ws w) = Some (reply, d') /\
    (exists D' F', serving b D' F' d' /\ slots_only F' /\ lent F F' s reply) /\
    (forall x k, active s = Some x -> slot_region x k -> ~ F k -> sector (sd_env d') k = sector w k) /\
    (forall k, k = CONFIG_LBA \/ AUDIT_END_LBA <= k -> sector (sd_env d') k = sector w k) /\
    ( (take 3 reply = str "err" /\ active (sd_st d') = active s /\ generation (sd_st d') = generation s /\
       (b = true -> sector (sd_env d') SUPERBLOCK_LBA = sector w SUPERBLOCK_LBA)) \/
      (take 3 reply = str "ok " /\ exists plain gen, active (sd_st d') = Some (inactive_slot s) /\ generation (sd_st d') = gen /\
        (active s = None \/ generation s < gen) /\ superblock_names (sector (sd_env d')) (vol_key s) (inactive_slot s) gen /\
        slot_holds (sector (sd_env d')) (vol_key s) (pubkey s) (inactive_slot s) plain gen) ).
Proof.
  intros Hsv HF Hclean.
  assert (Hwp : wp (run_update ELF con) (fun reply d' => exists D' F', serving b D' F' d' /\ lent F F' s reply /\ updated b D D' F s (sd_st d') reply) (mkSd s ws w)).
  { eapply wp_run_update; [exact Hsv|exact HF|]. intros D' F' s' ws' w' reply Hsv' Hl Hu. by exists D', F'. }
  apply wp_run in Hwp as (reply & [s' ws' w'] & E & D' & F' & Hsv' & Hl & Hu). exists reply, (mkSd s' ws' w'). split; [exact E|].
  cbn [sd_st sd_env] in *.
  assert (HF' : slots_only F').
  { destruct Hl as [Hl|[_ Hl]]; intros k Hk; apply Hl in Hk; [by apply HF|by apply (slots_only_lent F s HF)]. }
  pose proof (fun k => update_keeps b D D' F F' s s' reply ws ws' w w' k Hsv Hsv' Hl Hu) as Hkeep.
  assert (Esb : sector w' SUPERBLOCK_LBA = D' SUPERBLOCK_LBA).
  { apply (serving_sector _ _ _ _ _ Hsv'), (outside_slots _ _ HF'). unfold SUPERBLOCK_LBA. lia. }
  assert (Esb0 : sector w SUPERBLOCK_LBA = D SUPERBLOCK_LBA).
  { apply (serving_sector _ _ _ _ _ Hsv), (outside_slots _ _ HF). unfold SUPERBLOCK_LBA. lia. }
  split; [by exists D', F'|]. split; [|split].
  - intros x k Ex Hk Hf. apply Hkeep; [exact Hf|]. unfold inactive_slot. rewrite Ex. pose proof (slot_region_range x k Hk).
    intros [Ho|[Hau| ->]]; [by apply (other_region x k)|unfold audit_region, within, AUDIT_START_LBA in Hau; lia|unfold SUPERBLOCK_LBA in *; lia].
  - intros k Hk. unfold AUDIT_END_LBA, CONFIG_LBA in Hk. apply Hkeep; [apply (outside_slots _ _ HF); lia|].
    intros [Ho%slot_region_range|[Hau| ->]]; [lia|unfold audit_region, within in Hau; change AUDIT_RECORDS with 13311 in Hau; unfold AUDIT_START_LBA in Hau; lia|unfold SUPERBLOCK_LBA in Hk; lia].
  - destruct Hu as [t r (q & p & Es & _)%advanced_inv Hd' Hr|t plain gen Hd' Hg Hh Hn (q & p & Es & _)%advanced_inv].
    + left. rewrite Es. do 3 (split; [done|]). intros ->. rewrite Esb, Esb0. apply Hd'. intros [Ho%slot_region_range|[[Hau _]|[? _]]]; [unfold SUPERBLOCK_LBA in Ho; lia| |done].
      unfold audit_region, within, AUDIT_START_LBA, SUPERBLOCK_LBA in Hau. lia.
    + right. rewrite Es. destruct (push_num_app (str "ok applied ") (Z.of_nat (length plain))) as [z Ez].
      assert (Eok : take 3 (push_num (str "ok applied ") (Z.of_nat (length plain)) ++ str " bytes; reboot") = str "ok ") by (by rewrite Ez).
      split; [exact Eok|]. exists plain, gen. split; [done|]. split; [done|]. split; [exact Hg|]. split.
      * destruct Hn as (ga & gb & Hn). exists ga, gb. by rewrite Esb.
      * apply (slot_holds_ext D'); [|by apply Hh]. intros k Hk. apply (serving_sector _ _ _ _ _ Hsv'). intros Hf'.
        destruct Hl as [Hl|[He _]]; [apply Hl in Hf'; by apply (Hclean k)|]. rewrite Eok in He. discriminate He.
Qed.

(** Recovery mode is read-only but for an update: every other configuration
    request is answered with an error and leaves volume and state alone. *)
Theorem recovery_is_read_only b D F con req s ws (w : W) :
  serving b D F (mkSd s ws w) -> slots_only F -> bytes_ok req -> recovery s = true -> req <> str "begin-update" ->
  exists reply d' D', handle_config ELF con req (mkSd s ws w) = Some (reply, d') /\ take 3 reply = str "err" /\
    sd_st d' = s /\ serving b D' F d' /\ forall k, D' k = D k.
Proof.
  intros Hsv HF Hreq Hrec Hne. pose proof Hsv as [Ho Hws Hs Ha]. cbn [sd_st sd_ws sd_env] in *. destruct (so_recovery s Hs Hrec) as [Happs _].
  assert (Hret : forall r, take 3 r = str "err" -> exists reply d' D', @Some (list Z * Sd (W := W)) (r, mkSd s ws w) = Some (reply, d') /\ take 3 reply = str "err" /\
    sd_st d' = s /\ serving b D' F d' /\ forall k, D' k = D k) by (intros r Hr; by exists r, (mkSd s ws w), D).
  unfold handle_config, st, gets, mbind, prog_bind. cbn [sd_st]. unfold id. rewrite Hrec.
  destruct (strip_prefix req (str "set ")); [by apply Hret|].
  destruct (bytes_eqb req (str "begin-update")) eqn:Eu; [by apply bytes_eqb_eq in Eu|].
  destruct (bytes_eqb req (str "install-app")).
  { unfold install_app, st, gets, mbind, prog_bind. cbn [sd_st]. unfold id. rewrite Hrec. destruct (block s); by apply Hret. }
  destruct (strip_prefix req (str "remove-app ")) as [name|]; [|by apply Hret].
  unfold remove_app, st, gets, mbind, prog_bind. destruct (negb _); [by apply Hret|]. cbn [sd_st]. unfold id. rewrite Happs. cbn [List.filter erase_apps].
  destruct (block s); by apply Hret.
Qed.

(** C40. A defect: a refused installation leaves the cache of the served program
    marked valid although the workspace behind it was overwritten.  With a
    program cached and a malformed package staged, the installation is refused
    and the next chunk of that program is forty bytes of the staging area. *)
Theorem stale_cache_serves_staging D F name off best e n s ws (w : W) :
  serving true D F (mkSd s ws w) -> slots_only F -> recovery s = false -> block s = Some 3 ->
  best_app (apps s) name = Some best -> cached_app s = Some e -> ae_slot e = ae_slot best -> ae_version e = ae_version best ->
  stage_bytes D = Some n -> staged D = None -> 0 <= off -> off + 40 <= Z.of_nat n -> off + 40 <= ae_payload_len e ->
  exists r d1, install_app (mkSd s ws w) = Some (r, d1) /\ take 3 r = str "err" /\ sd_st d1 = s /\
    app_chunk name off d1 = Some (slice (Z.to_nat off) 40 (disk_read D STAGING_LBA STAGING_SECTORS), d1).
Proof.
  intros Hsv HF Hrec Hblk Hbest Hca Hslot Hver En Hst Hoff Hn Hlen.
  assert (Hwp : wp install_app (fun r d1 => take 3 r = str "err" /\ exists ws' w', d1 = mkSd s ws' w' /\ ws_ok ws' /\
    take n ws' = take n (disk_read D STAGING_LBA STAGING_SECTORS)) (mkSd s ws w)).
  { eapply wp_stage_read; [exact Hsv|exact HF|..].
    - intros r ws' w' _ _ Hno. rewrite Hno in En by done. done.
    - intros n' ws' w' _ _ Ho' Hws' En' Hl Hz Et. rewrite En in En'. injection En' as <-.
      unfold staged in Hst. rewrite En in Hst. cbn [mbind option_bind] in Hst. rewrite <- Et in Hst. rewrite Hst. apply wp_ret. split; [done|]. by exists ws', w'. }
  apply wp_run in Hwp as (r & d1 & E & Hr & ws' & w' & -> & [Hwl _] & Et). exists r, (mkSd s ws' w'). split; [exact E|]. split; [exact Hr|]. split; [done|].
  unfold app_chunk, cache_app, st, gets, workspace, mbind, prog_bind. cbn [sd_st]. unfold id. rewrite Hbest, Hca. unfold cache_hit.
  rewrite Hslot, Hver, !Z.eqb_refl. cbn [andb]. unfold mret, prog_ret.
  pose proof (so_cached s (sv_state _ _ _ _ Hsv)) as Hwf. rewrite Hca in Hwf. pose proof (ew_payload e Hwf) as Hp. change APP_PAYLOAD_CAP with 261632 in Hp.
  pose proof WS_LEN_Z. rewrite (proj2 (Z.leb_gt _ _)) by lia. cbn [sd_ws]. unfold gets. cbn [sd_ws].
  replace (Nat.min (Z.to_nat (ae_payload_len e) - Z.to_nat off) 40) with 40%nat by lia. rewrite (proj2 (Nat.ltb_ge _ _)) by lia.
  f_equal. f_equal. assert (Es : slice (Z.to_nat off) 40 ws' = slice (Z.to_nat off) 40 (disk_read D STAGING_LBA STAGING_SECTORS)).
  { apply (f_equal (fun l => slice (Z.to_nat off) 40 l)) in Et. unfold slice in *. rewrite !skipn_firstn_comm, !take_take, !Nat.min_l in Et by lia. exact Et. }
  rewrite Es. unfold splice. rewrite take_0. cbn [app]. rewrite drop_ge, app_nil_r; [done|].
  rewrite <- Es, length_replicate, length_slice by lia. lia.
Qed.
End requests.
