(* ===== verification/StorageWitness.v ===== *)
(** * The storage service on the machine of StorageSim

    Closed instances of the theorems about the service: every hypothesis is
    met on a concrete machine. *)

From S2P Require Import Prelude RustStd HashStream Sha256 Hmac ChaCha20 Ed25519 Ed25519Sign Layout LayoutTheorems Prog Userlib StorageText StorageConfig Storaged StorageEnv StorageLoad StorageAudit StorageInv StorageApps StorageInstall StorageUpdate StorageMount StorageServe StorageSim StorageTheorems.
Import Layout Text Storaged.

#[local] Opaque Ed25519.verify Ed25519.sign Ed25519.public_from_seed Sha256.sha256 Hmac.oneshot Hmac.reference ChaCha20.xor_stream WS_LEN.

(** ** A machine with a given disk and no other tasks *)

Definition machine (d : Z -> list Z) : Sim := mkSim d [] 0 [] [] 0 4 [] 0.
Definition blank : Sim := machine (fun _ => zeros).

Lemma machine_on b d : on b (sim_sector (machine d)) nobody (machine d).
Proof. split; [apply sim_sector_ok|done|intros t k Hf; discriminate Hf|done]. Qed.

Definition pk0 : list Z := replicate 32 1.

Lemma pk0_ok : bytes_ok pk0.
Proof. apply Forall_replicate. red. lia. Qed.

Definition ws0 : list Z := replicate WS_LEN 0.

Lemma ws0_ok : ws_ok ws0.
Proof. split; [apply length_replicate|]. apply Forall_replicate. red. lia. Qed.

(** In recovery, and running a payload. *)
Definition idle : State := initial (Some 3) pk0.
Definition running : State := set_mounted (replicate 32 7) A 5 (str "service heart") idle.

Lemma idle_ok : service_ok idle.
Proof. apply initial_ok; [by right|apply pk0_ok|done]. Qed.

Lemma running_ok : service_ok running.
Proof. apply service_ok_mounted; [apply idle_ok|done|done|apply Forall_replicate; red; lia|red; lia]. Qed.

Lemma idle_serving b d : serving b (sim_sector (machine d)) nobody (mkSd idle ws0 (machine d)).
Proof. split; [apply machine_on|apply ws0_ok|apply idle_ok|apply initial_audit]. Qed.

Lemma running_serving b d : serving b (sim_sector (machine d)) nobody (mkSd running ws0 (machine d)).
Proof.
  split; [apply machine_on|apply ws0_ok|apply running_ok|]. apply (audit_ok_state _ idle); [done|done|apply initial_audit].
Qed.

(** ** A key pair *)

Definition seed0 : list Z := replicate 32 9.
Definition pkS : list Z := default [] (Ed25519.public_from_seed seed0).
Definition signed (msg : list Z) : list Z := default [] (Ed25519.sign seed0 msg).

Lemma signed_spec msg : Ed25519.public_from_seed seed0 = Some pkS /\ Ed25519.sign seed0 msg = Some (signed msg) /\
  bytes_ok pkS /\ length pkS = 32%nat /\ bytes_ok (signed msg) /\ length (signed msg) = 64%nat /\ Ed25519.verify pkS msg (signed msg) = Some (Ok tt).
Proof.
  destruct (sign_verifies seed0 msg) as (pk & sig & Ep & Es & Hl & Hv). destruct (sign_spec seed0 msg) as (a & r & _ & _ & Ep' & Es'). cbv zeta in *.
  assert (Hpk : bytes_ok (default [] (Some pk)) /\ length (default [] (Some pk)) = 32%nat).
  { rewrite <- Ep, Ep'. cbn [default from_option id]. split; [apply encode_ok|apply length_encode]. }
  assert (Hsig : bytes_ok (default [] (Some sig))).
  { rewrite <- Es, Es'. cbn [default from_option id]. apply Forall_app. split; [apply encode_ok|apply to_le_bytes_ok]. }
  cbn [default from_option id] in Hpk, Hsig. unfold pkS, signed. rewrite Ep, Es. cbn [default from_option id].
  split; [reflexivity|]. split; [reflexivity|]. split; [apply Hpk|]. split; [apply Hpk|]. split; [exact Hsig|]. split; [exact Hl|exact Hv].
Qed.

Lemma pkS_ok : bytes_ok pkS /\ length pkS = 32%nat.
Proof. destruct (signed_spec []) as (_ & _ & H1 & H2 & _). by split. Qed.

Lemma machine_sector d k : sector_ok (d k) -> sim_sector (machine d) k = d k.
Proof. intros Hs. by apply sim_sector_same. Qed.

(** ** A provisioned volume: slot A holds a sealed, signed payload *)

Definition key0 : list Z := replicate 32 7.
Definition body0 : list Z := unlines ["device-id=unit-7"; "service heart autostart restart"]%string.
Definition sb0 : list Z := default [] (write_superblock zeros (Some A) 5 0 key0).
Definition img0 : list Z := fst (default ([], 0%nat) (build_slot_image (replicate (Z.to_nat SLOT_IMAGE_MAX) 0) 5 body0 (signed body0) key0)).
Definition provisioned (k : Z) : list Z :=
  if k =? 0 then sb0 else if (2 <=? k) && (k <? 1004) then slice (Z.to_nat (k - 2) * SECTOR) SECTOR img0 else zeros.

Lemma key0_ok : length key0 = 32%nat /\ bytes_ok key0.
Proof. split; [done|]. apply Forall_replicate. red. lia. Qed.

Lemma slot_image_ok img gen payload sig key img' n : bytes_ok img -> bytes_ok payload -> bytes_ok sig ->
  build_slot_image img gen payload sig key = Some (img', n) -> bytes_ok img'.
Proof.
  intros Hi Hp Hs. unfold build_slot_image. destruct (_ <? _); [done|]. destruct (write_slot_header _ _ _ _ _ _) as [hdr|] eqn:Eh; [|done].
  destruct (puts _ _) as [x|] eqn:E; [|done]. intros [= <- _].
  assert (Hh : bytes_ok hdr).
  { unfold write_slot_header in Eh. destruct (_ <? _); [done|]. apply (puts_ok _ _ _ Eh); [|apply zeroed_ok].
    assert (H1 : bytes_ok [slot_num A] /\ bytes_ok [SLOT_STATE_VALID] /\ bytes_ok SLOT_MAGIC).
    { split; [|split]; [..|apply magic_ok]; (apply byte_ok; unfold SLOT_STATE_VALID; cbn; lia). }
    do 7 (apply List.Forall_cons; [cbn [snd]; first [apply H1|assumption|solve [auto with bytes]]|]). apply List.Forall_nil. }
  apply (puts_ok _ _ _ E).
  - apply List.Forall_cons; [|apply List.Forall_cons; [|apply List.Forall_nil]]; cbn [snd].
    + unfold slot_mac. erewrite mac_of_finalize by (apply mac_of_update, mac_of_new). apply oneshot_ok.
    + by apply xor_stream_ok.
  - apply Forall_app. split; [apply bytes_take, Forall_app; split; [exact Hh|apply Forall_drop, zeroed_ok]|apply zeroed_ok].
Qed.

Lemma body0_len : 0 < Z.of_nat (length body0) <= PAYLOAD_CAP.
Proof. split; [reflexivity|discriminate]. Qed.

Lemma provisioned_parts :
  write_superblock zeros (Some A) 5 0 key0 = Some sb0 /\ sector_ok sb0 /\
  build_slot_image (replicate (Z.to_nat SLOT_IMAGE_MAX) 0) 5 body0 (signed body0) key0 = Some (img0, (1024 + length body0)%nat) /\
  bytes_ok img0 /\ Z.of_nat (length img0) = 513024.
Proof.
  destruct key0_ok as [Hk Hkb]. destruct (signed_spec body0) as (_ & _ & _ & _ & Hsb & Hsl & _).
  destruct (superblock_sector key0 A 5 0 Hk Hkb) as (sb & Ew & Hs & _); [red; lia|red; lia|].
  destruct (sealed_image_spec (replicate (Z.to_nat SLOT_IMAGE_MAX) 0) 5 body0 (signed body0) key0) as (img & Eb & Hl & _);
    [rewrite length_replicate; unfold SLOT_IMAGE_MAX; lia|red; lia|by vm_compute|exact Hsl|].
  assert (Hb : bytes_ok body0) by (unfold body0, unlines; cbn [fmap list_fmap concat]; rewrite app_nil_r; repeat (apply Forall_app; split; try apply str_ok); apply byte_ok; unfold NL; lia).
  assert (Hz : bytes_ok (replicate (Z.to_nat SLOT_IMAGE_MAX) 0)) by (apply Forall_replicate; red; lia).
  pose proof (slot_image_ok _ _ _ _ _ _ _ Hz Hb Hsb Eb) as Hib.
  unfold sb0, img0. rewrite Ew, Eb. cbn [default from_option fst id]. split; [reflexivity|]. split; [exact Hs|]. split; [reflexivity|]. split; [exact Hib|].
  rewrite Hl, length_replicate. reflexivity.
Qed.

Lemma provisioned_sector k : sector_ok (provisioned k).
Proof.
  destruct provisioned_parts as (_ & Hs & _ & Hb & Hl). unfold provisioned. destruct (k =? 0); [exact Hs|].
  destruct (_ && _) eqn:E; [|apply zeros_ok]. bool_facts. split; [apply length_slice; unfold SECTOR; lia|by apply bytes_slice].
Qed.

(** ** A volume with a published application *)

Definition app_name0 : list Z := str "hello".
Definition app_body0 : list Z := str "a program".
Definition app_sig0 : list Z :=
  signed (app_signing_message app_name0 1 (Z.of_nat (length app_body0)) (Sha256.sha256 app_body0)).
Definition app_ct0 : list Z := ChaCha20.xor_stream key0 0 (app_nonce 0 1) app_body0.
Definition app_hdr0 : list Z :=
  let h := default [] (default None (write_app_header zeros 0 app_name0 1 app_body0 app_sig0)) in splice APP_HDR_MAC_OFF (app_header_mac key0 h app_ct0) h.
Definition app_entry0 : AppEntry :=
  mkAppEntry 0 (splice 0 app_name0 (replicate 24 0)) 5 (Z.of_nat (length app_body0)) 1 (Sha256.sha256 app_body0) app_sig0.

(** A package announced in the staging area, without a name. *)
Definition junk : list Z := splice 12 [40; 0; 0; 0] (splice 8 [1] (splice 0 APP_PKG_MAGIC zeros)).

Definition shop (k : Z) : list Z :=
  if k =? app_lba 0 then app_hdr0 else if k =? app_lba 0 + 1 then splice 0 app_ct0 zeros else if k =? STAGING_LBA then junk else zeros.

Definition open_shop : State := set_apps [app_entry0] None (set_mounted key0 A 5 body0 (initial (Some 3) pkS)).

(** The same table with a longer program, cached. *)
Definition app_entry1 : AppEntry :=
  mkAppEntry 0 (ae_name app_entry0) 5 100 1 (ae_payload_sha app_entry0) app_sig0.
Definition busy_shop : State := set_apps [app_entry1] (Some app_entry1) open_shop.

Lemma app_sig0_ok : bytes_ok app_sig0 /\ length app_sig0 = 64%nat.
Proof. unfold app_sig0. match goal with |- context [signed ?m] => destruct (signed_spec m) as (_ & _ & _ & _ & H1 & H2 & _) end. by split. Qed.

Lemma app_name0_ok : bytes_ok app_name0 /\ length app_name0 = 5%nat.
Proof. split; [apply str_ok|reflexivity]. Qed.

Lemma app_hdr0_spec : sector_ok app_hdr0 /\ app_header_mac_ok key0 app_hdr0 app_ct0 = true /\
  exists h, parse_app_header app_hdr0 = Some h /\ ah_slot h = 0 /\ take (ah_name_len h) (ah_name h) = app_name0 /\
    ah_payload_len h = Z.of_nat (length app_body0) /\ ah_version h = 1 /\ ah_payload_sha h = Sha256.sha256 app_body0 /\ ah_signature h = app_sig0.
Proof.
  destruct app_sig0_ok as [Hsb Hsl]. destruct app_name0_ok as [Hnb Hnl]. destruct key0_ok as [Hk _].
  destruct (sealed_header key0 0 app_name0 1 app_body0 app_sig0) as (hdr & Ew & Hh).
  - exact Hk.
  - split; [lia|reflexivity].
  - rewrite Hnl. unfold APP_NAME_MAX. lia.
  - exact Hnb.
  - red. lia.
  - split; [reflexivity|discriminate].
  - exact Hsl.
  - exact Hsb.
  - specialize (Hh app_ct0). unfold app_hdr0. rewrite Ew. cbn [default from_option id]. cbv zeta in *. exact Hh.
Qed.

Lemma app_ct0_ok : bytes_ok app_ct0 /\ length app_ct0 = 9%nat.
Proof. split; [apply xor_stream_ok, str_ok|]. unfold app_ct0. rewrite ChaCha20.length_xor_stream. reflexivity. Qed.

Lemma app_ct0_sector : sector_ok (splice 0 app_ct0 zeros).
Proof.
  destruct app_ct0_ok as [Hb Hl]. split; [rewrite length_splice; [done|rewrite Hl; cbn; lia]|apply splice_ok; [exact Hb|apply zeros_ok]].
Qed.

Lemma junk_ok : sector_ok junk.
Proof.
  split; [reflexivity|]. unfold junk. repeat apply splice_ok; [repeat (apply List.Forall_cons; [red; lia|]); apply List.Forall_nil|apply byte_ok; lia|apply magic_ok|apply zeros_ok].
Qed.

Lemma shop_sector k : sector_ok (shop k).
Proof.
  unfold shop. destruct (k =? _); [apply app_hdr0_spec|]. destruct (k =? _); [apply app_ct0_sector|]. destruct (k =? _); [apply junk_ok|apply zeros_ok].
Qed.

Definition shop_machine : Sim := machine shop.
Definition shop_disk : Z -> list Z := sim_sector shop_machine.

Lemma shop_disk_at k : shop_disk k = shop k.
Proof. apply machine_sector, shop_sector. Qed.

Lemma shop_published : published shop_disk key0 0 app_name0 1 app_body0 app_sig0.
Proof.
  destruct app_hdr0_spec as (_ & Hm & h & Hh). exists h. rewrite !shop_disk_at. unfold shop at 1 2. rewrite Z.eqb_refl.
  assert (Ect : app_ct shop_disk 0 (length app_body0) = app_ct0).
  { unfold app_ct. change APP_SLOT_SECTORS with 512. rewrite (take_disk_read_le shop_disk (app_lba 0 + 1) 1); [|apply sim_sector_ok|lia|change (length app_body0) with 9%nat; unfold SECTOR; lia].
    rewrite disk_read_1, shop_disk_at. unfold shop. rewrite (proj2 (Z.eqb_neq _ _)), Z.eqb_refl by lia.
    change (length app_body0) with 9%nat. destruct app_ct0_ok as [_ Hl]. rewrite <- Hl. change (length app_ct0) with (0 + length app_ct0)%nat at 1.
    rewrite take_splice by (cbn; lia). done. }
  rewrite Ect. destruct Hh as (H1 & H2 & H3 & H4 & H5 & H6 & H7). do 7 (split; [assumption|]). split; [exact Hm|]. apply ChaCha20.xor_stream_twice.
Qed.

Lemma app_entry0_wf : entry_wf app_entry0.
Proof.
  destruct app_sig0_ok as [Hsb Hsl].
  split; cbn [app_entry0 ae_slot ae_name ae_name_len ae_payload_len ae_version ae_payload_sha ae_signature].
  - split; [lia|reflexivity].
  - reflexivity.
  - unfold APP_NAME_MAX. lia.
  - reflexivity.
  - split; [reflexivity|discriminate].
  - red. lia.
  - split; [apply length_sha256|apply sha256_ok].
  - by split.
Qed.

Lemma app_entry1_wf : entry_wf app_entry1.
Proof.
  destruct app_sig0_ok as [Hsb Hsl].
  split; cbn [app_entry1 app_entry0 ae_slot ae_name ae_name_len ae_payload_len ae_version ae_payload_sha ae_signature].
  - split; [lia|reflexivity].
  - reflexivity.
  - unfold APP_NAME_MAX. lia.
  - reflexivity.
  - split; [reflexivity|discriminate].
  - red. lia.
  - split; [apply length_sha256|apply sha256_ok].
  - by split.
Qed.

Lemma shop_held : held shop_disk key0 pkS app_entry0.
Proof.
  destruct (signed_spec (app_signing_message app_name0 1 (Z.of_nat (length app_body0)) (Sha256.sha256 app_body0))) as (_ & _ & _ & _ & _ & _ & Hv).
  destruct (published_holds shop_disk key0 pkS 0 app_name0 1 app_body0 app_sig0 shop_published eq_refl Hv) as (e & E1 & E2 & E3 & E4 & Hh).
  exists e, app_body0. split; [|exact Hh]. split; [exact E1|rewrite E2; reflexivity|exact E4|exact E3|].
  destruct Hh as (hdr & _ & _ & _ & _ & _ & Hsha & _). by rewrite <- Hsha.
Qed.

Lemma open_shop_ok : service_ok open_shop.
Proof.
  apply service_ok_apps; [| | |done|done].
  - apply service_ok_mounted; [apply initial_ok; [by right|apply pkS_ok|apply pkS_ok]|done|apply key0_ok|apply key0_ok|red; lia].
  - apply Forall_singleton, app_entry0_wf.
  - apply NoDup_singleton.
Qed.

Lemma shop_serving b s : service_ok s -> audit_seq s = 0 -> audit_prev s = replicate 32 0 -> serving b shop_disk nobody (mkSd s ws0 shop_machine).
Proof. intros Hs H1 H2. split; [apply machine_on|apply ws0_ok|exact Hs|]. by apply (audit_ok_state _ idle); [..|apply initial_audit]. Qed.

Lemma open_shop_serving b : serving b shop_disk nobody (mkSd open_shop ws0 shop_machine).
Proof. apply shop_serving; [apply open_shop_ok|reflexivity|reflexivity]. Qed.

Lemma busy_shop_serving b : serving b shop_disk nobody (mkSd busy_shop ws0 shop_machine).
Proof. apply shop_serving; [|reflexivity|reflexivity]. 
  apply service_ok_apps; [apply open_shop_ok|apply Forall_singleton, app_entry1_wf|apply NoDup_singleton|apply app_entry1_wf|done].
Qed.

(** ** Witnesses *)

Lemma storage_start_authentic_witness :
  exists d D', start 1 pk0 blank = Some ((), d) /\ serving true D' nobody d /\ same_except mount_writes (sim_sector blank) D'.
Proof.
  destruct (storage_start_authentic true (sim_sector blank) pk0 1 blank (machine_on true _) pk0_ok eq_refl) as (d & D' & E & Hsv & Hd & _).
  exists d, D'. split; [exact E|]. split; [exact Hsv|exact Hd].
Defined.

Lemma service_rounds_return_witness :
  exists r d', serve [] 1000 1 2 3 (mkSd running ws0 blank) = Some (r, d').
Proof.
  destruct (service_rounds_return [] false (sim_sector blank) nobody (mkSd running ws0 blank) 1000 1 2 3
    (running_serving false _) slots_only_nobody (fun _ => eq_refl)) as (r & d' & _ & _ & E & _). exists r, d'. exact E.
Defined.

Lemma provisioned_volume_mounts_witness :
  exists d, start 1 pkS (machine provisioned) = Some ((), d) /\
    (block (sd_st d) = Some 3 -> recovery (sd_st d) = false /\ active (sd_st d) = Some A /\ payload (sd_st d) = body0 /\
      generation (sd_st d) = 5 /\ forall ov cg, config_stored (sim_sector (machine provisioned)) key0 cg ov -> overrides (sd_st d) = ov /\ cfg_gen (sd_st d) = cg).
Proof.
  destruct provisioned_parts as (Esb & _ & Eimg & _ & Hl). destruct (signed_spec body0) as (Ep & Es & _).
  apply (provisioned_volume_mounts (sim_sector (machine provisioned)) pkS 1 (machine provisioned) seed0 A 5 0 5 key0 body0 (signed body0) sb0 img0
    (1024 + length body0)%nat).
  1: exact (machine_on true _).
  1: exact (proj1 pkS_ok).
  1: exact (proj2 pkS_ok).
  1: exact Ep.
  1: exact Es.
  1: exact (proj1 key0_ok).
  1-3: red; lia.
  1: exact body0_len.
  1: exact Esb.
  2: exact Eimg.
  - rewrite machine_sector by apply provisioned_sector. reflexivity.
  - intros i Hi. rewrite machine_sector by apply provisioned_sector. unfold provisioned. cbn [hdr_lba]. unfold SLOT_A_HDR_LBA.
    rewrite (proj2 (Z.eqb_neq _ _)), (proj2 (Z.leb_le _ _)), (proj2 (Z.ltb_lt _ _)) by lia. cbn [andb].
    f_equal. f_equal. lia.
Defined.

Lemma audit_log_append_only_witness :
  exists r d', serve [] 1000 1 2 3 (mkSd running ws0 blank) = Some (r, d') /\ audit_seq (sd_st d') <= AUDIT_RECORDS.
Proof.
  destruct (audit_log_append_only [] false (sim_sector blank) nobody (mkSd running ws0 blank) 1000 1 2 3
    (running_serving false _) slots_only_nobody (fun _ => eq_refl)) as (r & d' & D' & E & _ & [_ H] & _). exists r, d'. split; [exact E|exact H].
Defined.

Lemma applications_stay_authentic_witness :
  exists r d' D', serve [] 1000 1 2 3 (mkSd open_shop ws0 shop_machine) = Some (r, d') /\ apps_held D' (sd_st d').
Proof.
  destruct (applications_stay_authentic [] shop_disk nobody (mkSd open_shop ws0 shop_machine) 1000 1 2 3
    (open_shop_serving true) slots_only_nobody (fun _ => eq_refl)) as (r & d' & D' & E & _ & H).
  - apply List.Forall_cons; [exact shop_held|apply List.Forall_nil].
  - exists r, d', D'. split; [exact E|exact H].
Defined.

(** A hostname to set. *)
Lemma hostname_request s : overrides s = FACTORY_CONFIG -> settable_request s (str "hostname") (str "unit-7").
Proof.
  intros Eov. split.
  - split; [split; [by split|done]|by split|]. repeat split; intros Hin; apply list_elem_of_In in Hin; cbn in Hin; unfold NL in Hin; lia.
  - split; [apply str_ok|]. split; [apply str_ok|]. intros Hin. apply list_elem_of_In in Hin. cbn in Hin. lia.
  - rewrite Eov. split; [cbn; lia|]. split; [cbn; lia|]. vm_compute. discriminate.
Qed.

Lemma set_then_get_witness :
  exists d' reply, handle_config [] 1 (set_request (str "hostname") (str "unit-7")) (mkSd running ws0 blank) = Some (reply, d') /\ reply = str "ok" /\
    handle_query (str "get hostname") d' = Some (str "hostname=unit-7", d').
Proof.
  destruct (set_then_get [] true (sim_sector blank) nobody 1 (str "hostname") (str "unit-7") running ws0 blank
    (running_serving true _) slots_only_nobody eq_refl eq_refl (hostname_request running eq_refl)) as (reply & s' & w' & D' & E & _ & _ & Hok & Hget).
  exists (mkSd s' ws0 w'), reply. split; [exact E|]. split; [by apply Hok|]. by destruct (Hget (Hok eq_refl)) as [Hq _].
Defined.

Definition running0 : State := set_mounted (sb_key (sim_sector blank)) A 5 (str "service heart") idle.

Lemma running0_serving b : serving b (sim_sector blank) nobody (mkSd running0 ws0 blank).
Proof.
  destruct (sb_key_ok (sim_sector blank) (sim_sector_ok blank)) as [Hl Hb].
  split; [apply machine_on|apply ws0_ok| |by apply (audit_ok_state _ idle); [..|apply initial_audit]].
  apply service_ok_mounted; [apply idle_ok|done|exact Hl|exact Hb|red; lia].
Qed.

Lemma set_survives_restart_witness :
  exists reply d', handle_config [] 1 (set_request (str "hostname") (str "unit-7")) (mkSd running0 ws0 blank) = Some (reply, d').
Proof.
  destruct (set_survives_restart [] true (sim_sector blank) 1 (str "hostname") (str "unit-7") running0 ws0 blank
    (running0_serving true) eq_refl eq_refl (hostname_request running0 eq_refl) eq_refl) as (reply & d' & E & _). by exists reply, d'.
Defined.

Lemma install_app_spec_witness :
  exists r D' s' ws' w', install_app (mkSd open_shop ws0 shop_machine) = Some (r, mkSd s' ws' w') /\ serving true D' nobody (mkSd s' ws' w').
Proof.
  destruct (install_app_spec true shop_disk nobody open_shop ws0 shop_machine (open_shop_serving true) slots_only_nobody)
    as (r & D' & s' & ws' & w' & E & Hsv & _). exists r, D', s', ws', w'. split; [exact E|exact Hsv].
Defined.

Lemma app_chunk_serves_program_witness :
  exists e' plain d', same_program app_entry0 e' /\ app_holds shop_disk key0 pkS e' plain /\
    app_chunk app_name0 0 (mkSd open_shop ws0 shop_machine) = Some (program_chunk plain 0, d').
Proof.
  apply (app_chunk_serves_program shop_disk nobody app_name0 0 app_entry0 open_shop ws0 shop_machine
    (open_shop_serving true) slots_only_nobody (Z.le_refl 0) eq_refl eq_refl eq_refl shop_held).
Defined.

Lemma update_all_or_nothing_witness :
  exists reply d', run_update [] 1 (mkSd running ws0 blank) = Some (reply, d') /\
    forall k, slot_region A k -> sector (sd_env d') k = sim_sector blank k.
Proof.
  destruct (update_all_or_nothing [] false (sim_sector blank) nobody 1 running ws0 blank (running_serving false _) slots_only_nobody)
    as (reply & d' & E & _ & Hd & _); [by intros k _ []|].
  exists reply, d'. split; [exact E|]. intros k Hk. apply (Hd A k eq_refl Hk). by intros [].
Defined.

Lemma recovery_is_read_only_witness :
  exists reply d', handle_config [] 1 (str "set hostname x") (mkSd idle ws0 blank) = Some (reply, d') /\ take 3 reply = str "err" /\ sd_st d' = idle.
Proof.
  destruct (recovery_is_read_only [] true (sim_sector blank) nobody 1 (str "set hostname x") idle ws0 blank
    (idle_serving true _) slots_only_nobody (str_ok _) eq_refl) as (reply & d' & D' & E & Hr & Hs & _); [discriminate|].
  exists reply, d'. split; [exact E|]. split; [exact Hr|exact Hs].
Defined.

Lemma shop_stage : stage_bytes shop_disk = Some 232%nat /\ staged shop_disk = None.
Proof.
  assert (Ej : shop_disk STAGING_LBA = junk) by (rewrite shop_disk_at; reflexivity).
  assert (Es : stage_bytes shop_disk = Some 232%nat) by (unfold stage_bytes; rewrite Ej; reflexivity).
  split; [exact Es|]. unfold staged. rewrite Es. cbn [mbind option_bind].
  rewrite (take_disk_read_le shop_disk STAGING_LBA 1); [|apply sim_sector_ok|unfold STAGING_SECTORS; lia|unfold SECTOR; lia].
  rewrite disk_read_1, Ej. reflexivity.
Qed.

Lemma stale_cache_serves_staging_witness :
  exists r d1, install_app (mkSd busy_shop ws0 shop_machine) = Some (r, d1) /\ take 3 r = str "err" /\ sd_st d1 = busy_shop.
Proof.
  destruct shop_stage as [E1 E2].
  destruct (stale_cache_serves_staging shop_disk nobody app_name0 0 app_entry1 app_entry1 232 busy_shop ws0 shop_machine (busy_shop_serving true)
    slots_only_nobody eq_refl eq_refl eq_refl eq_refl eq_refl eq_refl E1 E2 (Z.le_refl 0)) as (r & d1 & E & Hr & Hs & _);
    [discriminate|discriminate|]. exists r, d1. split; [exact E|]. split; [exact Hr|exact Hs].
Defined.
