(* ===== verification/Updated.v ===== *)
(** * The update agent (servers/updated/src/main.rs)

    Spawned by the storage service with two block windows: slot 0 reads the
    staging area, slot 1 writes the inactive slot.  It copies the staged image
    into the slot when the image carries a signature of the pinned key, and
    reports through its exit code. *)

From S2P Require Import Prelude RustStd Ed25519 Layout Prog Userlib Strings Storaged.
Import Layout.

Module Updated.
Section agent.
Context {W : Type} `{Abi W} (PUB_KEY_BYTES : list Z).

Definition pub_key : list Z := Strings.pub_key PUB_KEY_BYTES.

(** The package, eight sectors at a time; [None] is a failed read. *)
Fixpoint read_package (fuel : nat) (done : nat) (pkg : list Z) : prog W (option (list Z)) :=
  match fuel with
  | O => panic
  | S fuel =>
      if (done <? length pkg)%nat then
        let n := Nat.min (length pkg - done) (8 * SECTOR) in
        let sectors := ((n + SECTOR - 1) / SECTOR)%nat in
        '(r, buf) ← Userlib.block_read 0 (Z.of_nat (done / SECTOR)) (Z.of_nat sectors) (slice done n pkg);
        if negb (Storaged.is_ok r) then mret None else read_package fuel (done + n)%nat (splice done buf pkg)
      else mret (Some pkg)
  end.

(** The image into the slot, the last chunk padded with zeros. *)
Fixpoint copy_image (fuel : nat) (image : list Z) (lba_off : Z) (done : nat) : prog W bool :=
  match fuel with
  | O => panic
  | S fuel =>
      if (done <? length image)%nat then
        let n := Nat.min (length image - done) (8 * SECTOR) in
        let sectors := ((n + SECTOR - 1) / SECTOR)%nat in
        let padded := splice 0 (slice done n image) (replicate (8 * SECTOR) 0) in
        r ← Userlib.block_write 1 lba_off (Z.of_nat sectors) padded;
        if negb (Storaged.is_ok r) then mret false
        else copy_image fuel image (lba_off + Z.of_nat sectors) (done + n)%nat
      else mret true
  end.

(** [main], up to the exit code. *)
Definition run : prog W Z :=
  let pkg := replicate (Z.to_nat STAGING_SECTORS * SECTOR) 0 in
  staged ← read_package (Storaged.passes (length pkg)) 0 pkg;
  match staged with
  | None => mret 18
  | Some pkg =>
      match parse_stage_package pkg with
      | None => mret 17
      | Some (image, sig) =>
          v ← expect (Ed25519.verify pub_key image sig);
          if negb (Storaged.is_ok v) then mret 16 else
          ok ← copy_image (Storaged.passes (length image)) image 0 0;
          mret (if ok : bool then 0 else 19)
      end
  end.

Definition main : prog W Z := code ← run; _ ← Userlib.exit code; mret code.

End agent.
End Updated.
