(* ===== verification/UpdatedTheorems.v ===== *)
(** * The update agent: what it promises

    [Windows] is what the agent relies on: the staging window it can read and
    the slot window it can write, as two ranges of sectors addressed from zero
    (the kernel adds the window's base, see [block_io]); [sound] says that no
    transfer inside them fails.  [AgentSim] is a machine with this behaviour. *)

From S2P Require Import Prelude RustStd Sha256 Ed25519 Ed25519Sign Layout LayoutTheorems Prog Userlib Strings StorageText Storaged StorageEnv StorageLoad StorageSim Updated.
Import Layout.

Class Windows (W : Type) `{Abi W} := {
  staged : W -> Z -> list Z;
  target : W -> Z -> list Z;
  target_len : Z;
  sound : W -> Prop;

  law_staged_ok w k : sector_ok (staged w k);

  law_read_staged lba n buf w : 1 <= n <= 8 -> length buf = (Z.to_nat n * SECTOR)%nat ->
    let '(r, buf', w') := raw_full Sys.SYS_BLOCK_READ [Word 0; Word lba; Word n; Out buf; Word 0; Word 0] w in
    length buf' = length buf /\ (rax r = 0 -> buf' = disk_read (staged w) lba n) /\
    (sound w -> 0 <= lba -> lba + n <= STAGING_SECTORS -> rax r = 0);

  law_write_target lba n buf w : 1 <= n <= 8 -> (Z.to_nat n * SECTOR <= length buf)%nat ->
    let '(r, _, w') := raw_full Sys.SYS_BLOCK_WRITE [Word 1; Word lba; Word n; In buf; Word 0; Word 0] w in
    same_except (within lba n) (target w) (target w') /\
    (rax r = 0 -> forall k, within lba n k -> target w' k = slice (Z.to_nat (k - lba) * SECTOR) SECTOR buf) /\
    (sound w -> 0 <= lba -> lba + n <= target_len -> rax r = 0);

  law_staged n args w k : staged (snd (raw_full n args w)) k = staged w k;
  law_target n args w k : n <> Sys.SYS_BLOCK_WRITE -> target (snd (raw_full n args w)) k = target w k;
  law_sound n args w : sound w -> sound (snd (raw_full n args w));
}.

(** The sectors of an image, the last padded with zeros. *)
Definition image_sectors (image : list Z) : Z := Z.of_nat ((length image + SECTOR - 1) / SECTOR).
Definition image_sector (image : list Z) (k : Z) : list Z :=
  slice (Z.to_nat k * SECTOR) SECTOR (image ++ replicate (8 * SECTOR) 0).

Definition authentic (pk pkg image sig : list Z) : Prop :=
  parse_stage_package pkg = Some (image, sig) /\ Ed25519.verify pk image sig = Some (Ok tt).

(** What each exit code says of the package and of the slot, [T] before and
    [T'] after. *)
Inductive verdict (pk pkg : list Z) (fine : Prop) (room : Z) (T T' : Z -> list Z) : Z -> Prop :=
  | unreadable : ~ fine -> same_except nobody T T' -> verdict pk pkg fine room T T' 18
  | absent : parse_stage_package pkg = None -> same_except nobody T T' -> verdict pk pkg fine room T T' 17
  | forged image sig e : parse_stage_package pkg = Some (image, sig) -> Ed25519.verify pk image sig = Some (Err e) ->
      same_except nobody T T' -> verdict pk pkg fine room T T' 16
  | unwritten image sig : authentic pk pkg image sig -> (fine -> room < image_sectors image) ->
      same_except (within 0 (image_sectors image)) T T' -> verdict pk pkg fine room T T' 19
  | applied image sig : authentic pk pkg image sig ->
      (forall k, within 0 (image_sectors image) k -> T' k = image_sector image k) ->
      same_except (within 0 (image_sectors image)) T T' -> verdict pk pkg fine room T T' 0.

#[local] Opaque Ed25519.verify.

Lemma verdict_ext pk pkg fine room T T1 T2 code : (forall k, T2 k = T1 k) ->
  verdict pk pkg fine room T T1 code -> verdict pk pkg fine room T T2 code.
Proof.
  intros HT Hv. assert (Hn : forall X, same_except X T T1 -> same_except X T T2) by (intros X HX k Hk; rewrite HT; by apply HX).
  destruct Hv; [apply unreadable|apply absent|eapply forged|eapply unwritten|eapply applied]; eauto. intros k Hk. rewrite HT. auto.
Qed.

Lemma chunk_padded (image : list Z) pos n : (pos < length image)%nat -> n = Nat.min (length image - pos) (8 * SECTOR) ->
  splice 0 (slice pos n image) (replicate (8 * SECTOR) 0) = slice pos (8 * SECTOR) (image ++ replicate (8 * SECTOR) 0).
Proof.
  intros Hd ->. assert (Hl : length (slice pos (Nat.min (length image - pos) (8 * SECTOR)) image) = Nat.min (length image - pos) (8 * SECTOR)).
  { apply length_slice. lia. }
  unfold splice. rewrite Hl. unfold slice. rewrite take_0, drop_replicate, Nat.add_0_l. cbn [app].
  rewrite drop_app_le, take_app, length_drop by lia. f_equal; [|rewrite take_replicate; f_equal; lia].
  destruct (Nat.le_ge_cases (length image - pos) (8 * SECTOR)).
  - rewrite Nat.min_l, !take_ge by (rewrite ?length_drop; lia). done.
  - by rewrite Nat.min_r by lia.
Qed.

Section agent.
Context {W : Type} `{Windows W} (PUB_KEY_BYTES : list Z).
Let pk := Updated.pub_key PUB_KEY_BYTES.

(** The agent's view of the world: what is staged, what the slot holds. *)
Record sees (S T : Z -> list Z) (fine : Prop) (w : W) : Prop := {
  see_staged : forall k, staged w k = S k;
  see_target : forall k, target w k = T k;
  see_sound : fine -> sound w;
}.

Lemma sees_call S T fine n args w : n <> Sys.SYS_BLOCK_WRITE -> sees S T fine w -> sees S T fine (snd (raw_full n args w)).
Proof.
  intros Hn [H1 H2 H3]. split; intros; [rewrite law_staged|rewrite law_target|apply law_sound]; auto.
Qed.

Lemma wp_read_chunk S T fine lba n buf (Q : result () Z * list Z -> W -> Prop) w : sees S T fine w ->
  1 <= n <= 8 -> length buf = (Z.to_nat n * SECTOR)%nat ->
  (forall r buf' w', sees S T fine w' -> length buf' = length buf -> (Storaged.is_ok r = true -> buf' = disk_read S lba n) ->
     (fine -> 0 <= lba -> lba + n <= STAGING_SECTORS -> Storaged.is_ok r = true) -> Q (r, buf') w') ->
  wp (Userlib.block_read 0 lba n buf) Q w.
Proof.
  intros Hs Hn Hl HQ. unfold Userlib.block_read, Userlib.block_guard.
  rewrite (proj2 (Z.ltb_ge _ _)), (proj2 (Z.ltb_ge _ _)), (proj2 (Z.eqb_neq _ _)) by (unfold SECTOR in *; lia). cbn [orb].
  apply wp_bind. unfold Userlib.trap, wp at 1. pose proof (law_read_staged lba n buf w Hn Hl) as HL. set (args := [_; _; _; _; _; _]) in *.
  pose proof (sees_call S T fine Sys.SYS_BLOCK_READ args w ltac:(discriminate) Hs) as Hs'.
  destruct (raw_full _ args w) as [[r buf'] w']. destruct HL as (L1 & L2 & L3). apply wp_ret. apply HQ; [exact Hs'|exact L1|..]; unfold Userlib.decode.
  - destruct (Z.eqb_spec (rax r) 0) as [E|]; [|done]. intros _. rewrite (L2 E). unfold disk_read. f_equal.
    apply list_fmap_ext. intros i k _. apply (see_staged _ _ _ _ Hs).
  - intros Hf H1 H2. by rewrite (L3 (see_sound _ _ _ _ Hs Hf) H1 H2).
Qed.

Lemma wp_write_chunk S T fine lba n buf (Q : result () Z -> W -> Prop) w : sees S T fine w ->
  1 <= n <= 8 -> (Z.to_nat n * SECTOR <= length buf)%nat ->
  (forall r T' w', sees S T' fine w' -> same_except (within lba n) T T' ->
     (Storaged.is_ok r = true -> forall k, within lba n k -> T' k = slice (Z.to_nat (k - lba) * SECTOR) SECTOR buf) ->
     (fine -> 0 <= lba -> lba + n <= target_len -> Storaged.is_ok r = true) -> Q r w') ->
  wp (Userlib.block_write 1 lba n buf) Q w.
Proof.
  intros Hs Hn Hl HQ. unfold Userlib.block_write, Userlib.block_guard.
  rewrite (proj2 (Z.ltb_ge _ _)), (proj2 (Z.ltb_ge _ _)), (proj2 (Z.eqb_neq _ _)) by (unfold SECTOR in *; lia). cbn [orb].
  apply wp_bind. unfold Userlib.trap, wp at 1. pose proof (law_write_target lba n buf w Hn Hl) as HL. set (args := [_; _; _; _; _; _]) in *.
  pose proof (law_staged Sys.SYS_BLOCK_WRITE args w) as HS. pose proof (law_sound Sys.SYS_BLOCK_WRITE args w) as HF.
  destruct (raw_full _ args w) as [[r buf'] w']. destruct HL as (L1 & L2 & L3). cbn [snd] in *. apply wp_ret. destruct Hs as [S1 S2 S3].
  apply (HQ _ (target w')); [split; [intros k; by rewrite HS|done|auto]|..]; unfold Userlib.decode.
  - intros k Hk. by rewrite L1, S2.
  - destruct (Z.eqb_spec (rax r) 0) as [E|]; [|done]. intros _. by apply L2.
  - intros Hf H1 H2. by rewrite (L3 (S3 Hf) H1 H2).
Qed.

(** Reading: [j] blocks of eight sectors of [c] are in the buffer. *)
Lemma wp_read_package S T fine c fuel : forall j pkg w, sees S T fine w -> (forall k, sector_ok (S k)) ->
  length pkg = (c * (8 * 512))%nat -> (Z.of_nat c * 8 <= STAGING_SECTORS) -> (j <= c)%nat -> (c - j < fuel)%nat ->
  take (j * (8 * 512)) pkg = take (j * (8 * 512)) (disk_read S 0 (Z.of_nat c * 8)) ->
  wp (Updated.read_package fuel (j * (8 * 512)) pkg)
    (fun r w' => sees S T fine w' /\ match r with Some p => p = disk_read S 0 (Z.of_nat c * 8) | None => ~ fine end) w.
Proof.
  induction fuel as [|fuel IH]; intros j pkg w Hs HS Hl Hc Hj Hf Hp; [lia|]. cbn [Updated.read_package]. unfold SECTOR. rewrite Hl.
  assert (HL : length (disk_read S 0 (Z.of_nat c * 8)) = (c * (8 * 512))%nat) by (rewrite length_disk_read by (done || lia); unfold SECTOR; lia).
  destruct (Nat.ltb_spec (j * (8 * 512)) (c * (8 * 512))) as [Hlt|Hge]; cycle 1.
  { apply wp_ret. split; [exact Hs|]. replace j with c in Hp by lia. by rewrite !take_ge in Hp by lia. }
  replace (Nat.min (c * (8 * 512) - j * (8 * 512)) (8 * 512)) with (8 * 512)%nat by lia.
  change (((8 * 512) + 512 - 1) / 512)%nat with 8%nat. replace (j * (8 * 512) / 512)%nat with (j * 8)%nat
    by (replace (j * (8 * 512))%nat with (j * 8 * 512)%nat by lia; by rewrite Nat.div_mul by lia).
  apply wp_bind. eapply wp_read_chunk; [exact Hs|lia|rewrite length_slice by lia; unfold SECTOR; lia|].
  intros r buf w' Hs' Hb Hok Hfine. rewrite length_slice in Hb by lia. destruct (Storaged.is_ok r) eqn:Er; cbn [negb].
  - replace (j * (8 * 512) + (8 * 512))%nat with ((1 + j) * (8 * 512))%nat by lia. apply IH; [exact Hs'|exact HS| |exact Hc|lia|lia|].
    { rewrite length_splice; lia. }
    replace ((1 + j) * (8 * 512))%nat with (j * (8 * 512) + (8 * 512))%nat by lia. pose proof (take_splice (j * (8 * 512)) buf pkg) as Et. rewrite Hb in Et. rewrite Et by lia. rewrite Hp, (Hok eq_refl).
    pose proof (take_disk_read S 0 (Z.of_nat c * 8) (c * (8 * 512)) (Z.of_nat j * 8) 8 (8 * 512) HS ltac:(lia) ltac:(lia) ltac:(lia)) as E.
    replace (Z.to_nat (Z.of_nat j * 8) * SECTOR)%nat with (j * (8 * 512))%nat in E by (unfold SECTOR; lia).
    rewrite (take_ge _ (c * (8 * 512))) in E by (rewrite HL; reflexivity). rewrite E; [f_equal|unfold SECTOR; lia..].
    replace (0 + Z.of_nat j * 8) with (Z.of_nat (j * 8)) by lia. symmetry. apply take_ge.
    rewrite length_disk_read by (done || lia). unfold SECTOR. lia.
  - apply wp_ret. split; [exact Hs'|]. intros Hfi. enough (false = true) by discriminate. apply Hfine; [exact Hfi|lia|lia].
Qed.

(** Copying: the first [8 j] sectors of the image are in the slot. *)
Lemma wp_copy_image S fine T0 image fuel : forall j T w, sees S T fine w ->
  (j * (8 * 512) < length image + (8 * 512))%nat -> (length image <= (j + fuel - 1) * (8 * 512))%nat -> (1 <= fuel)%nat ->
  same_except (within 0 (image_sectors image)) T0 T ->
  (forall k, 0 <= k < Z.min (Z.of_nat j * 8) (image_sectors image) -> T k = image_sector image k) ->
  wp (Updated.copy_image fuel image (Z.of_nat j * 8) (j * (8 * 512)))
    (fun ok w' => exists T', sees S T' fine w' /\ same_except (within 0 (image_sectors image)) T0 T' /\
       if ok : bool then forall k, within 0 (image_sectors image) k -> T' k = image_sector image k
       else fine -> target_len < image_sectors image) w.
Proof.
  induction fuel as [|fuel IH]; intros j T w Hs Hj Hf Hf1 Hsame Hdone; [lia|]. cbn [Updated.copy_image].
  destruct (Nat.ltb_spec (j * (8 * 512)) (length image)) as [Hlt|Hge]; cycle 1.
  { apply wp_ret. exists T. split; [exact Hs|]. split; [exact Hsame|]. intros k Hk. apply Hdone. unfold within, image_sectors, SECTOR in *.
    assert ((length image + 512 - 1) / 512 <= j * 8)%nat by (apply Nat.lt_succ_r, Nat.Div0.div_lt_upper_bound; lia). lia. }
  set (n := Nat.min (length image - j * (8 * 512)) (8 * SECTOR)). set (sectors := ((n + SECTOR - 1) / SECTOR)%nat).
  assert (Hsec : (1 <= sectors <= 8)%nat /\ Z.of_nat j * 8 + Z.of_nat sectors <= image_sectors image /\
    ((n < (8 * 512))%nat -> Z.of_nat j * 8 + Z.of_nat sectors = image_sectors image) /\ (n = (8 * 512)%nat -> sectors = 8%nat)).
  { unfold sectors, n, image_sectors, SECTOR. set (rest := (length image - j * (8 * 512))%nat).
    replace (length image + 512 - 1)%nat with (rest + 512 - 1 + j * 8 * 512)%nat by lia. rewrite Nat.div_add by lia.
    change (8 * 512)%nat with (8 * 512)%nat.
    destruct (Nat.le_ge_cases rest (8 * 512)) as [Hr|Hr].
    - rewrite (Nat.min_l rest) by lia. assert (1 <= (rest + 512 - 1) / 512)%nat by (apply Nat.div_le_lower_bound; lia).
      assert ((rest + 512 - 1) / 512 < 9)%nat by (apply Nat.Div0.div_lt_upper_bound; lia).
      split; [lia|]. split; [lia|]. split; [lia|]. intros ->. done.
    - rewrite (Nat.min_r rest) by lia. change (((8 * 512) + 512 - 1) / 512)%nat with 8%nat.
      assert (8 <= (rest + 512 - 1) / 512)%nat by (apply Nat.div_le_lower_bound; lia). lia. }
  destruct Hsec as (Hsec1 & Hsec2 & Hsec3 & Hsec4).
  apply wp_bind. rewrite (chunk_padded image (j * (8 * 512)) n Hlt eq_refl).
  eapply wp_write_chunk; [exact Hs|lia|rewrite length_slice; [unfold SECTOR; lia|rewrite length_app, length_replicate; lia]|].
  intros r T1 w1 Hs1 Hd1 Hw1 Hr1. assert (Hsame1 : same_except (within 0 (image_sectors image)) T0 T1).
  { eapply same_except_trans; [exact Hsame|]. eapply same_except_weaken; [exact Hd1|]. unfold within. lia. }
  destruct (Storaged.is_ok r) eqn:Er; cbn [negb].
  - assert (Hdone1 : forall k, 0 <= k < Z.of_nat j * 8 + Z.of_nat sectors -> T1 k = image_sector image k).
    { intros k Hk. destruct (Z.lt_ge_cases k (Z.of_nat j * 8)).
      - rewrite Hd1 by (unfold within; lia). apply Hdone. lia.
      - rewrite (Hw1 eq_refl) by (unfold within; lia). rewrite slice_slice by (unfold SECTOR; lia). unfold image_sector. f_equal. unfold SECTOR. lia. }
    destruct (Nat.eq_dec n (8 * 512)%nat) as [En|En].
    + rewrite En, (Hsec4 En). replace (Z.of_nat j * 8 + Z.of_nat 8) with (Z.of_nat (1 + j) * 8) by lia.
      replace (j * (8 * 512) + (8 * 512))%nat with ((1 + j) * (8 * 512))%nat by lia.
      apply (IH _ T1); [exact Hs1|lia|lia| |exact Hsame1|].
      * lia.
      * intros k Hk. apply Hdone1. rewrite (Hsec4 En). lia.
    + assert (Hn : (n < (8 * 512))%nat) by (unfold n, SECTOR in *; lia). destruct fuel as [|fuel]; [lia|]. cbn [Updated.copy_image].
      rewrite (proj2 (Nat.ltb_ge _ _)) by (unfold n, SECTOR in *; lia). apply wp_ret. exists T1. split; [exact Hs1|]. split; [exact Hsame1|].
      intros k Hk. apply Hdone1. unfold within in Hk. rewrite Hsec3 by lia. lia.
  - apply wp_ret. exists T1. split; [exact Hs1|]. split; [exact Hsame1|]. intros Hfi.
    destruct (Z.lt_ge_cases target_len (image_sectors image)); [done|]. enough (false = true) by discriminate. apply Hr1; [exact Hfi|lia|lia].
Qed.

Lemma wp_agent S T fine w : sees S T fine w -> (forall k, sector_ok (S k)) ->
  wp (Updated.main PUB_KEY_BYTES)
    (fun code w' => exists T', sees S T' fine w' /\ verdict pk (disk_read S 0 STAGING_SECTORS) fine target_len T T' code) w.
Proof.
  intros Hs HS. unfold Updated.main. apply wp_bind.
  enough (Hrun : wp (Updated.run PUB_KEY_BYTES) (fun code w' => exists T', sees S T' fine w' /\
     verdict pk (disk_read S 0 STAGING_SECTORS) fine target_len T T' code) w).
  { eapply wp_mono; [exact Hrun|]. intros code w1 (T' & Hs1 & Hv). apply wp_bind. unfold Userlib.exit. apply wp_bind.
    unfold Userlib.trap, wp at 1. set (args := [_; _; _; _; _; _]).
    pose proof (sees_call S T' fine Sys.SYS_EXIT args w1 ltac:(discriminate) Hs1) as Hs2.
    destruct (raw_full _ args w1) as [[r buf] w2]. apply wp_ret, wp_ret. exists T'. split; [exact Hs2|exact Hv]. }
  unfold Updated.run. apply wp_bind. set (pkg0 := replicate _ 0).
  assert (Hl0 : length pkg0 = (32 * (8 * 512))%nat) by (unfold pkg0; rewrite length_replicate; unfold STAGING_SECTORS, SECTOR; lia). clearbody pkg0.
  eapply wp_mono; [apply (wp_read_package S T fine 32 _ 0 pkg0 w Hs HS Hl0); [done|lia| |done]|].
  { rewrite Hl0. unfold Storaged.passes, SECTOR. rewrite Nat.div_mul by lia. lia. }
  change (Z.of_nat 32 * 8) with STAGING_SECTORS. intros [pkg|] w1 [Hs1 Hpkg]; cycle 1.
  { apply wp_ret. exists T. split; [exact Hs1|]. by apply unreadable. }
  subst pkg. set (pkg := disk_read S 0 STAGING_SECTORS). destruct (parse_stage_package pkg) as [[image sig]|] eqn:Ep; cycle 1.
  { apply wp_ret. exists T. split; [exact Hs1|]. by apply absent. }
  assert (Hpkg : bytes_ok pkg) by (by apply disk_read_ok).
  assert (Hsig : bytes_ok sig /\ length sig = 64%nat).
  { unfold parse_stage_package in Ep. destruct (Nat.ltb_spec (length pkg) PKG_IMAGE_OFF); [done|]. cbn [orb] in Ep.
    destruct (_ || _); [done|]. destruct (_ || _); [done|]. injection Ep as _ <-. split; [by apply Forall_take, Forall_drop|].
    apply length_slice. unfold PKG_IMAGE_OFF, PKG_SIG_OFF in *. lia. }
  destruct (Strings.pub_key_ok PUB_KEY_BYTES) as [Hk1 Hk2]. destruct (verify_returns pk image sig Hk1 Hk2 (proj1 Hsig) (proj2 Hsig)) as [v Ev].
  apply wp_bind. eapply wp_expect; [exact Ev|]. destruct v as [[]|e]; cbn [Storaged.is_ok negb]; cycle 1.
  { apply wp_ret. exists T. split; [exact Hs1|]. by eapply forged. }
  apply wp_bind. eapply wp_mono; [apply (wp_copy_image S fine T image _ 0 T w1 Hs1); [lia| |unfold Storaged.passes; lia|apply same_except_refl|intros k Hk; lia]|].
  { unfold Storaged.passes, SECTOR. pose proof (Nat.div_mod (length image) (8 * 512)). pose proof (Nat.mod_upper_bound (length image) (8 * 512)). lia. }
  intros ok w2 (T' & Hs2 & Hsame & Hok). apply wp_ret. exists T'. split; [exact Hs2|]. destruct ok.
  - by eapply applied.
  - by eapply unwritten.
Qed.

(** C22. The update agent returns whatever transfers fail, and its exit code
    says what happened: 0 only when the staged image carries the pinned key's
    signature, and then the slot holds the image, padded with zeros, and
    nothing after it changed; 16 and 17 only for an unsigned and an absent
    package, 18 for a failed read, with the slot untouched; 19 only after a
    failed write or for an image larger than the window. *)
Theorem agent_verdict w : exists code w',
  Updated.main PUB_KEY_BYTES w = Some (code, w') /\ (forall k, staged w' k = staged w k) /\
  verdict pk (disk_read (staged w) 0 STAGING_SECTORS) (sound w) target_len (target w) (target w') code.
Proof.
  pose proof (wp_agent (staged w) (target w) (sound w) w ltac:(done) (law_staged_ok w)) as Hw.
  destruct (proj1 (wp_run _ _ _) Hw) as (code & w' & E & T' & [H1 H2 _] & Hv). exists code, w'. split; [exact E|]. split; [exact H1|].
  eapply verdict_ext; [|exact Hv]. exact H2.
Qed.

End agent.

(** ** A machine for the agent: a staging area, a slot window and a script of
    transfer faults. *)
Module AgentSim.

Record Machine := mkMachine { m_staged : Z -> list Z; m_target : Z -> list Z; m_faults : list bool }.

Definition ROOM : Z := 1000.
Definition status (z : Z) : Ret := mkRet z 0 0 0 0 0 0.
Definition m_sector (m : Machine) : Z -> list Z := sim_sector (mkSim (m_staged m) [] 0 [] [] 0 0 [] 0).
Definition faulty (m : Machine) : bool := match m_faults m with f :: _ => f | [] => false end.
Definition inside (lba n room : Z) : bool := (0 <=? lba) && (lba + n <=? room).

Definition m_call (n : Z) (args : list Arg) (m : Machine) : Ret * list Z * Machine :=
  let m' := mkMachine (m_staged m) (m_target m) (tail (m_faults m)) in
  match args with
  | [Word cap; Word lba; Word count; Out buf; _; _] =>
      if (n =? Sys.SYS_BLOCK_READ) && negb (faulty m) && inside lba count STAGING_SECTORS && (length buf =? Z.to_nat count * SECTOR)%nat
      then (status 0, disk_read (m_sector m) lba count, m') else (status 5, buf, m')
  | [Word cap; Word lba; Word count; In buf; _; _] =>
      if (n =? Sys.SYS_BLOCK_WRITE) && negb (faulty m) && inside lba count ROOM
      then (status 0, [], mkMachine (m_staged m) (disk_write lba count buf (m_target m)) (tail (m_faults m))) else (status 5, [], m')
  | _ => (status 0, [], m)
  end.

Lemma m_call_staged n args m : m_staged (snd (m_call n args m)) = m_staged m.
Proof. unfold m_call. repeat case_match; done. Qed.

Lemma m_call_target n args m : n <> Sys.SYS_BLOCK_WRITE -> m_target (snd (m_call n args m)) = m_target m.
Proof. intros Hn. apply Z.eqb_neq in Hn. unfold m_call. repeat case_match; try done. bool_facts; congruence. Qed.

Lemma m_call_sound n args m : Forall (fun f => f = false) (m_faults m) -> Forall (fun f => f = false) (m_faults (snd (m_call n args m))).
Proof. intros Hf. assert (Forall (fun f => f = false) (tail (m_faults m))) by (by destruct Hf). unfold m_call. repeat case_match; done. Qed.

Lemma faulty_false m : Forall (fun f => f = false) (m_faults m) -> faulty m = false.
Proof. intros Hf. unfold faulty. by destruct Hf. Qed.

End AgentSim.

#[global] Instance agent_abi : Abi AgentSim.Machine := AgentSim.m_call.

#[global] Instance agent_windows : Windows AgentSim.Machine.
Proof.
  refine {| staged := AgentSim.m_sector; target := AgentSim.m_target; target_len := AgentSim.ROOM;
    sound := fun m => Forall (fun f => f = false) (AgentSim.m_faults m) |}.
  - intros m k. apply sim_sector_ok.
  - intros lba n buf m Hn Hl. unfold raw_full, agent_abi, AgentSim.m_call. rewrite Hl, Nat.eqb_refl, andb_true_r.
    change (Sys.SYS_BLOCK_READ =? Sys.SYS_BLOCK_READ) with true. cbn [andb].
    destruct (negb (AgentSim.faulty m) && AgentSim.inside lba n STAGING_SECTORS) eqn:E; cbv iota beta; (split; [|split]); try done.
    + rewrite length_disk_read; [done|intros k; apply sim_sector_ok|lia].
    + intros Hf H1 H2. rewrite AgentSim.faulty_false in E by done. unfold AgentSim.inside in E. cbn [negb andb] in E.
      rewrite (proj2 (Z.leb_le _ _) H1), (proj2 (Z.leb_le _ _) H2) in E. done.
  - intros lba n buf m Hn Hl. unfold raw_full, agent_abi, AgentSim.m_call. change (Sys.SYS_BLOCK_WRITE =? Sys.SYS_BLOCK_WRITE) with true. cbn [andb].
    destruct (negb (AgentSim.faulty m) && AgentSim.inside lba n AgentSim.ROOM) eqn:E; cbv iota beta; (split; [|split]); try done.
    + intros k Hk. cbn. unfold disk_write. destruct (Z.leb_spec lba k), (Z.ltb_spec k (lba + n)); try done. by destruct Hk.
    + intros _ k [H1 H2]. cbn. unfold disk_write. by rewrite (proj2 (Z.leb_le _ _) H1), (proj2 (Z.ltb_lt _ _) H2).
    + intros Hf H1 H2. rewrite AgentSim.faulty_false in E by done. unfold AgentSim.inside in E. cbn [negb andb] in E.
      rewrite (proj2 (Z.leb_le _ _) H1), (proj2 (Z.leb_le _ _) H2) in E. done.
  - intros n args m k. change (snd (raw_full n args m)) with (snd (AgentSim.m_call n args m)). unfold AgentSim.m_sector. by rewrite AgentSim.m_call_staged.
  - intros n args m k Hn. change (snd (raw_full n args m)) with (snd (AgentSim.m_call n args m)). by rewrite AgentSim.m_call_target.
  - intros n args m. apply AgentSim.m_call_sound.
Defined.

(** A failed read ends the agent. *)
Example agent_fault : fst <$> Updated.main [] (AgentSim.mkMachine (fun _ => Storaged.zeros) (fun _ => []) [false; true]) = Some 18.
Proof. vm_compute. reflexivity. Qed.
