(* ===== verification/Initfs.v ===== *)
(** * The init program (servers/initfs/src/main.rs)

    The first user program: it verifies the manifest of the programs built into
    it, launches storage, supervisor and shell, and then serves its endpoint:
    [exec] runs a store program, [app] an installed one fetched from the storage
    service, [fetch] and [chunk] hand store programs to the supervisor.

    The manifest, its signature, the printed public key and the six program
    images are put in by the build: they are parameters.  A function that may
    call [sys::exit] returns [Err code] after that call. *)

From S2P Require Import Prelude RustStd Sha256 Ed25519 Layout Prog Userlib Strings StorageText Storaged.
Import Layout.

Module Initfs.

Record ManifestEntry := mkManifestEntry { me_name : list Z; me_name_len : nat; me_len : Z; me_sha : list Z }.

(** The digest of a line: 32 pairs of hexadecimal digits. *)
Definition hex_sha (hex : list Z) : option (list Z) :=
  mapM (fun i => Strings.u8_from_hex (default (str "zz") (Strings.get hex (i * 2) (i * 2 + 2)))) (seq 0 32).

Definition manifest_entry (line : list Z) : option ManifestEntry :=
  match List.filter (fun p => negb (length p =? 0)%nat) (split_on 32 line) with
  | [name; len; sha] =>
      let n := Nat.min (length name) 16 in
      let hex := default [] (from_utf8 sha) in
      if negb (length hex =? 64)%nat then None else
      sha ← hex_sha hex;
      len ← parse_u64 (default [] (from_utf8 len));
      if (n =? 0)%nat then None else Some (mkManifestEntry (splice 0 (take n name) (replicate 16 0)) n len sha)
  | _ => None
  end.

(** "name len hexdigest" lines after the header line. *)
Definition parse_manifest (m : list Z) : list ManifestEntry := omap manifest_entry (drop 1 (split_on 10 m)).

Definition covers (name elf : list Z) (e : ManifestEntry) : bool :=
  (me_name_len e =? length name)%nat && bytes_eqb (take (me_name_len e) (me_name e)) name &&
  (me_len e =? Z.of_nat (length elf)) && bytes_eqb (me_sha e) (Sha256.sha256 elf).

Section initfs.
Context {W : Type} `{Abi W}.
Context (MANIFEST SIG PUB_HEX HELLO_ELF FAULT_TEST_ELF HEART_ELF SHELL_ELF STORAGED_ELF SUPD_ELF : list Z).

Definition pinned_pubkey : list Z := Strings.hex_key PUB_HEX.

Definition store : list (list Z * list Z) :=
  [(str "hello", HELLO_ELF); (str "fault-test", FAULT_TEST_ELF); (str "heart", HEART_ELF);
   (str "shell", SHELL_ELF); (str "storaged", STORAGED_ELF); (str "supd", SUPD_ELF)].

Definition lookup (name : list Z) : option (list Z) := snd <$> find (fun p => bytes_eqb (fst p) name) store.

Definition say (s : list Z) : prog W () := _ ← Userlib.debug_write s; mret ().
Definition say_num (prefix : list Z) (v : Z) (suffix : list Z) : prog W () := say (Text.push_num prefix v ++ suffix).

(** [sys::exit(code)] *)
Definition quit {A} (code : Z) : prog W (result A Z) := _ ← Userlib.exit code; mret (Err code).

(** ** Step 1: the program store *)
Fixpoint check_store (manifest : list ManifestEntry) (programs : list (list Z * list Z)) : prog W (result () Z) :=
  match programs with
  | [] => mret (Ok ())
  | (name, elf) :: programs =>
      if existsb (covers name elf) manifest then check_store manifest programs else
      _ ← say_num (str "initfs: FATAL store digest mismatch: '") (byte_at 0 name) (str "'" ++ [10]); quit 9
  end.

Definition verify_store : prog W (result () Z) :=
  if negb (length SIG =? 64)%nat then _ ← say (str "initfs: FATAL manifest signature malformed" ++ [10]); quit 9 else
  v ← expect (Ed25519.verify pinned_pubkey MANIFEST SIG);
  if negb (Storaged.is_ok v)
  then _ ← say (str "initfs: FATAL program store FAILED SIGNATURE - refusing" ++ [10]); quit 9 else
  _ ← say (str "initfs: program store signature VERIFIED" ++ [10]);
  check_store (parse_manifest MANIFEST) store.

(** ** Steps 2 to 4: the slots of the first capabilities, then the launches *)
Definition console : Z := 0.
Definition fs : Z := 1.
Definition cfg : Z := 2.
Definition sup : Z := 3.
Definition info : Z := 4.
Definition stdin : Z := 5.

Definition block_present : prog W bool := r ← Userlib.derive_block 6 R_READ 0 1; mret (Storaged.is_ok r).

(** Delegation through a capability without the grant right must fail. *)
Definition grant_demo : prog W (result () Z) :=
  w_only ← Userlib.derive console R_WRITE;
  match w_only with
  | Err e => _ ← say_num (str "initfs: derive failed errno ") e [10]; quit 4
  | Ok slot =>
      r ← Userlib.spawn HELLO_ELF [(slot, R_WRITE)];
      match r with
      | Ok _ => _ ← say (str "initfs: BUG: delegation via non-grant cap succeeded!" ++ [10]); quit 3
      | Err e =>
          _ ← say_num (str "initfs: spawn via non-grant cap DENIED as expected (errno ") e (str ")" ++ [10]);
          mret (Ok ())
      end
  end.

Definition storaged_grants (block : bool) : list (Z * Z) :=
  [(console, R_WRITE); (info, Z.lor R_READ R_WRITE); (cfg, Z.lor R_READ R_WRITE)] ++
  if block then [(6, Z.lor (Z.lor R_READ R_WRITE) R_GRANT)] else [].

Definition supd_grants : list (Z * Z) :=
  [(console, Z.lor R_WRITE R_GRANT); (fs, R_WRITE); (info, Z.lor R_WRITE R_GRANT); (cfg, R_WRITE); (sup, Z.lor R_READ R_WRITE)].

Definition shell_grants : list (Z * Z) :=
  [(console, R_WRITE); (fs, R_WRITE); (info, R_WRITE); (sup, R_WRITE); (stdin, R_WRITE)].

(** One of the two services the system cannot do without. *)
Definition launch_service (elf : list Z) (grants : list (Z * Z)) (failed launched : string) : prog W (result () Z) :=
  r ← Userlib.spawn elf grants;
  match r with
  | Ok _ => _ ← say (str launched ++ [10]); mret (Ok ())
  | Err e => _ ← say_num (str failed) e [10]; quit 5
  end.

Definition launch_shell : prog W () :=
  r ← Userlib.spawn SHELL_ELF shell_grants;
  match r with
  | Ok _ => say (str "initfs: shell launched" ++ [10])
  | Err e => say_num (str "initfs: SHELL SPAWN FAILED errno ") e [10]
  end.

(** [main] up to the service loop: a step that exits ends it. *)
Definition and_then (m k : prog W (result () Z)) : prog W (result () Z) :=
  r ← m; match r with Ok _ => k | Err e => mret (Err e) end.

Definition start : prog W (result () Z) :=
  _ ← say (str "initfs: userspace alive" ++ [10]);
  and_then verify_store (and_then grant_demo (
  block ← block_present;
  and_then (launch_service STORAGED_ELF (storaged_grants block) "initfs: STORAGED SPAWN FAILED errno " "initfs: storaged launched")
  (and_then (launch_service SUPD_ELF supd_grants "initfs: SUPD SPAWN FAILED errno " "initfs: supervisor launched")
  (_ ← launch_shell; mret (Ok ()))))).

(** ** Step 5: the requests *)

Definition fetch_meta (name : list Z) : list Z :=
  match lookup name with
  | None => str "err: no such program '" ++ name ++ str "'"
  | Some elf => Text.push_num (str "len ") (Z.of_nat (length elf))
  end.

(** 38 bytes of a program at an offset, in a 40-byte buffer. *)
Definition handle_chunk (req : list Z) : list Z :=
  match Text.strip_prefix req (str "chunk ") with
  | None => str "err: bad"
  | Some rest =>
      match rposition (fun c => c =? 32) rest with
      | None => str "err: bad"
      | Some sp =>
          let name := Text.trim (take sp rest) in
          match parse_u64 (Text.trim (drop (sp + 1) rest)) with
          | None => str "err: bad offset"
          | Some off =>
              match lookup name with
              | None => str "err: no such program"
              | Some elf =>
                  if Z.of_nat (length elf) <=? off then [] else
                  let off := Z.to_nat off in
                  let stop := Nat.min (off + 38) (length elf) in
                  splice 0 (slice off (stop - off) elf) (replicate 40 0)
              end
          end
      end
  end.

(** The wait for the program just spawned, and the reply. *)
Definition run_program (name : list Z) : prog W (list Z) :=
  match lookup name with
  | None => mret (str "err: no such program '" ++ name ++ str "'")
  | Some elf =>
      r ← Userlib.spawn elf [(console, R_WRITE)];
      match r with
      | Err e => mret (Text.push_num (str "err: spawn failed errno ") e)
      | Ok tid =>
          r ← Userlib.wait;
          mret match r with
               | Ok (done_tid, code) =>
                   if done_tid =? tid then Text.push_num (str "ok: '" ++ name ++ str "' exited ") code
                   else Text.push_num (Text.push_num (str "err: reaped unexpected tid ") done_tid ++ str " code ") code
               | Err e => Text.push_num (str "err: wait failed errno ") e
               end
      end
  end.

(** ** Installed programs *)

(** A reply of the storage service, as text or as forty raw bytes. *)
Definition ask (req : list Z) : prog W (option (list Z)) :=
  r ← Userlib.call info (msg.pack req); mret match r with Ok w => Some w | Err _ => None end.
Definition raw_bytes (words : list Z) : list Z := raw.unpack_all words (replicate 40 0).

Definition parse_app_info (reply : list Z) : option (Z * Z) :=
  match split_on 32 reply with
  | len_word :: len :: ver_word :: version :: _ =>
      if negb (bytes_eqb len_word (str "len")) then None else
      l ← (s ← from_utf8 len; parse_u64 s);
      if negb (bytes_eqb ver_word (str "ver")) then None else
      v ← (s ← from_utf8 version; parse_u64 s);
      Some (l, v)
  | _ => None
  end.

Definition app_info (name : list Z) : prog W (option (Z * Z)) :=
  w ← ask (str "ai " ++ name);
  mret (w ← w; parse_app_info (msg.unpack w)).

Definition app_fixed (prefix name : list Z) (off want : Z) : prog W (option (list Z)) :=
  let req := prefix ++ name in
  let req := if bytes_eqb prefix (str "as ") then Text.push_num (req ++ [32]) off else req in
  w ← ask req;
  mret (w ← w; if 40 <? want then None else Some (raw_bytes w)).

(** The program, forty bytes per call. *)
Fixpoint fetch_elf (fuel : nat) (name : list Z) (len : nat) (elf : list Z) : prog W (option (list Z)) :=
  match fuel with
  | O => panic
  | S fuel =>
      if (length elf <? len)%nat then
        w ← ask (Text.push_num (str "ac " ++ name ++ [32]) (Z.of_nat (length elf)));
        match w with
        | None => mret None
        | Some w => fetch_elf fuel name len (elf ++ take (Nat.min (len - length elf) 40) (raw_bytes w))
        end
      else mret (Some elf)
  end.

(** [run_installed_app] up to the launch: the program, or the reply. *)
Definition load_installed_app (name : list Z) : prog W (result (list Z) (list Z)) :=
  if (length name =? 0)%nat || (APP_NAME_MAX <? length name)%nat then mret (Err (str "err: invalid app")) else
  i ← app_info name;
  match i with
  | None => mret (Err (str "err: no verified app"))
  | Some (len, version) =>
      if (len =? 0) || (APP_STAGE_CAP <? len) then mret (Err (str "err: app bounds")) else
      d ← app_fixed (str "ah ") name 0 32;
      match d with
      | None => mret (Err (str "err: app metadata"))
      | Some d =>
          let digest := take 32 d in
          s1 ← app_fixed (str "as ") name 0 40;
          match s1 with
          | None => mret (Err (str "err: app signature"))
          | Some s1 =>
              s2 ← app_fixed (str "as ") name 40 24;
              match s2 with
              | None => mret (Err (str "err: app signature"))
              | Some s2 =>
                  let sig := take 40 s1 ++ take 24 s2 in
                  elf ← fetch_elf (S (Z.to_nat len)) name (Z.to_nat len) [];
                  match elf with
                  | None => mret (Err (str "err: app fetch"))
                  | Some elf =>
                      if negb (bytes_eqb (Sha256.sha256 elf) digest) then mret (Err (str "err: app digest")) else
                      v ← expect (Ed25519.verify pinned_pubkey (app_signing_message name version len digest) sig);
                      mret (if Storaged.is_ok v then Ok elf else Err (str "err: app signature"))
                  end
              end
          end
      end
  end.

Definition run_installed_app (name : list Z) : prog W (list Z) :=
  loaded ← load_installed_app name;
  match loaded with
  | Err reply => mret reply
  | Ok elf =>
      r ← Userlib.spawn elf [(console, R_WRITE)];
      match r with
      | Err _ => mret (str "err: app spawn")
      | Ok tid =>
          r ← Userlib.wait;
          mret match r with
               | Ok (finished, code) =>
                   if finished =? tid then Text.push_num (str "ok app '" ++ name ++ str "' exited ") code
                   else Text.push_num (str "err: app reaped ") finished
               | Err _ => str "err: app wait"
               end
      end
  end.

Definition dispatch_req (req : list Z) : prog W (list Z) :=
  match Text.strip_prefix req (str "exec ") with
  | Some rest => run_program (Text.trim rest)
  | None =>
  match Text.strip_prefix req (str "app ") with
  | Some rest => run_installed_app (Text.trim rest)
  | None =>
  match Text.strip_prefix req (str "fetch ") with
  | Some rest => mret (fetch_meta (Text.trim rest))
  | None =>
  match Text.strip_prefix req (str "chunk ") with
  | Some _ => mret (handle_chunk req)
  | None => mret (str "err: usage 'exec <name>', 'app <name>', or 'fetch <name>'")
  end end end end.

(** The first [n] rounds of the endless loop. *)
Fixpoint serve (n : nat) : prog W (result () Z) :=
  match n with
  | O => mret (Ok ())
  | S n =>
      r ← Userlib.recv fs;
      match r with
      | Err e => quit e
      | Ok (_, words) =>
          reply ← dispatch_req (msg.unpack words);
          _ ← Userlib.reply fs (msg.pack reply);
          serve n
      end
  end.

(** The program: start-up, then [n] requests. *)
Definition main (n : nat) : prog W (result () Z) := and_then start (serve n).

End initfs.
End Initfs.
