(* ===== verification/Traced.v ===== *)
(** * Programs under observation

    [Traced W] is a world [W] with the list of system calls made so far.  The
    kernel behind it is arbitrary, so what [emits] says of a program holds
    whatever the kernel answers: the program returns, every call it made
    satisfies [P], and its result satisfies [R]. *)

From S2P Require Import Prelude RustStd Prog Userlib.

Definition Event : Type := Z * list Arg.

Record Traced (W : Type) := mkTraced { under : W; events : list Event }.
Arguments mkTraced {W} under events.
Arguments under {W} t.
Arguments events {W} t.

#[global] Instance traced_abi {W} `{Abi W} : Abi (Traced W) := fun n args t =>
  let '(r, buf, w) := raw_full n args (under t) in (r, buf, mkTraced w (events t ++ [(n, args)])).

Section emits.
Context {W : Type} `{Abi W}.

Definition emits {A} (P : Event -> Prop) (m : prog (Traced W) A) (R : A -> Prop) : Prop :=
  forall t, wp m (fun a t' => (exists new, events t' = events t ++ new /\ Forall P new) /\ R a) t.

Lemma emits_ret {A} P (a : A) (R : A -> Prop) : R a -> emits P (mret a) R.
Proof. intros HR t. apply wp_ret. split; [|exact HR]. exists []. by rewrite app_nil_r. Qed.

Lemma emits_bind {A B} P (m : prog (Traced W) A) (k : A -> prog (Traced W) B) (Q : A -> Prop) (R : B -> Prop) :
  emits P m Q -> (forall a, Q a -> emits P (k a) R) -> emits P (m ≫= k) R.
Proof.
  intros Hm Hk t. apply wp_bind. eapply wp_mono; [apply Hm|]. intros a t1 [(n1 & E1 & H1) HQ].
  eapply wp_mono; [apply (Hk a HQ)|]. intros b t2 [(n2 & E2 & H2) HR]. split; [|exact HR].
  exists (n1 ++ n2). rewrite E2, E1, app_assoc. split; [done|by apply Forall_app].
Qed.

(** The usual case: nothing is asked of the intermediate result. *)
Lemma emits_then {A B} P (m : prog (Traced W) A) (k : A -> prog (Traced W) B) (R : B -> Prop) :
  emits P m (fun _ => True) -> (forall a, emits P (k a) R) -> emits P (m ≫= k) R.
Proof. intros Hm Hk. eapply emits_bind; [exact Hm|]. intros a _. apply Hk. Qed.

Lemma emits_mono {A} (P P' : Event -> Prop) (m : prog (Traced W) A) (R R' : A -> Prop) :
  emits P m R -> (forall e, P e -> P' e) -> (forall a, R a -> R' a) -> emits P' m R'.
Proof.
  intros Hm HP HR t. eapply wp_mono; [apply Hm|]. intros a t' [(new & E & Hn) Ha]. split; [|auto].
  exists new. split; [exact E|]. eapply Forall_impl; [exact Hn|done].
Qed.

Lemma emits_weaken {A} P (m : prog (Traced W) A) (R R' : A -> Prop) : emits P m R -> (forall a, R a -> R' a) -> emits P m R'.
Proof. intros Hm HR. by eapply emits_mono. Qed.

Lemma emits_any {A} P (m : prog (Traced W) A) (R : A -> Prop) : emits P m R -> emits P m (fun _ => True).
Proof. intros Hm. by eapply emits_weaken. Qed.

Lemma emits_expect {A} P (o : option A) a (R : A -> Prop) : o = Some a -> R a -> emits P (expect o) R.
Proof. intros -> HR t. unfold wp, expect. split; [|exact HR]. exists []. by rewrite app_nil_r. Qed.

Lemma emits_trap P n args (R : Ret * list Z -> Prop) : P (n, args) -> (forall r, R r) -> emits P (Userlib.trap n args) R.
Proof.
  intros HP HR t. unfold Userlib.trap, wp, raw_full, traced_abi. destruct (raw_full n args (under t)) as [[r buf] w].
  split; [|apply HR]. exists [(n, args)]. split; [done|by constructor].
Qed.

Lemma emits_if {A} P (b : bool) (m1 m2 : prog (Traced W) A) R :
  (b = true -> emits P m1 R) -> (b = false -> emits P m2 R) -> emits P (if b then m1 else m2) R.
Proof. destruct b; auto. Qed.

(** What a run shows. *)
Lemma emits_run {A} P (m : prog (Traced W) A) R w : emits P m R ->
  exists a w' new, m (mkTraced w []) = Some (a, mkTraced w' new) /\ Forall P new /\ R a.
Proof.
  intros Hm. destruct (proj1 (wp_run _ _ _) (Hm (mkTraced w []))) as (a & [w' log] & E & (new & El & Hn) & HR).
  cbn in El. subst. eauto 6.
Qed.

(** No call of this number is made: the calls of the services below. *)
Definition quiet (e : Event) : Prop := fst e <> Sys.SYS_TASK_SPAWN.

End emits.

(** One system call that a caller allows, whatever it returns. *)
Ltac emits_call := unfold Userlib.debug_write, Userlib.exit, Userlib.derive, Userlib.derive_block, Userlib.call, Userlib.recv,
  Userlib.recv_until, Userlib.reply, Userlib.wait, Userlib.try_wait, Userlib.ticks, Userlib.sleep, Userlib.kill, Userlib.spawn,
  Userlib.set_name; cbv zeta;
  eapply emits_bind; [apply (emits_trap _ _ _ (fun _ => True)); [|done]|intros [? ?] _; apply emits_ret].
