(* ===== verification/InitfsTheorems.v ===== *)
(** * The init program: what it promises

    [initfs_launches_verified]: whatever the kernel and the storage service
    answer, every program initfs starts is covered by a signature of the pinned
    key. *)

From S2P Require Import Prelude RustStd Sha256 Ed25519 Ed25519Sign Layout Prog Userlib UserlibTheorems Strings StorageText Storaged StorageEnv StorageLoad StorageServe Traced Initfs.
Import Layout.

#[local] Opaque Ed25519.verify Sha256.sha256.

Section launches.
Context {W : Type} `{Abi W}.
Context (MANIFEST SIG PUB_HEX HELLO FAULT HEART SHELL STORAGED SUPD : list Z).
Hypothesis sig_bytes : bytes_ok SIG.

#[local] Abbreviation pk := (Initfs.pinned_pubkey PUB_HEX).
#[local] Abbreviation store := (Initfs.store HELLO FAULT HEART SHELL STORAGED SUPD).

(** A store program: the manifest is signed and has a line for it. *)
Definition in_store (name elf : list Z) : Prop :=
  (name, elf) ∈ store /\ Ed25519.verify pk MANIFEST SIG = Some (Ok tt) /\
  exists e, e ∈ Initfs.parse_manifest MANIFEST /\ take (Initfs.me_name_len e) (Initfs.me_name e) = name /\
    Initfs.me_len e = Z.of_nat (length elf) /\ Initfs.me_sha e = Sha256.sha256 elf.

(** An installed program: its name, version, length and digest are signed. *)
Definition signed_app (elf : list Z) : Prop :=
  exists name version sig, (0 < length name <= APP_NAME_MAX)%nat /\
    Ed25519.verify pk (app_signing_message name version (Z.of_nat (length elf)) (Sha256.sha256 elf)) sig = Some (Ok tt).

(** The launches the program may make. *)
Inductive launch : list Z -> list (Z * Z) -> Prop :=
  | demo elf slot : in_store (str "hello") elf -> launch elf [(slot, R_WRITE)]
  | storage elf block : in_store (str "storaged") elf -> launch elf (Initfs.storaged_grants block)
  | supervisor elf : in_store (str "supd") elf -> launch elf Initfs.supd_grants
  | shell elf : in_store (str "shell") elf -> launch elf Initfs.shell_grants
  | on_request elf name : in_store name elf -> launch elf [(Initfs.console, R_WRITE)]
  | installed elf : signed_app elf -> launch elf [(Initfs.console, R_WRITE)].

Definition allowed (e : Event) : Prop :=
  fst e = Sys.SYS_TASK_SPAWN -> exists elf grants, launch elf grants /\
    snd e = [In elf; Word (Z.of_nat (length elf)); In (Userlib.spawn_spec grants);
             Word (Z.of_nat (length (Userlib.spawn_spec grants)) / 8); Word 0; Word 0].

Definition verified : Prop := forall name elf, (name, elf) ∈ store -> in_store name elf.

Lemma emits_spawn elf grants (R : result Z Z -> Prop) : launch elf grants -> (forall r, R r) ->
  emits (W := W) allowed (Userlib.spawn elf grants) R.
Proof. intros Hl HR. emits_call; [|apply HR]. intros _. eauto. Qed.

#[local] Ltac quiet := discriminate.
#[local] Ltac call := emits_call; [quiet|done].

Lemma emits_say s : emits (W := W) allowed (Initfs.say s) (fun _ => True).
Proof. eapply emits_then; [call|]. intros _. by apply emits_ret. Qed.

Lemma emits_quit {A} code (R : result A Z -> Prop) : R (Err code) -> emits (W := W) allowed (Initfs.quit code) R.
Proof. intros HR. eapply emits_then; [call|]. intros _. by apply emits_ret. Qed.

#[local] Hint Resolve emits_say emits_quit : core.

Lemma pk_ok : bytes_ok pk /\ length pk = 32%nat.
Proof. apply Strings.hex_key_ok. Qed.

Lemma covers_spec name elf e : Initfs.covers name elf e = true ->
  take (Initfs.me_name_len e) (Initfs.me_name e) = name /\ Initfs.me_len e = Z.of_nat (length elf) /\ Initfs.me_sha e = Sha256.sha256 elf.
Proof. unfold Initfs.covers. intros Hc. bool_facts. rewrite !bytes_eqb_eq in *. auto. Qed.

(** Checking the store: an [Ok] means that every program has its line. *)
Lemma emits_check_store manifest programs : manifest = Initfs.parse_manifest MANIFEST ->
  emits (W := W) allowed (Initfs.check_store manifest programs)
    (fun r => r = Ok () -> forall name elf, (name, elf) ∈ programs -> exists e, e ∈ manifest /\ Initfs.covers name elf e = true).
Proof.
  intros ->. induction programs as [|[name elf] programs IH]; cbn [Initfs.check_store].
  { apply emits_ret. intros _ name elf Hin. by apply elem_of_nil in Hin. }
  apply emits_if; intros E.
  - eapply emits_weaken; [apply IH|]. intros r Hr Er name' elf' [[= -> ->]|Hin]%elem_of_cons; [|by apply Hr].
    apply existsb_exists in E as (e & He & Hc). exists e. split; [by apply list_elem_of_In|exact Hc].
  - eapply emits_then; [apply emits_say|]. intros _. by apply emits_quit.
Qed.

Lemma emits_verify_store : emits (W := W) allowed (Initfs.verify_store MANIFEST SIG PUB_HEX HELLO FAULT HEART SHELL STORAGED SUPD)
  (fun r => r = Ok () -> verified).
Proof.
  unfold Initfs.verify_store. apply emits_if; intros El.
  { eapply emits_then; [apply emits_say|]. intros _. by apply emits_quit. }
  apply negb_false_iff, Nat.eqb_eq in El. destruct pk_ok as [Hk1 Hk2].
  destruct (verify_returns pk MANIFEST SIG Hk1 Hk2 sig_bytes El) as [v Ev].
  eapply emits_bind; [eapply (emits_expect _ _ v (fun v' => v' = v)); [exact Ev|done]|]. intros v' ->.
  apply emits_if; intros Ev'.
  { eapply emits_then; [apply emits_say|]. intros _. by apply emits_quit. }
  destruct v as [[]|]; [|done]. eapply emits_then; [apply emits_say|]. intros _.
  eapply emits_weaken; [by apply emits_check_store|]. intros r Hr Er name elf Hin. split; [exact Hin|]. split; [exact Ev|].
  destruct (Hr Er name elf Hin) as (e & He & Hc). exists e. split; [exact He|by apply covers_spec].
Qed.

Lemma emits_and_then (m k : prog (Traced W) (result () Z)) (Q : Prop) (R : result () Z -> Prop) :
  emits allowed m (fun r => r = Ok () -> Q) -> (Q -> emits allowed k R) -> (forall e, R (Err e)) ->
  emits allowed (Initfs.and_then m k) R.
Proof.
  intros Hm Hk HR. eapply emits_bind; [exact Hm|]. intros [[]|e] Hr; [by apply Hk, Hr|by apply emits_ret].
Qed.

Lemma in_program name elf : verified -> (name, elf) ∈ store -> in_store name elf.
Proof. intros Hv. apply Hv. Qed.

Lemma lookup_store name elf : Initfs.lookup HELLO FAULT HEART SHELL STORAGED SUPD name = Some elf -> (name, elf) ∈ store.
Proof.
  unfold Initfs.lookup. destruct (find _ _) as [[n e]|] eqn:E; [|done]. intros [= <-].
  apply find_some in E as [Hin En]. apply bytes_eqb_eq in En. cbn in En. subst n. by apply list_elem_of_In.
Qed.

Lemma emits_launch_service elf grants failed launched : launch elf grants ->
  emits (W := W) allowed (Initfs.launch_service elf grants failed launched) (fun r => r = Ok () -> True).
Proof.
  intros Hl. eapply emits_then; [by apply emits_spawn|]. intros [t|e].
  - eapply emits_then; [apply emits_say|]. intros _. by apply emits_ret.
  - eapply emits_then; [apply emits_say|]. intros _. by apply emits_quit.
Qed.

Lemma emits_grant_demo : verified ->
  emits (W := W) allowed (Initfs.grant_demo HELLO) (fun r => r = Ok () -> True).
Proof.
  intros Hv. unfold Initfs.grant_demo. eapply emits_then; [call|]. intros [slot|e].
  - eapply emits_then; [apply emits_spawn; [|done]; apply demo, Hv, list_elem_of_here|]. intros [t|e].
    + eapply emits_then; [apply emits_say|]. intros _. by apply emits_quit.
    + eapply emits_then; [apply emits_say|]. intros _. by apply emits_ret.
  - eapply emits_then; [apply emits_say|]. intros _. by apply emits_quit.
Qed.

Lemma emits_start : emits (W := W) allowed (Initfs.start MANIFEST SIG PUB_HEX HELLO FAULT HEART SHELL STORAGED SUPD)
  (fun r => r = Ok () -> verified).
Proof.
  unfold Initfs.start. eapply emits_then; [apply emits_say|]. intros _.
  eapply emits_and_then; [apply emits_verify_store| |done]. intros Hv.
  eapply emits_and_then; [by apply emits_grant_demo| |done]. intros _.
  eapply emits_then; [unfold Initfs.block_present; eapply emits_then; [call|]; intros r; by apply emits_ret|]. intros block.
  eapply emits_and_then; [apply emits_launch_service; apply storage, Hv; set_solver| |done]. intros _.
  eapply emits_and_then; [apply emits_launch_service; apply supervisor, Hv; set_solver| |done]. intros _.
  eapply emits_then; [|intros _; by apply emits_ret]. unfold Initfs.launch_shell.
  eapply emits_then; [apply emits_spawn; [apply shell, Hv; set_solver|done]|]. intros [t|e]; apply emits_say.
Qed.

(** ** Requests *)

Lemma emits_ask req : emits (W := W) allowed (Initfs.ask req) (fun _ => True).
Proof. unfold Initfs.ask. eapply emits_then; [call|]. intros r. by apply emits_ret. Qed.

Lemma raw_bytes_ok words : bytes_ok (Initfs.raw_bytes words) /\ length (Initfs.raw_bytes words) = 40%nat.
Proof.
  unfold Initfs.raw_bytes, raw.unpack_all. set (out := replicate 40 0). assert (Ho : bytes_ok out /\ length out = 40%nat).
  { split; [|done]. apply Forall_replicate. done. }
  clearbody out. destruct Ho as [Hb Hl]. rewrite Hl. change (Nat.min 40 40 mod 8)%nat with 0%nat. change (Nat.min 40 40 / 8)%nat with 5%nat.
  cbn [Nat.ltb Nat.leb]. assert (Hi : forall i, i ∈ seq 0 5 -> (i < 5)%nat) by (intros i; rewrite elem_of_seq; lia).
  revert Hi. generalize (seq 0 5) as l. intros l. revert out Hb Hl. induction l as [|i l IH]; intros out Hb Hl Hi; [done|].
  cbn [foldl]. apply IH; [| |intros j Hj; apply Hi; by apply list_elem_of_further].
  - unfold raw.unpack_word. apply splice_ok; [apply to_le_bytes_ok|exact Hb].
  - unfold raw.unpack_word. rewrite length_splice; [exact Hl|]. rewrite length_to_le_bytes, Hl. specialize (Hi i (list_elem_of_here _ _)). lia.
Qed.

Lemma emits_app_fixed prefix name off want : emits (W := W) allowed (Initfs.app_fixed prefix name off want)
  (fun r => from_option (fun b => bytes_ok b /\ length b = 40%nat) True r).
Proof.
  unfold Initfs.app_fixed. cbv zeta. eapply emits_then; [apply emits_ask|]. intros [w|]; apply emits_ret; [|done].
  cbn. case_match; [done|]. apply raw_bytes_ok.
Qed.

Lemma emits_fetch_elf fuel name len : forall elf, (len < length elf + fuel)%nat -> (length elf <= len)%nat ->
  emits (W := W) allowed (Initfs.fetch_elf fuel name len elf) (fun r => from_option (fun e => length e = len) True r).
Proof.
  induction fuel as [|fuel IH]; intros elf Hf Hl; [lia|]. cbn [Initfs.fetch_elf]. apply emits_if; intros E; bool_facts.
  - eapply emits_then; [apply emits_ask|]. intros [w|]; [|by apply emits_ret].
    assert (Ht : length (take (Nat.min (len - length elf) 40) (Initfs.raw_bytes w)) = Nat.min (len - length elf) 40)
      by (rewrite length_take, (proj2 (raw_bytes_ok w)); lia).
    apply Nat.ltb_lt in E. apply IH; rewrite length_app, Ht; lia.
  - apply Nat.ltb_ge in E. apply emits_ret. cbn. lia.
Qed.

Lemma parse_app_info_nonneg reply l v : Initfs.parse_app_info reply = Some (l, v) -> 0 <= l.
Proof.
  unfold Initfs.parse_app_info. destruct (split_on _ _) as [|a [|b [|c [|d rest]]]]; try done.
  destruct (negb _); [done|]. intros (l' & (s & _ & Hl)%bind_Some & Hr)%bind_Some.
  destruct (negb _); [done|]. apply bind_Some in Hr as (v' & _ & [= <- <-]). by eapply parse_u64_nonneg.
Qed.

Lemma emits_app_info name : emits (W := W) allowed (Initfs.app_info name) (fun r => from_option (fun i => 0 <= fst i) True r).
Proof.
  unfold Initfs.app_info. eapply emits_then; [apply emits_ask|]. intros [w|]; apply emits_ret; [|done]. cbn.
  destruct (Initfs.parse_app_info _) as [[l v]|] eqn:E; [|done]. by apply parse_app_info_nonneg in E.
Qed.

Lemma emits_load_installed_app name : emits (W := W) allowed (Initfs.load_installed_app PUB_HEX name)
  (fun r => match r with Ok elf => signed_app elf | Err _ => True end).
Proof.
  unfold Initfs.load_installed_app. apply emits_if; intros En; [by apply emits_ret|]. bool_facts.
  apply Nat.eqb_neq in H0. apply Nat.ltb_ge in H1.
  eapply emits_bind; [apply emits_app_info|]. intros [[len version]|] Hi; [|by apply emits_ret]. cbn in Hi. apply emits_if; intros Elen; [by apply emits_ret|].
  eapply emits_bind; [apply emits_app_fixed|]. intros [d|] Hd; [|by apply emits_ret].
  eapply emits_bind; [apply emits_app_fixed|]. intros [s1|] Hs1; [|by apply emits_ret].
  eapply emits_bind; [apply emits_app_fixed|]. intros [s2|] Hs2; [|by apply emits_ret].
  destruct Hs1 as [Hb1 Hl1], Hs2 as [Hb2 Hl2].
  eapply emits_bind; [apply emits_fetch_elf; cbn [length]; lia|]. intros [elf|] Helf; [|by apply emits_ret]. cbn in Helf.
  apply emits_if; intros Edig; [by apply emits_ret|]. apply negb_false_iff, bytes_eqb_eq in Edig.
  destruct pk_ok as [Hk1 Hk2].
  destruct (verify_returns pk (app_signing_message name version len (take 32 d)) (take 40 s1 ++ take 24 s2) Hk1 Hk2) as [v Ev].
  { apply Forall_app. split; by apply Forall_take. }
  { rewrite length_app, !length_take. lia. }
  eapply emits_bind; [eapply (emits_expect _ _ v (fun v' => v' = v)); [exact Ev|done]|]. intros v' ->.
  apply emits_ret. destruct v as [[]|]; [|done]. cbn [Storaged.is_ok]. exists name, version, (take 40 s1 ++ take 24 s2).
  split; [lia|]. rewrite Edig, Helf, Z2Nat.id by lia. exact Ev.
Qed.
(** A launch on request, and the wait for it. *)
Lemma emits_run_program name : verified ->
  emits (W := W) allowed (Initfs.run_program HELLO FAULT HEART SHELL STORAGED SUPD name) (fun _ => True).
Proof.
  intros Hv. unfold Initfs.run_program. destruct (Initfs.lookup _ _ _ _ _ _ _) as [elf|] eqn:E; [|by apply emits_ret].
  eapply emits_then; [apply emits_spawn; [apply (on_request _ name), Hv, lookup_store, E|done]|]. intros [t|e]; [|by apply emits_ret].
  eapply emits_then; [call|]. intros r. by apply emits_ret.
Qed.

Lemma emits_run_installed_app name : emits (W := W) allowed (Initfs.run_installed_app PUB_HEX name) (fun _ => True).
Proof.
  unfold Initfs.run_installed_app. eapply emits_bind; [apply emits_load_installed_app|]. intros [elf|reply] Hl; [|by apply emits_ret].
  eapply emits_then; [apply emits_spawn; [by apply installed|done]|]. intros [t|e]; [|by apply emits_ret].
  eapply emits_then; [call|]. intros r. by apply emits_ret.
Qed.

Lemma emits_dispatch req : verified ->
  emits (W := W) allowed (Initfs.dispatch_req PUB_HEX HELLO FAULT HEART SHELL STORAGED SUPD req) (fun _ => True).
Proof.
  intros Hv. unfold Initfs.dispatch_req. repeat (case_match; [first [by apply emits_run_program|apply emits_run_installed_app|by apply emits_ret]|]).
  by apply emits_ret.
Qed.

Lemma emits_serve n : verified ->
  emits (W := W) allowed (Initfs.serve PUB_HEX HELLO FAULT HEART SHELL STORAGED SUPD n) (fun _ => True).
Proof.
  intros Hv. induction n as [|n IH]; cbn [Initfs.serve]; [by apply emits_ret|].
  eapply emits_then; [call|]. intros [[caller words]|e]; [|by apply emits_quit].
  eapply emits_then; [by apply emits_dispatch|]. intros reply. eapply emits_then; [call|]. intros _. exact IH.
Qed.

(** C23. Whatever the kernel and the storage service answer, initfs returns from
    every step without a panic, and each program it starts is the image it was
    built with for that role, under a manifest the pinned key signed and with a
    line for its exact bytes, or an installed program whose name, version,
    length and digest that key signed; every launch hands over exactly the
    capabilities of its role, and requested programs get the console only.
    Before the manifest is verified nothing is started. *)
Theorem initfs_launches_verified n (w : W) : exists r w' calls,
  Initfs.main MANIFEST SIG PUB_HEX HELLO FAULT HEART SHELL STORAGED SUPD n (mkTraced w []) = Some (r, mkTraced w' calls) /\
  Forall allowed calls.
Proof.
  pose proof emits_start as Hs. assert (Hm : emits (W := W) allowed (Initfs.main MANIFEST SIG PUB_HEX HELLO FAULT HEART SHELL STORAGED SUPD n) (fun _ => True)).
  { unfold Initfs.main. eapply emits_and_then; [exact Hs| |done]. apply emits_serve. }
  destruct (emits_run _ _ _ w Hm) as (r & w1 & calls & Erun & Hc & _). eauto 6.
Qed.

End launches.

(** A kernel that answers every call with the same status. *)
#[local] Instance constant_abi : Abi Z := fun n args z => (mkRet z 0 0 0 0 0 0, [], z).

Lemma initfs_launches_verified_witness : exists r w' calls,
  Initfs.main [] (replicate 64 0) [] [] [] [] [] [] [] 2 (mkTraced 0 []) = Some (r, mkTraced w' calls) /\
  Forall (allowed [] (replicate 64 0) [] [] [] [] [] [] []) calls.
Proof. apply (initfs_launches_verified (W := Z)). apply Forall_replicate. done. Defined.
