(* ===== verification/Supd.v ===== *)
(** * The application supervisor (servers/supd/src/main.rs)

    The table of services comes from the storage service's roster; children are
    fetched from initfs, spawned, reaped, restarted after a delay, and started
    and stopped by an operator.  The state is the table; the endless loop is
    [supervise n], its first [n] passes. *)

From S2P Require Import Prelude RustStd Prog Userlib Strings StorageText Storaged.

Module Supd.

Definition MAX_SERVICES : Z := 6.
Definition BASE_BACKOFF_TICKS : Z := 20.
Definition MAX_BACKOFF_TICKS : Z := 1600.

Inductive SvcState := Stopped | Running (tid : Z) | Waiting (at_ : Z) | Failed.

Record Service := mkService {
  sv_name : list Z; sv_autostart : bool; sv_restart : bool; sv_state : SvcState; sv_failures : Z; sv_restarts : Z;
}.

Definition set_state v s := mkService (sv_name s) (sv_autostart s) (sv_restart s) v (sv_failures s) (sv_restarts s).
Definition set_restart v s := mkService (sv_name s) (sv_autostart s) v (sv_state s) (sv_failures s) (sv_restarts s).
Definition set_failures v s := mkService (sv_name s) (sv_autostart s) (sv_restart s) (sv_state s) v (sv_restarts s).
Definition set_restarts v s := mkService (sv_name s) (sv_autostart s) (sv_restart s) (sv_state s) (sv_failures s) v.

Definition runs (tid : Z) (s : Service) : bool := match sv_state s with Running r => r =? tid | _ => false end.

Section supd.
Context {W : Type} `{Abi W}.

(** The services and the world. *)
Record Sup := mkSup { su_services : list Service; su_env : W }.
Abbreviation M := (prog Sup).

Definition sys {A} (m : prog W A) : M A := zoom su_env (fun w d => mkSup (su_services d) w) m.
Definition services : M (list Service) := gets su_services.
Definition put (l : list Service) : M () := modify (fun d => mkSup l (su_env d)).
(** [services[i]], which panics out of range, and an update of it. *)
Definition service (i : nat) : M Service := l ← services; expect (l !! i).
Definition change (i : nat) (f : Service -> Service) : M () := modify (fun d => mkSup (alter f i (su_services d)) (su_env d)).

(** The slots of the capabilities. *)
Definition console : Z := 0.
Definition fs : Z := 1.
Definition query : Z := 2.
Definition config : Z := 3.
Definition sup : Z := 4.

Definition say (s : list Z) : M () := _ ← sys (Userlib.print_split console s); mret ().

(** ** The roster *)
Definition roster_line (line : list Z) : option Service :=
  match List.filter (fun p => negb (length p =? 0)%nat) (split_on 32 line) with
  | name :: autostart :: restart :: _ =>
      Some (mkService (default (str "?") (from_utf8 name)) (bytes_eqb autostart (str "autostart"))
              (bytes_eqb restart (str "restart")) Stopped 0 0)
  | _ => None
  end.

Fixpoint load_lines (ids : list Z) : M () :=
  match ids with
  | [] => mret ()
  | i :: ids =>
      r ← sys (Userlib.call query (msg.pack (Text.push_num (str "roster ") i)));
      _ ← match r with
          | Ok w => match roster_line (msg.unpack w) with Some s => l ← services; put (l ++ [s]) | None => mret () end
          | Err _ => mret ()
          end;
      load_lines ids
  end.

(** [s.trim().parse::<usize>()] of a reply, zero when it is no number. *)
Definition count_reply (w : list Z) : Z := default 0 (s ← from_utf8 (msg.unpack w); parse_u64 (Strings.trim s)).

Definition load_roster : M () :=
  r ← sys (Userlib.call query (msg.pack (str "roster-count")));
  let count := match r with Ok w => count_reply w | Err _ => 0 end in
  load_lines (seqZ 0 (Z.min count MAX_SERVICES)).

Definition find_service (l : list Service) (name : list Z) : option nat := position (fun s => bytes_eqb (sv_name s) name) l.

(** ** Fetching and spawning *)
Fixpoint fetch_chunks (fuel : nat) (name : list Z) (len : nat) (buf : list Z) : prog W (result (list Z) Z) :=
  match fuel with
  | O => panic
  | S fuel =>
      if (length buf <? len)%nat then
        r ← Userlib.call fs (msg.pack (Text.push_num (str "chunk " ++ name ++ [32]) (Z.of_nat (length buf))));
        match r with
        | Err e => mret (Err e)
        | Ok words =>
            let n := Nat.min (len - length buf) 38 in
            fetch_chunks fuel name len (buf ++ take n (raw.unpack_all words (replicate 40 0)))
        end
      else mret (Ok buf)
  end.

Definition fetch_len (text : list Z) : option Z :=
  r ← Text.strip_prefix text (str "len ");
  s ← from_utf8 r;
  parse_u64 (Strings.trim s).

Definition fetch_program (name : list Z) : prog W (result (list Z) Z) :=
  r ← Userlib.call fs (msg.pack (str "fetch " ++ name));
  match r with
  | Err e => mret (Err e)
  | Ok reply =>
      match fetch_len (msg.unpack reply) with
      | None => mret (Err 17)
      | Some len =>
          if 1024 * 1024 <? len then mret (Err 17) else fetch_chunks (S (Z.to_nat len)) name (Z.to_nat len) []
      end
  end.

(** Best-effort record in the audit log. *)
Definition audit (head tail : list Z) : M () :=
  _ ← sys (Userlib.call query (msg.pack (take 38 (str "log " ++ head ++ tail)))); mret ().

Definition service_grants : list (Z * Z) := [(0, R_WRITE); (2, R_WRITE)].

Definition spawn_service (idx : nat) : M bool :=
  s ← service idx;
  let name := sv_name s in
  elf ← sys (fetch_program name);
  match elf with
  | Err e => _ ← say (Text.push_num (str "[supd] fetch '" ++ name ++ str "' errno ") e ++ [10]); mret false
  | Ok elf =>
      r ← sys (Userlib.spawn elf service_grants);
      match r with
      | Ok tid =>
          _ ← change idx (fun s => set_failures 0 (set_state (Running tid) s));
          _ ← audit (str "svc-start " ++ name) [];
          mret true
      | Err _ => _ ← change idx (set_state Failed); mret false
      end
  end.

(** ** The supervision loop *)

(** An exited child: every service that runs it stops and counts a failure;
    the index kept is the last one. *)
Definition stop_exited (tid : Z) (s : Service) : Service :=
  if runs tid s then set_failures (wrap 32 (sv_failures s + 1)) (set_state Stopped s) else s.

Definition last_running (tid : Z) (l : list Service) : option nat := rposition (runs tid) l.

Definition backoff (failures : Z) : Z := Z.min (Z.shiftl BASE_BACKOFF_TICKS (Z.min failures 7)) MAX_BACKOFF_TICKS.

Definition exited (tid code : Z) : M () :=
  l ← services;
  let idx := last_running tid l in
  _ ← put (stop_exited tid <$> l);
  match idx with
  | Some i =>
      s ← service i;
      _ ← (if sv_restart s && (sv_failures s <=? 5)
           then now ← sys Userlib.ticks; change i (set_state (Waiting (wrap 64 (now + backoff (sv_failures s)))))
           else change i (set_state Failed));
      audit (Text.push_num (str "svc-exit " ++ sv_name s ++ str " code ") code) []
  | None => audit (Text.push_num (str "unknown-child ") tid) []
  end.

(** [while let Ok(Some(..)) = try_wait()]: the fuel is the number of children
    that can be waiting. *)
Fixpoint reap (fuel : nat) : M () :=
  match fuel with
  | O => panic
  | S fuel =>
      r ← sys Userlib.try_wait;
      match r with
      | Ok (Some (tid, code)) => _ ← exited tid code; reap fuel
      | _ => mret ()
      end
  end.

(** Respawning what is due: the earliest later deadline. *)
Fixpoint respawn (ids : list nat) (now next_deadline : Z) : M Z :=
  match ids with
  | [] => mret next_deadline
  | i :: ids =>
      s ← service i;
      match sv_state s with
      | Waiting at_ =>
          if at_ <=? now then
            _ ← spawn_service i;
            _ ← change i (fun s => set_restarts (wrap 64 (sv_restarts s + 1)) s);
            respawn ids now next_deadline
          else respawn ids now (Z.min next_deadline at_)
      | _ => respawn ids now next_deadline
      end
  end.

(** ** Operator requests *)

Definition stop_running (tid : Z) (s : Service) : Service := if runs tid s then set_state Stopped s else s.
Definition collect (tid : Z) : M () := l ← services; put (stop_running tid <$> l).

(** Reap one child right after a kill, after a pause if none is there yet. *)
Definition drain_one : M () :=
  r ← sys Userlib.try_wait;
  match r with
  | Ok (Some (tid, _)) => collect tid
  | _ =>
      _ ← sys (Userlib.sleep 2);
      r ← sys Userlib.try_wait;
      match r with Ok (Some (tid, _)) => collect tid | _ => mret () end
  end.

Definition status_line (s : Service) : list Z :=
  let state := match sv_state s with
               | Running _ => str "running" | Stopped => str "stopped" | Waiting _ => str "backoff" | Failed => str "FAILED"
               end in
  Text.push_num (Text.push_num (sv_name s ++ [32] ++ state ++ str " r=") (sv_restarts s) ++ str " f=") (sv_failures s).

Definition op_status (rest : list Z) : M (list Z) :=
  l ← services;
  let idx := default u64_max (parse_u64 (Text.trim rest)) in
  mret match (if idx <? Z.of_nat (length l) then l !! Z.to_nat idx else None) with
       | Some s => status_line s
       | None => str "err: range"
       end.

Definition op_restart (rest : list Z) : M (list Z) :=
  l ← services;
  match find_service l (Text.trim rest) with
  | None => mret (str "err: unknown")
  | Some idx =>
      s ← service idx;
      match sv_state s with
      | Running tid =>
          _ ← sys (Userlib.kill tid);
          now ← sys Userlib.ticks;
          _ ← change idx (fun s => set_state (Waiting (wrap 64 (now + 1))) (set_failures 0 (set_restart true s)));
          _ ← drain_one;
          mret (str "ok restarting")
      | _ =>
          _ ← change idx (fun s => set_restart true (set_failures 0 s));
          ok ← spawn_service idx;
          mret (if ok : bool then str "ok started" else str "err: spawn failed")
      end
  end.

Definition op_stop (rest : list Z) : M (list Z) :=
  l ← services;
  match find_service l (Text.trim rest) with
  | None => mret (str "err: unknown")
  | Some idx =>
      s ← service idx;
      match sv_state s with
      | Running tid =>
          _ ← change idx (set_restart false);
          _ ← sys (Userlib.kill tid);
          _ ← drain_one;
          mret (str "ok stopping")
      | _ => _ ← change idx (set_restart false); mret (str "ok already-down")
      end
  end.

Definition op_start (rest : list Z) : M (list Z) :=
  l ← services;
  match find_service l (Text.trim rest) with
  | None => mret (str "err: unknown")
  | Some idx =>
      _ ← change idx (fun s => set_failures 0 (set_restart true s));
      s ← service idx;
      match sv_state s with
      | Running _ => mret (str "ok already-up")
      | _ => ok ← spawn_service idx; mret (if ok : bool then str "ok started" else str "err: spawn failed")
      end
  end.

(** A request passed on to the storage service. *)
Definition forward (req : list Z) : M (list Z) :=
  r ← sys (Userlib.call config (msg.pack req));
  mret match r with Ok w => msg.unpack w | Err e => Text.push_num (str "err: storage ") e end.

Definition handle_op (req : list Z) : M (list Z) :=
  if bytes_eqb req (str "status-count") then l ← services; mret (Text.push_num [] (Z.of_nat (length l))) else
  match Text.strip_prefix req (str "status ") with
  | Some rest => op_status rest
  | None =>
  match Text.strip_prefix req (str "restart ") with
  | Some rest => op_restart rest
  | None =>
  match Text.strip_prefix req (str "stop ") with
  | Some rest => op_stop rest
  | None =>
  match Text.strip_prefix req (str "start ") with
  | Some rest => op_start rest
  | None =>
      if bytes_eqb req (str "update") then forward (str "begin-update") else
      if bytes_eqb req (str "install-app") || Storaged.is_some (Text.strip_prefix req (str "remove-app ")) then forward req else
      mret (str "err: op?")
  end end end end.

(** ** One pass of the loop; [Err] is the exit of the process. *)
Definition pass (fuel : nat) : M (result () Z) :=
  _ ← reap fuel;
  now ← sys Userlib.ticks;
  l ← services;
  next_deadline ← respawn (seq 0 (length l)) now u64_max;
  let deadline := Z.min next_deadline (wrap 64 (now + 200)) in
  r ← sys (Userlib.recv_until sup (Z.max deadline (wrap 64 (now + 1))));
  match r with
  | Ok (_, words) =>
      reply ← handle_op (msg.unpack words);
      _ ← sys (Userlib.reply sup (msg.pack reply));
      mret (Ok ())
  | Err e => if e =? 10 then mret (Ok ()) else _ ← sys (Userlib.exit e); mret (Err e)
  end.

Fixpoint supervise (fuel n : nat) : M (result () Z) :=
  match n with
  | O => mret (Ok ())
  | S n => r ← pass fuel; match r with Ok _ => supervise fuel n | Err e => mret (Err e) end
  end.

Fixpoint autostart (ids : list nat) : M () :=
  match ids with
  | [] => mret ()
  | i :: ids => s ← service i; _ ← (if sv_autostart s then _ ← spawn_service i; mret () else mret ()); autostart ids
  end.

(** [main], with [n] passes of the loop. *)
Definition main (fuel n : nat) : M (result () Z) :=
  _ ← sys (Userlib.set_name (str "supd"));
  _ ← say (str "[supd] starting" ++ [10]);
  _ ← load_roster;
  l ← services;
  _ ← autostart (seq 0 (length l));
  supervise fuel n.

End supd.
End Supd.
