(* ===== verification/SupdTheorems.v ===== *)
(** * The supervisor: what it relies on and what it promises

    [Children] is what the supervisor relies on: the kernel reports each ended
    child once, holds a bounded number of them, never reuses a task id, and a
    child that was killed or reported is not alive.  [mild] programs start no
    task and wait for none.  [ChildSim] is a kernel with this
    behaviour. *)

From S2P Require Import Prelude RustStd Prog Userlib UserlibTheorems Strings StorageText Storaged Supd.

(** A kernel has stacks for this many tasks over its life (see [alloc_kernel_stack] of task.rs). *)
Definition MAX_CHILDREN : nat := Z.to_nat 4095.
Definition REAP_FUEL : nat := S MAX_CHILDREN.

Class Children (W : Type) `{Abi W} := {
  unreaped : W -> nat;        (* children not yet reported *)
  next_id : W -> Z;
  alive : W -> Z -> Prop;     (* children that have not ended *)
  reported : W -> Z -> Prop;  (* children whose end a wait has returned *)
  law_bound w : (unreaped w <= MAX_CHILDREN)%nat;
  law_reap args w : let '(r, _, w') := raw_full Sys.SYS_WAIT args w in rax r = 0 -> (unreaped w' < unreaped w)%nat;
  law_steady n args w : n <> Sys.SYS_TASK_SPAWN -> (unreaped (snd (raw_full n args w)) <= unreaped w)%nat;
  law_next n args w : next_id w <= next_id (snd (raw_full n args w));
  law_spawn args w : let '(r, _, w') := raw_full Sys.SYS_TASK_SPAWN args w in rax r = 0 -> next_id w <= ra0 r < next_id w';
  law_dies n args w t : n <> Sys.SYS_TASK_SPAWN -> alive (snd (raw_full n args w)) t -> alive w t;
  law_born args w t : let '(r, _, w') := raw_full Sys.SYS_TASK_SPAWN args w in alive w' t -> alive w t \/ rax r = 0 /\ t = ra0 r;
  law_killed t w : ~ alive (snd (raw_full Sys.SYS_KILL [Word t; Word 0; Word 0; Word 0; Word 0; Word 0] w)) t;
  law_silent n args w t : n <> Sys.SYS_WAIT -> reported (snd (raw_full n args w)) t -> reported w t;
  law_wait args w t : let '(r, _, w') := raw_full Sys.SYS_WAIT args w in
    (reported w' t -> reported w t \/ rax r = 0 /\ t = ra0 r) /\ (rax r = 0 -> ~ alive w' (ra0 r));
  law_unknown args w : let '(r, _, w') := raw_full Sys.SYS_TASK_SPAWN args w in rax r = 0 -> ~ reported w' (ra0 r);
}.

(** [rposition] *)
Lemma rposition_Some {A} (p : A -> bool) l i : rposition p l = Some i -> exists x, l !! i = Some x /\ p x = true.
Proof.
  unfold rposition. destruct (position p (rev l)) as [k|] eqn:E; [|done]. cbn. intros [= <-].
  destruct (position_Some _ _ _ E) as (x & Hx & Hp & _). exists x. split; [|exact Hp].
  pose proof (lookup_lt_Some _ _ _ Hx) as Hk. rewrite length_rev in Hk. rewrite rev_alt in Hx. change (rev_append l []) with (reverse l) in Hx.
  rewrite reverse_lookup in Hx by done. rewrite <- Hx. f_equal. lia.
Qed.

Lemma rposition_None {A} (p : A -> bool) l : rposition p l = None -> Forall (fun x => p x = false) l.
Proof.
  unfold rposition. destruct (position p (rev l)) as [k|] eqn:E; [done|]. intros _.
  rewrite <- (rev_involutive l). apply Forall_rev. revert E. induction (rev l) as [|x r IH]; [by constructor|]. cbn [position].
  destruct (p x) eqn:Ep; [done|]. destruct (position p r); [done|]. intros _. by constructor; [|apply IH].
Qed.

Section mild.
Context {W : Type} `{Children W}.

(** A later world, without a new child or a new report. *)
Record calmer (w w' : W) : Prop := {
  cm_next : next_id w <= next_id w';
  cm_unreaped : (unreaped w' <= unreaped w)%nat;
  cm_alive : forall t, alive w' t -> alive w t;
  cm_reported : forall t, reported w' t -> reported w t;
}.

Lemma calmer_refl w : calmer w w.
Proof. split; auto; lia. Qed.
Lemma calmer_trans w1 w2 w3 : calmer w1 w2 -> calmer w2 w3 -> calmer w1 w3.
Proof. intros [? ? ? ?] [? ? ? ?]. split; auto; lia. Qed.

(** After a wait that returned [end_of], the child that ended if any. *)
Record waited (end_of : option Z) (w w' : W) : Prop := {
  wt_next : next_id w <= next_id w';
  wt_unreaped : (unreaped w' <= unreaped w)%nat;
  wt_alive : forall t, alive w' t -> alive w t /\ end_of <> Some t;
  wt_reported : forall t, reported w' t -> reported w t \/ end_of = Some t;
}.

Lemma waited_none w w' : waited None w w' -> calmer w w'.
Proof. intros [H1 H2 H3 H4]. split; [done|done| |]; [intros t Ht; by apply H3|intros t Ht; by destruct (H4 t Ht)]. Qed.

Definition mild {A} (m : prog W A) (R : A -> Prop) : Prop := forall w, wp m (fun a w' => R a /\ calmer w w') w.

Lemma mild_ret {A} (a : A) (R : A -> Prop) : R a -> mild (mret a) R.
Proof. intros HR w. apply wp_ret. split; [exact HR|apply calmer_refl]. Qed.

Lemma mild_bind {A B} (m : prog W A) (k : A -> prog W B) (Q : A -> Prop) (R : B -> Prop) :
  mild m Q -> (forall a, Q a -> mild (k a) R) -> mild (m ≫= k) R.
Proof.
  intros Hm Hk w. apply wp_bind. eapply wp_mono; [apply Hm|]. intros a w1 [HQ H1].
  eapply wp_mono; [apply (Hk a HQ)|]. intros b w2 [HR H2]. split; [exact HR|by eapply calmer_trans].
Qed.

Lemma mild_weaken {A} (m : prog W A) (Q R : A -> Prop) : mild m Q -> (forall a, Q a -> R a) -> mild m R.
Proof. intros Hm HR w. eapply wp_mono; [apply Hm|]. intros a w' [HQ Hc]. auto. Qed.

Lemma calmer_call n args w : n <> Sys.SYS_TASK_SPAWN -> n <> Sys.SYS_WAIT -> calmer w (snd (raw_full n args w)).
Proof.
  intros Hn Hw. split; [apply law_next|by apply law_steady|intros t; by apply law_dies|intros t; by apply law_silent].
Qed.

Lemma mild_trap n args (R : Ret * list Z -> Prop) : n <> Sys.SYS_TASK_SPAWN -> n <> Sys.SYS_WAIT -> (forall r, R r) -> mild (Userlib.trap n args) R.
Proof.
  intros Hn Hw HR w. pose proof (calmer_call n args w Hn Hw) as Hc. unfold Userlib.trap, wp.
  destruct (raw_full n args w) as [[r buf] w']. split; [apply HR|exact Hc].
Qed.

#[local] Ltac one_call := eapply mild_bind; [by apply (mild_trap _ _ (fun _ => True))|intros [? ?] _; apply mild_ret].

Lemma mild_call ep w : mild (Userlib.call ep w) (fun r => forall ws, r = Ok ws -> length ws = 5%nat).
Proof. one_call. unfold Userlib.decode. case_match; [by intros ws [= <-]|done]. Qed.

Lemma mild_recv_until ep t : mild (Userlib.recv_until ep t) (fun _ => True).
Proof. by one_call. Qed.
Lemma mild_reply ep w : mild (Userlib.reply ep w) (fun _ => True).
Proof. by one_call. Qed.
Lemma mild_ticks : mild Userlib.ticks (fun _ => True).
Proof. by one_call. Qed.
Lemma mild_sleep t : mild (Userlib.sleep t) (fun _ => True).
Proof. by one_call. Qed.

(** A killed child does not live. *)
Lemma wp_kill t (Q : result () Z -> W -> Prop) w : (forall r w', calmer w w' -> ~ alive w' t -> Q r w') -> wp (Userlib.kill t) Q w.
Proof.
  intros HQ. unfold Userlib.kill. apply wp_bind. unfold Userlib.trap, wp at 1. pose proof (law_killed t w) as Hk.
  set (args := [Word t; _; _; _; _; _]) in *. pose proof (calmer_call Sys.SYS_KILL args w ltac:(done) ltac:(done)) as Hc.
  destruct (raw_full Sys.SYS_KILL args w) as [[r buf] w']. by apply wp_ret, HQ.
Qed.

Lemma mild_exit c : mild (Userlib.exit c) (fun _ => True).
Proof. by one_call. Qed.
Lemma mild_set_name n : mild (Userlib.set_name n) (fun _ => True).
Proof. by one_call. Qed.

Lemma mild_print_split ep data : mild (Userlib.print_split ep data) (fun _ => True).
Proof.
  unfold Userlib.print_split. induction (chunks 37 data) as [|c cs IH]; cbn [Userlib.print_chunks]; [by apply mild_ret|].
  eapply mild_bind; [apply mild_call|]. intros [ws|e] _; [exact IH|by apply mild_ret].
Qed.

(** A wait that brings a child brings one less to come. *)
Lemma wp_try_wait (Q : result (option (Z * Z)) Z -> W -> Prop) w :
  (forall tid code w', waited (Some tid) w w' -> (unreaped w' < unreaped w)%nat -> Q (Ok (Some (tid, code))) w') ->
  (forall r w', calmer w w' -> (forall c, r <> Ok (Some c)) -> Q r w') -> wp Userlib.try_wait Q w.
Proof.
  intros HQ1 HQ2. unfold Userlib.try_wait. set (args := [Word 1; _; _; _; _; _]). apply wp_bind. unfold Userlib.trap, wp at 1.
  pose proof (law_reap args w) as H1. pose proof (law_steady Sys.SYS_WAIT args w ltac:(done)) as H2. pose proof (law_next Sys.SYS_WAIT args w) as H3.
  pose proof (fun t => law_dies Sys.SYS_WAIT args w t ltac:(done)) as H4. pose proof (law_wait args w) as H5.
  destruct (raw_full Sys.SYS_WAIT args w) as [[r buf] w']. cbn [snd] in H2, H3, H4. apply wp_ret. destruct (Z.eqb_spec (rax r) 0) as [E|E].
  - apply HQ1; [|by apply H1]. split; [done|done| |].
    + intros t Ht. split; [by apply H4|]. intros [= E']. subst t. exact (proj2 (H5 (ra0 r)) E Ht).
    + intros t Ht. destruct (proj1 (H5 t) Ht) as [?|[_ ->]]; [by left|right; reflexivity].
  - apply HQ2; [|by case_match]. split; [done|done|done|]. intros t Ht. by destruct (proj1 (H5 t) Ht) as [?|[? _]].
Qed.

(** A task that starts has a new id, and is the only new child. *)
Record spawned (r : result Z Z) (w w' : W) : Prop := {
  sp_next : next_id w <= next_id w';
  sp_id : forall tid, r = Ok tid -> next_id w <= tid < next_id w' /\ ~ reported w' tid;
  sp_alive : forall t, alive w' t -> alive w t \/ r = Ok t;
  sp_reported : forall t, reported w' t -> reported w t;
}.

Lemma wp_spawn elf grants (Q : result Z Z -> W -> Prop) w : (forall r w', spawned r w w' -> Q r w') -> wp (Userlib.spawn elf grants) Q w.
Proof.
  intros HQ. unfold Userlib.spawn. cbv zeta. set (args := [In elf; _; _; _; _; _]). apply wp_bind. unfold Userlib.trap, wp at 1.
  pose proof (law_spawn args w) as H1. pose proof (law_next Sys.SYS_TASK_SPAWN args w) as H2. pose proof (law_born args w) as H3.
  pose proof (fun t => law_silent Sys.SYS_TASK_SPAWN args w t ltac:(done)) as H4. pose proof (law_unknown args w) as H5.
  destruct (raw_full Sys.SYS_TASK_SPAWN args w) as [[r buf] w']. apply wp_ret. apply HQ. unfold Userlib.decode. split; [done| | |done].
  - intros tid. destruct (Z.eqb_spec (rax r) 0) as [E|]; [intros [= <-]; auto|done].
  - intros t Ht. destruct (H3 t Ht) as [?|[-> ->]]; [by left|by right].
Qed.

(** Fetching a program returns, whatever initfs answers. *)
Lemma mild_fetch_chunks name len fuel : forall buf, (len < length buf + fuel)%nat -> (length buf <= len)%nat ->
  mild (Supd.fetch_chunks fuel name len buf) (fun _ => True).
Proof.
  induction fuel as [|fuel IH]; intros buf Hf Hb; [lia|]. cbn [Supd.fetch_chunks]. destruct (Nat.ltb_spec (length buf) len) as [Hlt|]; [|by apply mild_ret].
  eapply mild_bind; [apply mild_call|]. intros [ws|e] Hws; [|by apply mild_ret]. cbv zeta.
  assert (Hn : length (take (Nat.min (len - length buf) 38) (raw.unpack_all ws (replicate 40 0))) = Nat.min (len - length buf) 38).
  { rewrite length_take, unpack_all_spec by auto. rewrite splice_0, length_app, length_drop, length_replicate. lia. }
  apply IH; rewrite length_app, Hn; lia.
Qed.

Lemma mild_fetch_program name : mild (Supd.fetch_program name) (fun _ => True).
Proof.
  unfold Supd.fetch_program. eapply mild_bind; [apply mild_call|]. intros [ws|e] _; [|by apply mild_ret].
  destruct (Supd.fetch_len _) as [len|]; [|by apply mild_ret]. destruct (_ <? len); [by apply mild_ret|].
  apply mild_fetch_chunks; cbn [length]; lia.
Qed.
End mild.

#[export] Hint Resolve mild_call mild_recv_until mild_reply mild_ticks mild_sleep mild_exit mild_set_name
  mild_print_split mild_fetch_program : mild.

(** ** A kernel for a supervisor: scripted replies to calls, children that live
    until they are killed, ends to be collected, a clock that counts its
    readings. *)
Module ChildSim.

Record Machine := mkKernel {
  k_replies : list (list Z); k_ended : list (Z * Z); k_next : Z; k_clock : Z; k_live : list Z; k_reported : list Z;
}.
Definition mkMachine replies ended next clock : Machine := mkKernel replies ended next clock [] [].

Definition status (z : Z) : Ret := mkRet z 0 0 0 0 0 0.
Definition brood (m : Machine) : nat := length (k_ended m) + length (k_live m).
Definition waiting (m : Machine) : nat := if (brood m <=? MAX_CHILDREN)%nat then brood m else 0.

Definition living (m : Machine) (t : Z) : Prop :=
  (brood m <= MAX_CHILDREN)%nat /\ t ∈ k_live m /\ t ∉ fst <$> k_ended m /\ t ∉ k_reported m.
Definition told (m : Machine) (t : Z) : Prop := t ∈ k_reported m.

Definition k_kill (t : Z) (m : Machine) : Machine :=
  if bool_decide (t ∈ k_live m) && (brood m <=? MAX_CHILDREN)%nat
  then mkKernel (k_replies m) (k_ended m ++ [(t, 0x200)]) (k_next m) (k_clock m) (filter (fun x => x <> t) (k_live m)) (k_reported m)
  else m.

Definition k_call (n : Z) (args : list Arg) (m : Machine) : Ret * list Z * Machine :=
  if n =? Sys.SYS_TASK_SPAWN then
    if bool_decide (k_next m ∈ k_reported m) then (status 5, [], m) else
    (mkRet 0 (k_next m) 0 0 0 0 0, [],
     mkKernel (k_replies m) (k_ended m) (k_next m + 1) (k_clock m) (k_live m ++ [k_next m]) (k_reported m))
  else if n =? Sys.SYS_WAIT then
    match k_ended m with
    | (tid, code) :: ended =>
        if (brood m <=? MAX_CHILDREN)%nat
        then (mkRet 0 tid code 0 0 0 0, [], mkKernel (k_replies m) ended (k_next m) (k_clock m) (k_live m) (k_reported m ++ [tid])) else (status 9, [], m)
    | [] => (status 9, [], m)
    end
  else if n =? Sys.SYS_KILL then
    match args with Word t :: _ => (status 0, [], k_kill t m) | _ => (status 5, [], m) end
  else if n =? Sys.SYS_TICKS then
    (status (k_clock m), [], mkKernel (k_replies m) (k_ended m) (k_next m) (k_clock m + 1) (k_live m) (k_reported m))
  else if n =? Sys.SYS_IPC_RECV then (status 10, [], m)
  else if n =? Sys.SYS_IPC_CALL then
    match k_replies m with
    | w :: replies => (mkRet 0 (nth 0 w 0) (nth 1 w 0) (nth 2 w 0) (nth 3 w 0) (nth 4 w 0) 0, [],
                       mkKernel replies (k_ended m) (k_next m) (k_clock m) (k_live m) (k_reported m))
    | [] => (status 7, [], m)
    end
  else (status 0, [], m).

(** A call that is neither a spawn, a wait nor a kill leaves the children. *)
Lemma k_call_other n args m : n <> Sys.SYS_TASK_SPAWN -> n <> Sys.SYS_WAIT -> n <> Sys.SYS_KILL ->
  let m' := snd (k_call n args m) in
  k_ended m' = k_ended m /\ k_live m' = k_live m /\ k_reported m' = k_reported m /\ k_next m' = k_next m.
Proof.
  intros H1 H2 H3. unfold k_call. rewrite (proj2 (Z.eqb_neq _ _) H1), (proj2 (Z.eqb_neq _ _) H2), (proj2 (Z.eqb_neq _ _) H3).
  destruct (n =? Sys.SYS_TICKS); [done|]. destruct (n =? Sys.SYS_IPC_RECV); [done|]. destruct (n =? Sys.SYS_IPC_CALL); [|done]. by case_match.
Qed.

Lemma k_call_kill args m : exists t, snd (k_call Sys.SYS_KILL args m) = k_kill t m \/ snd (k_call Sys.SYS_KILL args m) = m.
Proof. unfold k_call. cbn. destruct args as [|[] ?]; cbn; try (exists 0; by right); eexists; by left. Qed.

Lemma k_kill_brood t m : (brood (k_kill t m) <= brood m)%nat /\ ((brood m <= MAX_CHILDREN)%nat \/ k_kill t m = m).
Proof.
  unfold k_kill. destruct (bool_decide (t ∈ k_live m)) eqn:E1; cbn [andb]; [|by split; [|right]]. apply bool_decide_eq_true in E1.
  destruct (Nat.leb_spec (brood m) MAX_CHILDREN) as [Hl|]; [|by split; [|right]]. split; [|by left]. unfold brood. cbn.
  rewrite length_app. cbn [length]. pose proof (length_filter_lt (fun x => x <> t) (k_live m) t E1 ltac:(naive_solver)). lia.
Qed.

Lemma k_kill_living t m x : living (k_kill t m) x -> living m x /\ x <> t.
Proof.
  pose proof (k_kill_brood t m) as [Hc Ho]. unfold living. intros (H0 & H1 & H2 & H3).
  assert (Hm : (brood m <= MAX_CHILDREN)%nat) by (destruct Ho as [?|E]; [done|by rewrite E in H0]).
  unfold k_kill in *. rewrite (proj2 (Nat.leb_le _ _) Hm), andb_true_r in *. case_bool_decide as Ht; cbn in *.
  - rewrite list_elem_of_filter in H1. rewrite fmap_app, not_elem_of_app in H2. naive_solver.
  - split; [done|]. by intros ->.
Qed.

Lemma waiting_le m m' : (brood m' <= brood m)%nat -> (brood m <= MAX_CHILDREN)%nat -> (waiting m' <= waiting m)%nat.
Proof. unfold waiting. intros H1 H2. rewrite !(proj2 (Nat.leb_le _ _)) by lia. done. Qed.

(** What the calls of the simulation do, one by one. *)
Lemma k_spawn args m : let '(r, _, m') := k_call Sys.SYS_TASK_SPAWN args m in
  k_next m <= k_next m' /\ (rax r = 0 -> k_next m <= ra0 r < k_next m' /\ ~ told m' (ra0 r)) /\
  (forall t, living m' t -> living m t \/ rax r = 0 /\ t = ra0 r) /\ (forall t, told m' t -> told m t).
Proof.
  unfold k_call. change (Sys.SYS_TASK_SPAWN =? Sys.SYS_TASK_SPAWN) with true. cbv iota. case_bool_decide as Ht.
  - split; [lia|]. split; [done|]. split; [by left|done].
  - cbn. split; [lia|]. split; [intros _; split; [lia|done]|]. split; [|done]. intros t (H0 & H1 & H2 & H3). unfold brood in H0. cbn in *.
    rewrite length_app in H0. cbn [length] in H0. apply elem_of_app in H1 as [H1|H1%list_elem_of_singleton]; [|by right].
    left. unfold living, brood. split; [lia|done].
Qed.

Lemma k_wait args m : let '(r, _, m') := k_call Sys.SYS_WAIT args m in
  k_next m' = k_next m /\ (rax r = 0 -> (waiting m' < waiting m)%nat /\ ~ living m' (ra0 r)) /\ (waiting m' <= waiting m)%nat /\
  (forall t, living m' t -> living m t) /\ (forall t, told m' t -> told m t \/ rax r = 0 /\ t = ra0 r).
Proof.
  unfold k_call. change (Sys.SYS_WAIT =? Sys.SYS_TASK_SPAWN) with false. change (Sys.SYS_WAIT =? Sys.SYS_WAIT) with true. cbv iota.
  destruct (k_ended m) as [|[tid code] ended] eqn:Ee; [split; [done|]; split; [intros E; discriminate E|]; split; [done|]; split; [done|by left]|].
  destruct (Nat.leb_spec (brood m) MAX_CHILDREN) as [Hl|]; [|split; [done|]; split; [intros E; discriminate E|]; split; [done|]; split; [done|by left]].
  set (m' := mkKernel _ _ _ _ _ _). assert (Hc : (brood m' < brood m)%nat) by (unfold brood, m'; rewrite Ee; cbn; lia).
  assert (Hw : (waiting m' < waiting m)%nat) by (unfold waiting; rewrite !(proj2 (Nat.leb_le _ _)) by lia; done).
  split; [done|]. split; [|split; [lia|split]].
  - intros _. split; [exact Hw|]. intros (_ & _ & _ & Hn). apply Hn. cbn. set_solver.
  - intros t (H0 & H1 & H2 & H3). cbn in *. rewrite not_elem_of_app in H3. destruct H3 as [H3 Ht]. split; [exact Hl|]. split; [exact H1|].
    rewrite Ee. cbn. set_solver.
  - intros t [?| ->%list_elem_of_singleton]%elem_of_app; [by left|by right].
Qed.

End ChildSim.

#[global] Instance child_abi : Abi ChildSim.Machine := ChildSim.k_call.

#[global] Instance child_laws : Children ChildSim.Machine.
Proof.
  assert (Hother : forall n args w, n <> Sys.SYS_TASK_SPAWN -> n <> Sys.SYS_WAIT -> let w' := snd (ChildSim.k_call n args w) in
    (ChildSim.waiting w' <= ChildSim.waiting w)%nat /\ ChildSim.k_next w' = ChildSim.k_next w /\
    (forall t, ChildSim.living w' t -> ChildSim.living w t) /\ forall t, ChildSim.told w' t -> ChildSim.told w t).
  { intros n args w H1 H2. destruct (decide (n = Sys.SYS_KILL)) as [->|H3]; cbv zeta.
    - destruct (ChildSim.k_call_kill args w) as [t [-> | ->]]; [|done]. destruct (ChildSim.k_kill_brood t w) as [Hc Ho].
      split; [destruct Ho as [?| ->]; [by apply ChildSim.waiting_le|done]|]. split; [unfold ChildSim.k_kill; by case_match|].
      split; [intros x Hx; by apply ChildSim.k_kill_living in Hx as [? _]|]. intros x. unfold ChildSim.told, ChildSim.k_kill. by case_match.
    - destruct (ChildSim.k_call_other n args w H1 H2 H3) as (E1 & E2 & E3 & E4).
      unfold ChildSim.waiting, ChildSim.living, ChildSim.told, ChildSim.brood. by rewrite E1, E2, E3, E4. }
  refine {| unreaped := ChildSim.waiting; next_id := ChildSim.k_next; alive := ChildSim.living; reported := ChildSim.told |}; unfold raw_full, child_abi.
  - intros w. unfold ChildSim.waiting. case_match; [by apply Nat.leb_le|lia].
  - intros args w. pose proof (ChildSim.k_wait args w) as Hw. destruct (ChildSim.k_call _ _ _) as [[r b] w']. intros E. by apply Hw.
  - intros n args w Hn. destruct (decide (n = Sys.SYS_WAIT)) as [->|Hw]; [|by apply Hother].
    pose proof (ChildSim.k_wait args w) as Hw. destruct (ChildSim.k_call _ _ _) as [[r b] w']. by apply Hw.
  - intros n args w. destruct (decide (n = Sys.SYS_WAIT)) as [->|Hw].
    { pose proof (ChildSim.k_wait args w) as Hw. destruct (ChildSim.k_call _ _ _) as [[r b] w']. cbn. by destruct Hw as [-> _]. }
    destruct (decide (n = Sys.SYS_TASK_SPAWN)) as [->|Hs]; [|by rewrite (proj1 (proj2 (Hother n args w Hs Hw)))].
    pose proof (ChildSim.k_spawn args w) as Hs. destruct (ChildSim.k_call _ _ _) as [[r b] w']. by apply Hs.
  - intros args w. pose proof (ChildSim.k_spawn args w) as Hs. destruct (ChildSim.k_call _ _ _) as [[r b] w']. intros E. by apply Hs.
  - intros n args w t Hn. destruct (decide (n = Sys.SYS_WAIT)) as [->|Hw]; [|by apply Hother].
    pose proof (ChildSim.k_wait args w) as Hw. destruct (ChildSim.k_call _ _ _) as [[r b] w']. by apply Hw.
  - intros args w t. pose proof (ChildSim.k_spawn args w) as Hs. destruct (ChildSim.k_call _ _ _) as [[r b] w']. by apply Hs.
  - intros t w Hl. cbn in Hl. by apply ChildSim.k_kill_living in Hl as [_ ?].
  - intros n args w t Hn. destruct (decide (n = Sys.SYS_TASK_SPAWN)) as [->|Hs]; [|by apply Hother].
    pose proof (ChildSim.k_spawn args w) as Hs. destruct (ChildSim.k_call _ _ _) as [[r b] w']. by apply Hs.
  - intros args w t. pose proof (ChildSim.k_wait args w) as Hw. destruct (ChildSim.k_call _ _ _) as [[r b] w']. split; [by apply Hw|]. intros E. by apply Hw.
  - intros args w. pose proof (ChildSim.k_spawn args w) as Hs. destruct (ChildSim.k_call _ _ _) as [[r b] w']. intros E. by apply Hs.
Defined.

(** * The supervisor: what it promises

    The table and the children agree, at every pass and whatever the other
    servers answer ([supervisor_owns_children]): every child that lives is run
    by one entry, and an entry that says it runs names a child whose end has
    not been reported.  Each entry is typed ([svc_ok]) and the exit of a child
    moves exactly its service ([restart_policy]). *)

Import Supd.

(** ** The life of a service *)

(** The delay after a crash, in ticks: the failure count is one whenever a
    delay is computed, because every start resets it. *)
Definition RETRY_TICKS : Z := 40.

Definition idle (s : Service) : Prop := forall tid, sv_state s <> Running tid.

Definition svc_ok (s : Service) : Prop :=
  0 <= sv_failures s <= 1 /\ fits 64 (sv_restarts s) /\
  match sv_state s with Running _ => sv_failures s = 0 | Waiting at_ => fits 64 at_ | _ => True end.

(** What never changes of an entry. *)
Definition same_entry (s s' : Service) : Prop := sv_name s' = sv_name s /\ sv_autostart s' = sv_autostart s.

#[global] Instance same_entry_preorder : PreOrder same_entry.
Proof. split; [done|]. intros a b c [E1 E2] [E3 E4]. split; congruence. Qed.

(** An entry changes, and stays typed. *)
Definition moves (s s' : Service) : Prop := same_entry s s' /\ (svc_ok s -> svc_ok s').

Lemma moves_refl s : moves s s.
Proof. done. Qed.

Lemma moves_restarts s : moves s (set_restarts (wrap 64 (sv_restarts s + 1)) s).
Proof. split; [done|]. intros (H1 & H2 & H3). split; [done|]. split; [apply wrap_fits; lia|done]. Qed.
Lemma moves_told_to_run s : moves s (set_failures 0 (set_restart true s)).
Proof. split; [done|]. intros (H1 & H2 & H3). split; [cbn; lia|]. split; [done|]. cbn. by destruct (sv_state s). Qed.
Lemma moves_told_to_stop s : moves s (set_restart false s).
Proof. done. Qed.
Lemma moves_started s tid : moves s (set_failures 0 (set_state (Running tid) s)).
Proof. split; [done|]. intros (H1 & H2 & H3). split; [cbn; lia|done]. Qed.
Lemma moves_refused s : moves s (set_state Failed s).
Proof. split; [done|]. intros (H1 & H2 & H3). done. Qed.
Lemma moves_restarting s now : moves s (set_state (Waiting (wrap 64 (now + 1))) (set_failures 0 (set_restart true s))).
Proof. split; [done|]. intros (H1 & H2 & H3). split; [cbn; lia|]. split; [done|]. apply wrap_fits; lia. Qed.

#[local] Hint Resolve moves_refl moves_restarts moves_told_to_run moves_told_to_stop moves_started moves_refused moves_restarting : moves.

(** No task is two services, and the kernel has yet to reach the next id. *)
Definition distinct (l : list Service) (next : Z) : Prop :=
  forall i s tid, l !! i = Some s -> sv_state s = Running tid ->
    tid < next /\ forall j t, l !! j = Some t -> sv_state t = Running tid -> j = i.

(** [l'] after [l]: services that run still ran before. *)
Lemma distinct_later l l' n n' : distinct l n -> n <= n' ->
  (forall i s tid, l' !! i = Some s -> sv_state s = Running tid -> exists s0, l !! i = Some s0 /\ sv_state s0 = Running tid) ->
  distinct l' n'.
Proof.
  intros Hd Hn Hl i s tid Hi Hs. destruct (Hl i s tid Hi Hs) as (s0 & Hi0 & Hs0). destruct (Hd i s0 tid Hi0 Hs0) as [Hb Hu].
  split; [lia|]. intros j t Hj Ht. destruct (Hl j t tid Hj Ht) as (t0 & Hj0 & Ht0). by eapply Hu.
Qed.

Lemma distinct_start l n n' i s tid : distinct l n -> n <= tid < n' -> distinct (<[i := set_failures 0 (set_state (Running tid) s)]> l) n'.
Proof.
  intros Hd Ht j t tid' Hj Hr. apply list_lookup_insert_Some in Hj as [(<- & <- & Hj)|[Hne Hj]].
  - cbn in Hr. injection Hr as <-. split; [lia|]. intros k u Hk Hu.
    apply list_lookup_insert_Some in Hk as [(<- & _)|[Hnk Hk]]; [done|]. destruct (Hd k u tid Hk Hu). lia.
  - destruct (Hd j t tid' Hj Hr) as [Hb Hu]. split; [lia|]. intros k u Hk Hku.
    apply list_lookup_insert_Some in Hk as [(<- & <- & _)|[Hnk Hk]]; [|by eapply Hu]. cbn in Hku. injection Hku as <-. lia.
Qed.

(** What holds of the table between passes. *)
Definition well_formed {W} `{Children W} (d : Sup (W := W)) : Prop :=
  Forall svc_ok (su_services d) /\ distinct (su_services d) (next_id (su_env d)).

(** The table accounts for the children, those of [others] apart. *)
Record accounted {W} `{Children W} (others : Z -> Prop) (l : list Service) (w : W) : Prop := {
  ac_alive : forall t, alive w t -> others t \/ exists i s, l !! i = Some s /\ sv_state s = Running t;
  ac_open : forall i s t, l !! i = Some s -> sv_state s = Running t -> ~ reported w t;
}.

Section supervisor.
Context {W : Type} `{Children W} (others : Z -> Prop) (l0 : list Service).
Implicit Types d : Sup (W := W).

(** ** The invariant: the entries of [l0], typed, each task at most once, the
    children accounted for. *)
Record inv d : Prop := {
  inv_names : Forall2 same_entry l0 (su_services d);
  inv_ok : Forall svc_ok (su_services d);
  inv_distinct : distinct (su_services d) (next_id (su_env d));
  inv_accounted : accounted others (su_services d) (su_env d);
}.

Definition keeps {A} (m : prog Sup A) : Prop := forall d, inv d -> wp m (fun _ d' => inv d') d.

Lemma inv_length d : inv d -> length (su_services d) = length l0.
Proof. intros Hi. symmetry. apply (Forall2_length _ _ _ (inv_names d Hi)). Qed.

Lemma inv_env l (w w' : W) : inv (mkSup l w) -> calmer w w' -> inv (mkSup l w').
Proof.
  intros [H1 H2 H3 [H4 H5]] [Hn _ Ha Hr]. cbn in *. split; [done..| |split; cbn]; cbn.
  - eapply distinct_later; [exact H3|done|]. eauto.
  - intros t Ht. by apply H4, Ha.
  - intros i s t Hi Hs Ht. by apply (H5 i s t Hi Hs), Hr.
Qed.

Lemma wp_mild {A} (m : prog W A) (R : A -> Prop) (Q : A -> Sup -> Prop) d : mild m R ->
  (forall a w, R a -> calmer (su_env d) w -> Q a (mkSup (su_services d) w)) -> wp (sys m) Q d.
Proof. intros Hm HQ. apply wp_zoom. eapply wp_mono; [apply Hm|]. intros a w [HR Hc]. by apply HQ. Qed.

Lemma keeps_mild {A} (m : prog W A) (R : A -> Prop) : mild m R -> keeps (sys m).
Proof. intros Hm [l w] Hi. eapply wp_mild; [exact Hm|]. intros a w' _ Hc. by eapply inv_env. Qed.

Lemma keeps_ret {A} (a : A) : keeps (mret a).
Proof. intros d Hi. by apply wp_ret. Qed.

Lemma keeps_bind {A B} (m : prog Sup A) (k : A -> prog Sup B) : keeps m -> (forall a, keeps (k a)) -> keeps (m ≫= k).
Proof. intros Hm Hk d Hi. apply wp_bind. eapply wp_mono; [by apply Hm|]. intros a d' Hi'. by apply Hk. Qed.

Lemma names_insert l i s s' : Forall2 same_entry l0 l -> l !! i = Some s -> same_entry s s' -> Forall2 same_entry l0 (<[i := s']> l).
Proof.
  intros H1 Hs He. destruct (Forall2_lookup_r _ _ _ _ _ H1 Hs) as (s0 & Hs0 & He0). rewrite <- (list_insert_id l0 i s0 Hs0).
  apply Forall2_insert; [exact H1|]. by etrans.
Qed.

(** One entry moves, without a start; it stops running a task only if the task
    is not alive. *)
Lemma inv_insert l (w : W) i s s' : inv (mkSup l w) -> l !! i = Some s -> moves s s' ->
  (forall tid, sv_state s' = Running tid -> sv_state s = Running tid) ->
  (forall tid, sv_state s = Running tid -> sv_state s' = Running tid \/ ~ alive w tid) -> inv (mkSup (<[i := s']> l) w).
Proof.
  intros [H1 H2 H3 [H4 H5]] Hs [He Hok] Hr Hk. cbn in *.
  assert (Hl : forall j t tid, <[i:=s']> l !! j = Some t -> sv_state t = Running tid -> exists t0, l !! j = Some t0 /\ sv_state t0 = Running tid).
  { intros j t tid Hj Ht. apply list_lookup_insert_Some in Hj as [(<- & <- & _)|[_ Hj]]; eauto. }
  split; cbn; [by eapply names_insert| |by eapply distinct_later|split].
  - apply Forall_insert; [exact H2|]. apply Hok. by eapply Forall_lookup_1.
  - intros t Ht. destruct (H4 t Ht) as [?|(j & u & Hj & Hu)]; [by left|right]. destruct (decide (i = j)) as [<-|Hn].
    + assert (u = s) as -> by congruence. destruct (Hk t Hu) as [Hs'|?]; [|done]. exists i, s'.
      split; [apply list_lookup_insert_eq; by eapply lookup_lt_Some|done].
    + exists j, u. by rewrite list_lookup_insert_ne.
  - intros j u t Hj Hu. destruct (Hl j u t Hj Hu) as (u0 & Hj0 & Hu0). by eapply H5.
Qed.

Lemma alter_insert (l : list Service) i s f : l !! i = Some s -> alter f i l = <[i := f s]> l.
Proof.
  intros Hi. apply list_eq. intros j. destruct (decide (i = j)) as [<-|Hn].
  - rewrite list_lookup_alter_eq, list_lookup_insert_eq by (by eapply lookup_lt_Some). by rewrite Hi.
  - by rewrite list_lookup_alter_ne, list_lookup_insert_ne.
Qed.

Lemma wp_change l w i f s (Q : () -> Sup -> Prop) : inv (mkSup l w) -> l !! i = Some s -> moves s (f s) ->
  (forall tid, sv_state (f s) = Running tid -> sv_state s = Running tid) ->
  (forall tid, sv_state s = Running tid -> sv_state (f s) = Running tid \/ ~ alive w tid) ->
  (inv (mkSup (<[i := f s]> l) w) -> Q () (mkSup (<[i := f s]> l) w)) -> wp (change i f) Q (mkSup l w).
Proof.
  intros Hi Hs Hst Hr Hk HQ. apply wp_modify. cbn [su_services su_env]. rewrite (alter_insert _ i s) by done. apply HQ. by eapply inv_insert.
Qed.

Lemma wp_service d i (Q : Service -> Sup -> Prop) : inv d -> (i < length l0)%nat ->
  (forall s, su_services d !! i = Some s -> Q s d) -> wp (service i) Q d.
Proof.
  intros Hi Hl HQ. destruct (lookup_lt_is_Some_2 (su_services d) i) as [s Hs]; [by rewrite inv_length|].
  apply wp_bind, wp_gets. by eapply wp_expect; [exact Hs|apply HQ].
Qed.

Lemma keeps_say s : keeps (say s).
Proof. apply keeps_bind; [by eapply keeps_mild, mild_print_split|]. intros _. apply keeps_ret. Qed.

Lemma keeps_audit a b : keeps (audit a b).
Proof. apply keeps_bind; [eapply keeps_mild, mild_call|]. intros _. apply keeps_ret. Qed.

(** ** Starting a service: only one that does not run is started, or the task
    it ran would be no entry's. *)
Definition only_at (i : nat) (l l' : list Service) : Prop := forall j, j <> i -> l' !! j = l !! j.

Lemma inv_start_task l (w w' : W) i s tid : inv (mkSup l w) -> l !! i = Some s -> idle s -> spawned (Ok tid) w w' ->
  inv (mkSup (<[i := set_failures 0 (set_state (Running tid) s)]> l) w').
Proof.
  intros [H1 H2 H3 [H4 H5]] Hs Hidle [Hn Hid Ha Hr]. cbn in *. destruct (Hid tid eq_refl) as [Hb Hnr]. split; cbn; [| | |split].
  - by apply (names_insert l i s).
  - apply Forall_insert; [exact H2|]. apply moves_started. by eapply Forall_lookup_1.
  - by eapply distinct_start.
  - intros t Ht. destruct (Ha t Ht) as [Hal|[= <-]].
    + destruct (H4 t Hal) as [?|(j & u & Hj & Hu)]; [by left|right]. exists j, u. split; [|done]. rewrite list_lookup_insert_ne; [done|].
      intros ->. assert (u = s) as -> by congruence. by apply (Hidle t).
    + right. exists i. eexists. split; [apply list_lookup_insert_eq; by eapply lookup_lt_Some|done].
  - intros j u t Hj Hu Ht. apply list_lookup_insert_Some in Hj as [(<- & <- & _)|[_ Hj]].
    + cbn in Hu. injection Hu as ->. by apply Hnr.
    + by apply (H5 j u t Hj Hu), Hr.
Qed.

Lemma spawn_failed e (w w' : W) : spawned (Err e) w w' -> forall l, inv (mkSup l w) -> inv (mkSup l w').
Proof.
  intros [Hn _ Ha Hr] l [H1 H2 H3 [H4 H5]]. cbn in *. split; cbn; [done|done|eapply distinct_later; [exact H3|done|]; eauto|split].
  - intros t Ht. by destruct (Ha t Ht) as [?%H4|?].
  - intros i s t Hi Hs Ht. by apply (H5 i s t Hi Hs), Hr.
Qed.

Lemma wp_spawn_service l (w : W) i s : inv (mkSup l w) -> l !! i = Some s -> idle s ->
  wp (spawn_service i) (fun _ d' => inv d' /\ only_at i l (su_services d')) (mkSup l w).
Proof.
  assert (Hins : forall f, only_at i l (<[i := f]> l)) by (intros f j Hj; by apply list_lookup_insert_ne).
  intros Hi Hs Hidle. assert (Hl : (i < length l0)%nat) by (rewrite <- (inv_length _ Hi); by eapply lookup_lt_Some).
  unfold spawn_service. apply wp_bind, wp_service; [done..|]. cbn [su_services]. intros s' Hs'. assert (s' = s) as -> by congruence. cbv zeta.
  apply wp_bind. eapply wp_mild; [apply mild_fetch_program|]. cbn [su_services su_env]. intros [elf|e] w1 _ Hc; pose proof (inv_env _ _ _ Hi Hc) as Hi1.
  - apply wp_bind, wp_zoom, wp_spawn. cbn [su_services su_env]. intros [tid|e] w2 Hsp.
    + apply wp_bind, wp_modify. cbn [su_services su_env]. rewrite (alter_insert _ i s) by done. apply wp_bind, wp_bind.
      eapply wp_mild; [apply mild_call|]. intros r w3 _ Hc3. apply wp_ret, wp_ret. split; [|apply Hins].
      eapply inv_env; [|exact Hc3]. by apply (inv_start_task l w1).
    + apply wp_bind. apply (wp_change l w2 i _ s); [by apply (spawn_failed e w1)|done|auto with moves|done| |].
      { intros tid Ht. by destruct (Hidle tid). }
      intros Hi2. apply wp_ret. split; [done|apply Hins].
  - apply wp_bind. unfold say. apply wp_bind. eapply wp_mild; [apply mild_print_split|]. intros r w2 _ Hc2. apply wp_ret, wp_ret.
    split; [by eapply inv_env|done].
Qed.

Lemma keeps_spawn l (w : W) i s : inv (mkSup l w) -> l !! i = Some s -> idle s -> wp (spawn_service i) (fun _ d' => inv d') (mkSup l w).
Proof. intros Hi Hs Hidle. eapply wp_mono; [by eapply wp_spawn_service|]. by intros ? d' [H1 _]. Qed.

(** ** A child that ended *)

Definition clock (w : W) : Z := rax (fst (fst (raw_full Sys.SYS_TICKS [Word 0; Word 0; Word 0; Word 0; Word 0; Word 0] w))).

(** The service that ran the task waits for its restart, or has failed. *)
Definition after_exit (tid now : Z) (s : Service) : Service :=
  if runs tid s then
    if sv_restart s then set_state (Waiting (wrap 64 (now + RETRY_TICKS))) (set_failures 1 s) else set_state Failed (set_failures 1 s)
  else s.

Lemma runs_true tid s : runs tid s = true <-> sv_state s = Running tid.
Proof. unfold runs. destruct (sv_state s) as [|t| |]; try done. rewrite Z.eqb_eq. split; congruence. Qed.

Lemma after_exit_moves tid now s : moves s (after_exit tid now s).
Proof.
  unfold after_exit. destruct (runs tid s); [|done]. destruct (sv_restart s); (split; [done|]); intros (H1 & H2 & H3);
    (split; [cbn; lia|]); (split; [done|]); [apply wrap_fits; lia|done].
Qed.

(** The child that ended is taken out of the table. *)
Definition drops (tid : Z) (f : Service -> Service) : Prop :=
  (forall s, moves s (f s)) /\ (forall s t, sv_state (f s) = Running t -> sv_state s = Running t /\ t <> tid) /\
  forall s t, sv_state s = Running t -> t <> tid -> sv_state (f s) = Running t.

Lemma after_exit_drops tid now : drops tid (after_exit tid now).
Proof.
  split; [apply after_exit_moves|]. unfold after_exit. split; intros s t.
  - destruct (runs tid s) eqn:E; [by destruct (sv_restart s)|]. intros Hs. split; [done|]. intros ->. apply runs_true in Hs. congruence.
  - intros Hs Ht. destruct (runs tid s) eqn:E; [|done]. apply runs_true in E. congruence.
Qed.

Lemma stop_running_drops tid : drops tid (stop_running tid).
Proof.
  unfold stop_running. split; [|split]; intros s.
  - destruct (runs tid s); [|done]. split; [done|]. intros (H1 & H2 & H3). done.
  - intros t. destruct (runs tid s) eqn:E; [done|]. intros Hs. split; [done|]. intros ->. apply runs_true in Hs. congruence.
  - intros t Hs Ht. destruct (runs tid s) eqn:E; [|done]. apply runs_true in E. congruence.
Qed.

Lemma inv_drop f tid l (w w1 w' : W) : inv (mkSup l w) -> waited (Some tid) w w1 -> calmer w1 w' -> drops tid f -> inv (mkSup (f <$> l) w').
Proof.
  intros [H1 H2 H3 [H4 H5]] [Wn _ Wa Wr] [Cn _ Ca Cr] (Hm & Hback & Hstay). cbn in *.
  assert (Hl : forall j u t, (f <$> l) !! j = Some u -> sv_state u = Running t -> exists u0, l !! j = Some u0 /\ sv_state u0 = Running t /\ t <> tid).
  { intros j u t Hj Hu. rewrite list_lookup_fmap in Hj. destruct (l !! j) as [u0|]; [|done]. injection Hj as <-. apply Hback in Hu. eauto. }
  split; cbn; [| | |split].
  - apply Forall2_fmap_r. eapply Forall2_impl; [exact H1|]. intros a b He. change (same_entry a (f b)). etrans; [exact He|]. apply Hm.
  - apply Forall_fmap. eapply Forall_impl; [exact H2|]. intros u Hu. by apply Hm.
  - eapply distinct_later; [exact H3|lia|]. intros j u t Hj Hu. destruct (Hl j u t Hj Hu) as (u0 & ? & ? & _). eauto.
  - intros t Ht. destruct (Wa t (Ca t Ht)) as [Hal Hne]. destruct (H4 t Hal) as [?|(j & u & Hj & Hu)]; [by left|right]. exists j, (f u).
    rewrite list_lookup_fmap, Hj. split; [done|]. apply Hstay; [done|]. intros ->. by apply Hne.
  - intros j u t Hj Hu Ht. destruct (Hl j u t Hj Hu) as (u0 & Hj0 & Hu0 & Hne). destruct (Wr t (Cr t Ht)) as [Hr|[= ->]]; [|done].
    by apply (H5 j u0 t Hj0 Hu0).
Qed.

(** A change of the one service that runs a task. *)
Lemma fmap_only (f : Service -> Service) l n i s tid : distinct l n -> l !! i = Some s -> sv_state s = Running tid ->
  (forall t, runs tid t = false -> f t = t) -> f <$> l = <[i := f s]> l.
Proof.
  intros Hd Hs Hst Hf. apply list_eq. intros j. rewrite list_lookup_fmap. destruct (decide (i = j)) as [<-|Hn].
  - by rewrite list_lookup_insert_eq, Hs by (by eapply lookup_lt_Some).
  - rewrite list_lookup_insert_ne by done. destruct (l !! j) as [t|] eqn:Ej; [|done]. cbn. f_equal. apply Hf.
    destruct (runs tid t) eqn:Et; [|done]. apply runs_true in Et. destruct (Hd i s tid Hs Hst) as [_ Hu]. destruct Hn. symmetry. by eapply Hu.
Qed.

Definition exit_done tid d (d' : Sup) : Prop :=
  su_services d' = after_exit tid (clock (su_env d)) <$> su_services d /\ calmer (su_env d) (su_env d').

Lemma wp_exit_audit d tid head w : calmer (su_env d) w ->
  wp (audit head []) (fun _ d' => exit_done tid d d') (mkSup (after_exit tid (clock (su_env d)) <$> su_services d) w).
Proof.
  intros Hc. apply wp_bind. eapply wp_mild; [apply mild_call|]. intros r w2 _ Hc2. apply wp_ret.
  cbn [su_services su_env] in *. split; [done|]. by apply (calmer_trans _ w).
Qed.

Lemma wp_exited d tid code : Forall svc_ok (su_services d) -> distinct (su_services d) (next_id (su_env d)) ->
  wp (exited tid code) (fun _ d' => exit_done tid d d') d.
Proof.
  intros Hok Hdis. unfold exited. apply wp_bind, wp_gets. cbv zeta. apply wp_bind, wp_modify. destruct (last_running tid (su_services d)) as [i|] eqn:Ei.
  - destruct (rposition_Some _ _ _ Ei) as (s & Hs & Hrun). pose proof (proj1 (runs_true _ _) Hrun) as Hst.
    pose proof (Forall_lookup_1 _ _ _ _ Hok Hs) as (_ & _ & Hf). rewrite Hst in Hf.
    pose proof (fun f => fmap_only f _ _ _ _ _ Hdis Hs Hst) as Honly.
    assert (Hstop : stop_exited tid <$> su_services d = <[i := set_failures 1 (set_state Stopped s)]> (su_services d)).
    { rewrite (Honly (stop_exited tid)) by (intros t Ht; unfold stop_exited; by rewrite Ht). unfold stop_exited. by rewrite Hrun, Hf. }
    assert (Hafter : after_exit tid (clock (su_env d)) <$> su_services d = <[i := after_exit tid (clock (su_env d)) s]> (su_services d))
      by (apply Honly; intros t Ht; unfold after_exit; by rewrite Ht).
    assert (Hs' : <[i := set_failures 1 (set_state Stopped s)]> (su_services d) !! i = Some (set_failures 1 (set_state Stopped s)))
      by (apply list_lookup_insert_eq; by eapply lookup_lt_Some).
    rewrite Hstop. apply wp_bind. unfold service. apply wp_bind, wp_gets. cbn [su_services]. eapply wp_expect; [exact Hs'|].
    cbn [sv_restart sv_failures set_failures set_state]. change (1 <=? 5) with true. rewrite andb_true_r. apply wp_bind.
    destruct (sv_restart s) eqn:Er.
    + apply wp_bind, wp_zoom. cbn [su_env]. unfold Userlib.ticks. set (args := [Word 0; _; _; _; _; _]). apply wp_bind. unfold Userlib.trap, wp at 1.
      pose proof (calmer_call Sys.SYS_TICKS args (su_env d) ltac:(done) ltac:(done)) as Hcalm.
      assert (Hclock : clock (su_env d) = rax (fst (fst (raw_full Sys.SYS_TICKS args (su_env d))))) by done.
      destruct (raw_full Sys.SYS_TICKS args (su_env d)) as [[r buf] w']. cbn in Hclock. apply wp_ret. apply wp_modify. cbn [su_services su_env].
      rewrite (alter_insert _ i _ _ Hs'), list_insert_insert_eq. change (backoff 1) with RETRY_TICKS. rewrite <- Hclock.
      assert (E : after_exit tid (clock (su_env d)) s = set_state (Waiting (wrap 64 (clock (su_env d) + RETRY_TICKS))) (set_failures 1 (set_state Stopped s)))
        by (unfold after_exit; by rewrite Hrun, Er).
      rewrite <- E, <- Hafter. by apply wp_exit_audit.
    + apply wp_modify. cbn [su_services su_env]. rewrite (alter_insert _ i _ _ Hs'), list_insert_insert_eq.
      assert (E : after_exit tid (clock (su_env d)) s = set_state Failed (set_failures 1 (set_state Stopped s))) by (unfold after_exit; by rewrite Hrun, Er).
      rewrite <- E, <- Hafter. by apply wp_exit_audit, calmer_refl.
  - pose proof (rposition_None _ _ Ei) as Hno.
    assert (E1 : stop_exited tid <$> su_services d = after_exit tid (clock (su_env d)) <$> su_services d).
    { apply list_fmap_ext. intros j t Hj. pose proof (Forall_lookup_1 _ _ _ _ Hno Hj) as Hr. cbn in Hr. unfold stop_exited, after_exit. by rewrite Hr. }
    rewrite E1. by apply wp_exit_audit, calmer_refl.
Qed.

(** Reaping ends: each round there is one child less to report. *)
Lemma wp_reap fuel : forall d, inv d -> (unreaped (su_env d) < fuel)%nat -> wp (reap fuel) (fun _ d' => inv d') d.
Proof.
  induction fuel as [|fuel IH]; intros [l w] Hi Hf; [lia|]. cbn [reap]. cbn [su_env] in Hf. apply wp_bind, wp_zoom, wp_try_wait; cbn [su_services su_env].
  - intros tid code w' Hw Hu. apply wp_bind. eapply wp_mono.
    { apply (wp_exited (mkSup l w')); [apply Hi|]. cbn. eapply distinct_later; [apply Hi|apply (wt_next _ _ _ Hw)|]. eauto. }
    intros ? [l2 w2] [El Hc]. cbn in El, Hc. apply IH.
    + rewrite El. eapply inv_drop; [exact Hi|exact Hw|exact Hc|apply after_exit_drops].
    + cbn. pose proof (cm_unreaped _ _ Hc). lia.
  - intros r w' Hc Hno. pose proof (inv_env _ _ _ Hi Hc) as Hi1. destruct r as [[c|]|e]; [by destruct (Hno c)|by apply wp_ret..].
Qed.

(** ** Restarting what is due *)
Lemma wp_respawn ids now : Forall (fun i => (i < length l0)%nat) ids -> forall next d, inv d -> wp (respawn ids now next) (fun _ d' => inv d') d.
Proof.
  induction 1 as [|i ids Hl _ IH]; intros next [l w] Hi; cbn [respawn]; [by apply wp_ret|].
  apply wp_bind, wp_service; [done..|]. intros s Hs. cbn [su_services] in Hs. destruct (sv_state s) as [| |at_|] eqn:Est; [by apply IH..| |by apply IH].
  destruct (at_ <=? now); [|by apply IH]. apply wp_bind. eapply wp_mono.
  { apply (wp_spawn_service l w i s Hi Hs). intros tid Ht. congruence. }
  intros ? [l1 w1] [Hi1 _]. destruct (lookup_lt_is_Some_2 l1 i) as [s1 Hs1]; [pose proof (inv_length _ Hi1) as El; cbn in El; by rewrite El|].
  apply wp_bind. apply (wp_change l1 w1 i _ s1); [done|done|auto with moves|done|by left|]. intros Hi2. by apply IH.
Qed.

(** ** Operators *)
Lemma keeps_wait_then (m : prog Sup ()) : (forall d, inv d -> wp m (fun _ d' => inv d') d) ->
  keeps (r ← sys Userlib.try_wait; match r with Ok (Some (tid, _)) => collect tid | _ => m end).
Proof.
  intros Hm [l w] Hi. apply wp_bind, wp_zoom, wp_try_wait; cbn [su_services su_env].
  - intros tid code w' Hw Hu. apply wp_bind, wp_gets, wp_modify. cbn [su_services su_env].
    eapply inv_drop; [exact Hi|exact Hw|apply calmer_refl|apply stop_running_drops].
  - intros r w' Hc Hno. pose proof (inv_env _ _ _ Hi Hc) as Hi1. destruct r as [[c|]|e]; [by destruct (Hno c)|by apply Hm..].
Qed.

Lemma keeps_drain_one : keeps drain_one.
Proof.
  unfold drain_one. apply keeps_wait_then. apply keeps_bind; [eapply keeps_mild, mild_sleep|]. intros _.
  apply keeps_wait_then. apply keeps_ret.
Qed.

Lemma find_service_lookup d i name : inv d -> find_service (su_services d) name = Some i -> (i < length l0)%nat.
Proof. intros Hi E. destruct (position_Some _ _ _ E) as (s & Hs & _). rewrite <- (inv_length d Hi). by eapply lookup_lt_Some. Qed.

Lemma keeps_op_status rest : keeps (op_status rest).
Proof. intros d Hi. by apply wp_bind, wp_gets, wp_ret. Qed.

(** The end of every request that starts a service. *)
Lemma wp_start_reply l (w : W) i s f : inv (mkSup l w) -> l !! i = Some s -> idle s -> moves s (f s) -> sv_state (f s) = sv_state s ->
  wp (_ ← change i f; ok ← spawn_service i; mret (if ok : bool then str "ok started" else str "err: spawn failed")) (fun _ d' => inv d') (mkSup l w).
Proof.
  intros Hi Hs Hidle Hm Est. apply wp_bind. apply (wp_change l w i f s); [done|done|done|intros tid; by rewrite Est|intros tid Ht; left; by rewrite Est|].
  intros Hi1. eapply wp_bind, wp_mono; [|intros ? ? Hx; apply wp_ret; exact Hx].
  apply keeps_spawn with (f s); [done|apply list_lookup_insert_eq; by eapply lookup_lt_Some|]. intros tid. rewrite Est. apply Hidle.
Qed.

Lemma keeps_op_restart rest : keeps (op_restart rest).
Proof.
  intros [l w] Hi. apply wp_bind, wp_gets. cbn [su_services]. destruct (find_service _ _) as [i|] eqn:Ef; [|by apply wp_ret].
  apply wp_bind, wp_service; [done|by eapply find_service_lookup|]. cbn [su_services]. intros s Hs.
  destruct (sv_state s) as [|tid| |] eqn:Est;
    try (apply (wp_start_reply l w i s (fun s => set_restart true (set_failures 0 s))); [done|done|intros t; congruence|apply moves_told_to_run|done]).
  apply wp_bind, wp_zoom, wp_kill. cbn [su_services su_env]. intros r w1 Hc1 Hdead. pose proof (inv_env _ _ _ Hi Hc1) as Hi1.
  apply wp_bind. eapply wp_mild; [apply mild_ticks|]. cbn [su_services su_env]. intros now w2 _ Hc2. pose proof (inv_env _ _ _ Hi1 Hc2) as Hi2.
  apply wp_bind. apply (wp_change l w2 i _ s); [done|done|auto with moves|done| |].
  { intros t Ht. right. intros Hal. apply Hdead, (cm_alive _ _ Hc2). by replace tid with t by congruence. }
  intros Hi3. eapply wp_bind, wp_mono; [by apply keeps_drain_one|]. intros ? d' Hi4. by apply wp_ret.
Qed.

Lemma keeps_op_stop rest : keeps (op_stop rest).
Proof.
  intros [l w] Hi. apply wp_bind, wp_gets. cbn [su_services]. destruct (find_service _ _) as [i|] eqn:Ef; [|by apply wp_ret].
  apply wp_bind, wp_service; [done|by eapply find_service_lookup|]. cbn [su_services]. intros s Hs.
  assert (Hch : forall Q : () -> Sup -> Prop, (forall l', inv (mkSup l' w) -> Q () (mkSup l' w)) -> wp (change i (set_restart false)) Q (mkSup l w)).
  { intros Q HQ. apply (wp_change l w i _ s); [done|done|auto with moves|done|by left|]. apply HQ. }
  destruct (sv_state s) as [|tid| |] eqn:Est; try (apply wp_bind, Hch; intros l' Hi1; by apply wp_ret).
  apply wp_bind, Hch. intros l' Hi1. apply wp_bind, wp_zoom, wp_kill. cbn [su_services su_env]. intros r w1 Hc1 _.
  eapply wp_bind, wp_mono; [apply keeps_drain_one; by eapply inv_env|]. intros ? d' Hi3. by apply wp_ret.
Qed.

Lemma keeps_op_start rest : keeps (op_start rest).
Proof.
  intros [l w] Hi. apply wp_bind, wp_gets. cbn [su_services]. destruct (find_service _ _) as [i|] eqn:Ef; [|by apply wp_ret].
  assert (Hl : (i < length l0)%nat) by by eapply find_service_lookup.
  destruct (lookup_lt_is_Some_2 l i) as [s0 Hs0]; [pose proof (inv_length _ Hi) as El; cbn in El; by rewrite El|].
  apply wp_bind. apply (wp_change l w i _ s0); [done|done|apply moves_told_to_run|done|by left|]. intros Hi1.
  apply wp_bind, wp_service; [done..|]. cbn [su_services]. intros s Hs.
  destruct (sv_state s) as [|tid| |] eqn:Est; [|by apply wp_ret|..];
    (eapply wp_bind, wp_mono; [eapply keeps_spawn; [exact Hi1|exact Hs|intros t; congruence]|intros ? ? Hx; by apply wp_ret]).
Qed.

Lemma keeps_forward req : keeps (forward req).
Proof. apply keeps_bind; [eapply keeps_mild, mild_call|]. intros r. apply keeps_ret. Qed.

Lemma keeps_handle_op req : keeps (handle_op req).
Proof.
  unfold handle_op. destruct (bytes_eqb req (str "status-count")). { intros d Hi. by apply wp_bind, wp_gets, wp_ret. }
  destruct (Text.strip_prefix req _); [apply keeps_op_status|]. destruct (Text.strip_prefix req _); [apply keeps_op_restart|].
  destruct (Text.strip_prefix req _); [apply keeps_op_stop|]. destruct (Text.strip_prefix req _); [apply keeps_op_start|].
  destruct (bytes_eqb req _); [apply keeps_forward|]. destruct (_ || _); [apply keeps_forward|apply keeps_ret].
Qed.

(** ** The loop *)
Lemma keeps_pass : keeps (pass REAP_FUEL).
Proof.
  intros d Hi. unfold pass. apply wp_bind. eapply wp_mono; [apply wp_reap; [done|]|].
  { pose proof (law_bound (su_env d)). unfold REAP_FUEL. lia. }
  intros ? d1 Hi1. apply wp_bind. eapply wp_mono; [by apply (keeps_mild _ (fun _ => True) mild_ticks)|]. intros now d2 Hi2. apply wp_bind, wp_gets.
  apply wp_bind. eapply wp_mono; [apply wp_respawn; [|exact Hi2]|].
  { rewrite (inv_length _ Hi2). apply Forall_forall. intros i Hin. apply elem_of_seq in Hin. lia. }
  intros next d3 Hi3. cbv zeta. apply wp_bind. eapply wp_mono; [by apply (keeps_mild _ (fun _ => True) (mild_recv_until _ _))|]. intros [[c words]|e] d4 Hi4.
  - apply wp_bind. eapply wp_mono; [by apply keeps_handle_op|]. intros reply d5 Hi5.
    apply wp_bind. eapply wp_mono; [by apply (keeps_mild _ (fun _ => True) (mild_reply _ _))|]. intros ? d6 Hi6. by apply wp_ret.
  - destruct (e =? 10); [by apply wp_ret|]. apply wp_bind. eapply wp_mono; [by apply (keeps_mild _ (fun _ => True) (mild_exit _))|]. intros ? d5 Hi5. by apply wp_ret.
Qed.

Lemma keeps_supervise n : keeps (supervise REAP_FUEL n).
Proof.
  induction n as [|n IH]; cbn [supervise]; [apply keeps_ret|]. apply keeps_bind; [apply keeps_pass|]. intros [[]|e]; [exact IH|apply keeps_ret].
Qed.

(** ** The start *)
Lemma wp_autostart n : forall k d, inv d -> (k + n = length l0)%nat ->
  (forall j s, su_services d !! j = Some s -> (k <= j)%nat -> idle s) -> wp (autostart (seq k n)) (fun _ d' => inv d') d.
Proof.
  induction n as [|n IH]; intros k [l w] Hi Hk Hlater; cbn [seq autostart]; [by apply wp_ret|].
  apply wp_bind, wp_service; [done|lia|]. cbn [su_services] in *. intros s Hs. apply wp_bind. destruct (sv_autostart s).
  - apply wp_bind. eapply wp_mono; [apply (wp_spawn_service l w k s Hi Hs (Hlater k s Hs ltac:(lia)))|]. intros ? d1 [Hi1 Ho]. apply wp_ret.
    apply IH; [done|lia|]. intros j t Hj Hjk. rewrite Ho in Hj by lia. apply (Hlater j t Hj). lia.
  - apply wp_ret, IH; [done|lia|]. intros j t Hj Hjk. apply (Hlater j t Hj). lia.
Qed.
End supervisor.

Section theorems.
Context {W : Type} `{Children W}.
Implicit Types d : Sup (W := W).

Lemma inv_formed others l0 d : inv others l0 d -> well_formed d.
Proof. by intros [_ H2 H3 _]. Qed.

(** C32. The exit of a child moves exactly the service that ran it: to failed
    when it is not to be restarted, and otherwise to a wait of forty ticks from
    the clock - at every crash, however many came before. *)
Theorem restart_policy tid code d : well_formed d -> exists d',
  exited tid code d = Some ((), d') /\ su_services d' = after_exit tid (clock (su_env d)) <$> su_services d.
Proof.
  intros Hd. destruct Hd as [Hok Hdis]. destruct (proj1 (wp_run _ _ _) (wp_exited d tid code Hok Hdis)) as ([] & d' & E & E2 & _). eauto.
Qed.

(** ** From the start of the process *)

Definition fresh_entry (s : Service) : Prop := sv_state s = Stopped /\ sv_failures s = 0 /\ sv_restarts s = 0.

Lemma roster_line_fresh line s : roster_line line = Some s -> fresh_entry s.
Proof. unfold roster_line. destruct (List.filter _ _) as [|? [|? [|? ?]]]; [done..|]. by intros [= <-]. Qed.

(** The table while the roster is read: fresh entries, the children as they
    were. *)
Definition loading (n : nat) d d' : Prop :=
  Forall fresh_entry (su_services d') /\ (length (su_services d') <= n)%nat /\ calmer (su_env d) (su_env d').

Lemma wp_load_lines ids : forall n d d0, loading n d0 d -> wp (load_lines ids) (fun _ d' => loading (n + length ids) d0 d') d.
Proof.
  induction ids as [|i ids IH]; intros n [l w] d0 (Hd & Hl & Hc0); cbn [load_lines]; cbn [su_services su_env] in *; [apply wp_ret; split; [done|split; [cbn; lia|done]]|].
  cbn [su_services su_env] in *. apply wp_bind. eapply wp_mild; [apply mild_call|]. cbn [su_services su_env]. intros r w1 _ Hc. apply wp_bind.
  pose proof (calmer_trans _ _ _ Hc0 Hc) as Hc1.
  replace (n + length (i :: ids))%nat with (S n + length ids)%nat by (cbn; lia).
  assert (Hskip : wp (load_lines ids) (fun _ d' => loading (S n + length ids) d0 d') (mkSup l w1)) by (apply IH; split; [done|split; [cbn; lia|done]]).
  destruct r as [ws|e]; [|by apply wp_ret]. destruct (roster_line _) as [s|] eqn:Es; [|by apply wp_ret].
  apply wp_bind, wp_gets, wp_modify. cbn [su_services su_env]. apply IH. split; [|split; [|exact Hc1]]; cbn [su_services].
  - apply Forall_app. split; [done|]. constructor; [by eapply roster_line_fresh|constructor].
  - rewrite length_app. cbn [length]. lia.
Qed.

(** A fresh table runs nothing: every living child is another's. *)
Lemma fresh_inv (d : Sup (W := W)) (others : Z -> Prop) : Forall fresh_entry (su_services d) -> (forall t, alive (su_env d) t -> others t) -> inv others (su_services d) d.
Proof.
  intros Hd Ho. assert (Hidle : forall i s tid, su_services d !! i = Some s -> sv_state s <> Running tid).
  { intros i s tid Hi. pose proof (Forall_lookup_1 _ _ _ _ Hd Hi) as (E & _). by rewrite E. }
  split.
  - apply Forall2_same_length_lookup. split; [done|]. intros i x y Hx Hy. assert (x = y) as -> by congruence. done.
  - eapply Forall_impl; [exact Hd|]. intros s (E1 & E2 & E3). red. rewrite E1, E2, E3. done.
  - intros i s tid Hi Hs. by destruct (Hidle i s tid Hi).
  - split; [intros t Ht; left; by apply Ho|]. intros i s t Hi Hs. by destruct (Hidle i s t Hi).
Qed.

Lemma wp_load_roster d0 (w : W) : calmer (su_env d0) w -> wp load_roster (fun _ d' => loading 6 d0 d') (mkSup [] w).
Proof.
  intros Hc0. unfold load_roster. apply wp_bind. eapply wp_mild; [apply mild_call|]. cbn [su_services su_env]. intros r w1 _ Hc. cbv zeta.
  eapply wp_mono; [apply (wp_load_lines _ 0 _ d0); split; [constructor|split; [done|by eapply calmer_trans]]|].
  intros ? d' (H1 & H2 & H3). split; [done|]. split; [|done]. etrans; [exact H2|]. rewrite length_seqZ. unfold MAX_SERVICES. lia.
Qed.

(** The process: its table is the roster, with the services marked for it
    started; then the passes. *)
Lemma wp_main n (w : W) : wp (main REAP_FUEL n)
  (fun _ d' => exists l0, inv (alive w) l0 d' /\ (length (su_services d') <= 6)%nat) (mkSup [] w).
Proof.
  unfold main. apply wp_bind. eapply wp_mild; [apply mild_set_name|]. cbn [su_services su_env]. intros ? w1 _ Hc1. apply wp_bind.
  apply wp_bind. eapply wp_mild; [apply mild_print_split|]. cbn [su_services su_env]. intros ? w2 _ Hc2. apply wp_ret. apply wp_bind.
  eapply wp_mono; [apply (wp_load_roster (mkSup [] w)); by eapply calmer_trans|]. intros ? d3 (Hf & Hl & Hc). apply wp_bind, wp_gets, wp_bind.
  pose proof (fresh_inv d3 (alive w) Hf (cm_alive _ _ Hc)) as Hi. eapply wp_mono; [apply (wp_autostart (alive w) (su_services d3) _ 0 d3 Hi); [done|]|].
  - intros j s Hj _ tid Ht. pose proof (Forall_lookup_1 _ _ _ _ Hf Hj) as (E & _). congruence.
  - intros ? d4 Hi4. eapply wp_mono; [by apply (keeps_supervise (alive w) (su_services d3))|]. intros ? d5 Hi5.
    exists (su_services d3). split; [exact Hi5|]. by rewrite (inv_length _ _ _ Hi5).
Qed.

(** C30. The table and the children agree.  From the start of the process on,
    whatever the kernel, the roster, initfs and the operators answer, after any
    number of passes for which the process has memory: every child that lives (of those started since) is run by
    exactly one service of the table, and a service that runs names a child
    whose end no wait has reported.  So a running service is never started a
    second time, an operator's stop or restart gives a task up only after it
    was killed, and no collected child stays in the table. *)
Theorem supervisor_owns_children n (w : W) : exists r d',
  main REAP_FUEL n (mkSup [] w) = Some (r, d') /\
  (forall t, alive (su_env d') t -> ~ alive w t ->
     exists i s, su_services d' !! i = Some s /\ sv_state s = Running t /\
       forall j s', su_services d' !! j = Some s' -> sv_state s' = Running t -> j = i) /\
  (forall i s t, su_services d' !! i = Some s -> sv_state s = Running t -> ~ reported (su_env d') t).
Proof.
  destruct (proj1 (wp_run _ _ _) (wp_main n w)) as (r & d' & E & l0 & [_ _ Hd [Ha Hr]] & _). exists r, d'. split; [exact E|]. split; [|exact Hr].
  intros t Ht Hn. destruct (Ha t Ht) as [?|(i & s & Hi & Hs)]; [done|]. exists i, s. do 2 (split; [done|]). by apply (Hd i s t Hi Hs).
Qed.

(** C31. From the start of the process on, with any answers, the supervisor, as
    long as its allocations succeed, returns from any number of passes with a
    well-formed table: at most six
    services, no task twice, every counter in its range, a failure count of
    zero or one, and zero for a service that runs. *)
Theorem supervisor_table_typed n w : exists r d',
  main REAP_FUEL n (mkSup [] w) = Some (r, d') /\ (length (su_services d') <= 6)%nat /\
  Forall svc_ok (su_services d') /\ distinct (su_services d') (next_id (su_env d')).
Proof.
  destruct (proj1 (wp_run _ _ _) (wp_main n w)) as (r & d' & E & l0 & [_ H1 H2 _] & Hl). eauto 8.
Qed.

End theorems.

(** ** A stop during the back-off *)

(** C33. Stopping a service that waits for its restart answers "ok already-down",
    makes no system call and leaves it waiting: when its time comes it is
    started, unless fetching or spawning it fails. *)
Theorem stop_in_backoff {W} `{Abi W} (name : list Z) i s at_ now tid elf l (w w1 w2 : W) :
  l !! i = Some s -> find_service l (Text.trim name) = Some i -> sv_state s = Waiting at_ -> at_ <= now ->
  fetch_program (sv_name s) w = Some (Ok elf, w1) -> Userlib.spawn elf service_grants w1 = Some (Ok tid, w2) ->
  op_stop name (mkSup l w) = Some (str "ok already-down", mkSup (<[i := set_restart false s]> l) w) /\
  forall next, exists d, respawn [i] now next (mkSup (<[i := set_restart false s]> l) w) = Some (next, d) /\
    exists s', su_services d !! i = Some s' /\ sv_state s' = Running tid /\ sv_restart s' = false.
Proof.
  intros Hs Hf Hst Hat Ef Esp. assert (Hins : <[i := set_restart false s]> l !! i = Some (set_restart false s))
    by (apply list_lookup_insert_eq; by eapply lookup_lt_Some).
  split.
  - unfold op_stop, mbind, prog_bind, services, gets. cbn [su_services]. rewrite Hf. unfold service, mbind, prog_bind, services, gets, expect. cbn [su_services].
    rewrite Hs, Hst. unfold change, modify. cbn [su_services su_env]. by rewrite (alter_insert _ i s).
  - set (s1 := set_restart false s) in *. set (l1 := <[i := s1]> l) in *. intros next.
    set (s2 := set_failures 0 (set_state (Running tid) s1)).
    assert (Hsp : exists w3, spawn_service i (mkSup l1 w) = Some (true, mkSup (<[i := s2]> l1) w3)).
    { unfold spawn_service, mbind, prog_bind, service, mbind, prog_bind, services, gets, expect. cbn [su_services]. rewrite Hins. cbv zeta.
      unfold sys at 1, zoom. cbn [su_env]. change (sv_name s1) with (sv_name s). rewrite Ef. cbn [su_services].
      unfold sys at 1, zoom. cbn [su_env su_services]. rewrite Esp. cbn [su_services]. unfold change, modify. cbn [su_services su_env].
      rewrite (alter_insert _ i s1) by done. unfold audit, mbind, prog_bind, sys, zoom. cbn [su_env su_services].
      unfold Userlib.call, mbind, prog_bind, Userlib.trap. destruct (raw_full _ _ w2) as [[r buf] w3]. cbn. eauto. }
    destruct Hsp as [w3 Esp3].
    assert (Hl2 : <[i := s2]> l1 !! i = Some s2) by (apply list_lookup_insert_eq; by eapply lookup_lt_Some).
    exists (mkSup (<[i := set_restarts (wrap 64 (sv_restarts s2 + 1)) s2]> (<[i := s2]> l1)) w3). split.
    + cbn [respawn]. unfold mbind at 1, prog_bind, service at 1, mbind, prog_bind, services, gets, expect. cbn [su_services]. rewrite Hins.
      change (sv_state s1) with (sv_state s). rewrite Hst, (proj2 (Z.leb_le _ _) Hat). rewrite Esp3. unfold change, modify. cbn [su_services su_env].
      by rewrite (alter_insert _ i s2).
    + exists (set_restarts (wrap 64 (sv_restarts s2 + 1)) s2). split; [|done]. apply list_lookup_insert_eq. by eapply lookup_lt_Some.
Qed.

(** ** Witnesses *)

(** A service that runs as task 7, which has ended with code 5. *)
Definition lone : Sup := mkSup [mkService (str "heart") true true (Running 7) 0 0] (ChildSim.mkMachine [] [(7, 5)] 8 100).

Lemma lone_formed : well_formed lone.
Proof.
  split; [by repeat constructor|]. intros [|i] s tid Hi Hs; [|done]. cbn in Hi. injection Hi as <-. injection Hs as <-.
  split; [done|]. intros [|j] t Hj _; done.
Qed.

Lemma restart_policy_witness : exists d', exited 7 5 lone = Some ((), d') /\
  su_services d' = [mkService (str "heart") true true (Waiting 140) 1 0].
Proof. destruct (restart_policy 7 5 lone lone_formed) as (d' & E & E2). exists d'. split; [exact E|]. rewrite E2. reflexivity. Defined.

(** The same service waiting until tick 140, and initfs ready to send it. *)
Definition paused : Service := mkService (str "heart") true true (Waiting 140) 1 0.
Definition initfs_ready : ChildSim.Machine := ChildSim.mkMachine [msg.pack (str "len 3"); msg.pack (str "ELF")] [] 8 100.

Lemma stop_in_backoff_witness :
  op_stop (str "heart") (mkSup [paused] initfs_ready) = Some (str "ok already-down", mkSup [set_restart false paused] initfs_ready) /\
  forall next, exists d, respawn [0%nat] 150 next (mkSup [set_restart false paused] initfs_ready) = Some (next, d) /\
    exists s', su_services d !! 0%nat = Some s' /\ sv_state s' = Running 8 /\ sv_restart s' = false.
Proof.
  apply (stop_in_backoff (str "heart") 0 paused 140 150 8 (str "ELF") [paused] initfs_ready
    (ChildSim.mkMachine [] [] 8 100) (ChildSim.mkKernel [] [] 9 100 [8] [])); try reflexivity. lia.
Defined.

(** The first passes of a supervisor whose roster holds one service. *)
Example supervisor_starts : exists r d', main REAP_FUEL 0
    (mkSup [] (ChildSim.mkMachine [msg.pack []; msg.pack (str "1"); msg.pack (str "heart autostart restart"); msg.pack (str "len 3"); msg.pack (str "ELF")] [] 8 100)) = Some (r, d') /\
  su_services d' = [mkService (str "heart") true true (Running 8) 0 0].
Proof. eexists _, _. split; [vm_compute; reflexivity|reflexivity]. Qed.
