(* ===== verification/Requests.v ===== *)
(** * The request texts of the protocols

    Numbers are printed and parsed back, a name and an offset around the last
    space are recovered, a request keeps its prefix.  Shared by the theorems
    about a client talking to a server. *)

From S2P Require Import Prelude RustStd Prog Userlib UserlibTheorems StorageText StorageConfig.

Import Text.

(** ** Decimals *)

Definition is_digit (b : Z) : Prop := 48 <= b <= 57.

Lemma parse_digits_app l1 l2 : forall acc,
  parse_digits acc (l1 ++ l2) = match parse_digits acc l1 with Some a => parse_digits a l2 | None => None end.
Proof.
  induction l1 as [|d l1 IH]; intros acc; [done|]. cbn [app parse_digits]. destruct (is_ascii_digit d); [|done].
  destruct (_ <? _); [apply IH|done].
Qed.

Lemma digits_are_digits fuel : forall v, 0 <= v -> Forall is_digit (digits fuel v).
Proof.
  induction fuel as [|fuel IH]; intros v Hv; cbn [digits]; [constructor|]. destruct (0 <? v); [|constructor].
  constructor; [red; pose proof (Z.mod_pos_bound v 10); lia|apply IH, Z.div_pos; lia].
Qed.

Lemma parse_rev_digits fuel : forall v, 0 <= v < 10 ^ Z.of_nat fuel -> v < 2 ^ 64 -> parse_digits 0 (rev (digits fuel v)) = Some v.
Proof.
  induction fuel as [|fuel IH]; intros v Hv Hm; cbn [digits].
  - cbn in *. f_equal. lia.
  - destruct (Z.ltb_spec 0 v) as [H0|H0]; [|cbn; f_equal; lia]. cbn [rev]. rewrite parse_digits_app.
    assert (Hd : 0 <= v / 10 < 10 ^ Z.of_nat fuel).
    { split; [apply Z.div_pos; lia|]. apply Z.div_lt_upper_bound; [lia|]. rewrite Nat2Z.inj_succ, Z.pow_succ_r in Hv by lia. lia. }
    pose proof (Z.div_mod v 10 ltac:(lia)) as Hdm. pose proof (Z.mod_pos_bound v 10 ltac:(lia)) as Hmb.
    rewrite IH by (try exact Hd; lia). cbn [parse_digits]. unfold is_ascii_digit, in_range.
    rewrite (proj2 (Z.leb_le 48 _)), (proj2 (Z.leb_le _ 57)) by lia. cbn [andb].
    replace (10 * (v / 10) + (48 + v mod 10 - 48)) with v by lia. by rewrite (proj2 (Z.ltb_lt _ _)) by lia.
Qed.

Lemma digits_nonempty fuel v : 0 < v -> digits (S fuel) v <> [].
Proof. intros Hv. cbn [digits]. by rewrite (proj2 (Z.ltb_lt _ _)) by lia. Qed.

Lemma push_num_split out v : push_num out v = out ++ push_num [] v.
Proof. unfold push_num. by destruct (v =? 0). Qed.

Lemma push_num_digits v : 0 <= v -> Forall is_digit (push_num [] v) /\ push_num [] v <> [] /\ (length (push_num [] v) <= 20)%nat.
Proof.
  intros Hv. unfold push_num. destruct (Z.eqb_spec v 0) as [->|Hn].
  { split; [|split; [done|]]; [|cbn; lia]. repeat constructor; done. }
  cbn [app]. split; [|split].
  - apply Forall_rev, digits_are_digits, Hv.
  - intros E. apply (f_equal (@rev Z)) in E. rewrite rev_involutive in E. by eapply digits_nonempty; [|exact E]; lia.
  - rewrite length_rev. assert (Hl : forall fuel x, (length (digits fuel x) <= fuel)%nat).
    { induction fuel as [|fuel IH]; intros x; cbn [digits]; [done|]. destruct (0 <? x); cbn [length]; [specialize (IH (x / 10)); lia|lia]. }
    apply Hl.
Qed.

Lemma parse_push_num v : fits 64 v -> parse_u64 (push_num [] v) = Some v.
Proof.
  intros [H0 H1]. destruct (push_num_digits v H0) as (Hd & Hne & _). unfold parse_u64.
  destruct (push_num [] v) as [|d l] eqn:E; [done|]. rewrite (proj2 (Z.eqb_neq d 43)) by (apply Forall_inv in Hd; red in Hd; lia).
  rewrite <- E. unfold push_num. destruct (Z.eqb_spec v 0) as [->|Hn]; [done|]. cbn [app].
  apply parse_rev_digits; [|done]. split; [done|]. change (10 ^ Z.of_nat 20) with 100000000000000000000. lia.
Qed.

(** The number of digits grows with the number. *)
Lemma length_push_num v k : 0 <= v < 10 ^ Z.of_nat k -> (1 <= k <= 20)%nat -> (length (push_num [] v) <= k)%nat.
Proof.
  intros Hv Hk. unfold push_num. destruct (Z.eqb_spec v 0) as [->|Hn]; [cbn; lia|]. cbn [app]. rewrite length_rev. clear Hn.
  assert (Hl : forall fuel j x, 0 <= x < 10 ^ Z.of_nat j -> (length (digits fuel x) <= j)%nat).
  { induction fuel as [|fuel IH]; intros j x Hx; cbn [digits]; [cbn; lia|]. destruct (Z.ltb_spec 0 x); [|cbn; lia].
    destruct j as [|j]; [cbn in Hx; lia|]. cbn [length]. apply le_n_S, IH. split; [apply Z.div_pos; lia|].
    apply Z.div_lt_upper_bound; [lia|]. rewrite Nat2Z.inj_succ, Z.pow_succ_r in Hx by lia. lia. }
  by apply Hl.
Qed.

(** ** Requests *)

Lemma strip_prefix_same p r : strip_prefix (p ++ r) p = Some r.
Proof.
  unfold strip_prefix. rewrite length_app, (proj2 (Nat.leb_le _ _)) by lia. rewrite take_app_length, drop_app_length.
  rewrite (proj2 (bytes_eqb_eq p p)) by done. done.
Qed.

Lemma strip_prefix_None s p : take (length p) s <> p -> strip_prefix s p = None.
Proof.
  intros Hn. unfold strip_prefix. destruct (bytes_eqb _ _) eqn:E; [by apply bytes_eqb_eq in E|]. by rewrite andb_false_r.
Qed.

Lemma bytes_eqb_ne a b : a <> b -> bytes_eqb a b = false.
Proof. intros Hn. destruct (bytes_eqb a b) eqn:E; [by apply bytes_eqb_eq in E|done]. Qed.

(** White space at neither end. *)
Lemma trim_plain l : Forall (fun b => is_space b = false) l -> trim l = l.
Proof.
  intros Hl. apply trim_fix. assert (Hr : Forall (fun b => is_space b = false) (rev l)) by by apply Forall_rev.
  split; [by destruct Hl|by destruct Hr].
Qed.

Lemma digits_plain l : Forall is_digit l -> Forall (fun b => is_space b = false) l.
Proof. intros Hl. eapply Forall_impl; [exact Hl|]. intros b Hb. unfold is_space. red in Hb. rewrite !(proj2 (Z.eqb_neq _ _)) by lia. done. Qed.

(** The last space splits a name from digits. *)
Lemma rposition_last name ds : Forall is_digit ds -> rposition (fun c => c =? 32) (name ++ 32 :: ds) = Some (length name).
Proof.
  intros Hd. unfold rposition. rewrite rev_app_distr. cbn [rev]. rewrite <- app_assoc. cbn [app].
  assert (Hp : position (fun c => c =? 32) (rev ds ++ 32 :: rev name) = Some (length ds)).
  { rewrite <- length_rev. apply (position_first _ (rev ds) 32); [|done].
    apply Forall_rev. eapply Forall_impl; [exact Hd|]. intros b Hb. red in Hb. apply Z.eqb_neq. lia. }
  rewrite Hp. cbn. f_equal. rewrite length_app. cbn [length]. lia.
Qed.

Lemma name_and_offset name v : fits 64 v -> let rest := push_num (name ++ [32]) v in
  rposition (fun c => c =? 32) rest = Some (length name) /\ take (length name) rest = name /\
  trim (drop (length name + 1) rest) = push_num [] v /\ parse_u64 (trim (drop (length name + 1) rest)) = Some v.
Proof.
  intros Hv. destruct (push_num_digits v (proj1 Hv)) as (Hd & _ & _). cbv zeta. rewrite push_num_split, <- app_assoc. cbn [app].
  split; [by apply rposition_last|]. split; [apply take_app_length|].
  assert (E : drop (length name + 1) (name ++ 32 :: push_num [] v) = push_num [] v).
  { change (name ++ 32 :: push_num [] v) with (name ++ [32] ++ push_num [] v). rewrite app_assoc. apply drop_app_length'. rewrite length_app. done. }
  rewrite E, trim_plain by by apply digits_plain. split; [done|by apply parse_push_num].
Qed.

Lemma parse_chunk_req name v : trim name = name -> fits 64 v -> parse_app_chunk_req (push_num (name ++ [32]) v) = Some (name, v).
Proof.
  intros Hn Hv. destruct (name_and_offset name v Hv) as (E1 & E2 & _ & E4). unfold parse_app_chunk_req.
  rewrite E1. cbn. rewrite E4. cbn. by rewrite E2, Hn.
Qed.

(** ** Texts through a message *)

(** A text of at most forty bytes without NUL arrives as it was sent. *)
Definition sendable (b : list Z) : Prop := bytes_ok b /\ 0 ∉ b /\ (length b <= 40)%nat.

Lemma unpack_pack b : sendable b -> msg.unpack (msg.pack b) = b.
Proof.
  intros (Hb & H0 & Hl). rewrite unpack_until_nul, msg_pack_padded, padded_to_app by done.
  rewrite until_nul_zeros, take_ge by lia. by apply until_nul_free.
Qed.

Lemma raw_unpack_pack b : bytes_ok b -> (length b <= 40)%nat ->
  raw.unpack_all (msg.pack b) (replicate 40 0) = b ++ replicate (40 - length b) 0.
Proof.
  intros Hb Hl. rewrite unpack_all_spec by apply length_msg_pack. rewrite length_replicate, msg_pack_padded by done.
  rewrite padded_to_app, (take_ge b) by lia. rewrite take_ge by (rewrite length_app, length_replicate; lia).
  rewrite splice_0, length_app, length_replicate, drop_replicate. replace (40 - (length b + (40 - length b)))%nat with 0%nat by lia.
  cbn [replicate]. by rewrite app_nil_r.
Qed.

Lemma sendable_app a b : bytes_ok a -> 0 ∉ a -> bytes_ok b -> 0 ∉ b -> (length a + length b <= 40)%nat -> sendable (a ++ b).
Proof. intros. split; [by apply Forall_app|]. split; [rewrite elem_of_app; tauto|rewrite length_app; lia]. Qed.

Lemma str_no_nul s : forallb (fun b => negb (b =? 0)) (str s) = true -> 0 ∉ str s.
Proof. intros E Hin. rewrite forallb_forall in E. apply list_elem_of_In, E in Hin. by rewrite Z.eqb_refl in Hin. Qed.

Lemma digits_no_nul l : Forall is_digit l -> 0 ∉ l /\ bytes_ok l.
Proof.
  intros Hd. split.
  - intros Hin. rewrite Forall_forall in Hd. specialize (Hd 0 Hin). red in Hd. lia.
  - eapply Forall_impl; [exact Hd|]. intros b Hb. red in Hb |- *. lia.
Qed.

(** * A client and the server behind one of its endpoints

    [Client S W]: the world of a client whose calls on endpoint [ep] are served
    by the request handler of a server with state [S], over the kernel [W] for
    everything else.  The words travel as the kernel carries them (see
    [ipc_rendezvous] and [ipc_reply_delivers] of the kernel theorems): the
    server unpacks what the client packed and the reply comes back in the
    client's registers.  A server that panics is a dead peer. *)

Record Client (S W : Type) := mkClient { server : S; kernel : W }.
Arguments mkClient {S W} server kernel.
Arguments server {S W} c.
Arguments kernel {S W} c.

Definition PEER_DIED : Z := 7.

(** The registers of a reply of five words. *)
Definition reply_regs (w : list Z) : Ret := mkRet 0 (nth 0 w 0) (nth 1 w 0) (nth 2 w 0) (nth 3 w 0) (nth 4 w 0) 0.

Definition rpc {S W} `{Abi W} (ep : Z) (handle : list Z -> prog S (list Z)) : Abi (Client S W) := fun n args c =>
  match args with
  | [Word e; Word w0; Word w1; Word w2; Word w3; Word w4] =>
      if (n =? Sys.SYS_IPC_CALL) && (e =? ep) then
        match handle (msg.unpack [w0; w1; w2; w3; w4]) (server c) with
        | Some (reply, s) => (reply_regs (msg.pack reply), [], mkClient s (kernel c))
        | None => (mkRet PEER_DIED 0 0 0 0 0 0, [], c)
        end
      else let '(r, buf, w) := raw_full n args (kernel c) in (r, buf, mkClient (server c) w)
  | _ => let '(r, buf, w) := raw_full n args (kernel c) in (r, buf, mkClient (server c) w)
  end.

Section rpc.
Context {S W : Type} `{Abi W} (ep : Z) (handle : list Z -> prog S (list Z)).

Lemma five_words (w : list Z) : length w = 5%nat -> [nth 0 w 0; nth 1 w 0; nth 2 w 0; nth 3 w 0; nth 4 w 0] = w.
Proof. intros Hl. destruct w as [|a [|b [|c [|d [|e [|f w]]]]]]; done. Qed.

(** A call reaches the handler and brings its reply back. *)
Lemma rpc_call req reply s s' (k : W) : sendable req -> handle req s = Some (reply, s') ->
  @Userlib.call _ (rpc ep handle) ep (msg.pack req) (mkClient s k) = Some (Ok (msg.pack reply), mkClient s' k).
Proof.
  intros Hreq E. unfold Userlib.call, mbind, prog_bind, Userlib.trap, raw_full, rpc. rewrite Z.eqb_refl, Z.eqb_refl. cbn [andb server kernel].
  rewrite five_words by apply length_msg_pack. rewrite unpack_pack, E by done. unfold mret, prog_ret, Userlib.decode, reply_regs. cbn.
  by rewrite five_words by apply length_msg_pack.
Qed.
End rpc.
