(* ===== verification/Delivery.v ===== *)
(** * Programs delivered between servers

    Two pairs of programs that move an image in messages of forty bytes: the
    supervisor fetching a store program from initfs, and initfs fetching an
    installed program from the storage service. *)

From S2P Require Import Prelude RustStd HashStream Sha256 ChaCha20 Layout LayoutTheorems Ed25519 Prog Userlib UserlibTheorems Strings StorageText StorageConfig Storaged StorageEnv StorageLoad StorageAudit StorageInv StorageApps StorageInstall StorageUpdate StorageMount StorageServe StorageSim StorageWitness Initfs Supd SupdTheorems Requests.

Import Layout Text.

#[local] Opaque Ed25519.verify Sha256.sha256 WS_LEN.

(** ** Numbers in replies *)

Lemma digits_utf8 l : Forall is_digit l -> from_utf8 l = Some l.
Proof.
  intros Hl. unfold from_utf8. replace (utf8_valid l) with true; [done|]. symmetry. induction Hl as [|d l Hd _ IH]; [done|].
  cbn [utf8_valid]. unfold in_range at 1. red in Hd. by rewrite (proj2 (Z.leb_le 0 d)), (proj2 (Z.leb_le d 0x7f)) by lia.
Qed.

Lemma trim_with_digits fuel white s : Forall (fun p => match p with h :: _ => ~ is_digit h | [] => False end) white ->
  match s with d :: _ => is_digit d | [] => True end -> Strings.trim_with fuel white s = s.
Proof.
  intros Hw Hs. destruct fuel as [|fuel]; [done|]. cbn [Strings.trim_with].
  assert (E : find (Strings.prefixed s) white = None); [|by rewrite E].
  induction Hw as [|p white Hp _ IH]; [done|]. cbn [find]. destruct p as [|h p]; [done|].
  unfold Strings.prefixed at 1. rewrite bytes_eqb_ne; [exact IH|]. destruct s as [|d s]; [done|]. cbn [length take]. intros [= -> _]. done.
Qed.

Lemma white_no_digit : Forall (fun p => match p with h :: _ => ~ is_digit h | [] => False end) Strings.WHITE /\
  Forall (fun p => match p with h :: _ => ~ is_digit h | [] => False end) (@rev Z <$> Strings.WHITE).
Proof. split; vm_compute; repeat constructor; intros [H1 H2]; first [by apply H1|by apply H2]. Qed.

Lemma trim_digits l : Forall is_digit l -> Strings.trim l = l.
Proof.
  intros Hl. unfold Strings.trim. destruct white_no_digit as [H1 H2]. rewrite (trim_with_digits _ _ l H1) by (by destruct Hl).
  rewrite trim_with_digits; [apply rev_involutive|exact H2|]. apply Forall_rev in Hl. by destruct (rev l); [|apply Forall_inv in Hl].
Qed.

Lemma fetch_len_reply v : fits 64 v -> Supd.fetch_len (push_num (str "len ") v) = Some v.
Proof.
  intros Hv. destruct (push_num_digits v (proj1 Hv)) as (Hd & _). unfold Supd.fetch_len.
  rewrite push_num_split, strip_prefix_same. cbn [mbind option_bind].
  rewrite digits_utf8 by done. cbn [mbind option_bind]. rewrite trim_digits by done. by apply parse_push_num.
Qed.

(** ** The supervisor and initfs *)

Section fetch.
Context {V W : Type} `{Abi V} `{Abi W} (PUB HELLO FAULT HEART SHELL STORAGED SUPD : list Z).

#[local] Abbreviation store := (Initfs.store HELLO FAULT HEART SHELL STORAGED SUPD).
#[local] Abbreviation serve_initfs := (Initfs.dispatch_req (W := V) PUB HELLO FAULT HEART SHELL STORAGED SUPD).
#[local] Instance fetching : Abi (Client V W) := rpc Supd.fs serve_initfs.

Definition plain_name (n : list Z) : Prop :=
  Forall (fun b => is_space b = false) n /\ bytes_ok n /\ 0 ∉ n /\ (length n <= 12)%nat.

Lemma store_names name elf : (name, elf) ∈ store ->
  plain_name name /\ Initfs.lookup HELLO FAULT HEART SHELL STORAGED SUPD name = Some elf.
Proof.
  intros Hin. assert (Hp : forall s, forallb (fun b => negb (is_space b) && negb (b =? 0)) (str s) = true -> (length (str s) <= 12)%nat -> plain_name (str s)).
  { intros s E Hl. rewrite forallb_forall in E. split; [|split; [apply str_ok|split; [|exact Hl]]].
    - apply Forall_forall. intros b Hb. apply list_elem_of_In, E, andb_true_iff in Hb as [Hb _]. by apply negb_true_iff.
    - intros Hb. apply list_elem_of_In, E, andb_true_iff in Hb as [_ Hb]. done. }
  unfold Initfs.store in Hin. repeat (apply elem_of_cons in Hin; destruct Hin as [E|Hin];
    [apply pair_equal_spec in E as [-> ->]; split; [apply Hp; [reflexivity|cbn; lia]|reflexivity]|]). by apply elem_of_nil in Hin.
Qed.

Lemma dispatch_fetch name (s : V) : plain_name name ->
  serve_initfs (str "fetch " ++ name) s = Some (Initfs.fetch_meta HELLO FAULT HEART SHELL STORAGED SUPD name, s).
Proof.
  intros (Hn & _). unfold Initfs.dispatch_req. rewrite !strip_prefix_None by (cbn; discriminate). by rewrite strip_prefix_same, trim_plain.
Qed.
(** The reply to a chunk request: 38 bytes of the program, zero-padded. *)
Definition chunk38 (elf : list Z) (off : nat) : list Z :=
  splice 0 (slice off (Nat.min (length elf - off) 38) elf) (replicate 40 0).

Lemma dispatch_chunk name elf off (s : V) : (name, elf) ∈ store -> (off < length elf)%nat -> fits 64 (Z.of_nat off) ->
  serve_initfs (push_num (str "chunk " ++ name ++ [32]) (Z.of_nat off)) s = Some (chunk38 elf off, s).
Proof.
  intros Hin Hoff Hf. destruct (store_names name elf Hin) as ((Hn & _) & Hl). unfold Initfs.dispatch_req.
  rewrite (push_num_split (str "chunk " ++ _)), <- app_assoc. rewrite !strip_prefix_None by (cbn; discriminate).
  rewrite strip_prefix_same. unfold mret, prog_ret. do 2 f_equal. unfold Initfs.handle_chunk. rewrite strip_prefix_same, <- push_num_split.
  destruct (name_and_offset name (Z.of_nat off) Hf) as (E1 & E2 & _ & E4). rewrite E1, E4, E2, (trim_plain name), Hl by done.
  rewrite (proj2 (Z.leb_gt _ _)) by lia. cbv zeta. rewrite Nat2Z.id. unfold chunk38. do 2 f_equal. lia.
Qed.

Lemma chunk38_unpacked elf off n : bytes_ok elf -> (off < length elf)%nat -> n = Nat.min (length elf - off) 38 ->
  take n (raw.unpack_all (msg.pack (chunk38 elf off)) (replicate 40 0)) = slice off n elf.
Proof.
  intros Hb Ho ->. set (n := Nat.min (length elf - off) 38). assert (Hl : length (slice off n elf) = n) by (apply length_slice; lia).
  assert (Hc : chunk38 elf off = slice off n elf ++ replicate (40 - n) 0).
  { unfold chunk38. fold n. rewrite splice_0, Hl, drop_replicate. done. }
  rewrite raw_unpack_pack.
  - rewrite Hc, <- app_assoc. rewrite take_app_le by lia. apply take_ge. lia.
  - rewrite Hc. apply Forall_app. split; [by apply Forall_take, Forall_drop|apply Forall_replicate; done].
  - rewrite Hc, length_app, length_replicate. lia.
Qed.

Lemma fetch_chunks_delivers name elf fuel (s : V) (k : W) : (name, elf) ∈ store -> bytes_ok elf -> Z.of_nat (length elf) <= 1024 * 1024 ->
  forall buf, buf = take (length buf) elf -> (length elf < length buf + fuel)%nat ->
  Supd.fetch_chunks fuel name (length elf) buf (mkClient s k) = Some (Ok elf, mkClient s k).
Proof.
  intros Hin Hb Hmax. destruct (store_names name elf Hin) as ((Hn & Hnb & Hn0 & Hnl) & _).
  induction fuel as [|fuel IH]; intros buf Hbuf Hf.
  { assert (length buf <= length elf)%nat by (rewrite Hbuf, length_take; lia). lia. }
  cbn [Supd.fetch_chunks]. assert (Hle : (length buf <= length elf)%nat) by (rewrite Hbuf, length_take; lia).
  destruct (Nat.ltb_spec (length buf) (length elf)) as [Hlt|Hge]; cycle 1.
  { rewrite Hbuf, take_ge by lia. done. }
  assert (Hfit : fits 64 (Z.of_nat (length buf))) by (red; lia). destruct (push_num_digits (Z.of_nat (length buf)) (proj1 Hfit)) as (Hd & _).
  destruct (digits_no_nul _ Hd) as [Hd0 Hdb].
  assert (Hreq : sendable (push_num (str "chunk " ++ name ++ [32]) (Z.of_nat (length buf)))).
  { rewrite push_num_split. apply sendable_app; [|rewrite !elem_of_app|exact Hdb|exact Hd0|].
    - repeat (apply Forall_app; split); [apply str_ok|exact Hnb|by repeat constructor].
    - intros [Hx|[Hx|Hx]]; [by apply str_no_nul in Hx|done|by apply list_elem_of_singleton in Hx].
    - pose proof (length_push_num (Z.of_nat (length buf)) 7 ltac:(lia) ltac:(lia)). rewrite !length_app. cbn [length str]. lia. }
  unfold mbind at 1, prog_bind. rewrite (rpc_call Supd.fs serve_initfs _ _ _ _ k Hreq (dispatch_chunk name elf (length buf) s Hin Hlt Hfit)).
  cbv beta iota zeta. rewrite (chunk38_unpacked elf (length buf) _ Hb Hlt eq_refl). set (n := Nat.min (length elf - length buf) 38).
  assert (Hs : length (slice (length buf) n elf) = n) by (apply length_slice; lia).
  apply IH; rewrite length_app, Hs; [|lia]. rewrite Hbuf at 1. unfold slice. apply take_take_drop.
Qed.

(** C25. The supervisor fetching a store program from initfs, message by
    message, obtains exactly the image initfs was built with, for every program
    of the store up to the limit of one mebibyte. *)
Theorem fetch_delivers name elf (s : V) (k : W) : (name, elf) ∈ store -> bytes_ok elf -> Z.of_nat (length elf) <= 1024 * 1024 ->
  Supd.fetch_program name (mkClient s k) = Some (Ok elf, mkClient s k).
Proof.
  intros Hin Hb Hmax. destruct (store_names name elf Hin) as (Hp & Hl). pose proof Hp as (Hn & Hnb & Hn0 & Hnl).
  assert (Hreq : sendable (str "fetch " ++ name)).
  { apply sendable_app; [apply str_ok|by apply str_no_nul|exact Hnb|exact Hn0|cbn; lia]. }
  unfold Supd.fetch_program. unfold mbind at 1, prog_bind. rewrite (rpc_call Supd.fs serve_initfs _ _ _ _ k Hreq (dispatch_fetch name s Hp)).
  cbv beta iota. unfold Initfs.fetch_meta. rewrite Hl. assert (Hfit : fits 64 (Z.of_nat (length elf))) by (red; lia).
  destruct (push_num_digits (Z.of_nat (length elf)) (proj1 Hfit)) as (Hd & _ & Hdl). destruct (digits_no_nul _ Hd) as [Hd0 Hdb].
  rewrite unpack_pack.
  - rewrite fetch_len_reply by done. rewrite (proj2 (Z.ltb_ge _ _)), Nat2Z.id by lia. by apply fetch_chunks_delivers; [| | | |cbn [length]; lia].
  - rewrite push_num_split. apply sendable_app; [apply str_ok|by apply str_no_nul|exact Hdb|exact Hd0|cbn [length str]; lia].
Qed.
End fetch.

(** A store whose supervisor image is 100 bytes: three messages. *)
Definition supd_image : list Z := seqZ 0 100.
Definition calm : ChildSim.Machine := ChildSim.mkMachine [] [] 8 0.

Lemma fetch_delivers_witness :
  @Supd.fetch_program _ (rpc Supd.fs (Initfs.dispatch_req (W := ChildSim.Machine) [] [] [] [] [] [] supd_image)) (str "supd") (mkClient calm calm)
    = Some (Ok supd_image, mkClient calm calm).
Proof.
  apply (fetch_delivers [] [] [] [] [] [] supd_image (str "supd") supd_image calm calm).
  - unfold Initfs.store. do 5 apply list_elem_of_further. apply list_elem_of_here.
  - apply Forall_forall. intros b Hb. apply elem_of_seqZ in Hb. red. lia.
  - unfold supd_image. rewrite length_seqZ. lia.
Defined.

(** * Installed programs, from the sealed slot to the launch

    initfs asks the storage service for an installed program - its length and
    version, its digest, its signature in two halves, its bytes forty at a time -
    and checks digest and signature again before it launches the program. *)

Import Layout Text Storaged.

#[local] Opaque Ed25519.verify Sha256.sha256 WS_LEN.

Lemma split_on_last sep l : sep ∉ l -> split_on sep l = [l].
Proof.
  induction l as [|b l IH]; intros Hn; [done|]. apply not_elem_of_cons in Hn as [Hb Hl]. rewrite split_on_cons, (IH Hl).
  by rewrite (proj2 (Z.eqb_neq b sep)) by done.
Qed.

Section installed.
Context {V K : Type} `{Volume V} `{Abi K} (PUB : list Z).
#[local] Abbreviation Sd := (Sd (W := V)).
#[local] Instance asking : Abi (Client Sd K) := rpc Initfs.info (Storaged.handle_query (W := V)).

(** ** Names *)

Lemma valid_name name : app_name_valid name = true ->
  Forall (fun b => is_space b = false) name /\ bytes_ok name /\ 0 ∉ name /\ (0 < length name <= APP_NAME_MAX)%nat.
Proof.
  unfold app_name_valid. intros [[E1 E2]%andb_true_iff Hall]%andb_true_iff. apply Nat.leb_le in E2. rewrite forallb_forall in Hall.
  assert (Hch : forall b, b ∈ name -> 45 <= b <= 122).
  { intros b Hb. apply list_elem_of_In, Hall in Hb. unfold is_ascii_alphanumeric, is_ascii_digit, is_ascii_lowercase, is_ascii_uppercase, in_range in Hb. lia. }
  split; [|split; [|split]].
  - apply Forall_forall. intros b Hb. specialize (Hch b Hb). unfold is_space. rewrite !(proj2 (Z.eqb_neq _ _)) by lia. done.
  - apply Forall_forall. intros b Hb. specialize (Hch b Hb). red. lia.
  - intros Hb. specialize (Hch 0 Hb). lia.
  - split; [|exact E2]. destruct name; [done|]. cbn. lia.
Qed.

Lemma best_app_name apps name e : best_app apps name = Some e -> entry_name e = name.
Proof. intros E. apply best_app_In in E as [_ E]. unfold same_app_name in E. bool_facts. by apply bytes_eqb_eq. Qed.

(** ** Where a request goes *)
#[local] Ltac route := unfold handle_query, handle_app_query, st, gets, mbind, prog_bind; rewrite !strip_prefix_None by (cbn; discriminate);
  rewrite !bytes_eqb_ne by (cbn; discriminate); cbn [after_prefix]; rewrite !strip_prefix_None by (cbn; discriminate);
  rewrite strip_prefix_same.

Lemma route_info name (d : Sd) : handle_query (str "ai " ++ name) d = app_info (trim name) d.
Proof. route. reflexivity. Qed.

Lemma route_hash name (d : Sd) : handle_query (str "ah " ++ name) d = Some (app_hash (sd_st d) (trim name), d).
Proof. route. reflexivity. Qed.

Lemma route_sig name off (d : Sd) : trim name = name -> fits 64 off ->
  handle_query (push_num ((str "as " ++ name) ++ [32]) off) d = Some (app_sig (sd_st d) name off, d).
Proof.
  intros Hn Hf. rewrite push_num_split, <- !app_assoc. route. rewrite app_assoc, <- push_num_split.
  rewrite parse_chunk_req by done. reflexivity.
Qed.

Lemma route_chunk name off (d : Sd) : trim name = name -> fits 64 off ->
  handle_query (push_num (str "ac " ++ name ++ [32]) off) d = app_chunk name off d.
Proof.
  intros Hn Hf. rewrite push_num_split, <- !app_assoc. route. rewrite app_assoc, <- push_num_split.
  rewrite parse_chunk_req by done. reflexivity.
Qed.

(** ** Once the program is in the workspace *)

Record ready (e : AppEntry) (plain : list Z) (d : Sd) : Prop := {
  rd_cached : cached_app (sd_st d) = Some e;
  rd_best : best_app (apps (sd_st d)) (entry_name e) = Some e;
  rd_wf : entry_wf e;
  rd_plain : take (Z.to_nat (ae_payload_len e)) (sd_ws d) = plain;
  rd_len : length plain = Z.to_nat (ae_payload_len e);
  rd_bytes : bytes_ok plain;
}.

Definition chunk40 (bytes : list Z) (off : nat) : list Z :=
  splice 0 (slice off (Nat.min (length bytes - off) 40) bytes) (replicate 40 0).

Lemma cached_again e plain d : ready e plain d -> cache_app (entry_name e) d = Some (Some e, d).
Proof.
  intros [R1 R2 _ _ _ _]. unfold cache_app, st, gets, mbind, prog_bind, id. rewrite R2, R1. unfold cache_hit. by rewrite !Z.eqb_refl.
Qed.

Lemma ready_chunk e plain d off : ready e plain d -> (off < length plain)%nat ->
  app_chunk (entry_name e) (Z.of_nat off) d = Some (chunk40 plain off, d).
Proof.
  intros R Ho. unfold app_chunk. unfold mbind at 1, prog_bind. rewrite (cached_again e plain d R). destruct R as [_ _ Hwf Hp Hl _].
  pose proof (ew_payload e Hwf). rewrite (proj2 (Z.leb_gt _ _)) by lia. unfold mbind, prog_bind, workspace, gets. rewrite Nat2Z.id.
  assert (Hw : (Z.to_nat (ae_payload_len e) <= length (sd_ws d))%nat) by (rewrite <- Hp, length_take in Hl; lia).
  rewrite (proj2 (Nat.ltb_ge _ _)) by lia. unfold mret, prog_ret, chunk40. do 3 f_equal. rewrite Hl, <- Hp. unfold slice.
  rewrite skipn_firstn_comm, take_take. f_equal. lia.
Qed.

(** Forty raw bytes through the reply registers. *)
Lemma raw_chunk bytes off n : bytes_ok bytes -> (off <= length bytes)%nat -> (n <= Nat.min (length bytes - off) 40)%nat ->
  take n (Initfs.raw_bytes (msg.pack (chunk40 bytes off))) = slice off n bytes.
Proof.
  intros Hb Ho Hn. set (m := Nat.min (length bytes - off) 40) in *. assert (Hl : length (slice off m bytes) = m) by (apply length_slice; lia).
  assert (Hc : chunk40 bytes off = slice off m bytes ++ replicate (40 - m) 0).
  { unfold chunk40. fold m. rewrite splice_0, Hl, drop_replicate. done. }
  unfold Initfs.raw_bytes. rewrite raw_unpack_pack.
  - rewrite Hc, <- app_assoc, take_app_le by lia. unfold slice. rewrite take_take. f_equal. lia.
  - rewrite Hc. apply Forall_app. split; [by apply Forall_take, Forall_drop|apply Forall_replicate; done].
  - rewrite Hc, length_app, length_replicate. lia.
Qed.

Lemma ask_reply req reply (d d' : Sd) (k : K) : sendable req -> handle_query req d = Some (reply, d') ->
  Initfs.ask req (mkClient d k) = Some (Some (msg.pack reply), mkClient d' k).
Proof. intros Hr E. unfold Initfs.ask, mbind, prog_bind. by rewrite (rpc_call Initfs.info handle_query req reply d d' k Hr E). Qed.

Lemma sendable_name p name tail : forallb (fun b => negb (b =? 0)) (str p) = true -> length (str p) = 3%nat -> app_name_valid name = true ->
  bytes_ok tail -> 0 ∉ tail -> (length tail <= 13)%nat -> sendable (str p ++ name ++ tail).
Proof.
  intros Hp Hlen Hn Hb Hz Hl. destruct (valid_name name Hn) as (_ & Hnb & Hn0 & Hnl). unfold APP_NAME_MAX in Hnl.
  apply sendable_app; [apply str_ok|by apply str_no_nul|by apply Forall_app|rewrite elem_of_app; tauto|rewrite length_app; lia].
Qed.

Lemma small_tail v : 0 <= v < 10 ^ 6 -> let t := [32] ++ push_num [] v in bytes_ok t /\ 0 ∉ t /\ (length t <= 13)%nat.
Proof.
  intros Hv. destruct (push_num_digits v (proj1 Hv)) as (Hd & _). destruct (digits_no_nul _ Hd) as [Hd0 Hdb].
  pose proof (length_push_num v 6 Hv ltac:(lia)). cbv zeta. split; [by apply Forall_app; split; [repeat constructor|]|].
  split; [|rewrite length_app; cbn [length]; lia]. rewrite elem_of_app. intros [Hx|Hx]; [by apply list_elem_of_singleton in Hx|done].
Qed.

(** The loop of the forty-byte requests. *)
Lemma fetch_elf_delivers e plain d k fuel : ready e plain d ->
  forall buf, buf = take (length buf) plain -> (length plain < length buf + fuel)%nat ->
  Initfs.fetch_elf fuel (entry_name e) (length plain) buf (mkClient d k) = Some (Some plain, mkClient d k).
Proof.
  intros R. pose proof R as [_ _ Hwf _ Hlen Hb]. pose proof (ew_valid e Hwf) as Hv. destruct (valid_name _ Hv) as (Hn & _).
  pose proof (ew_payload e Hwf) as Hcap. change APP_PAYLOAD_CAP with 261632 in Hcap.
  induction fuel as [|fuel IH]; intros buf Hbuf Hf.
  { assert (length buf <= length plain)%nat by (rewrite Hbuf, length_take; lia). lia. }
  cbn [Initfs.fetch_elf]. assert (Hle : (length buf <= length plain)%nat) by (rewrite Hbuf, length_take; lia).
  destruct (Nat.ltb_spec (length buf) (length plain)) as [Hlt|Hge]; cycle 1.
  { rewrite Hbuf, take_ge by lia. done. }
  destruct (small_tail (Z.of_nat (length buf)) ltac:(lia)) as (Ht1 & Ht2 & Ht3).
  assert (Hreq : sendable (push_num (str "ac " ++ entry_name e ++ [32]) (Z.of_nat (length buf)))).
  { rewrite push_num_split, <- !app_assoc. apply sendable_name; try done. }
  assert (E : handle_query (push_num (str "ac " ++ entry_name e ++ [32]) (Z.of_nat (length buf))) d = Some (chunk40 plain (length buf), d)).
  { rewrite route_chunk; [by apply ready_chunk|by apply trim_plain|red; lia]. }
  unfold mbind at 1, prog_bind. rewrite (ask_reply _ _ _ _ k Hreq E). cbv beta iota.
  rewrite (raw_chunk plain (length buf) _ Hb) by lia. set (n := Nat.min (length plain - length buf) 40).
  assert (Hs : length (slice (length buf) n plain) = n) by (apply length_slice; lia).
  apply IH; rewrite length_app, Hs; [|lia]. rewrite Hbuf at 1. unfold slice. apply take_take_drop.
Qed.

(** ** The replies about the program *)

Definition info_reply (e : AppEntry) : list Z :=
  push_num (push_num (str "len ") (ae_payload_len e) ++ str " ver ") (ae_version e).

Lemma info_reply_split e : info_reply e = str "len" ++ 32 :: push_num [] (ae_payload_len e) ++ 32 :: str "ver" ++ 32 :: push_num [] (ae_version e).
Proof. unfold info_reply. rewrite push_num_split, (push_num_split (str "len ")). rewrite <- !app_assoc. reflexivity. Qed.

Lemma info_parsed e : entry_wf e -> sendable (info_reply e) /\ Initfs.parse_app_info (info_reply e) = Some (ae_payload_len e, ae_version e).
Proof.
  intros Hwf. pose proof (ew_payload e Hwf) as Hcap. change APP_PAYLOAD_CAP with 261632 in Hcap. destruct (ew_version e Hwf) as [Hv0 Hv1].
  destruct (push_num_digits (ae_payload_len e) ltac:(lia)) as (Hd1 & _). destruct (push_num_digits (ae_version e) Hv0) as (Hd2 & _ & Hl2).
  pose proof (length_push_num (ae_payload_len e) 6 ltac:(lia) ltac:(lia)) as Hl1.
  destruct (digits_no_nul _ Hd1) as [Hz1 Hb1], (digits_no_nul _ Hd2) as [Hz2 Hb2].
  assert (Hsp : forall l, Forall is_digit l -> 32 ∉ l).
  { intros l Hl Hin. rewrite Forall_forall in Hl. specialize (Hl 32 Hin). red in Hl. lia. }
  split.
  - unfold info_reply. rewrite push_num_split, (push_num_split (str "len ")). split; [|split].
    + repeat (apply Forall_app; split); [apply str_ok|exact Hb1|apply str_ok|exact Hb2].
    + rewrite !elem_of_app. intros [[[Hx|Hx]|Hx]|Hx]; [exact (str_no_nul "len " eq_refl Hx)|exact (Hz1 Hx)|exact (str_no_nul " ver " eq_refl Hx)|exact (Hz2 Hx)].
    + rewrite !length_app. cbn [length str]. change (length (str "len ")) with 4%nat. change (length (str " ver ")) with 5%nat. lia.
  - rewrite info_reply_split. unfold Initfs.parse_app_info.
    pose proof (parse_push_num (ae_payload_len e) ltac:(red; lia)) as Ep1. pose proof (parse_push_num (ae_version e) ltac:(red; lia)) as Ep2.
    pose proof (Hsp _ Hd1) as Hs1. pose proof (Hsp _ Hd2) as Hs2. pose proof (digits_utf8 _ Hd1) as Eu1. pose proof (digits_utf8 _ Hd2) as Eu2.
    generalize dependent (push_num [] (ae_payload_len e)). intros l1. intros. generalize dependent (push_num [] (ae_version e)). intros l2. intros.
    assert (Hne : forall p, forallb (fun b => negb (b =? 32)) (str p) = true -> 32 ∉ str p).
    { intros p E Hin. rewrite forallb_forall in E. apply list_elem_of_In, E in Hin. by rewrite Z.eqb_refl in Hin. }
    rewrite (split_on_app 32 (str "len") _ (Hne "len"%string eq_refl)), (split_on_app 32 l1 _ Hs1), (split_on_app 32 (str "ver") _ (Hne "ver"%string eq_refl)), (split_on_last 32 l2 Hs2).
    change (bytes_eqb (str "len") (str "len")) with true. change (bytes_eqb (str "ver") (str "ver")) with true. cbn [negb].
    rewrite Eu1, Eu2. cbn [mbind option_bind]. by rewrite Ep1, Ep2.
Qed.

(** ** What initfs obtains *)

Lemma app_fixed_hash e plain d k : ready e plain d ->
  exists b, Initfs.app_fixed (str "ah ") (entry_name e) 0 32 (mkClient d k) = Some (Some b, mkClient d k) /\ take 32 b = ae_payload_sha e.
Proof.
  intros [_ Hbest Hwf _ _ _]. destruct (ew_sha e Hwf) as [Hl Hb]. destruct (valid_name _ (ew_valid e Hwf)) as (Hn & _).
  unfold Initfs.app_fixed. cbv zeta. change (bytes_eqb (str "ah ") (str "as ")) with false. cbv iota.
  assert (Hreq : sendable (str "ah " ++ entry_name e)).
  { rewrite <- (app_nil_r (entry_name e)). apply sendable_name; [done|done|apply Hwf|constructor|apply not_elem_of_nil|cbn; lia]. }
  pose proof (route_hash (entry_name e) d) as E. rewrite trim_plain in E by done. unfold app_hash in E. rewrite Hbest in E.
  unfold mbind at 1, prog_bind. rewrite (ask_reply _ _ _ _ k Hreq E). eexists. split; [reflexivity|].
  unfold Initfs.raw_bytes. rewrite raw_unpack_pack by (first [done|lia]). by rewrite take_app_le, take_ge by lia.
Qed.

Lemma app_fixed_sig e plain d k off want : ready e plain d -> (off < 64)%nat -> (want <= Nat.min (64 - off) 40)%nat ->
  exists b, Initfs.app_fixed (str "as ") (entry_name e) (Z.of_nat off) (Z.of_nat want) (mkClient d k) = Some (Some b, mkClient d k) /\
    take want b = slice off want (ae_signature e).
Proof.
  intros [_ Hbest Hwf _ _ _] Ho Hw. destruct (ew_signature e Hwf) as [Hl Hb]. destruct (valid_name _ (ew_valid e Hwf)) as (Hn & _).
  unfold Initfs.app_fixed. cbv zeta. change (bytes_eqb (str "as ") (str "as ")) with true. cbv iota.
  destruct (small_tail (Z.of_nat off) ltac:(lia)) as (Ht1 & Ht2 & Ht3).
  assert (Hreq : sendable (push_num ((str "as " ++ entry_name e) ++ [32]) (Z.of_nat off))).
  { rewrite push_num_split, <- !app_assoc. apply sendable_name; try done. apply Hwf. }
  assert (E : handle_query (push_num ((str "as " ++ entry_name e) ++ [32]) (Z.of_nat off)) d = Some (chunk40 (ae_signature e) off, d)).
  { rewrite route_sig; [|by apply trim_plain|red; lia]. unfold app_sig. rewrite Hbest, Hl, (proj2 (Z.leb_gt _ _)), Nat2Z.id by lia.
    unfold chunk40. by rewrite Hl. }
  unfold mbind at 1, prog_bind. rewrite (ask_reply _ _ _ _ k Hreq E). rewrite (proj2 (Z.ltb_ge _ _)) by lia. eexists. split; [reflexivity|].
  apply raw_chunk; [done|lia|lia].
Qed.

(** The cache names [e] only while the workspace holds the program. *)
Definition cache_truthful (e : AppEntry) (plain : list Z) (d : Sd) : Prop :=
  cache_hit (cached_app (sd_st d)) e = true -> cached_app (sd_st d) = Some e /\ take (Z.to_nat (ae_payload_len e)) (sd_ws d) = plain.

(** The service lists [e], whose slot holds [plain] sealed and signed under the
    key initfs pins, on a disk that does not fail. *)
Record fetchable D F (e : AppEntry) (plain : list Z) (d : Sd) : Prop := {
  fe_serving : serving true D F d;
  fe_slots : slots_only F;
  fe_block : block (sd_st d) = Some 3;
  fe_cache : cache_truthful e plain d;
  fe_best : best_app (apps (sd_st d)) (entry_name e) = Some e;
  fe_holds : app_holds D (vol_key (sd_st d)) (pubkey (sd_st d)) e plain;
  fe_pinned : Initfs.pinned_pubkey PUB = pubkey (sd_st d);
  fe_len : ae_payload_len e <= APP_STAGE_CAP;
}.

(** The first question brings the program into the workspace, if it is not
    there already. *)
Lemma info_loads D F e plain d0 : fetchable D F e plain d0 ->
  exists d, app_info (entry_name e) d0 = Some (info_reply e, d) /\ ready e plain d /\ fetchable D F e plain d.
Proof.
  destruct d0 as [s ws w]. intros [Hsv HF Hblk Hca Hbest Hh Hpk Hcap]. cbn [sd_st] in *.
  assert (Hwp : wp (app_info (entry_name e)) (fun r d => r = info_reply e /\ ready e plain d /\ fetchable D F e plain d) (mkSd s ws w)).
  { unfold app_info. apply wp_bind. eapply wp_cache_app; [exact Hsv|exact HF|]. intros [e1|] s' ws' w' Hsv' Hc; cbn in Hc; cycle 1.
    { destruct Hc as [_ Hno]. destruct (Hno eq_refl Hblk e Hbest). by apply (app_holds_held D _ _ e plain). }
    destruct Hc as (best & Eb & Hslot & Hver & Hwf & Hc). assert (best = e) as -> by congruence.
    assert (Hc' : e1 = e /\ take (Z.to_nat (ae_payload_len e)) ws' = plain /\ s' = set_cached (Some e) s).
    { destruct Hc as [(Hx & -> & ->)|(-> & _ & Hh1)].
      - unfold cache_truthful in Hca. cbn [sd_st sd_ws] in Hca. rewrite Hx in Hca. unfold cache_hit in Hca. rewrite Hslot, Hver, !Z.eqb_refl in Hca.
        destruct (Hca eq_refl) as [[= ->] Hp]. split; [done|]. split; [exact Hp|]. rewrite <- Hx. by destruct s.
      - destruct (app_holds_unique _ _ _ _ _ _ _ Hh Hh1 (eq_sym Hslot)) as [<- Hp]. by split. }
    destruct Hc' as (-> & Hp & ->). apply wp_ret. split; [done|].
    destruct (sv_ws _ _ _ _ Hsv') as [Hwl Hwb]. cbn [sd_ws] in Hwl, Hwb. pose proof (ew_payload e Hwf) as Hcap'. change APP_PAYLOAD_CAP with 261632 in Hcap'.
    pose proof WS_LEN_Z. split; [split; cbn; [exact eq_refl|exact Hbest|exact Hwf|exact Hp|rewrite <- Hp, length_take; lia|rewrite <- Hp; by apply Forall_take]|].
    split; [exact Hsv'|exact HF|exact Hblk|intros _; split; [exact eq_refl|exact Hp]|exact Hbest|exact Hh|exact Hpk|exact Hcap]. }
  apply wp_run in Hwp as (r & d & E & -> & Hr & Hf). exists d. by split.
Qed.

(** C24. A program the storage service lists, and whose slot holds it sealed and
    signed under the pinned key, is what initfs obtains: length, version, digest,
    both halves of the signature and every forty-byte chunk arrive, digest and
    signature verify again, and the bytes to launch are the program's; it is
    obtained in the same way again from the state this leaves.  Two things are
    assumed ([fetchable]): no transfer of the disk fails, and if the service
    has the program marked as cached, its workspace holds it - which the first
    fetch establishes and which a failed installation can break
    ([stale_cache_serves_staging]). *)
Theorem installed_app_delivered D F e plain (d0 : Sd) (k : K) : fetchable D F e plain d0 ->
  exists d, Initfs.load_installed_app PUB (entry_name e) (mkClient d0 k) = Some (Ok plain, mkClient d k) /\ fetchable D F e plain d.
Proof.
  intros Hf. destruct (info_loads D F e plain d0 Hf) as (d & Einfo & R & Hf').
  exists d. split; [|exact Hf']. pose proof Hf as [_ _ _ _ _ Hh Hpk Hcap]. pose proof (rd_wf _ _ _ R) as Hwf. destruct (valid_name _ (ew_valid e Hwf)) as (Hn & _ & _ & Hl0 & Hl1).
  pose proof (ew_payload e Hwf) as Hlen. destruct Hh as (hdr & _ & _ & _ & _ & _ & Hsha & Hver). rewrite <- Hpk in Hver.
  unfold Initfs.load_installed_app. rewrite (proj2 (Nat.eqb_neq _ _)), (proj2 (Nat.ltb_ge _ _)) by lia. cbn [orb].
  assert (Hreq : sendable (str "ai " ++ entry_name e)).
  { rewrite <- (app_nil_r (entry_name e)). apply sendable_name; [done|done|apply Hwf|constructor|apply not_elem_of_nil|cbn; lia]. }
  destruct (info_parsed e Hwf) as [Hsend Hparse]. rewrite <- (trim_plain (entry_name e)) in Einfo at 1 by done. rewrite <- route_info in Einfo.
  assert (Ei : Initfs.app_info (entry_name e) (mkClient d0 k) = Some (Some (ae_payload_len e, ae_version e), mkClient d k)).
  { unfold Initfs.app_info, mbind, prog_bind. rewrite (ask_reply _ _ _ _ k Hreq Einfo). cbn [option_bind]. by rewrite unpack_pack, Hparse. }
  unfold mbind, prog_bind. rewrite Ei. rewrite (proj2 (Z.eqb_neq _ _)), (proj2 (Z.ltb_ge _ _)) by lia. cbn [orb].
  destruct (app_fixed_hash e plain d k R) as (b & E1 & Hb). rewrite E1.
  destruct (app_fixed_sig e plain d k 0 40 R) as (b1 & E2 & Hb1); [lia..|]. change (Z.of_nat 0) with 0 in E2. change (Z.of_nat 40) with 40 in E2. rewrite E2.
  destruct (app_fixed_sig e plain d k 40 24 R) as (b2 & E3 & Hb2); [lia..|]. change (Z.of_nat 24) with 24 in E3. change (Z.of_nat 40) with 40 in E3. rewrite E3.
  cbv zeta. rewrite <- (rd_len _ _ _ R). rewrite (fetch_elf_delivers e plain d k _ R []); [|done|cbn; lia].
  rewrite Hb, Hsha, (proj2 (bytes_eqb_eq _ _)) by done. cbn [negb]. rewrite Hb1, Hb2.
  assert (Hsig : slice 0 40 (ae_signature e) ++ slice 40 24 (ae_signature e) = ae_signature e).
  { unfold slice. rewrite drop_0, take_take_drop. apply take_ge. rewrite (proj1 (ew_signature e Hwf)). done. }
  rewrite Hsig, Hver. reflexivity.
Qed.
End installed.

(** ** Witnesses *)

(** A shop whose table holds the entry its slot parses to. *)
Definition stocked (e : AppEntry) : State := set_apps [e] None (set_mounted key0 A 5 body0 (initial (Some 3) pkS)).

Lemma stocked_serving e : entry_wf e -> serving true shop_disk nobody (mkSd (stocked e) ws0 shop_machine).
Proof.
  intros Hwf. apply shop_serving; [|reflexivity|reflexivity]. apply service_ok_apps; [|by apply Forall_singleton|apply NoDup_singleton|done|done].
  apply service_ok_mounted; [apply initial_ok; [by right|apply pkS_ok|apply pkS_ok]|done|apply key0_ok|apply key0_ok|red; lia].
Qed.

Lemma mounted_pubkey l c key gen p blk pk : pubkey (set_apps l c (set_mounted key A gen p (initial blk pk))) = pk.
Proof. reflexivity. Qed.

Lemma stocked_best e : (ae_name_len e =? length (entry_name e))%nat = true -> best_app (apps (stocked e)) (entry_name e) = Some e.
Proof.
  intros Hl. unfold best_app, stocked. cbn [apps set_apps List.filter]. unfold same_app_name. rewrite Hl, (proj2 (bytes_eqb_eq _ _)) by done. done.
Qed.

Lemma installed_app_delivered_witness : exists e d, entry_name e = str "hello" /\
  @Initfs.load_installed_app _ (rpc (S := Sd (W := Sim)) (W := Sim) Initfs.info handle_query) (Strings.hex_print pkS) (entry_name e) (mkClient (mkSd (stocked e) ws0 shop_machine) blank)
    = Some (Ok app_body0, mkClient d blank).
Proof.
  destruct (signed_spec (app_signing_message app_name0 1 (Z.of_nat (length app_body0)) (Sha256.sha256 app_body0))) as (_ & _ & _ & _ & _ & _ & Hv).
  destruct (published_holds shop_disk key0 pkS 0 app_name0 1 app_body0 app_sig0 shop_published eq_refl Hv) as (e & E1 & E2 & E3 & E4 & Hh).
  assert (Hwf : entry_wf e).
  { destruct Hh as (hdr & Ep & -> & Hn & _). by apply (app_header_fields (shop_disk (app_lba (ae_slot (app_entry_from_header hdr))))); [apply sim_sector_ok| |]. }
  assert (Hlen : (ae_name_len e =? length (entry_name e))%nat = true).
  { apply Nat.eqb_eq. unfold entry_name. rewrite length_take, (ew_name e Hwf). pose proof (ew_name_len e Hwf). lia. }
  destruct (installed_app_delivered (Strings.hex_print pkS) shop_disk nobody e app_body0 (mkSd (stocked e) ws0 shop_machine) blank) as (d & E & _).
  - split.
    + apply stocked_serving, Hwf.
    + apply slots_only_nobody.
    + exact eq_refl.
    + intros Hc. discriminate Hc.
    + apply stocked_best, Hlen.
    + exact Hh.
    + unfold Initfs.pinned_pubkey. rewrite (Strings.hex_key_print pkS (proj1 pkS_ok) (proj2 pkS_ok)). symmetry. apply mounted_pubkey.
    + rewrite E4. discriminate.
  - exists e, d. split; [exact E2|exact E].
Defined.
