(* ===== verification/Console.v ===== *)
(** * The console server (servers/console/src/main.rs)

    A line editor between the keyboard and one reader, and an output channel
    that answers at once.  The state of the loop is the editor, whether a read
    is open, and the keyboard buffer; the loop is [serve n], its first [n]
    passes. *)

From S2P Require Import Prelude RustStd Prog Userlib StorageText.

Module Console.

Definition SOH : Z := 1.
Definition LINE_MAX : nat := 72.

Record Editor := mkEditor { line : list Z; ready : list (list Z) }.

Record Loop := mkLoop { ed : Editor; read_open : bool; kbuf : list Z }.

Definition set_ed e (l : Loop) := mkLoop e (read_open l) (kbuf l).
Definition set_open o (l : Loop) := mkLoop (ed l) o (kbuf l).

Definition out : Z := 0.
Definition stdin : Z := 1.

Definition pop_ready (ready : list (list Z)) : option (list Z * list (list Z)) :=
  match ready with [] => None | l :: rest => Some (l, rest) end.

Section console.
Context {W : Type} `{Abi W}.

(** [debug_write_raw], its status ignored. *)
Definition echo (b : list Z) : prog W () := _ ← Userlib.debug_write_raw b; mret ().

(** One byte: the line after it, and the line it ended. *)
Definition feed (l : list Z) (b : Z) : prog W (list Z * option (list Z)) :=
  if (b =? 0x08) || (b =? 0x7f) then
    match l with
    | [] => mret ([], None)
    | _ => _ ← echo [0x08; 32; 0x08]; mret (removelast l, None)
    end
  else if (b =? 10) || (b =? 13) then
    _ ← echo [10];
    mret ([], match l with [] => None | _ => Some l end)
  else if in_range 0x20 0x7e b then
    if (length l <? LINE_MAX)%nat then _ ← echo [b]; mret (l ++ [b], None) else mret (l, None)
  else mret (l, None).

Fixpoint feed_all (e : Editor) (bytes : list Z) : prog W Editor :=
  match bytes with
  | [] => mret e
  | b :: bytes =>
      '(l, done) ← feed (line e) b;
      feed_all (mkEditor l (match done with Some d => ready e ++ [d] | None => ready e end)) bytes
  end.

(** The keyboard, until it has nothing. *)
Fixpoint drain (fuel : nat) (e : Editor) (kbuf : list Z) : prog W (Editor * list Z) :=
  match fuel with
  | O => panic
  | S fuel =>
      '(r, kbuf) ← Userlib.input_try_read kbuf;
      match r with
      | Ok n =>
          if n =? 0 then mret (e, kbuf) else
          if Z.of_nat (length kbuf) <? n then panic else
          e ← feed_all e (take (Z.to_nat n) kbuf);
          drain fuel e kbuf
      | Err _ => mret (e, kbuf)
      end
  end.

(** Hand the oldest complete line to the open reader. *)
Definition deliver (l : Loop) : prog W Loop :=
  match pop_ready (ready (ed l)) with
  | Some (done, rest) =>
      _ ← Userlib.reply stdin (msg.pack done);
      mret (mkLoop (mkEditor (line (ed l)) rest) false (kbuf l))
  | None => mret l
  end.

(** The input side; [Err] is the exit of the process. *)
Definition accept (l : Loop) : prog W (result Loop Z) :=
  if read_open l then mret (Ok l) else
  now ← Userlib.ticks;
  r ← Userlib.recv_until stdin (wrap 64 (now + 20));
  match r with
  | Ok (_, words) =>
      if bytes_eqb (msg.unpack words) (str "read") then l ← deliver (set_open true l); mret (Ok l)
      else _ ← Userlib.reply stdin (msg.pack (str "err: stdin?")); mret (Ok l)
  | Err e => if e =? 10 then mret (Ok l) else _ ← Userlib.exit e; mret (Err e)
  end.

(** What a message prints. *)
Definition shown (tid : Z) (text : list Z) : list Z :=
  match text with
  | b :: rest => if b =? SOH then rest else Text.push_num (str "[tid ") tid ++ str "] " ++ text
  | [] => Text.push_num (str "[tid ") tid ++ str "] "
  end.

(** The output side. *)
Definition output : prog W (result () Z) :=
  now ← Userlib.ticks;
  r ← Userlib.recv_until out (wrap 64 (now + 10));
  match r with
  | Ok (tid, words) => _ ← echo (shown tid (msg.unpack words)); _ ← Userlib.reply out [1; 0; 0; 0; 0]; mret (Ok ())
  | Err e => if e =? 10 then mret (Ok ()) else _ ← Userlib.exit e; mret (Err e)
  end.

(** One pass of the loop, and whether the process goes on. *)
Definition pass (fuel : nat) (l : Loop) : prog W (Loop * option Z) :=
  a ← accept l;
  match a with
  | Err e => mret (l, Some e)
  | Ok l =>
      o ← output;
      match o with
      | Err e => mret (l, Some e)
      | Ok _ =>
          '(e, kb) ← drain fuel (ed l) (kbuf l);
          let l := mkLoop e (read_open l) kb in
          l ← (if read_open l then deliver l else mret l);
          mret (l, None)
      end
  end.

Fixpoint serve (fuel n : nat) (l : Loop) : prog W (Loop * option Z) :=
  match n with
  | O => mret (l, None)
  | S n => '(l, e) ← pass fuel l; match e with None => serve fuel n l | Some e => mret (l, Some e) end
  end.

Definition initial : Loop := mkLoop (mkEditor [] []) false (replicate 16 0).

Definition main (fuel n : nat) : prog W (Loop * option Z) :=
  _ ← Userlib.debug_write (str "console: server up" ++ [10]);
  serve fuel n initial.

End console.
End Console.
