(* ===== verification/ConsoleTheorems.v ===== *)
(** * The console server: what it promises

    [typed_lines]: the lines of a byte stream, by a definition of its own - the
    stream is cut at line ends and every piece edited from an empty line.
    [console_lines_fifo]: readers receive exactly the lines of the keys the
    server is handed, in order; [heard] is what it is handed of the keys the
    kernel takes off its queue: all but the reads of nine keys. *)

From S2P Require Import Prelude RustStd Prog Userlib UserlibTheorems StorageText Requests Console.
Import Console.

(** ** Lines, abstractly *)

Definition line_end (b : Z) : bool := (b =? 10) || (b =? 13).

(** One byte typed into an open line. *)
Definition keystroke (l : list Z) (b : Z) : list Z :=
  if (b =? 0x08) || (b =? 0x7f) then removelast l
  else if in_range 0x20 0x7e b && (length l <? LINE_MAX)%nat then l ++ [b] else l.

Definition edit (piece : list Z) : list Z := foldl keystroke [] piece.

(** The stream cut at line ends: the last piece is still open. *)
Fixpoint pieces (bs : list Z) : list (list Z) * list Z :=
  match bs with
  | [] => ([], [])
  | b :: bs =>
      let '(done, open) := pieces bs in
      if line_end b then ([] :: done, open) else match done with p :: done => ((b :: p) :: done, open) | [] => ([], b :: open) end
  end.

Definition typed_lines (bs : list Z) : list (list Z) := List.filter (fun l => negb (length l =? 0)%nat) (edit <$> fst (pieces bs)).
Definition open_line (bs : list Z) : list Z := edit (snd (pieces bs)).

Lemma pieces_snoc bs b : pieces (bs ++ [b]) =
  if line_end b then (fst (pieces bs) ++ [snd (pieces bs)], []) else (fst (pieces bs), snd (pieces bs) ++ [b]).
Proof.
  induction bs as [|c bs IH]; cbn [app pieces]; [by destruct (line_end b)|]. rewrite IH. destruct (pieces bs) as [done open]. cbn [fst snd].
  destruct (line_end b), (line_end c); try done; destruct done; done.
Qed.

Lemma edit_snoc p b : edit (p ++ [b]) = keystroke (edit p) b.
Proof. unfold edit. by rewrite foldl_app. Qed.

Lemma typed_lines_end bs b : line_end b = true ->
  typed_lines (bs ++ [b]) = typed_lines bs ++ (match open_line bs with [] => [] | _ => [open_line bs] end) /\ open_line (bs ++ [b]) = [].
Proof.
  intros Hb. unfold typed_lines, open_line. rewrite pieces_snoc, Hb. cbn [fst snd]. rewrite fmap_app, List.filter_app. cbn [fmap list_fmap List.filter].
  split; [|done]. by destruct (edit (snd (pieces bs))).
Qed.

Lemma typed_lines_key bs b : line_end b = false -> typed_lines (bs ++ [b]) = typed_lines bs /\ open_line (bs ++ [b]) = keystroke (open_line bs) b.
Proof. intros Hb. unfold typed_lines, open_line. rewrite pieces_snoc, Hb. cbn [fst snd]. by rewrite edit_snoc. Qed.

(** Lines are printable and at most 72 bytes. *)
Definition printable (l : list Z) : Prop := Forall (fun b => 0x20 <= b <= 0x7e) l /\ (length l <= LINE_MAX)%nat.

Lemma keystroke_printable l b : printable l -> printable (keystroke l b).
Proof.
  intros [Hp Hl]. unfold keystroke. destruct (_ || _).
  - destruct (decide (l = [])) as [->|Hn]; [done|]. pose proof (app_removelast_last 0 Hn) as E. rewrite E in Hp, Hl. apply Forall_app in Hp as [Hp _].
    rewrite length_app in Hl. split; [exact Hp|lia].
  - destruct (in_range 0x20 0x7e b && _) eqn:E; [|done]. apply andb_true_iff in E as [E1 E2]. apply Nat.ltb_lt in E2. unfold in_range in E1.
    split; [apply Forall_app; split; [exact Hp|constructor; [lia|constructor]]|rewrite length_app; cbn [length]; lia].
Qed.

Lemma edit_printable p : printable (edit p).
Proof.
  unfold edit. assert (Hg : forall p l, printable l -> printable (foldl keystroke l p)); [|apply Hg; split; [constructor|cbn; lia]].
  clear p. induction p as [|b p IH]; intros l Hl; [done|]. apply IH. by apply keystroke_printable.
Qed.

Lemma typed_lines_printable bs : Forall printable (typed_lines bs).
Proof.
  apply Forall_forall. intros l Hl. apply list_elem_of_In, filter_In in Hl as [Hl _]. apply list_elem_of_In, list_elem_of_fmap in Hl as (p & -> & _).
  apply edit_printable.
Qed.

(** A reader unpacks at most forty bytes of a line. *)
Lemma line_unpacked l : printable l -> msg.unpack (msg.pack l) = take 40 l.
Proof.
  intros [Hp _]. assert (Hb : bytes_ok l) by (eapply Forall_impl; [exact Hp|]; intros b Hb; cbv beta in Hb; red; lia).
  assert (H0 : 0 ∉ l) by (intros Hin; rewrite Forall_forall in Hp; specialize (Hp 0 Hin); lia).
  rewrite unpack_until_nul, msg_pack_padded, padded_to_app by done.
  assert (H0' : 0 ∉ take 40 l) by (intros Hin; apply H0; rewrite <- (take_drop 40 l); apply elem_of_app; by left).
  rewrite until_nul_zeros. by apply until_nul_free.
Qed.

(** ** What the server relies on *)

(** What the program is handed of the reads the kernel served: a read of nine
    keys looks like E_WOULD_BLOCK to [input_try_read] of userlib, which drops
    the keys the kernel has taken off its queue. *)
Definition lost (keys : list Z) : bool := (length keys =? 9)%nat.
Definition heard (reads : list (list Z)) : list Z := concat (List.filter (fun keys => negb (lost keys)) reads).

Lemma heard_snoc reads keys : heard (reads ++ [keys]) = heard reads ++ (if lost keys then [] else keys).
Proof.
  unfold heard. rewrite List.filter_app, concat_app. cbn [List.filter]. destruct (lost keys); cbn [negb concat]; by rewrite ?app_nil_r.
Qed.

(** [typed]: the keys each read took off the kernel's queue, read by read (a
    read of the sixteen-byte buffer takes up to sixteen); [answers]: the
    replies made on the input channel; [unread]: the keys of the scenario
    still to come. *)
Class Terminal (W : Type) `{Abi W} := {
  typed : W -> list (list Z);
  answers : W -> list (list Z);
  unread : W -> nat;
  still (w w' : W) : Prop := typed w' = typed w /\ answers w' = answers w /\ (unread w' <= unread w)%nat;
  law_other n args w : n <> Sys.SYS_INPUT_READ -> (n = Sys.SYS_IPC_REPLY -> head args <> Some (Word stdin)) ->
    still w (snd (raw_full n args w));
  law_answer a b c d e w :
    let '(_, _, w') := raw_full Sys.SYS_IPC_REPLY [Word stdin; Word a; Word b; Word c; Word d; Word e] w in
    typed w' = typed w /\ answers w' = answers w ++ [[a; b; c; d; e]] /\ (unread w' <= unread w)%nat;
  law_input buf w : length buf = 16%nat ->
    let '(r, buf', w') := raw_full Sys.SYS_INPUT_READ [Out buf; Word 16; Word 1; Word 0; Word 0; Word 0] w in
    length buf' = 16%nat /\ answers w' = answers w /\ 0 <= rax r <= 16 /\
    typed w' = typed w ++ [take (Z.to_nat (rax r)) buf'] /\ (unread w' + Z.to_nat (rax r) <= unread w)%nat;
}.

(** A reply on the input channel. *)
Inductive answer := Line (l : list Z) | Refusal.
Definition encode (a : answer) : list Z := match a with Line l => msg.pack l | Refusal => msg.pack (str "err: stdin?") end.
Definition lines_of (rs : list answer) : list (list Z) := omap (fun a => match a with Line l => Some l | Refusal => None end) rs.

Section console.
Context {W : Type} `{Terminal W}.

Lemma still_refl w : still w w.
Proof. by repeat split. Qed.
Lemma still_trans w1 w2 w3 : still w1 w2 -> still w2 w3 -> still w1 w3.
Proof. intros (A1 & A2 & A3) (B1 & B2 & B3). repeat split; [congruence..|lia]. Qed.

Lemma wp_plain_call n args (Q : Ret * list Z -> W -> Prop) w : n <> Sys.SYS_INPUT_READ -> n <> Sys.SYS_IPC_REPLY ->
  (forall r w', still w w' -> Q r w') -> wp (Userlib.trap n args) Q w.
Proof.
  intros Hn Hr HQ. unfold Userlib.trap, wp. pose proof (law_other n args w Hn ltac:(done)) as Hs.
  destruct (raw_full n args w) as [[r buf] w']. by apply HQ.
Qed.

Lemma wp_echo b (Q : () -> W -> Prop) w : (forall w', still w w' -> Q () w') -> wp (echo b) Q w.
Proof.
  intros HQ. apply wp_bind. unfold Userlib.debug_write_raw. apply wp_bind, wp_plain_call; [done..|]. intros [r buf] w' Hs. by apply wp_ret, wp_ret, HQ.
Qed.

Lemma wp_tick_read (Q : Z -> W -> Prop) w : (forall r w', still w w' -> Q r w') -> wp Userlib.ticks Q w.
Proof. intros HQ. unfold Userlib.ticks. apply wp_bind, wp_plain_call; [done..|]. intros [r buf] w' Hs. by apply wp_ret, HQ. Qed.

Lemma wp_recv_until ep t (Q : result (Z * list Z) Z -> W -> Prop) w : (forall r w', still w w' -> Q r w') -> wp (Userlib.recv_until ep t) Q w.
Proof. intros HQ. unfold Userlib.recv_until. apply wp_bind, wp_plain_call; [done..|]. intros [r buf] w' Hs. by apply wp_ret, HQ. Qed.

Lemma wp_exit c (Q : () -> W -> Prop) w : (forall r w', still w w' -> Q r w') -> wp (Userlib.exit c) Q w.
Proof. intros HQ. unfold Userlib.exit. apply wp_bind, wp_plain_call; [done..|]. intros [r buf] w' Hs. by apply wp_ret, HQ. Qed.

Lemma wp_reply_out ws (Q : Z -> W -> Prop) w : (forall r w', still w w' -> Q r w') -> wp (Userlib.reply out ws) Q w.
Proof.
  intros HQ. unfold Userlib.reply. apply wp_bind. unfold Userlib.trap, wp at 1. set (args := [Word out; _; _; _; _; _]).
  pose proof (law_other Sys.SYS_IPC_REPLY args w ltac:(done) ltac:(done)) as Hs. destruct (raw_full _ args w) as [[r buf] w']. by apply wp_ret, HQ.
Qed.

Lemma wp_reply_in ans (Q : Z -> W -> Prop) w :
  (forall r w', typed w' = typed w -> answers w' = answers w ++ [encode ans] -> (unread w' <= unread w)%nat -> Q r w') ->
  wp (Userlib.reply stdin (encode ans)) Q w.
Proof.
  intros HQ. unfold Userlib.reply. apply wp_bind. unfold Userlib.trap, wp at 1. assert (Hl : length (encode ans) = 5%nat) by (destruct ans; apply length_msg_pack).
  set (ws := encode ans) in *. pose proof (law_answer (nth 0 ws 0) (nth 1 ws 0) (nth 2 ws 0) (nth 3 ws 0) (nth 4 ws 0) w) as HL.
  destruct (raw_full _ _ w) as [[r buf] w']. destruct HL as (H1 & H2 & H3). apply wp_ret, HQ; [done| |done].
  rewrite H2. clearbody ws. destruct ws as [|a [|b [|c [|d [|e [|f ws]]]]]]; done.
Qed.

Lemma wp_input kbuf (Q : result Z Z * list Z -> W -> Prop) w : length kbuf = 16%nat ->
  (forall n kbuf' w', length kbuf' = 16%nat -> answers w' = answers w -> 0 <= n <= 16 -> lost (take (Z.to_nat n) kbuf') = false ->
     typed w' = typed w ++ [take (Z.to_nat n) kbuf'] -> (unread w' + Z.to_nat n <= unread w)%nat -> Q (Ok n, kbuf') w') ->
  (forall e kbuf' keys w', length kbuf' = 16%nat -> answers w' = answers w -> lost keys = true -> typed w' = typed w ++ [keys] ->
     (unread w' <= unread w)%nat -> Q (Err e, kbuf') w') ->
  wp (Userlib.input_try_read kbuf) Q w.
Proof.
  intros Hk HOk HErr. unfold Userlib.input_try_read. rewrite Hk. change (Z.of_nat 16) with 16. apply wp_bind. unfold Userlib.trap, wp at 1.
  pose proof (law_input kbuf w Hk) as HL. destruct (raw_full _ _ w) as [[r buf] w']. destruct HL as (H1 & H2 & H3 & H4 & H5). apply wp_ret. rewrite H1.
  change (Z.of_nat 16) with 16. assert (Hlen : length (take (Z.to_nat (rax r)) buf) = Z.to_nat (rax r)) by (rewrite length_take; lia).
  assert (Hu : (rax r =? u64_max) = false) by (unfold u64_max; lia). rewrite Hu, (proj2 (Z.leb_le _ _)) by lia. cbn [negb andb].
  destruct (Z.eqb_spec (rax r) 9) as [E9|N9]; cbn [negb].
  - eapply HErr; [done|done| |exact H4|lia]. unfold lost. rewrite Hlen, E9. done.
  - apply HOk; [done|done|lia| |exact H4|exact H5]. unfold lost. rewrite Hlen. apply Nat.eqb_neq. lia.
Qed.

(** ** The editor *)

Lemma wp_feed bs b (Q : list Z * option (list Z) -> W -> Prop) w :
  (forall done w', still w w' -> typed_lines (bs ++ [b]) = typed_lines bs ++ option_list done -> Q (open_line (bs ++ [b]), done) w') ->
  wp (feed (open_line bs) b) Q w.
Proof.
  intros HQ. unfold feed. destruct ((b =? 8) || (b =? 127)) eqn:E1.
  - assert (Hb : line_end b = false) by (unfold line_end; lia). destruct (typed_lines_key bs b Hb) as [T1 T2].
    unfold keystroke in T2. rewrite E1 in T2. rewrite T1, T2 in HQ. destruct (open_line bs) as [|c l] eqn:El.
    + apply wp_ret, (HQ None); [apply still_refl|by rewrite app_nil_r].
    + apply wp_bind, wp_echo. intros w' Hs. apply wp_ret, (HQ None); [done|by rewrite app_nil_r].
  - destruct ((b =? 10) || (b =? 13)) eqn:E2.
    + destruct (typed_lines_end bs b E2) as [T1 T2]. rewrite T1, T2 in HQ. apply wp_bind, wp_echo. intros w' Hs. apply wp_ret, HQ; [done|].
      by destruct (open_line bs).
    + destruct (typed_lines_key bs b E2) as [T1 T2]. unfold keystroke in T2. rewrite E1 in T2. rewrite T1, T2 in HQ.
      destruct (in_range 32 126 b); cbn [andb] in HQ; [|apply wp_ret, (HQ None); [apply still_refl|by rewrite app_nil_r]].
      destruct (_ <? _)%nat; [|apply wp_ret, (HQ None); [apply still_refl|by rewrite app_nil_r]].
      apply wp_bind, wp_echo. intros w' Hs. apply wp_ret, (HQ None); [done|by rewrite app_nil_r].
Qed.

(** The state of the loop after the reads [cs] and the replies [rs]. *)
Record served (w0 : W) (cs : list (list Z)) (rs : list answer) (l : Loop) (w : W) : Prop := {
  se_typed : typed w = typed w0 ++ cs;
  se_answers : answers w = answers w0 ++ (encode <$> rs);
  se_lines : lines_of rs ++ ready (ed l) = typed_lines (heard cs);
  se_open : line (ed l) = open_line (heard cs);
  se_kbuf : length (kbuf l) = 16%nat;
  se_unread : (unread w <= unread w0)%nat;
}.

Lemma served_still w0 bs rs l w w' : still w w' -> served w0 bs rs l w -> served w0 bs rs l w'.
Proof. intros (A1 & A2 & A3) [S1 S2 S3 S4 S5 S6]. split; try done; [congruence..|lia]. Qed.

Lemma served_open w0 bs rs l w o : served w0 bs rs l w -> served w0 bs rs (set_open o l) w.
Proof. intros [S1 S2 S3 S4 S5 S6]. by split. Qed.

Lemma wp_feed_all new : forall bs rd (Q : Editor -> W -> Prop) w,
  (forall rd' w', still w w' -> (forall ls, ls ++ rd = typed_lines bs -> ls ++ rd' = typed_lines (bs ++ new)) -> Q (mkEditor (open_line (bs ++ new)) rd') w') ->
  wp (feed_all (mkEditor (open_line bs) rd) new) Q w.
Proof.
  induction new as [|b new IH]; intros bs rd Q w HQ; cbn [feed_all].
  - apply wp_ret. rewrite <- (app_nil_r bs). apply HQ; [apply still_refl|]. intros ls. by rewrite app_nil_r.
  - apply wp_bind. cbn [line ready]. apply wp_feed. intros done w1 Hs1 Hl. apply IH. intros rd' w2 Hs2 Hr.
    rewrite <- app_assoc. change ([b] ++ new) with (b :: new). apply HQ; [by eapply still_trans|]. intros ls Els.
    rewrite <- app_assoc in Hr. apply Hr. rewrite Hl, <- Els. destruct done; cbn [option_list]; [by rewrite app_assoc|by rewrite app_nil_r].
Qed.

Lemma wp_drain fuel : forall w0 cs rs l w (Q : Editor * list Z -> W -> Prop), served w0 cs rs l w -> (unread w < fuel)%nat ->
  (forall cs' e kb w', served w0 cs' rs (mkLoop e (read_open l) kb) w' -> Q (e, kb) w') -> wp (drain fuel (ed l) (kbuf l)) Q w.
Proof.
  induction fuel as [|fuel IH]; intros w0 cs rs l w Q Hs Hf HQ; [lia|]. cbn [drain]. destruct Hs as [S1 S2 S3 S4 S5 S6].
  apply wp_bind, wp_input; [exact S5| |].
  - intros n kb w1 Hk Ha Hn Hl Ht Hu. set (keys := take (Z.to_nat n) kb) in *.
    assert (Eh : heard (cs ++ [keys]) = heard cs ++ keys) by (by rewrite heard_snoc, Hl).
    destruct (Z.eqb_spec n 0) as [->|Hn0].
    { apply wp_ret, (HQ (cs ++ [keys])). assert (keys = []) as -> by (unfold keys; by rewrite take_0). rewrite app_nil_r in Eh.
      split; cbn; [by rewrite Ht, S1, app_assoc|congruence|by rewrite Eh|by rewrite Eh|done|lia]. }
    rewrite (proj2 (Z.ltb_ge _ _)) by lia. apply wp_bind. destruct l as [[ln rd] o kb0]. cbn [ed line ready kbuf read_open] in *. subst ln.
    apply wp_feed_all. intros rd' w2 Hs2 Hr. fold keys in Hr |- *. rewrite <- Eh in Hr |- *.
    assert (Hsv : served w0 (cs ++ [keys]) rs (mkLoop (mkEditor (open_line (heard (cs ++ [keys]))) rd') o kb) w2).
    { apply (served_still _ _ _ _ w1); [exact Hs2|]. split; cbn; [by rewrite Ht, S1, app_assoc|congruence|by apply Hr|done|done|lia]. }
    eapply (IH w0 _ rs (mkLoop (mkEditor _ rd') o kb)); [exact Hsv|destruct Hs2 as (_ & _ & Hx); lia|]. exact HQ.
  - intros e kb keys w1 Hk Ha Hl Ht Hu. apply wp_ret, (HQ (cs ++ [keys])).
    assert (Eh : heard (cs ++ [keys]) = heard cs) by (by rewrite heard_snoc, Hl, app_nil_r).
    split; cbn; [by rewrite Ht, S1, app_assoc|congruence|by rewrite Eh|by rewrite Eh|done|lia].
Qed.

(** ** The loop *)

Lemma wp_deliver w0 bs rs l w (Q : Loop -> W -> Prop) : served w0 bs rs l w ->
  (forall rs' l' w', served w0 bs rs' l' w' -> (read_open l' = true -> ready (ed l') = []) -> Q l' w') -> wp (deliver l) Q w.
Proof.
  intros Hs HQ. pose proof Hs as [S1 S2 S3 S4 S5 S6]. unfold deliver, pop_ready. destruct (ready (ed l)) as [|d rest] eqn:Er; [by apply wp_ret, (HQ rs)|].
  apply wp_bind. change (msg.pack d) with (encode (Line d)). apply wp_reply_in. intros r w' Ht Ha Hu. apply wp_ret, (HQ (rs ++ [Line d])); [|done].
  split; cbn; [congruence|by rewrite Ha, S2, fmap_app, app_assoc| |done|done|lia]. unfold lines_of. rewrite omap_app. cbn. rewrite <- app_assoc. exact S3.
Qed.

Lemma wp_accept w0 bs rs l w (Q : result Loop Z -> W -> Prop) : served w0 bs rs l w ->
  (forall r w' rs', (served w0 bs rs' (match r with Ok l' => l' | Err _ => l end) w') -> Q r w') -> wp (accept l) Q w.
Proof.
  intros Hs HQ. unfold accept. destruct (read_open l); [by apply wp_ret, (HQ (Ok l) w rs)|].
  apply wp_bind, wp_tick_read. intros now w1 H1. apply wp_bind, wp_recv_until. intros r w2 H2.
  assert (Hs2 : served w0 bs rs l w2) by (by eapply served_still; [exact H2|eapply served_still; [exact H1|]]).
  destruct r as [[tid words]|e].
  - destruct (bytes_eqb _ _).
    + apply wp_bind. eapply wp_deliver; [by apply served_open|]. intros rs' l' w' Hs' _. by apply wp_ret, (HQ (Ok l') w' rs').
    + apply wp_bind. change (msg.pack (str "err: stdin?")) with (encode Refusal). apply wp_reply_in. intros z w3 Ht Ha Hu.
      apply wp_ret, (HQ (Ok l) w3 (rs ++ [Refusal])). destruct Hs2 as [S1 S2 S3 S4 S5 S6].
      split; [congruence|by rewrite Ha, S2, fmap_app, app_assoc| |done|done|lia]. unfold lines_of. rewrite omap_app. cbn. by rewrite app_nil_r.
  - destruct (e =? 10); [by apply wp_ret, (HQ (Ok l) w2 rs)|]. apply wp_bind, wp_exit. intros z w3 H3. apply wp_ret, (HQ (Err e) w3 rs).
    by eapply served_still.
Qed.

Lemma wp_output (Q : result () Z -> W -> Prop) w : (forall r w', still w w' -> Q r w') -> wp output Q w.
Proof.
  intros HQ. unfold output. apply wp_bind, wp_tick_read. intros now w1 H1. apply wp_bind, wp_recv_until. intros r w2 H2.
  pose proof (still_trans _ _ _ H1 H2) as H12. destruct r as [[tid words]|e].
  - apply wp_bind, wp_echo. intros w3 H3. apply wp_bind, wp_reply_out. intros z w4 H4. apply wp_ret, HQ.
    eapply still_trans; [exact H12|]. by eapply still_trans.
  - destruct (e =? 10); [by apply wp_ret, HQ|]. apply wp_bind, wp_exit. intros z w3 H3. apply wp_ret, HQ. by eapply still_trans.
Qed.

Lemma wp_pass fuel w0 bs rs l w (Q : Loop * option Z -> W -> Prop) : served w0 bs rs l w -> (unread w0 < fuel)%nat ->
  (forall l' e w' bs' rs', served w0 bs' rs' l' w' -> (e = None -> read_open l' = true -> ready (ed l') = []) -> Q (l', e) w') -> wp (pass fuel l) Q w.
Proof.
  intros Hs Hf HQ. unfold pass. apply wp_bind. eapply wp_accept; [exact Hs|]. intros [l1|e] w1 rs1 Hs1; [|by apply wp_ret, (HQ _ _ _ bs rs1)].
  apply wp_bind, wp_output. intros [u|e] w2 H2; pose proof (served_still _ _ _ _ _ _ H2 Hs1) as Hs2; [|by apply wp_ret, (HQ _ _ _ bs rs1)].
  apply wp_bind. eapply wp_drain; [exact Hs2|pose proof (se_unread _ _ _ _ _ Hs2); lia|]. intros bs' e kb w3 Hs3. cbv zeta. apply wp_bind. cbn [read_open].
  destruct (read_open l1) eqn:Eo; cycle 1.
  { apply wp_ret, wp_ret, (HQ _ _ _ bs' rs1); [exact Hs3|done]. }
  eapply wp_deliver; [exact Hs3|]. intros rs' l' w' Hs' Hr. by apply wp_ret, (HQ _ _ _ bs' rs').
Qed.

Lemma wp_passes fuel n : forall w0 bs rs l w (Q : Loop * option Z -> W -> Prop), served w0 bs rs l w -> (unread w0 < fuel)%nat ->
  (read_open l = true -> ready (ed l) = []) ->
  (forall l' e w' bs' rs', served w0 bs' rs' l' w' -> (e = None -> read_open l' = true -> ready (ed l') = []) -> Q (l', e) w') -> wp (serve fuel n l) Q w.
Proof.
  induction n as [|n IH]; intros w0 bs rs l w Q Hs Hf Hr HQ; cbn [serve]; [by apply wp_ret, (HQ l None w bs rs)|].
  apply wp_bind. eapply wp_pass; [exact Hs|exact Hf|]. intros l' [e|] w' bs' rs' Hs' Hr'; [by apply wp_ret, (HQ l' (Some e) w' bs' rs')|].
  by eapply IH; [exact Hs'| |auto|].
Qed.

(** C34. Readers receive exactly the lines of the keys handed to the server, in
    order.  After any number of passes for which the process has memory,
    whatever is sent on both channels, the lines answered so far followed by those waiting are the lines of the keys
    of all the reads the kernel served except the reads of nine keys, which
    never reach the editor ([heard]: input_try_read of userlib takes that count
    for E_WOULD_BLOCK); the editor holds the line still open; a reader is never
    left waiting while a line is ready; and of each line the reader unpacks the
    first forty bytes. *)
Theorem console_lines_fifo fuel n w : (unread w < fuel)%nat -> exists l e w' reads rs,
  main fuel n w = Some ((l, e), w') /\ typed w' = typed w ++ reads /\ answers w' = answers w ++ (encode <$> rs) /\
  lines_of rs ++ ready (ed l) = typed_lines (heard reads) /\ line (ed l) = open_line (heard reads) /\
  (e = None -> read_open l = true -> ready (ed l) = []) /\
  Forall (fun ln => msg.unpack (encode (Line ln)) = take 40 ln) (typed_lines (heard reads)).
Proof.
  intros Hf. assert (Hwp : wp (main fuel n) (fun r w' => exists bs rs, served w bs rs (fst r) w' /\ (snd r = None -> read_open (fst r) = true -> ready (ed (fst r)) = [])) w).
  { unfold main. apply wp_bind. unfold Userlib.debug_write. apply wp_bind, wp_plain_call; [done..|]. intros [r buf] w1 H1. apply wp_ret.
    eapply (wp_passes fuel n w [] []); [|exact Hf|done|].
    - apply (served_still _ _ _ _ w); [exact H1|]. split; cbn; [by rewrite app_nil_r|by rewrite app_nil_r|done..].
    - intros l' e w' bs' rs' Hs Hr. by exists bs', rs'. }
  apply wp_run in Hwp as ([l e] & w' & E & bs & rs & [S1 S2 S3 S4 S5 S6] & Hr). exists l, e, w', bs, rs.
  do 6 (split; [assumption|]). apply Forall_forall. intros ln Hln. apply line_unpacked.
  pose proof (typed_lines_printable (heard bs)) as Hp. rewrite Forall_forall in Hp. by apply Hp.
Qed.
End console.

(** ** A terminal: keys to come, requests on the input channel to come, and
    what has been read and answered. *)
Module TermSim.

Record Machine := mkMachine { t_keys : list Z; t_requests : list (list Z); t_typed : list (list Z); t_answers : list (list Z) }.

Definition status (z : Z) : Ret := mkRet z 0 0 0 0 0 0.

Definition t_call (n : Z) (args : list Arg) (m : Machine) : Ret * list Z * Machine :=
  if n =? Sys.SYS_INPUT_READ then
    match args with
    | Out buf :: _ =>
        let new := take 16 (t_keys m) in
        (status (Z.of_nat (length new)), splice 0 new buf, mkMachine (drop 16 (t_keys m)) (t_requests m) (t_typed m ++ [new]) (t_answers m))
    | _ => (status 5, [], m)
    end
  else if n =? Sys.SYS_IPC_RECV then
    match args, t_requests m with
    | Word 1 :: _, req :: rest =>
        let w := msg.pack req in
        (mkRet 0 5 (nth 0 w 0) (nth 1 w 0) (nth 2 w 0) (nth 3 w 0) (nth 4 w 0), [], mkMachine (t_keys m) rest (t_typed m) (t_answers m))
    | _, _ => (status 10, [], m)
    end
  else if n =? Sys.SYS_IPC_REPLY then
    match args with
    | [Word 1; Word a; Word b; Word c; Word d; Word e] =>
        (status 0, [], mkMachine (t_keys m) (t_requests m) (t_typed m) (t_answers m ++ [[a; b; c; d; e]]))
    | _ => (status 0, [], m)
    end
  else (status 0, [], m).

End TermSim.

#[global] Instance term_abi : Abi TermSim.Machine := TermSim.t_call.

#[global] Instance term_laws : Terminal TermSim.Machine.
Proof.
  refine {| typed := TermSim.t_typed; answers := TermSim.t_answers; unread := fun m => length (TermSim.t_keys m) |}; unfold raw_full, term_abi.
  - intros n args w Hn Hr. unfold TermSim.t_call. rewrite (proj2 (Z.eqb_neq _ _) Hn). destruct (n =? Sys.SYS_IPC_RECV).
    { repeat case_match; by repeat split. }
    destruct (Z.eqb_spec n Sys.SYS_IPC_REPLY) as [E|]; [|by repeat split]. specialize (Hr E).
    repeat case_match; try (by repeat split).
  - intros a b c d e w. by repeat split.
  - intros buf w Hl. cbn [TermSim.t_call Z.eqb Sys.SYS_INPUT_READ]. unfold TermSim.t_call. change (Sys.SYS_INPUT_READ =? Sys.SYS_INPUT_READ) with true. cbv iota zeta.
    set (new := take 16 (TermSim.t_keys w)). assert (Hn : (length new <= 16)%nat) by (subst new; rewrite length_take; lia).
    cbn [rax TermSim.status TermSim.t_typed TermSim.t_answers TermSim.t_keys]. rewrite Nat2Z.id.
    split; [rewrite length_splice; [done|lia]|]. split; [done|]. split; [lia|].
    split; [do 2 f_equal; rewrite splice_0, take_app_le, take_ge by lia; done|]. rewrite length_drop. subst new. rewrite length_take. lia.
Defined.

(** A line typed ahead, with a correction, for a reader that asks twice. *)
Definition typist : TermSim.Machine := TermSim.mkMachine (str "helx" ++ [8] ++ str "p" ++ [10] ++ str "uptime") [str "read"; str "read"] [] [].

Lemma console_lines_fifo_witness : exists l e w' reads rs,
  main 20 3 typist = Some ((l, e), w') /\ typed w' = reads /\ answers w' = (encode <$> rs) /\
  lines_of rs ++ ready (ed l) = typed_lines (heard reads) /\ line (ed l) = open_line (heard reads).
Proof.
  destruct (console_lines_fifo 20 3 typist) as (l & e & w' & reads & rs & E & T & A & L & O & _); [cbn; lia|].
  exists l, e, w', reads, rs. by repeat split.
Defined.

Example console_session : exists l w', main 20 3 typist = Some ((l, None), w') /\
  answers w' = [msg.pack (str "help")] /\ line (ed l) = str "uptime" /\ read_open l = true.
Proof. eexists _, _. split; [vm_compute; reflexivity|]. by repeat split. Qed.

(** Nine keys read at once are gone: the line is never answered. *)
Definition nine_keys : TermSim.Machine := TermSim.mkMachine (str "shutdown" ++ [10]) [str "read"] [] [].

Example console_nine_keys : exists l w', main 20 3 nine_keys = Some ((l, None), w') /\
  concat (typed w') = str "shutdown" ++ [10] /\ answers w' = [] /\ ready (ed l) = [] /\ line (ed l) = [] /\ read_open l = true.
Proof. eexists _, _. split; [vm_compute; reflexivity|]. by repeat split. Qed.
