(* ===== verification/Shell.v ===== *)
(** * The shell (servers/shell/src/main.rs) and the demonstration programs

    A loop over input lines; every command is a program that talks to one of
    the endpoints in the slots 0 to 4.  A command returns [Some ok], whether the
    console still answers, or [None] when it does not return. *)

From S2P Require Import Prelude RustStd Prog Userlib UserlibTheorems Strings StorageText Storaged Traced.

Module Shell.

Definition SOH : Z := 1.

(** The slots of the capabilities. *)
Definition out : Z := 0.
Definition initfs : Z := 1.
Definition query : Z := 2.
Definition sup : Z := 3.
Definition stdin : Z := 4.

(** The shell's own [trim]: spaces and tabs. *)
Definition is_blank (b : Z) : bool := (b =? 32) || (b =? 9).

Fixpoint trim_front (s : list Z) : list Z :=
  match s with b :: s' => if is_blank b then trim_front s' else s | [] => [] end.

Definition trim (s : list Z) : list Z := rev (trim_front (rev (trim_front s))).

Definition split_cmd (line : list Z) : list Z * list Z :=
  match position (fun c => c =? 32) line with
  | Some i => (take i line, trim (drop i line))
  | None => (line, [])
  end.

(** [from_utf8(..).ok().and_then(|s| s.trim().parse().ok()).unwrap_or(0)] *)
Definition number_reply (w : list Z) : Z := default 0 (s ← from_utf8 (msg.unpack w); parse_u64 (Strings.trim s)).

Section shell.
Context {W : Type} `{Abi W}.

Definition print (s : list Z) : prog W bool := Userlib.print_split out s.

Definition read_line : prog W (list Z) :=
  r ← Userlib.call stdin (msg.pack (str "read"));
  match r with
  | Ok words => mret (msg.unpack words)
  | Err e => _ ← print (Text.push_num (str "[read-errno ") e ++ str "]"); mret []
  end.

Definition err_print (what : list Z) (e : Z) : prog W bool := print (Text.push_num (what ++ str " (errno ") e ++ str ")" ++ [10]).

(** The reply of a request, or the error, on a line of its own. *)
Definition call_or (ep : Z) (req what : list Z) : prog W bool :=
  r ← Userlib.call ep (msg.pack req);
  match r with
  | Ok reply => print (msg.unpack reply ++ [10])
  | Err e => err_print what e
  end.

Definition call_print (ep : Z) (req : list Z) : prog W bool := call_or ep req (str "request failed").

Definition HELP : list string :=
  ["commands:"; "  echo <text>      print text"; "  exec <name>      run store program";
   "  services         list supervised services"; "  start|stop|restart <name>"; "  update           apply staged update";
   "  apps             list installed apps"; "  app install; run|remove <name>"; "  slot             active system slot";
   "  get <key>        read configuration"; "  audit [count]    recent audit records"; "  uptime, stats, reboot"]%string.

Fixpoint help_lines (ls : list string) : prog W bool :=
  match ls with
  | [] => mret true
  | l :: ls =>
      r ← Userlib.call out (msg.pack ([SOH] ++ str l ++ [10]));
      match r with Ok _ => help_lines ls | Err _ => mret false end
  end.

Definition help : prog W bool := help_lines HELP.

(** The loop over numbered items, one line each. *)
Fixpoint show_items (ep : Z) (prefix what : list Z) (ids : list Z) : prog W bool :=
  match ids with
  | [] => mret true
  | i :: ids =>
      r ← Userlib.call ep (msg.pack (Text.push_num prefix i));
      match r with
      | Ok w => ok ← print (msg.unpack w ++ [10]); if negb ok then mret false else show_items ep prefix what ids
      | Err e => err_print what e
      end
  end.

Definition apps_cmd : prog W bool :=
  r ← Userlib.call query (msg.pack (str "app-count"));
  match r with
  | Err e => err_print (str "apps failed") e
  | Ok w =>
      let count := number_reply w in
      if count =? 0 then print (str "no installed apps" ++ [10]) else show_items query (str "app-list ") (str "apps failed") (seqZ 0 count)
  end.

Definition app_cmd (rest : list Z) : prog W bool :=
  let '(verb, name) := split_cmd rest in
  let empty := (length name =? 0)%nat in
  if bytes_eqb verb (str "list") then apps_cmd else
  if bytes_eqb verb (str "install") && empty then call_print sup (str "install-app") else
  if bytes_eqb verb (str "run") && negb empty then call_print initfs (str "app " ++ name) else
  if bytes_eqb verb (str "remove") && negb empty then call_print sup (str "remove-app " ++ name) else
  print (str "usage: app install|list|run|remove <name>" ++ [10]).

Definition services_cmd : prog W bool :=
  r ← Userlib.call sup (msg.pack (str "status-count"));
  match r with
  | Err e => err_print (str "services failed") e
  | Ok w => show_items sup (str "status ") (str "services failed") (seqZ 0 (number_reply w))
  end.

Definition svc_action (verb name : list Z) : prog W bool :=
  if (length name =? 0)%nat then print (str "usage: " ++ verb ++ str " <name>" ++ [10]) else
  call_or sup (take 38 (verb ++ [32] ++ name)) (str "operation failed").

Definition audit_cmd : prog W bool :=
  r ← Userlib.call query (msg.pack (str "auditcount"));
  match r with
  | Err e => err_print (str "audit failed") e
  | Ok w =>
      let total := number_reply w in
      let show := Z.min total 8 in
      show_items query (str "audit ") (str "audit failed") (seqZ (total - show) show)
  end.

Definition exec_req (name : list Z) : prog W bool := call_or initfs (str "exec " ++ name) (str "exec request failed").

Definition get_cmd (rest : list Z) : prog W bool :=
  if (length rest =? 0)%nat then print (str "usage: get <key>" ++ [10]) else call_print query (take 38 (str "get " ++ rest)).

Definition uptime_cmd : prog W bool :=
  t1 ← Userlib.ticks;
  t2 ← Userlib.ticks;
  print (Text.push_num (Text.push_num (str "up ") (t1 / 100) ++ str " s (") t2 ++ str " ticks)" ++ [10]).

Definition stats_cmd : prog W bool :=
  r ← Userlib.stats;
  match r with
  | Ok st =>
      ok ← print (Text.push_num (Text.push_num (str "frames used/total: ") (Userlib.ss_frames_used st) ++ [47]) (Userlib.ss_frames_total st) ++ [10]);
      ok2 ← print (Text.push_num (Text.push_num (str "my pages: ") (Userlib.ss_my_pages st) ++ str "; tasks: ") (Userlib.ss_ntasks st) ++ [10]);
      mret (ok2 && ok)
  | Err _ => print (str "stats unavailable" ++ [10])
  end.

Definition reboot_cmd : prog W (option bool) := _ ← print (str "rebooting now" ++ [10]); _ ← Userlib.reboot; mret None.

Definition unknown (line : list Z) : prog W bool :=
  print (str "? unknown '" ++ take (Nat.min (length line) 16) line ++ str "' (try help)" ++ [10]).

Definition execute (line : list Z) : prog W (option bool) :=
  let '(cmd, rest) := split_cmd line in
  let named w := bytes_eqb cmd (str w) in
  if named "reboot"%string then reboot_cmd else
  ok ← (if named "help"%string then help else
    if named "echo"%string then print (rest ++ [10]) else
    if named "hello"%string then exec_req (str "hello") else
    if named "exec"%string then exec_req rest else
    if named "services"%string then services_cmd else
    if named "start"%string || named "stop"%string || named "restart"%string then svc_action cmd rest else
    if named "update"%string then call_print sup (str "update") else
    if named "apps"%string then apps_cmd else
    if named "app"%string then app_cmd rest else
    if named "slot"%string then call_print query (str "slot") else
    if named "get"%string then get_cmd rest else
    if named "audit"%string then audit_cmd else
    if named "uptime"%string then uptime_cmd else
    if named "stats"%string then stats_cmd else unknown line);
  mret (Some ok).

(** The first [n] rounds of the loop; [false] when the process has ended. *)
Fixpoint run (n : nat) : prog W bool :=
  match n with
  | O => mret true
  | S n =>
      _ ← print (str "> ");
      line ← read_line;
      let text := trim line in
      if (length text =? 0)%nat then run n else
      r ← execute text;
      match r with
      | None => mret false
      | Some true => run n
      | Some false => _ ← Userlib.exit 8; mret false
      end
  end.

Definition main (n : nat) : prog W bool := _ ← print (str "redoubt shell ready. type 'help'." ++ [10]); run n.

End shell.
End Shell.

(** ** servers/hello/src/main.rs: three greetings, then exit code 7 *)
Module Hello.
Section hello.
Context {W : Type} `{Abi W}.

(** The exit code. *)
Fixpoint greet (ids : list Z) : prog W Z :=
  match ids with
  | [] => _ ← Userlib.exit 7; mret 7
  | i :: ids =>
      r ← Userlib.call 0 (msg.pack (Text.push_num (str "hello from spawned task #") i ++ [10]));
      match r with Ok _ => greet ids | Err _ => _ ← Userlib.exit 9; mret 9 end
  end.

Definition main : prog W Z := greet [1; 2; 3].
End hello.
End Hello.

(** ** servers/heart/src/main.rs: a beat every 200 ticks *)
Module Heart.
Section heart.
Context {W : Type} `{Abi W}.

(** The first [n] beats; [Err] is the exit code. *)
Fixpoint beat (n : nat) (beats : Z) : prog W (result Z Z) :=
  match n with
  | O => mret (Ok beats)
  | S n =>
      _ ← Userlib.call 1 (msg.pack (str "slot"));
      let beats := wrap 64 (beats + 1) in
      ok ← Userlib.print_split 0 (Text.push_num (str "[heart] beat ") beats ++ [10]);
      if negb ok then _ ← Userlib.exit 9; mret (Err 9) else
      s ← Userlib.sleep 200;
      match s with Ok _ => beat n beats | Err _ => _ ← Userlib.exit 10; mret (Err 10) end
  end.

Definition main (n : nat) : prog W (result Z Z) :=
  _ ← Userlib.set_name (str "heart");
  _ ← Userlib.call 1 (msg.pack (str "log heart started"));
  beat n 0.
End heart.
End Heart.

(** * The shell: what it promises

    [shell_confined]: whatever is typed and whatever the servers answer, the
    shell returns from every command and makes only the calls of its
    vocabulary. *)

Import Shell.

(** ** The vocabulary *)

Inductive request : Z -> list Z -> Prop :=
  | prints text : request out (SOH :: text)
  | reads : request stdin (str "read")
  | runs_program name : request initfs (str "exec " ++ name)
  | runs_app name : request initfs (str "app " ++ name)
  | counts_apps : request query (str "app-count")
  | lists_app i : request query (Text.push_num (str "app-list ") i)
  | asks_slot : request query (str "slot")
  | gets_key key : request query (take 38 (str "get " ++ key))
  | counts_records : request query (str "auditcount")
  | reads_record i : request query (Text.push_num (str "audit ") i)
  | counts_services : request sup (str "status-count")
  | asks_service i : request sup (Text.push_num (str "status ") i)
  | controls_service verb name : verb ∈ [str "start"; str "stop"; str "restart"] -> request sup (take 38 (verb ++ [32] ++ name))
  | updates : request sup (str "update")
  | installs : request sup (str "install-app")
  | removes name : request sup (str "remove-app " ++ name).

Definition call_args (ep : Z) (w : list Z) : list Arg :=
  [Word ep; Word (nth 0 w 0); Word (nth 1 w 0); Word (nth 2 w 0); Word (nth 3 w 0); Word (nth 4 w 0)].

Inductive allowed : Event -> Prop :=
  | requests ep text : request ep text -> allowed (Sys.SYS_IPC_CALL, call_args ep (msg.pack text))
  | reads_clock args : allowed (Sys.SYS_TICKS, args)
  | reads_stats args : allowed (Sys.SYS_STATS, args)
  | reboots args : allowed (Sys.SYS_REBOOT, args)
  | exits : allowed (Sys.SYS_EXIT, [Word 8; Word 0; Word 0; Word 0; Word 0; Word 0]).

Section shell.
Context {W : Type} `{Abi W}.

Definition speaks {A} (m : prog (Traced W) A) : Prop := emits (W := W) allowed m (fun _ => True).

Lemma speaks_ret {A} (a : A) : speaks (mret a).
Proof. by apply emits_ret. Qed.

Lemma speaks_bind {A B} (m : prog (Traced W) A) (k : A -> prog (Traced W) B) : speaks m -> (forall a, speaks (k a)) -> speaks (m ≫= k).
Proof. apply emits_then. Qed.

Lemma speaks_trap n args : allowed (n, args) -> speaks (Userlib.trap n args).
Proof. intros Ha. by apply emits_trap. Qed.

Lemma speaks_call ep text : request ep text -> speaks (Userlib.call ep (msg.pack text)).
Proof. intros Hr. apply speaks_bind; [by apply speaks_trap, (requests ep text)|]. intros [r buf]. apply speaks_ret. Qed.

Lemma speaks_print s : speaks (print s).
Proof.
  unfold print, Userlib.print_split. induction (chunks 37 s) as [|c cs IH]; [apply speaks_ret|]. cbn [Userlib.print_chunks].
  apply speaks_bind; [apply speaks_call, prints|]. intros [ws|e]; [exact IH|apply speaks_ret].
Qed.

Lemma speaks_call_or ep req what : request ep req -> speaks (call_or ep req what).
Proof. intros Hr. apply speaks_bind; [by apply speaks_call|]. intros [ws|e]; apply speaks_print. Qed.

Lemma speaks_show_items ep prefix what ids : (forall i, request ep (Text.push_num prefix i)) -> speaks (show_items ep prefix what ids).
Proof.
  intros Hr. induction ids as [|i ids IH]; [apply speaks_ret|]. cbn [show_items]. apply speaks_bind; [by apply speaks_call|].
  intros [ws|e]; [|apply speaks_print]. apply speaks_bind; [apply speaks_print|]. intros [|]; [exact IH|apply speaks_ret].
Qed.

Lemma speaks_help : speaks help.
Proof.
  unfold help. induction HELP as [|l ls IH]; [apply speaks_ret|]. cbn [help_lines].
  apply speaks_bind; [apply speaks_call, (prints (str l ++ [10]))|]. intros [ws|e]; [exact IH|apply speaks_ret].
Qed.

Lemma speaks_count ep req (k : list Z -> prog (Traced W) bool) what : request ep req -> (forall w, speaks (k w)) ->
  speaks (r ← Userlib.call ep (msg.pack req); match r with Err e => err_print what e | Ok w => k w end).
Proof. intros Hr Hk. apply speaks_bind; [by apply speaks_call|]. intros [ws|e]; [apply Hk|apply speaks_print]. Qed.

Lemma speaks_apps : speaks apps_cmd.
Proof.
  apply (speaks_count query); [apply counts_apps|]. intros ws. cbv zeta. destruct (_ =? 0); [apply speaks_print|apply speaks_show_items; constructor].
Qed.

Lemma speaks_services : speaks services_cmd.
Proof. apply (speaks_count sup); [apply counts_services|]. intros ws. apply speaks_show_items; constructor. Qed.

Lemma speaks_audit : speaks audit_cmd.
Proof. apply (speaks_count query); [apply counts_records|]. intros ws. cbv zeta. apply speaks_show_items; constructor. Qed.

Lemma speaks_app rest : speaks (app_cmd rest).
Proof.
  unfold app_cmd. destruct (split_cmd rest) as [verb name]. cbv zeta. destruct (bytes_eqb _ _); [apply speaks_apps|].
  repeat (destruct (_ && _); [apply speaks_call_or; constructor|]). apply speaks_print.
Qed.

Lemma speaks_svc verb name : verb ∈ [str "start"; str "stop"; str "restart"] -> speaks (svc_action verb name).
Proof. intros Hv. unfold svc_action. destruct (_ =? _)%nat; [apply speaks_print|apply speaks_call_or; by constructor]. Qed.

Lemma speaks_stats : speaks stats_cmd.
Proof.
  apply speaks_bind. { apply speaks_bind; [apply speaks_trap, reads_stats|]. intros [r b]. apply speaks_ret. }
  intros [st|e]; [|apply speaks_print]. repeat (apply speaks_bind; [apply speaks_print|]; intros ?). apply speaks_ret.
Qed.

Lemma speaks_ticks : speaks Userlib.ticks.
Proof. apply speaks_bind; [apply speaks_trap, reads_clock|]. intros [r b]. apply speaks_ret. Qed.

Lemma speaks_execute line : speaks (execute line).
Proof.
  unfold execute. destruct (split_cmd line) as [cmd rest]. cbv zeta. destruct (bytes_eqb cmd (str "reboot")).
  { apply speaks_bind; [apply speaks_print|]. intros _. apply speaks_bind; [|intros _; apply speaks_ret].
    apply speaks_bind; [apply speaks_trap, reboots|]. intros _. apply speaks_ret. }
  apply speaks_bind; [|intros ok; apply speaks_ret].
  destruct (bytes_eqb cmd (str "help")); [apply speaks_help|]. destruct (bytes_eqb cmd (str "echo")); [apply speaks_print|].
  destruct (bytes_eqb cmd (str "hello")); [apply speaks_call_or; constructor|]. destruct (bytes_eqb cmd (str "exec")); [apply speaks_call_or; constructor|].
  destruct (bytes_eqb cmd (str "services")); [apply speaks_services|].
  destruct (_ || _) eqn:Ev.
  { apply speaks_svc. apply orb_true_iff in Ev as [[Ev|Ev]%orb_true_iff|Ev]; apply bytes_eqb_eq in Ev as ->; repeat constructor. }
  destruct (bytes_eqb cmd (str "update")); [apply speaks_call_or; constructor|]. destruct (bytes_eqb cmd (str "apps")); [apply speaks_apps|].
  destruct (bytes_eqb cmd (str "app")); [apply speaks_app|]. destruct (bytes_eqb cmd (str "slot")); [apply speaks_call_or; constructor|].
  destruct (bytes_eqb cmd (str "get")). { unfold get_cmd. destruct (_ =? _)%nat; [apply speaks_print|apply speaks_call_or; constructor]. }
  destruct (bytes_eqb cmd (str "audit")); [apply speaks_audit|].
  destruct (bytes_eqb cmd (str "uptime")). { do 2 (apply speaks_bind; [apply speaks_ticks|]; intros ?). apply speaks_print. }
  destruct (bytes_eqb cmd (str "stats")); [apply speaks_stats|apply speaks_print].
Qed.

Lemma speaks_read_line : speaks read_line.
Proof.
  apply speaks_bind; [apply speaks_call, reads|]. intros [ws|e]; [apply speaks_ret|]. apply speaks_bind; [apply speaks_print|]. intros _. apply speaks_ret.
Qed.

Lemma speaks_run n : speaks (run n).
Proof.
  induction n as [|n IH]; [apply speaks_ret|]. cbn [run]. apply speaks_bind; [apply speaks_print|]. intros _.
  apply speaks_bind; [apply speaks_read_line|]. intros line. cbv zeta. destruct (_ =? _)%nat; [exact IH|].
  apply speaks_bind; [apply speaks_execute|]. intros [[|]|]; [exact IH| |apply speaks_ret].
  apply speaks_bind; [|intros _; apply speaks_ret]. apply speaks_bind; [apply speaks_trap, exits|]. intros _. apply speaks_ret.
Qed.

(** C35. Whatever is typed and whatever the kernel and the servers answer, the
    shell returns from any number of rounds for which it has memory, and every system call it has made
    is in its vocabulary: verbatim output, a line read, a program or an
    application run through initfs, reads of the storage service, supervisor
    requests, the clock, the statistics, a reboot, and exit 8.  It never spawns
    or kills, writes no record to the audit log and no configuration. *)
Theorem shell_confined n (w : W) : exists going w' calls,
  main n (mkTraced w []) = Some (going, mkTraced w' calls) /\ Forall allowed calls.
Proof.
  assert (Hm : speaks (main n)) by (apply speaks_bind; [apply speaks_print|]; intros _; apply speaks_run).
  destruct (emits_run _ _ _ w Hm) as (going & w' & calls & E & Hc & _). eauto.
Qed.
End shell.
