(* ===== verification/Agt.v ===== *)
(** * The provisioning tool (tools/agt/src/main.rs)

    The host commands that make signing keys, format a volume and stage signed
    packages on it.  The host is a set of files, a source of entropy and a
    script of input/output faults: [h_faults] holds, for each transfer, whether
    it fails and after how many bytes.  A command returns [Ok] or an error:
    the tool's own message, or one of the standard library ([Io]).  [None] is a
    panic.  What is printed is not modelled.

    The theorems run each command on a host whose transfers may fail ([fine]
    says that none does) and relate what it writes to the programs of the
    device that read the volume: the key files to the keys built into the
    device, a formatted volume to the mount of the storage service, a staged
    update to the update agent, a staged application to the installer. *)

From S2P Require Import Prelude RustStd HashStream Sha256 Hmac ChaCha20 Ed25519 Ed25519Sign Layout LayoutTheorems Prog Userlib Strings StorageText StorageConfig Storaged StorageEnv StorageLoad StorageAudit StorageInv StorageApps StorageInstall StorageUpdate StorageMount StorageServe StorageSim StorageTheorems StorageWitness Updated UpdatedTheorems Requests.
Import Layout.

Module Agt.

Inductive Error := Msg (text : list Z) | Io.

Record Host := mkHost { h_files : gmap (list Z) (list Z); h_entropy : list (list Z); h_faults : list (option nat) }.

Abbreviation M A := (prog Host (result A Error)).

Definition fail {A} (text : string) : M A := mret (Err (Msg (str text))).
Definition io_error {A} : M A := mret (Err Io).
Definition ok {A} (a : A) : M A := mret (Ok a).

(** The [?] operator. *)
Definition andThen {A B} (m : M A) (k : A -> M B) : M B :=
  r ← m; match r with Ok a => k a | Err e => mret (Err e) end.
#[local] Notation "x <- m ; k" := (andThen m (fun x => k)) (at level 100, m at level 99, right associativity, only parsing).

(** [.ok_or(text)?] *)
Definition need {A} (o : option A) (text : string) : M A := match o with Some a => ok a | None => fail text end.

(** The fault of the next transfer, if any. *)
Definition fault : prog Host (option nat) := fun h =>
  match h_faults h with f :: fs => Some (f, mkHost (h_files h) (h_entropy h) fs) | [] => Some (None, h) end.

Definition set_file (path bytes : list Z) : prog Host () :=
  modify (fun h => mkHost (<[path := bytes]> (h_files h)) (h_entropy h) (h_faults h)).

(** [std::fs::read] *)
Definition read_file (path : list Z) : M (list Z) :=
  f ← fault;
  c ← gets (fun h => h_files h !! path);
  match f, c with None, Some bytes => ok bytes | _, _ => io_error end.

(** [std::fs::write]: the file is truncated first. *)
Definition write_file (path bytes : list Z) : M () :=
  f ← fault;
  match f with
  | None => _ ← set_file path bytes; ok ()
  | Some n => _ ← set_file path (take n bytes); io_error
  end.

(** 32 bytes of /dev/urandom. *)
Definition entropy : M (list Z) := fun h =>
  match h_entropy h with
  | b :: rest => Some (Ok b, mkHost (h_files h) rest (h_faults h))
  | [] => Some (Err Io, h)
  end.

(** ** Arguments and hexadecimal *)

Definition arg_of (args : list (list Z)) (flag : string) : option (list Z) :=
  i ← position (fun a => bytes_eqb a (str flag)) args; args !! (i + 1)%nat.

Definition flag_present (args : list (list Z)) (flag : string) : bool := existsb (fun a => bytes_eqb a (str flag)) args.

Definition hex_encode (b : list Z) : list Z := Strings.hex_print b.

Fixpoint hex_pairs (s : list Z) (ids : list nat) : M (list Z) :=
  match ids with
  | [] => ok []
  | i :: ids =>
      pair ← expect (Strings.get s (i * 2) (i * 2 + 2));
      match Strings.u8_from_hex pair with
      | None => fail "bad hex"
      | Some b => rest <- hex_pairs s ids; ok (b :: rest)
      end
  end.

Definition hex_decode (s : list Z) : M (list Z) :=
  if negb (length s mod 2 =? 0)%nat then fail "bad hex length" else hex_pairs s (seq 0 (length s / 2)).

(** [copy_from_slice] into the 32 bytes of the seed panics on another length. *)
Definition load_key (prefix : list Z) : M (list Z) :=
  bytes <- read_file (prefix ++ str ".seed");
  match from_utf8 bytes with
  | None => io_error
  | Some text => raw <- hex_decode (Strings.trim text); if (length raw =? 32)%nat then ok raw else panic
  end.

(** ** The volume *)

Record Volume := mkVolume { v_path : list Z; v_sectors : Z }.

Definition open (path : list Z) : M Volume :=
  f ← fault;
  c ← gets (fun h => h_files h !! path);
  match f, c with
  | None, Some bytes =>
      if negb (Z.of_nat (length bytes) mod 512 =? 0) then fail "not sector-aligned"
      else ok (mkVolume path (Z.of_nat (length bytes) / 512))
  | _, _ => io_error
  end.

(** Bytes written at an offset of a file: a gap reads as zeros. *)
Definition write_at (off : nat) (data file : list Z) : list Z :=
  splice off data (file ++ replicate (off + length data - length file) 0).

(** [write_all] after a seek: a fault leaves a part of the data. *)
Definition write_all (path : list Z) (off : Z) (data : list Z) : M () :=
  f ← fault;
  file ← gets (fun h => default [] (h_files h !! path));
  match f with
  | None => _ ← set_file path (write_at (Z.to_nat off) data file); ok ()
  | Some n => _ ← set_file path (write_at (Z.to_nat off) (take n data) file); io_error
  end.

Definition create (path : list Z) (sectors : Z) : M Volume :=
  f ← fault;
  match f with
  | Some _ => io_error
  | None =>
      file ← gets (fun h => default [] (h_files h !! path));
      _ ← set_file path file;
      let end_ := wrap 64 (sectors * 512) in
      _ <- write_all path (Z.max (end_ - 1) 0) [0];
      ok (mkVolume path sectors)
  end.

Definition read_lba (vol : Volume) (lba : Z) (count : nat) : M (list Z) :=
  if v_sectors vol <? lba + Z.of_nat count then fail "read past end of volume" else
  f ← fault;
  file ← gets (fun h => default [] (h_files h !! v_path vol));
  match f with
  | Some _ => io_error
  | None =>
      if (length file <? Z.to_nat lba * SECTOR + count * SECTOR)%nat then io_error
      else ok (slice (Z.to_nat lba * SECTOR) (count * SECTOR) file)
  end.

Definition write_lba (vol : Volume) (lba : Z) (buf : list Z) : M () :=
  if negb (length buf mod SECTOR =? 0)%nat then panic else
  if v_sectors vol <? lba + Z.of_nat (length buf / SECTOR) then fail "write past end of volume"
  else write_all (v_path vol) (lba * 512) buf.

(** ** keygen *)
Definition cmd_keygen (args : list (list Z)) : M () :=
  out <- need (arg_of args "--out") "keygen needs --out <prefix>";
  seed <- entropy;
  public ← expect (Ed25519.public_from_seed seed);
  _ <- write_file (out ++ str ".seed") (hex_encode seed ++ [10]);
  write_file (out ++ str ".pub") (hex_encode public ++ [10]).

(** ** mkvol *)

Definition FACTORY_PAYLOAD : list Z :=
  Storaged.unlines ["# redoubt system definition v1"; "device-id=redoubt-dev-01"; "min-generation=1"; "service heart autostart restart"]%string.
Definition FACTORY_CONFIG : list Z := Storaged.unlines ["hostname=redoubt-dev-01"]%string.

Definition write_slot (vol : Volume) (slot : SlotId) (generation : Z) (payload sig vol_key : list Z) : M () :=
  hdr ← expect (write_slot_header (replicate SECTOR 0) slot SLOT_STATE_VALID generation payload sig);
  let nonce := data_nonce slot 83 generation in
  let ct := ChaCha20.xor_stream vol_key 0 nonce payload in
  let mac := slot_mac vol_key hdr ct in
  let hdr := splice HDR_MAC_OFF mac hdr in
  let region := splice 0 ct (replicate (Z.to_nat PAYLOAD_CAP) 0) in
  _ <- write_lba vol (hdr_lba slot) hdr;
  write_lba vol (payload_lba slot) region.

(** The same sector at consecutive addresses. *)
Fixpoint write_each (vol : Volume) (lbas : list Z) (buf : list Z) : M () :=
  match lbas with
  | [] => ok ()
  | lba :: lbas => _ <- write_lba vol lba buf; write_each vol lbas buf
  end.

Definition volume_size_mb (args : list (list Z)) : Z := default 16 (s ← arg_of args "--size-mb"; parse_u64 s).

(** An existing file that is not formatted, or a new one. *)
Definition open_or_create (path : list Z) (size_mb : Z) : M Volume :=
  exists_ ← gets (fun h => bool_decide (is_Some (h_files h !! path)));
  if exists_ : bool then
    v <- open path;
    sb <- read_lba v 0 1;
    if bytes_eqb (slice 0 8 sb) SB_MAGIC then fail "already formatted; delete it first" else ok v
  else create path (wrap 64 (wrap 64 (size_mb * 1024) * 1024) / 512).

Definition cmd_mkvol (args : list (list Z)) : M () :=
  image <- need (arg_of args "--image") "mkvol needs --image";
  let key_prefix := default (str "keys/redoubt-dev") (arg_of args "--key") in
  vol <- open_or_create image (volume_size_mb args);
  seed <- load_key key_prefix;
  vol_key <- entropy;
  sig ← expect (Ed25519.sign seed FACTORY_PAYLOAD);
  let generation := 1 in
  sb ← expect (write_superblock (replicate SECTOR 0) (Some A) generation 0 vol_key);
  _ <- write_lba vol SUPERBLOCK_LBA sb;
  cfg ← expect (write_config (replicate SECTOR 0) 0 FACTORY_CONFIG vol_key);
  _ <- write_lba vol CONFIG_LBA cfg;
  _ <- write_slot vol A generation FACTORY_PAYLOAD sig vol_key;
  let zeros := replicate SECTOR 0 in
  _ <- write_each vol (seqZ STAGING_LBA STAGING_SECTORS) zeros;
  write_each vol (seqZ AUDIT_START_LBA 8) zeros.

(** ** updpack *)

(** [pkg[i] ^= 0x20] *)
Definition tamper (i : nat) (pkg : list Z) : option (list Z) :=
  b ← pkg !! i; Some (<[i := Z.lxor b 0x20]> pkg).

Fixpoint pad_sector (fuel : nat) (pkg : list Z) (total : nat) : option (list Z) :=
  match fuel with
  | O => None
  | S fuel => if negb (length pkg mod SECTOR =? 0)%nat || (length pkg <? total)%nat then pad_sector fuel (pkg ++ [0]) total else Some pkg
  end.

Definition update_package (seed payload vol_key : list Z) (gen : Z) (corrupt : bool) : prog Host (list Z * nat) :=
  payload_sig ← expect (Ed25519.sign seed payload);
  '(img, img_len) ← expect (build_slot_image (replicate (Z.to_nat SLOT_IMAGE_MAX) 0) gen payload payload_sig vol_key);
  let img := take img_len img in
  image_sig ← expect (Ed25519.sign seed img);
  '(pkg, total) ← expect (write_stage_package (replicate (PKG_IMAGE_OFF + length img) 0) img image_sig);
  pkg ← (if corrupt then expect (tamper (PKG_IMAGE_OFF + 2 * SECTOR) pkg) else mret pkg);
  pkg ← expect (pad_sector (S SECTOR) pkg total);
  mret (pkg, total).

Definition cmd_updpack (args : list (list Z)) : M () :=
  image <- need (arg_of args "--image") "updpack needs --image";
  payload_path <- need (arg_of args "--payload") "updpack needs --payload <file>";
  gen_text <- need (arg_of args "--gen") "updpack needs --gen N";
  gen <- need (parse_u64 gen_text) "bad --gen";
  let key_prefix := default (str "keys/dev/redoubt") (arg_of args "--key") in
  let corrupt := flag_present args "--corrupt" in
  seed <- load_key key_prefix;
  vol <- open image;
  sb <- read_lba vol 0 1;
  _ <- need (parse_superblock sb) "not a formatted redoubt volume";
  let vol_key := slice SB_KEY_OFF 32 sb in
  if negb (superblock_valid vol_key sb) then fail "superblock MAC invalid" else
  payload <- read_file payload_path;
  if PAYLOAD_CAP <? Z.of_nat (length payload) then fail "payload too large for slot capacity" else
  '(pkg, total) ← update_package seed payload vol_key gen corrupt;
  if STAGING_SECTORS * 512 <? Z.of_nat total then fail "package exceeds staging region" else
  write_lba vol STAGING_LBA pkg.

(** ** apppack *)

Definition valid_app_name (name : list Z) : bool :=
  negb (length name =? 0)%nat && (length name <=? APP_NAME_MAX)%nat &&
  forallb (fun b => is_ascii_alphanumeric b || (b =? 45)) name.

(** [package.resize(total rounded up to sectors, 0)] *)
Definition resize (n : nat) (l : list Z) : list Z := take n l ++ replicate (n - length l) 0.

Definition cmd_apppack (args : list (list Z)) : M () :=
  image <- need (arg_of args "--image") "apppack needs --image";
  elf_path <- need (arg_of args "--elf") "apppack needs --elf <file>";
  name <- need (arg_of args "--name") "apppack needs --name <id>";
  version_text <- need (arg_of args "--version") "apppack needs --version N";
  version <- need (parse_u64 version_text) "bad --version";
  let key_prefix := default (str "keys/dev/redoubt") (arg_of args "--key") in
  let corrupt := flag_present args "--corrupt" in
  if negb (valid_app_name name) then fail "app name must be 1..24 ASCII letters, digits, or hyphens" else
  payload <- read_file elf_path;
  if (length payload =? 0)%nat || (APP_STAGE_CAP <? Z.of_nat (length payload)) then fail "application exceeds the staging capacity" else
  seed <- load_key key_prefix;
  let digest := Sha256.sha256 payload in
  let signing := app_signing_message name version (Z.of_nat (length payload)) digest in
  signature ← expect (Ed25519.sign seed signing);
  written ← expect (write_app_stage_package (replicate (APP_PKG_HEADER + length payload) 0) name version payload signature);
  built <- need written "could not encode app package";
  let '(package, total) := (built : list Z * nat) in
  package ← (if corrupt then expect (tamper APP_PKG_HEADER package) else mret package);
  let package := resize ((total + SECTOR - 1) / SECTOR * SECTOR) package in
  vol <- open image;
  sb <- read_lba vol SUPERBLOCK_LBA 1;
  match parse_superblock sb with
  | None => fail "not a formatted redoubt volume"
  | Some _ => write_lba vol STAGING_LBA package
  end.

End Agt.

Import Text Storaged Agt.

#[local] Opaque Ed25519.verify Ed25519.sign Ed25519.public_from_seed Sha256.sha256 Hmac.oneshot Hmac.reference ChaCha20.xor_stream WS_LEN.

(** ** Running commands *)

(** A command's result: [P] when it returns, and an error only of a host that
    has faults. *)
Definition outcome {A} (fine : Prop) (P : A -> Host -> Prop) (r : result A Error) (h : Host) : Prop :=
  match r with Ok a => P a h | Err _ => ~ fine end.

(** The files and the entropy of a host. *)
Record host_at (fine : Prop) (F : gmap (list Z) (list Z)) (E : list (list Z)) (h : Host) : Prop := {
  ha_files : h_files h = F; ha_entropy : h_entropy h = E; ha_calm : fine -> h_faults h = [] }.

Section host.
Context {fine : Prop}.
Implicit Types (F : gmap (list Z) (list Z)) (E : list (list Z)).

Lemma wp_then {A B} (m : M A) (k : A -> M B) P h :
  wp m (outcome fine (fun a => wp (k a) (outcome fine P))) h -> wp (andThen m k) (outcome fine P) h.
Proof.
  intros Hm. apply wp_bind. eapply wp_mono; [exact Hm|]. intros [a|e] h' Ho; [exact Ho|]. by apply wp_ret.
Qed.

Lemma wp_ok {A} (a : A) P h : P a h -> wp (ok a) (outcome fine P) h.
Proof. done. Qed.

Lemma wp_need {A} (o : option A) text a P h : o = Some a -> P a h -> wp (need o text) (outcome fine P) h.
Proof. by intros ->. Qed.

Lemma wp_fault F E h Q : host_at fine F E h ->
  (forall f h', host_at fine F E h' -> (fine -> f = None) -> Q f h') -> wp fault Q h.
Proof.
  intros [H1 H2 H3] HQ. unfold wp, fault. destruct (h_faults h) as [|f fs] eqn:Ef.
  - apply HQ; [|done]. by split; [..|intros _].
  - apply HQ; [split; [done|done|]|]; intros Hf; by specialize (H3 Hf).
Qed.

Lemma wp_set_file F E h path bytes Q : host_at fine F E h ->
  (forall h', host_at fine (<[path := bytes]> F) E h' -> Q () h') -> wp (set_file path bytes) Q h.
Proof. intros [H1 H2 H3] HQ. apply wp_modify, HQ. split; cbn; [by rewrite H1|done|done]. Qed.

Lemma wp_read_file F E h path bytes P : host_at fine F E h -> F !! path = Some bytes ->
  (forall h', host_at fine F E h' -> P bytes h') -> wp (read_file path) (outcome fine P) h.
Proof.
  intros Hh Hp HP. apply wp_bind. eapply wp_fault; [exact Hh|]. intros f h' Hh' Hf. apply wp_bind, wp_gets.
  rewrite (ha_files _ _ _ _ Hh'), Hp. destruct f as [n|]; [|by apply wp_ret, HP]. apply wp_ret. intros Hfi. by specialize (Hf Hfi).
Qed.

Lemma wp_write_file F E h path bytes P : host_at fine F E h ->
  (forall h', host_at fine (<[path := bytes]> F) E h' -> P () h') -> wp (write_file path bytes) (outcome fine P) h.
Proof.
  intros Hh HP. apply wp_bind. eapply wp_fault; [exact Hh|]. intros [n|] h' Hh' Hf; apply wp_bind.
  - eapply wp_set_file; [exact Hh'|]. intros h2 _. apply wp_ret. intros Hfi. by specialize (Hf Hfi).
  - eapply wp_set_file; [exact Hh'|]. intros h2 Hh2. by apply wp_ret, HP.
Qed.

Lemma wp_entropy F b E h P : host_at fine F (b :: E) h -> (forall h', host_at fine F E h' -> P b h') -> wp entropy (outcome fine P) h.
Proof. intros [H1 H2 H3] HP. unfold wp, entropy. rewrite H2. apply HP. by split. Qed.

Lemma run_outcome {A} (m : M A) P h : wp m (outcome fine P) h ->
  exists r h', m h = Some (r, h') /\ (fine -> exists a, r = Ok a) /\ (forall a, r = Ok a -> P a h').
Proof.
  intros Hw. apply wp_run in Hw as (r & h' & Em & Ho). exists r, h'. split; [exact Em|]. destruct r as [a|e]; cbn in Ho.
  - split; [by exists a|]. by intros a' [= <-].
  - by split; [|intros a [=]].
Qed.

(** ** Key files *)

Lemma hex_pairs_print key h : bytes_ok key -> forall n, (n <= length key)%nat ->
  hex_pairs (hex_encode key) (seq n (length key - n)) h = Some (Ok (drop n key), h).
Proof.
  intros Hk n Hn. remember (length key - n)%nat as m eqn:Em. revert n Hn Em. induction m as [|m IH]; intros n Hn Em; cbn [seq hex_pairs].
  { rewrite drop_ge by lia. done. }
  destruct (lookup_lt_is_Some_2 key n) as [b Hb]; [lia|]. unfold hex_encode. rewrite (Strings.get_pair key n b Hk Hb).
  pose proof (Forall_lookup_1 _ _ _ _ Hk Hb) as Hbb. unfold mbind at 1, prog_bind, expect. rewrite (Strings.hex_pair b Hbb).
  unfold andThen. unfold mbind at 1, prog_bind. fold (hex_encode key). rewrite (IH (S n)) by lia. by rewrite (drop_S _ _ _ Hb).
Qed.

Lemma hex_decode_print key h : bytes_ok key -> hex_decode (hex_encode key) h = Some (Ok key, h).
Proof.
  intros Hk. unfold hex_decode. unfold hex_encode at 1 2. rewrite !Strings.length_hex_print, Nat.Div0.mod_mul, Nat.div_mul by lia. cbn [Nat.eqb negb].
  pose proof (hex_pairs_print key h Hk 0 ltac:(lia)) as E. by rewrite Nat.sub_0_r, drop_0 in E.
Qed.

Lemma ascii_utf8 l : Forall (fun b => 0 <= b < 128) l -> from_utf8 l = Some l.
Proof.
  intros Hl. unfold from_utf8. replace (utf8_valid l) with true; [done|]. symmetry. induction Hl as [|d l Hd _ IH]; [done|].
  cbn [utf8_valid]. unfold in_range at 1. by rewrite (proj2 (Z.leb_le 0 d)), (proj2 (Z.leb_le d 0x7f)) by lia.
Qed.

(** Printable characters are not white space, nor do they begin or end its
    encodings. *)
Definition printable (b : Z) : Prop := 33 <= b < 128.
Definition blank_edge (p : list Z) : Prop := match p with b :: _ => ~ printable b | [] => False end.

Lemma white_edges : Forall blank_edge Strings.WHITE /\ Forall blank_edge (@rev Z <$> Strings.WHITE).
Proof. split; vm_compute; repeat constructor; intros [H1 H2]; first [by apply H1|by apply H2]. Qed.

Lemma trim_with_stop fuel white b s : Forall blank_edge white -> printable b -> Strings.trim_with fuel white (b :: s) = b :: s.
Proof.
  intros Hw Hb. destruct fuel as [|fuel]; [done|]. cbn [Strings.trim_with].
  assert (E : find (Strings.prefixed (b :: s)) white = None); [|by rewrite E].
  induction Hw as [|p white Hp _ IH]; [done|]. cbn [find]. destruct p as [|c p]; [done|].
  unfold Strings.prefixed at 1. rewrite bytes_eqb_ne; [exact IH|]. intros [= -> _]. done.
Qed.

Lemma trim_line l : Forall printable l -> l <> [] -> Strings.trim (l ++ [10]) = l.
Proof.
  intros Hl Hn. destruct white_edges as [H1 H2]. destruct l as [|b l]; [done|]. unfold Strings.trim. cbn [app].
  rewrite trim_with_stop by (done || by inversion Hl). change (b :: l ++ [10]) with ((b :: l) ++ [10]). rewrite rev_app_distr. cbn [rev app].
  cbn [length Strings.trim_with]. assert (Hr : Forall printable (rev l ++ [b])) by (apply (Forall_rev Hl)).
  assert (Ef : find (Strings.prefixed (10 :: rev l ++ [b])) (@rev Z <$> Strings.WHITE) = Some [10]) by reflexivity. rewrite Ef. clear Ef.
  change (drop (length [10]) (10 :: rev l ++ [b])) with (rev l ++ [b]). destruct (rev l ++ [b]) as [|c q] eqn:Er; [by destruct (rev l)|].
  rewrite trim_with_stop by (done || by inversion Hr). rewrite <- Er. change (rev l ++ [b]) with (rev (b :: l)). apply rev_involutive.
Qed.

Lemma hex_print_printable key : bytes_ok key -> Forall printable (hex_encode key).
Proof.
  intros Hk. unfold hex_encode, Strings.hex_print. induction Hk as [|b key Hb _ IH]; [constructor|]. cbn [fmap list_fmap concat]. apply Forall_app. split; [|exact IH].
  red in Hb. assert (H1 : 0 <= b / 16 < 16) by (split; [apply Z.div_pos|apply Z.div_lt_upper_bound]; lia). pose proof (Z.mod_pos_bound b 16 ltac:(lia)).
  repeat constructor; unfold Strings.hex_char; case_match; lia.
Qed.

Definition key_file (key : list Z) : list Z := hex_encode key ++ [10].

Lemma key_file_text key : bytes_ok key -> length key = 32%nat ->
  from_utf8 (key_file key) = Some (key_file key) /\ Strings.trim (key_file key) = hex_encode key.
Proof.
  intros Hk Hl. split.
  - apply ascii_utf8. apply Forall_app. split; [by apply Strings.hex_print_ascii|by repeat constructor].
  - apply trim_line; [by apply hex_print_printable|]. intros E%(f_equal length). unfold hex_encode in E. rewrite Strings.length_hex_print in E. cbn in E. lia.
Qed.

Lemma wp_load_key F E h prefix seed P : host_at fine F E h -> F !! (prefix ++ str ".seed") = Some (key_file seed) ->
  bytes_ok seed -> length seed = 32%nat -> (forall h', host_at fine F E h' -> P seed h') -> wp (load_key prefix) (outcome fine P) h.
Proof.
  intros Hh Hf Hk Hl HP. apply wp_then. eapply wp_read_file; [exact Hh|exact Hf|]. intros h' Hh'.
  destruct (key_file_text seed Hk Hl) as [-> ->]. apply wp_then. unfold wp. rewrite hex_decode_print by done. cbn [outcome]. rewrite Hl. by apply HP.
Qed.

Lemma pub_file key : bytes_ok key -> length key = 32%nat -> Strings.pub_key (key_file key) = key.
Proof.
  intros Hk Hl. unfold Strings.pub_key. destruct (key_file_text key Hk Hl) as [-> E]. cbn [default from_option id]. rewrite E. by apply Strings.hex_key_print.
Qed.

Definition signs (seed pk : list Z) : Prop :=
  bytes_ok pk /\ length pk = 32%nat /\ forall msg, exists sig, Ed25519.sign seed msg = Some sig /\ bytes_ok sig /\ length sig = 64%nat /\
    Ed25519.verify pk msg sig = Some (Ok tt).

Lemma seed_signs seed pk : Ed25519.public_from_seed seed = Some pk -> signs seed pk.
Proof.
  intros Hpk. split; [|split].
  1, 2: destruct (sign_spec seed []) as (a & r & _ & _ & Hp & _); cbv zeta in Hp; rewrite Hpk in Hp; apply (inj Some) in Hp; rewrite Hp; first [apply encode_ok|apply length_encode].
  intros msg. destruct (sign_verifies seed msg) as (pk' & sig & Ep & Es & Hl & Hv). rewrite Hpk in Ep. apply (inj Some) in Ep. subst pk'.
  exists sig. split; [exact Es|]. split; [|by split]. destruct (sign_spec seed msg) as (a & r & _ & _ & _ & Es'). cbv zeta in Es'. rewrite Es in Es'. apply (inj Some) in Es'. rewrite Es'.
  apply Forall_app. split; [apply encode_ok|apply to_le_bytes_ok].
Qed.

Lemma wp_expect_outcome {A B} (o : option A) (a : A) (k : A -> M B) P h : o = Some a -> wp (k a) (outcome fine P) h ->
  wp (x ← expect o; k x) (outcome fine P) h.
Proof. intros -> Hk. by apply wp_bind. Qed.

(** ** Volumes in files *)

(** Sector [k] of an image file. *)
Definition sector_of (file : list Z) (k : Z) : list Z := if k <? 0 then [] else slice (Z.to_nat k * SECTOR) SECTOR file.

Lemma slice_splice_inner {A} off src (l : list A) o n : (off + length src <= length l)%nat -> (o + n <= length src)%nat ->
  slice (off + o) n (splice off src l) = slice o n src.
Proof. intros Hl Ho. rewrite <- (slice_slice off (length src)) by lia. by rewrite slice_splice_same. Qed.

Lemma sector_of_written file n lba buf c : length file = (n * SECTOR)%nat -> length buf = (c * SECTOR)%nat -> 0 <= lba -> lba + Z.of_nat c <= Z.of_nat n ->
  let file' := write_at (Z.to_nat (lba * 512)) buf file in
  length file' = length file /\ same_except (within lba (Z.of_nat c)) (sector_of file) (sector_of file') /\
  (forall k, within lba (Z.of_nat c) k -> sector_of file' k = slice (Z.to_nat (k - lba) * SECTOR) SECTOR buf).
Proof.
  intros Hf Hb H0 Hn. cbv zeta. unfold write_at, sector_of, within, SECTOR in *. set (off := Z.to_nat (lba * 512)).
  assert (Ho : (off + length buf <= length file)%nat) by (unfold off; lia).
  replace (off + length buf - length file)%nat with 0%nat by lia. cbn [replicate]. rewrite app_nil_r. split; [by apply length_splice|]. split.
  - intros k Hk. destruct (Z.ltb_spec k 0); [done|]. apply slice_splice_disjoint; [exact Ho|]. unfold off. lia.
  - intros k Hk. destruct (Z.ltb_spec k 0); [lia|].
    replace (Z.to_nat k * 512)%nat with (off + Z.to_nat (k - lba) * 512)%nat by (unfold off; lia).
    apply slice_splice_inner; [exact Ho|lia].
Qed.

(** The host while a volume of [n] sectors is open. *)
Record opened F (image : list Z) (n : nat) E (file : list Z) (h : Host) : Prop := {
  op_at : host_at fine (<[image := file]> F) E h; op_len : length file = (n * SECTOR)%nat }.

Lemma wp_write_lba F image n E file h lba buf c P : opened F image n E file h ->
  length buf = (c * SECTOR)%nat -> 0 <= lba -> lba + Z.of_nat c <= Z.of_nat n ->
  (forall file' h', opened F image n E file' h' -> same_except (within lba (Z.of_nat c)) (sector_of file) (sector_of file') ->
     (forall k, within lba (Z.of_nat c) k -> sector_of file' k = slice (Z.to_nat (k - lba) * SECTOR) SECTOR buf) -> P () h') ->
  wp (write_lba (mkVolume image (Z.of_nat n)) lba buf) (outcome fine P) h.
Proof.
  intros [Hh Hf] Hb H0 Hn HP. unfold write_lba. rewrite Hb, Nat.Div0.mod_mul, Nat.div_mul by (unfold SECTOR; lia). cbn [Nat.eqb negb v_sectors v_path].
  rewrite (proj2 (Z.ltb_ge _ _)) by lia. unfold write_all. apply wp_bind. eapply wp_fault; [exact Hh|]. intros f h1 H1 Hnf. apply wp_bind, wp_gets.
  rewrite (ha_files _ _ _ _ H1), lookup_insert_eq. cbn [default from_option id].
  destruct (sector_of_written file n lba buf c Hf Hb H0 Hn) as (Hl & Hs & Hw). destruct f as [m|]; apply wp_bind.
  - eapply wp_set_file; [exact H1|]. intros h2 _. apply wp_ret. intros Hfi. by specialize (Hnf Hfi).
  - eapply wp_set_file; [exact H1|]. rewrite insert_insert_eq. intros h2 H2. apply wp_ok. eapply HP; [|exact Hs|exact Hw]. split; [exact H2|congruence].
Qed.

Lemma wp_read_lba F image n E file h lba P : opened F image n E file h -> 0 <= lba < Z.of_nat n ->
  (forall h', opened F image n E file h' -> P (sector_of file lba) h') ->
  wp (read_lba (mkVolume image (Z.of_nat n)) lba 1) (outcome fine P) h.
Proof.
  intros [Hh Hf] Hn HP. unfold read_lba. cbn [v_sectors v_path]. rewrite (proj2 (Z.ltb_ge _ _)) by lia. apply wp_bind.
  eapply wp_fault; [exact Hh|]. intros f h1 H1 Hnf. apply wp_bind, wp_gets. rewrite (ha_files _ _ _ _ H1), lookup_insert_eq. cbn [default from_option id].
  destruct f as [m|]; [apply wp_ret; intros Hfi; by specialize (Hnf Hfi)|]. rewrite (proj2 (Nat.ltb_ge _ _)) by (unfold SECTOR in *; lia).
  apply wp_ok. assert (Es : sector_of file lba = slice (Z.to_nat lba * SECTOR) (1 * SECTOR) file).
  { unfold sector_of. rewrite (proj2 (Z.ltb_ge _ _)), Nat.mul_1_l by lia. done. }
  rewrite <- Es. apply HP. by split.
Qed.

Lemma wp_open F image n E file h P : host_at fine F E h -> F !! image = Some file -> length file = (n * SECTOR)%nat ->
  (forall h', opened F image n E file h' -> P (mkVolume image (Z.of_nat n)) h') -> wp (open image) (outcome fine P) h.
Proof.
  intros Hh Hf Hl HP. apply wp_bind. eapply wp_fault; [exact Hh|]. intros f h1 H1 Hnf. apply wp_bind, wp_gets.
  rewrite (ha_files _ _ _ _ H1), Hf. destruct f as [m|]; [apply wp_ret; intros Hfi; by specialize (Hnf Hfi)|].
  rewrite Hl. unfold SECTOR. rewrite Nat2Z.inj_mul. change (Z.of_nat 512) with 512. rewrite Z.mod_mul, Z.div_mul by lia. cbn [Z.eqb negb].
  apply wp_ok, HP. split; [|done]. by rewrite insert_id.
Qed.

Lemma wp_create F image n E h P : host_at fine F E h -> F !! image = None -> (0 < n)%nat -> fits 64 (Z.of_nat n * 512) ->
  (forall file h', opened F image n E file h' -> P (mkVolume image (Z.of_nat n)) h') -> wp (create image (Z.of_nat n)) (outcome fine P) h.
Proof.
  intros Hh Hf Hn Hfit HP. apply wp_bind. eapply wp_fault; [exact Hh|]. intros f h1 H1 Hnf.
  destruct f as [m|]; [apply wp_ret; intros Hfi; by specialize (Hnf Hfi)|]. apply wp_bind, wp_gets.
  rewrite (ha_files _ _ _ _ H1), Hf. cbn [default from_option id]. apply wp_bind. eapply wp_set_file; [exact H1|]. intros h2 H2. cbv zeta.
  apply wp_then. unfold write_all. apply wp_bind. eapply wp_fault; [exact H2|]. intros f h3 H3 Hnf3. apply wp_bind, wp_gets.
  rewrite (ha_files _ _ _ _ H3), lookup_insert_eq. cbn [default from_option id].
  destruct f as [m|]; apply wp_bind; (eapply wp_set_file; [exact H3|]); intros h4 H4; [apply wp_ret; intros Hfi; by specialize (Hnf3 Hfi)|].
  apply wp_ok, wp_ok. eapply HP. split; [rewrite insert_insert_eq in H4; exact H4|]. unfold write_at.
  rewrite wrap_small by done. rewrite length_splice; rewrite ?length_app, ?length_replicate; cbn [length]; unfold SECTOR; lia.
Qed.

Lemma wp_write_each F image n E buf lbas P : length buf = SECTOR -> Forall (fun lba => 0 <= lba < Z.of_nat n) lbas ->
  forall file h, opened F image n E file h ->
  (forall file' h', opened F image n E file' h' -> same_except (fun k => k ∈ lbas) (sector_of file) (sector_of file') -> P () h') ->
  wp (write_each (mkVolume image (Z.of_nat n)) lbas buf) (outcome fine P) h.
Proof.
  intros Hb Hl. induction Hl as [|lba lbas Hlba _ IH]; intros file h Hop HP; cbn [write_each].
  - apply wp_ok. eapply HP; [exact Hop|]. by intros k _.
  - apply wp_then. eapply (wp_write_lba F image n E file h lba buf 1); [exact Hop|unfold SECTOR in *; lia|lia|lia|].
    intros file1 h1 Hop1 Hs1 _. apply (IH file1 h1 Hop1). intros file2 h2 Hop2 Hs2. apply (HP file2 h2 Hop2).
    intros k Hk. rewrite not_elem_of_cons in Hk. rewrite Hs2 by tauto. apply Hs1. unfold within. lia.
Qed.

(** ** Formatting *)

(** The tool's default texts are the ones compiled into the service. *)
Example factory_in_sync : FACTORY_PAYLOAD = Storaged.FACTORY_PAYLOAD /\ FACTORY_CONFIG = Storaged.FACTORY_CONFIG.
Proof. split; reflexivity. Qed.

Lemma sealed_factory_header x gen payload sig : fits 64 gen -> Z.of_nat (length payload) <= PAYLOAD_CAP -> length sig = 64%nat ->
  exists hdr, write_slot_header (replicate SECTOR 0) x SLOT_STATE_VALID gen payload sig = Some hdr /\ length hdr = SECTOR /\
    forall key ct, let hdr' := splice HDR_MAC_OFF (slot_mac key hdr ct) hdr in
      length hdr' = SECTOR /\ slot_mac_ok key hdr' ct = true /\
      parse_slot_header hdr' = Some {| sh_slot := x; sh_state := SLOT_STATE_VALID; sh_generation := gen;
        sh_payload_len := Z.of_nat (length payload); sh_payload_sha := Sha256.sha256 payload; sh_signature := sig |}.
Proof.
  intros Hg Hp Hs. destruct (slot_header_spec (replicate SECTOR 0) x SLOT_STATE_VALID gen payload sig) as (hdr & Eh & Hl & Hparse);
    [apply length_replicate|by vm_compute|done..|]. exists hdr. split; [exact Eh|]. split; [exact Hl|]. intros key ct. cbv zeta.
  assert (Hm : length (slot_mac key hdr ct) = 32%nat) by apply length_slot_mac.
  assert (Hb : (HDR_MAC_OFF + length (slot_mac key hdr ct) <= length hdr)%nat) by (rewrite Hm, Hl; unfold HDR_MAC_OFF, SECTOR; lia).
  assert (Ht : take HDR_MAC_OFF (splice HDR_MAC_OFF (slot_mac key hdr ct) hdr) = take HDR_MAC_OFF hdr).
  { unfold splice. rewrite take_app_length'; [done|]. rewrite length_take. lia. }
  split; [by rewrite length_splice|]. split.
  - pose proof (slice_splice_same HDR_MAC_OFF _ hdr Hb) as Es. rewrite Hm in Es. unfold slot_mac_ok. rewrite Es. apply constant_time_eq_true.
    apply (f_equal (fun p => default [] (Hmac.finalize (Hmac.update (Hmac.update (Hmac.new key) p) ct)))). exact Ht.
  - rewrite <- Hparse. apply parse_slot_header_prefix; [by rewrite length_splice|exact Ht].
Qed.

Lemma wp_write_slot F image n E file h x gen payload sig key P : opened F image n E file h -> 2036 <= Z.of_nat n -> fits 64 gen ->
  0 < Z.of_nat (length payload) <= PAYLOAD_CAP -> length sig = 64%nat ->
  (forall file' h', opened F image n E file' h' -> same_except (slot_region x) (sector_of file) (sector_of file') ->
     (forall D pk, (forall k, slot_region x k -> D k = sector_of file' k) -> Ed25519.verify pk payload sig = Some (Ok tt) ->
        slot_holds D key pk x payload gen) -> P () h') ->
  wp (write_slot (mkVolume image (Z.of_nat n)) x gen payload sig key) (outcome fine P) h.
Proof.
  intros Hop Hn Hg Hp Hs HP. unfold write_slot. destruct (sealed_factory_header x gen payload sig Hg (proj2 Hp) Hs) as (hdr & Eh & Hhl & Hhdr).
  eapply wp_expect_outcome; [exact Eh|]. cbv zeta. set (ct := ChaCha20.xor_stream _ _ _ _). destruct (Hhdr key ct) as (Hl & Hmac & Hparse). cbv zeta in *.
  set (hdr' := splice HDR_MAC_OFF _ hdr) in *. set (region := splice 0 ct _).
  assert (Hct : length ct = length payload) by apply ChaCha20.length_xor_stream. set (t := Z.to_nat 1000).
  assert (Hr : length region = (t * SECTOR)%nat).
  { assert (Hcap : Z.of_nat (Z.to_nat PAYLOAD_CAP) = 512000) by (apply Z2Nat.id; done). assert (Ht : Z.of_nat t = 1000) by (apply Z2Nat.id; done).
    unfold region. rewrite length_splice; rewrite length_replicate; unfold SECTOR; [lia|]. change PAYLOAD_CAP with 512000 in Hp |- *. lia. }
  assert (Hx : hdr_lba x = 2 /\ payload_lba x = 4 \/ hdr_lba x = 1034 /\ payload_lba x = 1036) by (destruct x; [by left|by right]).
  apply wp_then. eapply (wp_write_lba F image n E file h (hdr_lba x) hdr' 1); [exact Hop|unfold SECTOR in *; lia|lia|lia|].
  intros f1 h1 Hop1 Hs1 Hw1. eapply (wp_write_lba F image n E f1 h1 (payload_lba x) region t); [exact Hop1|exact Hr|lia|unfold t; lia|].
  intros f2 h2 Hop2 Hs2 Hw2. assert (Hreg : forall k, slot_region x k <-> hdr_lba x <= k < hdr_lba x + 1002).
  { intros k. unfold slot_region, within. change Storaged.SLOT_PAYLOAD_SECTORS with 1000. lia. }
  apply (HP f2 h2 Hop2).
  - intros k Hk. rewrite Hreg in Hk. rewrite Hs2, Hs1; [done|..]; unfold within, t; lia.
  - intros D pk HD Hver. assert (Eh' : D (hdr_lba x) = hdr').
    { rewrite HD by (apply Hreg; lia). rewrite Hs2, Hw1 by (unfold within, t; lia). rewrite Z.sub_diag. unfold slice. rewrite drop_0. apply take_ge. lia. }
    assert (Er : disk_read D (payload_lba x) (Z.of_nat t) = region).
    { apply (disk_read_chunks D (payload_lba x) t region Hr). intros i Hi. rewrite HD by (apply Hreg; unfold t in Hi; lia).
      rewrite Hw2 by (unfold within; lia). do 2 f_equal. lia. }
    assert (Ec : slot_ct D x (length payload) = ct).
    { unfold slot_ct. change Storaged.SLOT_PAYLOAD_SECTORS with (Z.of_nat t). rewrite Er. unfold region, splice. rewrite take_0. cbn [app]. by rewrite take_app_length'. }
    eexists. rewrite Eh'. split; [exact Hparse|]. cbn [sh_state sh_generation sh_payload_len sh_payload_sha sh_signature].
    rewrite Nat2Z.id. do 2 (split; [done|]). cbv zeta. rewrite Ec. split; [lia|]. split; [lia|]. split; [exact Hmac|].
    assert (Ex : payload = ChaCha20.xor_stream key 0 (seal_nonce gen) ct) by (symmetry; apply ChaCha20.xor_stream_twice).
    rewrite <- Ex. split; [done|]. split; [done|exact Hver].
Qed.

(** What mkvol leaves on a new volume. *)
Record factory_volume (key pk : list Z) (file : list Z) : Prop := {
  fv_superblock : write_superblock zeros (Some A) 1 0 key = Some (sector_of file SUPERBLOCK_LBA);
  fv_config : parse_config (sector_of file CONFIG_LBA) = Some (config_mac key (sector_of file CONFIG_LBA), 0, FACTORY_CONFIG);
  fv_slot D : (forall k, slot_region A k -> D k = sector_of file k) -> slot_holds D key pk A FACTORY_PAYLOAD 1;
}.

Lemma wp_open_or_create F E h image mb P : host_at fine F E h -> F !! image = None -> 1 <= mb < 2 ^ 40 ->
  (forall file h', opened F image (Z.to_nat (mb * 2048)) E file h' -> P (mkVolume image (Z.of_nat (Z.to_nat (mb * 2048)))) h') ->
  wp (open_or_create image mb) (outcome fine P) h.
Proof.
  intros Hh Hn Hmb HP. unfold open_or_create. apply wp_bind, wp_gets. rewrite (ha_files _ _ _ _ Hh), Hn.
  rewrite bool_decide_eq_false_2 by (by intros [x Hx]). rewrite (wrap_small 64 (mb * 1024)), wrap_small by (red; lia).
  replace (mb * 1024 * 1024 / 512) with (Z.of_nat (Z.to_nat (mb * 2048)))
    by (replace (mb * 1024 * 1024) with (mb * 2048 * 512) by lia; rewrite Z.div_mul; lia).
  eapply wp_create; [exact Hh|exact Hn|lia|red; lia|exact HP].
Qed.

Lemma factory_texts : 0 < Z.of_nat (length FACTORY_PAYLOAD) <= PAYLOAD_CAP /\ bytes_ok FACTORY_CONFIG /\ Z.of_nat (length FACTORY_CONFIG) <= CFG_TEXT_MAX.
Proof. split; [by vm_compute|]. split; [|by vm_compute]. unfold FACTORY_CONFIG, Storaged.unlines. cbn [fmap list_fmap concat]. rewrite app_nil_r. apply Forall_app. split; [apply str_ok|by repeat constructor]. Qed.

Lemma wp_mkvol F E args h image seed pk key : host_at fine F (key :: E) h ->
  arg_of args "--image" = Some image -> F !! image = None ->
  F !! (default (str "keys/redoubt-dev") (arg_of args "--key") ++ str ".seed") = Some (key_file seed) ->
  bytes_ok seed -> length seed = 32%nat -> signs seed pk -> bytes_ok key -> length key = 32%nat -> 11 <= volume_size_mb args < 2 ^ 40 ->
  wp (cmd_mkvol args) (outcome fine (fun _ h' => exists file,
    opened F image (Z.to_nat (volume_size_mb args * 2048)) E file h' /\ factory_volume key pk file)) h.
Proof.
  intros Hh Ha Hi Hk Hs1 Hs2 (_ & _ & Hsign) Hk1 Hk2 Hmb. destruct factory_texts as (Hp & Hc1 & Hc2).
  unfold cmd_mkvol. apply wp_then. eapply wp_need; [exact Ha|]. cbv zeta.
  apply wp_then. eapply (wp_open_or_create _ _ _ _ (volume_size_mb args)); [exact Hh|exact Hi|lia|]. set (n := Z.to_nat (volume_size_mb args * 2048)).
  assert (Hn : 20736 <= Z.of_nat n) by (unfold n; lia). clearbody n. intros f0 h0 [Hat0 Hl0]. cbv beta.
  apply wp_then. eapply wp_load_key; [exact Hat0| |exact Hs1|exact Hs2|].
  { rewrite lookup_insert_ne; [exact Hk|]. intros Ei. rewrite Ei in Hi. congruence. }
  intros h1 H1. apply wp_then. eapply wp_entropy; [exact H1|]. intros h2 H2.
  assert (Hop : opened F image n E f0 h2) by by split. destruct (Hsign FACTORY_PAYLOAD) as (sig & Es & _ & Hsl & Hver).
  eapply wp_expect_outcome; [exact Es|]. cbv zeta.
  assert (F0 : fits 64 0) by (red; lia). assert (F1 : fits 64 1) by (red; lia).
  destruct (superblock_sector key A 1 0 Hk2 Hk1 F1 F0) as (sb & Esb & [Hsb _] & _).
  eapply wp_expect_outcome; [exact Esb|]. apply wp_then.
  eapply (wp_write_lba F image n E f0 h2 SUPERBLOCK_LBA sb 1); [exact Hop|unfold SECTOR in *; lia|done|unfold SUPERBLOCK_LBA; lia|].
  intros f3 h3 Hop3 Hx3 Hw3. destruct (config_sector key 0 FACTORY_CONFIG Hk2 F0 Hc1 Hc2) as (cfg & Ecfg & [Hcfg _] & Hpc).
  eapply wp_expect_outcome; [exact Ecfg|]. apply wp_then.
  eapply (wp_write_lba F image n E f3 h3 CONFIG_LBA cfg 1); [exact Hop3|unfold SECTOR in *; lia|done|unfold CONFIG_LBA; lia|].
  intros f4 h4 Hop4 Hx4 Hw4. apply wp_then.
  eapply (wp_write_slot F image n E f4 h4 A 1 FACTORY_PAYLOAD sig key); [exact Hop4|lia|exact F1|exact Hp|exact Hsl|].
  intros f5 h5 Hop5 Hx5 Hheld. apply wp_then. assert (Hz : length (replicate SECTOR 0) = SECTOR) by apply length_replicate.
  eapply wp_write_each; [exact Hz|apply Forall_forall; intros k Hin%elem_of_seqZ; unfold STAGING_LBA, STAGING_SECTORS in Hin; lia|exact Hop5|].
  intros f6 h6 Hop6 Hx6. eapply wp_write_each; [exact Hz|apply Forall_forall; intros k Hin%elem_of_seqZ; unfold AUDIT_START_LBA in Hin; lia|exact Hop6|].
  intros f7 h7 Hop7 Hx7. exists f7. split; [exact Hop7|].
  assert (Hlow : forall k, k < 1034 -> sector_of f7 k = sector_of f5 k).
  { intros k Hlt. rewrite Hx7, Hx6; [done|..]; rewrite elem_of_seqZ; unfold STAGING_LBA, AUDIT_START_LBA; lia. }
  assert (Hfull : forall s : list Z, length s = SECTOR -> slice 0 SECTOR s = s).
  { intros s' Hl. unfold slice. rewrite drop_0. apply take_ge. lia. }
  assert (Hout : forall k, k < 2 -> ~ slot_region A k) by (intros k Hlt [Hge _]; cbn in Hge; unfold SLOT_A_HDR_LBA in Hge; lia).
  assert (E0 : sector_of f7 SUPERBLOCK_LBA = sb).
  { rewrite Hlow, Hx5, Hx4, Hw3 by (first [apply Hout|unfold within]; unfold SUPERBLOCK_LBA, CONFIG_LBA; lia). by apply Hfull. }
  assert (E1 : sector_of f7 CONFIG_LBA = cfg).
  { rewrite Hlow, Hx5, Hw4 by (first [apply Hout|unfold within]; unfold CONFIG_LBA; lia). by apply Hfull. }
  split; [by rewrite E0|by rewrite E1|]. intros D HD. apply Hheld; [|exact Hver]. intros k Hreg. rewrite HD by done. apply Hlow.
  destruct Hreg as [_ Hlt]. change Storaged.SLOT_PAYLOAD_SECTORS with 1000 in Hlt. cbn in Hlt. unfold SLOT_A_HDR_LBA, SLOT_A_PAYLOAD_LBA in Hlt. lia.
Qed.

(** ** Packages *)

Lemma parse_digits_fits l : forall acc v, fits 64 acc -> parse_digits acc l = Some v -> fits 64 v.
Proof.
  induction l as [|d l IH]; cbn [parse_digits]; intros acc v Ha; [by intros [= <-]|]. destruct (is_ascii_digit d) eqn:Ed; [|done].
  destruct (Z.ltb_spec (10 * acc + (d - 48)) (2 ^ 64)); [|done]. apply IH. unfold is_ascii_digit, in_range in Ed. bool_facts. red in Ha |- *. lia.
Qed.

Lemma parse_u64_fits l v : parse_u64 l = Some v -> fits 64 v.
Proof. assert (fits 64 0) by (red; lia). unfold parse_u64. destruct l as [|d [|c l]]; [done|..]; case_match; try done; by apply parse_digits_fits. Qed.

(** Whole sectors. *)
Definition sectors_for (n : nat) : nat := ((n + SECTOR - 1) / SECTOR)%nat.

Lemma sectors_for_bounds n : (n <= sectors_for n * SECTOR < n + SECTOR)%nat.
Proof.
  unfold sectors_for, SECTOR. pose proof (Nat.div_mod (n + 512 - 1) 512 ltac:(lia)). pose proof (Nat.mod_upper_bound (n + 512 - 1) 512 ltac:(lia)). lia.
Qed.

Lemma pad_sector_spec fuel total : forall pkg, (total <= length pkg)%nat -> (sectors_for (length pkg) * SECTOR - length pkg < fuel)%nat ->
  pad_sector fuel pkg total = Some (pkg ++ replicate (sectors_for (length pkg) * SECTOR - length pkg) 0).
Proof.
  induction fuel as [|fuel IH]; intros pkg Ht Hf; [lia|]. cbn [pad_sector]. rewrite (proj2 (Nat.ltb_ge _ _) Ht), orb_false_r.
  pose proof (sectors_for_bounds (length pkg)) as Hb. destruct (Nat.eqb_spec (length pkg mod SECTOR) 0) as [E|E]; cbn [negb].
  - replace (sectors_for (length pkg) * SECTOR - length pkg)%nat with 0%nat; [by rewrite app_nil_r|].
    apply Nat.Div0.mod_divides in E as [q Eq]. unfold SECTOR in *. nia.
  - assert (Es : sectors_for (length (pkg ++ [0])) = sectors_for (length pkg)).
    { pose proof (sectors_for_bounds (length (pkg ++ [0]))) as Hb'. rewrite length_app in *. cbn [length] in *.
      assert (length pkg <> sectors_for (length pkg) * SECTOR)%nat by (intros Eq; apply E; rewrite Eq; apply Nat.Div0.mod_mul). unfold SECTOR in *. nia. }
    assert (Hlt : (length pkg < sectors_for (length pkg) * SECTOR)%nat).
    { destruct (Nat.eq_dec (length pkg) (sectors_for (length pkg) * SECTOR)%nat) as [Eq|]; [|lia]. exfalso. apply E. rewrite Eq. apply Nat.Div0.mod_mul. }
    rewrite IH; rewrite ?Es; rewrite length_app; cbn [length]; [|lia..]. rewrite <- app_assoc. do 2 f_equal.
    replace (sectors_for (length pkg) * SECTOR - length pkg)%nat with (S (sectors_for (length pkg) * SECTOR - (length pkg + 1))%nat) by lia. done.
Qed.

(** Parsing reads no further than the package. *)
Lemma parse_stage_prefix m pkg buf r : take m buf = take m pkg -> length pkg = m -> (m <= length buf)%nat ->
  parse_stage_package pkg = Some r -> parse_stage_package buf = Some r.
Proof.
  intros E Hl Hb. unfold parse_stage_package, le_field. destruct (Nat.ltb_spec (length pkg) PKG_IMAGE_OFF) as [|Hm]; [done|]. cbn [orb].
  rewrite (proj2 (Nat.ltb_ge (length buf) _)) by lia. offsets.
  rewrite (slice_prefix m 0 7 buf pkg), (byte_prefix m 7 buf pkg), (slice_prefix m 16 8 buf pkg), (slice_prefix m 56 64 buf pkg) by (exact E || lia). cbn [orb].
  destruct (_ || _); [done|]. cbv zeta. set (len := from_le_bytes _). destruct ((len =? 0) || _) eqn:E0; [done|]. cbn [orb].
  destruct (Z.ltb_spec (Z.of_nat (length pkg)) (Z.of_nat 128 + len)); [done|]. rewrite (proj2 (Z.ltb_ge _ _)) by lia.
  rewrite (slice_prefix m 128 (Z.to_nat len) buf pkg) by (exact E || lia). done.
Qed.

Lemma puts_length fs : forall l l', puts fs l = Some l' -> length l' = length l.
Proof.
  induction fs as [|[o v] fs IH]; cbn [puts]; intros l l'; [by intros [= <-]|]. destruct (Nat.leb_spec (o + length v) (length l)); [|done].
  intros E%IH. by rewrite E, length_splice.
Qed.

(** Beyond the ciphertext a sealed image is zeros. *)
Lemma sealed_image_tail img gen payload sig key img' n : Z.of_nat (length payload) <= PAYLOAD_CAP -> length sig = 64%nat ->
  build_slot_image img gen payload sig key = Some (img', n) -> drop n img' = replicate (length img' - n) 0.
Proof.
  intros Hp Hs. unfold build_slot_image. destruct (Z.ltb_spec (Z.of_nat (length img)) SLOT_IMAGE_MAX) as [|Hl]; [done|].
  unfold SLOT_IMAGE_MAX, PAYLOAD_CAP in *. change (1000 * 512 / 512) with 1000 in Hl.
  destruct (write_slot_header _ _ _ _ _ _) as [hdr|] eqn:Eh; [|done].
  assert (Hh : length hdr = SECTOR).
  { unfold write_slot_header in Eh. destruct (_ <? _); [done|]. apply puts_length in Eh. rewrite Eh, length_zeroed, length_take, length_zeroed. offsets. lia. }
  rewrite !(take_app_length' hdr), drop_app_length' by done. set (ct := xor_in_place key (seal_nonce gen) payload). set (mac := slot_mac key hdr ct).
  assert (Hct : length ct = length payload) by apply ChaCha20.length_xor_stream. assert (Hmac : length mac = 32%nat) by apply length_slot_mac.
  set (rest := zeroed _). assert (Hr : rest = replicate (length rest) 0) by (unfold rest, zeroed; by rewrite length_replicate).
  assert (Hrl : length rest = (length img - SECTOR)%nat) by (unfold rest; rewrite !length_zeroed, length_drop, length_zeroed; done).
  set (fs := [_; _]). assert (Hf : Forall (in_bounds (length (hdr ++ rest))) fs) by (rewrite length_app, Hh, Hrl; layout).
  rewrite puts_written by done. intros Eq. apply (inj Some), pair_equal_spec in Eq as [<- <-]. rewrite length_written by done.
  assert (Ht : forall l : list Z, drop (2 * SECTOR + length ct) l = slice (2 * SECTOR + length ct) (length l - (2 * SECTOR + length ct)) l).
  { intros l. unfold slice. symmetry. apply take_ge. rewrite length_drop. lia. }
  rewrite Ht, length_written, written_apart by (done || layout). rewrite <- Ht, length_app, Hr, length_replicate.
  rewrite drop_app_ge, drop_replicate by (rewrite Hh; offsets; lia). f_equal. rewrite Hh. offsets. lia.
Qed.

Lemma update_package_spec seed pk payload key gen h : signs seed pk -> fits 64 gen -> Z.of_nat (length payload) <= PAYLOAD_CAP ->
  exists sig img isig pkg, let n := (1024 + length payload)%nat in let image := take n img in let total := (PKG_IMAGE_OFF + n)%nat in
    update_package seed payload key gen false h = Some ((pkg, total), h) /\
    Ed25519.verify pk payload sig = Some (Ok tt) /\ length sig = 64%nat /\
    build_slot_image (replicate (Z.to_nat SLOT_IMAGE_MAX) 0) gen payload sig key = Some (img, n) /\ img = image ++ replicate (length img - n) 0 /\
    length image = n /\ Z.of_nat (length img) = SLOT_IMAGE_MAX /\ Ed25519.verify pk image isig = Some (Ok tt) /\
    length pkg = (sectors_for total * SECTOR)%nat /\
    (forall buf, (length pkg <= length buf)%nat -> take (length pkg) buf = pkg -> parse_stage_package buf = Some (image, isig)).
Proof.
  intros (_ & _ & Hsign) Hg Hp. destruct (Hsign payload) as (sig & Es & _ & Hsl & Hver).
  assert (Hz : Z.of_nat (length (replicate (Z.to_nat SLOT_IMAGE_MAX) 0)) = SLOT_IMAGE_MAX) by (rewrite length_replicate; by apply Z2Nat.id).
  destruct (sealed_image_spec (replicate (Z.to_nat SLOT_IMAGE_MAX) 0) gen payload sig key) as (img & Eb & Hl & _); [lia|exact Hg|exact Hp|exact Hsl|].
  set (n := (1024 + length payload)%nat) in *. rewrite <- Hl in Hz. clear Hl.
  assert (Hn : (n <= length img)%nat) by (unfold n; change SLOT_IMAGE_MAX with 513024 in Hz; change PAYLOAD_CAP with 512000 in Hp; lia).
  assert (Hli : length (take n img) = n) by (rewrite length_take; lia).
  pose proof (sealed_image_tail _ _ _ _ _ _ _ Hp Hsl Eb) as Htail. destruct (Hsign (take n img)) as (isig & Ei & _ & Hisl & Hiver).
  destruct (stage_package_spec (replicate (PKG_IMAGE_OFF + n) 0) (take n img) isig) as (out & Eo & Hlo & Hparse);
    [rewrite length_replicate, Hli; lia|rewrite Hli, <- Hz; assert (0 < n)%nat by (unfold n; lia); clear - Hn H; lia|exact Hisl|].
  rewrite length_replicate in Hlo. rewrite Hli in Eo. set (total := (PKG_IMAGE_OFF + n)%nat) in *. pose proof (sectors_for_bounds total) as Hb.
  exists sig, img, isig, (out ++ replicate (sectors_for total * SECTOR - total) 0). cbv zeta. fold n. fold total. split; [|split; [exact Hver|split; [exact Hsl|split; [exact Eb|]]]].
  { unfold update_package. unfold mbind at 1, prog_bind, expect at 1. rewrite Es. unfold mbind at 1, prog_bind, expect at 1. rewrite Eb. cbv zeta.
    unfold mbind at 1, prog_bind, expect at 1. rewrite Ei. unfold mbind at 1, prog_bind, expect at 1. rewrite Hli. fold total. rewrite Eo.
    unfold mbind at 1, prog_bind, mret at 1, prog_ret. unfold mbind at 1, prog_bind, expect. rewrite pad_sector_spec by (rewrite ?Hlo; lia). by rewrite Hlo. }
  split; [by rewrite <- Htail, take_drop|]. split; [exact Hli|]. split; [exact Hz|]. split; [exact Hiver|]. split; [rewrite length_app, length_replicate, Hlo; lia|].
  intros buf Hbl E. apply (parse_stage_prefix total out); [|exact Hlo| |exact Hparse].
  - rewrite (take_ge out) by lia. apply (f_equal (take total)) in E. rewrite take_take, Nat.min_l in E by (rewrite length_app; lia).
    rewrite E. by apply take_app_length'.
  - rewrite length_app in Hbl. lia.
Qed.

Lemma slice_zeros (l : list Z) a b o m : (o + m <= length l + a)%nat -> (o + m <= length l + b)%nat ->
  slice o m (l ++ replicate a 0) = slice o m (l ++ replicate b 0).
Proof.
  intros Ha Hb. apply list_eq. intros i. destruct (decide (i < m)%nat) as [Hi|Hi].
  - rewrite !lookup_slice by lia. destruct (decide (o + i < length l)%nat).
    + by rewrite !lookup_app_l by lia.
    + rewrite !lookup_app_r, !lookup_replicate_2 by lia. done.
  - unfold slice. rewrite !lookup_ge_None_2; [done|..]; rewrite length_take; lia.
Qed.

(** A whole-sector buffer written to the staging area is what a reader of the
    area finds first. *)
Lemma staged_prefix (S : Z -> list Z) file c pkg N : length pkg = (c * SECTOR)%nat -> (forall k, sector_ok (S k)) -> Z.of_nat c <= N ->
  (forall k, within STAGING_LBA (Z.of_nat c) k -> sector_of file k = slice (Z.to_nat (k - STAGING_LBA) * SECTOR) SECTOR pkg) ->
  forall lba, (forall k, 0 <= k < N -> S (lba + k) = sector_of file (STAGING_LBA + k)) ->
  take (length pkg) (disk_read S lba N) = pkg.
Proof.
  intros Hl HS Hc Hw lba Hsec. rewrite (take_disk_read_le S lba (Z.of_nat c) N) by (done || lia). rewrite (disk_read_chunks S lba c pkg Hl).
  - by apply take_ge.
  - intros i Hi. rewrite Hsec by lia. rewrite Hw by (unfold within; lia). do 2 f_equal. lia.
Qed.

Lemma wp_updpack F E args h image n file payload_path gen_text gen payload seed pk :
  host_at fine F E h -> arg_of args "--image" = Some image -> arg_of args "--payload" = Some payload_path ->
  arg_of args "--gen" = Some gen_text -> parse_u64 gen_text = Some gen -> flag_present args "--corrupt" = false ->
  F !! (default (str "keys/dev/redoubt") (arg_of args "--key") ++ str ".seed") = Some (key_file seed) ->
  bytes_ok seed -> length seed = 32%nat -> signs seed pk ->
  F !! image = Some file -> length file = (n * SECTOR)%nat -> 20736 <= Z.of_nat n ->
  is_Some (parse_superblock (sector_of file 0)) -> superblock_valid (slice SB_KEY_OFF 32 (sector_of file 0)) (sector_of file 0) = true ->
  F !! payload_path = Some payload -> Z.of_nat (PKG_IMAGE_OFF + (1024 + length payload)) <= STAGING_SECTORS * 512 ->
  wp (cmd_updpack args) (outcome fine (fun _ h' => exists file' sig img isig pkg c,
    opened F image n E file' h' /\ same_except (within STAGING_LBA STAGING_SECTORS) (sector_of file) (sector_of file') /\
    let len := (1024 + length payload)%nat in let key := slice SB_KEY_OFF 32 (sector_of file 0) in
    Ed25519.verify pk payload sig = Some (Ok tt) /\ length sig = 64%nat /\
    build_slot_image (replicate (Z.to_nat SLOT_IMAGE_MAX) 0) gen payload sig key = Some (img, len) /\
    img = take len img ++ replicate (length img - len) 0 /\ length (take len img) = len /\ Z.of_nat (length img) = SLOT_IMAGE_MAX /\
    Ed25519.verify pk (take len img) isig = Some (Ok tt) /\ length pkg = (c * SECTOR)%nat /\ Z.of_nat c <= STAGING_SECTORS /\
    (forall buf, (length pkg <= length buf)%nat -> take (length pkg) buf = pkg -> parse_stage_package buf = Some (take len img, isig)) /\
    (forall k, within STAGING_LBA (Z.of_nat c) k -> sector_of file' k = slice (Z.to_nat (k - STAGING_LBA) * SECTOR) SECTOR pkg))) h.
Proof.
  intros Hh A1 A2 A3 Hgen A4 Hk Hs1 Hs2 Hsign Hf Hl Hn [sbp Hsb] Hmac Hp Hsize.
  assert (Hcap : Z.of_nat (length payload) <= PAYLOAD_CAP) by (change PAYLOAD_CAP with 512000; unfold STAGING_SECTORS in Hsize; lia).
  unfold cmd_updpack. apply wp_then; eapply wp_need; [exact A1|]. apply wp_then; eapply wp_need; [exact A2|]. apply wp_then; eapply wp_need; [exact A3|].
  apply wp_then; eapply wp_need; [exact Hgen|]. cbv zeta. rewrite A4. apply wp_then. eapply wp_load_key; [exact Hh|exact Hk|exact Hs1|exact Hs2|].
  intros h1 H1. apply wp_then. eapply wp_open; [exact H1|exact Hf|exact Hl|]. intros h2 H2. apply wp_then. eapply wp_read_lba; [exact H2|lia|].
  intros h3 H3. apply wp_then. eapply wp_need; [exact Hsb|]. rewrite Hmac. cbn [negb]. apply wp_then.
  assert (Hpay : <[image := file]> F !! payload_path = Some payload) by by rewrite insert_id.
  destruct H3 as [Hat3 Hl3]. eapply wp_read_file; [exact Hat3|exact Hpay|]. intros h4 H4. rewrite (proj2 (Z.ltb_ge _ _)) by exact Hcap.
  destruct (update_package_spec seed pk payload (slice SB_KEY_OFF 32 (sector_of file 0)) gen h4 Hsign (parse_u64_fits _ _ Hgen) Hcap)
    as (sig & img & isig & pkg & E0 & Hrest). cbv zeta in E0, Hrest. destruct Hrest as (Q1 & Q2 & Q3 & Q4 & Q5 & Q6 & Q7 & Q8 & Q9).
  apply wp_bind. unfold wp at 1. rewrite E0. cbv iota beta. unfold SECTOR in Hsize. rewrite (proj2 (Z.ltb_ge _ _)) by exact Hsize.
  set (c := sectors_for (PKG_IMAGE_OFF + (1024 + length payload))) in *.
  assert (Hc : Z.of_nat c <= STAGING_SECTORS).
  { pose proof (sectors_for_bounds (PKG_IMAGE_OFF + (1024 + length payload))) as Hb. fold c in Hb. unfold STAGING_SECTORS, SECTOR in *. lia. }
  eapply (wp_write_lba F image n E file h4 STAGING_LBA pkg c); [by split|exact Q8|done|unfold STAGING_LBA, STAGING_SECTORS in *; lia|].
  intros file' h5 H5 Hsame Hw. exists file', sig, img, isig, pkg, c. split; [exact H5|].
  split; [intros k Hnk; apply Hsame; unfold within in *; lia|]. cbv zeta. do 9 (split; [assumption|]). by split.
Qed.

(** The installer finds a package that begins the staging area. *)
Lemma staged_from_package D out p : (forall k, sector_ok (D k)) -> parse_app_stage_package out = Some p ->
  length out = (APP_PKG_HEADER + length (ap_payload p))%nat -> take (length out) (disk_read D STAGING_LBA STAGING_SECTORS) = out -> StorageInstall.staged D = Some p.
Proof.
  intros HD Hp Hl Ht. assert (Hd : disk_read D STAGING_LBA STAGING_SECTORS = D STAGING_LBA ++ disk_read D (STAGING_LBA + 1) (STAGING_SECTORS - 1)).
  { pose proof (disk_read_app D STAGING_LBA 1 (STAGING_SECTORS - 1)) as E. rewrite disk_read_1 in E. apply E; done. }
  assert (Hpre : take 192 (D STAGING_LBA) = take 192 out).
  { rewrite Hd in Ht. apply (f_equal (take 192)) in Ht. rewrite take_take, Nat.min_l in Ht by (offsets; lia). rewrite <- Ht.
    symmetry. apply take_app_le. rewrite (proj1 (HD _)). unfold SECTOR. lia. }
  pose proof Hp as Hp'. unfold parse_app_stage_package, le_field in Hp'. destruct (Nat.ltb_spec (length out) APP_PKG_HEADER) as [|Hm]; [done|]. cbn [orb] in Hp'.
  destruct (negb _ || negb _) eqn:E1; [done|]. cbv zeta in Hp'. set (len := from_le_bytes (slice 12 4 out)) in *.
  destruct (_ || _) eqn:E2 in Hp'; [done|]. destruct (Z.ltb_spec (Z.of_nat (length out)) (Z.of_nat APP_PKG_HEADER + len)) as [|Hlen]; [done|].
  assert (Hpl : length (ap_payload p) = Z.to_nat len).
  { apply (inj Some) in Hp'. subst p. cbn [ap_payload]. apply length_slice. offsets. lia. }
  unfold StorageInstall.staged, stage_bytes, le_field.
  rewrite (slice_prefix 192 0 8 (D STAGING_LBA) out), (byte_prefix 192 8 (D STAGING_LBA) out), (slice_prefix 192 12 4 (D STAGING_LBA) out) by (exact Hpre || lia).
  rewrite E1. cbv zeta. fold len. apply orb_false_iff in E2 as [E2 E3]. apply orb_false_iff in E2 as [E2 E4]. apply orb_false_iff in E2 as [_ E2].
  rewrite E4, E3. cbn [orb mbind option_bind]. rewrite <- Hpl, <- Hl, Ht. exact Hp.
Qed.

Lemma wp_apppack F E args h image n file elf_path name version_text version payload seed pk :
  host_at fine F E h -> arg_of args "--image" = Some image -> arg_of args "--elf" = Some elf_path -> arg_of args "--name" = Some name ->
  arg_of args "--version" = Some version_text -> parse_u64 version_text = Some version -> flag_present args "--corrupt" = false ->
  F !! (default (str "keys/dev/redoubt") (arg_of args "--key") ++ str ".seed") = Some (key_file seed) ->
  bytes_ok seed -> length seed = 32%nat -> signs seed pk -> valid_app_name name = true ->
  F !! elf_path = Some payload -> (0 < length payload)%nat -> Z.of_nat (length payload) <= APP_STAGE_CAP ->
  F !! image = Some file -> length file = (n * SECTOR)%nat -> 20736 <= Z.of_nat n -> is_Some (parse_superblock (sector_of file 0)) ->
  wp (cmd_apppack args) (outcome fine (fun _ h' => exists file' p sig,
    opened F image n E file' h' /\ same_except (within STAGING_LBA STAGING_SECTORS) (sector_of file) (sector_of file') /\
    take (ap_name_len p) (ap_name p) = name /\ ap_payload p = payload /\ ap_version p = version /\ ap_payload_sha p = Sha256.sha256 payload /\
    ap_signature p = sig /\ Ed25519.verify pk (app_signing_message name version (Z.of_nat (length payload)) (Sha256.sha256 payload)) sig = Some (Ok tt) /\
    (forall D, (forall k, sector_ok (D k)) -> (forall k, within STAGING_LBA STAGING_SECTORS k -> D k = sector_of file' k) ->
       StorageInstall.staged D = Some p))) h.
Proof.
  intros Hh A1 A2 A3 A4 Hver A5 Hk Hs1 Hs2 (_ & _ & Hsign) Hname Hp Hp0 Hpc Hf Hl Hn [sbp Hsb].
  pose proof Hname as Hnm. unfold valid_app_name in Hnm. apply andb_true_iff in Hnm as [Hnm _]. apply andb_true_iff in Hnm as [Hn1 Hn2].
  apply negb_true_iff, Nat.eqb_neq in Hn1. apply Nat.leb_le in Hn2.
  unfold cmd_apppack. apply wp_then; eapply wp_need; [exact A1|]. apply wp_then; eapply wp_need; [exact A2|]. apply wp_then; eapply wp_need; [exact A3|].
  apply wp_then; eapply wp_need; [exact A4|]. apply wp_then; eapply wp_need; [exact Hver|]. cbv zeta. rewrite A5, Hname. cbn [negb].
  apply wp_then. eapply wp_read_file; [exact Hh|exact Hp|]. intros h1 H1. rewrite (proj2 (Nat.eqb_neq _ _)), (proj2 (Z.ltb_ge _ _)) by lia. cbn [orb].
  apply wp_then. eapply wp_load_key; [exact H1|exact Hk|exact Hs1|exact Hs2|]. intros h2 H2.
  destruct (Hsign (app_signing_message name version (Z.of_nat (length payload)) (Sha256.sha256 payload))) as (sig & Es & _ & Hsl & Hv).
  eapply wp_expect_outcome; [exact Es|].
  destruct (app_package_spec (replicate (APP_PKG_HEADER + length payload) 0) name version payload sig) as (out & p & Eo & Hparse & P1 & P2 & P3 & P4 & P5);
    [by rewrite length_replicate|lia|by eapply parse_u64_fits|lia|exact Hsl|].
  eapply wp_expect_outcome; [exact Eo|]. apply wp_then. eapply wp_need; [reflexivity|]. cbv iota beta. apply wp_bind, wp_ret.
  set (total := (APP_PKG_HEADER + length payload)%nat) in *. fold (sectors_for total). pose proof (sectors_for_bounds total) as Hb. set (c := sectors_for total) in *.
  assert (Hlo : length out = total).
  { unfold write_app_stage_package in Eo. destruct (_ || _); [by apply (inj Some) in Eo|]. destruct (puts _ _) as [x|] eqn:Ex; [|done].
    do 2 apply (inj Some) in Eo. apply pair_equal_spec in Eo as [<- _]. apply puts_length in Ex. by rewrite Ex, length_zeroed, length_replicate. }
  assert (Hc : Z.of_nat c <= STAGING_SECTORS).
  { change APP_STAGE_CAP with 130880 in Hpc. unfold total in Hb. unfold APP_PKG_HEADER, STAGING_SECTORS, SECTOR in *. lia. }
  set (pkg := resize _ out). assert (Epkg : pkg = out ++ replicate (c * SECTOR - total) 0) by (unfold pkg, resize; rewrite take_ge by lia; by rewrite Hlo).
  assert (Hpl : length pkg = (c * SECTOR)%nat) by (rewrite Epkg, length_app, length_replicate; lia).
  apply wp_then. eapply wp_open; [exact H2|exact Hf|exact Hl|]. intros h3 H3. apply wp_then. eapply wp_read_lba; [exact H3|unfold SUPERBLOCK_LBA; lia|].
  intros h4 H4. change SUPERBLOCK_LBA with 0. rewrite Hsb.
  eapply (wp_write_lba F image n E file h4 STAGING_LBA pkg c); [exact H4|exact Hpl|done|unfold STAGING_LBA, STAGING_SECTORS in *; lia|].
  intros file' h5 H5 Hsame Hw. exists file', p, sig. split; [exact H5|]. split; [intros k Hnk; apply Hsame; unfold within in *; lia|].
  do 6 (split; [assumption|]). intros D HD HDs. apply (staged_from_package D out p HD Hparse); [by rewrite P2|].
  assert (Et : take (length pkg) (disk_read D STAGING_LBA STAGING_SECTORS) = pkg).
  { apply (staged_prefix D file' c pkg STAGING_SECTORS Hpl HD Hc Hw). intros k Hk'. apply HDs. unfold within. lia. }
  apply (f_equal (take (length out))) in Et. rewrite take_take, Nat.min_l in Et by lia. rewrite Et, Epkg. by apply take_app_length.
Qed.
End host.

(** C29. A key pair on disk: for any 32 bytes of entropy keygen ends without a
    panic, and without an error when no transfer fails; then every command that
    signs loads exactly the seed from the private file, and the programs of the
    device decode the public file to the public key of that seed. *)
Theorem keygen_roundtrip args h out seed rest :
  arg_of args "--out" = Some out -> h_entropy h = seed :: rest -> bytes_ok seed -> length seed = 32%nat ->
  exists r h', cmd_keygen args h = Some (r, h') /\ (h_faults h = [] -> r = Ok ()) /\
    (r = Ok () -> h_faults h' = [] -> load_key out h' = Some (Ok seed, h') /\
       exists pub_text pk, h_files h' !! (out ++ str ".pub") = Some pub_text /\ Ed25519.public_from_seed seed = Some pk /\
         Strings.pub_key pub_text = pk).
Proof.
  intros Ha He Hs Hl. destruct (sign_verifies seed []) as (pk & _ & Hpk & _). destruct (seed_signs seed pk Hpk) as (Hk1 & Hk2 & _).
  assert (Hh : host_at (h_faults h = []) (h_files h) (seed :: rest) h) by by split.
  assert (Hne : out ++ str ".seed" <> out ++ str ".pub") by (by intros ?%app_inv_head).
  enough (Hw : wp (cmd_keygen args) (outcome (h_faults h = []) (fun _ h' =>
    h_files h' = <[out ++ str ".pub" := key_file pk]> (<[out ++ str ".seed" := key_file seed]> (h_files h)))) h).
  { apply run_outcome in Hw as (r & h' & E & Hok & HP). exists r, h'. split; [exact E|]. split; [intros Hf; by destruct (Hok Hf) as [[] ->]|].
    intros -> Hc. specialize (HP () eq_refl). cbv beta in HP. split.
    - assert (Hh' : host_at True (h_files h') (h_entropy h') h') by by split.
      assert (Hsd : h_files h' !! (out ++ str ".seed") = Some (key_file seed)).
      { rewrite HP, lookup_insert_ne, lookup_insert_eq by done. done. }
      destruct (run_outcome _ _ _ (wp_load_key (fine := True) _ _ h' out seed (fun s h2 => s = seed /\ host_at True (h_files h') (h_entropy h') h2)
        Hh' Hsd Hs Hl (fun h2 H2 => conj eq_refl H2))) as (r & h2 & El & Hr & HP2). destruct (Hr I) as [s ->].
      destruct (HP2 s eq_refl) as [-> [H1 H2 H3]]. rewrite El. do 2 f_equal. specialize (H3 I).
      clear - H1 H2 H3 Hc. destruct h2, h'. cbn in *. by subst.
    - exists (key_file pk), pk. rewrite HP, lookup_insert_eq. split; [done|]. split; [done|]. by apply pub_file. }
  apply wp_then. eapply wp_need; [exact Ha|]. apply wp_then. eapply wp_entropy; [exact Hh|]. intros h1 H1.
  eapply wp_expect_outcome; [exact Hpk|]. apply wp_then. eapply wp_write_file; [exact H1|]. intros h2 H2.
  eapply wp_write_file; [exact H2|]. intros h3 H3. apply H3.
Qed.

(** A host with 32 bytes of entropy and no file. *)
Lemma keygen_roundtrip_witness :
  arg_of [str "--out"; str "keys/unit"] "--out" = Some (str "keys/unit") /\
  exists r h', cmd_keygen [str "--out"; str "keys/unit"] (mkHost ∅ [seed0] []) = Some (r, h') /\ (@nil (option nat) = [] -> r = Ok ()) /\
    (r = Ok () -> h_faults h' = [] -> load_key (str "keys/unit") h' = Some (Ok seed0, h') /\
       exists pub_text pk, h_files h' !! (str "keys/unit" ++ str ".pub") = Some pub_text /\ Ed25519.public_from_seed seed0 = Some pk /\
         Strings.pub_key pub_text = pk).
Proof.
  split; [reflexivity|]. apply (keygen_roundtrip _ (mkHost ∅ [seed0] []) (str "keys/unit") seed0 []).
  - reflexivity.
  - reflexivity.
  - apply Forall_replicate. red. lia.
  - reflexivity.
Defined.

(** C26. A volume mkvol formats mounts: with a signing key on disk and a new
    image of at least eleven mebibytes the command ends without a panic, and
    without an error when no transfer fails; then any storage service built
    with the matching public key that starts on the image without transfer
    faults mounts it out of recovery - slot A, generation 1, the factory
    definition and the factory configuration. *)
Theorem mkvol_mounts args h image seed pk key rest :
  arg_of args "--image" = Some image -> h_files h !! image = None ->
  h_files h !! (default (str "keys/redoubt-dev") (arg_of args "--key") ++ str ".seed") = Some (key_file seed) ->
  bytes_ok seed -> length seed = 32%nat -> Ed25519.public_from_seed seed = Some pk ->
  h_entropy h = key :: rest -> bytes_ok key -> length key = 32%nat -> 11 <= volume_size_mb args < 2 ^ 40 ->
  exists r h', cmd_mkvol args h = Some (r, h') /\ (h_faults h = [] -> r = Ok ()) /\
    (r = Ok () -> exists file, h_files h' !! image = Some file /\ length file = (Z.to_nat (volume_size_mb args * 2048) * SECTOR)%nat /\
      forall (W : Type) (HA : Abi W) (HV : StorageEnv.Volume W) D con (w : W),
        (forall k, 0 <= k < volume_size_mb args * 2048 -> D k = sector_of file k) -> on true D nobody w ->
        exists d, start con pk w = Some ((), d) /\
          (block (sd_st d) = Some 3 -> recovery (sd_st d) = false /\ active (sd_st d) = Some A /\ payload (sd_st d) = Storaged.FACTORY_PAYLOAD /\
             generation (sd_st d) = 1 /\ overrides (sd_st d) = Storaged.FACTORY_CONFIG /\ cfg_gen (sd_st d) = 0)).
Proof.
  intros Ha Hi Hk Hs1 Hs2 Hpk He Hk1 Hk2 Hmb. pose proof (seed_signs seed pk Hpk) as Hsign. pose proof Hsign as (Hpk1 & Hpk2 & _).
  assert (Hh : host_at (h_faults h = []) (h_files h) (key :: rest) h) by by split.
  pose proof (wp_mkvol _ _ args h image seed pk key Hh Ha Hi Hk Hs1 Hs2 Hsign Hk1 Hk2 Hmb) as Hw.
  apply run_outcome in Hw as (r & h' & E & Hok & HP). exists r, h'. split; [exact E|]. split; [intros Hf; by destruct (Hok Hf) as [[] ->]|].
  intros ->. destruct (HP () eq_refl) as (file & [Hat Hl] & [Hsb Hcf Hsl]). exists file. split; [by rewrite (ha_files _ _ _ _ Hat), lookup_insert_eq|].
  split; [exact Hl|]. intros W HA HV D con w HD Ho. assert (F0 : fits 64 0) by (red; lia). assert (F1 : fits 64 1) by (red; lia).
  destruct (held_slot_mounts D pk con w A 1 0 1 key FACTORY_PAYLOAD (sector_of file SUPERBLOCK_LBA) Ho Hpk1 Hpk2 Hk2 F1 F0 Hsb) as (d & Ed & Hm).
  - apply HD. unfold SUPERBLOCK_LBA. lia.
  - apply Hsl. intros k [H1 H2]. change Storaged.SLOT_PAYLOAD_SECTORS with 1000 in H2. cbn in H1, H2. unfold SLOT_A_HDR_LBA, SLOT_A_PAYLOAD_LBA in *. apply HD. lia.
  - exists d. split; [exact Ed|]. intros Hb. destruct (Hm Hb) as (R1 & R2 & R3 & R4 & R5). do 4 (split; [done|]). apply R5.
    unfold config_stored. rewrite HD by (unfold CONFIG_LBA; lia). exact Hcf.
Qed.

Definition dev_host (files : gmap (list Z) (list Z)) : Host :=
  mkHost (<[str "keys/redoubt-dev.seed" := key_file seed0]> (<[str "keys/dev/redoubt.seed" := key_file seed0]> files)) [key0] [].
Definition mkvol_args : list (list Z) := [str "--image"; str "disk.img"].

Lemma seed0_ok : bytes_ok seed0 /\ length seed0 = 32%nat.
Proof. split; [apply Forall_replicate; red; lia|done]. Qed.

Lemma mkvol_mounts_witness : arg_of mkvol_args "--image" = Some (str "disk.img") /\
  exists r h', cmd_mkvol mkvol_args (dev_host ∅) = Some (r, h') /\ (h_faults (dev_host ∅) = [] -> r = Ok ()) /\
    (r = Ok () -> exists file, h_files h' !! str "disk.img" = Some file /\ length file = (Z.to_nat (volume_size_mb mkvol_args * 2048) * SECTOR)%nat /\
      forall (W : Type) (HA : Abi W) (HV : StorageEnv.Volume W) D con (w : W),
        (forall k, 0 <= k < volume_size_mb mkvol_args * 2048 -> D k = sector_of file k) -> on true D nobody w ->
        exists d, start con pkS w = Some ((), d) /\
          (block (sd_st d) = Some 3 -> recovery (sd_st d) = false /\ active (sd_st d) = Some A /\ payload (sd_st d) = Storaged.FACTORY_PAYLOAD /\
             generation (sd_st d) = 1 /\ overrides (sd_st d) = Storaged.FACTORY_CONFIG /\ cfg_gen (sd_st d) = 0)).
Proof.
  split; [reflexivity|]. apply (mkvol_mounts mkvol_args (dev_host ∅) (str "disk.img") seed0 pkS key0 []).
  - reflexivity.
  - reflexivity.
  - reflexivity.
  - exact (proj1 seed0_ok).
  - exact (proj2 seed0_ok).
  - exact (proj1 (signed_spec [])).
  - reflexivity.
  - exact (proj2 key0_ok).
  - exact (proj1 key0_ok).
  - split; reflexivity || discriminate.
Defined.

(** The agent on a package it can read, check and copy. *)
Lemma agent_applies {W} `{Windows W} PUB image isig (w : W) : sound w ->
  parse_stage_package (disk_read (UpdatedTheorems.staged w) 0 STAGING_SECTORS) = Some (image, isig) ->
  Ed25519.verify (Strings.pub_key PUB) image isig = Some (Ok tt) -> image_sectors image <= target_len ->
  exists w', Updated.main PUB w = Some (0, w') /\ forall k, within 0 (image_sectors image) k -> target w' k = image_sector image k.
Proof.
  intros Hs Hp Hv Hlen. pose proof (wp_agent PUB (UpdatedTheorems.staged w) (target w) True w ltac:(by split) (law_staged_ok w)) as Hw.
  destruct (proj1 (wp_run _ _ _) Hw) as (code & w' & E & T' & [_ HT _] & Hverd). destruct Hverd as [Hf|Hn|im sg e Hp' Hv'|im sg [Hp' _] Hroom|im sg [Hp' _] Hcopy].
  - by destruct Hf.
  - rewrite Hp in Hn. discriminate Hn.
  - rewrite Hp in Hp'. injection Hp' as <- <-. unfold Updated.pub_key in Hv'. rewrite Hv in Hv'. discriminate Hv'.
  - rewrite Hp in Hp'. injection Hp' as <- <-. specialize (Hroom I). lia.
  - rewrite Hp in Hp'. injection Hp' as <- <-. exists w'. split; [exact E|]. intros k Hk. rewrite HT. by apply Hcopy.
Qed.

(** C27. An update from the workshop to the slot: for a formatted volume, a
    signing key and a payload that fits the staging area, updpack ends without a
    panic, and without an error when no transfer fails; it changes only the
    staging area; then the update agent built with the matching public key,
    given windows no transfer of which fails, exits 0, and a slot made of the
    sectors it wrote authenticates under the volume's key with exactly the
    payload and the generation of the command line. *)
Theorem update_delivered args h image n file payload_path gen_text gen payload seed PUB :
  arg_of args "--image" = Some image -> arg_of args "--payload" = Some payload_path ->
  arg_of args "--gen" = Some gen_text -> parse_u64 gen_text = Some gen -> flag_present args "--corrupt" = false ->
  h_files h !! (default (str "keys/dev/redoubt") (arg_of args "--key") ++ str ".seed") = Some (key_file seed) ->
  bytes_ok seed -> length seed = 32%nat -> Ed25519.public_from_seed seed = Some (Strings.pub_key PUB) ->
  h_files h !! image = Some file -> length file = (n * SECTOR)%nat -> 20736 <= Z.of_nat n ->
  is_Some (parse_superblock (sector_of file 0)) -> superblock_valid (slice SB_KEY_OFF 32 (sector_of file 0)) (sector_of file 0) = true ->
  h_files h !! payload_path = Some payload -> (0 < length payload)%nat ->
  Z.of_nat (PKG_IMAGE_OFF + (1024 + length payload)) <= STAGING_SECTORS * 512 ->
  exists r h', cmd_updpack args h = Some (r, h') /\ (h_faults h = [] -> r = Ok ()) /\
    (r = Ok () -> exists file', h_files h' !! image = Some file' /\ length file' = length file /\
      same_except (within STAGING_LBA STAGING_SECTORS) (sector_of file) (sector_of file') /\
      forall (W : Type) (HA : Abi W) (HW : Windows W) (w : W),
        (forall k, 0 <= k < STAGING_SECTORS -> UpdatedTheorems.staged w k = sector_of file' (STAGING_LBA + k)) -> sound w -> STAGING_SECTORS <= target_len ->
        exists w', Updated.main PUB w = Some (0, w') /\
          forall D x, (forall k, sector_ok (D k)) -> (forall k, 0 <= k < STAGING_SECTORS -> D (hdr_lba x + k) = target w' k) ->
            slot_holds D (slice SB_KEY_OFF 32 (sector_of file 0)) (Strings.pub_key PUB) x payload gen).
Proof.
  intros A1 A2 A3 Hgen A4 Hk Hs1 Hs2 Hpk Hf Hl Hn Hsb Hmac Hp Hp0 Hsize. pose proof (seed_signs seed _ Hpk) as Hsign.
  assert (Hh : host_at (h_faults h = []) (h_files h) (h_entropy h) h) by by split.
  pose proof (wp_updpack _ _ args h image n file payload_path gen_text gen payload seed _ Hh A1 A2 A3 Hgen A4 Hk Hs1 Hs2 Hsign Hf Hl Hn Hsb Hmac Hp Hsize) as Hw.
  apply run_outcome in Hw as (r & h' & E & Hok & HP). exists r, h'. split; [exact E|]. split; [intros Hfi; by destruct (Hok Hfi) as [[] ->]|].
  intros ->. destruct (HP () eq_refl) as (file' & sig & img & isig & pkg & c & [Hat Hl'] & Hsame & Hrest). cbv zeta in Hrest.
  destruct Hrest as (Q1 & Q2 & Q3 & Q4 & Q5 & Q6 & Q7 & Q8 & Q9 & Q10 & Q11). exists file'. split; [by rewrite (ha_files _ _ _ _ Hat), lookup_insert_eq|].
  split; [congruence|]. split; [exact Hsame|]. intros W HA HW w Hst Hsound Hlen.
  set (len := (1024 + length payload)%nat) in *. pose proof (sectors_for_bounds len) as Hb.
  assert (Hpre : take (length pkg) (disk_read (UpdatedTheorems.staged w) 0 STAGING_SECTORS) = pkg).
  { apply (staged_prefix (UpdatedTheorems.staged w) file' c); [exact Q8|apply law_staged_ok|exact Q9|exact Q11|exact Hst]. }
  assert (Hpar : parse_stage_package (disk_read (UpdatedTheorems.staged w) 0 STAGING_SECTORS) = Some (take len img, isig)).
  { apply Q10; [|exact Hpre]. rewrite length_disk_read; [|apply law_staged_ok|done]. unfold STAGING_SECTORS, SECTOR in *. lia. }
  assert (His : image_sectors (take len img) = Z.of_nat (sectors_for len)) by (unfold image_sectors; by rewrite Q5).
  assert (Hroom : Z.of_nat (sectors_for len) + 0 <= STAGING_SECTORS) by (unfold STAGING_SECTORS, SECTOR, PKG_IMAGE_OFF in *; lia).
  destruct (agent_applies PUB (take len img) isig w Hsound Hpar Q7) as (w' & Em & Hcopy); [lia|]. exists w'. split; [exact Em|]. intros D x HD Hslot.
  apply (image_holds D _ _ x img len gen payload sig HD Q3); [by eapply parse_u64_fits| |exact Q2|exact Q1|].
  { change PAYLOAD_CAP with 512000. unfold STAGING_SECTORS in Hsize. lia. }
  assert (Hps : (2 + payload_sectors payload)%nat = sectors_for len).
  { unfold payload_sectors, sectors_for, len, SECTOR. replace (1024 + length payload + 512 - 1)%nat with (length payload + 512 - 1 + 2 * 512)%nat by lia. rewrite Nat.div_add; lia. }
  intros i Hi _. rewrite Hslot by lia. rewrite Hcopy by (unfold within; lia). unfold image_sector. rewrite Nat2Z.id. rewrite Q4 at 2.
  apply slice_zeros; rewrite Q5; change SLOT_IMAGE_MAX with 513024 in Q6; unfold SECTOR, STAGING_SECTORS in *; nia.
Qed.

(** C28. An application from the workshop to a slot: for a formatted volume, a
    signing key, a valid name and an image within the staging capacity,
    apppack ends without a panic, and without an error when no transfer fails;
    it changes only the staging area; then a storage service that serves the
    volume under the matching public key, holds no copy of that version or a
    later one and has a slot to spare, installs the package - it answers with
    the name and the version, the sealed slot carries exactly the image, and the
    table lists it. *)
Theorem app_installs args h image n file elf_path name version_text version payload seed pk :
  arg_of args "--image" = Some image -> arg_of args "--elf" = Some elf_path -> arg_of args "--name" = Some name ->
  arg_of args "--version" = Some version_text -> parse_u64 version_text = Some version -> flag_present args "--corrupt" = false ->
  h_files h !! (default (str "keys/dev/redoubt") (arg_of args "--key") ++ str ".seed") = Some (key_file seed) ->
  bytes_ok seed -> length seed = 32%nat -> Ed25519.public_from_seed seed = Some pk -> valid_app_name name = true ->
  h_files h !! elf_path = Some payload -> (0 < length payload)%nat -> Z.of_nat (length payload) <= APP_STAGE_CAP ->
  h_files h !! image = Some file -> length file = (n * SECTOR)%nat -> 20736 <= Z.of_nat n -> is_Some (parse_superblock (sector_of file 0)) ->
  exists r h', cmd_apppack args h = Some (r, h') /\ (h_faults h = [] -> r = Ok ()) /\
    (r = Ok () -> exists file', h_files h' !! image = Some file' /\ length file' = length file /\
      same_except (within STAGING_LBA STAGING_SECTORS) (sector_of file) (sector_of file') /\
      forall (W : Type) (HA : Abi W) (HV : StorageEnv.Volume W) D s ws (w : W), serving true D nobody (mkSd s ws w) ->
        (forall k, within STAGING_LBA STAGING_SECTORS k -> D k = sector_of file' k) -> pubkey s = pk -> recovery s = false -> block s = Some 3 ->
        (forall a, a ∈ apps s -> same_app_name a name = true -> ae_version a < version) -> is_Some (target_app_slot (apps s) name) ->
        exists D' slot sig d, install_app (mkSd s ws w) = Some (push_num (str "ok app " ++ name ++ str " v") version, d) /\ serving true D' nobody d /\
          published D' (vol_key s) slot name version payload sig /\
          exists e, e ∈ apps (sd_st d) /\ ae_slot e = slot /\ ae_version e = version /\ entry_name e = name).
Proof.
  intros A1 A2 A3 A4 Hver A5 Hk Hs1 Hs2 Hpk Hname Hp Hp0 Hpc Hf Hl Hn Hsb. pose proof (seed_signs seed _ Hpk) as Hsign.
  assert (Hh : host_at (h_faults h = []) (h_files h) (h_entropy h) h) by by split.
  pose proof (wp_apppack _ _ args h image n file elf_path name version_text version payload seed pk Hh A1 A2 A3 A4 Hver A5 Hk Hs1 Hs2 Hsign Hname Hp Hp0 Hpc Hf Hl Hn Hsb) as Hw.
  apply run_outcome in Hw as (r & h' & E & Hok & HP). exists r, h'. split; [exact E|]. split; [intros Hfi; by destruct (Hok Hfi) as [[] ->]|].
  intros ->. destruct (HP () eq_refl) as (file' & p & sig & [Hat Hl'] & Hsame & P1 & P2 & P3 & P4 & P5 & Hv & Hstaged).
  exists file'. split; [by rewrite (ha_files _ _ _ _ Hat), lookup_insert_eq|]. split; [congruence|]. split; [exact Hsame|].
  intros W HA HV D s ws w Hsv HD Hpks Hrec Hblk Hnew [slot Hslot].
  assert (Hinst : installable D s p slot).
  { split; [apply Hstaged; [apply (on_ok _ _ _ _ (sv_on _ _ _ _ Hsv))|exact HD]|]. split; [|by rewrite P1].
    unfold acceptable. rewrite P1, P2, P3, P4, P5, Hpks. split; [exact Hname|]. split; [reflexivity|]. split; [exact Hv|exact Hnew]. }
  pose proof slots_only_nobody as Hno.
  pose proof (wp_install_app true D nobody (fun r d => r = push_num (str "ok app " ++ name ++ str " v") version /\ exists D' slot sig, serving true D' nobody d /\
    published D' (vol_key s) slot name version payload sig /\ exists e, e ∈ apps (sd_st d) /\ ae_slot e = slot /\ ae_version e = version /\ entry_name e = name)
    s ws w Hsv Hno) as Hw. apply wp_run in Hw.
  - destruct Hw as (r & d & Ei & -> & D' & sl & sg & H1 & H2 & H3). exists D', sl, sg, d. split; [exact Ei|]. split; [exact H1|]. split; [exact H2|exact H3].
  - intros r D' s' ws' w' Hsv' Hi. destruct Hi as [r _ _ _ _ Hnone|sl q Hb|sl q nm entry [Hst _] _ Hpub Hadv].
    + destruct (Hnone eq_refl Hrec Hblk p slot). exact Hinst.
    + discriminate Hb.
    + destruct Hinst as [Hst' _]. rewrite Hst in Hst'. apply (inj Some) in Hst'. subst q nm entry. rewrite P1, P3. split; [reflexivity|].
      rewrite P1, P2, P3 in Hpub. exists D', sl, (ap_signature p). split; [exact Hsv'|]. split; [exact Hpub|].
      apply advanced_inv in Hadv as (q' & p' & -> & _). cbn [sd_st set_audit set_apps apps]. eexists. split; [apply elem_of_app; right; by apply list_elem_of_singleton|].
      cbn [ae_slot ae_version]. split; [reflexivity|]. split; [exact P3|]. exact P1.
Qed.

(** A formatted image, a payload and an application on the host. *)
Definition dev_sb : list Z := default [] (write_superblock zeros (Some A) 1 0 key0).
Definition dev_n : nat := Z.to_nat 20736.
Definition dev_rest : list Z := replicate (Z.to_nat (20735 * 512)) 0.
Definition dev_image : list Z := dev_sb ++ dev_rest.
Definition workshop : Host := dev_host (<[str "disk.img" := dev_image]> (<[str "system.def" := body0]> (<[str "hello.elf" := app_body0]> ∅))).

Lemma workshop_files : h_files workshop !! str "disk.img" = Some dev_image /\ h_files workshop !! str "system.def" = Some body0 /\
  h_files workshop !! str "hello.elf" = Some app_body0 /\ h_files workshop !! (str "keys/dev/redoubt" ++ str ".seed") = Some (key_file seed0).
Proof.
  assert (Hne : forall s t : string, str s <> str t -> forall m : gmap (list Z) (list Z), forall v, <[str s := v]> m !! str t = m !! str t) by (intros; by apply lookup_insert_ne).
  unfold workshop, dev_host. cbn [h_files]. change (str "keys/dev/redoubt" ++ str ".seed") with (str "keys/dev/redoubt.seed").
  rewrite !Hne by (intros E; discriminate E). rewrite !lookup_insert_eq. done.
Qed.

Lemma dev_sb_spec : length dev_sb = SECTOR /\ parse_superblock dev_sb = Some (Some A, 1, 0) /\ superblock_valid key0 dev_sb = true /\ slice SB_KEY_OFF 32 dev_sb = key0.
Proof.
  assert (F0 : fits 64 0) by (red; lia). assert (F1 : fits 64 1) by (red; lia). destruct key0_ok as [K1 K2].
  destruct (superblock_sector key0 A 1 0 K1 K2 F1 F0) as (sb & E & [Hl _] & H1 & H2 & H3). unfold dev_sb. rewrite E. cbn [default from_option id].
  split; [exact Hl|]. split; [exact H1|]. split; [exact H2|exact H3].
Qed.

Lemma dev_image_len : length dev_image = (dev_n * SECTOR)%nat.
Proof.
  assert (En : Z.of_nat dev_n = 20736) by (apply Z2Nat.id; discriminate).
  assert (Er : Z.of_nat (length dev_rest) = 20735 * 512) by (unfold dev_rest; rewrite length_replicate; apply Z2Nat.id; discriminate).
  unfold dev_image. rewrite length_app, (proj1 dev_sb_spec). revert En Er. generalize dev_n, (length dev_rest). unfold SECTOR. intros. lia.
Qed.

Lemma dev_superblock : sector_of dev_image 0 = dev_sb.
Proof. unfold sector_of, slice. cbn [Z.ltb Z.compare Z.to_nat Nat.mul]. rewrite drop_0. unfold dev_image. apply take_app_length'. apply dev_sb_spec. Qed.

Definition upd_args : list (list Z) := [str "--image"; str "disk.img"; str "--payload"; str "system.def"; str "--gen"; str "2"].

Lemma update_delivered_witness : parse_u64 (str "2") = Some 2 /\
  exists r h', cmd_updpack upd_args workshop = Some (r, h') /\ (h_faults workshop = [] -> r = Ok ()) /\
    (r = Ok () -> exists file', h_files h' !! str "disk.img" = Some file' /\ length file' = length dev_image /\
      same_except (within STAGING_LBA STAGING_SECTORS) (sector_of dev_image) (sector_of file') /\
      forall (W : Type) (HA : Abi W) (HW : Windows W) (w : W),
        (forall k, 0 <= k < STAGING_SECTORS -> UpdatedTheorems.staged w k = sector_of file' (STAGING_LBA + k)) -> sound w -> STAGING_SECTORS <= target_len ->
        exists w', Updated.main (key_file pkS) w = Some (0, w') /\
          forall D x, (forall k, sector_ok (D k)) -> (forall k, 0 <= k < STAGING_SECTORS -> D (hdr_lba x + k) = target w' k) ->
            slot_holds D (slice SB_KEY_OFF 32 (sector_of dev_image 0)) (Strings.pub_key (key_file pkS)) x body0 2).
Proof.
  split; [reflexivity|]. destruct workshop_files as (W1 & W2 & W3 & W4).
  apply (update_delivered upd_args workshop (str "disk.img") dev_n dev_image (str "system.def") (str "2") 2 body0 seed0 (key_file pkS)).
  - reflexivity.
  - reflexivity.
  - reflexivity.
  - reflexivity.
  - reflexivity.
  - exact W4.
  - exact (proj1 seed0_ok).
  - exact (proj2 seed0_ok).
  - destruct pkS_ok as [H1 H2]. rewrite (pub_file pkS H1 H2). exact (proj1 (signed_spec [])).
  - exact W1.
  - exact dev_image_len.
  - unfold dev_n. rewrite Z2Nat.id; [apply Z.le_refl|discriminate].
  - rewrite dev_superblock, (proj1 (proj2 dev_sb_spec)). eexists. reflexivity.
  - rewrite dev_superblock. destruct dev_sb_spec as (_ & _ & H1 & ->). exact H1.
  - exact W2.
  - apply Nat.ltb_lt. reflexivity.
  - apply Z.leb_le. reflexivity.
Defined.

Definition app_args : list (list Z) :=
  [str "--image"; str "disk.img"; str "--elf"; str "hello.elf"; str "--name"; str "hello"; str "--version"; str "3"].

Lemma app_installs_witness : valid_app_name (str "hello") = true /\
  exists r h', cmd_apppack app_args workshop = Some (r, h') /\ (h_faults workshop = [] -> r = Ok ()) /\
    (r = Ok () -> exists file', h_files h' !! str "disk.img" = Some file' /\ length file' = length dev_image /\
      same_except (within STAGING_LBA STAGING_SECTORS) (sector_of dev_image) (sector_of file') /\
      forall (W : Type) (HA : Abi W) (HV : StorageEnv.Volume W) D s ws (w : W), serving true D nobody (mkSd s ws w) ->
        (forall k, within STAGING_LBA STAGING_SECTORS k -> D k = sector_of file' k) -> pubkey s = pkS -> recovery s = false -> block s = Some 3 ->
        (forall a, a ∈ apps s -> same_app_name a (str "hello") = true -> ae_version a < 3) -> is_Some (target_app_slot (apps s) (str "hello")) ->
        exists D' slot sig d, install_app (mkSd s ws w) = Some (push_num (str "ok app " ++ str "hello" ++ str " v") 3, d) /\ serving true D' nobody d /\
          published D' (vol_key s) slot (str "hello") 3 app_body0 sig /\
          exists e, e ∈ apps (sd_st d) /\ ae_slot e = slot /\ ae_version e = 3 /\ entry_name e = str "hello").
Proof.
  split; [reflexivity|]. destruct workshop_files as (W1 & W2 & W3 & W4).
  apply (app_installs app_args workshop (str "disk.img") dev_n dev_image (str "hello.elf") (str "hello") (str "3") 3 app_body0 seed0 pkS).
  - reflexivity.
  - reflexivity.
  - reflexivity.
  - reflexivity.
  - reflexivity.
  - reflexivity.
  - exact W4.
  - exact (proj1 seed0_ok).
  - exact (proj2 seed0_ok).
  - exact (proj1 (signed_spec [])).
  - reflexivity.
  - exact W3.
  - apply Nat.ltb_lt. reflexivity.
  - apply Z.leb_le. reflexivity.
  - exact W1.
  - exact dev_image_len.
  - unfold dev_n. rewrite Z2Nat.id; [apply Z.le_refl|discriminate].
  - rewrite dev_superblock, (proj1 (proj2 dev_sb_spec)). eexists. reflexivity.
Defined.
