(* ===== verification/Ata.v ===== *)
(** * The disk driver (kernel/src/ata.rs)

    Polled transfers over input and output ports.  The port instructions are
    the class [Ports]; [None] is an index out of range.  The two statics are the
    record [Drives].  Messages printed while probing are not modelled.

    [AtaDevice] is what the driver relies on: a drive as its task-file registers,
    the transfer in progress and its sectors, moved by the port accesses as the
    ATA standard lays down, busy for a while and failing when it likes; [quick]
    says that it neither fails nor stays busy for longer than the driver waits.
    [DriveSim] is a drive with this behaviour. *)

From S2P Require Import Prelude RustStd Prog StorageEnv StorageApps.

Class Ports (W : Type) := {
  in8 : Z -> W -> Z * W;
  out8 : Z -> Z -> W -> W;
  in16 : Z -> W -> Z * W;
  out16 : Z -> Z -> W -> W;
}.

Module Ata.

Definition SR_BSY : Z := 0x80.
Definition SR_DRQ : Z := 0x08.
Definition SR_ERR : Z := 0x01.
Definition SPIN_IDENTIFY : Z := 5000000.
Definition SPIN_DATA : Z := 20000000.

Inductive AtaError := NoDrive | BusyTimeout | DeviceError | BadArgs.

Record Drive := mkDrive { io : Z; ctrl : Z; slave : bool; sectors : Z }.

Section driver.
Context {W : Type} `{Ports W}.
Implicit Types (d : Drive).

Definition p_in d (off : Z) : prog W Z := fun w => Some (in8 (wrap 16 (io d + off)) w).
Definition p_out d (off v : Z) : prog W () := fun w => Some ((), out8 (wrap 16 (io d + off)) v w).
Definition p_in16 d : prog W Z := fun w => Some (in16 (io d) w).
Definition p_out16 d (v : Z) : prog W () := fun w => Some ((), out16 (io d) v w).
Definition p_in_at_ctrl d : prog W Z := fun w => Some (in8 (ctrl d) w).

Definition io_delay d : prog W () :=
  _ ← p_in_at_ctrl d; _ ← p_in_at_ctrl d; _ ← p_in_at_ctrl d; _ ← p_in_at_ctrl d; mret ().

Definition select d : prog W () := _ ← p_out d 6 (if slave d then 0xF0 else 0xE0); io_delay d.

Definition has (bits st : Z) : bool := negb (Z.land st bits =? 0).

(** The status is read at most [spins] times. *)
Fixpoint spin_busy d (spins : nat) : prog W bool :=
  match spins with
  | O => mret false
  | S spins => st ← p_in d 7; if has SR_BSY st then spin_busy d spins else mret true
  end.

Definition wait_not_busy d : prog W (result () AtaError) :=
  ok ← spin_busy d (Z.to_nat SPIN_DATA); mret (if ok : bool then Ok () else Err BusyTimeout).

Definition setup_lba48 d (lba count : Z) : prog W (result () AtaError) :=
  if (count =? 0) || (256 <? count) || (2 ^ 64 <=? lba + count) || (sectors d <? lba + count) then mret (Err BadArgs) else
  _ ← select d;
  _ ← p_out d 2 (wrap 8 (Z.shiftr count 8));
  _ ← p_out d 3 (wrap 8 (Z.shiftr lba 24));
  _ ← p_out d 4 (wrap 8 (Z.shiftr lba 32));
  _ ← p_out d 5 (wrap 8 (Z.shiftr lba 40));
  _ ← p_out d 2 (Z.land count 0xff);
  _ ← p_out d 3 (wrap 8 lba);
  _ ← p_out d 4 (wrap 8 (Z.shiftr lba 8));
  _ ← p_out d 5 (wrap 8 (Z.shiftr lba 16));
  mret (Ok ()).

Fixpoint read_id d (n : nat) : prog W (list Z) :=
  match n with
  | O => mret []
  | S n => w ← p_in16 d; rest ← read_id d n; mret (w :: rest)
  end.

Definition id_sectors (id : list Z) : Z :=
  let word i := nth i id 0 in
  let lba48 := Z.lor (Z.lor (Z.lor (word 100%nat) (Z.shiftl (word 101%nat) 16)) (Z.shiftl (word 102%nat) 32)) (Z.shiftl (word 103%nat) 48) in
  if lba48 =? 0 then Z.lor (word 60%nat) (Z.shiftl (word 61%nat) 16) else lba48.

Definition identify (bus_io bus_ctrl : Z) (slave : bool) : prog W (option Drive) :=
  let d := mkDrive bus_io bus_ctrl slave 0 in
  _ ← select d;
  _ ← p_out d 2 0; _ ← p_out d 3 0; _ ← p_out d 4 0; _ ← p_out d 5 0;
  _ ← p_out d 7 0xEC;
  st ← p_in d 7;
  if (st =? 0) || (st =? 0xFF) then mret None else
  mid ← p_in d 4;
  high ← p_in d 5;
  if (mid =? 0x14) && (high =? 0xEB) || (mid =? 0x69) && (high =? 0x96) then mret None else
  ready ← spin_busy d (Z.to_nat SPIN_IDENTIFY);
  if negb ready then mret None else
  st ← p_in d 7;
  if has SR_ERR st then mret None else
  st ← p_in d 7;
  if negb (has SR_DRQ st) then mret None else
  id ← read_id d 256;
  mret (Some (mkDrive bus_io bus_ctrl slave (id_sectors id))).

Definition flush d : prog W (result () AtaError) :=
  _ ← p_out d 7 0xE7;
  r ← wait_not_busy d;
  match r with
  | Err e => mret (Err e)
  | Ok _ => st ← p_in d 7; mret (if has SR_ERR st then Err DeviceError else Ok ())
  end.

(** [buf[off] = v as u8; buf[off + 1] = (v >> 8) as u8] *)
Definition put_word (off : nat) (v : Z) (buf : list Z) : option (list Z) :=
  if (off + 1 <? length buf)%nat then Some (<[(off + 1)%nat := wrap 8 (Z.shiftr v 8)]> (<[off := wrap 8 v]> buf)) else None.

Definition get_word (off : nat) (buf : list Z) : option Z :=
  a ← buf !! off; b ← buf !! (off + 1)%nat; Some (Z.lor a (Z.shiftl b 8)).

Fixpoint read_words d (n off : nat) (buf : list Z) : prog W (list Z) :=
  match n with
  | O => mret buf
  | S n => v ← p_in16 d; buf ← expect (put_word off v buf); read_words d n (off + 2) buf
  end.

(** The wait before each sector. *)
Definition data_ready d : prog W (result () AtaError) :=
  r ← wait_not_busy d;
  match r with
  | Err e => mret (Err e)
  | Ok _ => st ← p_in d 7; mret (if has SR_ERR st || negb (has SR_DRQ st) then Err DeviceError else Ok ())
  end.

Fixpoint read_loop d (n s : nat) (buf : list Z) : prog W (result () AtaError * list Z) :=
  match n with
  | O => mret (Ok (), buf)
  | S n =>
      r ← data_ready d;
      match r with
      | Err e => mret (Err e, buf)
      | Ok _ => buf ← read_words d 256 (s * 512) buf; _ ← io_delay d; read_loop d n (S s) buf
      end
  end.

(** The buffer is filled in place: it is returned with the result. *)
Definition drive_read d (lba count : Z) (buf : list Z) : prog W (result () AtaError * list Z) :=
  if (length buf <? Z.to_nat count * 512)%nat then mret (Err BadArgs, buf) else
  r ← setup_lba48 d lba count;
  match r with
  | Err e => mret (Err e, buf)
  | Ok _ => _ ← p_out d 7 0x24; read_loop d (Z.to_nat count) 0 buf
  end.

Fixpoint write_words d (n off : nat) (buf : list Z) : prog W () :=
  match n with
  | O => mret ()
  | S n => v ← expect (get_word off buf); _ ← p_out16 d v; write_words d n (off + 2) buf
  end.

Fixpoint write_loop d (n s : nat) (buf : list Z) : prog W (result () AtaError) :=
  match n with
  | O => mret (Ok ())
  | S n =>
      r ← data_ready d;
      match r with
      | Err e => mret (Err e)
      | Ok _ => _ ← write_words d 256 (s * 512) buf; _ ← io_delay d; write_loop d n (S s) buf
      end
  end.

Definition drive_write d (lba count : Z) (buf : list Z) : prog W (result () AtaError) :=
  if (length buf <? Z.to_nat count * 512)%nat then mret (Err BadArgs) else
  r ← setup_lba48 d lba count;
  match r with
  | Err e => mret (Err e)
  | Ok _ => _ ← p_out d 7 0x34; r ← write_loop d (Z.to_nat count) 0 buf;
      match r with Err e => mret (Err e) | Ok _ => flush d end
  end.

(** ** The two drives *)

Record Drives := mkDrives { PRIMARY_DRIVE : option Drive; SECONDARY_DRIVE : option Drive }.

(** The first usable drive of a bus. *)
Definition probe_bus (bus_io bus_ctrl : Z) : prog W (option Drive) :=
  m ← identify bus_io bus_ctrl false;
  match m with Some d => mret (Some d) | None => identify bus_io bus_ctrl true end.

Definition found (o : option Drive) : Z := match o with Some _ => 1 | None => 0 end.

Definition init : prog W (Z * Drives) :=
  pm ← probe_bus 0x1F0 0x3F6;
  sm ← probe_bus 0x170 0x376;
  mret (found pm + found sm, mkDrives pm sm).

Definition with_drive {R} (ds : Drives) (idx : Z) (f : Drive -> prog W R) (none : R) : prog W R :=
  match (if idx =? 0 then PRIMARY_DRIVE ds else if idx =? 1 then SECONDARY_DRIVE ds else None) with Some d => f d | None => mret none end.

Definition drive_present (ds : Drives) (idx : Z) : prog W bool := with_drive ds idx (fun _ => mret true) false.
Definition drive_sectors (ds : Drives) (idx : Z) : prog W Z := with_drive ds idx (fun d => mret (sectors d)) 0.

Definition read_sectors (ds : Drives) (idx lba count : Z) (buf : list Z) : prog W (result () AtaError * list Z) :=
  with_drive ds idx (fun d => drive_read d lba count buf) (Err NoDrive, buf).

Definition write_sectors (ds : Drives) (idx lba count : Z) (buf : list Z) : prog W (result () AtaError) :=
  with_drive ds idx (fun d => drive_write d lba count buf) (Err NoDrive).

(** ** Reboot: one pulse of the reset line; the source repeats it for ever. *)

Fixpoint drain_controller (spins : nat) : prog W () :=
  match spins with
  | O => mret ()
  | S spins => fun w => let '(st, w) := in8 0x64 w in if has 0x02 st then drain_controller spins w else Some ((), w)
  end.

Definition reset_pulse : prog W () := _ ← drain_controller (Z.to_nat 100000); ((fun w => Some ((), out8 0x64 0xFE w)) : prog W ()).

End driver.

End Ata.

Import Ata.

(** ** Drives as the standard describes them *)

(** What a drive is doing: sending the words left of a read, or taking those of
    the current sector of a write. *)
Inductive Phase := Idle | Sending (ws : list Z) | Receiving (lba : Z) (left : nat) (got : list Z).

(** The last two bytes written to each register, the transfer, the sectors. *)
Record View := mkView { latch : Z -> Z * Z; phase : Phase; store : Z -> list Z }.

Definition push (r v : Z) (l : Z -> Z * Z) : Z -> Z * Z := fun k => if k =? r then (v, fst (l r)) else l k.
Definition lba48 (l : Z -> Z * Z) : Z := from_le_bytes [fst (l 3); fst (l 4); fst (l 5); snd (l 3); snd (l 4); snd (l 5)].
Definition count48 (l : Z -> Z * Z) : Z := let c := from_le_bytes [fst (l 2); snd (l 2)] in if c =? 0 then 65536 else c.

Fixpoint words (l : list Z) : list Z := match l with a :: b :: l => Z.lor a (Z.shiftl b 8) :: words l | _ => [] end.
Definition bytes_of (ws : list Z) : list Z := concat ((fun v => [wrap 8 v; wrap 8 (Z.shiftr v 8)]) <$> ws).

Definition sending (ws : list Z) : Phase := match ws with [] => Idle | _ => Sending ws end.
Definition with_phase (p : Phase) (v : View) : View := mkView (latch v) p (store v).
Definition transferring (v : View) : bool := match phase v with Idle => false | _ => true end.

Definition command (ident : list Z) (c : Z) (v : View) : View :=
  let lba := lba48 (latch v) in let n := count48 (latch v) in
  if c =? 0x24 then with_phase (sending (words (disk_read (store v) lba n))) v
  else if c =? 0x34 then with_phase (Receiving lba (Z.to_nat n) []) v
  else if c =? 0xEC then with_phase (sending ident) v else v.

(** A word arrives; the 256th completes a sector. *)
Definition receive (x : Z) (v : View) : View :=
  match phase v with
  | Receiving lba (S n) got =>
      let got := got ++ [x] in
      if (length got =? 256)%nat
      then mkView (latch v) (match n with O => Idle | _ => Receiving (lba + 1) n [] end) (fun k => if k =? lba then bytes_of got else store v k)
      else mkView (latch v) (Receiving lba (S n) got) (store v)
  | _ => v
  end.

Definition port (d : Drive) (off : Z) : Z := wrap 16 (io d + off).

Class AtaDevice (W : Type) `{Ports W} (d : Drive) := {
  view : W -> View;
  quick : W -> Prop;
  lag : W -> option nat;      (* status reads that will say busy; [None]: for ever *)
  ident : list Z;             (* the words of IDENTIFY *)
  moves := fun (v : View) (w w' : W) => view w' = v /\ (quick w -> quick w');

  law_ident : length ident = 256%nat;
  law_quick w : quick w -> exists n, lag w = Some n /\ (n < Z.to_nat SPIN_IDENTIFY)%nat;
  law_ctrl w : let '(_, w') := in8 (ctrl d) w in moves (view w) w w';
  law_select w : moves (view w) w (out8 (port d 6) (if slave d then 0xF0 else 0xE0) w);
  law_latch r v w : 2 <= r <= 5 -> phase (view w) = Idle ->
    moves (mkView (push r v (latch (view w))) Idle (store (view w))) w (out8 (port d r) v w);
  law_command c w : phase (view w) = Idle -> c ∈ [0x24; 0x34; 0xE7; 0xEC] -> moves (command ident c (view w)) w (out8 (port d 7) c w);
  law_status w : let '(st, w') := in8 (port d 7) w in moves (view w) w w' /\ 0 < st < 0xFF /\ has SR_BSY st = negb (bool_decide (lag w = Some 0%nat)) /\
    lag w' = pred <$> lag w /\ (quick w -> has SR_ERR st = false) /\ (lag w = Some 0%nat -> has SR_ERR st = false -> has SR_DRQ st = transferring (view w));
  law_registers r w : r ∈ [4; 5] -> let '(v, w') := in8 (port d r) w in v = fst (latch (view w) r) /\ moves (view w) w w';
  law_in16 w x ws : phase (view w) = Sending (x :: ws) ->
    let '(v, w') := in16 (io d) w in v = x /\ moves (with_phase (sending ws) (view w)) w w';
  law_out16 w x : phase (view w) <> Idle -> moves (receive x (view w)) w (out16 (io d) x w);
}.

(** ** Words *)

Lemma word_sum a b : is_byte a -> Z.lor a (Z.shiftl b 8) = a + 256 * b.
Proof.
  intros Ha. red in Ha. rewrite Z.shiftl_mul_pow2 by lia. rewrite <- Z.add_nocarry_lor; [change (2 ^ 8) with 256; lia|].
  apply Z.bits_inj'. intros i Hi. rewrite Z.land_spec, Z.bits_0. destruct (Z.lt_ge_cases i 8).
  - rewrite Z.mul_pow2_bits_low by lia. apply andb_false_r.
  - rewrite (Z.bits_above_log2 a); [done|lia|]. destruct (Z.eq_dec a 0) as [->|]; [cbn; lia|]. apply Z.log2_lt_pow2; [lia|].
    apply Z.lt_le_trans with (2 ^ 8); [change (2 ^ 8) with 256; lia|]. apply Z.pow_le_mono_r; lia.
Qed.

Lemma word_bytes a b : is_byte a -> is_byte b -> wrap 8 (Z.lor a (Z.shiftl b 8)) = a /\ wrap 8 (Z.shiftr (Z.lor a (Z.shiftl b 8)) 8) = b.
Proof.
  intros Ha Hb. rewrite word_sum by done. red in Ha, Hb. unfold wrap. rewrite Z.shiftr_div_pow2 by lia. change (2 ^ 8) with 256.
  replace (a + 256 * b) with (a + b * 256) by lia. rewrite Z.mod_add, Z.div_add by lia. rewrite (Z.div_small a) by lia. rewrite !Z.mod_small by lia. lia.
Qed.

Lemma bytes_of_words l : bytes_ok l -> forall n, length l = (2 * n)%nat -> bytes_of (words l) = l.
Proof.
  intros Hl n. revert l Hl. induction n as [|n IH]; intros l Hl Hn; [by apply nil_length_inv in Hn as ->|].
  destruct l as [|a [|b l]]; [cbn in Hn; lia..|]. apply Forall_cons in Hl as [Ha Hl]. apply Forall_cons in Hl as [Hb Hl].
  cbn [words]. unfold bytes_of. cbn [fmap list_fmap concat]. destruct (word_bytes a b Ha Hb) as [-> ->]. cbn [app]. do 2 f_equal.
  apply (IH l Hl). cbn in Hn. lia.
Qed.

(** The register bytes the driver writes name the sector and the count. *)
Lemma lba_bytes lba : 0 <= lba < 2 ^ 48 ->
  from_le_bytes [wrap 8 lba; wrap 8 (Z.shiftr lba 8); wrap 8 (Z.shiftr lba 16); wrap 8 (Z.shiftr lba 24); wrap 8 (Z.shiftr lba 32); wrap 8 (Z.shiftr lba 40)] = lba.
Proof.
  intros Hl. rewrite <- (from_le_to_le_small 6 lba) at 7 by (change (256 ^ Z.of_nat 6) with (2 ^ 48); lia). f_equal. cbn [to_le_bytes].
  unfold wrap. rewrite !Z.shiftr_div_pow2 by lia. rewrite !Z.div_div by lia. done.
Qed.

(** ** The driver on such a drive *)

Section device.
Context {W : Type} (d : Drive) `{AtaDevice W d} {q : Prop}.

(** The drive seen by the driver; [q]: no transfer fails. *)
Record sees (v : View) (w : W) : Prop := { see_view : view w = v; see_quick : q -> quick w }.

Lemma sees_moves v w w' : (q -> quick w) -> moves v w w' -> sees v w'.
Proof. intros Hq [Hv Hk]. split; [exact Hv|auto]. Qed.

Lemma wp_ctrl v w (Q : Z -> W -> Prop) : sees v w -> (forall x w', sees v w' -> Q x w') -> wp (p_in_at_ctrl d) Q w.
Proof.
  intros [Hv Hq] HQ. unfold wp, p_in_at_ctrl. pose proof (law_ctrl w) as L. destruct (in8 _ w) as [x w']. apply HQ. rewrite Hv in L. by eapply sees_moves.
Qed.

Lemma wp_io_delay v w (Q : () -> W -> Prop) : sees v w -> (forall w', sees v w' -> Q () w') -> wp (io_delay d) Q w.
Proof.
  intros Hs HQ. unfold io_delay. do 4 (apply wp_bind; eapply wp_ctrl; [eassumption|]; clear dependent w; intros ? w Hs). by apply wp_ret, HQ.
Qed.

Lemma wp_select v w (Q : () -> W -> Prop) : sees v w -> (forall w', sees v w' -> Q () w') -> wp (select d) Q w.
Proof.
  intros [Hv Hq] HQ. unfold select. apply wp_bind. unfold wp at 1, p_out. apply (wp_io_delay v); [|exact HQ].
  pose proof (law_select w) as L. rewrite Hv in L. by eapply sees_moves.
Qed.

Lemma wp_latch r x v w (Q : () -> W -> Prop) : sees v w -> phase v = Idle -> 2 <= r <= 5 ->
  (forall w', sees (mkView (push r x (latch v)) Idle (store v)) w' -> Q () w') -> wp (p_out d r x) Q w.
Proof.
  intros [Hv Hq] Hi Hr HQ. unfold wp, p_out. apply HQ. rewrite <- Hv in Hi |- *. pose proof (law_latch r x w Hr Hi) as L. by eapply sees_moves.
Qed.

Lemma wp_command c v w (Q : () -> W -> Prop) : sees v w -> phase v = Idle -> c ∈ [0x24; 0x34; 0xE7; 0xEC] ->
  (forall w', sees (command (ident (d := d)) c v) w' -> Q () w') -> wp (p_out d 7 c) Q w.
Proof.
  intros [Hv Hq] Hi Hc HQ. unfold wp, p_out. apply HQ. rewrite <- Hv in Hi |- *. pose proof (law_command c w Hi Hc) as L. by eapply sees_moves.
Qed.

Lemma wp_status v w (Q : Z -> W -> Prop) : sees v w ->
  (forall st w', sees v w' -> 0 < st < 0xFF -> has SR_BSY st = negb (bool_decide (lag w = Some 0%nat)) -> lag w' = pred <$> lag w -> (q -> has SR_ERR st = false) ->
     (lag w = Some 0%nat -> has SR_ERR st = false -> has SR_DRQ st = transferring v) -> Q st w') -> wp (p_in d 7) Q w.
Proof.
  intros [Hv Hq] HQ. unfold wp, p_in. pose proof (law_status w) as L. unfold port in L. destruct (in8 _ w) as [st w'].
  destruct L as (L1 & L2 & L3 & L4 & L5 & L6). rewrite Hv in *. apply HQ; try done; [by eapply sees_moves|auto].
Qed.

Lemma wp_register r v w (Q : Z -> W -> Prop) : sees v w -> r ∈ [4; 5] -> (forall w', sees v w' -> Q (fst (latch v r)) w') -> wp (p_in d r) Q w.
Proof.
  intros [Hv Hq] Hr HQ. unfold wp, p_in. pose proof (law_registers r w Hr) as L. unfold port in L. destruct (in8 _ w) as [x w'].
  destruct L as [-> L]. rewrite Hv in *. apply HQ. by eapply sees_moves.
Qed.

(** The driver waits until the drive is no longer busy, or gives up. *)
Lemma wp_spin_busy n : forall v w (Q : bool -> W -> Prop), sees v w ->
  (forall ok w', sees v w' -> (ok = true -> lag w' = Some 0%nat) -> (forall m, lag w = Some m -> (m < n)%nat -> ok = true) -> Q ok w') -> wp (spin_busy d n) Q w.
Proof.
  induction n as [|n IH]; intros v w Q Hs HQ; cbn [spin_busy]; [apply wp_ret, HQ; [done|done|lia]|].
  apply wp_bind. eapply wp_status; [exact Hs|]. intros st w1 Hs1 _ Hb Hlag _ _. rewrite Hb. case_bool_decide as E; cbn [negb].
  - apply wp_ret, HQ; [done| |done]. intros _. by rewrite Hlag, E.
  - eapply IH; [exact Hs1|]. intros ok w2 Hs2 Hz Hok. apply HQ; [done|done|]. intros [|m] Hm Hlt; [done|]. apply (Hok m); [by rewrite Hlag, Hm|lia].
Qed.

Lemma quick_lag w : q -> (q -> quick w) -> exists m, lag w = Some m /\ (m < Z.to_nat SPIN_IDENTIFY)%nat.
Proof. intros Hq Hw. apply law_quick. auto. Qed.

Lemma spins_enough m : (m < Z.to_nat SPIN_IDENTIFY)%nat -> (m < Z.to_nat SPIN_DATA)%nat.
Proof. intros Hm. apply Nat.lt_le_trans with (1 := Hm). apply Z2Nat.inj_le; done. Qed.

Lemma wp_wait v w (Q : result () AtaError -> W -> Prop) : sees v w ->
  (forall r w', sees v w' -> (r = Ok () /\ lag w' = Some 0%nat \/ r = Err BusyTimeout /\ ~ q) -> Q r w') -> wp (wait_not_busy d) Q w.
Proof.
  intros Hs HQ. unfold wait_not_busy. apply wp_bind. eapply wp_spin_busy; [exact Hs|]. intros ok w' Hs' Hz Hok. apply wp_ret, HQ; [done|].
  destruct ok; [left; auto|]. right. split; [done|]. intros Hq. destruct (quick_lag w Hq (see_quick _ _ Hs)) as (m & Em & Hm).
  specialize (Hok m Em (spins_enough m Hm)). discriminate Hok.
Qed.

Lemma wp_data_ready v w (Q : result () AtaError -> W -> Prop) : sees v w -> transferring v = true ->
  (forall r w', sees v w' -> (q -> r = Ok ()) -> Q r w') -> wp (data_ready d) Q w.
Proof.
  intros Hs Ht HQ. unfold data_ready. apply wp_bind. eapply wp_wait; [exact Hs|]. intros r w1 Hs1 [[-> Hz]|[-> Hq]]; [|by apply wp_ret, HQ].
  apply wp_bind. eapply wp_status; [exact Hs1|]. intros st w2 Hs2 _ _ _ He Hd. apply wp_ret, HQ; [done|]. intros Hq.
  rewrite (He Hq), (Hd Hz (He Hq)), Ht. done.
Qed.

(** ** Addressing *)

Definition addressed (lba count : Z) (v : View) : Prop := lba48 (latch v) = lba /\ count48 (latch v) = count.

Lemma wp_setup lba count v w (Q : result () AtaError -> W -> Prop) : sees v w -> phase v = Idle -> 0 <= lba -> sectors d <= 2 ^ 48 ->
  (~ (1 <= count <= 256 /\ lba + count <= sectors d) -> 0 <= count -> Q (Err BadArgs) w) ->
  (1 <= count <= 256 -> lba + count <= sectors d -> forall v' w', sees v' w' -> phase v' = Idle -> store v' = store v -> addressed lba count v' -> Q (Ok ()) w') ->
  0 <= count -> wp (setup_lba48 d lba count) Q w.
Proof.
  intros Hs Hi Hl Hsec Hbad HQ Hc. unfold setup_lba48. destruct ((count =? 0) || _ || _ || _) eqn:E.
  { apply wp_ret, Hbad; [|exact Hc]. rewrite !orb_true_iff in E. intros (A1 & A2). bool_facts. destruct E as [[[E|E]|E]|E]; lia. }
  bool_facts. apply wp_bind. eapply wp_select; [exact Hs|]. intros w0 Hs0.
  apply wp_bind; eapply wp_latch; [exact Hs0|exact Hi|lia|]; intros w1 Hs1. apply wp_bind; eapply wp_latch; [exact Hs1|done|lia|]; intros w2 Hs2.
  apply wp_bind; eapply wp_latch; [exact Hs2|done|lia|]; intros w3 Hs3. apply wp_bind; eapply wp_latch; [exact Hs3|done|lia|]; intros w4 Hs4.
  apply wp_bind; eapply wp_latch; [exact Hs4|done|lia|]; intros w5 Hs5. apply wp_bind; eapply wp_latch; [exact Hs5|done|lia|]; intros w6 Hs6.
  apply wp_bind; eapply wp_latch; [exact Hs6|done|lia|]; intros w7 Hs7. apply wp_bind; eapply wp_latch; [exact Hs7|done|lia|]; intros w8 Hs8.
  apply wp_ret. eapply HQ; [lia|lia|exact Hs8|done|done|]. split; cbn [latch].
  - transitivity (from_le_bytes [wrap 8 lba; wrap 8 (Z.shiftr lba 8); wrap 8 (Z.shiftr lba 16); wrap 8 (Z.shiftr lba 24); wrap 8 (Z.shiftr lba 32); wrap 8 (Z.shiftr lba 40)]);
      [reflexivity|apply lba_bytes; lia].
  - transitivity (let c := from_le_bytes [Z.land count 0xff; wrap 8 (Z.shiftr count 8)] in if c =? 0 then 65536 else c); [reflexivity|].
    change 0xff with (Z.ones 8). rewrite Z.land_ones by lia. unfold wrap. rewrite Z.shiftr_div_pow2 by lia. cbn [from_le_bytes].
    rewrite (Z.mod_small (count / 2 ^ 8)) by (split; [apply Z.div_pos; lia|apply Z.div_lt_upper_bound; lia]).
    pose proof (Z.div_mod count (2 ^ 8) ltac:(lia)) as Hdm. change (2 ^ 8) with 256 in *. cbv zeta. destruct (Z.eqb_spec (count mod 256 + 256 * (count / 256 + 256 * 0)) 0); lia.
Qed.

(** ** Reading *)

Lemma words_step data off : (off + 2 <= length data)%nat -> exists a b, data !! off = Some a /\ data !! (off + 1)%nat = Some b /\
  words (drop off data) = Z.lor a (Z.shiftl b 8) :: words (drop (off + 2) data).
Proof.
  intros Hl. destruct (lookup_lt_is_Some_2 data off) as [a Ha]; [lia|]. destruct (lookup_lt_is_Some_2 data (off + 1)) as [b Hb]; [lia|].
  exists a, b. do 2 (split; [done|]). rewrite (drop_S _ _ _ Ha). replace (S off) with (off + 1)%nat by lia. rewrite (drop_S _ _ _ Hb).
  by replace (S (off + 1)) with (off + 2)%nat by lia.
Qed.

Lemma put_word_copies data buf off a b : bytes_ok data -> data !! off = Some a -> data !! (off + 1)%nat = Some b -> (length data <= length buf)%nat ->
  take off buf = take off data ->
  exists buf', put_word off (Z.lor a (Z.shiftl b 8)) buf = Some buf' /\ length buf' = length buf /\ take (off + 2) buf' = take (off + 2) data /\
    drop (length data) buf' = drop (length data) buf.
Proof.
  intros Hd Ha Hb Hl Ht. pose proof (lookup_lt_Some _ _ _ Hb) as Hlt. pose proof (Forall_lookup_1 _ _ _ _ Hd Ha) as Ba. pose proof (Forall_lookup_1 _ _ _ _ Hd Hb) as Bb.
  destruct (word_bytes a b Ba Bb) as [E1 E2]. unfold put_word. rewrite (proj2 (Nat.ltb_lt _ _)), E1, E2 by lia. eexists. split; [done|].
  rewrite !length_insert. split; [done|]. split.
  - replace (off + 2)%nat with (S (S off)) by lia.
    rewrite (take_S_r _ (S off) b), (take_S_r _ off a), (take_S_r data (S off) b), (take_S_r data off a); [|exact Ha|by replace (S off) with (off + 1)%nat by lia|..].
    + rewrite !take_insert_ge by lia. by rewrite Ht.
    + rewrite list_lookup_insert_ne by lia. apply list_lookup_insert_eq. lia.
    + replace (S off) with (off + 1)%nat by lia. apply list_lookup_insert_eq. rewrite length_insert. lia.
  - rewrite !drop_insert_lt by lia. done.
Qed.

Lemma wp_in16 v w x ws (Q : Z -> W -> Prop) : sees (with_phase (sending (x :: ws)) v) w ->
  (forall w', sees (with_phase (sending ws) v) w' -> Q x w') -> wp (p_in16 d) Q w.
Proof.
  intros [Hv Hq] HQ. unfold wp, p_in16. pose proof (law_in16 w x ws) as L. rewrite Hv in L. specialize (L eq_refl).
  destruct (in16 _ w) as [y w']. destruct L as [-> L]. apply HQ. by eapply sees_moves.
Qed.

Lemma wp_read_words data n : forall off buf v w (Q : list Z -> W -> Prop), bytes_ok data -> sees (with_phase (sending (words (drop off data))) v) w ->
  (off + 2 * n <= length data)%nat -> (length data <= length buf)%nat -> take off buf = take off data ->
  (forall buf' w', sees (with_phase (sending (words (drop (off + 2 * n) data))) v) w' -> length buf' = length buf ->
     take (off + 2 * n) buf' = take (off + 2 * n) data -> drop (length data) buf' = drop (length data) buf -> Q buf' w') ->
  wp (read_words d n off buf) Q w.
Proof.
  induction n as [|n IH]; intros off buf v w Q Hd Hs Hn Hl Ht HQ; cbn [read_words].
  { apply wp_ret. replace (off + 2 * 0)%nat with off in HQ by lia. by apply HQ. }
  destruct (words_step data off) as (a & b & Ha & Hb & Ew); [lia|]. rewrite Ew in Hs. apply wp_bind. eapply wp_in16; [exact Hs|]. intros w1 Hs1.
  destruct (put_word_copies data buf off a b Hd Ha Hb Hl Ht) as (buf1 & E1 & L1 & T1 & D1). apply wp_bind. eapply wp_expect; [exact E1|].
  eapply IH; [exact Hd|exact Hs1|lia|lia|exact T1|]. intros buf2 w2 Hs2 L2 T2 D2. replace (off + 2 * S n)%nat with (off + 2 + 2 * n)%nat in HQ by lia.
  apply HQ; [done|lia|done|congruence].
Qed.

Lemma sending_transfers ws v : transferring (with_phase (sending ws) v) = negb (bool_decide (ws = [])).
Proof. by destruct ws. Qed.

(** Whole sectors, one wait each. *)
Lemma wp_read_loop data n : forall s buf v w (Q : result () AtaError * list Z -> W -> Prop), bytes_ok data -> length data = ((s + n) * 512)%nat ->
  (length data <= length buf)%nat -> sees (with_phase (sending (words (drop (s * 512) data))) v) w -> take (s * 512) buf = take (s * 512) data ->
  (forall r buf' v' w', sees v' w' -> store v' = store v -> length buf' = length buf -> drop (length data) buf' = drop (length data) buf -> (q -> r = Ok ()) ->
     (r = Ok () -> phase v' = Idle /\ take (length data) buf' = data) -> Q (r, buf') w') -> wp (read_loop d n s buf) Q w.
Proof.
  induction n as [|n IH]; intros s buf v w Q Hd Hl Hb Hs Ht HQ; cbn [read_loop].
  { apply wp_ret. replace (s * 512)%nat with (length data) in * by lia. rewrite drop_all in Hs. eapply HQ; [exact Hs|done..|]. intros _. split; [done|].
    rewrite Ht. by apply take_ge. }
  apply wp_bind. eapply wp_data_ready; [exact Hs| |].
  { rewrite sending_transfers. destruct (words_step data (s * 512)) as (a & b & _ & _ & ->); [lia|]. done. }
  intros r w1 Hs1 Hr. destruct r as [[]|e].
  - apply wp_bind. eapply (wp_read_words data); [exact Hd|exact Hs1|lia|lia|exact Ht|]. intros buf2 w2 Hs2 L2 T2 D2.
    apply wp_bind. eapply wp_io_delay; [exact Hs2|]. intros w3 Hs3. replace (s * 512 + 2 * 256)%nat with (S s * 512)%nat in * by lia.
    eapply (IH (S s)); [exact Hd|lia|lia|exact Hs3|exact T2|]. intros r buf' v' w' H1 H2 H3 H4 H5 H6. eapply HQ; [exact H1|done|lia|congruence|done|done].
  - apply wp_ret. eapply HQ; [exact Hs1|done..]. 
Qed.

(** A request inside the drive and the buffer. *)
Definition in_range_of (lba count : Z) (len : nat) : Prop := 1 <= count <= 256 /\ lba + count <= sectors d /\ (Z.to_nat count * 512 <= len)%nat.

Lemma wp_drive_read lba count buf v w (Q : result () AtaError * list Z -> W -> Prop) : sees v w -> phase v = Idle -> (forall k, sector_ok (store v k)) ->
  0 <= lba -> 0 <= count -> sectors d <= 2 ^ 48 ->
  (~ in_range_of lba count (length buf) -> Q (Err BadArgs, buf) w) ->
  (in_range_of lba count (length buf) -> forall r buf' v' w', sees v' w' -> store v' = store v -> length buf' = length buf -> (q -> r = Ok ()) ->
     (r = Ok () -> phase v' = Idle /\ buf' = disk_read (store v) lba count ++ drop (Z.to_nat count * 512) buf) -> Q (r, buf') w') ->
  wp (drive_read d lba count buf) Q w.
Proof.
  intros Hs Hi Hst Hl Hc Hsec Hbad HQ. unfold drive_read. destruct (Nat.ltb_spec (length buf) (Z.to_nat count * 512)) as [Hlt|Hge].
  { apply wp_ret, Hbad. intros (_ & _ & Hx). lia. }
  apply wp_bind. eapply wp_setup; [exact Hs|exact Hi|exact Hl|exact Hsec| | |exact Hc].
  { intros Hno _. apply wp_ret, Hbad. intros (A1 & A2 & _). by apply Hno. }
  intros Hcnt Hend v1 w1 Hs1 Hi1 Hst1 [Ha1 Ha2]. apply wp_bind. eapply wp_command; [exact Hs1|exact Hi1|set_solver|]. intros w2 Hs2.
  change (command _ 0x24 v1) with (with_phase (sending (words (disk_read (store v1) (lba48 (latch v1)) (count48 (latch v1))))) v1) in Hs2. rewrite Ha1, Ha2, Hst1 in Hs2.
  set (data := disk_read (store v) lba count) in *. assert (Hd : length data = (Z.to_nat count * 512)%nat) by (unfold data; rewrite length_disk_read by (done || lia); done).
  eapply (wp_read_loop data (Z.to_nat count) 0 buf v1); [by apply disk_read_ok|lia|lia|exact Hs2|done|].
  intros r buf' v' w' Hs' Hst' Hlen Hdrop Hq Hr. apply (HQ ltac:(done) r buf' v' w' Hs'); [by rewrite Hst'|done|done|].
  intros Hok. destruct (Hr Hok) as [Hi' Ht]. split; [done|]. rewrite <- Hd, <- Hdrop, <- Ht at 1. rewrite Hd. symmetry. rewrite <- Hd. rewrite Ht at 1. rewrite <- Ht at 1. apply take_drop.
Qed.

(** ** Writing *)

Definition receiving (lba : Z) (n : nat) : Phase := match n with O => Idle | _ => Receiving lba n [] end.

Lemma slice_pair (buf : list Z) off k : (off + 2 * S k <= length buf)%nat -> exists a b, buf !! off = Some a /\ buf !! (off + 1)%nat = Some b /\
  slice off (2 * S k) buf = a :: b :: slice (off + 2) (2 * k) buf.
Proof.
  intros Hl. destruct (lookup_lt_is_Some_2 buf off) as [a Ha]; [lia|]. destruct (lookup_lt_is_Some_2 buf (off + 1)) as [b Hb]; [lia|].
  exists a, b. do 2 (split; [done|]). unfold slice. rewrite (drop_S _ _ _ Ha). replace (S off) with (off + 1)%nat by lia. rewrite (drop_S _ _ _ Hb).
  replace (S (off + 1)) with (off + 2)%nat by lia. by replace (2 * S k)%nat with (S (S (2 * k))) by lia.
Qed.

Lemma wp_out16 v w x (Q : () -> W -> Prop) : sees v w -> phase v <> Idle -> (forall w', sees (receive x v) w' -> Q () w') -> wp (p_out16 d x) Q w.
Proof.
  intros [Hv Hq] Hp HQ. unfold wp, p_out16. apply HQ. rewrite <- Hv in Hp |- *. pose proof (law_out16 w x Hp) as L. by eapply sees_moves.
Qed.

Lemma wp_write_words buf lt lba n st k : forall off got w (Q : () -> W -> Prop), (length got + S k = 256)%nat -> (off + 2 * S k <= length buf)%nat ->
  sees (mkView lt (Receiving lba (S n) got) st) w ->
  (forall w', sees (mkView lt (receiving (lba + 1) n) (fun x => if x =? lba then bytes_of (got ++ words (slice off (2 * S k) buf)) else st x)) w' -> Q () w') ->
  wp (write_words d (S k) off buf) Q w.
Proof.
  induction k as [|k IH]; intros off got w Q Hg Hb Hs HQ; destruct (slice_pair buf off _ Hb) as (a & b & Ha & Hb' & Es); rewrite Es in HQ; cbn [words] in HQ;
    cbn [write_words]; (apply wp_bind; eapply wp_expect; [unfold get_word; rewrite Ha, Hb'; reflexivity|]);
    (apply wp_bind; eapply wp_out16; [exact Hs|done|]); intros w1 Hs1; unfold receive in Hs1; cbn [phase latch store] in Hs1; rewrite length_app in Hs1; cbn [length] in Hs1.
  - rewrite (proj2 (Nat.eqb_eq _ _)) in Hs1 by lia. apply wp_ret, HQ. exact Hs1.
  - rewrite (proj2 (Nat.eqb_neq _ _)) in Hs1 by lia. apply (IH (off + 2)%nat (got ++ [Z.lor a (Z.shiftl b 8)]) w1); [rewrite length_app; cbn [length]; lia|lia|exact Hs1|].
    intros w2 Hs2. apply HQ. by rewrite <- app_assoc in Hs2.
Qed.

Lemma wp_write_loop buf lt lba0 n : bytes_ok buf -> forall s st w (Q : result () AtaError -> W -> Prop), ((s + n) * 512 <= length buf)%nat ->
  sees (mkView lt (receiving (lba0 + Z.of_nat s) n) st) w ->
  (forall r v' w', sees v' w' -> same_except (within (lba0 + Z.of_nat s) (Z.of_nat n)) st (store v') -> (q -> r = Ok ()) ->
     (r = Ok () -> phase v' = Idle /\ forall k, within (lba0 + Z.of_nat s) (Z.of_nat n) k -> store v' k = slice (Z.to_nat (k - lba0) * 512) 512 buf) -> Q r w') ->
  wp (write_loop d n s buf) Q w.
Proof.
  intros Hbuf. induction n as [|n IH]; intros s st w Q Hb Hs HQ; cbn [write_loop].
  { apply wp_ret. eapply HQ; [exact Hs|done|done|]. intros _. split; [done|]. unfold within. lia. }
  apply wp_bind. eapply wp_data_ready; [exact Hs|done|]. intros r w1 Hs1 Hr. destruct r as [[]|e].
  2:{ apply wp_ret. eapply HQ; [exact Hs1|done|done|done]. }
  apply wp_bind. apply (wp_write_words buf lt (lba0 + Z.of_nat s) n st 255 (s * 512) [] w1); [done|lia|exact Hs1|]. intros w2 Hs2.
  apply wp_bind. eapply wp_io_delay; [exact Hs2|]. intros w3 Hs3. cbn [app] in Hs3. change (2 * 256)%nat with 512%nat in Hs3.
  rewrite (bytes_of_words (slice (s * 512) 512 buf) (Forall_take _ _ _ (Forall_drop _ _ _ Hbuf)) 256) in Hs3 by (rewrite length_slice; lia).
  replace (lba0 + Z.of_nat s + 1) with (lba0 + Z.of_nat (S s)) in Hs3 by lia. eapply (IH (S s)); [lia|exact Hs3|].
  intros r v' w' H1 H2 H3 H4. eapply HQ; [exact H1| |exact H3|].
  - intros k Hk. rewrite H2 by (unfold within in *; lia). cbv beta. rewrite (proj2 (Z.eqb_neq _ _)); [done|]. unfold within in Hk. lia.
  - intros Hok. destruct (H4 Hok) as [Hi Hw]. split; [done|]. intros k Hk. destruct (Z.eq_dec k (lba0 + Z.of_nat s)) as [->|Hne].
    + rewrite H2 by (unfold within; lia). cbv beta. rewrite Z.eqb_refl. do 2 f_equal. lia.
    + apply Hw. unfold within in *. lia.
Qed.

Lemma wp_flush v w (Q : result () AtaError -> W -> Prop) : sees v w -> phase v = Idle -> (forall r w', sees v w' -> (q -> r = Ok ()) -> Q r w') -> wp (flush d) Q w.
Proof.
  intros Hs Hi HQ. unfold flush. apply wp_bind. eapply wp_command; [exact Hs|exact Hi|set_solver|]. intros w1 Hs1. change (command _ 0xE7 v) with v in Hs1.
  apply wp_bind. eapply wp_wait; [exact Hs1|]. intros r w2 Hs2 [[-> _]|[-> Hq]]; [|by apply wp_ret, HQ].
  apply wp_bind. eapply wp_status; [exact Hs2|]. intros st w3 Hs3 _ _ _ He _. apply wp_ret, HQ; [done|]. intros Hq. by rewrite (He Hq).
Qed.

Lemma wp_drive_write lba count buf v w (Q : result () AtaError -> W -> Prop) : sees v w -> phase v = Idle -> bytes_ok buf ->
  0 <= lba -> 0 <= count -> sectors d <= 2 ^ 48 ->
  (~ in_range_of lba count (length buf) -> Q (Err BadArgs) w) ->
  (in_range_of lba count (length buf) -> forall r v' w', sees v' w' -> same_except (within lba count) (store v) (store v') -> (q -> r = Ok ()) ->
     (r = Ok () -> phase v' = Idle /\ forall k, within lba count k -> store v' k = slice (Z.to_nat (k - lba) * 512) 512 buf) -> Q r w') ->
  wp (drive_write d lba count buf) Q w.
Proof.
  intros Hs Hi Hbuf Hl Hc Hsec Hbad HQ. unfold drive_write. destruct (Nat.ltb_spec (length buf) (Z.to_nat count * 512)) as [Hlt|Hge].
  { apply wp_ret, Hbad. intros (_ & _ & Hx). lia. }
  apply wp_bind. eapply wp_setup; [exact Hs|exact Hi|exact Hl|exact Hsec| | |exact Hc].
  { intros Hno _. apply wp_ret, Hbad. intros (A1 & A2 & _). by apply Hno. }
  intros Hcnt Hend v1 w1 Hs1 Hi1 Hst1 [Ha1 Ha2]. apply wp_bind. eapply wp_command; [exact Hs1|exact Hi1|set_solver|]. intros w2 Hs2.
  change (command _ 0x34 v1) with (with_phase (Receiving (lba48 (latch v1)) (Z.to_nat (count48 (latch v1))) []) v1) in Hs2. rewrite Ha1, Ha2 in Hs2.
  unfold with_phase in Hs2. rewrite Hst1 in Hs2. specialize (HQ (conj Hcnt (conj Hend Hge))).
  apply wp_bind. apply (wp_write_loop buf (latch v1) lba (Z.to_nat count) Hbuf 0 (store v) w2); [lia| |].
  { replace (receiving (lba + Z.of_nat 0) (Z.to_nat count)) with (Receiving lba (Z.to_nat count) []); [exact Hs2|].
    rewrite Z.add_0_r. destruct (Z.to_nat count) eqn:E; [lia|done]. }
  rewrite Z.add_0_r, Z2Nat.id by lia. intros r v' w' H1 H2 H3 H4. destruct r as [[]|e].
  - destruct (H4 eq_refl) as [Hi' Hw]. eapply wp_flush; [exact H1|exact Hi'|]. intros r w3 Hs3 Hr. by eapply HQ.
  - apply wp_ret. eapply HQ; [exact H1|exact H2|exact H3|done].
Qed.

(** ** Probing *)

Lemma wp_read_id ws : forall v w (Q : list Z -> W -> Prop), sees (with_phase (sending ws) v) w ->
  (forall w', sees (with_phase Idle v) w' -> Q ws w') -> wp (read_id d (length ws)) Q w.
Proof.
  induction ws as [|x ws IH]; intros v w Q Hs HQ; cbn [length read_id]; [by apply wp_ret, HQ|].
  apply wp_bind. eapply wp_in16; [exact Hs|]. intros w1 Hs1. apply wp_bind. eapply IH; [exact Hs1|]. intros w2 Hs2. by apply wp_ret, HQ.
Qed.

(** Polling and identification depend on the ports alone. *)
Lemma spin_same d' n w : io d' = io d -> spin_busy d' n w = spin_busy d n w.
Proof.
  intros E. revert w. induction n as [|n IH]; intros w; [done|]. cbn [spin_busy]. unfold mbind, prog_bind, p_in. rewrite E.
  destruct (in8 _ w) as [st w']. destruct (has SR_BSY st); [apply IH|done].
Qed.

Lemma id_same d' n w : io d' = io d -> read_id d' n w = read_id d n w.
Proof.
  intros E. revert w. induction n as [|n IH]; intros w; [done|]. cbn [read_id]. unfold mbind, prog_bind, p_in16. rewrite E.
  destruct (in16 _ w) as [x w']. by rewrite IH.
Qed.

Definition identified : Drive := mkDrive (io d) (ctrl d) (slave d) (id_sectors (ident (d := d))).

Lemma wp_identify v w (Q : option Drive -> W -> Prop) : sees v w -> phase v = Idle ->
  (forall r v' w', sees v' w' -> store v' = store v -> (r = Some identified /\ phase v' = Idle \/ r = None /\ ~ q) -> Q r w') ->
  wp (identify (io d) (ctrl d) (slave d)) Q w.
Proof.
  intros Hs Hi HQ. unfold identify. cbv zeta. set (d0 := mkDrive (io d) (ctrl d) (slave d) 0).
  change (p_in d0) with (p_in d). change (p_out d0) with (p_out d). change (select d0) with (select d).
  apply wp_bind. apply (wp_select v); [exact Hs|]. intros w0 Hs0.
  apply wp_bind. apply (wp_latch 2 0 v); [exact Hs0|exact Hi|lia|]. intros w1 Hs1. apply wp_bind. eapply (wp_latch 3 0); [exact Hs1|done|lia|]. intros w2 Hs2.
  apply wp_bind. eapply (wp_latch 4 0); [exact Hs2|done|lia|]. intros w3 Hs3. apply wp_bind. eapply (wp_latch 5 0); [exact Hs3|done|lia|]. intros w4 Hs4.
  apply wp_bind. eapply (wp_command 0xEC); [exact Hs4|done|set_solver|]. intros w5 Hs5.
  set (v5 := command _ _ _) in Hs5. assert (E5 : v5 = with_phase (sending (ident (d := d))) v5) by reflexivity. assert (Est : store v5 = store v) by reflexivity.
  assert (E4 : fst (latch v5 4) = 0) by reflexivity. clearbody v5. rewrite E5 in Hs5.
  apply wp_bind. eapply wp_status; [exact Hs5|]. intros st w6 Hs6 Hst _ _ _ _. rewrite !(proj2 (Z.eqb_neq _ _)) by lia. cbn [orb].
  apply wp_bind. apply (wp_register 4 (with_phase (sending (ident (d := d))) v5)); [exact Hs6|set_solver|]. intros w7 Hs7.
  apply wp_bind. apply (wp_register 5 (with_phase (sending (ident (d := d))) v5)); [exact Hs7|set_solver|]. intros w8 Hs8. cbn [latch with_phase]. rewrite E4. cbn [Z.eqb andb orb].
  apply wp_bind. unfold wp at 1. rewrite (spin_same d0) by done.
  apply (wp_spin_busy _ _ _ _ Hs8). intros ok w9 Hs9 Hz Hok. destruct ok; cbn [negb]; cycle 1.
  { apply wp_ret. eapply HQ; [exact Hs9|done|]. right. split; [done|]. intros Hq. destruct (quick_lag w8 Hq (see_quick _ _ Hs8)) as (m & Em & Hm). by specialize (Hok m Em Hm). }
  apply wp_bind. eapply wp_status; [exact Hs9|]. intros st1 w10 Hs10 _ _ Hlag He _. destruct (has SR_ERR st1) eqn:Ee.
  { apply wp_ret. eapply HQ; [exact Hs10|done|]. right. split; [done|]. intros Hq. by specialize (He Hq). }
  apply wp_bind. eapply wp_status; [exact Hs10|]. intros st2 w11 Hs11 _ _ _ He2 Hd. destruct (has SR_DRQ st2) eqn:Ed; cbn [negb]; cycle 1.
  { apply wp_ret. eapply HQ; [exact Hs11|done|]. right. split; [done|]. intros Hq. rewrite sending_transfers, bool_decide_eq_false_2 in Hd.
    - specialize (Hd ltac:(by rewrite Hlag, (Hz eq_refl)) ltac:(auto)). discriminate Hd.
    - intros El. pose proof law_ident as Hl. by rewrite El in Hl. }
  apply wp_bind. unfold wp at 1. rewrite (id_same d0) by done. rewrite <- law_ident. apply (wp_read_id _ v5); [exact Hs11|]. intros w12 Hs12. apply wp_ret. eapply HQ; [exact Hs12|done|]. by left.
Qed.

End device.

(** ** What the driver promises *)

(** Whatever the ports answer, nothing is indexed out of range and every
    operation returns. *)
Section any_ports.
Context {W : Type} `{Ports W} (d : Drive).
Implicit Types (w : W).

Lemma in_any off (Q : Z -> W -> Prop) w : (forall v w', Q v w') -> wp (p_in d off) Q w.
Proof. intros HQ. unfold wp, p_in. destruct (in8 _ w). apply HQ. Qed.

Lemma in16_any (Q : Z -> W -> Prop) w : (forall v w', Q v w') -> wp (p_in16 d) Q w.
Proof. intros HQ. unfold wp, p_in16. destruct (in16 _ w). apply HQ. Qed.

Lemma ctrl_any (Q : Z -> W -> Prop) w : (forall v w', Q v w') -> wp (p_in_at_ctrl d) Q w.
Proof. intros HQ. unfold wp, p_in_at_ctrl. destruct (in8 _ w). apply HQ. Qed.

Lemma out_any off v (Q : () -> W -> Prop) w : (forall w', Q () w') -> wp (p_out d off v) Q w.
Proof. intros HQ. apply HQ. Qed.

Lemma out16_any v (Q : () -> W -> Prop) w : (forall w', Q () w') -> wp (p_out16 d v) Q w.
Proof. intros HQ. apply HQ. Qed.

Lemma delay_any (Q : () -> W -> Prop) w : (forall w', Q () w') -> wp (io_delay d) Q w.
Proof. intros HQ. unfold io_delay. do 4 (apply wp_bind, ctrl_any; intros _ ?). by apply wp_ret. Qed.

Lemma select_any (Q : () -> W -> Prop) w : (forall w', Q () w') -> wp (select d) Q w.
Proof. intros HQ. apply wp_bind, out_any. intros w'. by apply delay_any. Qed.

Lemma spin_any n : forall (Q : bool -> W -> Prop) w, (forall ok w', Q ok w') -> wp (spin_busy d n) Q w.
Proof.
  induction n as [|n IH]; intros Q w HQ; cbn [spin_busy]; [by apply wp_ret|]. apply wp_bind, in_any. intros st w'. destruct (has _ _); [by apply IH|by apply wp_ret].
Qed.

Lemma wait_any (Q : result () AtaError -> W -> Prop) w : (forall r w', Q r w') -> wp (wait_not_busy d) Q w.
Proof. intros HQ. apply wp_bind, spin_any. intros ok w'. by apply wp_ret. Qed.

Lemma ready_any (Q : result () AtaError -> W -> Prop) w : (forall r w', Q r w') -> wp (data_ready d) Q w.
Proof. intros HQ. apply wp_bind, wait_any. intros [u|e] w'; [|by apply wp_ret]. apply wp_bind, in_any. intros st w2. by apply wp_ret. Qed.

Lemma setup_any lba count (Q : result () AtaError -> W -> Prop) w : (forall r w', Q r w') -> wp (setup_lba48 d lba count) Q w.
Proof.
  intros HQ. unfold setup_lba48. destruct (_ || _); [by apply wp_ret|]. apply wp_bind, select_any. intros w0.
  do 8 (apply wp_bind, out_any; intros ?). by apply wp_ret.
Qed.

Lemma read_words_any n : forall off buf (Q : list Z -> W -> Prop) w, (off + 2 * n <= length buf)%nat -> (forall buf' w', length buf' = length buf -> Q buf' w') ->
  wp (read_words d n off buf) Q w.
Proof.
  induction n as [|n IH]; intros off buf Q w Hl HQ; cbn [read_words]; [by apply wp_ret, HQ|]. apply wp_bind, in16_any. intros v w'.
  apply wp_bind. unfold put_word. rewrite (proj2 (Nat.ltb_lt _ _)) by lia. eapply wp_expect; [reflexivity|]. apply IH; rewrite !length_insert; [lia|auto].
Qed.

Lemma write_words_any n buf : forall off (Q : () -> W -> Prop) w, (off + 2 * n <= length buf)%nat -> (forall w', Q () w') -> wp (write_words d n off buf) Q w.
Proof.
  induction n as [|n IH]; intros off Q w Hl HQ; cbn [write_words]; [by apply wp_ret|]. apply wp_bind.
  destruct (lookup_lt_is_Some_2 buf off) as [a Ha]; [lia|]. destruct (lookup_lt_is_Some_2 buf (off + 1)) as [b Hb]; [lia|].
  eapply wp_expect; [unfold get_word; rewrite Ha, Hb; reflexivity|]. apply wp_bind, out16_any. intros w'. apply IH; [lia|done].
Qed.

Lemma read_loop_any n : forall s buf (Q : result () AtaError * list Z -> W -> Prop) w, ((s + n) * 512 <= length buf)%nat ->
  (forall r buf' w', length buf' = length buf -> Q (r, buf') w') -> wp (read_loop d n s buf) Q w.
Proof.
  induction n as [|n IH]; intros s buf Q w Hl HQ; cbn [read_loop]; [by apply wp_ret, HQ|]. apply wp_bind, ready_any. intros [u|e] w1; [|by apply wp_ret, HQ].
  apply wp_bind, read_words_any; [lia|]. intros buf' w2 Hb. apply wp_bind, delay_any. intros w3. apply IH; [lia|]. intros r buf2 w4 Hb2. apply HQ. congruence.
Qed.

Lemma write_loop_any n buf : forall s (Q : result () AtaError -> W -> Prop) w, ((s + n) * 512 <= length buf)%nat -> (forall r w', Q r w') -> wp (write_loop d n s buf) Q w.
Proof.
  induction n as [|n IH]; intros s Q w Hl HQ; cbn [write_loop]; [by apply wp_ret|]. apply wp_bind, ready_any. intros [u|e] w1; [|by apply wp_ret].
  apply wp_bind, write_words_any; [lia|]. intros w2. apply wp_bind, delay_any. intros w3. apply IH; [lia|done].
Qed.

Lemma driver_total lba count buf w :
  (exists r buf' w', drive_read d lba count buf w = Some ((r, buf'), w') /\ length buf' = length buf) /\ (exists r w', drive_write d lba count buf w = Some (r, w')).
Proof.
  split.
  - assert (Hw : wp (drive_read d lba count buf) (fun rb _ => length (snd rb) = length buf) w).
    { unfold drive_read. destruct (Nat.ltb_spec (length buf) (Z.to_nat count * 512)); [by apply wp_ret|]. apply wp_bind, setup_any. intros [u|e] w1; [|by apply wp_ret].
      apply wp_bind, out_any. intros w2. apply read_loop_any; [lia|]. by intros r buf' w3 Hb. }
    apply wp_run in Hw as ([r buf'] & w' & E & Hb). by exists r, buf', w'.
  - assert (Hw : wp (drive_write d lba count buf) (fun _ _ => True) w).
    { unfold drive_write. destruct (Nat.ltb_spec (length buf) (Z.to_nat count * 512)); [by apply wp_ret|]. apply wp_bind, setup_any. intros [u|e] w1; [|by apply wp_ret].
      apply wp_bind, out_any. intros w2. apply wp_bind, write_loop_any; [lia|]. intros [u2|e] w3; [|by apply wp_ret].
      unfold flush. apply wp_bind, out_any. intros w4. apply wp_bind, wait_any. intros [u3|e] w5; [|by apply wp_ret].
      apply wp_bind, in_any. intros st w6. by apply wp_ret. }
    apply wp_run in Hw as (r & w' & E & _). by exists r, w'.
Qed.
End any_ports.

(** C21. The disk driver refines a disk: on a drive that follows the standard -
    busy for a while, failing when it likes - a read or a write of up to 256
    sectors returns.  A request outside the drive or the buffer is refused
    before a port is touched.  A read never changes a sector, and when it
    succeeds the buffer holds exactly the sectors asked for and its own tail; a
    write never changes a sector outside the request, and when it succeeds
    every sector of the request holds its part of the buffer.  Neither fails
    when the drive is sound. *)
Theorem drive_refines_disk {W} (d : Drive) `{AtaDevice W d} (w : W) lba count buf :
  sectors d <= 2 ^ 48 -> phase (view w) = Idle -> (forall k, sector_ok (store (view w) k)) -> bytes_ok buf -> 0 <= lba -> 0 <= count ->
  let D := store (view w) in
  (exists r buf' w', drive_read d lba count buf w = Some ((r, buf'), w') /\ store (view w') = D /\ length buf' = length buf /\
     (~ in_range_of d lba count (length buf) -> r = Err BadArgs /\ buf' = buf /\ w' = w) /\
     (r = Ok () -> phase (view w') = Idle /\ buf' = disk_read D lba count ++ drop (Z.to_nat count * 512) buf) /\
     (in_range_of d lba count (length buf) -> quick w -> r = Ok () /\ quick w')) /\
  (exists r w', drive_write d lba count buf w = Some (r, w') /\ same_except (within lba count) D (store (view w')) /\
     (~ in_range_of d lba count (length buf) -> r = Err BadArgs /\ w' = w) /\
     (r = Ok () -> phase (view w') = Idle /\ forall k, within lba count k -> store (view w') k = slice (Z.to_nat (k - lba) * 512) 512 buf) /\
     (in_range_of d lba count (length buf) -> quick w -> r = Ok () /\ quick w')).
Proof.
  intros Hsec Hi Hst Hb Hl Hc D. assert (Hs : sees (q := quick w) d (view w) w) by by split. split.
  - set (Q := fun (rb : result () AtaError * list Z) (w' : W) => store (view w') = D /\ length (snd rb) = length buf /\
      (~ in_range_of d lba count (length buf) -> fst rb = Err BadArgs /\ snd rb = buf /\ w' = w) /\
      (fst rb = Ok () -> phase (view w') = Idle /\ snd rb = disk_read D lba count ++ drop (Z.to_nat count * 512) buf) /\
      (in_range_of d lba count (length buf) -> quick w -> fst rb = Ok () /\ quick w')).
    assert (Hw : wp (drive_read d lba count buf) Q w).
    { apply (wp_drive_read d lba count buf (view w) w Q Hs Hi Hst Hl Hc Hsec); [intros Hno|intros Hin r buf' v' w' [Hv Hk] Hsame Hlen Hq Hr]; unfold Q; cbn [fst snd].
      - split; [done|]. split; [done|]. split; [done|]. split; [discriminate|]. intros Hin. by destruct Hno.
      - rewrite Hv. split; [exact Hsame|]. split; [exact Hlen|]. split; [done|]. split; [exact Hr|]. intros _ Hqw. split; [by apply Hq|by apply Hk]. }
    apply wp_run in Hw as ([r buf'] & w' & E & HQ). exists r, buf', w'. split; [exact E|exact HQ].
  - set (Q := fun (r : result () AtaError) (w' : W) => same_except (within lba count) D (store (view w')) /\
      (~ in_range_of d lba count (length buf) -> r = Err BadArgs /\ w' = w) /\
      (r = Ok () -> phase (view w') = Idle /\ forall k, within lba count k -> store (view w') k = slice (Z.to_nat (k - lba) * 512) 512 buf) /\
      (in_range_of d lba count (length buf) -> quick w -> r = Ok () /\ quick w')).
    assert (Hw : wp (drive_write d lba count buf) Q w).
    { apply (wp_drive_write d lba count buf (view w) w Q Hs Hi Hb Hl Hc Hsec); [intros Hno|intros Hin r v' w' [Hv Hk] Hsame Hq Hr]; unfold Q.
      - split; [apply same_except_refl|]. split; [done|]. split; [discriminate|]. intros Hin. by destruct Hno.
      - rewrite Hv. split; [exact Hsame|]. split; [done|]. split; [exact Hr|]. intros _ Hqw. split; [by apply Hq|by apply Hk]. }
    apply wp_run in Hw as (r & w' & E & HQ). exists r, w'. split; [exact E|exact HQ].
Qed.

(** Probing a position with a sound ATA drive finds it, with the capacity its
    IDENTIFY data give; no sector changes. *)
Lemma identify_finds {W} (d : Drive) `{AtaDevice W d} (w : W) : phase (view w) = Idle ->
  exists r w', identify (io d) (ctrl d) (slave d) w = Some (r, w') /\ store (view w') = store (view w) /\ (r = None \/ r = Some (identified d)) /\
    (quick w -> r = Some (identified d) /\ phase (view w') = Idle).
Proof.
  intros Hi. assert (Hs : sees (q := quick w) d (view w) w) by by split.
  set (Q := fun r (w' : W) => store (view w') = store (view w) /\ (r = None \/ r = Some (identified d)) /\ (quick w -> r = Some (identified d) /\ phase (view w') = Idle)).
  assert (Hw : wp (identify (io d) (ctrl d) (slave d)) Q w).
  { apply (wp_identify d (view w) w Q Hs Hi). intros r v' w' [Hv _] Hst Hr. unfold Q. rewrite Hv. split; [exact Hst|].
    destruct Hr as [[-> Hp]|[-> Hq]]; [by split; [right|]|]. split; [by left|]. intros Hqw. by destruct Hq. }
  apply wp_run in Hw as (r & w' & E & HQ). exists r, w'. split; [exact E|exact HQ].
Qed.

(** ** A drive *)

Module DriveSim.

Record Device := mkDevice { dv_view : View; dv_lag : nat; dv_delay : nat; dv_faulty : bool }.

Definition drive0 : Drive := mkDrive 0x1F0 0x3F6 false 1000.

(** A drive of a thousand sectors. *)
Definition ident0 : list Z := <[100%nat := 1000]> (replicate 256 0).

Definition status (m : Device) : Z := Z.lor 0x40 (Z.lor (if dv_faulty m then SR_ERR else 0) (if transferring (dv_view m) then SR_DRQ else 0)).

Definition dv_in8 (p : Z) (m : Device) : Z * Device :=
  if p =? 0x1F7 then
    match dv_lag m with
    | S n => (0xC0, mkDevice (dv_view m) n (dv_delay m) (dv_faulty m))
    | O => (status m, m)
    end
  else (fst (latch (dv_view m) (p - 0x1F0)), m).

(** The new state is busy for a while. *)
Definition settle (v : View) (m : Device) : Device := mkDevice v (dv_delay m) (dv_delay m) (dv_faulty m).

Definition dv_out8 (p x : Z) (m : Device) : Device :=
  match phase (dv_view m) with
  | Idle =>
      if p =? 0x1F7 then settle (command ident0 x (dv_view m)) m
      else if (0x1F2 <=? p) && (p <=? 0x1F5) then mkDevice (mkView (push (p - 0x1F0) x (latch (dv_view m))) Idle (store (dv_view m))) (dv_lag m) (dv_delay m) (dv_faulty m)
      else m
  | _ => m
  end.

Definition dv_in16 (p : Z) (m : Device) : Z * Device :=
  match phase (dv_view m) with Sending (x :: ws) => (x, settle (with_phase (sending ws) (dv_view m)) m) | _ => (0xFFFF, m) end.
Definition dv_out16 (p x : Z) (m : Device) : Device := settle (receive x (dv_view m)) m.

Definition dv_quick (m : Device) : Prop :=
  dv_faulty m = false /\ (dv_lag m < Z.to_nat SPIN_IDENTIFY)%nat /\ (dv_delay m < Z.to_nat SPIN_IDENTIFY)%nat.

End DriveSim.

Import DriveSim.

#[global] Instance device_ports : Ports Device := {| in8 := dv_in8; out8 := dv_out8; in16 := dv_in16; out16 := dv_out16 |}.

#[global] Instance device_drive : AtaDevice Device drive0.
Proof.
  refine {| view := dv_view; quick := dv_quick; lag := fun m => Some (dv_lag m); ident := ident0 |}.
  - reflexivity.
  - intros m (_ & Hl & _). by exists (dv_lag m).
  - intros m. split; done.
  - intros m. cbn. unfold dv_out8. destruct (phase (dv_view m)); split; done.
  - intros r x m Hr Hi. cbn. unfold dv_out8. cbn in Hi. rewrite Hi.
    replace (port drive0 r) with (0x1F0 + r) by (unfold port; rewrite wrap_small; [done|red; cbn; lia]).
    rewrite (proj2 (Z.eqb_neq _ _)), !(proj2 (Z.leb_le _ _)) by lia. cbn [andb]. replace (0x1F0 + r - 0x1F0) with r by lia. split; done.
  - intros c m Hi _. cbn. unfold dv_out8. cbn in Hi. rewrite Hi. change (port drive0 7 =? 0x1F7) with true. split; [done|]. intros (H1 & H2 & H3). by split.
  - intros m. cbn. unfold dv_in8. change (port drive0 7 =? 0x1F7) with true. destruct (dv_lag m) as [|n] eqn:El.
    + split; [split; done|]. assert (Hst : dv_faulty m = false -> has SR_ERR (status m) = false) by (unfold status; intros ->; by destruct (transferring _)).
      split; [unfold status; destruct (dv_faulty m), (transferring _); vm_compute; split; congruence|].
      split; [unfold status; by destruct (dv_faulty m), (transferring _)|]. split; [by rewrite El|]. split; [intros (Hf & _); auto|].
      intros _. unfold status. by destruct (dv_faulty m), (transferring _).
    + split; [split; [done|]; intros (H1 & H2 & H3); split; [done|]; cbn; split; [rewrite El in H2; lia|done]|].
      split; [done|]. split; [done|]. split; [done|]. split; [done|]. intros [=].
  - intros r m Hr. cbn. unfold dv_in8. apply elem_of_cons in Hr as [->|Hr]; [|apply list_elem_of_singleton in Hr as ->]; by split; [|split].
  - intros m x ws Hp. cbn. unfold dv_in16. cbn in Hp. rewrite Hp. split; [done|]. split; [done|]. intros (H1 & H2 & H3). by split.
  - intros m x Hp. cbn. split; [done|]. intros (H1 & H2 & H3). by split.
Defined.

(** A sound drive that says busy three times after every access. *)
Definition calm_drive : Device := mkDevice (mkView (fun _ => (0, 0)) Idle (fun _ => replicate 512 7)) 2 3 false.

Lemma calm_drive_quick : quick calm_drive.
Proof. split; [done|]. split; [apply (Z2Nat.inj_lt 2)|apply (Z2Nat.inj_lt 3)]; done. Qed.

Lemma drive_refines_disk_witness : in_range_of drive0 3 1 (length (replicate 512 9)) /\
  let D := store (view calm_drive) in
  (exists r buf' w', drive_read drive0 3 1 (replicate 512 9) calm_drive = Some ((r, buf'), w') /\ store (view w') = D /\ length buf' = length (replicate 512 9) /\
     (~ in_range_of drive0 3 1 (length (replicate 512 9)) -> r = Err BadArgs /\ buf' = replicate 512 9 /\ w' = calm_drive) /\
     (r = Ok () -> phase (view w') = Idle /\ buf' = disk_read D 3 1 ++ drop (Z.to_nat 1 * 512) (replicate 512 9)) /\
     (in_range_of drive0 3 1 (length (replicate 512 9)) -> quick calm_drive -> r = Ok () /\ quick w')) /\
  (exists r w', drive_write drive0 3 1 (replicate 512 9) calm_drive = Some (r, w') /\ same_except (within 3 1) D (store (view w')) /\
     (~ in_range_of drive0 3 1 (length (replicate 512 9)) -> r = Err BadArgs /\ w' = calm_drive) /\
     (r = Ok () -> phase (view w') = Idle /\ forall k, within 3 1 k -> store (view w') k = slice (Z.to_nat (k - 3) * 512) 512 (replicate 512 9)) /\
     (in_range_of drive0 3 1 (length (replicate 512 9)) -> quick calm_drive -> r = Ok () /\ quick w')).
Proof.
  split; [split; [split; discriminate|split; [discriminate|apply Nat.leb_le; reflexivity]]|]. apply (drive_refines_disk drive0 calm_drive 3 1 (replicate 512 9)).
  - discriminate.
  - reflexivity.
  - intros k. split; [reflexivity|]. apply Forall_replicate. red. lia.
  - apply Forall_replicate. red. lia.
  - discriminate.
  - discriminate.
Defined.
